(* ===== verification/_CoqProject ===== *)
-Q . S2P
Prelude.v
Double.v
Rounding.v
CStrings.v
Common.v
CommonReference.v
ConfigStore.v
Preferences.v
TableLayout.v
Hidpp.v
Bytes.v
ProcessModel.v
ProcessGrouping.v
ProcessExport.v
MonitorTypes.v
StartupEntries.v
WifiMetadata.v
NetworkLinks.v
NetworkMonitor.v
HardwareTopology.v
ThermalPolicy.v
SampleHistory.v
SortedVector.v
PciNames.v
ProcessStat.v
ProcessGpu.v
ProcessFiles.v
ProcessControl.v
ProcessScan.v
ScanOwnership.v
ScanTransaction.v
ProcessPriority.v
ProcessScanner.v
RecorderCsv.v
ProcessRecorder.v
CpuAccounting.v
DiskAccounting.v
DiskMonitor.v
MemoryAccounting.v
GpuMetrics.v
Mountinfo.v
FilesystemInventory.v
Pressure.v
SmbiosMemory.v
BluetoothTraffic.v
OverviewHistory.v
History.v
HistoryPersistence.v
