(* ===== verification/Prelude.v ===== *)
(** * System Monitor: a verification library

    System Monitor is a desktop task manager written in C.  Linux and Windows
    backends read native sources (procfs, sysfs, netlink, HCI sockets, SMBIOS
    tables, Win32), platform-neutral accounting and history modules turn the
    samples into published metrics, and GTK or Win32 presentation shows them.
    This library models the part between the native sources and the widgets:
    the parsers of native text and binary data, the accounting that turns
    counters into metrics, the retained histories, and the threads that carry
    the work off the main loop.  Paths below are relative to [src/src/].

    ** Layout

    - [Prelude]: widths, tactics ([bool_hyps], [case_goal], ...), record updates
      and the ring-buffer lemmas shared by the two ring histories.
    - [Double]: IEEE 754 binary64 (and the x87 intermediate) on the Standard
      Library's [SpecFloat], with the ordering and range lemmas; [Rounding]: a
      rounded result never crosses a representable bound.
    - [CStrings]: the libc string functions the sources call ([strcmp],
      [strtok_r], [fgets], [%llu], ...) and decimal printing.
    - [Bytes]: reads of a byte table that fail outside it.
    - [Common]: the interface of the [infiltratr-common] Git submodule, which is
      not part of this tree: one class of operations per header and one class of
      the documented laws the program relies on.  Every file that calls it takes
      the operations, and every theorem that needs a law takes the law class, as
      section context.  [CommonReference] gives executable instances and proves
      the laws for them; the witnesses run on these.
    - [ProcessModel], [MonitorTypes]: the shared structures of [process_model.h],
      [monitor_types.h] and [monitor.h].

    - [ConfigStore]: line-oriented settings files over the shared library's
      configuration reader and atomic writer ([ConfigOps], [ConfigLaws]), with the
      round-trip lemmas the settings and the layouts share.

    One file per component follows; the definitions keep the C names, and each
    file's opening comment says what it corresponds to.

    - [SampleHistory] ([sample_history.c]): the 600-slot graph ring.
    - [ProcessScanner] ([process_scanner.c]): the background scan worker, its
      main-loop dispatch and its owner.
    - [SortedVector], [ProcessStat], [ProcessControl] ([process_backend_linux.c]):
      the kernel's process record, and signalling a process or a process tree
      while PIDs are recycled.
    - [ProcessGpu] ([process_gpu.c]): a process's DRM clients and their engines.
    - [ProcessFiles] ([process_backend_linux.c]): the readers of a process's
      status, command, control group, I/O and descriptor files, and
      [lsm_process_enrich].
    - [ProcessScan], [ScanOwnership], [ScanTransaction]
      ([process_backend_linux.c]): the periodic scan over the retained samples:
      definitions, who owns which metadata string, and what a scan that succeeds
      or fails leaves.
    - [ProcessPriority] ([process_backend_linux.c]): priorities, efficiency mode
      with its restore table, CPU affinity.
    - [RecorderCsv], [ProcessRecorder] ([process_recorder.c]): the recorder's CSV
      schema with its strict import, and its writer thread over a linked queue.
    - [CpuAccounting] ([cpu_accounting.c]), [DiskAccounting]
      ([disk_accounting.c]), [MemoryAccounting] ([memory_accounting.c]): counters
      into metrics.
    - [DiskMonitor], [NetworkMonitor] ([monitor_storage_network.c]): the retained
      disks and interfaces: topology refresh, baselines carried from one topology
      to the next, samples, partitions and rates; [NetworkLinks]
      ([system_sources.c]): the netlink link dump, announced changes, the sysfs
      fallback and interface identities; [WifiMetadata] ([wifi_metadata.c]): the
      decoding of wireless answers and their cache.
    - [HardwareTopology] ([hardware_topology.c]): reconciling discovered GPUs,
      batteries and NPUs with the retained ones; [ThermalPolicy]
      ([thermal_policy.c]): the temperature limits; [PciNames] ([pci_names.c]):
      the name look-up and its bounded cache; [Hidpp] ([logitech_hidpp.c],
      [logitech_hidpp_protocol.c]): the report codec, a battery query and the
      worker that runs the queries.
    - [Preferences] ([preferences.c]), [TableLayout] ([details_layout.c],
      [details_page.c], [filesystems.c]): settings and the layouts of both tables.
    - [ProcessGrouping] ([process_grouping.c]), [ProcessExport]
      ([process_export.c]): group totals, and the CSV document of a selection.
    - [StartupEntries] ([startup_backend_linux.c]): the startup inventory, its
      precedence, and overrides.
    - [FilesystemInventory] ([filesystem_inventory.c]): mounts with capacity.
    - [GpuMetrics] ([gpu_metrics.c]): which GPU metrics can be graphed.
    - [Mountinfo] ([mountinfo.c]), [Pressure] ([pressure.c]): procfs parsers.
    - [SmbiosMemory] ([smbios_memory.c]): the firmware table walk.
    - [BluetoothTraffic] ([bluetooth_traffic.c]): the HCI monitor decoder, the
      bounded link table, and the life cycle of the privileged reader.
    - [OverviewHistory] ([overview_history.c]): the ring behind the overview.
    - [History], [HistoryPersistence] ([history.c], [history_persistence.c]): the
      per-application totals, their retention, their file and its save machine.

    ** Modelling conventions

    An unsigned C integer is a [Z] with its wrap-around written as [wrap w] where
    it can occur; array indices and lengths are [nat].  A [double] is a
    [spec_float] and every rounding is modelled.  A pointer that may be NULL is an
    [option]; a NUL-terminated array is a [string]; a GLib hash table is a [gmap],
    and the order GLib iterates it in is a class parameter ([History.HashOrder])
    about which only "a permutation" is assumed.  A function that may fail and
    has an out-parameter returns the pair of its result and the outgoing
    contents, so a theorem can say what a failure leaves.  Allocation failures are
    boolean arguments.  [qsort] is a class ([Qsort], [QsortLaws]): some sorted
    permutation, so no theorem depends on the order of equal elements.  GTK's
    column list ([TableLayout.ColumnView]), GLib's key files
    ([StartupEntries.KeyFileOps]) and the field encoder of CSV
    ([ProcessExport.EscapeLaws]) are interfaces of the same kind: operations with
    the documented laws the code relies on, an instance of which each witness runs
    on.  A file, a directory, a socket is the list of the answers the code gets,
    failures included.

    Threads are step relations.  A step is a critical section or one access to an
    atomic, so every interleaving the mutexes allow is a path of the relation;
    atomics are sequentially consistent.  Memory is explicit where the claim is
    about it: the scanner and the recorder carry reference counts and a freed
    flag, the recorder's queue lives in a heap of nodes and a dereference of a
    freed node is an error value, and the Bluetooth reader carries its descriptor
    and its capability window.  [ProcessControl] makes
    the kernel a parameter indexed by the time of each system call.

    ** What the theorems show

    - Ring refinements: pushing on a C ring is pushing on a bounded list
      ([SampleHistory], [OverviewHistory]); the overview ring is the end of a log
      with explicit gaps, increasing times and consecutive generations.
    - Concurrency: nothing freed is touched and everything is freed exactly once
      ([ProcessScanner], [ProcessRecorder], [HistoryPersistence],
      [BluetoothTraffic]); the scan worker serves the newest request within six
      of its own moves and sleeps only then; no accepted record is lost without
      an error; a stopped writer drains within a bound; a clean history is on disk
      and an older snapshot never replaces a newer one; exactly the descriptors
      the Bluetooth capture answers for are open, and none is published or read
      before the capabilities are dropped.
    - Parsers: total on every input, inside their buffers, strict (they accept
      nothing but their grammar), all-or-nothing in what they publish, and
      inverses of the kernel's or the program's own printer.
    - Devices: a HID++ battery is reported as the device encoded it, by either of
      the two features ([Hidpp.unified_code], [Hidpp.status_code], ... are the
      device's side).
    - Accounting: the published metric of every branch, resets and rollbacks
      included, against specifications of their own ([CpuAccounting.busy_percent],
      [History.sum_entry], [ScanTransaction.io_rates]) over the previous baselines;
      conservation and saturation
      of the per-application totals; independence of hash order and allocation
      failures.
    - Arrays that stand for maps: the disk and network arrays with their parallel
      baselines, the wireless cache and the PCI name cache behave as maps from
      instance identities (or names) to the last observation of that instance, over
      any series of topologies, failures and samples; reconciled hardware keeps
      the state of what stays.
    - Files of the user: settings read back as they were written, and so does a
      table's layout, except that a column's width has to be in its range (a column
      never shown has none); any file leaves the program in a valid state;
      switching a startup entry touches that entry alone and makes it effective
      exactly when it was asked to be and may run ([StartupEntries.may_run]); an
      export reads back as the selected rows, ordinary text without its newlines.
    - All or nothing: a link dump, a startup inventory and a filesystem inventory
      are published complete or not at all.
    - Process control: no signal reaches a recycled PID, and a tree operation
      reaches exactly the processes below its root, children first; efficiency
      mode gives back the nice value the first enabling call found, and the I/O
      priority when that call had lowered it; a failed call has no effect; the
      details added to a row are those of its own instance or withdrawn, with one
      exception for the control group.
    - The process scan is a transaction: a failure at any point leaves the
      retained samples as they were, a success refines a map from PIDs to
      baselines, of which every usage and rate is the difference, and every
      metadata string is freed once.
    - Equivalences of the optimised code with a specification: the in-place
      selection of the busiest processes is a sort, the two eviction paths of the
      history agree, merging is a key-wise
      union that adds the totals.

    ** Fuel

    Loops over a text or a byte table run on fuel equal to its length, and every
    iteration consumes at least one element, so the fuel never ends the loop: the
    round-trip and acceptance theorems would fail if it did.  [History.trim_loop]
    runs on the entry count and [History.trim_loop_spec] shows that is enough.
    The writer thread of the recorder has a termination theorem of its own.

    ** Not modelled, and why

    - Presentation: the GTK and Win32 pages, dialogs, menus, drawing and theming
      ([app_*], [performance*], [overview.c], [processes_ui.c], [services.c],
      [users.c], [startup.c], [main*.c], ...): toolkit calls with no contract of
      their own to state.
    - Native collection: code whose body is system calls, ioctls, D-Bus or Win32
      calls (the other [monitor_*] files, the block, GPU, NPU and battery scans of
      [system_sources.c], [nvml.c], [intel_gpu.c], [npu_telemetry.c],
      [cpu_direct.c], the hidraw walk of [lsm_logitech_hidpp_find_device], ...);
      the parsers they feed are modelled.
    - Generated data: [pci_names_data.c].
    - [infiltratr-common]: not in the tree; it is the interface in [Common].
    - The confirmation dialogs, timers and file paths around the modelled
      operations; stdio and socket results are arguments of the models. *)
From stdpp Require Export base tactics list gmap strings.
From Stdlib Require Export ZArith Lia.
From Stdlib Require Ascii Strings.Byte Sorting.Sorted.
Export Stdlib.Strings.Ascii (ascii(..)).
Export (notations) Stdlib.Strings.Ascii.

(** Machine-width bounds of the C types the program uses.  An unsigned C value
    is a [Z] in range; every operation that can wrap says so explicitly. *)
Definition uint8_max : Z := 255.
Definition uint16_max : Z := 65535.
Definition uint_max : Z := 4294967295.
Definition uint64_max : Z := 18446744073709551615.
Definition size_max : Z := uint64_max.

Definition u64 (z : Z) : Prop := (0 <= z <= uint64_max)%Z.

(** Unsigned conversion and arithmetic of the C abstract machine at width [w]. *)
Definition wrap (w z : Z) : Z := (z mod 2 ^ w)%Z.

Lemma u64_zero : u64 0.
Proof. done. Qed.

(** ** Tactics *)

(** Split the innermost scrutinee of a [match]/[if] of the goal. *)
Ltac case_goal :=
  match goal with
  | |- context [match ?x with _ => _ end] =>
      lazymatch x with
      | context [match _ with _ => _ end] => fail
      | _ => let E := fresh "E" in destruct x eqn:E
      end
  end.

(** The same for a hypothesis. *)
Ltac case_hyp H :=
  match type of H with
  | context [match ?x with _ => _ end] =>
      lazymatch x with
      | context [match _ with _ => _ end] => fail
      | _ => let E := fresh "E" in destruct x eqn:E
      end
  end.

(** Turn the boolean tests of a guard into propositions. *)
Ltac bool_hyps :=
  repeat match goal with
  | H : (_ && _) = true |- _ => apply andb_true_iff in H; destruct H
  | H : (_ || _) = false |- _ => apply orb_false_iff in H; destruct H
  | H : negb _ = true |- _ => apply negb_true_iff in H
  | H : negb _ = false |- _ => apply negb_false_iff in H
  | H : (_ =? _)%Z = true |- _ => apply Z.eqb_eq in H
  | H : (_ =? _)%Z = false |- _ => apply Z.eqb_neq in H
  | H : (_ <? _)%Z = true |- _ => apply Z.ltb_lt in H
  | H : (_ <? _)%Z = false |- _ => apply Z.ltb_ge in H
  | H : (_ <=? _)%Z = true |- _ => apply Z.leb_le in H
  | H : (_ <=? _)%Z = false |- _ => apply Z.leb_gt in H
  | H : (_ =? _)%nat = true |- _ => apply Nat.eqb_eq in H
  | H : (_ =? _)%nat = false |- _ => apply Nat.eqb_neq in H
  | H : (_ <? _)%nat = true |- _ => apply Nat.ltb_lt in H
  | H : (_ <? _)%nat = false |- _ => apply Nat.ltb_ge in H
  | H : (_ <=? _)%nat = true |- _ => apply Nat.leb_le in H
  | H : (_ <=? _)%nat = false |- _ => apply Nat.leb_gt in H
  end.

(** ** Record update

    [x <| field := v |>] is the C assignment [x.field = v] on a record value.  A
    record type declares its field-wise identity; the update of one field is
    that identity with the field's projection replaced. *)
Class Eta (R : Type) := eta : R → R.

Class Setter {R F : Type} (proj : R → F) := set_field : F → R → R.
Arguments set_field {R F} proj {_} _ _ /.

Ltac find_setter proj :=
  let R := lazymatch type of proj with ?R → _ => R end in
  let e := constr:(_ : Eta R) in
  let e := eval hnf in e in
  let e := eval cbv beta in e in
  lazymatch eval pattern proj in e with
  | ?update _ => let u := eval cbv beta in (λ v, update (λ _, v)) in exact u
  end.

#[export] Hint Extern 1 (Setter ?proj) => find_setter proj : typeclass_instances.

#[warnings="-postfix-notation-not-level-1"]
Notation "x <| proj := v |>" := (set_field proj v x)
  (at level 12, left associativity, proj at level 99, v at level 99,
   format "x  <| proj  :=  v |>").

(** ** Sorting

    [qsort] with a comparison function: some sorted permutation; which one is
    not specified when elements compare equal. *)
Class Qsort := qsort : ∀ {A}, (A → A → comparison) → list A → list A.

(** The comparisons [qsort] is called with. *)
Record preorder_cmp {A} (cmp : A → A → comparison) : Prop := {
  cmp_antisym x y : cmp y x = CompOpp (cmp x y);
  cmp_trans x y z : cmp x y ≠ Gt → cmp y z ≠ Gt → cmp x z ≠ Gt;
}.

Class QsortLaws `{Qsort} : Prop := {
  qsort_permutation {A} (cmp : A → A → comparison) l : preorder_cmp cmp → qsort cmp l ≡ₚ l;
  qsort_sorted {A} (cmp : A → A → comparison) l :
    preorder_cmp cmp → Sorted.StronglySorted (λ x y, cmp x y ≠ Gt) (qsort cmp l);
}.

(** A pointwise update of an association list is one of the map it gives. *)
Lemma list_to_map_imap {A} (f : string → A → A) (l : list (string * A)) :
  list_to_map ((λ r, (r.1, f r.1 r.2)) <$> l) = map_imap (λ k x, Some (f k x)) (list_to_map l) :> gmap string A.
Proof.
  apply map_eq. intros k. rewrite map_lookup_imap. induction l as [|[k' x] l IH]; cbn.
  { by rewrite lookup_empty. }
  destruct (decide (k' = k)) as [->|Hne]; [by rewrite !lookup_insert_eq|by rewrite !lookup_insert_ne].
Qed.

(** ** Circular buffers

    Both retained histories of the program (graph samples and Overview samples)
    store a window of a fixed array addressed modulo its length. *)

(** The logical contents of a circular array: [count] slots from [head] on. *)
Definition ring_window {A} (slots : list A) (head count : nat) : list A :=
  take count (rotate head slots).

Lemma ring_slot_inj (n head i j : nat) :
  (i < n)%nat → (j < n)%nat →
  ((head + i) mod n = (head + j) mod n)%nat → i = j.
Proof.
  intros Hi Hj E.
  pose proof (Nat.div_mod_eq (head + i) n).
  pose proof (Nat.div_mod_eq (head + j) n).
  assert ((head + i) / n = (head + j) / n ∨ (head + i) / n < (head + j) / n
          ∨ (head + j) / n < (head + i) / n)%nat as [?|[?|?]] by lia; nia.
Qed.

Section ring.
Context {A : Type}.
Implicit Types slots : list A.

Lemma length_tail (l : list A) : length (tail l) = pred (length l).
Proof. by destruct l. Qed.

Lemma rotate_lookup slots head i :
  (i < length slots)%nat →
  rotate head slots !! i = slots !! ((head + i) mod length slots)%nat.
Proof.
  intros Hi. set (n := length slots) in *. unfold rotate. fold n.
  pose proof (Nat.mod_upper_bound head n ltac:(lia)) as Hm.
  set (m := (head mod n)%nat) in *.
  assert ((head + i) mod n = (m + i) mod n)%nat as ->.
  { unfold m. rewrite Nat.Div0.add_mod_idemp_l. done. }
  destruct (decide (m + i < n)%nat).
  - rewrite lookup_app_l by (rewrite length_drop; lia).
    rewrite lookup_drop, Nat.mod_small by lia. done.
  - rewrite lookup_app_r by (rewrite length_drop; lia).
    rewrite length_drop. fold n.
    replace ((m + i) mod n)%nat with (i - (n - m))%nat.
    + rewrite lookup_take_lt by lia. done.
    + replace (m + i)%nat with (i - (n - m) + 1 * n)%nat by lia.
      rewrite Nat.Div0.mod_add, Nat.mod_small by lia. done.
Qed.

Lemma ring_window_lookup slots head count i :
  (count <= length slots)%nat → (i < count)%nat →
  ring_window slots head count !! i = slots !! ((head + i) mod length slots)%nat.
Proof.
  intros Hc Hi. unfold ring_window.
  rewrite lookup_take_lt by lia. apply rotate_lookup. lia.
Qed.

Lemma ring_window_length slots head count :
  (count <= length slots)%nat → length (ring_window slots head count) = count.
Proof. intros. unfold ring_window. rewrite length_take, length_rotate. lia. Qed.

(** Writing just past a window that is not full appends to it. *)
Lemma ring_window_snoc slots head count (x : A) :
  (count < length slots)%nat →
  ring_window (<[((head + count) mod length slots)%nat := x]> slots) head (S count)
  = ring_window slots head count ++ [x].
Proof.
  intros Hc. set (n := length slots) in *.
  assert (length (<[((head + count) mod n)%nat := x]> slots) = n) as Hn
    by apply length_insert.
  apply list_eq_same_length with (S count).
  - rewrite length_app, ring_window_length by lia. simpl. lia.
  - apply ring_window_length. lia.
  - intros i a b Hi Ha Hb.
    rewrite ring_window_lookup, Hn in Ha by lia.
    destruct (decide (i = count)) as [->|Hne].
    + rewrite list_lookup_insert_eq in Ha by (apply Nat.mod_upper_bound; lia).
      rewrite lookup_app_r in Hb by (rewrite ring_window_length; lia).
      rewrite ring_window_length, Nat.sub_diag in Hb by lia. by simplify_eq/=.
    + rewrite list_lookup_insert_ne in Ha.
      2: { intros E. apply ring_slot_inj in E; lia. }
      rewrite lookup_app_l in Hb by (rewrite ring_window_length; lia).
      rewrite ring_window_lookup in Hb by lia. fold n in Hb. congruence.
Qed.

(** Moving the start of a window one slot back, over the written slot,
    prepends to it. *)
Lemma ring_window_cons slots head count (x : A) :
  (count < length slots)%nat →
  ring_window (<[((head + length slots - 1) mod length slots)%nat := x]> slots)
    ((head + length slots - 1) mod length slots)%nat (S count)
  = x :: ring_window slots head count.
Proof.
  intros Hc. set (n := length slots) in *.
  set (h := ((head + n - 1) mod n)%nat).
  assert (h < n)%nat by (apply Nat.mod_upper_bound; lia).
  assert (length (<[h := x]> slots) = n) as Hn by apply length_insert.
  apply list_eq_same_length with (S count).
  - simpl. rewrite ring_window_length; lia.
  - apply ring_window_length. lia.
  - intros i a b Hi Ha Hb.
    rewrite ring_window_lookup, Hn in Ha by lia.
    destruct i as [|i].
    + rewrite Nat.add_0_r, Nat.mod_small, list_lookup_insert_eq in Ha by lia.
      by simplify_eq/=.
    + simpl in Hb. rewrite ring_window_lookup in Hb by lia. fold n in Hb.
      assert ((h + S i) mod n = (head + i) mod n)%nat as E.
      { unfold h. rewrite Nat.Div0.add_mod_idemp_l.
        replace (head + n - 1 + S i)%nat with (head + i + 1 * n)%nat by lia.
        apply Nat.Div0.mod_add. }
      rewrite list_lookup_insert_ne in Ha.
      2: { intros E'. assert (h = (h + 0) mod n)%nat as E0
             by (rewrite Nat.add_0_r, Nat.mod_small; lia).
           rewrite E0 in E' at 1. apply ring_slot_inj in E'; lia. }
      congruence.
Qed.

(** On a full window the same move forgets the last element. *)
Lemma ring_window_unstep slots head (x : A) :
  slots ≠ [] →
  ring_window (<[((head + length slots - 1) mod length slots)%nat := x]> slots)
    ((head + length slots - 1) mod length slots)%nat (length slots)
  = take (length slots) (x :: ring_window slots head (length slots)).
Proof.
  intros Hne.
  assert (length slots = S (pred (length slots))) as Hn by (destruct slots; done).
  pose proof (ring_window_cons slots head (pred (length slots)) x ltac:(lia)) as E.
  rewrite <-Hn in E. rewrite E.
  transitivity (take (S (pred (length slots))) (x :: ring_window slots head (length slots)));
    [|f_equal; lia].
  simpl. f_equal.
  unfold ring_window. rewrite take_take, Nat.min_l by lia. done.
Qed.

(** A full window forgets its oldest element when it is overwritten. *)
Lemma ring_window_step slots head (x : A) :
  (head < length slots)%nat →
  ring_window (<[head := x]> slots) ((head + 1) mod length slots)%nat (length slots)
  = tail (ring_window slots head (length slots)) ++ [x].
Proof.
  intros Hh. set (n := length slots) in *.
  assert (length (<[head := x]> slots) = n) as Hn by apply length_insert.
  apply list_eq_same_length with n.
  - rewrite length_app, length_tail, ring_window_length by lia. simpl. lia.
  - apply ring_window_length. lia.
  - intros i a b Hi Ha Hb.
    rewrite ring_window_lookup, Hn in Ha by lia.
    assert ((((head + 1) mod n) + i) mod n = (head + S i) mod n)%nat as E.
    { rewrite Nat.Div0.add_mod_idemp_l. f_equal. lia. }
    rewrite E in Ha. destruct (decide (S i = n)) as [Hl|Hl].
    + rewrite Hl in Ha. replace (head + n)%nat with (head + 1 * n)%nat in Ha by lia.
      rewrite Nat.Div0.mod_add, Nat.mod_small, list_lookup_insert_eq in Ha by lia.
      rewrite lookup_app_r in Hb by (rewrite length_tail, ring_window_length; lia).
      rewrite length_tail, ring_window_length in Hb by lia.
      replace (i - pred n)%nat with 0%nat in Hb by lia. by simplify_eq/=.
    + rewrite lookup_app_l in Hb by (rewrite length_tail, ring_window_length; lia).
      rewrite lookup_tail, ring_window_lookup in Hb by lia. fold n in Hb.
      rewrite list_lookup_insert_ne in Ha.
      2: { intros E'. assert (head = (head + 0) mod n)%nat as E''
             by (rewrite Nat.add_0_r, Nat.mod_small; lia).
           rewrite E'' in E' at 1. apply ring_slot_inj in E'; lia. }
      congruence.
Qed.
End ring.
