(* ===== verification/Double.v ===== *)
(** * Double: the C [double] and [long double] types

    A [double] is the Standard Library's executable specification of IEEE 754
    binary64 ([SpecFloat] at precision 53 and exponent bound 1024, round to
    nearest even); a [long double] is the x87 80-bit format (64, 16384) the
    Linux and MinGW x86-64 ABIs use.  The order lemmas below are the facts about
    C's comparison operators the components rely on. *)
From Stdlib Require Export SpecFloat.
From S2P Require Import Prelude.
Local Open Scope Z_scope.

Definition double : Type := spec_float.
Definition ldouble : Type := spec_float.

Definition dadd : double → double → double := SFadd 53 1024.
Definition dsub : double → double → double := SFsub 53 1024.
Definition dmul : double → double → double := SFmul 53 1024.
Definition ddiv : double → double → double := SFdiv 53 1024.

(** C's [<], [<=], [>], [>=]: false as soon as an operand is NaN. *)
Definition dlt (x y : double) : bool := SFltb x y.
Definition dle (x y : double) : bool := SFleb x y.
Abbreviation dgt x y := (dlt y x).
Abbreviation dge x y := (dle y x).

Definition isnan (x : double) : bool :=
  match x with S754_nan => true | _ => false end.
Definition isfinite (x : double) : bool :=
  match x with S754_zero _ | S754_finite _ _ _ => true | _ => false end.

(** Conversions [(double)n] and [(long double)n] of an integer. *)
Definition double_of_Z (z : Z) : double := binary_normalize 53 1024 z 0 false.
Definition ldouble_of_Z (z : Z) : ldouble := binary_normalize 64 16384 z 0 false.

Definition ldmul : ldouble → ldouble → ldouble := SFmul 64 16384.
Definition lddiv : ldouble → ldouble → ldouble := SFdiv 64 16384.

(** The conversion [(double)x] of an extended value: one rounding. *)
Definition double_of_ldouble (x : ldouble) : double :=
  match x with
  | S754_finite s m e => binary_normalize 53 1024 (if s then Z.neg m else Z.pos m) e s
  | _ => x
  end.

(** The conversion of a finite value to an integer type that holds it: the
    fraction is discarded. *)
Definition trunc_Z (x : spec_float) : Z :=
  match x with
  | S754_finite s m e =>
      let magnitude := if 0 <=? e then Z.pos m * 2 ^ e else Z.pos m / 2 ^ (- e) in
      if s then - magnitude else magnitude
  | _ => 0
  end.

Definition NAN : double := S754_nan.
Definition d0 : double := S754_zero false.
Definition d1 : double := double_of_Z 1.
Definition d100 : double := double_of_Z 100.
(** [DBL_MAX] is (2^53 - 1) * 2^971. *)
Definition DBL_MAX : double := S754_finite false 9007199254740991 971.

(** C's [fmax] and [fmin]: a NaN argument is ignored. *)
Definition fmax (x y : double) : double :=
  if isnan x then y else if isnan y then x else if dlt x y then y else x.
Definition fmin (x y : double) : double :=
  if isnan x then y else if isnan y then x else if dlt y x then y else x.

Create HintDb double.

(** ** The order of non-NaN doubles

    Comparison is lexicographic on a key: sign class, exponent, mantissa. *)

Definition dkey (x : double) : Z * Z * Z :=
  match x with
  | S754_zero _ | S754_nan => (0, 0, 0)
  | S754_infinity false => (2, 0, 0)
  | S754_infinity true => (-2, 0, 0)
  | S754_finite false m e => (1, e, Z.pos m)
  | S754_finite true m e => (-1, - e, Z.neg m)
  end.

Definition key_compare (p q : Z * Z * Z) : comparison :=
  match p.1.1 ?= q.1.1 with
  | Eq => match p.1.2 ?= q.1.2 with Eq => p.2 ?= q.2 | c => c end
  | c => c
  end.

Definition key_lt (p q : Z * Z * Z) : Prop :=
  p.1.1 < q.1.1 ∨ (p.1.1 = q.1.1 ∧ (p.1.2 < q.1.2 ∨ (p.1.2 = q.1.2 ∧ p.2 < q.2))).

Lemma key_compare_spec p q :
  CompareSpec (p = q) (key_lt p q) (key_lt q p) (key_compare p q).
Proof.
  destruct p as [[a b] c], q as [[a' b'] c']. unfold key_compare, key_lt. simpl.
  destruct (Z.compare_spec a a'); [subst|constructor; lia..].
  destruct (Z.compare_spec b b'); [subst|constructor; lia..].
  destruct (Z.compare_spec c c'); [subst|constructor; lia..].
  by constructor.
Qed.

Lemma SFcompare_key x y :
  isnan x = false → isnan y = false →
  SFcompare x y = Some (key_compare (dkey x) (dkey y)).
Proof.
  destruct x as [[]|[]| |[] mx ex], y as [[]|[]| |[] my ey]; intros Hx Hy; try done;
    unfold key_compare; simpl; f_equal.
  rewrite Z.compare_opp, (Z.compare_antisym ex ey).
  by destruct (ex ?= ey).
Qed.

Ltac key_cases :=
  match goal with
  | |- context [key_compare ?p ?q] =>
      destruct (key_compare_spec p q) as [?E|?E|?E]; try rewrite E in *
  end.

Lemma dlt_true x y :
  dlt x y = true ↔ isnan x = false ∧ isnan y = false ∧ key_lt (dkey x) (dkey y).
Proof.
  unfold dlt, SFltb.
  destruct (isnan x) eqn:Hx; [destruct x; try done; split; [done|by intros (?&_)]|].
  destruct (isnan y) eqn:Hy; [destruct x, y; try done; split; try done; by intros (_&?&_)|].
  rewrite SFcompare_key by done.
  key_cases; unfold key_lt in *; split; try tauto; try done; lia.
Qed.

Lemma dle_true x y :
  dle x y = true ↔
  isnan x = false ∧ isnan y = false ∧ (dkey x = dkey y ∨ key_lt (dkey x) (dkey y)).
Proof.
  unfold dle, SFleb.
  destruct (isnan x) eqn:Hx; [destruct x; try done; split; [done|by intros (?&_)]|].
  destruct (isnan y) eqn:Hy; [destruct x, y; try done; split; try done; by intros (_&?&_)|].
  rewrite SFcompare_key by done.
  key_cases; unfold key_lt in *; split; try tauto; try done.
  intros (_&_&[E'|?]); [rewrite E' in *|]; lia.
Qed.

(** [dorder] decides a goal about comparisons of doubles from comparisons in the
    context, once NaN-freeness is known. *)
Ltac dorder_norm :=
  repeat match goal with
  | H : dlt _ _ = true |- _ => apply dlt_true in H; destruct H as (?&?&?)
  | H : dle _ _ = true |- _ => apply dle_true in H; destruct H as (?&?&?)
  end.

Lemma key_lt_trans p q r : key_lt p q → key_lt q r → key_lt p r.
Proof. unfold key_lt. lia. Qed.

Lemma key_lt_irrefl p : ¬ key_lt p p.
Proof. unfold key_lt. lia. Qed.

Lemma dle_refl x : isnan x = false → dle x x = true.
Proof. intros. apply dle_true. auto. Qed.

Lemma dlt_le x y : dlt x y = true → dle x y = true.
Proof. intros (?&?&?)%dlt_true. apply dle_true. auto. Qed.

Lemma dle_trans x y z : dle x y = true → dle y z = true → dle x z = true.
Proof.
  intros (?&?&Hxy)%dle_true (?&?&Hyz)%dle_true. apply dle_true.
  split_and!; [done..|]. destruct Hxy as [->|?], Hyz as [<-|?]; auto.
  right. by eapply key_lt_trans.
Qed.

Lemma dlt_trans x y z : dlt x y = true → dlt y z = true → dlt x z = true.
Proof.
  intros (?&?&?)%dlt_true (?&?&?)%dlt_true. apply dlt_true.
  split_and!; [done..|]. by eapply key_lt_trans.
Qed.

Lemma dlt_irrefl x : dlt x x = false.
Proof.
  destruct (dlt x x) eqn:E; [|done]. apply dlt_true in E as (_&_&[]%key_lt_irrefl).
Qed.

Lemma dlt_asym x y : dlt x y = true → dlt y x = false.
Proof.
  intros H. destruct (dlt y x) eqn:E; [|done].
  pose proof (dlt_trans _ _ _ H E) as E'. by rewrite dlt_irrefl in E'.
Qed.

(** For non-NaN operands [!(x < y)] is [y <= x]. *)
Lemma dlt_false_iff x y :
  isnan x = false → isnan y = false → dlt x y = false ↔ dle y x = true.
Proof.
  intros Hx Hy. unfold dlt, dle, SFltb, SFleb. rewrite !SFcompare_key by done.
  destruct (key_compare_spec (dkey x) (dkey y)) as [H|H|H],
    (key_compare_spec (dkey y) (dkey x)) as [H'|H'|H'];
    try rewrite H in *; try rewrite H' in *; unfold key_lt in *; try done; split; try done; lia.
Qed.

Lemma dle_false_iff x y :
  isnan x = false → isnan y = false → dle x y = false ↔ dlt y x = true.
Proof.
  intros Hx Hy. pose proof (dlt_false_iff y x Hy Hx).
  destruct (dlt y x), (dle x y); intuition done.
Qed.

Lemma dle_not_dlt x y : dle x y = true → dlt y x = false.
Proof.
  intros H. pose proof H as (Hx & Hy & _)%dle_true. by apply dlt_false_iff.
Qed.

Lemma isfinite_not_nan x : isfinite x = true → isnan x = false.
Proof. by destruct x. Qed.

#[export] Hint Resolve dle_refl dlt_le isfinite_not_nan : double.

(** Clamping to an interval, as the presentation code writes it. *)
Definition in_percent (x : double) : Prop := dle d0 x = true ∧ dle x d100 = true.

Lemma in_percent_not_nan x : in_percent x → isnan x = false.
Proof. intros [(_&?&_)%dle_true _]. done. Qed.

Lemma in_percent_0 : in_percent d0.
Proof. split; vm_compute; reflexivity. Qed.

Lemma in_percent_100 : in_percent d100.
Proof. split; vm_compute; reflexivity. Qed.

Lemma in_percent_range x :
  isnan x = false → dlt x d0 = false → dlt d100 x = false → in_percent x.
Proof.
  intros Hx H0 H1. split.
  - by apply dlt_false_iff.
  - by apply dlt_false_iff.
Qed.

#[export] Hint Resolve in_percent_0 in_percent_100 in_percent_range : double.

(** ** Results that are never NaN

    Rounding keeps a mantissa non-negative, so an arithmetic result is NaN only
    on the invalid operations of IEEE 754. *)

Lemma shr_1_nonneg m : 0 <= shr_m m → 0 <= shr_m (shr_1 m).
Proof. destruct m as [[|[p|p|]|p] r s]; simpl; lia. Qed.

Lemma iter_shr_nonneg (n : positive) (m : shr_record) : 0 <= shr_m m → 0 <= shr_m (SpecFloat.iter_pos shr_1 n m).
Proof.
  revert m. induction n as [n IH|n IH|]; intros m Hm; simpl.
  - apply IH, IH, shr_1_nonneg, Hm.
  - apply IH, IH, Hm.
  - apply shr_1_nonneg, Hm.
Qed.

Lemma shr_fexp_nonneg prec emax m e l : 0 <= m → 0 <= shr_m (shr_fexp prec emax m e l).1.
Proof.
  intros Hm. unfold shr_fexp, shr.
  assert (0 <= shr_m (shr_record_of_loc m l)) by (destruct l as [|[]]; done).
  destruct (_ - e); simpl; try done. by apply iter_shr_nonneg.
Qed.

Lemma round_nearest_even_nonneg m l : 0 <= m → 0 <= round_nearest_even m l.
Proof. intros Hm. destruct l as [|[]]; simpl; try lia. destruct (Z.even m); lia. Qed.

Lemma binary_round_aux_not_nan prec emax s m e l :
  0 <= m → isnan (binary_round_aux prec emax s m e l) = false.
Proof.
  intros Hm. unfold binary_round_aux.
  pose proof (shr_fexp_nonneg prec emax m e l Hm) as H1.
  destruct (shr_fexp prec emax m e l) as [r1 e1]. simpl in H1.
  pose proof (shr_fexp_nonneg prec emax (round_nearest_even (shr_m r1) (loc_of_shr_record r1)) e1
    loc_Exact (round_nearest_even_nonneg _ _ H1)) as H2.
  destruct (shr_fexp _ _ _ e1 _) as [r2 e2]. simpl in H2.
  destruct (shr_m r2); [done| |lia]. by destruct (_ <=? _).
Qed.

Lemma binary_normalize_not_nan prec emax m e s :
  isnan (binary_normalize prec emax m e s) = false.
Proof.
  unfold binary_normalize, binary_round. destruct m; [done|..];
    destruct (shl_align _ _ _) as [m' e']; by apply binary_round_aux_not_nan.
Qed.

Lemma double_of_Z_not_nan z : isnan (double_of_Z z) = false.
Proof. apply binary_normalize_not_nan. Qed.

(** A number divided by a non-zero number. *)
Lemma ddiv_not_nan x s m e : isnan x = false → isnan (ddiv x (S754_finite s m e)) = false.
Proof.
  destruct x as [s'|s'| |s' m' e']; simpl; try done. intros _.
  unfold ddiv, SFdiv. destruct (SFdiv_core_binary _ _ _ _ _ _) as [[q e''] l] eqn:E.
  apply binary_round_aux_not_nan. unfold SFdiv_core_binary in E.
  revert E. cbv zeta. set (k := Z.min _ _). clearbody k.
  match goal with |- context [Z.div_eucl ?a _] => set (num := a) end.
  assert (0 <= num) as Hnum.
  { unfold num. destruct (e' - e - k); try lia. apply Z.shiftl_nonneg. lia. }
  pose proof (Z.div_pos num (Z.pos m) Hnum ltac:(lia)) as Hq. unfold Z.div in Hq.
  destruct (Z.div_eucl num (Z.pos m)) as [q' r]. by intros [= <- _ _].
Qed.

Lemma fmax_0_nonneg x : dle d0 (fmax d0 x) = true.
Proof.
  unfold fmax. simpl (isnan d0). cbv iota. destruct (isnan x); [done|].
  destruct (dlt d0 x) eqn:E; [by apply dlt_le|done].
Qed.
