(* ===== verification/Rounding.v ===== *)
(** * Rounding: round-to-nearest never crosses a representable bound

    The facts about [SpecFloat]'s rounding the bounds of the program's metrics
    rest on: a rounded result fits its format, and a value that does not exceed a
    representable number does not exceed it after rounding either.  The second is
    what makes a clamp in extended precision a clamp of the double it is
    converted to. *)
From S2P Require Import Prelude Double.
Local Open Scope Z_scope.

(** ** Digits *)

Lemma digits_bounds p : 2 ^ (Z.pos (digits2_pos p) - 1) <= Z.pos p < 2 ^ Z.pos (digits2_pos p).
Proof.
  induction p as [p IH|p IH|]; [| |by split].
  all: simpl digits2_pos; rewrite Pos2Z.inj_succ.
  all: replace (Z.succ (Z.pos (digits2_pos p)) - 1) with (Z.succ (Z.pos (digits2_pos p) - 1)) by lia.
  all: rewrite !Z.pow_succ_r by lia; lia.
Qed.

Lemma digits_le n p d : 0 <= n -> Z.pos p < 2 ^ n -> d = Z.pos (digits2_pos p) -> d <= n.
Proof.
  intros Hn Hp ->. pose proof (digits_bounds p) as [Hlo _].
  destruct (Z.le_gt_cases (Z.pos (digits2_pos p)) n) as [|Hgt]; [done|].
  assert (2 ^ n <= 2 ^ (Z.pos (digits2_pos p) - 1)) by (apply Z.pow_le_mono_r; lia). lia.
Qed.

Lemma Zdigits_le n m : 0 <= n -> 0 <= m < 2 ^ n -> Zdigits2 m <= n.
Proof. intros Hn Hm. destruct m as [|p|p]; simpl; [done|eapply digits_le; [done|apply Hm|done]|lia]. Qed.

Lemma Zdigits_bound m : 0 <= m -> m < 2 ^ Zdigits2 m.
Proof. intros Hm. destruct m as [|p|p]; simpl; [done|apply digits_bounds|lia]. Qed.

(** ** Shifting right with a sticky remainder *)

(** The record stands for a value of at most [n]. *)
Definition rec_le (r : shr_record) (n : Z) : Prop :=
  shr_m r < n ∨ (shr_m r = n ∧ shr_r r = false ∧ shr_s r = false).

Lemma shr_1_le r n : 0 <= shr_m r -> rec_le r (2 * n) -> rec_le (shr_1 r) n.
Proof.
  destruct r as [m b s]. unfold rec_le. simpl. intros Hm Hle.
  destruct m as [|[p|p|]|p]; simpl; try lia; destruct Hle as [|(?&->&->)]; simpl; lia || (right; auto with lia).
Qed.

Lemma shr_iter_le p r n :
  0 <= shr_m r -> rec_le r (n * 2 ^ Z.pos p) -> rec_le (SpecFloat.iter_pos shr_1 p r) n.
Proof.
  revert r n. induction p as [p IH|p IH|]; intros r n Hm Hr; simpl.
  - apply IH; [apply iter_shr_nonneg, shr_1_nonneg, Hm|]. apply IH; [apply shr_1_nonneg, Hm|].
    apply shr_1_le; [done|]. replace (Z.pos p~1) with (1 + (Z.pos p + Z.pos p)) in Hr by lia.
    rewrite !Z.pow_add_r in Hr by lia. replace (2 * (n * 2 ^ Z.pos p * 2 ^ Z.pos p))
      with (n * (2 ^ 1 * (2 ^ Z.pos p * 2 ^ Z.pos p))) by lia. done.
  - apply IH; [apply iter_shr_nonneg, Hm|]. apply IH; [done|].
    replace (Z.pos p~0) with (Z.pos p + Z.pos p) in Hr by lia.
    rewrite Z.pow_add_r in Hr by lia. by rewrite <-Z.mul_assoc.
  - apply shr_1_le; [done|]. by replace (2 * n) with (n * 2 ^ 1) by lia.
Qed.

Lemma round_le r n : rec_le r n -> round_nearest_even (shr_m r) (loc_of_shr_record r) <= n.
Proof.
  destruct r as [m b s]. unfold rec_le. simpl. intros [H|(->&->&->)]; [|simpl; lia].
  destruct b, s; simpl; try lia. destruct (Z.even m); lia.
Qed.

Lemma record_nonneg m l : 0 <= m -> 0 <= shr_m (shr_record_of_loc m l).
Proof. by destruct l as [|[]]. Qed.

Lemma exact_le m n : m <= n -> rec_le (shr_record_of_loc m loc_Exact) n.
Proof. intros H. unfold rec_le. cbn. destruct (Z.eq_dec m n); [by right|left; lia]. Qed.

(** One alignment, for a bound on the grid it aligns to. *)
Lemma shr_fexp_le prec emax m e l n target :
  0 <= m -> e <= target -> fexp prec emax (Zdigits2 m + e) <= target ->
  rec_le (shr_record_of_loc m l) (n * 2 ^ (target - e)) ->
  let '(r, e') := shr_fexp prec emax m e l in
  e <= e' <= target ∧ rec_le r (n * 2 ^ (target - e')) ∧ fexp prec emax (Zdigits2 m + e) <= e'.
Proof.
  intros Hm He Hf Hr. unfold shr_fexp, shr.
  destruct (fexp prec emax (Zdigits2 m + e) - e) as [|p|p] eqn:E; [by split_and!; try lia| |by split_and!; try lia].
  split_and!; try lia. apply shr_iter_le; [by apply record_nonneg|].
  rewrite <-Z.mul_assoc, <-Z.pow_add_r by lia. by replace (target - (e + Z.pos p) + Z.pos p) with (target - e) by lia.
Qed.

Lemma fexp_mono prec emax a b : a <= b -> fexp prec emax a <= fexp prec emax b.
Proof. unfold fexp. lia. Qed.

(** A bound in the format: its exponent is its own target. *)
Record representable (prec emax : Z) (m : positive) (e : Z) : Prop := {
  rp_canonical : fexp prec emax (Z.pos (digits2_pos m) + e) = e;
  rp_finite : e <= emax - prec;
}.

Lemma below_target prec emax mb eb m e :
  representable prec emax mb eb -> e <= eb -> 0 <= m <= Z.pos mb * 2 ^ (eb - e) ->
  fexp prec emax (Zdigits2 m + e) <= eb.
Proof.
  intros Hb He Hm. pose proof (rp_canonical _ _ _ _ Hb) as Hc.
  enough (fexp prec emax (Zdigits2 m + e) <= fexp prec emax (Z.pos (digits2_pos mb) + eb)) by lia.
  apply fexp_mono.
  enough (Zdigits2 m <= Z.pos (digits2_pos mb) + (eb - e)) by lia.
  apply Zdigits_le; [lia|]. split; [lia|]. rewrite Z.pow_add_r by lia.
  pose proof (digits_bounds mb). assert (0 < 2 ^ (eb - e)) by (apply Z.pow_pos_nonneg; lia). nia.
Qed.

(** What a value bounded by the representable [mb * 2^eb] rounds to. *)
Definition rounded_le (mb : positive) (eb : Z) (s : bool) (x : spec_float) : Prop :=
  match x with
  | S754_zero s' => s' = s
  | S754_finite s' m e => s' = s ∧ (e < eb ∨ (e = eb ∧ (m <= mb)%positive))
  | _ => False
  end.

Lemma binary_round_aux_le prec emax s m e l mb eb :
  representable prec emax mb eb -> 0 <= m -> e <= eb ->
  rec_le (shr_record_of_loc m l) (Z.pos mb * 2 ^ (eb - e)) ->
  rounded_le mb eb s (binary_round_aux prec emax s m e l).
Proof.
  intros Hb Hm He Hr. unfold binary_round_aux.
  assert (Hm' : m <= Z.pos mb * 2 ^ (eb - e)).
  { destruct Hr as [|[]], l as [|[]]; simpl in *; lia. }
  pose proof (shr_fexp_le prec emax m e l (Z.pos mb) eb Hm He
                (below_target _ _ _ _ _ _ Hb He (conj Hm Hm')) Hr) as H1.
  pose proof (shr_fexp_nonneg prec emax m e l Hm) as Hn1.
  destruct (shr_fexp prec emax m e l) as [r1 e1]. destruct H1 as (He1 & Hr1 & _). simpl in Hn1.
  set (m1 := round_nearest_even (shr_m r1) (loc_of_shr_record r1)).
  assert (0 <= m1 <= Z.pos mb * 2 ^ (eb - e1)) as Hm1
    by (split; [by apply round_nearest_even_nonneg|by apply round_le]).
  pose proof (shr_fexp_le prec emax m1 e1 loc_Exact (Z.pos mb) eb (proj1 Hm1) (proj2 He1)
                (below_target _ _ _ _ _ _ Hb (proj2 He1) Hm1)) as H2.
  pose proof (shr_fexp_nonneg prec emax m1 e1 loc_Exact ltac:(lia)) as Hn2.
  destruct (shr_fexp prec emax m1 e1 loc_Exact) as [r2 e2]. simpl in Hn2.
  destruct H2 as (He2 & Hr2 & _).
  { apply exact_le. lia. }
  assert (shr_m r2 <= Z.pos mb * 2 ^ (eb - e2)) as Hle by (destruct Hr2 as [|[]]; lia).
  destruct (shr_m r2) as [|m2|]; [done| |lia]. pose proof (rp_finite _ _ _ _ Hb).
  destruct (Z.leb_spec e2 (emax - prec)); [|lia]. split; [done|].
  destruct (Z.eq_dec e2 eb) as [->|]; [|lia]. rewrite Z.sub_diag in Hle. lia.
Qed.

(** ** A rounded result fits its format *)

Lemma shr_1_div r : 0 <= shr_m r -> shr_m (shr_1 r) = shr_m r / 2.
Proof.
  destruct r as [m b s]. simpl. intros Hm. destruct m as [|[p|p|]|p]; try done; simpl.
  - apply Z.div_unique with 1; lia.
  - apply Z.div_unique with 0; lia.
Qed.

Lemma shr_iter_div p r : 0 <= shr_m r -> shr_m (SpecFloat.iter_pos shr_1 p r) = shr_m r / 2 ^ Z.pos p.
Proof.
  revert r. induction p as [p IH|p IH|]; intros r Hm; simpl; [| |by apply shr_1_div].
  - rewrite !IH, shr_1_div by (try apply iter_shr_nonneg; try apply shr_1_nonneg; done).
    rewrite !Z.div_div by (try apply Z.pow_pos_nonneg; lia). f_equal.
    rewrite <-Z.pow_add_r by lia. change 2 with (2 ^ 1) at 1. rewrite <-Z.pow_add_r by lia. f_equal. lia.
  - rewrite !IH by (try apply iter_shr_nonneg; done).
    rewrite !Z.div_div by (try apply Z.pow_pos_nonneg; lia). f_equal.
    rewrite <-Z.pow_add_r by lia. f_equal. lia.
Qed.

Lemma binary_round_aux_digits prec emax s m e l s' m' e' :
  0 < prec -> 0 <= m -> binary_round_aux prec emax s m e l = S754_finite s' m' e' ->
  Z.pos m' < 2 ^ prec.
Proof.
  intros Hp Hm. unfold binary_round_aux.
  pose proof (shr_fexp_nonneg prec emax m e l Hm) as Hn1.
  destruct (shr_fexp prec emax m e l) as [r1 e1]. simpl in Hn1.
  set (m1 := round_nearest_even (shr_m r1) (loc_of_shr_record r1)).
  assert (Hm1 : 0 <= m1) by (by apply round_nearest_even_nonneg). clearbody m1.
  unfold shr_fexp at 1, shr.
  pose proof (Zdigits_bound m1 Hm1) as Hd. set (d := Zdigits2 m1) in *.
  assert (0 <= d) as Hd0 by (unfold d; destruct m1; simpl; lia).
  assert (d - prec <= fexp prec emax (d + e1) - e1) as Hf by (unfold fexp; lia).
  destruct (fexp prec emax (d + e1) - e1) as [|p|p] eqn:E.
  2:{ rewrite shr_iter_div by done. cbn [shr_m shr_record_of_loc].
      assert (m1 / 2 ^ Z.pos p < 2 ^ prec) as Hlt.
      { apply Z.div_lt_upper_bound; [apply Z.pow_pos_nonneg; lia|]. rewrite <-Z.pow_add_r by lia.
        eapply Z.lt_le_trans; [exact Hd|]. apply Z.pow_le_mono_r; lia. }
      destruct (m1 / 2 ^ Z.pos p); try done. destruct (_ <=? _); [|done]. by intros [= _ <- _]. }
  all: cbn [shr_m shr_record_of_loc]; destruct m1; try done; destruct (_ <=? _); try done;
    intros [= _ <- _]; eapply Z.lt_le_trans; [exact Hd|]; apply Z.pow_le_mono_r; lia.
Qed.

(** ** Narrowing keeps the range of a percentage *)

(** [100.0] in both formats. *)
Lemma ld100 : ldouble_of_Z 100 = S754_finite false (100 * 2 ^ 57) (-57).
Proof. by vm_compute. Qed.

Lemma d100_representable : representable 53 1024 (100 * 2 ^ 46) (-46).
Proof. split; vm_compute; [done|]. congruence. Qed.

Lemma rounded_le_d100 x : rounded_le (100 * 2 ^ 46) (-46) false x -> in_percent x.
Proof.
  unfold in_percent. change d100 with (S754_finite false (100 * 2 ^ 46) (-46)).
  destruct x as [s|s| |s m e]; cbn [rounded_le]; try done.
  intros [-> H]. split; [done|]. apply dle_true. split; [done|]. split; [done|].
  unfold key_lt. cbn [dkey fst snd]. destruct H as [|[-> H]]; [lia|].
  destruct (Z.eq_dec (Z.pos m) (Z.pos (100 * 2 ^ 46))) as [E|E]; [left; by rewrite E|right; lia].
Qed.

(** A quotient fits its format. *)
Lemma SFdiv_digits prec emax x y s m e : 0 < prec →
  SFdiv prec emax x y = S754_finite s m e → Z.pos m < 2 ^ prec.
Proof.
  intros Hprec. unfold SFdiv.
  destruct x as [sx|sx| |sx mx ex], y as [sy|sy| |sy my ey]; try done.
  destruct (SFdiv_core_binary _ _ _ _ _ _) as [[q e'] l] eqn:E.
  apply binary_round_aux_digits; [done|]. unfold SFdiv_core_binary in E. revert E. cbv zeta.
  match goal with |- context [Z.div_eucl ?a ?b] => set (num := a); set (den := b) end.
  assert (0 <= num) as Hnum.
  { unfold num. match goal with |- context [match ?d with Z0 => _ | _ => _ end] => destruct d end; try lia.
    apply Z.shiftl_nonneg. lia. }
  pose proof (Z.div_pos num den Hnum ltac:(done)) as Hq. unfold Z.div in Hq.
  destruct (Z.div_eucl num den) as [q' r]. by intros [= <- _ _].
Qed.

Lemma lddiv_digits x y s m e : lddiv x y = S754_finite s m e → Z.pos m < 2 ^ 64.
Proof. by apply SFdiv_digits. Qed.

(** The integer part of a percentage in the format of a double. *)
Lemma trunc_percent x : in_percent x → (∀ s m e, x = S754_finite s m e → Z.pos m < 2 ^ 53) → 0 <= trunc_Z x <= 100.
Proof.
  intros [H0 H1] Hm. destruct x as [s|s| |s m e]; try (cbn; lia). specialize (Hm s m e eq_refl).
  destruct s; [by vm_compute in H0|]. apply dle_true in H1 as (_ & _ & H1).
  change d100 with (S754_finite false (100 * 2 ^ 46) (-46)) in H1. cbn [dkey fst snd] in H1.
  assert (He : e < -46 ∨ e = -46 ∧ Z.pos m <= 100 * 2 ^ 46).
  { destruct H1 as [[= -> ->]|H1]; [right; lia|]. unfold key_lt in H1. cbn [fst snd] in H1. lia. }
  clear H0 H1. cbn [trunc_Z]. destruct (Z.leb_spec 0 e); [lia|].
  split; [apply Z.div_pos; lia|]. destruct He as [He|[-> He]].
  - assert (Z.pos m / 2 ^ (- e) < 101); [|lia]. apply Z.div_lt_upper_bound; [lia|].
    assert (2 ^ 47 <= 2 ^ (- e)) by (apply Z.pow_le_mono_r; lia). change (2 ^ 53) with (2 ^ 47 * 64) in Hm. lia.
  - change (- -46) with 46. apply Z.div_le_upper_bound; lia.
Qed.

(** An extended value between 0 and 100 is a percentage as a double. *)
Lemma double_of_ldouble_percent m e :
  Z.pos m < 2 ^ 64 -> SFltb (ldouble_of_Z 100) (S754_finite false m e) = false ->
  in_percent (double_of_ldouble (S754_finite false m e)).
Proof.
  intros Hm H. rewrite ld100 in H. apply dlt_false_iff in H; [|done..].
  apply dle_true in H as (_ & _ & H). apply rounded_le_d100. cbn [double_of_ldouble binary_normalize].
  assert (He : e <= -57 ∧ (e = -57 -> Z.pos m <= Z.pos (100 * 2 ^ 57))).
  { unfold key_lt in H. cbn [dkey fst snd] in H. destruct H as [[= -> ->]|]; lia. }
  clear H. destruct He as [He Hm57]. unfold binary_round, shl_align.
  assert (Hbound : Z.pos m <= Z.pos (100 * 2 ^ 46) * 2 ^ (-46 - e)).
  { destruct (Z.eq_dec e (-57)) as [->|Hne]; [specialize (Hm57 eq_refl); lia|].
    assert (2 ^ 12 <= 2 ^ (-46 - e)) by (apply Z.pow_le_mono_r; lia).
    change (2 ^ 64) with (2 ^ 52 * 2 ^ 12) in Hm. lia. }
  pose proof (below_target 53 1024 _ _ (Z.pos m) e d100_representable ltac:(lia)
    (conj (Pos2Z.is_nonneg m) Hbound)) as Hf. simpl Zdigits2 in Hf.
  destruct (fexp 53 1024 (Z.pos (digits2_pos m) + e) - e) as [|p|p] eqn:E.
  1,2: apply binary_round_aux_le; [apply d100_representable|lia|lia|by apply exact_le].
  set (t := fexp 53 1024 (Z.pos (digits2_pos m) + e)) in *.
  assert (Et : Z.pos (Pos.iter xO m p) = Z.pos m * 2 ^ (e - t)).
  { replace (e - t) with (Z.pos p) by lia. rewrite <-Z.shiftl_mul_pow2 by lia. change (Z.shiftl (Z.pos m) (Z.pos p)) with (Pos.iter (Z.mul 2) (Z.pos m) p). clear.
    induction p as [|p IH] using Pos.peano_ind; [done|].
    by rewrite !Pos.iter_succ, <-IH. }
  rewrite Et.
  assert (Z.pos m * 2 ^ (e - t) <= Z.pos (100 * 2 ^ 46) * 2 ^ (-46 - t)).
  { replace (-46 - t) with ((-46 - e) + (e - t)) by lia. rewrite Z.pow_add_r by lia.
    assert (0 < 2 ^ (e - t)) by (apply Z.pow_pos_nonneg; lia). nia. }
  apply binary_round_aux_le; [apply d100_representable|lia|lia|by apply exact_le].
Qed.
(** ** The cell of the grid a value is rounded in *)

Lemma round_cell r : 0 <= shr_m r ->
  round_nearest_even (shr_m r) (loc_of_shr_record r) = shr_m r ∨
  round_nearest_even (shr_m r) (loc_of_shr_record r) = shr_m r + 1.
Proof. destruct r as [m [] []]; simpl; try lia. destruct (Z.even m); lia. Qed.

Lemma digits_pow m n : 0 < n -> 2 ^ (n - 1) <= Z.pos m < 2 ^ n -> Z.pos (digits2_pos m) = n.
Proof.
  intros Hn [Hlo Hhi]. pose proof (digits_bounds m) as [Hdl Hdh].
  assert (Z.pos (digits2_pos m) <= n) by (eapply digits_le; [lia|exact Hhi|done]).
  destruct (Z.eq_dec (Z.pos (digits2_pos m)) n) as [|Hne]; [done|].
  assert (2 ^ Z.pos (digits2_pos m) <= 2 ^ (n - 1)) by (apply Z.pow_le_mono_r; lia). lia.
Qed.

(** The first alignment of a mantissa of at least 53 digits. *)
Lemma shr_fexp_cell m e : 53 <= Z.pos (digits2_pos m) -> -1074 <= e + (Z.pos (digits2_pos m) - 53) ->
  let k := Z.pos (digits2_pos m) - 53 in
  let '(r, e') := shr_fexp 53 1024 (Z.pos m) e loc_Exact in
  e' = e + k ∧ shr_m r = Z.pos m / 2 ^ k ∧ rec_le r (Z.pos m / 2 ^ k + 1) ∧
  (Z.pos m = Z.pos m / 2 ^ k * 2 ^ k -> rec_le r (Z.pos m / 2 ^ k)).
Proof.
  intros Hd He k. unfold shr_fexp, shr. simpl Zdigits2.
  replace (fexp 53 1024 (Z.pos (digits2_pos m) + e) - e) with k by (unfold fexp, emin, k; lia).
  assert (Hlt : Z.pos m < (Z.pos m / 2 ^ k + 1) * 2 ^ k).
  { pose proof (Z.mul_succ_div_gt (Z.pos m) (2 ^ k) ltac:(apply Z.pow_pos_nonneg; lia)). lia. }
  destruct k as [|p|p] eqn:Ek; [| |lia].
  - rewrite Z.pow_0_r, Z.div_1_r in *. split_and!; [lia|done|by left; simpl; lia|]. intros _. by apply exact_le.
  - split_and!; [done| | |].
    + by rewrite shr_iter_div.
    + apply shr_iter_le; [done|]. left. exact Hlt.
    + intros Heq. apply shr_iter_le; [done|]. apply exact_le. lia.
Qed.

Lemma binary_round_cell s v e :
  let k := Z.pos (digits2_pos v) - 53 in
  0 <= k -> -1074 <= e + k -> e + k + 1 <= 971 ->
  ∃ m e', binary_round 53 1024 s v e = S754_finite s m e' ∧ 2 ^ 52 <= Z.pos m < 2 ^ 53 ∧
    e + k <= e' <= e + k + 1 ∧
    Z.pos v / 2 ^ k * 2 ^ k <= Z.pos m * 2 ^ (e' - e) <= (Z.pos v / 2 ^ k + 1) * 2 ^ k ∧
    (Z.pos v = Z.pos v / 2 ^ k * 2 ^ k -> Z.pos m * 2 ^ (e' - e) = Z.pos v).
Proof.
  intros k Hk Hmin Hmax. unfold binary_round, shl_align.
  replace (fexp 53 1024 (Z.pos (digits2_pos v) + e) - e) with k by (unfold fexp, emin, k; lia).
  replace (match k with Z.neg d => (Pos.iter xO v d, fexp 53 1024 (Z.pos (digits2_pos v) + e)) | _ => (v, e) end)
    with (v, e) by (by destruct k).
  unfold binary_round_aux.
  pose proof (shr_fexp_cell v e ltac:(lia) Hmin) as Hcell. fold k in Hcell. cbv zeta in Hcell.
  destruct (shr_fexp 53 1024 (Z.pos v) e loc_Exact) as [r e1]. destruct Hcell as (-> & Hq & _ & Hexact).
  set (q := Z.pos v / 2 ^ k) in *.
  assert (Hpow : 0 < 2 ^ k) by (apply Z.pow_pos_nonneg; lia).
  assert (Hqr : 2 ^ 52 <= q < 2 ^ 53).
  { pose proof (digits_bounds v) as [Hlo Hhi]. unfold q. split.
    - apply Z.div_le_lower_bound; [done|]. rewrite <- Z.pow_add_r by lia. by replace (k + 52) with (Z.pos (digits2_pos v) - 1) by lia.
    - apply Z.div_lt_upper_bound; [done|]. rewrite <- Z.pow_add_r by lia. by replace (k + 53) with (Z.pos (digits2_pos v)) by lia. }
  pose proof (round_cell r ltac:(lia)) as Hround. rewrite Hq in Hround |- *.
  assert (Hexact' : Z.pos v = q * 2 ^ k -> round_nearest_even q (loc_of_shr_record r) = q).
  { intros Heq. pose proof (round_le r q (Hexact Heq)) as Hle. rewrite Hq in Hle. lia. }
  set (m1 := round_nearest_even q (loc_of_shr_record r)) in *. clearbody m1.
  destruct m1 as [|p|p]; [lia| |lia].
  destruct (Z.eq_dec (Z.pos p) (2 ^ 53)) as [Hfull|Hfull].
  - assert (p = (2 ^ 53)%positive) as -> by lia.
    unfold shr_fexp, shr. change (Zdigits2 (Z.pos (2 ^ 53))) with 54.
    replace (fexp 53 1024 (54 + (e + k)) - (e + k)) with 1 by (unfold fexp, emin; lia).
    change (SpecFloat.iter_pos shr_1 1 (shr_record_of_loc (Z.pos (2 ^ 53)) loc_Exact))
      with {| shr_m := Z.pos (2 ^ 52); shr_r := false; shr_s := false |}. cbn [shr_m].
    destruct (Z.leb_spec (e + k + 1) (1024 - 53)); [|lia].
    exists (2 ^ 52)%positive, (e + k + 1). split_and!; try done; try lia.
    all: replace (e + k + 1 - e) with (1 + k) by lia; rewrite Z.pow_add_r by lia; change (2 ^ 1) with 2; nia.
  - assert (Hd : Z.pos (digits2_pos p) = 53) by (apply digits_pow; [lia|]; simpl; lia).
    unfold shr_fexp, shr. simpl Zdigits2. rewrite Hd.
    replace (fexp 53 1024 (53 + (e + k)) - (e + k)) with 0 by (unfold fexp, emin; lia). cbn [shr_m shr_record_of_loc].
    destruct (Z.leb_spec (e + k) (1024 - 53)); [|lia].
    exists p, (e + k). replace (e + k - e) with k by lia. split_and!; try done; try lia; nia.
Qed.
