(* ===== verification/CStrings.v ===== *)
(** * CStrings: the C string functions of the standard library the program uses

    A C string is a [string] without its terminating NUL; the program only ever
    builds NUL-free contents, and the places where it tests for embedded NUL
    bytes work on byte lists. *)
From S2P Require Import Prelude.
Local Open Scope Z_scope.

Definition strcmp_eq (a b : string) : bool := bool_decide (a = b).

(** The sign of [strcmp(a, b)]: bytes compare as unsigned char. *)
Fixpoint strcmp (a b : string) : comparison :=
  match a, b with
  | EmptyString, EmptyString => Eq
  | EmptyString, String _ _ => Lt
  | String _ _, EmptyString => Gt
  | String c a', String d b' =>
      match Nat.compare (Ascii.nat_of_ascii c) (Ascii.nat_of_ascii d) with
      | Eq => strcmp a' b'
      | r => r
      end
  end.

(** [s[0] != '\0'] *)
Definition nonempty (s : string) : bool :=
  match s with EmptyString => false | _ => true end.

(** [strchr]: the text from the first occurrence of [c] on. *)
Fixpoint strchr (s : string) (c : ascii) : option string :=
  match s with
  | EmptyString => None
  | String d s' => if Ascii.eqb d c then Some s else strchr s' c
  end.

(** The text before the first occurrence of [c], and what follows it. *)
Fixpoint split_at (c : ascii) (s : string) : option (string * string) :=
  match s with
  | EmptyString => None
  | String d s' =>
      if Ascii.eqb d c then Some (EmptyString, s')
      else match split_at c s' with
           | Some (l, r) => Some (String d l, r)
           | None => None
           end
  end.

(** [strrchr]: the text before the last occurrence and what follows it. *)
Fixpoint split_last (c : ascii) (s : string) : option (string * string) :=
  match s with
  | EmptyString => None
  | String d s' =>
      match split_last c s' with
      | Some (l, r) => Some (String d l, r)
      | None => if Ascii.eqb d c then Some (EmptyString, s') else None
      end
  end.

(** [g_strsplit] of a non-empty text into at most [max_tokens] tokens. *)
Fixpoint g_strsplit (separator : ascii) (line : string) (max_tokens : nat) : list string :=
  match max_tokens with
  | O => []
  | S O => [line]
  | S remaining =>
      match split_at separator line with
      | Some (token, rest) => token :: g_strsplit separator rest remaining
      | None => [line]
      end
  end.

(** The maximal prefix without a delimiter, and the rest. *)
Fixpoint span (delim : ascii → bool) (s : string) : string * string :=
  match s with
  | EmptyString => (EmptyString, EmptyString)
  | String c s' =>
      if delim c then (EmptyString, s)
      else let '(l, r) := span delim s' in (String c l, r)
  end.

Fixpoint skip (delim : ascii → bool) (s : string) : string :=
  match s with
  | String c s' => if delim c then skip delim s' else s
  | EmptyString => EmptyString
  end.

(** One call of [strtok_r]: skip delimiters, take the token, step over the
    delimiter that ended it. *)
Definition strtok_step (delim : ascii → bool) (save : string) : option (string * string) :=
  match skip delim save with
  | EmptyString => None
  | s => let '(token, rest) := span delim s in
         Some (token, match rest with String _ r => r | EmptyString => EmptyString end)
  end.

(** All the tokens a [strtok_r] loop over one delimiter set visits.  Each call
    consumes a character, so the length of the text is enough fuel. *)
Fixpoint strtok_fuel (fuel : nat) (delim : ascii → bool) (s : string) : list string :=
  match fuel with
  | O => []
  | S fuel =>
      match strtok_step delim s with
      | Some (token, rest) => token :: strtok_fuel fuel delim rest
      | None => []
      end
  end.
Definition strtok_all (delim : ascii → bool) (s : string) : list string :=
  strtok_fuel (S (String.length s)) delim s.

Definition is_char (c : ascii) (d : ascii) : bool := Ascii.eqb d c.

(** A C string ends at its first NUL. *)
Definition c_string (s : string) : string := (span (is_char "000") s).1.

Definition nl : ascii := "010"%char.
Definition tab : ascii := "009"%char.

(** One [fgets] into a buffer of [S n] bytes: up to [n] characters, ending after
    a newline; and the rest of the stream. *)
Fixpoint fgets (n : nat) (s : string) : string * string :=
  match n, s with
  | O, _ => (EmptyString, s)
  | S _, EmptyString => (EmptyString, EmptyString)
  | S n, String c s' =>
      if Ascii.eqb c nl then (String nl EmptyString, s')
      else let '(l, r) := fgets n s' in (String c l, r)
  end.

(** The lines a [while (fgets(line, size, file))] loop visits; each call consumes
    a character, so the length of the stream is enough fuel. *)
Fixpoint fgets_fuel (fuel size : nat) (s : string) : list string :=
  match fuel, s with
  | O, _ | _, EmptyString => []
  | S fuel, _ => let '(line, rest) := fgets (size - 1) s in line :: fgets_fuel fuel size rest
  end.
Definition fgets_all (size : nat) (s : string) : list string :=
  fgets_fuel (String.length s) size s.

(** ** printf conversions *)

Definition digit_char (d : Z) : ascii := Ascii.ascii_of_nat (Z.to_nat (48 + d)).

Fixpoint print_digits (fuel : nat) (n : Z) (acc : string) : string :=
  match fuel with
  | O => acc
  | S fuel =>
      let acc := String (digit_char (n mod 10)) acc in
      if n <? 10 then acc else print_digits fuel (n / 10) acc
  end.

(** [%llu]: a uint64_t has at most 20 decimal digits. *)
Definition print_u64 (n : Z) : string := print_digits 20 n EmptyString.
(** [%lld] *)
Definition print_i64 (n : Z) : string :=
  if n <? 0 then String "-"%char (print_u64 (- n)) else print_u64 n.

(** [snprintf(buffer, size, ...)] of a formatted text: what the buffer holds. *)
Definition snprintf (size : nat) (text : string) : string := String.substring 0 (size - 1) text.

(** [%02x]. *)
Definition hex_digit (n : Z) : ascii :=
  Ascii.ascii_of_nat (Z.to_nat (if n <? 10 then 48 + n else 87 + n)).
Definition hex_byte (n : Z) : string := String (hex_digit (n / 16)) (String (hex_digit (n mod 16)) EmptyString).

(** Joining the fields of a formatted line. *)
Fixpoint join (sep : string) (fields : list string) : string :=
  match fields with
  | [] => EmptyString
  | [x] => x
  | x :: xs => x +:+ sep +:+ join sep xs
  end.

(** Every character of a string satisfies a test. *)
Fixpoint string_forallb (p : ascii → bool) (s : string) : bool :=
  match s with
  | EmptyString => true
  | String c s' => p c && string_forallb p s'
  end.

(** ** Facts *)

Lemma strcmp_eq_true a b : strcmp_eq a b = true ↔ a = b.
Proof. apply bool_decide_eq_true. Qed.

Lemma strcmp_eq_ne a b : a ≠ b → strcmp_eq a b = false.
Proof. apply bool_decide_eq_false. Qed.

Lemma strcmp_refl a : strcmp a a = Eq.
Proof. induction a as [|c a IH]; simpl; [done|]. by rewrite Nat.compare_refl. Qed.

Lemma strcmp_eq_iff a b : strcmp a b = Eq ↔ a = b.
Proof.
  split; [|intros ->; apply strcmp_refl].
  revert b. induction a as [|c a IH]; intros [|d b]; simpl; try done.
  destruct (Nat.compare_spec (Ascii.nat_of_ascii c) (Ascii.nat_of_ascii d)) as [E|?|?];
    try done.
  intros H. f_equal; [|by apply IH].
  by rewrite <-(Ascii.ascii_nat_embedding c), E, Ascii.ascii_nat_embedding.
Qed.

Lemma strcmp_antisym a b : strcmp b a = CompOpp (strcmp a b).
Proof.
  revert b. induction a as [|c a IH]; intros [|d b]; simpl; try done.
  rewrite (Nat.compare_antisym (Ascii.nat_of_ascii c)).
  destruct (Nat.compare (Ascii.nat_of_ascii c) (Ascii.nat_of_ascii d)); simpl; auto.
Qed.

Lemma strcmp_lt_trans a b c : strcmp a b = Lt → strcmp b c = Lt → strcmp a c = Lt.
Proof.
  revert b c. induction a as [|x a IH]; intros [|y b] [|z c]; simpl; try done.
  destruct (Nat.compare_spec (Ascii.nat_of_ascii x) (Ascii.nat_of_ascii y)) as [E|?|?]; try done;
  destruct (Nat.compare_spec (Ascii.nat_of_ascii y) (Ascii.nat_of_ascii z)) as [E'|?|?]; try done;
  destruct (Nat.compare_spec (Ascii.nat_of_ascii x) (Ascii.nat_of_ascii z)) as [E''|?|?]; try done; try lia.
  apply IH.
Qed.

Lemma strcmp_preorder : preorder_cmp strcmp.
Proof.
  split; [apply strcmp_antisym|]. intros x y z Hxy Hyz.
  destruct (strcmp x y) eqn:Exy; [|destruct (strcmp y z) eqn:Eyz; [|by rewrite (strcmp_lt_trans x y z)|done]|done].
  - apply strcmp_eq_iff in Exy. by subst.
  - apply strcmp_eq_iff in Eyz. subst. by rewrite Exy.
Qed.

Lemma string_app_nil_r s : s +:+ EmptyString = s.
Proof. induction s as [|c s IH]; [done|]. change (String c (s +:+ "") = String c s). by rewrite IH. Qed.

Lemma string_app_assoc (a b c : string) : (a +:+ b) +:+ c = a +:+ (b +:+ c).
Proof.
  induction a as [|x a IH]; [done|].
  change (String x ((a +:+ b) +:+ c) = String x (a +:+ (b +:+ c))). by rewrite IH.
Qed.

Lemma string_length_app (a b : string) :
  String.length (a +:+ b) = (String.length a + String.length b)%nat.
Proof.
  induction a as [|x a IH]; [done|].
  change (S (String.length (a +:+ b)) = S (String.length a + String.length b)). by rewrite IH.
Qed.

(** *** Characters of a string *)

Definition char_at (s : string) (n : nat) : ascii := default "000"%char (String.get n s).
Definition char_is (s : string) (n : nat) (c : ascii) : bool := Ascii.eqb (char_at s n) c.
Definition last_char (s : string) : ascii := char_at s (String.length s - 1).

Lemma forallb_app p a b :
  string_forallb p (a +:+ b) = string_forallb p a && string_forallb p b.
Proof.
  induction a as [|c a IH]; [done|].
  change (p c && string_forallb p (a +:+ b) = (p c && string_forallb p a) && string_forallb p b).
  by rewrite IH, andb_assoc.
Qed.

Lemma forallb_impl (p q : ascii → bool) s :
  (∀ c, p c = true → q c = true) → string_forallb p s = true → string_forallb q s = true.
Proof.
  intros Hpq. induction s as [|c s IH]; [done|]. simpl. intros H. bool_hyps.
  apply andb_true_iff. auto.
Qed.

Lemma get_app_r a b n : String.get (String.length a + n) (a +:+ b) = String.get n b.
Proof. induction a as [|c a IH]; [done|]. exact IH. Qed.

Lemma char_at_app_r a b n : char_at (a +:+ b) (String.length a + n) = char_at b n.
Proof. unfold char_at. by rewrite get_app_r. Qed.

Lemma last_char_app a b : nonempty b = true → last_char (a +:+ b) = last_char b.
Proof.
  intros Hb. unfold last_char. rewrite string_length_app.
  assert (0 < String.length b)%nat by (destruct b; simpl; [done|lia]).
  replace (String.length a + String.length b - 1)%nat
    with (String.length a + (String.length b - 1))%nat by lia.
  apply char_at_app_r.
Qed.

Lemma last_char_forallb p s :
  nonempty s = true → string_forallb p s = true → p (last_char s) = true.
Proof.
  unfold last_char, char_at. destruct s as [|c s]; [done|]. intros _.
  simpl. rewrite Nat.sub_0_r. revert c.
  induction s as [|d s IH]; intros c; simpl; intros H; bool_hyps; [done|].
  apply IH. simpl. apply andb_true_iff. auto.
Qed.

Lemma substring_app_l a b : String.substring 0 (String.length a) (a +:+ b) = a.
Proof.
  induction a as [|c a IH]; [by destruct b|].
  change (String c (String.substring 0 (String.length a) (a +:+ b)) = String c a). by rewrite IH.
Qed.

Lemma nonempty_app_l a b : nonempty a = true → nonempty (a +:+ b) = true.
Proof. by destruct a. Qed.

(** A separator absent from the text before it splits there. *)
Definition no_char (c : ascii) (s : string) : bool :=
  string_forallb (λ d, negb (Ascii.eqb d c)) s.

Lemma split_at_app c a b :
  no_char c a = true → split_at c (a +:+ String c b) = Some (a, b).
Proof.
  induction a as [|d a IH]; intros H.
  - simpl. by rewrite Ascii.eqb_refl.
  - cbn in H. bool_hyps.
    change (split_at c (String d (a +:+ String c b)) = Some (String d a, b)). simpl.
    rewrite H, IH; done.
Qed.

Lemma split_at_none c s : no_char c s = true → split_at c s = None.
Proof.
  induction s as [|d s IH]; [done|]. cbn. intros H. bool_hyps. by rewrite H, IH.
Qed.

Lemma split_last_none c s : no_char c s = true → split_last c s = None.
Proof.
  induction s as [|d s IH]; [done|]. cbn. intros H. bool_hyps. by rewrite IH, H.
Qed.

Lemma split_last_app c a b : no_char c b = true → split_last c (a +:+ String c b) = Some (a, b).
Proof.
  intros Hb. induction a as [|d a IH].
  - change (split_last c (String c b) = Some (EmptyString, b)). simpl. by rewrite split_last_none, Ascii.eqb_refl.
  - change (split_last c (String d (a +:+ String c b)) = Some (String d a, b)). simpl. by rewrite IH.
Qed.

Lemma substring_0_all n s : (String.length s ≤ n)%nat → String.substring 0 n s = s.
Proof.
  revert n. induction s as [|c s IH]; intros [|n]; simpl; try done; [lia|].
  intros. by rewrite IH by lia.
Qed.

Lemma substring_0_length n s : (String.length (String.substring 0 n s) ≤ n)%nat.
Proof.
  revert n. induction s as [|c s IH]; intros [|n]; simpl; try lia.
  specialize (IH n). lia.
Qed.

Lemma substring_0_prefix n s : ∃ rest, s = String.substring 0 n s +:+ rest.
Proof.
  revert n. induction s as [|c s IH]; intros [|n]; try (by eexists). destruct (IH n) as [rest Hr]. exists rest.
  cbn [String.substring]. change (String c s = String c (String.substring 0 n s +:+ rest)). by rewrite <- Hr.
Qed.

Lemma snprintf_fits size text : (String.length text < size)%nat → snprintf size text = text.
Proof. intros. apply substring_0_all. lia. Qed.

(** *** Decimal printing *)

Definition is_decimal (c : ascii) : bool :=
  existsb (Ascii.eqb c) ["0"; "1"; "2"; "3"; "4"; "5"; "6"; "7"; "8"; "9"]%char.

Lemma digit_char_cases d :
  0 <= d < 10 →
  In d [0; 1; 2; 3; 4; 5; 6; 7; 8; 9].
Proof. simpl. lia. Qed.

Lemma digit_char_decimal d : 0 <= d < 10 → is_decimal (digit_char d) = true.
Proof. intros H%digit_char_cases. simpl in H. by repeat destruct H as [<-|H]. Qed.

Lemma print_digits_text fuel n acc :
  0 <= n →
  string_forallb is_decimal acc = true →
  string_forallb is_decimal (print_digits fuel n acc) = true
  ∧ (String.length (print_digits fuel n acc) ≤ fuel + String.length acc)%nat.
Proof.
  revert n acc. induction fuel as [|fuel IH]; intros n acc Hn Hacc; [split; [done|simpl; lia]|].
  simpl. pose proof (Z.mod_pos_bound n 10 ltac:(lia)).
  assert (string_forallb is_decimal (String (digit_char (n mod 10)) acc) = true) as Hd.
  { cbn -[is_decimal]. rewrite digit_char_decimal by lia. done. }
  destruct (n <? 10); [split; [done|simpl; lia]|].
  destruct (IH (n / 10) _ ltac:(apply Z.div_pos; lia) Hd). simpl in *. split; [done|lia].
Qed.

Lemma print_digits_nonempty fuel n acc :
  nonempty acc = true → nonempty (print_digits fuel n acc) = true.
Proof.
  revert n acc. induction fuel as [|fuel IH]; intros n acc H; [done|]. simpl.
  destruct (n <? 10); [done|]. by apply IH.
Qed.

Lemma print_digits_step fuel n acc : nonempty (print_digits (S fuel) n acc) = true.
Proof. simpl. destruct (n <? 10); [done|]. by apply print_digits_nonempty. Qed.

Lemma print_u64_text n :
  0 <= n →
  string_forallb is_decimal (print_u64 n) = true ∧ nonempty (print_u64 n) = true
  ∧ (String.length (print_u64 n) ≤ 20)%nat.
Proof.
  intros Hn. destruct (print_digits_text 20 n EmptyString Hn eq_refl). split_and!; [done| |].
  - apply print_digits_step.
  - unfold print_u64. change (String.length EmptyString) with 0%nat in *. lia.
Qed.

(** The value of a decimal text read left to right from an accumulator. *)
Fixpoint digits_value (acc : Z) (s : string) : Z :=
  match s with
  | EmptyString => acc
  | String c s' => digits_value (acc * 10 + (Z.of_nat (Ascii.nat_of_ascii c) - 48)) s'
  end.

Lemma digit_char_value d :
  0 <= d < 10 → Z.of_nat (Ascii.nat_of_ascii (digit_char d)) - 48 = d.
Proof. intros H%digit_char_cases. simpl in H. by repeat destruct H as [<-|H]. Qed.

Lemma print_digits_value fuel n acc :
  0 <= n < 10 ^ Z.of_nat fuel →
  digits_value 0 (print_digits fuel n acc) = digits_value n acc.
Proof.
  revert n acc. induction fuel as [|fuel IH]; intros n acc Hn.
  - simpl in *. f_equal. lia.
  - rewrite Nat2Z.inj_succ, Z.pow_succ_r in Hn by lia. simpl.
    pose proof (Z.mod_pos_bound n 10 ltac:(lia)). pose proof (Z.div_mod n 10 ltac:(lia)).
    destruct (n <? 10) eqn:E; bool_hyps.
    + cbn [digits_value]. rewrite digit_char_value by lia.
      rewrite Z.mod_small by lia. f_equal; lia.
    + rewrite IH by (split; [apply Z.div_pos; lia|apply Z.div_lt_upper_bound; lia]).
      cbn [digits_value]. rewrite digit_char_value by lia. f_equal. lia.
Qed.

Lemma print_u64_value n : u64 n → digits_value 0 (print_u64 n) = n.
Proof.
  intros Hn. unfold print_u64. rewrite print_digits_value; [done|].
  unfold u64, uint64_max in Hn. split; [lia|]. change (10 ^ Z.of_nat 20) with 100000000000000000000. lia.
Qed.

(** *** Tokens *)

(** A token [strtok_r] delivers whole. *)
Definition token_clean (delim : ascii → bool) (s : string) : bool :=
  nonempty s && string_forallb (λ c, negb (delim c)) s.

Lemma token_clean_head delim s : token_clean delim s = true → delim (char_at s 0) = false.
Proof.
  unfold token_clean. destruct s as [|c s]; [done|]. cbn [string_forallb nonempty andb].
  intros [H%negb_true_iff _]%andb_true_iff. exact H.
Qed.

Lemma span_clean_app delim a b :
  string_forallb (λ c, negb (delim c)) a = true →
  (nonempty b = true → delim (char_at b 0) = true) →
  span delim (a +:+ b) = (a, b).
Proof.
  intros Ha Hb. induction a as [|c a IH]; cbn [string_forallb] in Ha.
  - change (span delim b = (EmptyString, b)). destruct b as [|d b]; [done|].
    specialize (Hb eq_refl). change (delim d = true) in Hb. simpl. by rewrite Hb.
  - apply andb_true_iff in Ha as [Hc%negb_true_iff Ha].
    change (span delim (String c (a +:+ b)) = (String c a, b)). simpl. by rewrite Hc, IH.
Qed.

Lemma strtok_step_clean delim s rest :
  token_clean delim s = true → (nonempty rest = true → delim (char_at rest 0) = true) →
  strtok_step delim (s +:+ rest)
  = Some (s, match rest with String _ r => r | EmptyString => EmptyString end).
Proof.
  intros Hs Hr. pose proof (token_clean_head _ _ Hs) as Hh.
  apply andb_true_iff in Hs as [Hne Hall].
  pose proof (span_clean_app delim s rest Hall Hr) as Hspan.
  destruct s as [|c s]; [done|]. change (delim c = false) in Hh.
  change (String c s +:+ rest) with (String c (s +:+ rest)) in *.
  unfold strtok_step. cbn [skip]. rewrite Hh. cbv iota. by rewrite Hspan.
Qed.

(** Tokens joined by one delimiter are delivered in order. *)
Lemma strtok_join delim d tokens fuel :
  delim d = true → Forall (λ s, token_clean delim s = true) tokens →
  (length tokens < fuel)%nat →
  strtok_fuel fuel delim (join (String d EmptyString) tokens) = tokens.
Proof.
  intros Hd Ht. revert fuel. induction Ht as [|s tokens Hs Ht IH]; intros fuel Hf.
  - destruct fuel; [lia|]. done.
  - destruct fuel as [|fuel]; [lia|]. simpl in Hf. destruct tokens as [|t tokens].
    + cbn [join strtok_fuel]. pose proof (strtok_step_clean delim s EmptyString Hs) as Hstep.
      rewrite string_app_nil_r in Hstep. rewrite Hstep by done.
      destruct fuel; [simpl in Hf; lia|]. done.
    + change (join (String d EmptyString) (s :: t :: tokens))
        with (s +:+ String d (join (String d EmptyString) (t :: tokens))).
      cbn [strtok_fuel]. rewrite strtok_step_clean by done. by rewrite IH by lia.
Qed.

(** The same with the delimiter that ends the text. *)
Lemma strtok_lines delim d tokens fuel :
  delim d = true → Forall (λ s, token_clean delim s = true) tokens →
  (length tokens < fuel)%nat →
  strtok_fuel fuel delim (foldr (λ s acc, s +:+ String d acc) EmptyString tokens) = tokens.
Proof.
  intros Hd Ht. revert fuel. induction Ht as [|s tokens Hs Ht IH]; intros fuel Hf.
  - destruct fuel; [lia|]. done.
  - destruct fuel as [|fuel]; [lia|]. simpl in Hf. cbn [strtok_fuel foldr].
    rewrite strtok_step_clean by done. by rewrite IH by lia.
Qed.

Lemma join_length delim d tokens :
  Forall (λ s, token_clean delim s = true) tokens →
  (length tokens ≤ String.length (join (String d EmptyString) tokens))%nat.
Proof.
  induction 1 as [|s tokens Hs Ht IH]; [done|].
  assert (0 < String.length s)%nat by (destruct s; [done|simpl; lia]).
  destruct tokens as [|t tokens]; [simpl; lia|].
  change (join (String d EmptyString) (s :: t :: tokens))
    with (s +:+ String d (join (String d EmptyString) (t :: tokens))).
  rewrite string_length_app. cbn [String.length length] in *. lia.
Qed.

(** So the whole list is what [strtok_r] over the joined text visits. *)
Lemma strtok_all_join delim d tokens :
  delim d = true → Forall (λ s, token_clean delim s = true) tokens →
  strtok_all delim (join (String d EmptyString) tokens) = tokens.
Proof.
  intros Hd Ht. apply strtok_join; [done..|]. pose proof (join_length delim d tokens Ht). lia.
Qed.

Lemma lines_length d tokens :
  (length tokens ≤ String.length (foldr (λ s acc, s +:+ String d acc) EmptyString tokens))%nat.
Proof.
  induction tokens as [|s tokens IH]; [done|]. cbn [foldr length].
  rewrite string_length_app. cbn [String.length]. lia.
Qed.

Lemma strtok_all_lines delim d tokens :
  delim d = true → Forall (λ s, token_clean delim s = true) tokens →
  strtok_all delim (foldr (λ s acc, s +:+ String d acc) EmptyString tokens) = tokens.
Proof.
  intros Hd Ht. apply strtok_lines; [done..|]. pose proof (lines_length d tokens). lia.
Qed.
