(* ===== verification/Common.v ===== *)
(** * Common: the interface of the shared [infiltratr-common] library

    The program calls a library that lives in a Git submodule and is not part of
    this source tree.  Its functions are parameters of the model: one class of
    operations per header, and one class of laws stating the documented contract
    the program relies on.  [CommonReference] at the end shows the laws are
    satisfiable; witnesses run the model on it.

    Conventions: a C function [bool f(..., T *out)] that may fail takes the
    incoming contents of [*out] and returns the pair of its result and the
    outgoing contents, so nothing is assumed about [*out] after a failure
    unless a law says so.  A cursor argument [const char **cursor] is threaded
    the same way. *)
From S2P Require Import Prelude Double CStrings.
Local Open Scope Z_scope.

(** ** Operations *)

(** infiltratr/arithmetic.h *)
Class ArithmeticOps := {
  lsm_u64_add_saturating : Z → Z → Z;
  lsm_u64_multiply_saturating : Z → Z → Z;
  (** current, previous, contents of [*delta] *)
  lsm_u64_counter_delta : Z → Z → Z → bool * Z;
  (** current, previous, scale, elapsed seconds, contents of [*rate] *)
  lsm_u64_counter_rate : Z → Z → ldouble → double → double → bool * double;
  lsm_percent_u64 : Z → Z → double;
  (** operands, contents of [*product] *)
  lsm_u64_multiply_checked : Z → Z → Z → bool * Z;
  (** value, minimum, maximum *)
  lsm_clamp_double : double → double → double → double;
  (** operands, contents of [*result] *)
  lsm_size_add_checked : Z → Z → Z → bool * Z;
}.

(** infiltratr/core.h: bounded strings and locale-independent ASCII. *)
Class TextOps := {
  (** capacity of the destination, source *)
  lsm_copy_string : nat → string → string;
  lsm_trim : string → string;
  (** text, prefix *)
  lsm_string_starts_with : string → string → bool;
  lsm_ascii_is_space : ascii → bool;
  lsm_ascii_is_digit : ascii → bool;
  lsm_ascii_is_alnum : ascii → bool;
  lsm_ascii_equal_ci : string → string → bool;
  (** haystack, needle *)
  lsm_ascii_contains_ci : string → string → bool;
  (** capacity of the destination, directory, name *)
  lsm_join_path : nat → string → string → option string;
  lsm_path_basename : string → string;
}.

(** infiltratr/core.h: further characters, and the end of a line. *)
Class AsciiOps := {
  lsm_ascii_is_xdigit : ascii → bool;
  lsm_ascii_to_upper : ascii → ascii;
  lsm_trim_line_end : string → string;
}.

(** infiltratr/token.h, core.h, quantity.h: numeric parsing. *)
Class NumberOps := {
  (** cursor, base, contents of [*value] *)
  lsm_parse_u64_token : string → Z → Z → bool * string * Z;
  (** text, base, contents of [*value] *)
  infiltratr_parse_u64 : string → Z → Z → bool * Z;
  infiltratr_parse_i64 : string → Z → Z → bool * Z;
  infiltratr_parse_i64_token : string → Z → Z → bool * string * Z;
  (** cursor, whether a sign is accepted, contents of [*value] *)
  lsm_parse_double_token : string → bool → double → bool * string * double;
  (** text, base, minimum, maximum, contents of [*value] *)
  lsm_parse_u64_range : string → Z → Z → Z → Z → bool * Z;
  lsm_parse_i64_range : string → Z → Z → Z → Z → bool * Z;
  (** text, minimum, maximum, contents of [*value] *)
  infiltratr_parse_double_range : string → double → double → double → bool * double;
  infiltratr_parse_binary_quantity_u64 : string → Z → bool * Z;
  (** value, decimals, capacity of the destination *)
  infiltratr_format_fixed_ascii : double → nat → nat → option string;
}.

(** infiltratr/endian.h, utf8.h: byte buffers.  A load reads the bytes at the
    given position; the byte list is what follows it. *)
Class ByteOps := {
  infiltratr_load_le16 : list Byte.byte → Z;
  infiltratr_load_le32 : list Byte.byte → Z;
  infiltratr_utf8_validate : list Byte.byte → bool;
}.

(** infiltratr/timing.h: now, last, interval. *)
Class TimingOps := {
  lsm_refresh_interval_due : double → double → double → bool;
}.

(** infiltratr/escape.h: one CSV field, with spreadsheet-formula hardening. *)
Class EscapeOps := {
  infiltratr_escape_csv_field : string → bool → option string;
}.

(** ** Laws *)

Class ArithmeticLaws `{ArithmeticOps} : Prop := {
  add_saturating_spec a b :
    u64 a → u64 b → lsm_u64_add_saturating a b = Z.min uint64_max (a + b);
  multiply_saturating_spec a b :
    u64 a → u64 b → lsm_u64_multiply_saturating a b = Z.min uint64_max (a * b);
  multiply_checked_spec a b out :
    u64 a → u64 b →
    if a * b <=? uint64_max then lsm_u64_multiply_checked a b out = (true, a * b)
    else (lsm_u64_multiply_checked a b out).1 = false;
  counter_delta_spec current previous out :
    u64 current → u64 previous →
    if previous <=? current
    then lsm_u64_counter_delta current previous out = (true, current - previous)
    else (lsm_u64_counter_delta current previous out).1 = false;
  counter_rate_rollback current previous scale elapsed out :
    current < previous →
    (lsm_u64_counter_rate current previous scale elapsed out).1 = false;
  (** A successful rate is a number. *)
  counter_rate_number current previous scale elapsed out :
    (lsm_u64_counter_rate current previous scale elapsed out).1 = true →
    isnan (lsm_u64_counter_rate current previous scale elapsed out).2 = false;
  percent_bounds part whole :
    0 <= part <= whole → 0 < whole → in_percent (lsm_percent_u64 part whole);
  (** The result is a double. *)
  percent_double part whole s m e :
    lsm_percent_u64 part whole = S754_finite s m e → Z.pos m < 2 ^ 53;
  clamp_bounds x :
    isnan x = false → in_percent (lsm_clamp_double x d0 d100);
}.

Class TextLaws `{TextOps} : Prop := {
  copy_string_fits size source :
    (String.length source < size)%nat → lsm_copy_string size source = source;
  copy_string_bound size source :
    (0 < size)%nat → (String.length (lsm_copy_string size source) < size)%nat;
  copy_string_prefix size source :
    ∃ rest, source = lsm_copy_string size source +:+ rest;
  join_path_spec size directory name path : lsm_join_path size directory name = Some path →
    (String.length path < size)%nat
    ∧ (no_char "/" name = true → lsm_path_basename path = name);
  starts_with_spec text prefix :
    lsm_string_starts_with text prefix = String.prefix prefix text;
  is_space_spec c :
    lsm_ascii_is_space c =
    existsb (Ascii.eqb c) ["009"; "010"; "011"; "012"; "013"; " "]%char;
  is_digit_spec c :
    lsm_ascii_is_digit c =
    ((48 <=? Z.of_nat (Ascii.nat_of_ascii c)) && (Z.of_nat (Ascii.nat_of_ascii c) <=? 57));
  equal_ci_refl s : lsm_ascii_equal_ci s s = true;
  trim_id s : lsm_ascii_is_space (char_at s 0) = false →
    lsm_ascii_is_space (last_char s) = false → lsm_trim s = s;
}.

(** Characters of a fixed-point ASCII number. *)
Definition fixed_char (c : ascii) : bool :=
  existsb (Ascii.eqb c)
    ["0"; "1"; "2"; "3"; "4"; "5"; "6"; "7"; "8"; "9"; "."; "-"]%char.

Class NumberLaws `{NumberOps} : Prop := {
  parse_u64_print n out :
    u64 n → infiltratr_parse_u64 (print_u64 n) 10 out = (true, n);
  parse_i64_print n out :
    - 2 ^ 63 <= n < 2 ^ 63 → infiltratr_parse_i64 (print_i64 n) 10 out = (true, n);
  parse_i64_range_print n minimum maximum out :
    - 2 ^ 63 <= n < 2 ^ 63 → minimum <= n <= maximum →
    lsm_parse_i64_range (print_i64 n) 10 minimum maximum out = (true, n);
  parse_i64_range_outside n minimum maximum out :
    - 2 ^ 63 <= n < 2 ^ 63 → n < minimum ∨ maximum < n →
    (lsm_parse_i64_range (print_i64 n) 10 minimum maximum out).1 = false;
  parse_i64_range_bounds text base minimum maximum out :
    (lsm_parse_i64_range text base minimum maximum out).1 = true →
    minimum <= (lsm_parse_i64_range text base minimum maximum out).2 <= maximum;
  (** A bounded number is within its bounds. *)
  parse_double_bounds text minimum maximum out :
    (infiltratr_parse_double_range text minimum maximum out).1 = true →
    dle minimum (infiltratr_parse_double_range text minimum maximum out).2 = true
    ∧ dle (infiltratr_parse_double_range text minimum maximum out).2 maximum = true;
  (** A token ends at the first character that is not a digit. *)
  parse_token_print n rest out :
    u64 n → is_decimal (char_at rest 0) = false →
    lsm_parse_u64_token (print_u64 n +:+ rest) 10 out = (true, rest, n);
  (** A [uint64_t *] result holds a [uint64_t]. *)
  parse_token_u64 cursor base out :
    u64 out → u64 (lsm_parse_u64_token cursor base out).2;
  parse_token_failure cursor base out :
    (lsm_parse_u64_token cursor base out).1.1 = false →
    (lsm_parse_u64_token cursor base out).2 = out;
  parse_quantity_u64 text out :
    u64 out → u64 (infiltratr_parse_binary_quantity_u64 text out).2;
  format_fixed_text value decimals capacity text :
    infiltratr_format_fixed_ascii value decimals capacity = Some text →
    string_forallb fixed_char text = true ∧ nonempty text = true
    ∧ (String.length text < capacity)%nat;
}.

Definition byte_val (b : Byte.byte) : Z := Z.of_N (Byte.to_N b).

Class ByteLaws `{ByteOps} : Prop := {
  load_le16_spec b0 b1 rest :
    infiltratr_load_le16 (b0 :: b1 :: rest) = byte_val b0 + 256 * byte_val b1;
  load_le32_spec b0 b1 b2 b3 rest :
    infiltratr_load_le32 (b0 :: b1 :: b2 :: b3 :: rest) =
    byte_val b0 + 256 * byte_val b1 + 65536 * byte_val b2 + 16777216 * byte_val b3;
  utf8_validate_nil : infiltratr_utf8_validate [] = true;
}.

Lemma byte_val_range b : 0 <= byte_val b < 256.
Proof.
  unfold byte_val. pose proof (Byte.to_N_bounded b). lia.
Qed.
#[export] Hint Resolve byte_val_range : core.
