(* ===== verification/CommonReference.v ===== *)
(** * CommonReference: the shared library's contract is satisfiable

    One concrete implementation of every operation of [Common], with its laws
    proved.  The theorems about components never mention it: they hold of any
    implementation with the laws.  Witnesses and evaluations run on it. *)
From S2P Require Import Prelude Double Rounding CStrings Common.
Local Open Scope Z_scope.

(** ** Arithmetic *)

Definition ref_clamp (x lo hi : double) : double :=
  if dlt x lo then lo else if dlt hi x then hi else x.

Definition ref_percent (part whole : Z) : double :=
  let x := ddiv (dmul (double_of_Z part) d100) (double_of_Z whole) in
  if isnan x then d0 else ref_clamp x d0 d100.

Definition ref_counter_rate (current previous : Z) (scale : ldouble) (elapsed out : double)
    : bool * double :=
  let rate := double_of_ldouble
                (SFdiv 64 16384 (SFmul 64 16384 (ldouble_of_Z (current - previous)) scale)
                       elapsed) in
  if (current <? previous) || negb (dlt d0 elapsed) || isnan rate then (false, out)
  else (true, rate).

#[export] Instance ref_arithmetic : ArithmeticOps := {|
  lsm_u64_add_saturating a b := Z.min uint64_max (a + b);
  lsm_u64_multiply_saturating a b := Z.min uint64_max (a * b);
  lsm_u64_counter_delta current previous out :=
    if previous <=? current then (true, current - previous) else (false, out);
  lsm_u64_counter_rate := ref_counter_rate;
  lsm_percent_u64 := ref_percent;
  lsm_u64_multiply_checked a b out := if a * b <=? uint64_max then (true, a * b) else (false, out);
  lsm_clamp_double := ref_clamp;
  lsm_size_add_checked a b out := if a + b <=? size_max then (true, a + b) else (false, out);
|}.

Lemma ref_clamp_percent x : isnan x = false → in_percent (ref_clamp x d0 d100).
Proof.
  intros Hx. unfold ref_clamp. destruct (dlt x d0) eqn:E1; [by vm_compute|].
  destruct (dlt d100 x) eqn:E2; [by vm_compute|].
  apply dlt_false_iff in E1; [|done..]. by apply dlt_false_iff in E2.
Qed.

#[export] Instance ref_arithmetic_laws : ArithmeticLaws.
Proof.
  split; cbn -[Z.leb Z.min].
  - done.
  - done.
  - intros a b out _ _. by destruct (a * b <=? uint64_max).
  - intros c p out _ _. by destruct (p <=? c).
  - intros c p s e out H. unfold ref_counter_rate.
    by destruct (Z.ltb_spec c p); [|lia].
  - intros c p s e out. unfold ref_counter_rate.
    destruct (_ || _) eqn:E; [done|]. bool_hyps. done.
  - intros p w _ _. unfold ref_percent. destruct (isnan _) eqn:E; [by vm_compute|].
    by apply ref_clamp_percent.
  - intros p w s m e. unfold ref_percent, ref_clamp. destruct (isnan _); [done|]. destruct (dlt _ d0); [done|].
    destruct (dlt d100 _); [by intros [= <- <- <-]|]. by apply SFdiv_digits.
  - intros x. apply ref_clamp_percent.
Qed.

(** ** Sorting *)

Section insertion_sort.
Context {A : Type} (cmp : A → A → comparison).

Fixpoint ref_insert (x : A) (l : list A) : list A :=
  match l with
  | [] => [x]
  | y :: rest => match cmp x y with Gt => y :: ref_insert x rest | _ => x :: l end
  end.

Lemma ref_insert_permutation x l : ref_insert x l ≡ₚ x :: l.
Proof.
  induction l as [|y l IH]; simpl; [done|]. destruct (cmp x y); [done..|].
  rewrite IH. constructor.
Qed.

Lemma ref_insert_sorted x l : preorder_cmp cmp →
  Sorted.StronglySorted (λ a b, cmp a b ≠ Gt) l → Sorted.StronglySorted (λ a b, cmp a b ≠ Gt) (ref_insert x l).
Proof.
  intros Hp. induction 1 as [|y l Hl IH Hy]; simpl; [by repeat constructor|].
  destruct (cmp x y) eqn:E.
  1,2: constructor; [by constructor|]; constructor; [congruence|]; rewrite List.Forall_forall in Hy |- *;
    intros z Hz; apply (cmp_trans _ Hp x y z); [congruence|by apply Hy].
  constructor; [done|]. rewrite List.Forall_forall in Hy |- *. intros z Hz.
  apply (Permutation_in _ (ref_insert_permutation x l)) in Hz as [<-|Hz]; [|by apply Hy].
  rewrite (cmp_antisym _ Hp x y), E. done.
Qed.
End insertion_sort.

#[export] Instance ref_qsort : Qsort := λ A cmp, foldr (ref_insert cmp) [].

#[export] Instance ref_qsort_laws : QsortLaws.
Proof.
  split; intros A cmp l Hp; induction l as [|x l IH]; simpl; [done| |constructor|].
  - unfold qsort, ref_qsort in *. simpl. rewrite ref_insert_permutation. by rewrite IH.
  - by apply ref_insert_sorted.
Qed.

(** ** Text *)

Definition ref_is_space (c : ascii) : bool :=
  existsb (Ascii.eqb c) ["009"; "010"; "011"; "012"; "013"; " "]%char.

Definition ref_lower (c : ascii) : ascii :=
  let n := Ascii.nat_of_ascii c in
  if (65 <=? n)%nat && (n <=? 90)%nat then Ascii.ascii_of_nat (n + 32) else c.

Fixpoint ref_lower_string (s : string) : string :=
  match s with EmptyString => EmptyString | String c s => String (ref_lower c) (ref_lower_string s) end.

Fixpoint string_rev_app (s acc : string) : string :=
  match s with EmptyString => acc | String c s => string_rev_app s (String c acc) end.

Definition ref_trim (s : string) : string :=
  let r := string_rev_app (skip ref_is_space s) EmptyString in
  string_rev_app (skip ref_is_space r) EmptyString.

Definition ref_contains (haystack needle : string) : bool :=
  match String.index 0 needle haystack with Some _ => true | None => false end.

#[export] Instance ref_text : TextOps := {|
  lsm_copy_string size s := String.substring 0 (size - 1) s;
  lsm_trim := ref_trim;
  lsm_string_starts_with text prefix := String.prefix prefix text;
  lsm_ascii_is_space := ref_is_space;
  lsm_ascii_is_digit c :=
    (48 <=? Z.of_nat (Ascii.nat_of_ascii c)) && (Z.of_nat (Ascii.nat_of_ascii c) <=? 57);
  lsm_ascii_is_alnum c :=
    let n := Z.of_nat (Ascii.nat_of_ascii c) in
    ((48 <=? n) && (n <=? 57)) || ((65 <=? n) && (n <=? 90)) || ((97 <=? n) && (n <=? 122));
  lsm_ascii_equal_ci a b := strcmp_eq (ref_lower_string a) (ref_lower_string b);
  lsm_ascii_contains_ci a b := ref_contains (ref_lower_string a) (ref_lower_string b);
  lsm_join_path size directory name :=
    let path := directory +:+ "/" +:+ name in
    if (String.length path <? size)%nat then Some path else None;
  lsm_path_basename path := default path (snd <$> split_last "/" path);
|}.

#[export] Instance ref_ascii : AsciiOps := {|
  lsm_ascii_is_xdigit c :=
    let n := Z.of_nat (Ascii.nat_of_ascii c) in
    ((48 <=? n) && (n <=? 57)) || ((65 <=? n) && (n <=? 70)) || ((97 <=? n) && (n <=? 102));
  lsm_ascii_to_upper c :=
    let n := Ascii.nat_of_ascii c in
    if (97 <=? n)%nat && (n <=? 122)%nat then Ascii.ascii_of_nat (n - 32) else c;
  lsm_trim_line_end s :=
    string_rev_app (skip (λ c, Ascii.eqb c "010" || Ascii.eqb c "013")
                      (string_rev_app s EmptyString)) EmptyString;
|}.

Lemma string_rev_app_list s acc :
  String.list_ascii_of_string (string_rev_app s acc)
  = rev (String.list_ascii_of_string s) ++ String.list_ascii_of_string acc.
Proof.
  revert acc. induction s as [|c s IH]; intros acc; simpl; [done|].
  rewrite IH. simpl. by rewrite <-app_assoc.
Qed.

Lemma skip_first p s : p (char_at s 0) = false → skip p s = s.
Proof. destruct s as [|c s]; [done|]. intros H. change (p c = false) in H. simpl. by rewrite H. Qed.

Lemma char_at_rev s : char_at (string_rev_app s EmptyString) 0 = last_char s.
Proof.
  assert (∀ acc, nonempty s = true → char_at (string_rev_app s acc) 0 = last_char s) as H.
  { induction s as [|c s IH]; [done|]. intros acc _. destruct s as [|d s]; [done|].
    cbn [string_rev_app]. cbn [string_rev_app] in IH. rewrite IH by done.
    unfold last_char. simpl. by rewrite Nat.sub_0_r. }
  destruct s; [done|]. by apply H.
Qed.

Lemma list_ascii_inj a b :
  String.list_ascii_of_string a = String.list_ascii_of_string b → a = b.
Proof.
  intros H. rewrite <-(String.string_of_list_ascii_of_string a),
    <-(String.string_of_list_ascii_of_string b). by rewrite H.
Qed.

#[export] Instance ref_text_laws : TextLaws.
Proof.
  split; simpl.
  - intros. apply substring_0_all. lia.
  - intros size s ?. pose proof (substring_0_length (size - 1) s). lia.
  - intros. apply substring_0_prefix.
  - intros size directory name path. destruct (Nat.ltb_spec (String.length (directory +:+ "/" +:+ name)) size); [|done].
    intros [= <-]. split; [done|]. intros Hn.
    change ("/" +:+ name) with (String "/" name). by rewrite split_last_app.
  - done.
  - done.
  - done.
  - intros s. by apply strcmp_eq_true.
  - intros s Hfirst Hlast. unfold ref_trim.
    rewrite (skip_first _ s) by done.
    rewrite skip_first by by rewrite char_at_rev.
    apply list_ascii_inj. rewrite !string_rev_app_list, !app_nil_r. apply rev_involutive.
Qed.

(** ** Numbers *)

(** The value of a digit in a base up to 16. *)
Definition base_digit (base : Z) (c : ascii) : option Z :=
  let n := Z.of_nat (Ascii.nat_of_ascii c) in
  let v := if (48 <=? n) && (n <=? 57) then n - 48
           else if (97 <=? n) && (n <=? 102) then n - 87
           else if (65 <=? n) && (n <=? 70) then n - 55 else 99 in
  if v <? base then Some v else None.

Fixpoint base_value (base acc : Z) (s : string) : option Z :=
  match s with
  | EmptyString => Some acc
  | String c s => match base_digit base c with
                  | Some d => base_value base (acc * base + d) s
                  | None => None
                  end
  end.

Definition ref_parse_u64 (s : string) (base out : Z) : bool * Z :=
  match base_value base 0 s with
  | Some v => if nonempty s && (v <=? uint64_max) then (true, v) else (false, out)
  | None => (false, out)
  end.

Definition ref_parse_token (cursor : string) (base out : Z) : bool * string * Z :=
  let start := skip ref_is_space cursor in
  let '(digits, rest) :=
    span (λ c, match base_digit base c with Some _ => false | None => true end) start in
  let '(ok, v) := ref_parse_u64 digits base out in
  if ok then (true, rest, v) else (false, cursor, out).

Definition ref_parse_i64 (s : string) (base out : Z) : bool * Z :=
  let '(negative, digits) :=
    match s with
    | String c r => if Ascii.eqb c "-" then (true, r) else (false, s)
    | EmptyString => (false, s)
    end in
  let '(ok, v) := ref_parse_u64 digits base 0 in
  let value := if negative : bool then - v else v in
  if ok && (- 2 ^ 63 <=? value) && (value <? 2 ^ 63) then (true, value) else (false, out).

(** Decimal digits with an optional fraction. *)
Definition ref_parse_double (s : string) (lo hi out : double) : bool * double :=
  let '(whole, fraction) :=
    match split_at "." s with Some p => p | None => (s, EmptyString) end in
  match base_value 10 0 (whole +:+ fraction) with
  | Some v =>
      let x := ddiv (double_of_Z v) (double_of_Z (10 ^ Z.of_nat (String.length fraction))) in
      if nonempty whole && dle lo x && dle x hi then (true, x) else (false, out)
  | None => (false, out)
  end.

(** The nearest integer to |x| * 10^decimals. *)
Definition scaled (x : double) (decimals : nat) : option Z :=
  match x with
  | S754_zero _ => Some 0
  | S754_finite _ m e =>
      let n := Z.pos m * 10 ^ Z.of_nat decimals in
      Some (if 0 <=? e then n * 2 ^ e else (2 * n + 2 ^ (- e)) / (2 * 2 ^ (- e)))
  | _ => None
  end.

Definition is_negative (x : double) : bool :=
  match x with S754_finite true _ _ => true | _ => false end.

Fixpoint fraction_digits (decimals : nat) (n : Z) (acc : string) : string :=
  match decimals with
  | O => acc
  | S k => fraction_digits k (n / 10) (String (digit_char (n mod 10)) acc)
  end.

Definition ref_format_fixed (x : double) (decimals capacity : nat) : option string :=
  match scaled x decimals with
  | None => None
  | Some n =>
      let text := (if is_negative x then "-" else "") +:+ print_u64 (n / 10 ^ Z.of_nat decimals)
                  +:+ (if (decimals =? 0)%nat then "" else "." +:+ fraction_digits decimals n "") in
      if (String.length text <? capacity)%nat then Some text else None
  end.

(** Digits and an optional binary unit. *)
Definition ref_parse_quantity (s : string) (out : Z) : bool * Z :=
  let '(digits, rest) :=
    span (λ c, match base_digit 10 c with Some _ => false | None => true end) (ref_trim s) in
  let unit := ref_trim rest in
  let '(ok, v) := ref_parse_u64 digits 10 0 in
  let scale := if strcmp_eq unit "" then 1 else if strcmp_eq unit "kB" then 1024 else 0 in
  if ok && (0 <? scale) && (v * scale <=? uint64_max) then (true, v * scale) else (false, out).

#[export] Instance ref_numbers : NumberOps := {|
  lsm_parse_u64_token := ref_parse_token;
  infiltratr_parse_u64 := ref_parse_u64;
  infiltratr_parse_i64 := ref_parse_i64;
  lsm_parse_u64_range s base lo hi out :=
    let '(ok, v) := ref_parse_u64 s base out in
    if ok && (lo <=? v) && (v <=? hi) then (true, v) else (false, out);
  lsm_parse_i64_range s base lo hi out :=
    let '(ok, v) := ref_parse_i64 s base out in
    if ok && (lo <=? v) && (v <=? hi) then (true, v) else (false, out);
  infiltratr_parse_i64_token cursor base out :=
    let start := skip ref_is_space cursor in
    let '(text, rest) := span ref_is_space start in
    let '(ok, v) := ref_parse_i64 text base out in
    if ok : bool then (true, rest, v) else (false, cursor, out);
  lsm_parse_double_token cursor signed out :=
    let start := skip ref_is_space cursor in
    let '(text, rest) := span ref_is_space start in
    let '(ok, v) := ref_parse_double text (if signed : bool then SFopp DBL_MAX else d0) DBL_MAX out in
    if ok : bool then (true, rest, v) else (false, cursor, out);
  infiltratr_parse_double_range := ref_parse_double;
  infiltratr_parse_binary_quantity_u64 := ref_parse_quantity;
  infiltratr_format_fixed_ascii := ref_format_fixed;
|}.

Lemma decimal_digit c :
  is_decimal c = true → base_digit 10 c = Some (Z.of_nat (Ascii.nat_of_ascii c) - 48).
Proof.
  unfold is_decimal. cbn [existsb]. intros H.
  repeat (apply orb_true_iff in H as [->%Ascii.eqb_eq|H]; [done|]). done.
Qed.

Lemma base_value_decimal acc s :
  string_forallb is_decimal s = true → base_value 10 acc s = Some (digits_value acc s).
Proof.
  revert acc. induction s as [|c s IH]; intros acc H; [done|].
  cbn [string_forallb] in H. bool_hyps. cbn [base_value digits_value].
  rewrite decimal_digit by done. by apply IH.
Qed.

Lemma ref_parse_print n out : u64 n → ref_parse_u64 (print_u64 n) 10 out = (true, n).
Proof.
  intros Hn. destruct (print_u64_text n ltac:(apply Hn)) as (Hd & Hne & _).
  unfold ref_parse_u64. rewrite base_value_decimal, print_u64_value, Hne by done.
  destruct Hn. by destruct (Z.leb_spec n uint64_max); [|lia].
Qed.

Lemma decimal_head c : is_decimal c = true → Ascii.eqb c "-" = false.
Proof. intros H. by destruct (Ascii.eqb_spec c "-"); [subst|]. Qed.

Lemma ref_parse_i64_print n out :
  - 2 ^ 63 <= n < 2 ^ 63 → ref_parse_i64 (print_i64 n) 10 out = (true, n).
Proof.
  intros Hn. unfold print_i64, ref_parse_i64.
  destruct (Z.ltb_spec n 0).
  - rewrite Ascii.eqb_refl, ref_parse_print by (unfold u64, uint64_max; lia).
    rewrite Z.opp_involutive.
    destruct (Z.leb_spec (- 2 ^ 63) n); [|lia]. by destruct (Z.ltb_spec n (2 ^ 63)); [|lia].
  - destruct (print_u64_text n ltac:(done)) as (Hd & Hne & _).
    pose proof (ref_parse_print n 0 ltac:(unfold u64, uint64_max; lia)) as Hp.
    destruct (print_u64 n) as [|c s]; [done|]. cbn [string_forallb] in Hd. bool_hyps.
    rewrite (decimal_head c) by done. rewrite Hp.
    destruct (Z.leb_spec (- 2 ^ 63) n); [|lia]. by destruct (Z.ltb_spec n (2 ^ 63)); [|lia].
Qed.

Lemma fraction_digits_text decimals n acc :
  string_forallb is_decimal acc = true →
  string_forallb is_decimal (fraction_digits decimals n acc) = true.
Proof.
  revert n acc. induction decimals as [|k IH]; intros n acc H; [done|].
  apply IH. cbn -[is_decimal]. pose proof (Z.mod_pos_bound n 10 ltac:(lia)).
  by rewrite digit_char_decimal by lia.
Qed.

Lemma decimal_fixed s : string_forallb is_decimal s = true → string_forallb fixed_char s = true.
Proof.
  apply forallb_impl. intros c. unfold is_decimal, fixed_char. cbn [existsb]. intros H.
  repeat (apply orb_true_iff in H as [->%Ascii.eqb_eq|H]; [done|]). done.
Qed.

Lemma scaled_nonneg x decimals n : scaled x decimals = Some n → 0 <= n.
Proof.
  destruct x as [| | |s m e]; simpl; try done; intros [= <-]; [done|].
  assert (0 < 10 ^ Z.of_nat decimals) by (apply Z.pow_pos_nonneg; lia).
  destruct (Z.leb_spec 0 e).
  - assert (0 < 2 ^ e) by (apply Z.pow_pos_nonneg; lia). lia.
  - assert (0 < 2 ^ (- e)) by (apply Z.pow_pos_nonneg; lia). apply Z.div_pos; lia.
Qed.

Lemma base_digit_nonneg base c d : base_digit base c = Some d → 0 <= d.
Proof.
  unfold base_digit.
  set (n := Z.of_nat (Ascii.nat_of_ascii c)).
  destruct ((48 <=? n) && (n <=? 57)) eqn:E1; [|destruct ((97 <=? n) && (n <=? 102)) eqn:E2;
    [|destruct ((65 <=? n) && (n <=? 70)) eqn:E3]];
    match goal with |- (if ?b then _ else _) = _ → _ => destruct b end; try done;
    intros [= <-]; bool_hyps; lia.
Qed.

Lemma base_value_nonneg base acc s v :
  0 <= base → 0 <= acc → base_value base acc s = Some v → 0 <= v.
Proof.
  intros Hb. revert acc. induction s as [|c s IH]; intros acc Ha; simpl; [by intros [= <-]|].
  destruct (base_digit base c) as [d|] eqn:E; [|done]. apply base_digit_nonneg in E.
  apply IH. nia.
Qed.

Lemma base_digit_base base c d : base_digit base c = Some d → d < base.
Proof.
  unfold base_digit. match goal with |- (if (?v <? _) then _ else _) = _ → _ => set (x := v) end.
  destruct (Z.ltb_spec x base); [|done]. by intros [= <-].
Qed.

Lemma ref_parse_u64_range s base out :
  u64 out → u64 (ref_parse_u64 s base out).2.
Proof.
  intros Ho. unfold ref_parse_u64. destruct (base_value base 0 s) as [v|] eqn:E; [|done].
  destruct (nonempty s) eqn:Hne; [|done]. simpl.
  destruct (Z.leb_spec v uint64_max); [|done]. simpl. split; [|done].
  destruct s as [|c s]; [done|]. destruct (Z.le_gt_cases 0 base) as [Hb|Hb].
  - by eapply base_value_nonneg; [| |apply E].
  - simpl in E. destruct (base_digit base c) as [d|] eqn:Ed; [|done].
    pose proof (base_digit_nonneg _ _ _ Ed). pose proof (base_digit_base _ _ _ Ed). lia.
Qed.

Lemma span_app p a b :
  string_forallb (λ c, negb (p c)) a = true → (nonempty b = true → p (char_at b 0) = true) →
  span p (a +:+ b) = (a, b).
Proof.
  intros Ha Hb. induction a as [|c a IH]; cbn [string_forallb] in Ha.
  - change (span p b = ("", b)). destruct b as [|d b]; [done|]. simpl.
    specialize (Hb eq_refl). change (p d = true) in Hb. by rewrite Hb.
  - change (span p (String c (a +:+ b)) = (String c a, b)). bool_hyps. simpl.
    by rewrite H, IH.
Qed.

Lemma not_decimal_digit c : is_decimal c = false → base_digit 10 c = None.
Proof.
  intros H. unfold base_digit. set (n := Z.of_nat (Ascii.nat_of_ascii c)).
  destruct ((48 <=? n) && (n <=? 57)) eqn:E1.
  - exfalso. bool_hyps.
    assert (digit_char (n - 48) = c) as E.
    { unfold digit_char. replace (48 + (n - 48)) with n by lia. unfold n.
      by rewrite Nat2Z.id, Ascii.ascii_nat_embedding. }
    pose proof (digit_char_decimal (n - 48) ltac:(lia)). congruence.
  - destruct ((97 <=? n) && (n <=? 102)) eqn:E2, ((65 <=? n) && (n <=? 70)) eqn:E3;
      bool_hyps; match goal with |- context [?a <? ?b] => destruct (Z.ltb_spec a b) end;
      done || lia.
Qed.

Lemma decimal_not_space c : is_decimal c = true → ref_is_space c = false.
Proof.
  unfold is_decimal. cbn [existsb]. intros H.
  repeat (apply orb_true_iff in H as [->%Ascii.eqb_eq|H]; [done|]). done.
Qed.

Lemma ref_parse_token_print n rest out :
  u64 n → is_decimal (char_at rest 0) = false →
  ref_parse_token (print_u64 n +:+ rest) 10 out = (true, rest, n).
Proof.
  intros Hn Hr. destruct (print_u64_text n ltac:(apply Hn)) as (Hd & Hne & _).
  unfold ref_parse_token.
  assert (skip ref_is_space (print_u64 n +:+ rest) = print_u64 n +:+ rest) as ->.
  { destruct (print_u64 n) as [|c s]; [done|]. cbn [string_forallb] in Hd. bool_hyps.
    change (skip ref_is_space (String c (s +:+ rest)) = String c (s +:+ rest)). simpl.
    by rewrite decimal_not_space. }
  rewrite (span_app _ (print_u64 n) rest).
  - by rewrite ref_parse_print.
  - eapply forallb_impl; [|exact Hd]. intros c Hc. by rewrite decimal_digit.
  - intros _. by rewrite not_decimal_digit.
Qed.

#[export] Instance ref_number_laws : NumberLaws.
Proof.
  split; simpl.
  - intros. by apply ref_parse_print.
  - intros. by apply ref_parse_i64_print.
  - intros n lo hi out Hn Hr. rewrite ref_parse_i64_print by done.
    destruct (Z.leb_spec lo n), (Z.leb_spec n hi); done || lia.
  - intros n lo hi out Hn Hr. rewrite ref_parse_i64_print by done.
    destruct Hr; destruct (Z.leb_spec lo n), (Z.leb_spec n hi); done || lia.
  - intros text base lo hi out. destruct (ref_parse_i64 text base out) as [ok v].
    destruct (ok && (lo <=? v) && (v <=? hi)) eqn:E; [|done]. bool_hyps. simpl. lia.
  - intros text lo hi out. unfold ref_parse_double.
    destruct (match split_at "." text with Some p => p | None => (text, "") end) as [whole fraction].
    destruct (base_value _ _ _); [|done].
    match goal with |- context [if ?b then (true, _) else _] => destruct b eqn:E end; [|done].
    bool_hyps. done.
  - intros. by apply ref_parse_token_print.
  - intros cursor base out Ho. unfold ref_parse_token.
    destruct (span _ _) as [digits rest]. pose proof (ref_parse_u64_range digits base out Ho).
    by destruct (ref_parse_u64 digits base out) as [[] v].
  - intros cursor base out. unfold ref_parse_token. destruct (span _ _) as [digits rest].
    by destruct (ref_parse_u64 digits base out) as [[] v].
  - intros s out Ho. unfold ref_parse_quantity. destruct (span _ _) as [digits rest].
    pose proof (ref_parse_u64_range digits 10 0 ltac:(done)) as [Hv _].
    destruct (ref_parse_u64 digits 10 0) as [ok v]. simpl in Hv.
    match goal with |- context [if ?b then (true, _) else _] => destruct b eqn:E end; [|done].
    bool_hyps. simpl. split; nia.
  - intros x decimals capacity text. unfold ref_format_fixed.
    destruct (scaled x decimals) as [n|] eqn:En; [|done]. apply scaled_nonneg in En.
    cbv zeta. match goal with |- context [(String.length ?body <? _)%nat] => set (t := body) end.
    destruct (Nat.ltb_spec (String.length t) capacity) as [Hl|]; [|done].
    intros [= <-]. unfold t in *.
    assert (0 <= n / 10 ^ Z.of_nat decimals) as Hq
      by (apply Z.div_pos; [done|apply Z.pow_pos_nonneg; lia]).
    destruct (print_u64_text _ Hq) as (Hd & Hne & _). split_and!; [| |done].
    + rewrite !forallb_app, (decimal_fixed (print_u64 _)) by done.
      destruct (is_negative x), (decimals =? 0)%nat; rewrite ?forallb_app; simpl; try done;
        by rewrite decimal_fixed by by apply fraction_digits_text.
    + destruct (is_negative x); [done|].
      change ("" +:+ ?a) with a. by apply nonempty_app_l.
Qed.

(** ** Bytes, timing, escaping *)

Fixpoint ref_load_le (n : nat) (bytes : list Byte.byte) : Z :=
  match n, bytes with
  | S n, b :: rest => byte_val b + 256 * ref_load_le n rest
  | _, _ => 0
  end.

#[export] Instance ref_bytes : ByteOps := {|
  infiltratr_load_le16 := ref_load_le 2;
  infiltratr_load_le32 := ref_load_le 4;
  infiltratr_utf8_validate bytes := forallb (λ b, byte_val b <? 128) bytes;
|}.

#[export] Instance ref_byte_laws : ByteLaws.
Proof. split; [intros; cbn -[byte_val]; lia|intros; cbn -[byte_val]; lia|done]. Qed.

#[export] Instance ref_timing : TimingOps := {|
  lsm_refresh_interval_due now last interval := negb (dlt (dsub now last) interval);
|}.

Definition dquote : ascii := "034"%char.

Fixpoint double_quotes (s : string) : string :=
  match s with
  | EmptyString => EmptyString
  | String c s => if Ascii.eqb c dquote then String dquote (String dquote (double_quotes s))
                  else String c (double_quotes s)
  end.

#[export] Instance ref_escape : EscapeOps := {|
  infiltratr_escape_csv_field s harden :=
    Some (String dquote (double_quotes s) +:+ String dquote EmptyString);
|}.
