(* ===== verification/ConfigStore.v ===== *)
(** * ConfigStore: the key=value files

    The preferences ([preferences.c]), the technical process table
    ([details_layout.c]) and the file-system table ([filesystems.c]) keep their
    settings in the same format and read it with the same loop: the file is cut
    at newlines, a line that is a [key=value] entry is applied to the state, any
    other line is skipped.

    The line grammar, the booleans and the theme names belong to
    [infiltratr-common]; [ConfigOps] is what the three files call and
    [ConfigLaws] the documented behaviour they rely on. *)
From S2P Require Import Prelude Double CStrings Common.
Local Open Scope Z_scope.

Class ConfigOps := {
  (** the key and the value when the line is an entry *)
  infiltratr_config_parse_line : string → option (string * string);
  (** text, contents of [*value] *)
  infiltratr_config_parse_bool : string → bool → bool * bool;
  infiltratr_theme_mode_parse : string → Z → bool * Z;
  infiltratr_theme_mode_key : Z → string;
  INFILTRATR_THEME_SYSTEM : Z;
}.

(** The characters of the program's own keys, and of the values it writes. *)
Definition key_char (c : ascii) : bool :=
  let n := Z.of_nat (Ascii.nat_of_ascii c) in
  ((97 <=? n) && (n <=? 122)) || ((48 <=? n) && (n <=? 57)) || (n =? 95) || (n =? 46).
Definition value_char (c : ascii) : bool :=
  let n := Z.of_nat (Ascii.nat_of_ascii c) in (33 <=? n) && (n <=? 126).

Definition key_text (s : string) : bool := nonempty s && string_forallb key_char s.
Definition value_text (s : string) : bool := nonempty s && string_forallb value_char s.

(** A mode the parser can deliver, or the default. *)
Definition theme_known `{ConfigOps} (mode : Z) : Prop :=
  mode = INFILTRATR_THEME_SYSTEM ∨ ∃ text out, infiltratr_theme_mode_parse text out = (true, mode).

Class ConfigLaws `{ConfigOps} : Prop := {
  parse_line_entry key value : key_text key = true → value_text value = true →
    infiltratr_config_parse_line (key +:+ String "=" value) = Some (key, value);
  parse_line_comment text : infiltratr_config_parse_line (String "#" text) = None;
  parse_bool_digit (b out : bool) : infiltratr_config_parse_bool (if b then "1" else "0") out = (true, b);
  theme_round_trip mode out : theme_known mode →
    value_text (infiltratr_theme_mode_key mode) = true ∧
    infiltratr_theme_mode_parse (infiltratr_theme_mode_key mode) out = (true, mode);
}.

(** ** The loop *)

Section loop.
Context `{ConfigOps} {St : Type} (apply : string → string → St → St).

(** src: preferences.c:154-160 lsm_preferences_load *)
Definition config_line (st : St) (line : string) : St :=
  match infiltratr_config_parse_line line with
  | Some (key, value) => apply key value st
  | None => st
  end.

(** src: details_layout.c:143-149 lsm_details_layout_load *)
Definition config_fold (content : string) (st : St) : St :=
  foldl config_line st (strtok_all (is_char nl) (c_string content)).

(** What holds of the state and is kept by every entry is kept by every file. *)
Lemma config_fold_invariant (P : St → Prop) content st :
  (∀ key value st, P st → P (apply key value st)) → P st → P (config_fold content st).
Proof.
  intros Hstep. unfold config_fold. generalize (strtok_all (is_char nl) (c_string content)). intros lines.
  revert st. induction lines as [|line lines IH]; intros st Hst; [done|]. cbn [foldl]. apply IH.
  unfold config_line. destruct (infiltratr_config_parse_line line) as [[key value]|]; auto.
Qed.

(** A file in which no line is an entry changes nothing. *)
Lemma config_fold_noise content st :
  Forall (λ line, infiltratr_config_parse_line line = None) (strtok_all (is_char nl) (c_string content)) →
  config_fold content st = st.
Proof.
  unfold config_fold. induction 1 as [|line lines Hline Hlines IH]; [done|]. cbn [foldl].
  unfold config_line at 2. by rewrite Hline.
Qed.
End loop.

(** ** Written files *)

Abbreviation Entry := (string * string)%type.

Definition entry_line (entry : Entry) : string := entry.1 +:+ String "=" entry.2.
Definition config_text (lines : list string) : string := foldr (λ line acc, line +:+ String nl acc) EmptyString lines.
Definition entry_ok (entry : Entry) : Prop := key_text entry.1 = true ∧ value_text entry.2 = true.

(** [%d] of a boolean. *)
Definition flag_text (b : bool) : string := if b then "1" else "0".

Lemma key_value_char c : key_char c = true → value_char c = true.
Proof.
  unfold key_char, value_char. intros Hc. repeat (apply orb_true_iff in Hc as [Hc|Hc]); bool_hyps;
    apply andb_true_iff; split; apply Z.leb_le; lia.
Qed.

Lemma value_char_plain c : value_char c = true → c ≠ nl ∧ c ≠ "000"%char.
Proof. intros Hc. split; intros ->; done. Qed.

Lemma decimal_value s : string_forallb is_decimal s = true → string_forallb value_char s = true.
Proof.
  apply forallb_impl. intros c Hc. apply existsb_exists in Hc as (d & Hd & ->%Ascii.eqb_eq).
  simpl in Hd. by repeat destruct Hd as [<-|Hd].
Qed.

Lemma print_u64_value_text n : 0 <= n → value_text (print_u64 n) = true.
Proof.
  intros Hn. destruct (print_u64_text n Hn) as (Hd & Hne & _). unfold value_text.
  by rewrite Hne, decimal_value.
Qed.

Lemma print_i64_nonneg n : 0 <= n → print_i64 n = print_u64 n.
Proof. intros Hn. unfold print_i64. by destruct (Z.ltb_spec n 0); [lia|]. Qed.

Lemma print_i64_value_text n : 0 <= n → value_text (print_i64 n) = true.
Proof. intros Hn. rewrite print_i64_nonneg by done. by apply print_u64_value_text. Qed.

Lemma flag_value_text b : value_text (flag_text b) = true.
Proof. by destruct b. Qed.

Definition plain (s : string) : bool := string_forallb (λ c, value_char c || is_char " " c) s.

Lemma plain_no_newline s : plain s = true → string_forallb (λ c, negb (is_char nl c)) s = true.
Proof.
  apply forallb_impl. intros c Hc. apply negb_true_iff, not_true_iff_false. intros Hnl.
  unfold is_char in *. apply Ascii.eqb_eq in Hnl as ->. done.
Qed.

Lemma plain_no_nul s : plain s = true → string_forallb (λ c, negb (is_char "000" c)) s = true.
Proof.
  apply forallb_impl. intros c Hc. apply negb_true_iff, not_true_iff_false. intros Hnl.
  unfold is_char in *. apply Ascii.eqb_eq in Hnl as ->. done.
Qed.

Lemma value_plain s : value_text s = true → plain s = true.
Proof.
  unfold value_text. intros [_ Hs]%andb_true_iff. revert Hs. apply forallb_impl. intros c ->. done.
Qed.

Lemma entry_plain entry : entry_ok entry → plain (entry_line entry) = true ∧ nonempty (entry_line entry) = true.
Proof.
  intros [Hk Hv]. unfold entry_line, plain. rewrite forallb_app. cbn [string_forallb].
  apply value_plain in Hv. unfold plain in Hv. rewrite Hv. unfold key_text in Hk. bool_hyps. split.
  - apply andb_true_iff. split; [|done]. revert H0. apply forallb_impl. intros c Hc. by rewrite key_value_char.
  - by apply nonempty_app_l.
Qed.

Lemma text_no_nul lines : Forall (λ line, plain line = true) lines →
  string_forallb (λ c, negb (is_char "000" c)) (config_text lines) = true.
Proof.
  induction 1 as [|line lines Hline Hlines IH]; [done|]. cbn [config_text foldr].
  rewrite forallb_app. cbn [string_forallb]. rewrite plain_no_nul by done. exact IH.
Qed.

Lemma c_string_text lines : Forall (λ line, plain line = true) lines → c_string (config_text lines) = config_text lines.
Proof.
  intros Hl. unfold c_string. pose proof (text_no_nul lines Hl) as Hall.
  pose proof (span_clean_app (is_char "000") (config_text lines) EmptyString Hall) as Hspan.
  rewrite string_app_nil_r in Hspan. by rewrite Hspan.
Qed.

Lemma config_text_lines lines : Forall (λ line, plain line = true ∧ nonempty line = true) lines →
  strtok_all (is_char nl) (c_string (config_text lines)) = lines.
Proof.
  intros Hl. rewrite c_string_text by (eapply Forall_impl; [exact Hl|]; by intros line []).
  apply (strtok_all_lines (is_char nl) nl lines); [done|]. eapply Forall_impl; [exact Hl|].
  intros line [Hp Hn]. unfold token_clean. by rewrite Hn, plain_no_newline.
Qed.

Section written.
Context `{ConfigLaws} {St : Type} (apply : string → string → St → St).

(** Reading a written file applies its entries in order. *)
Lemma config_fold_entries entries st : Forall entry_ok entries →
  config_fold apply (config_text (entry_line <$> entries)) st = foldl (λ st entry, apply entry.1 entry.2 st) st entries.
Proof.
  intros He. unfold config_fold. rewrite config_text_lines.
  2:{ apply Forall_fmap. eapply Forall_impl; [exact He|]. apply entry_plain. }
  revert st. induction He as [|entry entries [Hk Hv] He IH]; intros st; [done|]. cbn [fmap list_fmap foldl].
  rewrite IH. f_equal. unfold config_line, entry_line. by rewrite parse_line_entry.
Qed.

(** The same behind a comment. *)
Lemma config_fold_comment comment entries st : plain comment = true → Forall entry_ok entries →
  config_fold apply (config_text (String "#" comment :: (entry_line <$> entries))) st =
  foldl (λ st entry, apply entry.1 entry.2 st) st entries.
Proof.
  intros Hc He. rewrite <- config_fold_entries by done. unfold config_fold. rewrite !config_text_lines.
  - cbn [foldl]. unfold config_line at 2. by rewrite parse_line_comment.
  - apply Forall_fmap. eapply Forall_impl; [exact He|]. apply entry_plain.
  - constructor; [done|]. apply Forall_fmap. eapply Forall_impl; [exact He|]. apply entry_plain.
Qed.
End written.

(** One entry at a time. *)
Lemma entry_step {St} (apply : string → string → St → St) key value st st' entries target :
  apply key value st = st' →
  foldl (λ st entry, apply entry.1 entry.2 st) st' entries = target →
  foldl (λ st entry, apply entry.1 entry.2 st) st ((key, value) :: entries) = target.
Proof. by intros <-. Qed.

(** Decides the comparisons of literal keys. *)
Ltac literal_keys :=
  repeat match goal with
  | |- context [strcmp_eq (String ?c ?a) ?b] =>
      let r := eval vm_compute in (strcmp_eq (String c a) b) in change (strcmp_eq (String c a) b) with r
  end; cbv iota beta.

(** ** A reference instance *)
From S2P Require Import CommonReference.

Definition ref_parse_line (line : string) : option (string * string) :=
  if Ascii.eqb (char_at line 0) "#" then None
  else match split_at "=" line with
       | Some (key, value) => if nonempty key then Some (key, value) else None
       | None => None
       end.

Definition ref_themes : list (string * Z) := [("system", 0); ("day", 1); ("night", 2)]%string.

#[export] Instance ref_config : ConfigOps := {|
  infiltratr_config_parse_line := ref_parse_line;
  infiltratr_config_parse_bool text out :=
    if strcmp_eq text "1" then (true, true) else if strcmp_eq text "0" then (true, false) else (false, out);
  infiltratr_theme_mode_parse text out :=
    match list_find (λ theme, theme.1 = text) ref_themes with
    | Some (_, (_, mode)) => (true, mode)
    | None => (false, out)
    end;
  infiltratr_theme_mode_key mode :=
    match list_find (λ theme, theme.2 = mode) ref_themes with
    | Some (_, (key, _)) => key
    | None => "system"%string
    end;
  INFILTRATR_THEME_SYSTEM := 0;
|}.

Lemma ref_theme_known mode : theme_known mode → mode ∈ [0; 1; 2].
Proof.
  intros [->|(text & out & Hp)]; [set_solver|]. simpl in Hp.
  repeat case_decide; simpl in Hp; simplify_eq; set_solver.
Qed.

#[export] Instance ref_config_laws : ConfigLaws.
Proof.
  split; simpl.
  - intros key value Hk Hv. unfold ref_parse_line. unfold key_text in Hk. bool_hyps.
    assert (Hne : key ≠ EmptyString) by by intros ->.
    assert (Hhash : Ascii.eqb (char_at (key +:+ String "=" value) 0) "#" = false).
    { destruct key as [|c key]; [done|]. cbn [string_forallb] in *. bool_hyps.
      change (Ascii.eqb c "#" = false). apply not_true_iff_false. intros ->%Ascii.eqb_eq. done. }
    rewrite Hhash. rewrite split_at_app; [by rewrite H|].
    unfold no_char. revert H0. apply forallb_impl. intros c Hc. apply negb_true_iff, not_true_iff_false.
    intros ->%Ascii.eqb_eq. done.
  - done.
  - by intros [].
  - intros mode out Hm%ref_theme_known. set_unfold. destruct_or!; subst; done.
Qed.
