(* ===== verification/Preferences.v ===== *)
(** * Preferences: the persisted settings

    Models [src/src/preferences.c]: the defaults, the reader that validates
    every value before it replaces a setting, the writer, and the two ends of the
    dialog's edit.  [Preferences] holds the fields of the application's runtime
    and Details state the file persists.  The GTK updates that follow a committed
    edit are not part of it. *)
From S2P Require Import Prelude Double CStrings Common ConfigStore.
Local Open Scope Z_scope.

(** src: app_config.h:37-48 LsmTabIndex *)
Definition LSM_TAB_COUNT : Z := 9.
Definition LSM_TAB_OVERVIEW : Z := 8.
Definition LSM_SAMPLE_HISTORY_LENGTH : Z := 600.
Definition LSM_PAGE_NAME_SIZE : nat := 96.

(** src: app_internal.h:358-393 LsmRuntimeState *)
Record Preferences := {
  update_interval_ms : Z;
  filesystem_update_interval_ms : Z;
  theme_mode : Z;
  newer_on_right : bool;
  network_use_bits : bool;
  network_total_separate : bool;
  network_total_use_bits : bool;
  graph_smooth : bool;
  cpu_stacked : bool;
  memory_logarithmic : bool;
  graph_data_points : Z;
  process_cpu_per_core : bool;
  confirm_process_actions : bool;
  show_all_filesystems : bool;
  process_heatmap : bool;
  always_on_top : bool;
  compact_summary : bool;
  window_width : Z;
  window_height : Z;
  window_maximized : bool;
  last_tab : Z;
  page_scroll : list double;
  selected_performance_page : string;
}.
#[export] Instance eta_Preferences : Eta Preferences := λ x,
  Build_Preferences (update_interval_ms x) (filesystem_update_interval_ms x) (theme_mode x) (newer_on_right x)
    (network_use_bits x) (network_total_separate x) (network_total_use_bits x) (graph_smooth x) (cpu_stacked x)
    (memory_logarithmic x) (graph_data_points x) (process_cpu_per_core x) (confirm_process_actions x)
    (show_all_filesystems x) (process_heatmap x) (always_on_top x) (compact_summary x) (window_width x)
    (window_height x) (window_maximized x) (last_tab x) (page_scroll x) (selected_performance_page x).

(** ** Validated values *)

Section values.
Context `{TextOps, NumberOps, ConfigOps}.

(** src: preferences.c lsm_preferences_initialise_defaults *)
Definition lsm_preferences_initialise_defaults : Preferences := {|
  update_interval_ms := 1000;
  filesystem_update_interval_ms := 5000;
  theme_mode := INFILTRATR_THEME_SYSTEM;
  newer_on_right := true;
  network_use_bits := false;
  network_total_separate := false;
  network_total_use_bits := false;
  graph_smooth := true;
  cpu_stacked := false;
  memory_logarithmic := false;
  graph_data_points := 100;
  process_cpu_per_core := false;
  confirm_process_actions := true;
  show_all_filesystems := false;
  process_heatmap := false;
  always_on_top := false;
  compact_summary := false;
  window_width := 1280;
  window_height := 800;
  window_maximized := false;
  last_tab := LSM_TAB_OVERVIEW;
  page_scroll := replicate (Z.to_nat LSM_TAB_COUNT) d0;
  selected_performance_page := lsm_copy_string LSM_PAGE_NAME_SIZE "cpu";
|}.

(** src: preferences.c parse_boolean *)
Definition parse_boolean (value : string) (fallback : bool) : bool :=
  let '(ok, parsed) := infiltratr_config_parse_bool value false in if ok then parsed else fallback.

(** src: preferences.c validated_theme_mode *)
Definition validated_theme_mode (value : string) (fallback : Z) : Z :=
  let '(ok, parsed) := infiltratr_theme_mode_parse value fallback in if ok : bool then parsed else fallback.

(** src: preferences.c validated_interval *)
Definition validated_interval (value : string) (fallback : Z) : Z :=
  let '(ok, parsed) := lsm_parse_i64_range value 10 0 (2 ^ 63 - 1) 0 in
  if negb ok || negb (parsed =? 500) && negb (parsed =? 1000) && negb (parsed =? 2000) && negb (parsed =? 5000)
  then fallback else parsed.

(** src: preferences.c validated_integer *)
Definition validated_integer (value : string) (minimum maximum fallback : Z) : Z :=
  let '(ok, parsed) := lsm_parse_i64_range value 10 minimum maximum 0 in if ok : bool then parsed else fallback.

(** src: preferences.c validated_double *)
Definition validated_double (value : string) (minimum maximum fallback : double) : double :=
  let '(ok, parsed) := infiltratr_parse_double_range value minimum maximum d0 in
  if ok : bool then parsed else fallback.

Definition stack_char (c : ascii) : bool :=
  let n := Z.of_nat (Ascii.nat_of_ascii c) in
  ((97 <=? n) && (n <=? 122)) || ((48 <=? n) && (n <=? 57)) || Ascii.eqb c "-" || Ascii.eqb c "_".

(** src: preferences.c valid_stack_name *)
Definition valid_stack_name (value : string) : bool := nonempty value && string_forallb stack_char value.

Definition scroll_prefix : string := "page_scroll_".

(** src: preferences.c preference_page_scroll_index *)
Definition preference_page_scroll_index (key : string) : option nat :=
  if negb (lsm_string_starts_with key scroll_prefix) then None
  else
    let '(ok, parsed) := lsm_parse_i64_range
      (String.substring (String.length scroll_prefix) (String.length key) key) 10 0 (LSM_TAB_COUNT - 1) 0 in
    if ok : bool then Some (Z.to_nat parsed) else None.

Definition d1e9 : double := double_of_Z 1000000000.

(** src: preferences.c:161-238 lsm_preferences_load *)
Definition apply_preference (key value : string) (s : Preferences) : Preferences :=
  if strcmp_eq key "update_interval_ms"
  then s <| update_interval_ms := validated_interval value (update_interval_ms s) |>
  else if strcmp_eq key "filesystem_update_interval_ms" then
    let '(ok, parsed) := lsm_parse_i64_range value 10 1000 100000 0 in
    if ok : bool then s <| filesystem_update_interval_ms := parsed |> else s
  else if strcmp_eq key "theme_mode"
  then s <| theme_mode := validated_theme_mode value (theme_mode s) |>
  else if strcmp_eq key "newer_on_right"
  then s <| newer_on_right := parse_boolean value (newer_on_right s) |>
  else if strcmp_eq key "network_use_bits"
  then s <| network_use_bits := parse_boolean value (network_use_bits s) |>
  else if strcmp_eq key "network_total_separate"
  then s <| network_total_separate := parse_boolean value (network_total_separate s) |>
  else if strcmp_eq key "network_total_use_bits"
  then s <| network_total_use_bits := parse_boolean value (network_total_use_bits s) |>
  else if strcmp_eq key "graph_smooth"
  then s <| graph_smooth := parse_boolean value (graph_smooth s) |>
  else if strcmp_eq key "cpu_stacked"
  then s <| cpu_stacked := parse_boolean value (cpu_stacked s) |>
  else if strcmp_eq key "memory_logarithmic"
  then s <| memory_logarithmic := parse_boolean value (memory_logarithmic s) |>
  else if strcmp_eq key "graph_data_points" then
    let '(ok, parsed) := lsm_parse_i64_range value 10 30 LSM_SAMPLE_HISTORY_LENGTH 0 in
    if ok : bool then s <| graph_data_points := parsed |> else s
  else if strcmp_eq key "process_cpu_per_core"
  then s <| process_cpu_per_core := parse_boolean value (process_cpu_per_core s) |>
  else if strcmp_eq key "confirm_process_actions"
  then s <| confirm_process_actions := parse_boolean value (confirm_process_actions s) |>
  else if strcmp_eq key "show_all_filesystems"
  then s <| show_all_filesystems := parse_boolean value (show_all_filesystems s) |>
  else if strcmp_eq key "process_heatmap"
  then s <| process_heatmap := parse_boolean value (process_heatmap s) |>
  else if strcmp_eq key "always_on_top"
  then s <| always_on_top := parse_boolean value (always_on_top s) |>
  else if strcmp_eq key "compact_summary"
  then s <| compact_summary := parse_boolean value (compact_summary s) |>
  else if strcmp_eq key "window_width"
  then s <| window_width := validated_integer value 320 7680 (window_width s) |>
  else if strcmp_eq key "window_height"
  then s <| window_height := validated_integer value 240 4320 (window_height s) |>
  else if strcmp_eq key "window_maximized"
  then s <| window_maximized := parse_boolean value (window_maximized s) |>
  else if strcmp_eq key "last_tab"
  then s <| last_tab := validated_integer value 0 (LSM_TAB_COUNT - 1) (last_tab s) |>
  else if strcmp_eq key "performance_page" && valid_stack_name value
  then s <| selected_performance_page := lsm_copy_string LSM_PAGE_NAME_SIZE value |>
  else match preference_page_scroll_index key with
       | Some index =>
           s <| page_scroll := <[index := validated_double value d0 d1e9 (default d0 (page_scroll s !! index))]>
                                 (page_scroll s) |>
       | None => s
       end.

(** The contents of the file, when it could be read. *)
(** src: preferences.c:138-152 lsm_preferences_load *)
Definition lsm_preferences_load (content : option string) (s : Preferences) : Preferences :=
  match content with
  | None => s
  | Some content =>
      if string_forallb (λ c, negb (is_char "000" c)) content then config_fold apply_preference content s else s
  end.

(** ** The written file *)

Definition scalar_entries (s : Preferences) : list Entry :=
  [("update_interval_ms", print_u64 (update_interval_ms s));
   ("filesystem_update_interval_ms", print_u64 (filesystem_update_interval_ms s));
   ("theme_mode", infiltratr_theme_mode_key (theme_mode s));
   ("newer_on_right", flag_text (newer_on_right s));
   ("network_use_bits", flag_text (network_use_bits s));
   ("network_total_separate", flag_text (network_total_separate s));
   ("network_total_use_bits", flag_text (network_total_use_bits s));
   ("graph_smooth", flag_text (graph_smooth s));
   ("cpu_stacked", flag_text (cpu_stacked s));
   ("memory_logarithmic", flag_text (memory_logarithmic s));
   ("graph_data_points", print_u64 (graph_data_points s));
   ("process_cpu_per_core", flag_text (process_cpu_per_core s));
   ("confirm_process_actions", flag_text (confirm_process_actions s));
   ("show_all_filesystems", flag_text (show_all_filesystems s));
   ("process_heatmap", flag_text (process_heatmap s));
   ("always_on_top", flag_text (always_on_top s));
   ("compact_summary", flag_text (compact_summary s));
   ("window_width", print_i64 (window_width s));
   ("window_height", print_i64 (window_height s));
   ("window_maximized", flag_text (window_maximized s));
   ("last_tab", print_i64 (last_tab s))]%string.

(** The scroll positions, [None] when one cannot be formatted. *)
(** src: preferences.c:289-296 write_preferences *)
Fixpoint scroll_entries (index : nat) (positions : list double) : option (list Entry) :=
  match positions with
  | [] => Some []
  | position :: positions =>
      text ← infiltratr_format_fixed_ascii position 3 64;
      entries ← scroll_entries (S index) positions;
      Some ((scroll_prefix +:+ print_u64 (Z.of_nat index), text) :: entries)
  end.

(** The bytes, when every write succeeds; [None] keeps the file there was. *)
(** src: preferences.c write_preferences *)
Definition write_preferences (s : Preferences) : option string :=
  scrolls ← scroll_entries 0 (page_scroll s);
  Some (config_text ("# System Monitor graphical preferences"%string ::
    (entry_line <$> scalar_entries s ++ scrolls ++
      [("performance_page"%string, if nonempty (selected_performance_page s)
                                   then selected_performance_page s else "cpu"%string)]))).

(** ** The dialog *)

(** src: preferences.h:18-35 LsmPreferencesDialogValues *)
Record LsmPreferencesDialogValues := {
  pd_update_interval_ms : Z;
  pd_filesystem_update_interval_ms : Z;
  pd_network_use_bits : bool;
  pd_network_total_separate : bool;
  pd_network_total_use_bits : bool;
  pd_process_cpu_per_core : bool;
  pd_newer_on_right : bool;
  pd_graph_data_points : Z;
  pd_graph_smooth : bool;
  pd_cpu_stacked : bool;
  pd_memory_logarithmic : bool;
  pd_confirm_process_actions : bool;
  pd_show_all_filesystems : bool;
  pd_process_heatmap : bool;
  pd_always_on_top : bool;
  pd_compact_summary : bool;
}.

(** src: preferences.c lsm_preferences_dialog_values *)
Definition lsm_preferences_dialog_values (s : Preferences) : LsmPreferencesDialogValues := {|
  pd_update_interval_ms := update_interval_ms s;
  pd_filesystem_update_interval_ms := filesystem_update_interval_ms s;
  pd_network_use_bits := network_use_bits s;
  pd_network_total_separate := network_total_separate s;
  pd_network_total_use_bits := network_total_use_bits s;
  pd_process_cpu_per_core := process_cpu_per_core s;
  pd_newer_on_right := newer_on_right s;
  pd_graph_data_points := graph_data_points s;
  pd_graph_smooth := graph_smooth s;
  pd_cpu_stacked := cpu_stacked s;
  pd_memory_logarithmic := memory_logarithmic s;
  pd_confirm_process_actions := confirm_process_actions s;
  pd_show_all_filesystems := show_all_filesystems s;
  pd_process_heatmap := process_heatmap s;
  pd_always_on_top := always_on_top s;
  pd_compact_summary := compact_summary s;
|}.

(** The settings after a committed edit, before the file is written. *)
(** src: preferences.c:347-368 lsm_preferences_commit_dialog_values *)
Definition lsm_preferences_commit_dialog_values (s : Preferences) (values : LsmPreferencesDialogValues) : Preferences :=
  s <| update_interval_ms := pd_update_interval_ms values |>
    <| filesystem_update_interval_ms := pd_filesystem_update_interval_ms values |>
    <| network_use_bits := pd_network_use_bits values |>
    <| network_total_separate := pd_network_total_separate values |>
    <| network_total_use_bits := pd_network_total_use_bits values |>
    <| process_cpu_per_core := pd_process_cpu_per_core values |>
    <| newer_on_right := pd_newer_on_right values |>
    <| graph_data_points := pd_graph_data_points values |>
    <| graph_smooth := pd_graph_smooth values |>
    <| cpu_stacked := pd_cpu_stacked values |>
    <| memory_logarithmic := pd_memory_logarithmic values |>
    <| confirm_process_actions := pd_confirm_process_actions values |>
    <| show_all_filesystems := pd_show_all_filesystems values |>
    <| process_heatmap := pd_process_heatmap values |>
    <| always_on_top := pd_always_on_top values |>
    <| compact_summary := pd_compact_summary values |>.
End values.

(** ** What the settings satisfy *)

Section preferences.
Context `{TextLaws, NumberLaws, ConfigLaws}.

Record prefs_ok (s : Preferences) : Prop := {
  ok_interval : update_interval_ms s ∈ [500; 1000; 2000; 5000];
  ok_filesystem_interval : 1000 <= filesystem_update_interval_ms s <= 100000;
  ok_theme : theme_known (theme_mode s);
  ok_points : 30 <= graph_data_points s <= LSM_SAMPLE_HISTORY_LENGTH;
  ok_width : 320 <= window_width s <= 7680;
  ok_height : 240 <= window_height s <= 4320;
  ok_tab : 0 <= last_tab s < LSM_TAB_COUNT;
  ok_scroll : length (page_scroll s) = Z.to_nat LSM_TAB_COUNT ∧
              Forall (λ x, dle d0 x = true ∧ dle x d1e9 = true) (page_scroll s);
  ok_page : string_forallb stack_char (selected_performance_page s) = true ∧
            (String.length (selected_performance_page s) < LSM_PAGE_NAME_SIZE)%nat;
}.

Lemma defaults_ok : prefs_ok lsm_preferences_initialise_defaults.
Proof.
  split; simpl; try set_solver; try (unfold LSM_SAMPLE_HISTORY_LENGTH, LSM_TAB_COUNT, LSM_TAB_OVERVIEW; lia).
  - by left.
  - split; [done|]. repeat constructor.
  - rewrite copy_string_fits by (vm_compute; lia). split; [done|]. vm_compute. lia.
Qed.

(** *** A value that is accepted is in range *)

Lemma validated_interval_ok value fallback :
  fallback ∈ [500; 1000; 2000; 5000] → validated_interval value fallback ∈ [500; 1000; 2000; 5000].
Proof.
  intros Hf. unfold validated_interval. destruct (lsm_parse_i64_range _ _ _ _ _) as [[] parsed]; [|done].
  cbn [negb orb]. destruct (parsed =? 500) eqn:E1; [bool_hyps; subst; set_solver|].
  destruct (parsed =? 1000) eqn:E2; [bool_hyps; subst; set_solver|].
  destruct (parsed =? 2000) eqn:E3; [bool_hyps; subst; set_solver|].
  destruct (parsed =? 5000) eqn:E4; [bool_hyps; subst; set_solver|]. done.
Qed.

Lemma ranged_ok value minimum maximum out : 
  let '(ok, parsed) := lsm_parse_i64_range value 10 minimum maximum out in
  ok = true → minimum <= parsed <= maximum.
Proof.
  pose proof (parse_i64_range_bounds value 10 minimum maximum out) as Hb.
  by destruct (lsm_parse_i64_range _ _ _ _ _) as [ok parsed].
Qed.

Lemma validated_integer_ok value minimum maximum fallback :
  minimum <= fallback <= maximum → minimum <= validated_integer value minimum maximum fallback <= maximum.
Proof.
  intros Hf. unfold validated_integer. pose proof (ranged_ok value minimum maximum 0) as Hr.
  destruct (lsm_parse_i64_range _ _ _ _ _) as [[] parsed]; auto.
Qed.

Lemma validated_theme_ok value fallback : theme_known fallback → theme_known (validated_theme_mode value fallback).
Proof.
  intros Hf. unfold validated_theme_mode. destruct (infiltratr_theme_mode_parse _ _) as [[] parsed] eqn:E; [|done].
  right. eauto.
Qed.

Lemma validated_double_ok value fallback : dle d0 fallback = true ∧ dle fallback d1e9 = true →
  dle d0 (validated_double value d0 d1e9 fallback) = true ∧ dle (validated_double value d0 d1e9 fallback) d1e9 = true.
Proof.
  intros Hf. unfold validated_double. pose proof (parse_double_bounds value d0 d1e9 d0) as Hb.
  destruct (infiltratr_parse_double_range _ _ _ _) as [[] parsed]; [by apply Hb|done].
Qed.

Lemma stack_prefix_ok value : valid_stack_name value = true →
  string_forallb stack_char (lsm_copy_string LSM_PAGE_NAME_SIZE value) = true ∧
  (String.length (lsm_copy_string LSM_PAGE_NAME_SIZE value) < LSM_PAGE_NAME_SIZE)%nat.
Proof.
  intros [_ Hv]%andb_true_iff. split; [|apply copy_string_bound; unfold LSM_PAGE_NAME_SIZE; lia].
  destruct (copy_string_prefix LSM_PAGE_NAME_SIZE value) as [rest Hr]. rewrite Hr, forallb_app in Hv. by bool_hyps.
Qed.

Lemma scroll_insert_ok index value positions :
  Forall (λ x, dle d0 x = true ∧ dle x d1e9 = true) positions →
  Forall (λ x, dle d0 x = true ∧ dle x d1e9 = true)
    (<[index := validated_double value d0 d1e9 (default d0 (positions !! index))]> positions).
Proof.
  intros Hp. apply Forall_insert; [done|]. apply validated_double_ok.
  destruct (positions !! index) as [x|] eqn:E; [by apply (Forall_lookup_1 _ _ _ _ Hp E)|by vm_compute].
Qed.

Lemma apply_preference_ok key value s : prefs_ok s → prefs_ok (apply_preference key value s).
Proof.
  intros Hok. pose proof Hok as [Hi Hf Ht Hp Hw Hh Hl [Hs Hsr] [Hn Hnl]]. unfold apply_preference.
  pose proof (ranged_ok value 1000 100000 0). pose proof (ranged_ok value 30 LSM_SAMPLE_HISTORY_LENGTH 0).
  pose proof (validated_integer_ok value 0 (LSM_TAB_COUNT - 1) (last_tab s)).
  repeat match goal with
  | |- prefs_ok (if strcmp_eq key ?k then _ else _) =>
      destruct (strcmp_eq key k);
      [try (split; simpl; try done;
            by first [apply validated_interval_ok|apply validated_theme_ok|apply validated_integer_ok|lia])|]
  end.
  - destruct (lsm_parse_i64_range _ _ 1000 _ _) as [[] parsed]; [|done]. split; simpl; auto.
  - destruct (lsm_parse_i64_range _ _ 30 _ _) as [[] parsed]; [|done]. split; simpl; auto.
  - destruct (strcmp_eq key "performance_page" && valid_stack_name value) eqn:E.
    + bool_hyps. split; simpl; try done. by apply stack_prefix_ok.
    + destruct (preference_page_scroll_index key) as [index|]; [|done]. split; simpl; try done.
      split; [by rewrite length_insert|]. by apply scroll_insert_ok.
Qed.

(** Settings are always valid.  Whatever the preferences file contains -
    truncated, hostile or written by another version - reading it leaves every
    setting in the range the program relies on: a known refresh interval and
    theme, bounded graph length and window size, an existing tab, finite scroll
    positions and a page name that is safe to look up and fits its buffer.  A file
    that holds no entry, or a NUL, changes nothing. *)
Theorem preferences_always_valid content s :
  prefs_ok lsm_preferences_initialise_defaults ∧
  (prefs_ok s → prefs_ok (lsm_preferences_load content s)) ∧
  (∀ text, string_forallb (λ c, negb (is_char "000" c)) text = false → lsm_preferences_load (Some text) s = s) ∧
  ∀ values, prefs_ok s → values = lsm_preferences_dialog_values s →
    lsm_preferences_commit_dialog_values s values = s.
Proof.
  split_and!; [apply defaults_ok| | |].
  - intros Hok. destruct content as [content|]; [|done]. simpl. case_match; [|done].
    apply config_fold_invariant; [|done]. intros. by apply apply_preference_ok.
  - intros text Hn. unfold lsm_preferences_load. by rewrite Hn.
  - intros values _ ->. by destruct s.
Qed.

(** ** Round trip *)

(** A scroll position that three decimals determine, such as a whole number of
    pixels. *)
Definition scroll_stable (x : double) : Prop :=
  ∃ text, infiltratr_format_fixed_ascii x 3 64 = Some text ∧
    infiltratr_parse_double_range text d0 d1e9 d0 = (true, x).

(** What is written for an empty page name. *)
Definition saved (s : Preferences) : Preferences :=
  if nonempty (selected_performance_page s) then s else s <| selected_performance_page := "cpu"%string |>.

Lemma ranged_print n minimum maximum : 0 <= n < 2 ^ 63 → minimum <= n <= maximum →
  lsm_parse_i64_range (print_u64 n) 10 minimum maximum 0 = (true, n).
Proof. intros Hn Hr. rewrite <- print_i64_nonneg by lia. apply parse_i64_range_print; lia. Qed.

Lemma validated_interval_print n fallback : n ∈ [500; 1000; 2000; 5000] → validated_interval (print_u64 n) fallback = n.
Proof.
  intros Hn. assert (0 <= n <= 5000) by (set_unfold; lia). unfold validated_interval.
  rewrite ranged_print by lia. set_unfold. destruct_or!; subst; done.
Qed.

Lemma validated_integer_print n minimum maximum fallback : 0 <= n < 2 ^ 63 → minimum <= n <= maximum →
  validated_integer (print_i64 n) minimum maximum fallback = n.
Proof.
  intros Hn Hr. unfold validated_integer. rewrite print_i64_nonneg by lia. by rewrite ranged_print.
Qed.

Lemma parse_boolean_flag b fallback : parse_boolean (flag_text b) fallback = b.
Proof. unfold parse_boolean, flag_text. by rewrite parse_bool_digit. Qed.

Lemma validated_theme_key mode fallback : theme_known mode → validated_theme_mode (infiltratr_theme_mode_key mode) fallback = mode.
Proof. intros Hm. unfold validated_theme_mode. by destruct (theme_round_trip mode fallback Hm) as [_ ->]. Qed.

Lemma fold_scalars s s0 : prefs_ok s →
  foldl (λ st entry, apply_preference entry.1 entry.2 st) s0 (scalar_entries s) =
  s <| page_scroll := page_scroll s0 |> <| selected_performance_page := selected_performance_page s0 |>.
Proof.
  intros [Hi Hf Ht Hp Hw Hh Hl _ _]. unfold LSM_SAMPLE_HISTORY_LENGTH, LSM_TAB_COUNT in *.
  assert (Hl' : 0 <= last_tab s <= 9 - 1) by lia. unfold scalar_entries.
  repeat (eapply entry_step;
    [unfold apply_preference; literal_keys;
     rewrite ?parse_boolean_flag, ?validated_interval_print, ?validated_theme_key, ?validated_integer_print,
       ?ranged_print by (done || lia); reflexivity|]).
  cbn [foldl]. by destruct s, s0.
Qed.

Lemma scroll_key_index index : (index < 9)%nat →
  preference_page_scroll_index (scroll_prefix +:+ print_u64 (Z.of_nat index)) = Some index.
Proof.
  intros Hi. unfold preference_page_scroll_index. rewrite starts_with_spec.
  assert (Hprefix : String.prefix scroll_prefix (scroll_prefix +:+ print_u64 (Z.of_nat index)) = true ∧
    String.substring (String.length scroll_prefix) (String.length (scroll_prefix +:+ print_u64 (Z.of_nat index)))
      (scroll_prefix +:+ print_u64 (Z.of_nat index)) = print_u64 (Z.of_nat index)).
  { do 9 (destruct index as [|index]; [by vm_compute|]). lia. }
  destruct Hprefix as [-> ->]. cbn [negb]. rewrite ranged_print by (unfold LSM_TAB_COUNT; lia). by rewrite Nat2Z.id.
Qed.

Lemma apply_scroll index value st : (index < 9)%nat →
  apply_preference (scroll_prefix +:+ print_u64 (Z.of_nat index)) value st =
  st <| page_scroll := <[index := validated_double value d0 d1e9 (default d0 (page_scroll st !! index))]>
                         (page_scroll st) |>.
Proof.
  intros Hi. pose proof (scroll_key_index index Hi) as Hkey.
  do 9 (destruct index as [|index]; [revert Hkey;
    match goal with |- context [scroll_prefix +:+ ?n] =>
      let key := eval vm_compute in (scroll_prefix +:+ n) in change (scroll_prefix +:+ n) with key end;
    intros Hkey; unfold apply_preference; literal_keys; cbn [andb]; by rewrite Hkey|]). lia.
Qed.

Lemma fixed_value c : fixed_char c = true → value_char c = true.
Proof.
  intros (d & Hd & ->%Ascii.eqb_eq)%existsb_exists. simpl in Hd. by repeat destruct Hd as [<-|Hd].
Qed.

Lemma scroll_entry_ok index position text : (index < 9)%nat →
  infiltratr_format_fixed_ascii position 3 64 = Some text →
  entry_ok (scroll_prefix +:+ print_u64 (Z.of_nat index), text).
Proof.
  intros Hi Hf. split; cbn [fst snd].
  - do 9 (destruct index as [|index]; [by vm_compute|]). lia.
  - apply format_fixed_text in Hf as (Hchars & Hne & _). unfold value_text. rewrite Hne. simpl.
    revert Hchars. apply forallb_impl, fixed_value.
Qed.

Lemma fold_scrolls positions : Forall scroll_stable positions → ∀ index st,
  length (page_scroll st) = 9%nat → (index + length positions = 9)%nat →
  ∃ entries, scroll_entries index positions = Some entries ∧ Forall entry_ok entries ∧
    foldl (λ st entry, apply_preference entry.1 entry.2 st) st entries =
    st <| page_scroll := take index (page_scroll st) ++ positions |>.
Proof.
  induction 1 as [|x positions (text & Hformat & Hparse) Hall IH]; intros index st Hlen Hindex.
  { exists []. split; [done|]. split; [constructor|]. cbn [foldl]. simpl in Hindex.
    rewrite take_ge, app_nil_r by lia. by destruct st. }
  cbn [length] in Hindex. assert (Hi : (index < 9)%nat) by lia.
  set (st1 := st <| page_scroll := <[index := x]> (page_scroll st) |>).
  destruct (IH (S index) st1) as (entries & He & Hok & Hfold); [by unfold st1; simpl; rewrite length_insert|lia|].
  exists ((scroll_prefix +:+ print_u64 (Z.of_nat index), text) :: entries).
  split; [cbn [scroll_entries]; by rewrite Hformat, He|]. split; [constructor; [by eapply scroll_entry_ok|done]|].
  eapply entry_step; [by apply apply_scroll|]. unfold validated_double. rewrite Hparse.
  change (st <| page_scroll := <[index := x]> (page_scroll st) |>) with st1. rewrite Hfold. unfold st1.
  destruct st. cbn [page_scroll] in *. simpl. f_equal.
  rewrite (take_S_r _ _ x) by (apply list_lookup_insert_eq; lia). rewrite take_insert_ge by lia.
  by rewrite <- app_assoc.
Qed.

Lemma page_entry_ok s : string_forallb stack_char (selected_performance_page s) = true →
  entry_ok ("performance_page", if nonempty (selected_performance_page s) then selected_performance_page s else "cpu")%string.
Proof.
  intros Hs. split; [done|]. cbn [snd]. unfold value_text. destruct (nonempty (selected_performance_page s)) eqn:E; [|done].
  rewrite E. simpl. revert Hs. apply forallb_impl. intros c Hc. unfold stack_char in Hc. unfold value_char.
  repeat (apply orb_true_iff in Hc as [Hc|Hc]); try (apply Ascii.eqb_eq in Hc as ->; done);
    bool_hyps; apply andb_true_iff; split; apply Z.leb_le; lia.
Qed.

Lemma scalar_entries_ok s : prefs_ok s → Forall entry_ok (scalar_entries s).
Proof.
  intros [Hi Hf Ht Hp Hw Hh Hl _ _]. unfold scalar_entries.
  assert (0 <= update_interval_ms s) by (set_unfold; lia).
  repeat constructor; cbn [snd]; try apply flag_value_text; try apply print_u64_value_text;
    try apply print_i64_value_text; try lia. by destruct (theme_round_trip (theme_mode s) 0 Ht).
Qed.

Lemma apply_page value st : valid_stack_name value = true → (String.length value < LSM_PAGE_NAME_SIZE)%nat →
  apply_preference "performance_page" value st = st <| selected_performance_page := value |>.
Proof. intros Hv Hl. unfold apply_preference; literal_keys. rewrite Hv. cbn [andb]. by rewrite copy_string_fits. Qed.

(** (C13) What is saved is what is loaded.  Valid settings whose scroll positions
    three decimals determine can always be written, and reading the file back
    restores every one of them whatever the settings were before - so no setting
    is written under a key the reader does not know, or validated more narrowly
    than it is set.  Only an empty page name comes back as the first page. *)
Theorem preferences_round_trip s before :
  prefs_ok s → Forall scroll_stable (page_scroll s) → length (page_scroll before) = Z.to_nat LSM_TAB_COUNT →
  ∃ content, write_preferences s = Some content ∧ lsm_preferences_load (Some content) before = saved s.
Proof.
  intros Hok Hstable Hlen. pose proof Hok as [_ _ _ _ _ _ _ [Hs _] [Hn Hnl]].
  change (Z.to_nat LSM_TAB_COUNT) with 9%nat in *.
  destruct (fold_scrolls (page_scroll s) Hstable 0
    (s <| page_scroll := page_scroll before |> <| selected_performance_page := selected_performance_page before |>))
    as (scrolls & Hscrolls & Hscrolls_ok & Hfold); [done|done|].
  unfold write_preferences. rewrite Hscrolls. eexists. split; [reflexivity|].
  set (name := if nonempty (selected_performance_page s) then selected_performance_page s else "cpu"%string).
  assert (Hentries : Forall entry_ok (scalar_entries s ++ scrolls ++ [("performance_page"%string, name)])).
  { apply Forall_app; split; [by apply scalar_entries_ok|]. apply Forall_app; split; [done|].
    apply Forall_singleton. by apply page_entry_ok. }
  set (lines := "# System Monitor graphical preferences"%string :: _).
  assert (Hplain : Forall (λ line, plain line = true) lines).
  { constructor; [done|]. apply Forall_fmap. eapply Forall_impl; [exact Hentries|]. intros e He. by apply entry_plain. }
  unfold lsm_preferences_load. rewrite text_no_nul by done. unfold lines.
  rewrite (config_fold_comment apply_preference " System Monitor graphical preferences") by done.
  rewrite !foldl_app, fold_scalars by done. rewrite Hfold. cbn [foldl fst snd].
  rewrite apply_page.
  - unfold saved, name. destruct s. cbn [selected_performance_page page_scroll] in *. simpl.
    by destruct (nonempty selected_performance_page0).
  - unfold name. destruct (nonempty (selected_performance_page s)) eqn:E; [|done]. unfold valid_stack_name. by rewrite E.
  - unfold name. destruct (nonempty (selected_performance_page s)); [done|]. vm_compute. lia.
Qed.
End preferences.

From S2P Require Import CommonReference.

(** Changed settings, with a page scrolled by 120 pixels. *)
Definition sample_preferences : Preferences :=
  lsm_preferences_initialise_defaults <| update_interval_ms := 2000 |> <| theme_mode := 2 |> <| cpu_stacked := true |>
    <| page_scroll := double_of_Z 120 :: replicate 8 d0 |> <| selected_performance_page := "disk-sda"%string |>.

Lemma sample_preferences_ok : prefs_ok sample_preferences.
Proof.
  split; simpl; try set_solver; try (unfold LSM_SAMPLE_HISTORY_LENGTH, LSM_TAB_COUNT, LSM_TAB_OVERVIEW; lia).
  - right. by exists "night"%string, 0.
  - split; [done|]. repeat constructor.
  - split; [done|]. unfold LSM_PAGE_NAME_SIZE. lia.
Qed.

Lemma sample_scrolls : Forall scroll_stable (page_scroll sample_preferences).
Proof.
  constructor; [exists "120.000"%string; by vm_compute|].
  apply Forall_replicate. exists "0.000"%string. by vm_compute.
Qed.

Lemma preferences_always_valid_witness :
  prefs_ok (lsm_preferences_load (Some "update_interval_ms=7
window_width=99999
last_tab=-1") lsm_preferences_initialise_defaults).
Proof.
  destruct (preferences_always_valid (Some "update_interval_ms=7
window_width=99999
last_tab=-1"%string) lsm_preferences_initialise_defaults) as (Hdefaults & Hload & _ & _).
  apply Hload, Hdefaults.
Defined.

Lemma preferences_round_trip_witness :
  ∃ content, write_preferences sample_preferences = Some content ∧
    lsm_preferences_load (Some content) lsm_preferences_initialise_defaults = sample_preferences.
Proof.
  destruct (preferences_round_trip sample_preferences lsm_preferences_initialise_defaults
    sample_preferences_ok sample_scrolls) as (content & Hw & Hl); [reflexivity|].
  exists content. split; [exact Hw|]. rewrite Hl. reflexivity.
Defined.
