(* ===== verification/TableLayout.v ===== *)
(** * TableLayout: the persisted table columns

    Models [src/src/details_layout.c] (the technical process table) and the
    column part of [src/src/filesystems.c] (the file-system table): the file a
    layout is saved to, the reader with its validation and version migration,
    and the moves that put the columns in the saved order.

    The two C files repeat the same loops; what they share is written once, over
    the table's column specifications.  A table is what the program asks GTK
    about it: which columns are visible, their order, the sort column, and two
    widths of each column - the fixed width the program sets
    ([gtk_tree_view_column_set_fixed_width]) and the width GTK has allocated to it
    ([gtk_tree_view_column_get_width]), which is 0 until the column is first shown.
    The reader sets the former, the writer saves the latter.  Columns are their
    indices. *)
From S2P Require Import Prelude Double CStrings Common ConfigStore.
Local Open Scope Z_scope.

(** GTK's move of one column behind another, or to the front: the view before,
    the column, the column it goes after. *)
Class ColumnView := { gtk_tree_view_move_column_after : list nat → nat → option nat → list nat }.

Definition without (column : nat) (view : list nat) : list nat := filter (λ c, c ≠ column) view.

Class ColumnViewLaws `{ColumnView} : Prop := {
  move_first view column : NoDup view → column ∈ view →
    gtk_tree_view_move_column_after view column None = column :: without column view;
  move_after view column base before after : NoDup view → column ∈ view → column ≠ base →
    without column view = before ++ base :: after →
    gtk_tree_view_move_column_after view column (Some base) = before ++ base :: column :: after;
}.

(** ** Columns *)

(** src: filesystems.c:42-48 FilesystemColumnSpec *)
Record ColumnSpec := { cs_key : string; cs_default_visible : bool; cs_minimum_width : Z }.

(** src: details_page.c:36-73 lsm_details_column_specs *)
Definition lsm_details_column_specs : list ColumnSpec :=
  [Build_ColumnSpec "name" true 170; Build_ColumnSpec "pid" true 70; Build_ColumnSpec "ppid" false 85;
   Build_ColumnSpec "user" true 95; Build_ColumnSpec "status" true 90; Build_ColumnSpec "cpu" true 70;
   Build_ColumnSpec "cpu_time" false 95; Build_ColumnSpec "memory" true 80; Build_ColumnSpec "rss" true 110;
   Build_ColumnSpec "virtual" false 110; Build_ColumnSpec "writable" false 115; Build_ColumnSpec "shared" false 110;
   Build_ColumnSpec "threads" false 70; Build_ColumnSpec "read_rate" true 90; Build_ColumnSpec "write_rate" true 90;
   Build_ColumnSpec "gpu" true 70; Build_ColumnSpec "gpu_engine" false 105; Build_ColumnSpec "gpu_memory" false 105;
   Build_ColumnSpec "read_total" false 95; Build_ColumnSpec "write_total" false 105; Build_ColumnSpec "handles" false 105;
   Build_ColumnSpec "contexts" false 110; Build_ColumnSpec "faults" false 90; Build_ColumnSpec "priority" false 105;
   Build_ColumnSpec "nice" false 65; Build_ColumnSpec "security" false 180; Build_ColumnSpec "wchan" false 145;
   Build_ColumnSpec "cgroup" false 220; Build_ColumnSpec "unit" false 170; Build_ColumnSpec "session" false 85;
   Build_ColumnSpec "seat" false 85; Build_ColumnSpec "owner" false 105; Build_ColumnSpec "started" false 145;
   Build_ColumnSpec "elapsed" false 100; Build_ColumnSpec "executable" false 260; Build_ColumnSpec "command" false 280]%string.
Definition PROC_N_COLUMNS : nat := 36.
Definition PROC_COL_NAME : nat := 0.
Definition PROC_COL_GPU_ENGINE : Z := 16.

(** src: filesystems.c:50-59 filesystem_column_specs *)
Definition filesystem_column_specs : list ColumnSpec :=
  [Build_ColumnSpec "source" true 140; Build_ColumnSpec "target" true 180; Build_ColumnSpec "type" true 85;
   Build_ColumnSpec "total" true 90; Build_ColumnSpec "free" false 90; Build_ColumnSpec "available" true 90;
   Build_ColumnSpec "used" true 90; Build_ColumnSpec "use" true 70]%string.
Definition FILESYSTEM_COLUMNS : nat := 8.

(** What the reader collects, and what the writer asks the table. *)
Record Columns := {
  co_visible : list bool;
  co_widths : list Z;
  co_order : list Z;
}.
#[export] Instance eta_Columns : Eta Columns := λ x, Build_Columns (co_visible x) (co_widths x) (co_order x).

(** src: details_layout.c layout_identity_order *)
Definition layout_identity_order (count : nat) : list Z := Z.of_nat <$> seq 0 count.

(** src: details_layout.c:132-136 lsm_details_layout_load *)
Definition default_columns (specs : list ColumnSpec) : Columns :=
  Build_Columns (cs_default_visible <$> specs) (cs_minimum_width <$> specs) (layout_identity_order (length specs)).

(** [seen] as the set of positions met so far. *)
Fixpoint permutation_from (count : nat) (order : list Z) (seen : list Z) : bool :=
  match order with
  | [] => true
  | position :: order =>
      if (position <? 0) || (Z.of_nat count <=? position) || bool_decide (position ∈ seen) then false
      else permutation_from count order (position :: seen)
  end.

(** src: details_layout.c layout_order_is_permutation *)
Definition layout_order_is_permutation (count : nat) (order : list Z) : bool := permutation_from count order [].

(** ** Entries *)

Inductive ColumnSetting := Visible | Width | Order.

Definition width_key (spec : ColumnSpec) : string := snprintf 64 ("width." +:+ cs_key spec).
Definition order_key (spec : ColumnSpec) : string := snprintf 64 ("order." +:+ cs_key spec).

(** Which column's setting a key names; the first one wins. *)
(** src: details_layout.c:173-195 lsm_details_layout_load *)
Fixpoint find_column (specs : list ColumnSpec) (key : string) (index : nat) : option (nat * ColumnSetting) :=
  match specs with
  | [] => None
  | spec :: specs =>
      if strcmp_eq key (cs_key spec) then Some (index, Visible)
      else if strcmp_eq key (width_key spec) then Some (index, Width)
      else if strcmp_eq key (order_key spec) then Some (index, Order)
      else find_column specs key (S index)
  end.

Section entries.
Context `{NumberOps, ConfigOps}.

(** src: details_layout.c layout_boolean *)
Definition layout_boolean (value : string) (fallback : bool) : bool :=
  let '(ok, parsed) := infiltratr_config_parse_bool value false in if negb ok then fallback else parsed.

(** src: details_layout.c layout_integer *)
Definition layout_integer (value : string) (minimum maximum fallback : Z) : Z :=
  let '(ok, parsed) := lsm_parse_i64_range value 10 minimum maximum 0 in if ok : bool then parsed else fallback.

Section table.
Variable specs : list ColumnSpec.
(** The narrowest width the reader accepts for a column. *)
Variable narrowest : nat → Z.

(** src: filesystems.c:233-255 filesystem_columns_load *)
Definition apply_column (key value : string) (columns : Columns) : Columns :=
  match find_column specs key 0 with
  | Some (i, Visible) =>
      columns <| co_visible := <[i := layout_boolean value (default false (co_visible columns !! i))]>
                                 (co_visible columns) |>
  | Some (i, Width) =>
      columns <| co_widths := <[i := layout_integer value (narrowest i) 2000 (default 0 (co_widths columns !! i))]>
                                (co_widths columns) |>
  | Some (i, Order) =>
      columns <| co_order := <[i := layout_integer value 0 (Z.of_nat (length specs) - 1)
                                      (default 0 (co_order columns !! i))]> (co_order columns) |>
  | None => columns
  end.

(** The three lines of one column. *)
(** src: filesystems.c:167-177 filesystem_columns_save *)
Definition column_entries (columns : Columns) (i : nat) (spec : ColumnSpec) : list Entry :=
  [(cs_key spec, flag_text (default false (co_visible columns !! i)));
   (("width." +:+ cs_key spec), print_i64 (default 0 (co_widths columns !! i)));
   (("order." +:+ cs_key spec), print_i64 (default 0 (co_order columns !! i)))].

Definition all_column_entries (columns : Columns) : list Entry :=
  concat (imap (column_entries columns) specs).
End table.

Definition sort_entries (sort : option (Z * bool)) : list Entry :=
  match sort with
  | Some (column, descending) =>
      [("sort_column", print_i64 column);
       ("sort_order", if descending : bool then "descending" else "ascending")]
  | None => []
  end%string.
End entries.

(** ** The order of the columns *)

(** The position of each column, from the order the table shows them in. *)
(** src: details_layout.c:55-68 lsm_details_save_layout *)
Definition shown_order (count : nat) (view : list nat) : list Z :=
  (foldl (λ '(order, position) column, (<[column := position]> order, position + 1))
         (layout_identity_order count, 0) view).1.

Section place.
Context `{ColumnView}.

(** src: details_layout.c:232-243 lsm_details_layout_load *)
Definition place_position (order : list Z) (state : list nat * option nat) (position : nat) : list nat * option nat :=
  match list_find (λ p, p = Z.of_nat position) order with
  | Some (index, _) => (gtk_tree_view_move_column_after state.1 index state.2, Some index)
  | None => state
  end.

Definition place_columns (order : list Z) (view : list nat) : list nat :=
  (foldl (place_position order) (view, None) (seq 0 (length order))).1.
End place.

(** ** The technical process table *)

(** src: details_layout.h:16-20 LsmProcessScope *)
Definition PROCESS_SCOPE_ALL : Z := 0.
Definition PROCESS_SCOPE_MINE : Z := 2.
(** src: details_layout.c:29-29 LSM_DETAILS_LAYOUT_VERSION *)
Definition LSM_DETAILS_LAYOUT_VERSION : Z := 5.
Definition INT_MAX : Z := 2147483647.

Record DetailsTable := {
  dt_tree : bool;
  dt_scope : Z;
  dt_heatmap : bool;
  dt_visible : list bool;
  dt_fixed : list Z;
  dt_allocated : list Z;
  dt_view : list nat;
  dt_sort : option (Z * bool);
}.

(** The reader's variables. *)
Record LayoutFile := {
  lf_version : Z;
  lf_tree : bool;
  lf_scope : Z;
  lf_heatmap : bool;
  lf_columns : Columns;
  lf_sort_column : Z;
  lf_descending : bool;
}.
#[export] Instance eta_LayoutFile : Eta LayoutFile := λ x,
  Build_LayoutFile (lf_version x) (lf_tree x) (lf_scope x) (lf_heatmap x) (lf_columns x) (lf_sort_column x)
    (lf_descending x).

Section details.
Context `{NumberOps, ConfigOps, ColumnView}.

(** src: details_layout.c lsm_details_save_layout *)
Definition lsm_details_save_layout (t : DetailsTable) : string :=
  let columns := Build_Columns (dt_visible t) (dt_allocated t) (shown_order PROC_N_COLUMNS (dt_view t)) in
  config_text (entry_line <$>
    [("layout_version", print_i64 LSM_DETAILS_LAYOUT_VERSION); ("tree", flag_text (dt_tree t));
     ("scope", print_i64 (dt_scope t)); ("heatmap", flag_text (dt_heatmap t))]%string ++
    all_column_entries lsm_details_column_specs columns ++ sort_entries (dt_sort t)).

Definition details_narrowest (i : nat) : Z := default 0 (cs_minimum_width <$> lsm_details_column_specs !! i).

(** src: details_layout.c:151-172 lsm_details_layout_load *)
Definition apply_layout (key value : string) (f : LayoutFile) : LayoutFile :=
  if strcmp_eq key "layout_version"
  then f <| lf_version := layout_integer value 0 INT_MAX (lf_version f) |>
  else if strcmp_eq key "tree" then f <| lf_tree := layout_boolean value (lf_tree f) |>
  else if strcmp_eq key "scope"
  then f <| lf_scope := layout_integer value PROCESS_SCOPE_ALL PROCESS_SCOPE_MINE (lf_scope f) |>
  else if strcmp_eq key "heatmap" then f <| lf_heatmap := layout_boolean value (lf_heatmap f) |>
  else if strcmp_eq key "sort_column"
  then f <| lf_sort_column := layout_integer value 0 (Z.of_nat PROC_N_COLUMNS - 1) (lf_sort_column f) |>
  else if strcmp_eq key "sort_order" then
    if strcmp_eq value "descending" then f <| lf_descending := true |>
    else if strcmp_eq value "ascending" then f <| lf_descending := false |>
    else f
  else f <| lf_columns := apply_column lsm_details_column_specs details_narrowest key value (lf_columns f) |>.

Definition default_layout : LayoutFile :=
  Build_LayoutFile 0 true PROCESS_SCOPE_ALL true (default_columns lsm_details_column_specs) (-1) false.

Definition reset_order (f : LayoutFile) : LayoutFile :=
  f <| lf_columns := lf_columns f <| co_order := layout_identity_order PROC_N_COLUMNS |> |>.

(** src: details_layout.c:200-222 lsm_details_layout_load *)
Definition migrate_layout (f : LayoutFile) : LayoutFile :=
  let version := lf_version f in
  let f := if version <? 2
           then f <| lf_columns := lf_columns f <| co_visible := cs_default_visible <$> lsm_details_column_specs |> |>
           else f in
  let f := if version <? 3 then
             reset_order (f <| lf_sort_column :=
               if 11 <=? lf_sort_column f then lf_sort_column f + 3
               else if 6 <=? lf_sort_column f then lf_sort_column f + 1
               else lf_sort_column f |>)
           else f in
  let f := if version <? 4 then
             reset_order (f <| lf_sort_column :=
               if PROC_COL_GPU_ENGINE <=? lf_sort_column f then lf_sort_column f + 1 else lf_sort_column f |>)
           else f in
  let f := if version <? LSM_DETAILS_LAYOUT_VERSION then reset_order (f <| lf_sort_column := -1 |>) else f in
  if layout_order_is_permutation PROC_N_COLUMNS (co_order (lf_columns f)) then f else reset_order f.

(** src: details_layout.c lsm_details_layout_load *)
Definition lsm_details_layout_load (content : option string) (t : DetailsTable) : DetailsTable :=
  let f := match content with
           | Some content => config_fold apply_layout content default_layout
           | None => default_layout
           end in
  let f := migrate_layout f in
  {| dt_tree := lf_tree f;
     dt_scope := lf_scope f;
     dt_heatmap := lf_heatmap f;
     dt_visible := <[PROC_COL_NAME := true]> (co_visible (lf_columns f));
     dt_fixed := co_widths (lf_columns f);
     dt_allocated := dt_allocated t;
     dt_view := place_columns (co_order (lf_columns f)) (dt_view t);
     dt_sort := if 0 <=? lf_sort_column f then Some (lf_sort_column f, lf_descending f) else dt_sort t |}.
End details.

(** ** The file-system table *)

Record FilesystemTable := {
  ft_visible : list bool;
  ft_fixed : list Z;
  ft_allocated : list Z;
  ft_view : list nat;
  ft_sort : option (Z * bool);
}.

Record FilesystemFile := { ff_columns : Columns; ff_sort_column : Z; ff_descending : bool }.
#[export] Instance eta_FilesystemFile : Eta FilesystemFile := λ x,
  Build_FilesystemFile (ff_columns x) (ff_sort_column x) (ff_descending x).

Section filesystems.
Context `{NumberOps, ConfigOps, ColumnView}.

(** src: filesystems.c filesystem_columns_save *)
Definition filesystem_columns_save (t : FilesystemTable) : string :=
  let columns := Build_Columns (ft_visible t) (ft_allocated t) (shown_order FILESYSTEM_COLUMNS (ft_view t)) in
  config_text (entry_line <$> [("layout_version", "1")]%string ++
    all_column_entries filesystem_column_specs columns ++ sort_entries (ft_sort t)).

(** src: filesystems.c:221-232 filesystem_columns_load *)
Definition apply_filesystem (key value : string) (f : FilesystemFile) : FilesystemFile :=
  if strcmp_eq key "sort_column"
  then f <| ff_sort_column := layout_integer value 0 (Z.of_nat FILESYSTEM_COLUMNS - 1) (ff_sort_column f) |>
  else if strcmp_eq key "sort_order" then
    if strcmp_eq value "descending" then f <| ff_descending := true |>
    else if strcmp_eq value "ascending" then f <| ff_descending := false |>
    else f
  else f <| ff_columns := apply_column filesystem_column_specs (λ _, 40) key value (ff_columns f) |>.

(** src: filesystems.c filesystem_columns_load *)
Definition filesystem_columns_load (content : option string) (t : FilesystemTable) : FilesystemTable :=
  let f := Build_FilesystemFile (default_columns filesystem_column_specs) (-1) false in
  let f := match content with Some content => config_fold apply_filesystem content f | None => f end in
  {| ft_visible := co_visible (ff_columns f);
     ft_fixed := co_widths (ff_columns f);
     ft_allocated := ft_allocated t;
     ft_view := place_columns (co_order (ff_columns f)) (ft_view t);
     ft_sort := if 0 <=? ff_sort_column f then Some (ff_sort_column f, ff_descending f) else ft_sort t |}.
End filesystems.

(** ** The order of the columns *)

Section order.
Context `{ColumnViewLaws}.

Lemma without_elem column view c : c ∈ without column view ↔ c ∈ view ∧ c ≠ column.
Proof. unfold without. rewrite list_elem_of_filter. tauto. Qed.

Lemma without_permutation column view : NoDup view → column ∈ view → column :: without column view ≡ₚ view.
Proof.
  intros Hd Hin. apply NoDup_Permutation; [|done|].
  - constructor; [rewrite without_elem; tauto|]. by apply NoDup_filter.
  - intros c. rewrite elem_of_cons, without_elem. split; [intros [->|[? _]]; done|].
    intros Hc. destruct (decide (c = column)); [by left|by right].
Qed.

(** A move behind a column of the table permutes it. *)
Lemma move_permutation view column previous : NoDup view → column ∈ view →
  (∀ base, previous = Some base → base ∈ view ∧ base ≠ column) →
  gtk_tree_view_move_column_after view column previous ≡ₚ view.
Proof.
  intros Hd Hin Hprev. rewrite <- (without_permutation column view) at 2 by done.
  destruct previous as [base|].
  - destruct (Hprev base eq_refl) as [Hbase Hne].
    destruct (list_elem_of_split (without column view) base) as (before & after & Hsplit);
      [by apply without_elem|].
    rewrite (move_after view column base before after), Hsplit by done.
    change (before ++ base :: column :: after) with (before ++ [base] ++ column :: after).
    rewrite app_assoc, <- Permutation_middle, <- app_assoc. done.
  - by rewrite move_first.
Qed.

(** Columns moved one behind the other end up in that order, in front. *)
Definition place_list (columns : list nat) (state : list nat * option nat) : list nat * option nat :=
  foldl (λ state column, (gtk_tree_view_move_column_after state.1 column state.2, Some column)) state columns.

Lemma without_placed column placed rest : column ∉ placed → without column (placed ++ rest) = placed ++ without column rest.
Proof.
  intros Hn. unfold without. rewrite filter_app. f_equal. induction placed as [|c placed IH]; [done|].
  rewrite not_elem_of_cons in Hn. rewrite filter_cons_True by naive_solver. by rewrite IH by tauto.
Qed.

Lemma place_list_spec columns : ∀ placed rest, NoDup (placed ++ rest) → NoDup columns → columns ⊆ rest →
  ∃ rest', (place_list columns (placed ++ rest, last placed)).1 = placed ++ columns ++ rest' ∧
           columns ++ rest' ≡ₚ rest.
Proof.
  induction columns as [|column columns IH]; intros placed rest Hd Hc Hsub; [by exists rest|].
  apply NoDup_cons in Hc as [Hnotin Hc].
  assert (Hin : column ∈ rest) by (apply Hsub; left).
  pose proof Hd as (Hplaced & Hdisj & Hrest)%NoDup_app.
  assert (Hnp : column ∉ placed) by (intros Hp; by apply (Hdisj column)).
  assert (Hmove : gtk_tree_view_move_column_after (placed ++ rest) column (last placed)
                  = (placed ++ [column]) ++ without column rest).
  { rewrite <- app_assoc. simpl. destruct (last placed) as [base|] eqn:Hlast.
    - destruct placed as [|p placed _] using rev_ind; [done|]. rewrite last_snoc in Hlast. injection Hlast as ->.
      rewrite (move_after _ column base placed (without column rest)); [by rewrite <- app_assoc|done| | |].
      + apply elem_of_app. by right.
      + intros ->. apply Hnp. set_solver.
      + rewrite without_placed by done. by rewrite <- app_assoc.
    - apply last_None in Hlast as ->. simpl. by rewrite move_first. }
  destruct (IH (placed ++ [column]) (without column rest)) as (rest' & Hplace & Hperm).
  - rewrite <- Hmove. rewrite move_permutation; [done|done|by apply elem_of_app; right|].
    intros base Hlast. apply last_Some in Hlast as [before ->]. split; [set_solver|]. intros ->. apply Hnp. set_solver.
  - done.
  - intros c Hc'. apply without_elem. split; [apply Hsub; by right|]. by intros ->.
  - exists rest'. split.
    + unfold place_list. cbn [foldl fst snd]. rewrite Hmove. rewrite last_snoc in Hplace.
      unfold place_list in Hplace. rewrite Hplace. by rewrite <- app_assoc.
    + rewrite <- (without_permutation column rest) by done. simpl. by rewrite Hperm.
Qed.

(** The columns a position names, in order. *)
Definition named_columns (order : list Z) (positions : list nat) : list nat :=
  omap (λ position, fst <$> list_find (λ p, p = Z.of_nat position) order) positions.

Lemma place_positions order positions state :
  foldl (place_position order) state positions = place_list (named_columns order positions) state.
Proof.
  revert state. induction positions as [|position positions IH]; intros state; [done|].
  cbn [foldl named_columns omap list_omap]. unfold place_position at 2.
  destruct (list_find _ order) as [[index p]|]; simpl; apply IH.
Qed.

Lemma named_NoDup order positions : NoDup positions → NoDup (named_columns order positions).
Proof.
  unfold named_columns. induction 1 as [|position positions Hn Hd IH]; [constructor|]. cbn [omap list_omap].
  destruct (list_find _ order) as [[index p]|] eqn:E; [|done]. simpl. constructor; [|done].
  intros (position' & Hp' & E')%list_elem_of_omap.
  destruct (list_find (λ p, p = Z.of_nat position') order) as [[index' p']|] eqn:F; [|done]. injection E' as ->.
  apply list_find_Some in E as (Ei & -> & _). apply list_find_Some in F as (Fi & -> & _).
  apply Hn. by replace position with position' by (simplify_eq; congruence || lia).
Qed.

Lemma named_range order positions : named_columns order positions ⊆ seq 0 (length order).
Proof.
  intros c (position & _ & E)%list_elem_of_omap.
  destruct (list_find _ order) as [[index p]|] eqn:F; [|done]. injection E as ->.
  apply list_find_Some in F as (Fi & _). apply elem_of_seq. apply lookup_lt_Some in Fi. lia.
Qed.

(** Whatever order was read, the table still shows each of its columns once. *)
Lemma place_columns_permutation order view : view ≡ₚ seq 0 (length order) → place_columns order view ≡ₚ view.
Proof.
  intros Hview. unfold place_columns. rewrite place_positions.
  destruct (place_list_spec (named_columns order (seq 0 (length order))) [] view) as (rest & Hplace & Hperm).
  - simpl. rewrite Hview. apply NoDup_seq.
  - apply named_NoDup, NoDup_seq.
  - rewrite Hview. apply named_range.
  - cbn [app last] in Hplace. by rewrite Hplace.
Qed.

(** ** The saved order *)

Lemma shown_fold view : ∀ (order : list Z) position, NoDup view →
  length (foldl (λ '(order, position) column, (<[column := position]> order, position + 1)) (order, position) view).1
    = length order ∧
  (∀ column, column ∉ view →
     (foldl (λ '(order, position) column, (<[column := position]> order, position + 1)) (order, position) view).1 !! column
     = order !! column) ∧
  ∀ index column, view !! index = Some column → (column < length order)%nat →
    (foldl (λ '(order, position) column, (<[column := position]> order, position + 1)) (order, position) view).1 !! column
    = Some (position + Z.of_nat index).
Proof.
  induction view as [|c view IH]; intros order position Hd; [done|]. apply NoDup_cons in Hd as [Hn Hd]. cbn [foldl].
  destruct (IH (<[c := position]> order) (position + 1) Hd) as (Hl & Ho & Hi). split_and!.
  - rewrite Hl. apply length_insert.
  - intros column Hc. rewrite not_elem_of_cons in Hc. destruct Hc as [Hne Hc]. rewrite Ho by done.
    by apply list_lookup_insert_ne.
  - intros [|index] column Hc Hlt; simpl in Hc.
    + injection Hc as <-. rewrite Ho by done. rewrite list_lookup_insert_eq by done. f_equal. lia.
    + rewrite (Hi index column) by (rewrite ?length_insert; done). f_equal. lia.
Qed.

Lemma shown_order_spec count view : view ≡ₚ seq 0 count →
  length (shown_order count view) = count ∧
  ∀ index column, view !! index = Some column → shown_order count view !! column = Some (Z.of_nat index).
Proof.
  intros Hview. assert (Hd : NoDup view) by (rewrite Hview; apply NoDup_seq). unfold shown_order.
  destruct (shown_fold view (layout_identity_order count) 0 Hd) as (Hl & _ & Hi).
  assert (Hlen : length (layout_identity_order count) = count)
    by (unfold layout_identity_order; by rewrite length_fmap, length_seq).
  split; [by rewrite Hl|]. intros index column Hc. rewrite (Hi index column); [done|done|]. rewrite Hlen.
  apply list_elem_of_lookup_2 in Hc. rewrite Hview in Hc. apply elem_of_seq in Hc. lia.
Qed.

Lemma shown_order_find count view index column : view ≡ₚ seq 0 count → view !! index = Some column →
  list_find (λ p, p = Z.of_nat index) (shown_order count view) = Some (column, Z.of_nat index).
Proof.
  intros Hview Hi. destruct (shown_order_spec count view Hview) as [Hl Hs]. apply list_find_Some.
  split_and!; [by apply Hs|done|]. intros other p Ho Hlt ->.
  assert (Hother : other ∈ view).
  { rewrite Hview. apply elem_of_seq. apply lookup_lt_Some in Ho. lia. }
  apply list_elem_of_lookup in Hother as [index' Hi']. pose proof (Hs _ _ Hi') as Hs'. rewrite Ho in Hs'.
  assert (index' = index) as -> by (injection Hs'; lia). rewrite Hi in Hi'. injection Hi' as ->. lia.
Qed.

Lemma named_shown count view : view ≡ₚ seq 0 count → named_columns (shown_order count view) (seq 0 count) = view.
Proof.
  intros Hview. assert (Hlen : length view = count) by (by rewrite Hview, length_seq). unfold named_columns.
  assert (Hgen : ∀ n, (n ≤ length view)%nat →
    omap (λ position, fst <$> list_find (λ p, p = Z.of_nat position) (shown_order count view)) (seq 0 n) = take n view).
  { induction n as [|n IH]; intros Hn; [done|]. rewrite seq_S, omap_app, IH by lia. cbn [omap list_omap Nat.add].
    destruct (lookup_lt_is_Some_2 view n) as [column Hc]; [lia|].
    rewrite (shown_order_find count view n column) by done. simpl. by rewrite (take_S_r _ _ column). }
  rewrite Hgen by lia. apply take_ge. lia.
Qed.

(** The order a table was saved with is the order it is shown in again. *)
Lemma place_columns_shown count view before : view ≡ₚ seq 0 count → before ≡ₚ seq 0 count →
  place_columns (shown_order count view) before = view.
Proof.
  intros Hview Hbefore. destruct (shown_order_spec count view Hview) as [Hl _].
  unfold place_columns. rewrite Hl, place_positions, named_shown by done.
  destruct (place_list_spec view [] before) as (rest & Hplace & Hperm).
  - simpl. rewrite Hbefore. apply NoDup_seq.
  - rewrite Hview. apply NoDup_seq.
  - by rewrite Hview, Hbefore.
  - cbn [app last] in Hplace. rewrite Hplace. apply Permutation_length in Hperm.
    rewrite length_app, Hview, Hbefore in Hperm. destruct rest; [by rewrite app_nil_r|simpl in Hperm; lia].
Qed.

Lemma permutation_from_spec count order seen :
  permutation_from count order seen = true ↔
  NoDup order ∧ Forall (λ p, 0 <= p < Z.of_nat count ∧ p ∉ seen) order.
Proof.
  revert seen. induction order as [|p order IH]; intros seen; cbn [permutation_from].
  { split; [split; constructor|done]. }
  destruct ((p <? 0) || (Z.of_nat count <=? p) || bool_decide (p ∈ seen)) eqn:E.
  - split; [done|]. intros [_ [Hr Hs]%Forall_cons]. exfalso.
    apply orb_true_iff in E as [E|E%bool_decide_eq_true]; [|by apply Hr]. apply orb_true_iff in E as [E|E]; bool_hyps; lia.
  - apply orb_false_iff in E as [E Es%bool_decide_eq_false]. apply orb_false_iff in E as [El Eh]. bool_hyps.
    rewrite IH, NoDup_cons, Forall_cons. split.
    + intros [Hd Hall]. rewrite Forall_forall in Hall. split_and!; [|done|lia|lia|done|].
      * intros Hin. apply Hall in Hin as [_ Hin]. apply Hin. left.
      * apply Forall_forall. intros q Hq. apply Hall in Hq. set_solver.
    + intros [[Hn Hd] [_ Hall]]. split; [done|]. rewrite Forall_forall in Hall |- *. intros q Hq.
      destruct (Hall q Hq) as [Hr Hs]. split; [done|]. rewrite elem_of_cons. intros [->|]; done.
Qed.

Lemma shown_is_permutation count view : view ≡ₚ seq 0 count →
  layout_order_is_permutation count (shown_order count view) = true.
Proof.
  intros Hview. apply permutation_from_spec. destruct (shown_order_spec count view Hview) as [Hl Hs].
  assert (Hentry : ∀ column, (column < count)%nat → ∃ index, view !! index = Some column ∧
    shown_order count view !! column = Some (Z.of_nat index)).
  { intros column Hc. assert (Hin : column ∈ view) by (rewrite Hview; apply elem_of_seq; lia).
    apply list_elem_of_lookup in Hin as [index Hi]. exists index. auto. }
  split.
  - apply NoDup_alt. intros i j p Hi Hj.
    destruct (Hentry i) as (i' & Hvi & Hi'); [apply lookup_lt_Some in Hi; lia|].
    destruct (Hentry j) as (j' & Hvj & Hj'); [apply lookup_lt_Some in Hj; lia|].
    rewrite Hi in Hi'. rewrite Hj in Hj'. assert (i' = j') by (simplify_eq; lia). congruence.
  - apply Forall_lookup. intros column p Hp.
    destruct (Hentry column) as (index & Hvi & Hi); [apply lookup_lt_Some in Hp; lia|].
    rewrite Hp in Hi. injection Hi as ->. apply lookup_lt_Some in Hvi. rewrite Hview, length_seq in Hvi. split; [lia|set_solver].
Qed.
End order.

(** ** The columns' entries *)

#[export] Instance column_setting_eq_dec : EqDecision ColumnSetting.
Proof. solve_decision. Defined.

Definition spec_keys (spec : ColumnSpec) : list string :=
  [cs_key spec; "width." +:+ cs_key spec; "order." +:+ cs_key spec]%string.

(** Each key is found as the setting it was written for, and is a key. *)
Definition keys_located (specs : list ColumnSpec) : bool :=
  forallb (λ '(i, spec),
      bool_decide ((λ key, find_column specs key 0) <$> spec_keys spec = [Some (i, Visible); Some (i, Width); Some (i, Order)])
      && forallb key_text (spec_keys spec)) (imap pair specs).

Lemma details_located : keys_located lsm_details_column_specs = true.
Proof. by vm_compute. Qed.
Lemma filesystem_located : keys_located filesystem_column_specs = true.
Proof. by vm_compute. Qed.

Lemma insert_progress {A} (new old : list A) i x : length old = length new → new !! i = Some x →
  <[i := x]> (take i new ++ drop i old) = take (S i) new ++ drop (S i) old.
Proof.
  intros Hl Hi. pose proof (lookup_lt_Some _ _ _ Hi). rewrite insert_app_r_alt by (rewrite length_take; lia).
  rewrite length_take_le by lia. rewrite Nat.sub_diag. rewrite (take_S_r _ _ x) by done. rewrite <- app_assoc. f_equal.
  destruct (lookup_lt_is_Some_2 old i) as [y Hy]; [lia|]. by rewrite (drop_S _ y i).
Qed.

Section fold_columns.
Context `{NumberLaws, ConfigLaws}.
Variable specs : list ColumnSpec.
Variable narrowest : nat → Z.
Hypothesis Hlocated : keys_located specs = true.

(** Columns the reader accepts as they are. *)
Record columns_ok (c : Columns) : Prop := {
  ok_visible_count : length (co_visible c) = length specs;
  ok_width_count : length (co_widths c) = length specs;
  ok_order_count : length (co_order c) = length specs;
  ok_widths : ∀ i width, co_widths c !! i = Some width → narrowest i <= width <= 2000;
  ok_orders : Forall (λ p, 0 <= p < Z.of_nat (length specs)) (co_order c);
}.

(** Columns as they are written: any width GTK may have allocated. *)
Record columns_saved (c : Columns) : Prop := {
  sv_visible_count : length (co_visible c) = length specs;
  sv_width_count : length (co_widths c) = length specs;
  sv_order_count : length (co_order c) = length specs;
  sv_widths : Forall (λ width, 0 <= width < 2 ^ 31) (co_widths c);
  sv_orders : Forall (λ p, 0 <= p < Z.of_nat (length specs)) (co_order c);
}.

(** The width a column gets back: the saved one when the reader accepts it. *)
Definition width_back (fallback : list Z) (i : nat) (width : Z) : Z :=
  if (narrowest i <=? width) && (width <=? 2000) then width else default 0 (fallback !! i).

(** The columns that were saved, over those the reader starts from. *)
Definition columns_back (st saved : Columns) : Columns :=
  Build_Columns (co_visible saved) (imap (width_back (co_widths st)) (co_widths saved)) (co_order saved).

Lemma located i spec : specs !! i = Some spec →
  find_column specs (cs_key spec) 0 = Some (i, Visible) ∧
  find_column specs ("width." +:+ cs_key spec) 0 = Some (i, Width) ∧
  find_column specs ("order." +:+ cs_key spec) 0 = Some (i, Order) ∧
  Forall (λ key, key_text key = true) (spec_keys spec).
Proof.
  intros Hi. unfold keys_located in Hlocated. rewrite List.forallb_forall in Hlocated.
  specialize (Hlocated (i, spec)). cbn beta iota in Hlocated.
  assert (Hin : In (i, spec) (imap pair specs)).
  { apply list_elem_of_In. apply (list_elem_of_lookup_2 _ i). by rewrite list_lookup_imap, Hi. }
  apply Hlocated in Hin as [Hfind%bool_decide_eq_true Hkeys]%andb_true_iff. injection Hfind as Hv Hw Ho.
  split_and!; [done..|]. apply Forall_forall. intros key Hk%list_elem_of_In.
  rewrite List.forallb_forall in Hkeys. by apply Hkeys.
Qed.

Lemma layout_boolean_flag b fallback : layout_boolean (flag_text b) fallback = b.
Proof. unfold layout_boolean, flag_text. by rewrite parse_bool_digit. Qed.

Lemma layout_integer_print n minimum maximum fallback :
  0 <= n < 2 ^ 63 → minimum <= n <= maximum → layout_integer (print_i64 n) minimum maximum fallback = n.
Proof. intros Hn Hr. unfold layout_integer. by rewrite parse_i64_range_print by lia. Qed.

Lemma layout_integer_back width i fallback : 0 <= width < 2 ^ 31 →
  layout_integer (print_i64 width) (narrowest i) 2000 (default 0 (fallback !! i)) = width_back fallback i width.
Proof.
  intros Hw. unfold width_back.
  destruct ((narrowest i <=? width) && (width <=? 2000)) eqn:E.
  - bool_hyps. rewrite layout_integer_print by lia. done.
  - unfold layout_integer.
    pose proof (parse_i64_range_outside width (narrowest i) 2000 0 ltac:(lia)) as Ho.
    destruct (lsm_parse_i64_range _ _ _ _ _) as [ok parsed]. simpl in Ho. rewrite Ho; [done|].
    apply andb_false_iff in E as [E|E]; bool_hyps; lia.
Qed.

Lemma column_step saved st i spec (target := columns_back st saved) : columns_saved saved → specs !! i = Some spec → (length specs < 1000)%nat →
  length (co_visible st) = length specs → length (co_widths st) = length specs → length (co_order st) = length specs →
  foldl (λ st entry, apply_column specs narrowest entry.1 entry.2 st)
    (Build_Columns (take i (co_visible target) ++ drop i (co_visible st))
       (take i (co_widths target) ++ drop i (co_widths st)) (take i (co_order target) ++ drop i (co_order st)))
    (column_entries saved i spec) =
  Build_Columns (take (S i) (co_visible target) ++ drop (S i) (co_visible st))
    (take (S i) (co_widths target) ++ drop (S i) (co_widths st)) (take (S i) (co_order target) ++ drop (S i) (co_order st)).
Proof.
  intros [Hv Hw Ho Hwidths Horders] Hi Hsmall Hv' Hw' Ho'. pose proof (lookup_lt_Some _ _ _ Hi) as Hlt.
  destruct (located i spec Hi) as (Fv & Fw & Fo & _).
  destruct (lookup_lt_is_Some_2 (co_visible saved) i) as [v Tv]; [lia|].
  destruct (lookup_lt_is_Some_2 (co_widths saved) i) as [w Tw]; [lia|].
  destruct (lookup_lt_is_Some_2 (co_order saved) i) as [o To]; [lia|].
  pose proof (Forall_lookup_1 _ _ _ _ Hwidths Tw) as Rw. pose proof (Forall_lookup_1 _ _ _ _ Horders To) as Ro.
  cbn beta in Rw, Ro.
  assert (Hwt : co_widths target !! i = Some (width_back (co_widths st) i w))
    by (unfold target, columns_back; cbn [co_widths]; by rewrite list_lookup_imap, Tw).
  assert (Hwl : length (co_widths target) = length specs)
    by (unfold target, columns_back; cbn [co_widths]; by rewrite length_imap).
  assert (Hcur : (take i (co_widths target) ++ drop i (co_widths st)) !! i = co_widths st !! i).
  { rewrite lookup_app_r by (rewrite length_take; lia). rewrite length_take_le, Nat.sub_diag by lia.
    by rewrite lookup_drop, Nat.add_0_r. }
  change (co_visible target) with (co_visible saved). change (co_order target) with (co_order saved).
  unfold column_entries. rewrite Tv, Tw, To. cbn [foldl fst snd default]. unfold apply_column.
  rewrite Fv, Fw, Fo. cbn -[take drop insert layout_boolean layout_integer print_i64 flag_text target].
  rewrite Hcur. rewrite layout_boolean_flag, layout_integer_back, layout_integer_print by lia.
  by rewrite !insert_progress by (done || lia).
Qed.

Lemma fold_all_columns saved st : columns_saved saved → (length specs < 1000)%nat →
  length (co_visible st) = length specs → length (co_widths st) = length specs → length (co_order st) = length specs →
  foldl (λ st entry, apply_column specs narrowest entry.1 entry.2 st) st (all_column_entries specs saved)
  = columns_back st saved.
Proof.
  intros Hok Hsmall Hv Hw Ho. set (target := columns_back st saved).
  assert (Hprefix : ∀ k, (k ≤ length specs)%nat →
    foldl (λ st entry, apply_column specs narrowest entry.1 entry.2 st) st
      (concat (imap (column_entries saved) (take k specs))) =
    Build_Columns (take k (co_visible target) ++ drop k (co_visible st))
      (take k (co_widths target) ++ drop k (co_widths st)) (take k (co_order target) ++ drop k (co_order st))).
  { induction k as [|k IH]; intros Hk; [by destruct st|].
    destruct (lookup_lt_is_Some_2 specs k) as [spec Hspec]; [lia|].
    rewrite (take_S_r _ _ spec) by done. rewrite imap_app, concat_app, foldl_app, IH by lia.
    cbn [imap concat]. rewrite app_nil_r. rewrite length_take_le by lia. unfold compose. rewrite Nat.add_0_r.
    by apply column_step. }
  unfold all_column_entries. rewrite <- (firstn_all specs) at 1. rewrite Hprefix by done.
  destruct Hok as [Tv Tw To _ _].
  assert (length (co_widths target) = length specs) by (unfold target; cbn; by rewrite length_imap).
  change (co_visible target) with (co_visible saved). change (co_order target) with (co_order saved).
  rewrite (take_ge (co_visible saved)), (take_ge (co_widths target)), (take_ge (co_order saved)) by lia.
  by rewrite !drop_ge, !app_nil_r by lia.
Qed.

Lemma column_entry_keys target : (all_column_entries specs target).*1 = concat (spec_keys <$> specs).
Proof.
  unfold all_column_entries.
  assert (Hgen : ∀ l k, (concat (imap (λ i, column_entries target (k + i)) l)).*1 = concat (spec_keys <$> l)).
  { induction l as [|spec l IH]; intros k; [done|]. cbn [imap concat fmap list_fmap]. rewrite fmap_app. f_equal.
    erewrite imap_ext; [apply (IH (S k))|]. intros i x _. unfold compose. by rewrite Nat.add_succ_r. }
  apply (Hgen specs 0%nat).
Qed.

Lemma all_columns_ok saved : columns_saved saved → Forall entry_ok (all_column_entries specs saved).
Proof.
  intros [Hv Hw Ho Hwidths Horders]. unfold all_column_entries. apply Forall_concat. apply Forall_lookup.
  intros i entries Hi. rewrite list_lookup_imap in Hi. apply fmap_Some in Hi as (spec & Hspec & ->).
  destruct (located i spec Hspec) as (_ & _ & _ & Hkeys). unfold column_entries.
  pose proof (lookup_lt_Some _ _ _ Hspec) as Hlt.
  destruct (lookup_lt_is_Some_2 (co_widths saved) i) as [w Tw]; [lia|].
  destruct (lookup_lt_is_Some_2 (co_order saved) i) as [o To]; [lia|].
  pose proof (Forall_lookup_1 _ _ _ _ Hwidths Tw) as Rw. pose proof (Forall_lookup_1 _ _ _ _ Horders To) as Ro.
  cbn beta in Rw, Ro. rewrite Tw, To. cbn [from_option]; unfold id. unfold spec_keys in Hkeys.
  rewrite !Forall_cons in Hkeys. destruct Hkeys as (Kv & Kw & Ko & _).
  repeat (apply Forall_cons; split; [split; cbn [fst snd]|]); try done; try apply flag_value_text;
    apply print_i64_value_text; lia.
Qed.

(** No entry takes the columns out of range. *)
Lemma layout_integer_ok value minimum maximum fallback :
  minimum <= fallback <= maximum → minimum <= layout_integer value minimum maximum fallback <= maximum.
Proof.
  intros Hf. unfold layout_integer. pose proof (parse_i64_range_bounds value 10 minimum maximum 0) as Hb.
  destruct (lsm_parse_i64_range _ _ _ _ _) as [[] parsed]; auto.
Qed.

Lemma apply_column_ok key value c : columns_ok c → columns_ok (apply_column specs narrowest key value c).
Proof.
  intros Hok. pose proof Hok as [Hv Hw Ho Hwidths Horders]. unfold apply_column.
  destruct (find_column specs key 0) as [[i []]|]; [| | |done]; split; simpl; rewrite ?length_insert; try done.
  - intros j width Hj. apply list_lookup_insert_Some in Hj as [(-> & <- & Hlt)|[_ Hj]]; [|by apply Hwidths].
    destruct (lookup_lt_is_Some_2 (co_widths c) j) as [w Tw]; [lia|]. rewrite Tw. cbn [from_option]; unfold id. apply layout_integer_ok. by apply Hwidths.
  - apply Forall_lookup. intros j p Hj.
    apply list_lookup_insert_Some in Hj as [(-> & <- & Hlt)|[_ Hj]]; [|by apply (Forall_lookup_1 _ _ _ _ Horders Hj)].
    destruct (lookup_lt_is_Some_2 (co_order c) j) as [o To]; [lia|]. rewrite To. cbn [from_option]; unfold id.
    pose proof (Forall_lookup_1 _ _ _ _ Horders To) as Ro. cbn beta in Ro.
    pose proof (layout_integer_ok value 0 (Z.of_nat (length specs) - 1) o). lia.
Qed.
End fold_columns.

(** ** The technical process table *)

Section details_theorems.
Context `{NumberLaws, ConfigLaws, ColumnViewLaws}.

Record details_ok (t : DetailsTable) : Prop := {
  ok_scope : PROCESS_SCOPE_ALL <= dt_scope t <= PROCESS_SCOPE_MINE;
  ok_details_columns : columns_ok lsm_details_column_specs details_narrowest
    (Build_Columns (dt_visible t) (dt_fixed t) (layout_identity_order PROC_N_COLUMNS));
  ok_name : dt_visible t !! PROC_COL_NAME = Some true;
  ok_details_view : dt_view t ≡ₚ seq 0 PROC_N_COLUMNS;
  ok_details_sort : ∀ column descending, dt_sort t = Some (column, descending) → 0 <= column < Z.of_nat PROC_N_COLUMNS;
}.

(** A table as the writer may find it: nothing is asked of the fixed widths. *)
Record details_saved (t : DetailsTable) : Prop := {
  ds_scope : PROCESS_SCOPE_ALL <= dt_scope t <= PROCESS_SCOPE_MINE;
  ds_columns : columns_saved lsm_details_column_specs
    (Build_Columns (dt_visible t) (dt_allocated t) (layout_identity_order PROC_N_COLUMNS));
  ds_name : dt_visible t !! PROC_COL_NAME = Some true;
  ds_view : dt_view t ≡ₚ seq 0 PROC_N_COLUMNS;
  ds_sort : ∀ column descending, dt_sort t = Some (column, descending) → 0 <= column < Z.of_nat PROC_N_COLUMNS;
}.

Definition layout_keys : list string :=
  ["layout_version"; "tree"; "scope"; "heatmap"; "sort_column"; "sort_order"]%string.

Lemma layout_column_key key value f : existsb (strcmp_eq key) layout_keys = false →
  apply_layout key value f =
  f <| lf_columns := apply_column lsm_details_column_specs details_narrowest key value (lf_columns f) |>.
Proof.
  unfold layout_keys, apply_layout. cbn [existsb]. rewrite !orb_false_iff.
  by intros (-> & -> & -> & -> & -> & -> & _).
Qed.

Lemma layout_columns entries f :
  Forall (λ key, existsb (strcmp_eq key) layout_keys = false) entries.*1 →
  foldl (λ f entry, apply_layout entry.1 entry.2 f) f entries =
  f <| lf_columns := foldl (λ st entry, apply_column lsm_details_column_specs details_narrowest entry.1 entry.2 st)
                           (lf_columns f) entries |>.
Proof.
  revert f. induction entries as [|[key value] entries IH]; intros f Hk; [by destruct f|].
  cbn [fmap list_fmap fst] in Hk. apply Forall_cons in Hk as [Hkey Hk]. cbn [foldl fst snd].
  rewrite layout_column_key by done. rewrite IH by done. by destruct f.
Qed.

Lemma details_keys_distinct :
  Forall (λ key, existsb (strcmp_eq key) layout_keys = false) (concat (spec_keys <$> lsm_details_column_specs)).
Proof.
  apply List.Forall_forall. intros key Hk. apply negb_true_iff. revert key Hk. apply List.forallb_forall. by vm_compute.
Qed.

Lemma shown_columns_saved specs visible widths view :
  columns_saved specs (Build_Columns visible widths (layout_identity_order (length specs))) →
  view ≡ₚ seq 0 (length specs) →
  columns_saved specs (Build_Columns visible widths (shown_order (length specs) view)).
Proof.
  intros [Hv Hw _ Hwidths _] Hview. destruct (shown_order_spec _ _ Hview) as [Hl _].
  pose proof (shown_is_permutation _ _ Hview) as Hp. apply permutation_from_spec in Hp as [_ Hp].
  split; try done. eapply Forall_impl; [exact Hp|]. by intros p [? _].
Qed.

(** The two lines of the sort column. *)
Lemma layout_sort sort f : lf_sort_column f = -1 → lf_descending f = false →
  (∀ column descending, sort = Some (column, descending) → 0 <= column < Z.of_nat PROC_N_COLUMNS) →
  foldl (λ f entry, apply_layout entry.1 entry.2 f) f (sort_entries sort) =
  match sort with
  | Some (column, descending) => f <| lf_sort_column := column |> <| lf_descending := descending |>
  | None => f
  end.
Proof.
  intros Hs Hd Hrange. destruct sort as [[column descending]|]; [|done].
  specialize (Hrange column descending eq_refl). change (Z.of_nat PROC_N_COLUMNS) with 36 in Hrange.
  unfold sort_entries, apply_layout. destruct descending; cbn [foldl fst snd]; literal_keys; change (Z.of_nat PROC_N_COLUMNS) with 36;
    rewrite layout_integer_print by lia; by destruct f.
Qed.

Lemma migrate_current f : lf_version f = LSM_DETAILS_LAYOUT_VERSION →
  layout_order_is_permutation PROC_N_COLUMNS (co_order (lf_columns f)) = true → migrate_layout f = f.
Proof. intros Hv Hp. unfold migrate_layout. rewrite Hv. simpl. by rewrite Hp. Qed.

Lemma layout_head t f :
  PROCESS_SCOPE_ALL <= dt_scope t <= PROCESS_SCOPE_MINE →
  foldl (λ f entry, apply_layout entry.1 entry.2 f) f
    [("layout_version", print_i64 LSM_DETAILS_LAYOUT_VERSION); ("tree", flag_text (dt_tree t));
     ("scope", print_i64 (dt_scope t)); ("heatmap", flag_text (dt_heatmap t))]%string =
  Build_LayoutFile LSM_DETAILS_LAYOUT_VERSION (dt_tree t) (dt_scope t) (dt_heatmap t) (lf_columns f)
    (lf_sort_column f) (lf_descending f).
Proof.
  intros Hs.
  repeat (eapply entry_step; [unfold apply_layout; literal_keys;
    rewrite ?layout_boolean_flag, ?layout_integer_print
      by (unfold INT_MAX, PROCESS_SCOPE_ALL, PROCESS_SCOPE_MINE, LSM_DETAILS_LAYOUT_VERSION in *; lia);
    reflexivity|]).
  by destruct f.
Qed.

Lemma head_entries_ok t : PROCESS_SCOPE_ALL <= dt_scope t → Forall entry_ok
    [("layout_version", print_i64 LSM_DETAILS_LAYOUT_VERSION); ("tree", flag_text (dt_tree t));
     ("scope", print_i64 (dt_scope t)); ("heatmap", flag_text (dt_heatmap t))]%string.
Proof.
  intros Hs. repeat (apply Forall_cons; split; [split; cbn [fst snd]|]); try done; try apply flag_value_text;
    apply print_i64_value_text; done.
Qed.

Lemma sort_entries_ok sort :
  (∀ column descending, sort = Some (column, descending) → 0 <= column) → Forall entry_ok (sort_entries sort).
Proof.
  intros Hs. destruct sort as [[column descending]|]; [|by apply Forall_nil_2]. specialize (Hs _ _ eq_refl).
  repeat (apply Forall_cons; split; [split; cbn [fst snd]|]); try done; [by apply print_i64_value_text|by destruct descending].
Qed.

Lemma details_default_width i : default 0 (co_widths (default_columns lsm_details_column_specs) !! i) = details_narrowest i.
Proof. unfold details_narrowest. cbn [default_columns co_widths]. by rewrite list_lookup_fmap. Qed.

(** (C20) The process table comes back.  Whatever widths GTK had allocated when it
    was saved, a table read into a freshly built one is shown again with its tree
    mode, scope and highlighting, every column's visibility, the sort column and its
    direction, and the columns in the order the user dragged them to - whatever
    order the fresh table has them in.  A column gets back the width it was
    allocated when that is between its minimum and 2000 pixels; otherwise, and so
    for every column that was not shown while the program ran, it gets its
    minimum width, whatever fixed width it had before. *)
Theorem details_layout_round_trip t before :
  details_saved t → dt_view before ≡ₚ seq 0 PROC_N_COLUMNS → dt_sort before = None →
  let t' := lsm_details_layout_load (Some (lsm_details_save_layout t)) before in
  dt_tree t' = dt_tree t ∧ dt_scope t' = dt_scope t ∧ dt_heatmap t' = dt_heatmap t
  ∧ dt_visible t' = dt_visible t ∧ dt_view t' = dt_view t ∧ dt_sort t' = dt_sort t
  ∧ length (dt_fixed t') = PROC_N_COLUMNS
  ∧ ∀ i width, dt_allocated t !! i = Some width →
      dt_fixed t' !! i = Some (if (details_narrowest i <=? width) && (width <=? 2000) then width
                               else details_narrowest i).
Proof.
  intros [Hscope Hcolumns Hname Hview Hsort] Hbefore Hnone t'.
  assert (Hshown : columns_saved lsm_details_column_specs
    (Build_Columns (dt_visible t) (dt_allocated t) (shown_order PROC_N_COLUMNS (dt_view t))))
    by by apply (shown_columns_saved lsm_details_column_specs).
  assert (Et : t' = {| dt_tree := dt_tree t; dt_scope := dt_scope t; dt_heatmap := dt_heatmap t;
    dt_visible := dt_visible t;
    dt_fixed := imap (width_back details_narrowest (co_widths (default_columns lsm_details_column_specs)))
                  (dt_allocated t);
    dt_allocated := dt_allocated before; dt_view := dt_view t; dt_sort := dt_sort t |}).
  2:{ rewrite Et. split_and!; try done; cbn [dt_fixed].
      - rewrite length_imap. apply Hcolumns.
      - intros i width Hi. rewrite list_lookup_imap, Hi. cbn [fmap option_fmap option_map].
        f_equal. unfold width_back. destruct (_ && _); [done|]. apply details_default_width. }
  subst t'. unfold lsm_details_layout_load, lsm_details_save_layout. rewrite config_fold_entries.
  2:{ apply Forall_app; split; [apply head_entries_ok; lia|]. apply Forall_app; split.
      - eapply all_columns_ok; [apply details_located|exact Hshown].
      - apply sort_entries_ok. intros column descending E. by apply Hsort in E as [? _]. }
  rewrite !foldl_app, layout_head by done. rewrite (layout_columns (all_column_entries _ _)).
  2:{ rewrite column_entry_keys. apply details_keys_distinct. }
  rewrite layout_sort by done. cbn [lf_columns default_layout].
  rewrite (fold_all_columns lsm_details_column_specs details_narrowest details_located)
    by (exact Hshown || reflexivity || (apply Nat.ltb_lt; reflexivity)).
  unfold columns_back. cbn [co_visible co_widths co_order].
  set (widths := imap _ (dt_allocated t)). clearbody widths.
  rewrite migrate_current; [|by destruct (dt_sort t) as [[]|]|].
  2:{ destruct (dt_sort t) as [[column descending]|]; cbn; by apply shown_is_permutation. }
  destruct (dt_sort t) as [[column descending]|].
  - specialize (Hsort _ _ eq_refl). cbn -[place_columns shown_order Z.leb]. rewrite place_columns_shown by done.
    rewrite (proj2 (Z.leb_le 0 column)) by lia. by rewrite list_insert_id.
  - cbn -[place_columns shown_order]. rewrite place_columns_shown by done. by rewrite list_insert_id, Hnone.
Qed.
End details_theorems.

(** ** Whatever the file holds *)

Section details_validity.
Context `{NumberLaws, ConfigLaws, ColumnViewLaws}.

Record layout_ok (f : LayoutFile) : Prop := {
  lo_scope : PROCESS_SCOPE_ALL <= lf_scope f <= PROCESS_SCOPE_MINE;
  lo_columns : columns_ok lsm_details_column_specs details_narrowest (lf_columns f);
  lo_sort : -1 <= lf_sort_column f < Z.of_nat PROC_N_COLUMNS;
}.

Lemma default_layout_ok : layout_ok default_layout.
Proof.
  split; simpl; [unfold PROCESS_SCOPE_ALL, PROCESS_SCOPE_MINE; lia| |unfold PROC_N_COLUMNS; lia].
  split; [done..| |].
  - intros i width Hi.
    do 36 (destruct i as [|i]; [injection Hi as <-; by vm_compute|]). done.
  - apply List.Forall_forall. intros p Hp.
    assert (Hall : forallb (λ p, (0 <=? p) && (p <? 36)) (layout_identity_order 36) = true) by by vm_compute.
    rewrite List.forallb_forall in Hall. specialize (Hall p Hp). bool_hyps. by split.
Qed.

Lemma apply_layout_ok key value f : layout_ok f → layout_ok (apply_layout key value f).
Proof.
  intros [Hs Hc Ho]. unfold apply_layout.
  pose proof (layout_integer_ok value PROCESS_SCOPE_ALL PROCESS_SCOPE_MINE (lf_scope f) Hs).
  assert (-1 <= layout_integer value 0 (Z.of_nat PROC_N_COLUMNS - 1) (lf_sort_column f) < Z.of_nat PROC_N_COLUMNS).
  { unfold layout_integer. pose proof (parse_i64_range_bounds value 10 0 (Z.of_nat PROC_N_COLUMNS - 1) 0) as Hb.
    destruct (lsm_parse_i64_range _ _ _ _ _) as [[] parsed]; [specialize (Hb eq_refl); simpl in Hb; lia|done]. }
  do 5 (match goal with |- layout_ok (if ?b then _ else _) => destruct b end; [by split|]).
  destruct (strcmp_eq key "sort_order").
  - repeat case_match; by split.
  - split; try done. simpl. apply apply_column_ok; [done..|]. exact Hc.
Qed.

(** *** Migration *)

Lemma identity_is_permutation : layout_order_is_permutation PROC_N_COLUMNS (layout_identity_order PROC_N_COLUMNS) = true.
Proof. by vm_compute. Qed.

Lemma default_view : shown_order PROC_N_COLUMNS (seq 0 PROC_N_COLUMNS) = layout_identity_order PROC_N_COLUMNS.
Proof. by vm_compute. Qed.

(** An older file keeps its widths and, from version 2, its visible columns. *)
Lemma migrate_old f : lf_version f < LSM_DETAILS_LAYOUT_VERSION →
  migrate_layout f =
  f <| lf_sort_column := -1 |>
    <| lf_columns := Build_Columns
         (if lf_version f <? 2 then cs_default_visible <$> lsm_details_column_specs else co_visible (lf_columns f))
         (co_widths (lf_columns f)) (layout_identity_order PROC_N_COLUMNS) |>.
Proof.
  intros Hv. destruct f as [version tree scope heatmap [visible widths order] sort descending].
  unfold migrate_layout, LSM_DETAILS_LAYOUT_VERSION, reset_order in *. cbn [lf_version] in *.
  rewrite (proj2 (Z.ltb_lt version 5)) by lia.
  destruct (Z.ltb_spec version 2), (Z.ltb_spec version 3), (Z.ltb_spec version 4); try lia;
    cbn -[layout_order_is_permutation layout_identity_order PROC_N_COLUMNS];
    by rewrite identity_is_permutation.
Qed.

Lemma migrate_new f : LSM_DETAILS_LAYOUT_VERSION <= lf_version f →
  migrate_layout f = if layout_order_is_permutation PROC_N_COLUMNS (co_order (lf_columns f)) then f else reset_order f.
Proof.
  intros Hv. unfold migrate_layout, LSM_DETAILS_LAYOUT_VERSION in *.
  rewrite !(proj2 (Z.ltb_ge (lf_version f) _)) by lia. done.
Qed.

Lemma identity_columns_ok visible widths order :
  columns_ok lsm_details_column_specs details_narrowest (Build_Columns visible widths order) →
  columns_ok lsm_details_column_specs details_narrowest (Build_Columns visible widths (layout_identity_order PROC_N_COLUMNS)).
Proof.
  intros [Hv Hw _ Hr _]. split; try done.
  pose proof identity_is_permutation as Hp. apply permutation_from_spec in Hp as [_ Hp].
  eapply Forall_impl; [exact Hp|]. by intros p [? _].
Qed.

Lemma migrate_ok f : layout_ok f →
  layout_ok (migrate_layout f) ∧ layout_order_is_permutation PROC_N_COLUMNS (co_order (lf_columns (migrate_layout f))) = true.
Proof.
  intros [Hs Hc Ho]. destruct (lf_columns f) as [visible widths order] eqn:E.
  destruct (Z.lt_ge_cases (lf_version f) LSM_DETAILS_LAYOUT_VERSION) as [Hv|Hv].
  - rewrite migrate_old by done. split; [|apply identity_is_permutation]. split; try done.
    cbn [lf_columns]. rewrite E. eapply identity_columns_ok.
    destruct Hc as [Hcv Hcw Hco Hr Hp]. split; try done. simpl. by destruct (lf_version f <? 2).
  - rewrite migrate_new by done. destruct (layout_order_is_permutation _ _) eqn:Hp.
    + split; [|done]. split; try done. by rewrite E.
    + split; [|apply identity_is_permutation]. split; try done. unfold reset_order.
      change (columns_ok lsm_details_column_specs details_narrowest
        (Build_Columns (co_visible (lf_columns f)) (co_widths (lf_columns f)) (layout_identity_order PROC_N_COLUMNS))).
      rewrite E. by eapply identity_columns_ok.
Qed.

Lemma loaded_file_ok content : layout_ok
  match content with Some content => config_fold apply_layout content default_layout | None => default_layout end.
Proof.
  destruct content as [content|]; [|apply default_layout_ok].
  apply config_fold_invariant; [intros; by apply apply_layout_ok|apply default_layout_ok].
Qed.

(** The highlighting setting, which the preferences file holds as well, is
    whatever the layout file says, or on: the value the application had before
    plays no part. *)
Lemma heatmap_from_layout_only content before before' :
  dt_heatmap (lsm_details_layout_load content before) = dt_heatmap (lsm_details_layout_load content before') ∧
  dt_heatmap (lsm_details_layout_load None before) = true.
Proof. split; [done|]. unfold lsm_details_layout_load. by rewrite migrate_old. Qed.

(** (C29) The process table survives its file.  Whatever the layout file holds, the
    table that is shown has a scope the program knows, every width between its
    column's minimum and 2000 pixels, a visible name column, each column exactly
    once and an existing sort column, and a file of an older version gives the
    default order and leaves the sort alone, because column numbers changed
    between versions. *)
Theorem details_layout_always_valid content before :
  dt_view before ≡ₚ seq 0 PROC_N_COLUMNS →
  (∀ column descending, dt_sort before = Some (column, descending) → 0 <= column < Z.of_nat PROC_N_COLUMNS) →
  details_ok (lsm_details_layout_load content before) ∧
  ∀ text, content = Some text →
    lf_version (config_fold apply_layout text default_layout) < LSM_DETAILS_LAYOUT_VERSION →
    dt_view (lsm_details_layout_load content before) = seq 0 PROC_N_COLUMNS ∧
    dt_sort (lsm_details_layout_load content before) = dt_sort before.
Proof.
  intros Hview Hsort. split.
  - unfold lsm_details_layout_load. set (f := match content with Some _ => _ | None => _ end).
    destruct (migrate_ok f) as [[Hs Hc Ho] Hp]; [apply loaded_file_ok|]. pose proof Hc as [Hcv Hcw Hco Hr Hrange].
    split; cbn [dt_scope dt_visible dt_fixed dt_view dt_sort].
    + done.
    + destruct (lf_columns (migrate_layout f)) as [visible widths order]. eapply identity_columns_ok.
      split; try done. cbn [co_visible]. by rewrite length_insert.
    + apply list_lookup_insert_eq. rewrite Hcv. vm_compute. lia.
    + rewrite place_columns_permutation; [done|]. by rewrite Hview, Hco.
    + intros column descending. destruct (0 <=? _) eqn:E; [|apply Hsort]. intros [= <- <-]. bool_hyps. lia.
  - intros text -> Hold. unfold lsm_details_layout_load. rewrite migrate_old by done.
    cbn [dt_view dt_sort lf_columns lf_sort_column co_order Z.leb]. split; [|done].
    rewrite <- default_view. by apply place_columns_shown.
Qed.
End details_validity.

(** ** The file-system table *)

Section filesystem_theorems.
Context `{NumberLaws, ConfigLaws, ColumnViewLaws}.

Record filesystem_ok (t : FilesystemTable) : Prop := {
  fo_columns : columns_saved filesystem_column_specs
    (Build_Columns (ft_visible t) (ft_allocated t) (layout_identity_order FILESYSTEM_COLUMNS));
  fo_view : ft_view t ≡ₚ seq 0 FILESYSTEM_COLUMNS;
  fo_sort : ∀ column descending, ft_sort t = Some (column, descending) → 0 <= column < Z.of_nat FILESYSTEM_COLUMNS;
}.

Lemma filesystem_columns entries f :
  Forall (λ key, existsb (strcmp_eq key) ["sort_column"; "sort_order"]%string = false) entries.*1 →
  foldl (λ f entry, apply_filesystem entry.1 entry.2 f) f entries =
  f <| ff_columns := foldl (λ st entry, apply_column filesystem_column_specs (λ _, 40) entry.1 entry.2 st)
                           (ff_columns f) entries |>.
Proof.
  revert f. induction entries as [|[key value] entries IH]; intros f Hk; [by destruct f|].
  cbn [fmap list_fmap fst existsb] in Hk. apply Forall_cons in Hk as [Hkey Hk]. cbn [foldl fst snd existsb] in *.
  rewrite !orb_false_iff in Hkey. destruct Hkey as (Hcolumn & Horder & _).
  rewrite IH by done. unfold apply_filesystem. rewrite Hcolumn, Horder. by destruct f.
Qed.

Lemma filesystem_keys_distinct :
  Forall (λ key, existsb (strcmp_eq key) ["sort_column"; "sort_order"]%string = false)
    (concat (spec_keys <$> filesystem_column_specs)).
Proof.
  apply List.Forall_forall. intros key Hk. apply negb_true_iff. revert key Hk. apply List.forallb_forall. by vm_compute.
Qed.

Lemma filesystem_sort sort f : ff_sort_column f = -1 → ff_descending f = false →
  (∀ column descending, sort = Some (column, descending) → 0 <= column < Z.of_nat FILESYSTEM_COLUMNS) →
  foldl (λ f entry, apply_filesystem entry.1 entry.2 f) f (sort_entries sort) =
  match sort with
  | Some (column, descending) => f <| ff_sort_column := column |> <| ff_descending := descending |>
  | None => f
  end.
Proof.
  intros Hs Hd Hrange. destruct sort as [[column descending]|]; [|done].
  specialize (Hrange column descending eq_refl). change (Z.of_nat FILESYSTEM_COLUMNS) with 8 in Hrange.
  unfold sort_entries, apply_filesystem. destruct descending; cbn [foldl fst snd]; literal_keys;
    change (Z.of_nat FILESYSTEM_COLUMNS) with 8;
    rewrite layout_integer_print by lia; by destruct f.
Qed.

(** The file-system table comes back as it was saved, a width of less than 40
    pixels or more than 2000 as its column's minimum, and whatever its file holds each
    of its columns is still shown exactly once - although, unlike the process table's,
    its order is not checked to be a permutation. *)
Theorem filesystem_layout_round_trip t before content :
  filesystem_ok t → ft_view before ≡ₚ seq 0 FILESYSTEM_COLUMNS → ft_sort before = None →
  filesystem_columns_load (Some (filesystem_columns_save t)) before
  = {| ft_visible := ft_visible t;
       ft_fixed := imap (width_back (λ _, 40) (cs_minimum_width <$> filesystem_column_specs)) (ft_allocated t);
       ft_allocated := ft_allocated before; ft_view := ft_view t; ft_sort := ft_sort t |} ∧
  ft_view (filesystem_columns_load content before) ≡ₚ seq 0 FILESYSTEM_COLUMNS.
Proof.
  intros [Hcolumns Hview Hsort] Hbefore Hnone. split.
  - assert (Hshown : columns_saved filesystem_column_specs
      (Build_Columns (ft_visible t) (ft_allocated t) (shown_order FILESYSTEM_COLUMNS (ft_view t))))
      by by apply (shown_columns_saved filesystem_column_specs).
    unfold filesystem_columns_load, filesystem_columns_save. rewrite config_fold_entries.
    2:{ apply Forall_app; split; [by apply Forall_singleton|]. apply Forall_app; split.
        - eapply all_columns_ok; [apply filesystem_located|exact Hshown].
        - apply sort_entries_ok. intros column descending E. by apply Hsort in E as [? _]. }
    rewrite !foldl_app. rewrite (filesystem_columns [_]) by (apply Forall_singleton; reflexivity).
    rewrite (filesystem_columns (all_column_entries _ _)).
    2:{ rewrite column_entry_keys. apply filesystem_keys_distinct. }
    rewrite filesystem_sort by done. cbn [ff_columns].
    rewrite (fold_all_columns filesystem_column_specs (λ _, 40) filesystem_located)
      by (exact Hshown || reflexivity || (apply Nat.ltb_lt; reflexivity)).
    unfold columns_back. cbn [co_visible co_widths co_order].
    match goal with |- context [imap (width_back ?n ?f) (ft_allocated t)] =>
      change (imap (width_back n f) (ft_allocated t))
        with (imap (width_back (λ _, 40) (cs_minimum_width <$> filesystem_column_specs)) (ft_allocated t)) end.
    set (widths := imap _ (ft_allocated t)). clearbody widths.
    destruct (ft_sort t) as [[column descending]|].
    + specialize (Hsort _ _ eq_refl). cbn -[place_columns shown_order Z.leb]. rewrite place_columns_shown by done.
      by rewrite (proj2 (Z.leb_le 0 column)) by lia.
    + cbn -[place_columns shown_order]. by rewrite place_columns_shown, Hnone.
  - unfold filesystem_columns_load. cbn [ft_view].
    set (f := match content with Some _ => _ | None => _ end).
    assert (Hlen : length (co_order (ff_columns f)) = FILESYSTEM_COLUMNS).
    { unfold f. destruct content as [text|]; [|done]. apply config_fold_invariant; [|done].
      intros key value g Hg. unfold apply_filesystem, apply_column. repeat case_match; simpl; by rewrite ?length_insert. }
    rewrite place_columns_permutation; [done|]. by rewrite Hlen.
Qed.
End filesystem_theorems.

(** ** A reference view, and a table with moved columns *)
From S2P Require Import CommonReference.

Fixpoint insert_after (base column : nat) (view : list nat) : list nat :=
  match view with
  | [] => []
  | c :: view => if (c =? base)%nat then c :: column :: view else c :: insert_after base column view
  end.

#[export] Instance ref_view : ColumnView := {|
  gtk_tree_view_move_column_after view column base :=
    match base with
    | None => column :: without column view
    | Some base => insert_after base column (without column view)
    end;
|}.

#[export] Instance ref_view_laws : ColumnViewLaws.
Proof.
  split; [done|]. intros view column base before after Hd Hin Hne Hsplit. simpl. rewrite Hsplit.
  assert (Hd' : NoDup (before ++ base :: after)) by (rewrite <- Hsplit; by apply NoDup_filter).
  apply NoDup_app in Hd' as (_ & Hdisj & _). clear Hsplit.
  induction before as [|c before IH]; simpl; [by rewrite Nat.eqb_refl|].
  destruct (Nat.eqb_spec c base) as [->|_]; [exfalso; apply (Hdisj base); left|].
  f_equal. apply IH. intros x Hx. apply Hdisj. by right.
Qed.

(** The command first, the rest in the default order, sorted by CPU; the last
    columns were not shown. *)
Definition sample_view : list nat := 35%nat :: seq 0 35.
Definition sample_table : DetailsTable :=
  {| dt_tree := false; dt_scope := 2; dt_heatmap := false; dt_visible := replicate 30 true ++ replicate 6 false;
     dt_fixed := replicate 36 400; dt_allocated := replicate 30 400 ++ replicate 6 0; dt_view := sample_view;
     dt_sort := Some (5, true) |}.
Definition fresh_table : DetailsTable :=
  {| dt_tree := true; dt_scope := 0; dt_heatmap := true; dt_visible := cs_default_visible <$> lsm_details_column_specs;
     dt_fixed := cs_minimum_width <$> lsm_details_column_specs; dt_allocated := replicate 36 0;
     dt_view := seq 0 36; dt_sort := None |}.

Lemma sample_view_permutation : sample_view ≡ₚ seq 0 36.
Proof. apply (Permutation_cons_append (seq 0 35) 35%nat). Qed.

Lemma sample_table_saved : details_saved sample_table.
Proof.
  split; simpl; [unfold PROCESS_SCOPE_ALL, PROCESS_SCOPE_MINE; lia| |done|apply sample_view_permutation|].
  - split; [done..| |apply (ok_orders _ _ _ (lo_columns _ default_layout_ok))].
    apply List.Forall_forall. intros w Hw.
    assert (Hall : forallb (λ w, (0 <=? w) && (w <? 2 ^ 31)) (replicate 30 400 ++ replicate 6 0) = true) by by vm_compute.
    rewrite List.forallb_forall in Hall. specialize (Hall w Hw). bool_hyps. by split.
  - intros column descending [= <- <-]. unfold PROC_N_COLUMNS. lia.
Qed.

Lemma details_layout_round_trip_witness :
  let t' := lsm_details_layout_load (Some (lsm_details_save_layout sample_table)) fresh_table in
  dt_view t' = sample_view ∧ dt_sort t' = Some (5, true) ∧ dt_fixed t' !! 5%nat = Some 400
  ∧ dt_fixed t' !! 35%nat = Some 280.
Proof.
  destruct (details_layout_round_trip sample_table fresh_table sample_table_saved)
    as (_ & _ & _ & _ & Hview & Hsort & _ & Hwidth); [reflexivity..|].
  split; [exact Hview|]. split; [exact Hsort|].
  split; [exact (Hwidth 5%nat 400 eq_refl)|exact (Hwidth 35%nat 0 eq_refl)].
Defined.

Lemma details_layout_always_valid_witness :
  details_ok (lsm_details_layout_load (Some "layout_version=5
width.cpu=-7
order.pid=0
sort_column=99") fresh_table).
Proof.
  refine (proj1 (details_layout_always_valid (Some "layout_version=5
width.cpu=-7
order.pid=0
sort_column=99"%string) fresh_table _ _)); [reflexivity|intros column descending; discriminate].
Defined.

Definition sample_filesystems : FilesystemTable :=
  {| ft_visible := replicate 8 true; ft_fixed := replicate 8 100; ft_allocated := [140; 0; 100; 100; 100; 100; 100; 3000];
     ft_view := [7; 0; 1; 2; 3; 4; 5; 6]%nat;
     ft_sort := Some (7, true) |}.
Definition fresh_filesystems : FilesystemTable :=
  {| ft_visible := cs_default_visible <$> filesystem_column_specs;
     ft_fixed := cs_minimum_width <$> filesystem_column_specs; ft_allocated := replicate 8 0;
     ft_view := seq 0 8; ft_sort := None |}.

Lemma sample_filesystems_ok : filesystem_ok sample_filesystems.
Proof.
  split; simpl.
  - split; [done..| |]; repeat constructor; simpl; lia.
  - apply (Permutation_cons_append (seq 0 7) 7%nat).
  - intros column descending [= <- <-]. unfold FILESYSTEM_COLUMNS. lia.
Qed.

Lemma filesystem_layout_round_trip_witness :
  let t' := filesystem_columns_load (Some (filesystem_columns_save sample_filesystems)) fresh_filesystems in
  ft_view t' = [7; 0; 1; 2; 3; 4; 5; 6]%nat ∧ ft_fixed t' = [140; 180; 100; 100; 100; 100; 100; 70].
Proof.
  cbv zeta. rewrite (proj1 (filesystem_layout_round_trip sample_filesystems fresh_filesystems None sample_filesystems_ok
    ltac:(reflexivity) ltac:(reflexivity))).
  split; reflexivity.
Defined.
