(* ===== verification/Hidpp.v ===== *)
(** * Hidpp: Logitech batteries over HID++

    Models [src/src/logitech_hidpp_protocol.c] and [src/src/logitech_hidpp.c].

    The first half is the wire format: requests, the matching of replies on a
    node several clients share, the decoding of the two battery features, and
    [query_device], which puts them together.  What arrives on the device before
    the deadline is an argument.

    The second half is the worker: one thread that queries the due devices, the
    owner that replaces the device list, starts and stops the thread, and reads
    the last results.  A step of the relation is one critical section of the
    mutex; the query between two of them is its own step. *)
From S2P Require Import Prelude Double CStrings Common.
Local Open Scope Z_scope.

(** ** Readings *)

(** src: logitech_hidpp.h:21-29 LsmHidppBatteryReading *)
Record LsmHidppBatteryReading := {
  hr_percent : double;
  hr_next_percent : Z;
  hr_status : string;
  hr_level : string;
  hr_source : string;
  hr_exact_percent : bool;
  hr_next_percent_available : bool;
}.
#[export] Instance eta_LsmHidppBatteryReading : Eta LsmHidppBatteryReading := λ x,
  Build_LsmHidppBatteryReading (hr_percent x) (hr_next_percent x) (hr_status x) (hr_level x) (hr_source x)
    (hr_exact_percent x) (hr_next_percent_available x).

(** src: logitech_hidpp_protocol.c lsm_logitech_hidpp_reset_reading *)
Definition lsm_logitech_hidpp_reset_reading : LsmHidppBatteryReading :=
  Build_LsmHidppBatteryReading NAN (-1) EmptyString EmptyString EmptyString false false.

Abbreviation Bytes := (list Z).

Section protocol.
Context `{TextOps}.

(** src: logitech_hidpp_protocol.c:36-41 set_level_from_percent *)
Definition level_name (percent : double) : string :=
  if dge percent (double_of_Z 100) then "Full"
  else if dge percent (double_of_Z 81) then "High"
  else if dge percent (double_of_Z 31) then "Normal"
  else if dge percent (double_of_Z 11) then "Low"
  else if dge percent d0 then "Critical"
  else "Unknown".

(** src: logitech_hidpp_protocol.c set_level_from_percent *)
Definition set_level_from_percent (percent : double) (size : nat) : string :=
  lsm_copy_string size (level_name percent).

(** src: logitech_hidpp_protocol.c set_battery_status *)
Definition set_battery_status (status : Z) (size : nat) : string :=
  let value := if status =? 0 then "Discharging"
               else if (status =? 1) || (status =? 2) then "Charging"
               else if status =? 3 then "Full"
               else if status =? 4 then "Charging slowly"
               else if status =? 5 then "Invalid battery"
               else if status =? 6 then "Thermal error"
               else if status =? 7 then "Charging error"
               else "Unknown" in
  lsm_copy_string size value.

(** src: logitech_hidpp_protocol.c set_unified_battery_status *)
Definition set_unified_battery_status (status : Z) (size : nat) : string :=
  let value := if status =? 0 then "Charging"
               else if status =? 1 then "Full"
               else if status =? 2 then "Discharging"
               else if status =? 7 then "Charging error"
               else "Unknown" in
  lsm_copy_string size value.

(** Whether it is a payload, and the reading. *)
(** src: logitech_hidpp_protocol.c lsm_logitech_hidpp_parse_1000 *)
Definition lsm_logitech_hidpp_parse_1000 (payload : Bytes) (reading : LsmHidppBatteryReading)
    : bool * LsmHidppBatteryReading :=
  match payload with
  | percent :: next_percent :: status :: _ =>
      let reading := lsm_logitech_hidpp_reset_reading <| hr_status := set_battery_status status 32 |> in
      let reading :=
        if (0 <? percent) && (percent <=? 100)
        then reading <| hr_percent := double_of_Z percent |> <| hr_exact_percent := true |>
        else if status =? 3 then reading <| hr_level := lsm_copy_string 32 "Full" |>
        else reading in
      let reading :=
        if (0 <? next_percent) && (next_percent <=? 100)
        then reading <| hr_next_percent := next_percent |> <| hr_next_percent_available := true |>
        else reading in
      (true, if hr_exact_percent reading
             then reading <| hr_level := set_level_from_percent (hr_percent reading) 32 |> else reading)
  | _ => (false, reading)
  end.

(** src: logitech_hidpp_protocol.c lsm_logitech_hidpp_parse_1004 *)
Definition lsm_logitech_hidpp_parse_1004 (payload : Bytes) (reading : LsmHidppBatteryReading)
    : bool * LsmHidppBatteryReading :=
  match payload with
  | state_of_charge :: level_bits :: charging_status :: _ :: _ =>
      let reading := lsm_logitech_hidpp_reset_reading
                       <| hr_status := set_unified_battery_status charging_status 32 |> in
      (true,
       if (0 <? state_of_charge) && (state_of_charge <=? 100)
       then reading <| hr_percent := double_of_Z state_of_charge |> <| hr_exact_percent := true |>
                    <| hr_level := set_level_from_percent (double_of_Z state_of_charge) 32 |>
       else if negb (Z.land level_bits 8 =? 0) then reading <| hr_level := lsm_copy_string 32 "Full" |>
       else if negb (Z.land level_bits 4 =? 0) then reading <| hr_level := lsm_copy_string 32 "Normal" |>
       else if negb (Z.land level_bits 2 =? 0) then reading <| hr_level := lsm_copy_string 32 "Low" |>
       else if negb (Z.land level_bits 1 =? 0) then reading <| hr_level := lsm_copy_string 32 "Critical" |>
       else reading)
  | _ => (false, reading)
  end.
End protocol.

(** ** Requests and replies *)

Definition LSM_HIDPP_REPORT_ID_SHORT : Z := 16.
Definition LSM_HIDPP_REPORT_ID_LONG : Z := 17.
(** src: logitech_hidpp_protocol.c:22-22 LSM_HIDPP_REPORT_SIZE_LONG *)
Definition LSM_HIDPP_REPORT_SIZE_LONG : nat := 20.
Definition LSM_HIDPP_DEVICE_DIRECT : Z := 255.
Definition LSM_HIDPP_ERROR_FEATURE : Z := 255.
Definition LSM_HIDPP_SOFTWARE_ID : Z := 12.

(** The report, [None] when it does not fit. *)
(** src: logitech_hidpp_protocol.c lsm_logitech_hidpp_format_request *)
Definition lsm_logitech_hidpp_format_request (feature_index function : Z) (parameters : Bytes)
    (report_capacity : nat) : option Bytes :=
  if (report_capacity <? LSM_HIDPP_REPORT_SIZE_LONG)%nat
     || (LSM_HIDPP_REPORT_SIZE_LONG - 4 <? length parameters)%nat then None
  else Some ([LSM_HIDPP_REPORT_ID_LONG; LSM_HIDPP_DEVICE_DIRECT; feature_index;
              Z.lor (Z.land function 240) LSM_HIDPP_SOFTWARE_ID]
             ++ parameters ++ replicate (LSM_HIDPP_REPORT_SIZE_LONG - 4 - length parameters) 0).

(** What one received report means for an outstanding request. *)
Inductive Reply := Ignored | Refused | Accepted (payload : Bytes).

Definition byte_at (bytes : Bytes) (index : nat) : Z := default 0 (bytes !! index).

(** src: logitech_hidpp.c:255-276 hidpp_request *)
Definition match_reply (feature_index : Z) (request response : Bytes) (payload_size : nat) : Reply :=
  if (length response <? 4)%nat then Ignored
  else if negb (byte_at response 0 =? LSM_HIDPP_REPORT_ID_SHORT)
          && negb (byte_at response 0 =? LSM_HIDPP_REPORT_ID_LONG) then Ignored
  else if negb (byte_at response 1 =? LSM_HIDPP_DEVICE_DIRECT) && negb (byte_at response 1 =? 0) then Ignored
  else if (byte_at response 2 =? LSM_HIDPP_ERROR_FEATURE) && (byte_at response 3 =? feature_index)
          && (6 <=? length response)%nat && (byte_at response 4 =? byte_at request 3) then Refused
  else if negb (byte_at response 2 =? feature_index) || negb (byte_at response 3 =? byte_at request 3)
  then Ignored
  else Accepted (take payload_size (drop 4 response)).

(** The reports that arrive before the deadline, a cancellation or a failure of
    the descriptor; each read delivers at most 64 bytes. *)
Fixpoint receive (feature_index : Z) (request : Bytes) (reports : list Bytes) (payload_size : nat)
    : option Bytes :=
  match reports with
  | [] => None
  | response :: reports =>
      match match_reply feature_index request (take 64 response) payload_size with
      | Ignored => receive feature_index request reports payload_size
      | Refused => None
      | Accepted payload => Some payload
      end
  end.

(** One exchange with the device: the reports already queued are drained, then
    the request is written, then these reports arrive. *)
Record Exchange := { ex_deadline_ok : bool; ex_write_ok : bool; ex_reports : list Bytes }.

(** src: logitech_hidpp.c hidpp_request *)
Definition hidpp_request (exchange : Exchange) (feature_index function : Z) (parameters : Bytes)
    (payload_size : nat) : option Bytes :=
  match lsm_logitech_hidpp_format_request feature_index function parameters LSM_HIDPP_REPORT_SIZE_LONG with
  | None => None
  | Some request =>
      if negb (ex_deadline_ok exchange) || negb (ex_write_ok exchange) then None
      else receive feature_index request (ex_reports exchange) payload_size
  end.

(** src: logitech_hidpp.c root_feature_index *)
Definition root_feature_index (exchange : Exchange) (feature : Z) : option Z :=
  match hidpp_request exchange 0 0 [Z.shiftr feature 8; Z.land feature 255] 16 with
  | Some (index :: _) => if index =? 0 then None else Some index
  | _ => None
  end.

(** src: logitech_hidpp.c:40-41 LSM_HIDPP_FEATURE_BATTERY_STATUS *)
Definition LSM_HIDPP_FEATURE_BATTERY_STATUS : Z := 4096.
Definition LSM_HIDPP_FEATURE_UNIFIED_BATTERY : Z := 4100.

(** What one query of a device meets: whether its node opens and is a Logitech
    device, and the three possible exchanges. *)
Record Query := {
  qu_open_ok : bool;
  qu_vendor : option Z;
  qu_unified_root : Exchange;
  qu_status_root : Exchange;
  qu_battery : Exchange;
}.

Section query.
Context `{TextOps}.

(** The feature as it is known afterwards, and the reading if there is one. *)
(** src: logitech_hidpp.c query_device *)
Definition query_device (query : Query) (feature_id feature_index : Z)
    : Z * Z * option LsmHidppBatteryReading :=
  if negb (qu_open_ok query) then (feature_id, feature_index, None)
  else if negb (bool_decide (qu_vendor query = Some 1133)) then (feature_id, feature_index, None)
  else
    let '(feature_id, feature_index) :=
      if feature_id =? 0 then
        match root_feature_index (qu_unified_root query) LSM_HIDPP_FEATURE_UNIFIED_BATTERY with
        | Some discovered => (LSM_HIDPP_FEATURE_UNIFIED_BATTERY, discovered)
        | None =>
            match root_feature_index (qu_status_root query) LSM_HIDPP_FEATURE_BATTERY_STATUS with
            | Some discovered => (LSM_HIDPP_FEATURE_BATTERY_STATUS, discovered)
            | None => (feature_id, feature_index)
            end
        end
      else (feature_id, feature_index) in
    let named source (result : bool * LsmHidppBatteryReading) :=
      if result.1 then Some (result.2 <| hr_source := lsm_copy_string 48 source |>) else None in
    let reading :=
      if feature_id =? LSM_HIDPP_FEATURE_UNIFIED_BATTERY then
        match hidpp_request (qu_battery query) feature_index 16 [] 16 with
        | Some response => named "Logitech HID++ 0x1004"
                             (lsm_logitech_hidpp_parse_1004 response lsm_logitech_hidpp_reset_reading)
        | None => None
        end
      else if feature_id =? LSM_HIDPP_FEATURE_BATTERY_STATUS then
        match hidpp_request (qu_battery query) feature_index 0 [] 16 with
        | Some response => named "Logitech HID++ 0x1000"
                             (lsm_logitech_hidpp_parse_1000 response lsm_logitech_hidpp_reset_reading)
        | None => None
        end
      else None in
    (feature_id, feature_index, reading).
End query.

(** ** What a reading can be *)

Definition level_text (percent : Z) : string :=
  if 100 <=? percent then "Full" else if 81 <=? percent then "High" else if 31 <=? percent then "Normal"
  else if 11 <=? percent then "Low" else "Critical".

(** An exact percentage with its level, or no percentage and a coarse level. *)
Definition reading_ok (r : LsmHidppBatteryReading) : Prop :=
  (if hr_exact_percent r
   then ∃ n, 1 <= n <= 100 ∧ hr_percent r = double_of_Z n ∧ hr_level r = level_text n
   else hr_percent r = NAN ∧ hr_level r ∈ [EmptyString; "Full"; "Normal"; "Low"; "Critical"]%string) ∧
  (if hr_next_percent_available r then 1 <= hr_next_percent r <= 100 else hr_next_percent r = -1).

Section readings.
Context `{TextLaws}.

Lemma percent_range P : (∀ n, In n (seq 1 100) → P (Z.of_nat n)) → ∀ z, 1 <= z <= 100 → P z.
Proof.
  intros Hall z Hz. rewrite <- (Z2Nat.id z) by lia. apply Hall. apply in_seq. lia.
Qed.

Lemma level_name_exact n : 1 <= n <= 100 → level_name (double_of_Z n) = level_text n.
Proof.
  revert n. apply percent_range. intros n Hn.
  assert (Hall : forallb (λ n, strcmp_eq (level_name (double_of_Z (Z.of_nat n))) (level_text (Z.of_nat n)))
                   (seq 1 100) = true) by by vm_compute.
  rewrite List.forallb_forall in Hall. apply strcmp_eq_true. by apply Hall.
Qed.

Lemma set_level_exact n : 1 <= n <= 100 → set_level_from_percent (double_of_Z n) 32 = level_text n.
Proof.
  intros Hn. unfold set_level_from_percent. rewrite level_name_exact by done. apply copy_string_fits.
  unfold level_text. repeat case_match; simpl; lia.
Qed.

Lemma parse_1000_ok payload reading0 reading :
  lsm_logitech_hidpp_parse_1000 payload reading0 = (true, reading) → reading_ok reading.
Proof.
  destruct payload as [|percent [|next [|status payload]]]; try done. unfold lsm_logitech_hidpp_parse_1000.
  intros [= <-]. unfold reading_ok.
  destruct ((0 <? percent) && (percent <=? 100)) eqn:Hp; [|destruct (status =? 3)];
    destruct ((0 <? next) && (next <=? 100)) eqn:Hn; simpl; bool_hyps; (split; [|lia || done]).
  1,2: exists percent; split; [lia|]; split; [done|]; apply set_level_exact; lia.
  all: split; [done|]; rewrite ?copy_string_fits by (simpl; lia); set_solver.
Qed.

Lemma parse_1004_ok payload reading0 reading :
  lsm_logitech_hidpp_parse_1004 payload reading0 = (true, reading) → reading_ok reading.
Proof.
  destruct payload as [|charge [|bits [|status [|voltage payload]]]]; try done.
  unfold lsm_logitech_hidpp_parse_1004. intros [= <-]. unfold reading_ok.
  destruct ((0 <? charge) && (charge <=? 100)) eqn:Hp.
  { bool_hyps. simpl. split; [|done]. exists charge. split; [lia|]. split; [done|]. apply set_level_exact. lia. }
  repeat (match goal with |- context [if negb ?b then _ else _] => destruct (negb b) end;
    [simpl; split; [|done]; split; [done|]; rewrite copy_string_fits by (simpl; lia); set_solver|]).
  simpl. split; [|done]. split; [done|set_solver].
Qed.

(** *** The device's side

    What a battery is, how the two features encode it on the wire, and what the
    user should be shown; nothing here refers to the decoder. *)

Inductive ChargeState :=
  Discharging | Charging | ChargingSlowly | ChargeComplete | InvalidBattery | ThermalError | ChargingError
  | OtherState (code : Z).

Inductive CoarseLevel := CoarseFull | CoarseNormal | CoarseLow | CoarseCritical.

(** What the device knows of its charge. *)
Inductive Capacity := Percent (n : Z) | Coarse (level : CoarseLevel) | NoCapacity.

(** The codes of the unified battery feature 0x1004. *)
Definition unified_code (state : ChargeState) (code : Z) : Prop :=
  match state with
  | Charging => code = 0
  | ChargeComplete => code = 1
  | Discharging => code = 2
  | ChargingError => code = 7
  | OtherState c => code = c ∧ (3 <= c <= 6 ∨ 8 <= c <= 255)
  | _ => False
  end.

(** The codes of the battery status feature 0x1000: recharging has two. *)
Definition status_code (state : ChargeState) (code : Z) : Prop :=
  match state with
  | Discharging => code = 0
  | Charging => code = 1 ∨ code = 2
  | ChargeComplete => code = 3
  | ChargingSlowly => code = 4
  | InvalidBattery => code = 5
  | ThermalError => code = 6
  | ChargingError => code = 7
  | OtherState c => code = c ∧ 8 <= c <= 255
  end.

(** The level bits of 0x1004, the highest of which counts. *)
Definition level_bit (level : CoarseLevel) : Z :=
  match level with CoarseFull => 8 | CoarseNormal => 4 | CoarseLow => 2 | CoarseCritical => 1 end.

Definition no_percent (charge : Z) : Prop := charge = 0 ∨ 101 <= charge <= 255.

Definition unified_capacity (capacity : Capacity) (charge bits : Z) : Prop :=
  match capacity with
  | Percent n => charge = n ∧ 1 <= n <= 100
  | Coarse level => no_percent charge ∧ level_bit level <= Z.land bits 15 < 2 * level_bit level
  | NoCapacity => no_percent charge ∧ Z.land bits 15 = 0
  end.

(** 0x1000 has no level of its own; a full battery may send no percentage. *)
Definition status_capacity (capacity : Capacity) (charge : Z) : Prop :=
  match capacity with
  | Percent n => charge = n ∧ 1 <= n <= 100
  | Coarse _ => False
  | NoCapacity => no_percent charge
  end.

Definition state_text (state : ChargeState) : string :=
  match state with
  | Discharging => "Discharging" | Charging => "Charging" | ChargingSlowly => "Charging slowly"
  | ChargeComplete => "Full" | InvalidBattery => "Invalid battery" | ThermalError => "Thermal error"
  | ChargingError => "Charging error" | OtherState _ => "Unknown"
  end.

Definition coarse_text (level : CoarseLevel) : string :=
  match level with
  | CoarseFull => "Full" | CoarseNormal => "Normal" | CoarseLow => "Low" | CoarseCritical => "Critical"
  end.

(** The reading of a battery in this state.  Of 0x1000 a full charge is shown
    without a percentage, and [next] is the next level the device announces. *)
Definition reading_of (source : string) (capacity : Capacity) (state : ChargeState) (full_level : bool)
    (next : option Z) : LsmHidppBatteryReading :=
  {| hr_percent := match capacity with Percent n => double_of_Z n | _ => NAN end;
     hr_next_percent := default (-1) next;
     hr_status := state_text state;
     hr_level := match capacity with
                 | Percent n => level_text n
                 | Coarse level => coarse_text level
                 | NoCapacity => if full_level then "Full"%string else EmptyString
                 end;
     hr_source := source;
     hr_exact_percent := match capacity with Percent _ => true | _ => false end;
     hr_next_percent_available := bool_decide (is_Some next) |}.

Lemma unified_status_text state code : unified_code state code → set_unified_battery_status code 32 = state_text state.
Proof.
  unfold set_unified_battery_status. destruct state; cbn [unified_code]; intros Hc; try done;
    try (subst; apply copy_string_fits; simpl; lia).
  destruct Hc as [-> Hc]. rewrite !(proj2 (Z.eqb_neq _ _)) by lia. apply copy_string_fits; simpl; lia.
Qed.

Lemma status_status_text state code : status_code state code → set_battery_status code 32 = state_text state.
Proof.
  unfold set_battery_status. destruct state; cbn [status_code]; intros Hc;
    try (subst; apply copy_string_fits; simpl; lia).
  - destruct Hc; subst; apply copy_string_fits; simpl; lia.
  - destruct Hc as [-> Hc]. rewrite !(proj2 (Z.eqb_neq _ _)) by lia. apply copy_string_fits; simpl; lia.
Qed.

Definition highest_level (full normal low critical : bool) : string :=
  if full then "Full" else if normal then "Normal" else if low then "Low" else if critical then "Critical" else "".

(** The bits the decoder looks at, one after the other. *)
Lemma level_bits_cases bits :
  highest_level (negb (Z.land bits 8 =? 0)) (negb (Z.land bits 4 =? 0)) (negb (Z.land bits 2 =? 0))
    (negb (Z.land bits 1 =? 0))
  = highest_level (8 <=? Z.land bits 15) (4 <=? Z.land bits 15) (2 <=? Z.land bits 15) (1 <=? Z.land bits 15).
Proof.
  assert (∀ m, Z.land 15 m = m → Z.land bits m = Z.land (Z.land bits 15) m) as Hm
    by (intros m Hm; by rewrite <-Z.land_assoc, Hm).
  rewrite (Hm 8), (Hm 4), (Hm 2), (Hm 1) by done. clear Hm.
  assert (0 <= Z.land bits 15 < 16) as Hl.
  { change 15 with (Z.ones 4). rewrite Z.land_ones by lia. apply Z.mod_pos_bound. lia. }
  set (low := Z.land bits 15) in *. clearbody low.
  assert (low ∈ seqZ 0 16) as Hin by (apply elem_of_seqZ; lia).
  assert (Forall (λ low,
    highest_level (negb (Z.land low 8 =? 0)) (negb (Z.land low 4 =? 0)) (negb (Z.land low 2 =? 0))
      (negb (Z.land low 1 =? 0))
    = highest_level (8 <=? low) (4 <=? low) (2 <=? low) (1 <=? low)) (seqZ 0 16)) as Hall
    by (vm_compute; repeat constructor).
  rewrite Forall_forall in Hall. by apply Hall.
Qed.

Lemma level_of_bits level bits :
  level_bit level <= Z.land bits 15 < 2 * level_bit level →
  highest_level (8 <=? Z.land bits 15) (4 <=? Z.land bits 15) (2 <=? Z.land bits 15) (1 <=? Z.land bits 15)
  = coarse_text level.
Proof.
  intros Hb. unfold highest_level. destruct level; cbn in *;
    repeat match goal with |- context [?a <=? ?b] => destruct (Z.leb_spec a b); try lia end; done.
Qed.

Lemma parse_1004_decodes capacity state charge bits code voltage payload reading0 source :
  unified_capacity capacity charge bits → unified_code state code →
  let r := lsm_logitech_hidpp_parse_1004 (charge :: bits :: code :: voltage :: payload) reading0 in
  r.1 = true ∧ r.2 <| hr_source := source |> = reading_of source capacity state false None.
Proof.
  intros Hcap Hcode. cbn [lsm_logitech_hidpp_parse_1004 fst snd]. split; [done|].
  rewrite (unified_status_text _ _ Hcode).
  destruct capacity as [n|level|]; cbn in Hcap; destruct Hcap as [Hcharge Hbits].
  - subst. rewrite (proj2 (Z.ltb_lt 0 n)), (proj2 (Z.leb_le n 100)) by lia. cbn [andb].
    rewrite set_level_exact by lia. reflexivity.
  - replace ((0 <? charge) && (charge <=? 100)) with false by (destruct Hcharge; lia).
    rewrite !copy_string_fits by (simpl; lia).
    pose proof (level_of_bits _ _ Hbits) as Hl. rewrite <-level_bits_cases in Hl. unfold reading_of. rewrite <-Hl.
    unfold highest_level. by repeat case_match.
  - replace ((0 <? charge) && (charge <=? 100)) with false by (destruct Hcharge; lia).
    pose proof (level_bits_cases bits) as Hl. rewrite Hbits in Hl. cbn in Hl. revert Hl. unfold highest_level.
    by repeat case_match.
Qed.

(** The next level a 0x1000 device announces. *)
Definition announced (next : Z) : option Z := if (1 <=? next) && (next <=? 100) then Some next else None.

Definition charge_complete (state : ChargeState) : bool :=
  match state with ChargeComplete => true | _ => false end.

Lemma parse_1000_decodes capacity state charge next code payload reading0 source :
  status_capacity capacity charge → status_code state code →
  let r := lsm_logitech_hidpp_parse_1000 (charge :: next :: code :: payload) reading0 in
  r.1 = true
  ∧ r.2 <| hr_source := source |> = reading_of source capacity state (charge_complete state) (announced next).
Proof.
  intros Hcap Hcode. cbn [lsm_logitech_hidpp_parse_1000 fst snd]. split; [done|].
  rewrite (status_status_text _ _ Hcode).
  assert ((code =? 3) = charge_complete state) as ->.
  { destruct state; cbn in Hcode; try (subst; done); [by destruct Hcode; subst|].
    destruct Hcode as [-> Hc]. apply Z.eqb_neq. lia. }
  unfold announced. assert ((0 <? next) = (1 <=? next)) as -> by (destruct (Z.ltb_spec 0 next), (Z.leb_spec 1 next); lia).
  destruct capacity as [n|level|]; cbn in Hcap; [destruct Hcap as [-> Hcharge]|done|].
  - rewrite (proj2 (Z.ltb_lt 0 n)), (proj2 (Z.leb_le n 100)) by lia. cbn [andb].
    destruct ((1 <=? next) && (next <=? 100)); cbn; by rewrite set_level_exact by lia.
  - replace ((0 <? charge) && (charge <=? 100)) with false by (destruct Hcap; lia).
    rewrite !copy_string_fits by (simpl; lia).
    by destruct (charge_complete state), ((1 <=? next) && (next <=? 100)).
Qed.

(** ** Replies *)

(** The device's answer to a request: its header and sixteen bytes. *)
Definition device_reply (feature_index function : Z) (payload : Bytes) : Bytes :=
  [LSM_HIDPP_REPORT_ID_LONG; LSM_HIDPP_DEVICE_DIRECT; feature_index;
   Z.lor (Z.land function 240) LSM_HIDPP_SOFTWARE_ID] ++ payload.

(** A report that belongs to another client or to another request: its feature
    or its function and software identifier differ, and it is not an error that
    names them. *)
Definition foreign (feature_index function : Z) (report : Bytes) : Prop :=
  let tag := Z.lor (Z.land function 240) LSM_HIDPP_SOFTWARE_ID in
  (byte_at report 2 ≠ feature_index ∨ byte_at report 3 ≠ tag) ∧
  ¬ (byte_at report 2 = LSM_HIDPP_ERROR_FEATURE ∧ byte_at report 3 = feature_index ∧ byte_at report 4 = tag).

Lemma byte_at_take report index : (index < 64)%nat → byte_at (take 64 report) index = byte_at report index.
Proof. intros Hi. unfold byte_at. by rewrite lookup_take_lt by lia. Qed.

Lemma request_tag feature_index function parameters capacity request :
  lsm_logitech_hidpp_format_request feature_index function parameters capacity = Some request →
  byte_at request 3 = Z.lor (Z.land function 240) LSM_HIDPP_SOFTWARE_ID ∧
  length request = LSM_HIDPP_REPORT_SIZE_LONG ∧ take (length parameters) (drop 4 request) = parameters.
Proof.
  unfold lsm_logitech_hidpp_format_request. destruct (_ || _) eqn:E; [done|]. intros [= <-].
  apply orb_false_iff in E as [_ E%Nat.ltb_ge]. split; [done|]. split.
  - simpl. rewrite length_app, length_replicate. unfold LSM_HIDPP_REPORT_SIZE_LONG in *. lia.
  - apply take_app_length.
Qed.

Lemma foreign_ignored feature_index function request report payload_size :
  byte_at request 3 = Z.lor (Z.land function 240) LSM_HIDPP_SOFTWARE_ID →
  foreign feature_index function report →
  match_reply feature_index request (take 64 report) payload_size = Ignored.
Proof.
  intros Htag [Hhead Herror]. unfold match_reply. rewrite Htag, !byte_at_take by lia.
  set (tag := Z.lor _ _) in *.
  destruct (length (take 64 report) <? 4)%nat; [done|]. repeat (destruct (negb _ && negb _); [done|]).
  destruct (_ && _ && _ && _) eqn:E.
  { bool_hyps. exfalso. by apply Herror. }
  destruct (negb (byte_at report 2 =? feature_index) || negb (byte_at report 3 =? tag)) eqn:E2; [done|].
  apply orb_false_iff in E2 as [E2 E3]. bool_hyps. destruct Hhead; congruence.
Qed.

Lemma receive_noise feature_index function request noise reports payload_size :
  byte_at request 3 = Z.lor (Z.land function 240) LSM_HIDPP_SOFTWARE_ID →
  Forall (foreign feature_index function) noise →
  receive feature_index request (noise ++ reports) payload_size = receive feature_index request reports payload_size.
Proof.
  intros Htag. induction 1 as [|report noise Hr Hn IH]; [done|]. cbn [app receive].
  by rewrite (foreign_ignored _ function) by done.
Qed.

(** An exchange in which the device answers amid foreign traffic. *)
Definition answers (feature_index function : Z) (payload : Bytes) (exchange : Exchange) : Prop :=
  ex_deadline_ok exchange = true ∧ ex_write_ok exchange = true ∧
  ∃ noise later, ex_reports exchange = noise ++ device_reply feature_index function payload :: later ∧
    Forall (foreign feature_index function) noise.

Lemma request_answered exchange feature_index function parameters payload :
  feature_index ≠ LSM_HIDPP_ERROR_FEATURE → (length parameters <= 16)%nat → length payload = 16%nat →
  answers feature_index function payload exchange →
  hidpp_request exchange feature_index function parameters 16 = Some payload.
Proof.
  intros Hf Hp Hl (Hd & Hw & noise & later & Hreports & Hnoise). unfold hidpp_request.
  destruct (lsm_logitech_hidpp_format_request feature_index function parameters LSM_HIDPP_REPORT_SIZE_LONG)
    as [request|] eqn:E.
  2:{ unfold lsm_logitech_hidpp_format_request in E. destruct (_ || _) eqn:E2; [|done].
      unfold LSM_HIDPP_REPORT_SIZE_LONG in E2. apply orb_true_iff in E2 as [E2|E2]; bool_hyps; lia. }
  destruct (request_tag _ _ _ _ _ E) as (Htag & _ & _).
  rewrite Hd, Hw, Hreports. cbn [negb orb]. rewrite (receive_noise _ function) by done. cbn [receive].
  assert (Hmatch : match_reply feature_index request (take 64 (device_reply feature_index function payload)) 16
                   = Accepted payload).
  { rewrite take_ge by (unfold device_reply; simpl; lia). unfold match_reply. rewrite Htag.
    destruct (Nat.ltb_spec (length (device_reply feature_index function payload)) 4) as [Hlt|_];
      [unfold device_reply in Hlt; simpl in Hlt; lia|].
    unfold device_reply, byte_at. simpl. rewrite (proj2 (Z.eqb_neq feature_index LSM_HIDPP_ERROR_FEATURE)) by done.
    rewrite !Z.eqb_refl. change (Accepted (take 16 payload) = Accepted payload). by rewrite take_ge by lia. }
  by rewrite Hmatch.
Qed.

(** The reply to the discovery of a feature the device does not have. *)
Definition feature_absent (exchange : Exchange) : Prop :=
  ∃ payload, length payload = 15%nat ∧ answers 0 0 (0 :: payload) exchange.

Lemma root_answered exchange feature index payload :
  length payload = 15%nat → answers 0 0 (index :: payload) exchange →
  root_feature_index exchange feature = if index =? 0 then None else Some index.
Proof.
  intros Hl Ha. unfold root_feature_index.
  by rewrite (request_answered _ _ _ _ (index :: payload)) by (done || (simpl; lia)).
Qed.

Lemma query_reading_ok query feature_id feature_index fid fidx reading :
  query_device query feature_id feature_index = (fid, fidx, Some reading) → reading_ok reading.
Proof.
  unfold query_device. destruct (negb _); [done|]. destruct (negb _); [done|].
  match goal with |- context [let '(a, b) := ?x in _] => destruct x as [id index] end.
  destruct (id =? _).
  { destruct (hidpp_request _ _ _ _ _) as [response|]; [|done].
    destruct (lsm_logitech_hidpp_parse_1004 _ _) as [[] parsed] eqn:E; [|done]. simpl. intros [= <- <- <-].
    by apply parse_1004_ok in E. }
  destruct (id =? _); [|done].
  destruct (hidpp_request _ _ _ _ _) as [response|]; [|done].
  destruct (lsm_logitech_hidpp_parse_1000 _ _) as [[] parsed] eqn:E; [|done]. simpl. intros [= <- <- <-].
  by apply parse_1000_ok in E.
Qed.

End readings.

(** ** The worker *)

(** src: logitech_hidpp.c:50-57 LsmHidppDeviceSlot *)
Record LsmHidppDeviceSlot := {
  ds_device_path : string;
  ds_feature_id : Z;
  ds_feature_index : Z;
  ds_reading : LsmHidppBatteryReading;
  ds_next_query_monotonic : double;
  ds_valid : bool;
}.
#[export] Instance eta_LsmHidppDeviceSlot : Eta LsmHidppDeviceSlot := λ x,
  Build_LsmHidppDeviceSlot (ds_device_path x) (ds_feature_id x) (ds_feature_index x) (ds_reading x)
    (ds_next_query_monotonic x) (ds_valid x).

(** src: logitech_hidpp.h:42-42 LSM_LOGITECH_HIDPP_MAX_DEVICES *)
Definition LSM_LOGITECH_HIDPP_MAX_DEVICES : nat := 16.
Definition LSM_HIDPP_PATH_SIZE : nat := 512.
Definition LSM_HIDPP_REFRESH_SECONDS : double := double_of_Z 10.
Definition LSM_HIDPP_RETRY_SECONDS : double := double_of_Z 30.

(** Where the thread is: between queries, in one for a copy of a slot, or gone. *)
Inductive Worker := NoWorker | Waiting | Querying (request : LsmHidppDeviceSlot) | Exited.

(** The owner is inside [stop] between the broadcast and the join while
    [hw_stopping]; a join that timed out leaves the thread detached.  The answers
    are the readings the queries of this run produced, a record of the model. *)
(** src: logitech_hidpp.c:59-69 LsmHidppWorkerState *)
Record LsmHidppWorkerState := {
  hw_devices : list LsmHidppDeviceSlot;
  hw_stop_requested : bool;
  hw_thread_started : bool;
  hw_pipe_open : bool;
  hw_worker : Worker;
  hw_stopping : bool;
  hw_detached : bool;
  hw_answers : list (string * LsmHidppBatteryReading);
}.
#[export] Instance eta_LsmHidppWorkerState : Eta LsmHidppWorkerState := λ x,
  Build_LsmHidppWorkerState (hw_devices x) (hw_stop_requested x) (hw_thread_started x) (hw_pipe_open x)
    (hw_worker x) (hw_stopping x) (hw_detached x) (hw_answers x).

Definition hidpp_state : LsmHidppWorkerState :=
  Build_LsmHidppWorkerState [] false false false NoWorker false false [].

(** src: logitech_hidpp.c find_slot_locked *)
Definition find_slot_locked (devices : list LsmHidppDeviceSlot) (device_path : string)
    : option (nat * LsmHidppDeviceSlot) :=
  list_find (λ slot, ds_device_path slot = device_path) devices.

(** The first due slot, or how long to wait. *)
(** src: logitech_hidpp.c find_due_slot_locked *)
Fixpoint find_due_slot_locked (devices : list LsmHidppDeviceSlot) (now : double) (index : nat)
    (shortest_wait : double) : nat + double :=
  match devices with
  | [] => inr shortest_wait
  | slot :: devices =>
      let remaining := dsub (ds_next_query_monotonic slot) now in
      if dle remaining d0 then inl index
      else find_due_slot_locked devices now (S index) (if dlt remaining shortest_wait then remaining else shortest_wait)
  end.

Section worker.
Context `{TextOps}.

(** One input path of the new list; [None] is an overflow. *)
(** src: logitech_hidpp.c:525-550 lsm_logitech_hidpp_set_devices *)
Definition set_device (devices updated : list LsmHidppDeviceSlot) (path : option string)
    : option (list LsmHidppDeviceSlot) :=
  match path with
  | None | Some EmptyString => Some updated
  | Some path =>
      if existsb (λ slot, strcmp_eq (ds_device_path slot) path) updated then Some updated
      else if (LSM_LOGITECH_HIDPP_MAX_DEVICES <=? length updated)%nat then None
      else Some (updated ++
        [match find_slot_locked devices path with
         | Some (_, old) => old
         | None => {| ds_device_path := lsm_copy_string LSM_HIDPP_PATH_SIZE path; ds_feature_id := 0;
                      ds_feature_index := 0; ds_reading := lsm_logitech_hidpp_reset_reading;
                      ds_next_query_monotonic := d0; ds_valid := false |}
         end])
  end.

(** src: logitech_hidpp.c:522-551 lsm_logitech_hidpp_set_devices *)
Definition updated_devices (devices : list LsmHidppDeviceSlot) (paths : list (option string))
    : option (list LsmHidppDeviceSlot) :=
  foldl (λ updated path, updated ≫= λ updated, set_device devices updated path) (Some []) paths.

(** src: logitech_hidpp.c lsm_logitech_hidpp_set_devices *)
Definition lsm_logitech_hidpp_set_devices (s : LsmHidppWorkerState) (paths : list (option string))
    : bool * LsmHidppWorkerState :=
  match updated_devices (hw_devices s) paths with
  | None => (false, s)
  | Some updated => (true, s <| hw_devices := updated |>)
  end.

(** src: logitech_hidpp.c lsm_logitech_hidpp_snapshot *)
Definition lsm_logitech_hidpp_snapshot (s : LsmHidppWorkerState) (device_path : string)
    : option LsmHidppBatteryReading :=
  if negb (nonempty device_path) then None else
  match find_slot_locked (hw_devices s) device_path with
  | Some (_, slot) => if ds_valid slot then Some (ds_reading slot) else None
  | None => None
  end.

(** Whether the condition variable, the pipe and the thread could be created. *)
(** src: logitech_hidpp.c lsm_logitech_hidpp_start *)
Definition lsm_logitech_hidpp_start (s : LsmHidppWorkerState) (condition_ok pipe_ok thread_ok : bool)
    : bool * LsmHidppWorkerState :=
  if hw_thread_started s then (true, s)
  else if negb condition_ok then (false, s)
  else
    let s := s <| hw_stop_requested := false |> <| hw_devices := [] |> in
    if negb pipe_ok then (false, s)
    else if negb thread_ok then (false, s)
    else (true, s <| hw_pipe_open := true |> <| hw_worker := Waiting |> <| hw_thread_started := true |>).

(** The worker selects a due slot, copies it and sets its deadline. *)
(** src: logitech_hidpp.c:425-454 hidpp_worker *)
Definition worker_pick (s : LsmHidppWorkerState) (now later : double) : option LsmHidppWorkerState :=
  match hw_worker s with
  | Waiting =>
      if hw_stop_requested s then Some (s <| hw_worker := Exited |>)
      else match find_due_slot_locked (hw_devices s) now 0 LSM_HIDPP_REFRESH_SECONDS with
           | inl selected =>
               match hw_devices s !! selected with
               | Some request =>
                   Some (s <| hw_devices := <[selected := request <| ds_next_query_monotonic :=
                                dadd later LSM_HIDPP_RETRY_SECONDS |>]> (hw_devices s) |>
                           <| hw_worker := Querying request |>)
               | None => Some s
               end
           | inr _ => Some s
           end
  | _ => None
  end.

(** It has queried the device and publishes the result. *)
(** src: logitech_hidpp.c:456-477 hidpp_worker *)
Definition worker_publish (s : LsmHidppWorkerState) (query : Query) (now : double) : option LsmHidppWorkerState :=
  match hw_worker s with
  | Querying request =>
      let '(feature_id, feature_index, result) :=
        query_device query (ds_feature_id request) (ds_feature_index request) in
      let s := s <| hw_worker := Waiting |> in
      let s := match result with
               | Some reading => s <| hw_answers := (ds_device_path request, reading) :: hw_answers s |>
               | None => s
               end in
      match find_slot_locked (hw_devices s) (ds_device_path request) with
      | Some (index, slot) =>
          if hw_stop_requested s then Some s else
          let interval := match result with
                          | Some _ => LSM_HIDPP_REFRESH_SECONDS | None => LSM_HIDPP_RETRY_SECONDS end in
          let slot := slot <| ds_next_query_monotonic := dadd now interval |> in
          let slot := match result with
                      | Some reading => slot <| ds_feature_id := feature_id |> <| ds_feature_index := feature_index |>
                                             <| ds_reading := reading |> <| ds_valid := true |>
                      | None => slot <| ds_feature_id := 0 |> <| ds_feature_index := 0 |>
                      end in
          Some (s <| hw_devices := <[index := slot]> (hw_devices s) |>)
      | None => Some s
      end
  | _ => None
  end.

(** [lsm_logitech_hidpp_stop] up to the join: the request and the wake-up. *)
(** src: logitech_hidpp.c:574-588 lsm_logitech_hidpp_stop *)
Definition stop_request (s : LsmHidppWorkerState) : LsmHidppWorkerState :=
  if negb (hw_thread_started s) then s else s <| hw_stop_requested := true |> <| hw_stopping := true |>.

(** The thread was joined. *)
(** src: logitech_hidpp.c:600-609 lsm_logitech_hidpp_stop *)
Definition stop_joined (s : LsmHidppWorkerState) : LsmHidppWorkerState :=
  s <| hw_pipe_open := false |> <| hw_thread_started := false |> <| hw_stop_requested := false |>
    <| hw_devices := [] |> <| hw_worker := NoWorker |> <| hw_stopping := false |>.

(** It was not, in the time allowed. *)
(** src: logitech_hidpp.c:595-598 lsm_logitech_hidpp_stop *)
Definition stop_timed_out (s : LsmHidppWorkerState) : LsmHidppWorkerState :=
  s <| hw_stopping := false |> <| hw_detached := true |>.

(** The paths the owner passes fit the slots. *)
Definition paths_fit (paths : list (option string)) : Prop :=
  ∀ path, Some path ∈ paths → (String.length path < LSM_HIDPP_PATH_SIZE)%nat.

(** One owner thread makes the calls; a thread is joined once it has exited, and
    not after it was detached. *)
(** src: logitech_hidpp.c hidpp_worker *)
Inductive hidpp_step : LsmHidppWorkerState → LsmHidppWorkerState → Prop :=
  | step_start s condition_ok pipe_ok thread_ok : hw_stopping s = false →
      hidpp_step s (lsm_logitech_hidpp_start s condition_ok pipe_ok thread_ok).2
  | step_set_devices s paths : hw_stopping s = false → paths_fit paths →
      hidpp_step s (lsm_logitech_hidpp_set_devices s paths).2
  | step_pick s now later s' : worker_pick s now later = Some s' → hidpp_step s s'
  | step_publish s query now s' : worker_publish s query now = Some s' → hidpp_step s s'
  | step_stop_request s : hw_stopping s = false → hidpp_step s (stop_request s)
  | step_stop_joined s : hw_stopping s = true → hw_worker s = Exited → hw_detached s = false →
      hidpp_step s (stop_joined s)
  | step_stop_timed_out s : hw_stopping s = true → hidpp_step s (stop_timed_out s).
End worker.

(** ** Invariant *)

Section hidpp_invariant.
Context `{TextLaws}.

Definition slot_paths (devices : list LsmHidppDeviceSlot) : list string := ds_device_path <$> devices.

Definition live (worker : Worker) : Prop := match worker with Waiting | Querying _ => True | _ => False end.

(** A valid slot holds an answer its own device gave. *)
Definition slot_ok (answers : list (string * LsmHidppBatteryReading)) (slot : LsmHidppDeviceSlot) : Prop :=
  ds_valid slot = true → (ds_device_path slot, ds_reading slot) ∈ answers.

Record hidpp_ok (s : LsmHidppWorkerState) : Prop := {
  ok_distinct : NoDup (slot_paths (hw_devices s));
  ok_bounded : (length (hw_devices s) ≤ LSM_LOGITECH_HIDPP_MAX_DEVICES)%nat;
  ok_slots : Forall (slot_ok (hw_answers s)) (hw_devices s);
  ok_answers : Forall (λ answer, reading_ok answer.2) (hw_answers s);
  ok_live : live (hw_worker s) → hw_thread_started s = true;
  ok_pipe : hw_pipe_open s = hw_thread_started s;
  ok_stopping : hw_stopping s = true ∨ hw_detached s = true → hw_thread_started s = true ∧ hw_stop_requested s = true;
}.

Lemma find_slot_spec devices path : NoDup (slot_paths devices) → ∀ index slot,
  find_slot_locked devices path = Some (index, slot) ↔ devices !! index = Some slot ∧ ds_device_path slot = path.
Proof.
  intros Hd index slot. unfold find_slot_locked. rewrite list_find_Some. split; [tauto|].
  intros [Hi Hp]. split_and!; [done..|]. intros j other Hj Hlt Ho.
  assert (j = index); [|lia]. apply (NoDup_lookup _ _ _ path Hd); unfold slot_paths; rewrite list_lookup_fmap.
  - by rewrite Hj, <- Ho.
  - by rewrite Hi, <- Hp.
Qed.

(** Replacing a slot by one of the same device. *)
Lemma paths_insert devices index slot slot' : devices !! index = Some slot →
  ds_device_path slot' = ds_device_path slot → slot_paths (<[index := slot']> devices) = slot_paths devices.
Proof.
  intros Hi Hp. unfold slot_paths. rewrite list_fmap_insert, Hp. apply list_insert_id.
  by rewrite list_lookup_fmap, Hi.
Qed.

(** *** The new device list *)

Record list_ok (answers : list (string * LsmHidppBatteryReading)) (devices : list LsmHidppDeviceSlot) : Prop := {
  lo_distinct : NoDup (slot_paths devices);
  lo_bounded : (length devices ≤ LSM_LOGITECH_HIDPP_MAX_DEVICES)%nat;
  lo_slots : Forall (slot_ok answers) devices;
}.

Lemma set_device_ok answers devices updated path updated' :
  (∀ path', path = Some path' → (String.length path' < LSM_HIDPP_PATH_SIZE)%nat) →
  list_ok answers devices → list_ok answers updated → set_device devices updated path = Some updated' →
  list_ok answers updated'.
Proof.
  intros Hfit Hdev Hupd. unfold set_device.
  destruct path as [path|]; [|by intros [= <-]]. specialize (Hfit path eq_refl).
  destruct path as [|c rest]; [by intros [= <-]|]. set (path := String c rest) in *.
  destruct (existsb _ updated) eqn:Hdup; [by intros [= <-]|].
  destruct (_ <=? length updated)%nat eqn:Hfull; [done|]. intros [= <-]. apply Nat.leb_gt in Hfull.
  set (slot := match find_slot_locked devices path with Some (_, old) => old | None => _ end).
  assert (Hslot : ds_device_path slot = path ∧ slot_ok answers slot).
  { unfold slot. destruct (find_slot_locked devices path) as [[index old]|] eqn:Hf.
    - apply find_slot_spec in Hf as [Hi Hp]; [|apply Hdev]. split; [done|].
      by eapply Forall_lookup_1; [apply Hdev|].
    - split; [by apply copy_string_fits|]. intros [=]. }
  destruct Hslot as [Hpath Hok]. destruct Hupd as [Hd Hb Hs]. split.
  - unfold slot_paths. rewrite fmap_app. apply NoDup_app. split; [done|]. split; [|apply NoDup_singleton].
    intros key (other & -> & Ho)%list_elem_of_fmap Hkey. simpl in Hkey. apply list_elem_of_singleton in Hkey.
    apply not_true_iff_false in Hdup. apply Hdup. apply existsb_exists. exists other.
    split; [by apply list_elem_of_In|]. apply strcmp_eq_true. congruence.
  - rewrite length_app. simpl. lia.
  - apply Forall_app. split; [done|]. by apply Forall_singleton.
Qed.

Lemma updated_devices_ok answers devices paths updated : paths_fit paths →
  list_ok answers devices → updated_devices devices paths = Some updated → list_ok answers updated.
Proof.
  unfold updated_devices. intros Hfit Hdev. revert updated. induction paths as [|path paths IH] using rev_ind;
    intros updated; [intros [= <-]; split; [constructor|simpl; lia|constructor]|].
  rewrite foldl_app. simpl. intros (before & Hbefore & Hset)%bind_Some.
  eapply set_device_ok; [|done| |exact Hset].
  - intros path' ->. apply Hfit. apply elem_of_app. right. by apply list_elem_of_singleton.
  - apply IH; [|done]. intros p Hp. apply Hfit. apply elem_of_app. by left.
Qed.

(** *** Steps *)

Lemma slot_ok_more answers answer devices :
  Forall (slot_ok answers) devices → Forall (slot_ok (answer :: answers)) devices.
Proof. intros Ha. eapply Forall_impl; [exact Ha|]. intros slot Hs Hv. right. by apply Hs. Qed.

Lemma start_ok s condition_ok pipe_ok thread_ok : hidpp_ok s → hw_stopping s = false →
  hidpp_ok (lsm_logitech_hidpp_start s condition_ok pipe_ok thread_ok).2.
Proof.
  intros Hok Hns. unfold lsm_logitech_hidpp_start.
  destruct (hw_thread_started s) eqn:Hstarted; [done|]. destruct condition_ok; [|done].
  destruct Hok as [Hd Hb Hs Ha Hl Hp Hst].
  assert (Hdet : hw_detached s = false).
  { destruct (hw_detached s); [|done]. destruct Hst as [Hst _]; [by right|congruence]. }
  destruct pipe_ok; [destruct thread_ok|]; simpl; split; simpl; rewrite ?Hstarted, ?Hns, ?Hdet;
    try done; try apply NoDup_nil_2; try apply Forall_nil_2; try lia; try (by intros [|]);
    try (intros Hlive; by rewrite Hl in Hstarted); by rewrite Hp.
Qed.

Lemma ok_worker s worker : hidpp_ok s → (live worker → hw_thread_started s = true) →
  hidpp_ok (s <| hw_worker := worker |>).
Proof. intros [Hd Hb Hs Ha Hl Hp Hst] Hw. by split. Qed.

Lemma ok_devices s devices : hidpp_ok s → list_ok (hw_answers s) devices →
  hidpp_ok (s <| hw_devices := devices |>).
Proof. intros [Hd Hb Hs Ha Hl Hp Hst] [Hd' Hb' Hs']. by split. Qed.

Lemma ok_list s : hidpp_ok s → list_ok (hw_answers s) (hw_devices s).
Proof. intros [Hd Hb Hs Ha Hl Hp Hst]. by split. Qed.

Lemma list_ok_insert answers devices index slot slot' : list_ok answers devices →
  devices !! index = Some slot → ds_device_path slot' = ds_device_path slot → slot_ok answers slot' →
  list_ok answers (<[index := slot']> devices).
Proof.
  intros [Hd Hb Hs] Hi Hp Hok. split; [by erewrite paths_insert|by rewrite length_insert|by apply Forall_insert].
Qed.

Lemma pick_ok s now later s' : hidpp_ok s → worker_pick s now later = Some s' → hidpp_ok s'.
Proof.
  intros Hok. unfold worker_pick. pose proof (ok_live _ Hok) as Hl. destruct (hw_worker s) eqn:Hw; try done.
  destruct (hw_stop_requested s); [intros [= <-]; by apply ok_worker|].
  destruct (find_due_slot_locked _ _ _ _) as [selected|wait]; [|by intros [= <-]].
  destruct (hw_devices s !! selected) as [request|] eqn:Hi; [|by intros [= <-]].
  intros Heq. injection Heq as Heq. rewrite <- Heq. clear Heq.
  match goal with |- hidpp_ok ?x => change x with
    (s <| hw_devices := hw_devices x |> <| hw_worker := Querying request |>) end.
  apply ok_worker; [|by intros _; apply Hl]. apply ok_devices; [done|].
  eapply list_ok_insert; [by apply ok_list|done|done|].
  intros Hv. by apply (Forall_lookup_1 _ _ _ _ (ok_slots _ Hok) Hi).
Qed.

Lemma publish_ok s query now s' : hidpp_ok s → worker_publish s query now = Some s' → hidpp_ok s'.
Proof.
  intros Hok. unfold worker_publish. pose proof (ok_live _ Hok) as Hl.
  destruct (hw_worker s) as [| |request|] eqn:Hw; try done.
  destruct (query_device query (ds_feature_id request) (ds_feature_index request)) as [[fid fidx] result] eqn:Hq.
  set (s1 := match result with Some reading => _ | None => s <| hw_worker := Waiting |> end).
  assert (Hok1 : hidpp_ok s1).
  { unfold s1. assert (Hwait : hidpp_ok (s <| hw_worker := Waiting |>)) by (apply ok_worker; [done|intros _; by apply Hl]).
    destruct result as [reading|]; [|done]. destruct Hwait as [Hd Hb Hs Ha Hl' Hp Hst]. split; simpl in *; try done.
    - by apply slot_ok_more.
    - constructor; [by eapply query_reading_ok|done]. }
  destruct (find_slot_locked (hw_devices s1) (ds_device_path request)) as [[index slot]|] eqn:Hf;
    [|by intros [= <-]].
  destruct (hw_stop_requested s1); [by intros [= <-]|]. intros [= <-].
  apply find_slot_spec in Hf as [Hi Hpath]; [|apply Hok1].
  apply ok_devices; [done|]. eapply list_ok_insert; [by apply ok_list|exact Hi|by destruct result|].
  pose proof (Forall_lookup_1 _ _ _ _ (ok_slots _ Hok1) Hi) as Hslot.
  destruct result as [reading|]; intros Hv; [|by apply Hslot]. unfold s1. simpl. rewrite Hpath. left.
Qed.

Lemma hidpp_step_ok s s' : hidpp_ok s → hidpp_step s s' → hidpp_ok s'.
Proof.
  intros Hok Hstep. destruct Hstep as
    [s condition_ok pipe_ok thread_ok Hns|s paths Hns Hfit|s now later s' Hp|s query now s' Hp|s Hns|s Hst Hw Hdet|s Hst].
  - by apply start_ok.
  - unfold lsm_logitech_hidpp_set_devices. destruct (updated_devices (hw_devices s) paths) as [updated|] eqn:E; [|done].
    apply ok_devices; [done|]. eapply updated_devices_ok; [exact Hfit|by apply ok_list|exact E].
  - by eapply pick_ok.
  - by eapply publish_ok.
  - unfold stop_request. destruct (hw_thread_started s) eqn:Hstarted; [|done].
    destruct Hok as [Hd Hb Hs Ha Hl Hp Hstop]. by split.
  - destruct Hok as [Hd Hb Hs Ha Hl Hp Hstop].
    split; simpl; try done; try apply NoDup_nil_2; try apply Forall_nil_2; try lia. rewrite Hdet. by intros [|].
  - destruct Hok as [Hd Hb Hs Ha Hl Hp Hstop]. split; simpl; try done. intros _. apply Hstop. by left.
Qed.

Lemma hidpp_state_ok : hidpp_ok hidpp_state.
Proof. split; simpl; try done; try apply NoDup_nil_2; try apply Forall_nil_2; try lia; by intros [|]. Qed.

Lemma hidpp_reachable_ok s : rtc hidpp_step hidpp_state s → hidpp_ok s.
Proof.
  intros Hr. cut (∀ s', rtc hidpp_step s' s → hidpp_ok s' → hidpp_ok s); [intros Hc; apply (Hc _ Hr), hidpp_state_ok|].
  intros s' Hsteps. induction Hsteps as [|x y z Hstep Hsteps IH]; [done|]. intros Hx. by apply IH, (hidpp_step_ok x).
Qed.

(** (C8) The battery worker.  In every interleaving of the worker with starts,
    stops and changes of the device list, the reading a snapshot returns is one
    the query of that very device produced, and well formed - never one of a
    device that had the slot before; a running worker always has its
    cancellation pipe open, which is closed only after it has exited; the slots
    are distinct and within the array. *)
Theorem hidpp_snapshot_is_own_reading s path reading :
  rtc hidpp_step hidpp_state s →
  (lsm_logitech_hidpp_snapshot s path = Some reading → (path, reading) ∈ hw_answers s ∧ reading_ok reading) ∧
  (live (hw_worker s) → hw_pipe_open s = true) ∧
  NoDup (slot_paths (hw_devices s)) ∧ (length (hw_devices s) ≤ LSM_LOGITECH_HIDPP_MAX_DEVICES)%nat.
Proof.
  intros Hr. apply hidpp_reachable_ok in Hr as [Hd Hb Hs Ha Hl Hp Hst]. split_and!; [|intros Hw; rewrite Hp; auto|done..].
  unfold lsm_logitech_hidpp_snapshot. destruct (negb (nonempty path)); [done|].
  destruct (find_slot_locked (hw_devices s) path) as [[index slot]|] eqn:Hf; [|done].
  destruct (ds_valid slot) eqn:Hv; [|done]. intros [= <-].
  apply find_slot_spec in Hf as [Hi <-]; [|done].
  assert (Hin : (ds_device_path slot, ds_reading slot) ∈ hw_answers s) by (by apply (Forall_lookup_1 _ _ _ _ Hs Hi)).
  split; [done|]. rewrite Forall_forall in Ha. exact (Ha _ Hin).
Qed.

(** A stop whose join timed out is final: the thread is detached but still
    counted as started, so every later start reports success without creating
    one, and no further reading is ever published. *)
Lemma timed_out_stop_is_final s s' condition_ok pipe_ok thread_ok :
  hidpp_ok s → hw_detached s = true → rtc hidpp_step s s' →
  hw_detached s' = true ∧ hw_stop_requested s' = true ∧
  lsm_logitech_hidpp_start s' condition_ok pipe_ok thread_ok = (true, s').
Proof.
  intros Hok Hdet Hsteps. revert Hok Hdet.
  induction Hsteps as [s|x y z Hstep Hsteps IH]; intros Hok Hdet.
  - destruct (ok_stopping _ Hok) as [Hstarted Hstop]; [by right|]. split_and!; [done..|].
    unfold lsm_logitech_hidpp_start. by rewrite Hstarted.
  - apply IH; [by eapply hidpp_step_ok|]. destruct (ok_stopping _ Hok) as [Hstarted _]; [by right|].
    inversion Hstep; subst; simpl; try done;
      unfold lsm_logitech_hidpp_start, lsm_logitech_hidpp_set_devices, worker_pick, worker_publish, stop_request in *;
      rewrite ?Hstarted in *; try congruence; try done; repeat case_match; by simplify_eq.
Qed.
End hidpp_invariant.

From S2P Require Import CommonReference.

(** A mouse at half charge, with another client's reply and an error for another
    function in front of its own. *)
Definition mouse_exchange (feature_index function : Z) (payload : Bytes) : Exchange :=
  {| ex_deadline_ok := true; ex_write_ok := true;
     ex_reports := [[17; 255; 9; 13] ++ replicate 16 0; [16; 255; 255; 3; 1; 2; 0];
                    device_reply feature_index function payload] |}.
Definition mouse_query : Query :=
  {| qu_open_ok := true; qu_vendor := Some 1133;
     qu_unified_root := mouse_exchange 0 0 (4 :: replicate 15 0);
     qu_status_root := Build_Exchange false false [];
     qu_battery := mouse_exchange 4 16 (50 :: 4 :: 2 :: replicate 13 0) |}.

Lemma mouse_answers feature_index function payload :
  feature_index ∈ [0; 4] → function ∈ [0; 16] →
  answers feature_index function payload (mouse_exchange feature_index function payload).
Proof.
  intros Hi Hf. split; [done|]. split; [done|].
  exists [[17; 255; 9; 13] ++ replicate 16 0; [16; 255; 255; 3; 1; 2; 0]], []. split; [done|].
  set_unfold. apply Forall_cons; split; [|apply Forall_cons; split; [|apply Forall_nil_2]];
    unfold foreign; destruct_or!; subst; vm_compute; intuition congruence.
Qed.

(** An older device, which answers the first discovery with no index. *)
Definition keyboard_query : Query :=
  {| qu_open_ok := true; qu_vendor := Some 1133;
     qu_unified_root := mouse_exchange 0 0 (replicate 16 0);
     qu_status_root := mouse_exchange 0 0 (4 :: replicate 15 0);
     qu_battery := mouse_exchange 4 0 (0 :: 90 :: 3 :: replicate 13 0) |}.


Definition mouse_path : string := "/dev/hidraw3".
Definition mouse_run : LsmHidppWorkerState :=
  let s := (lsm_logitech_hidpp_start hidpp_state true true true).2 in
  let s := (lsm_logitech_hidpp_set_devices s [Some mouse_path]).2 in
  let s := default s (worker_pick s d0 d0) in
  default s (worker_publish s mouse_query d0).

Lemma mouse_run_reachable : rtc hidpp_step hidpp_state mouse_run.
Proof.
  eapply rtc_l; [by apply (step_start _ true true true)|].
  eapply rtc_l; [apply (step_set_devices _ [Some mouse_path]); [done|]|].
  { intros path Hp%list_elem_of_singleton. injection Hp as ->. apply Nat.ltb_lt. reflexivity. }
  eapply rtc_l; [apply (step_pick _ d0 d0); vm_compute; reflexivity|].
  eapply rtc_l; [apply (step_publish _ mouse_query d0); vm_compute; reflexivity|].
  match goal with |- rtc _ ?x ?y => replace y with x by (vm_compute; reflexivity) end. apply rtc_refl.
Qed.

Lemma hidpp_snapshot_is_own_reading_witness :
  ∃ reading, lsm_logitech_hidpp_snapshot mouse_run mouse_path = Some reading ∧ reading_ok reading ∧
    hw_pipe_open mouse_run = true.
Proof.
  destruct (lsm_logitech_hidpp_snapshot mouse_run mouse_path) as [reading|] eqn:E; [|vm_compute in E; discriminate E].
  exists reading. split; [reflexivity|].
  destruct (hidpp_snapshot_is_own_reading mouse_run mouse_path reading mouse_run_reachable) as (Hown & Hpipe & _ & _).
  split; [apply Hown, E|apply Hpipe; exact I].
Defined.
