(* ===== verification/Bytes.v ===== *)
(** * Bytes: bounds-checked reads of a byte buffer

    Two components decode binary records from a buffer the kernel or the
    firmware filled.  A read outside the buffer has no result ([None]), so a
    decoder with a result for every buffer never reads out of bounds. *)
From S2P Require Import Prelude Double CStrings Common.
Local Open Scope Z_scope.

Abbreviation table := (list Byte.byte).

Definition byte_at (t : table) (i : nat) : option Z := byte_val <$> t !! i.

(** [record + i] as a C string of [n] bytes. *)
Definition bytes_at (t : table) (i n : nat) : option table :=
  if (i + n <=? length t)%nat then Some (take n (drop i t)) else None.

Section loads.
Context `{ByteOps}.

Definition load16 (t : table) (i : nat) : option Z :=
  if (i + 2 <=? length t)%nat then Some (infiltratr_load_le16 (drop i t)) else None.
Definition load32 (t : table) (i : nat) : option Z :=
  if (i + 4 <=? length t)%nat then Some (infiltratr_load_le32 (drop i t)) else None.
End loads.

#[local] Arguments Nat.leb : simpl never.

Section load_facts.
Context `{ByteOps}.
Implicit Types t : table.

Lemma byte_at_some t i : (i < length t)%nat → ∃ b, byte_at t i = Some b ∧ 0 <= b < 256.
Proof.
  intros Hi. destruct (lookup_lt_is_Some_2 t i Hi) as [b Hb]. exists (byte_val b).
  unfold byte_at. rewrite Hb. split; [done|apply byte_val_range].
Qed.

Lemma bytes_at_some t i n :
  (i + n ≤ length t)%nat → ∃ bytes, bytes_at t i n = Some bytes ∧ length bytes = n.
Proof.
  intros Hi. unfold bytes_at. destruct (Nat.leb_spec (i + n) (length t)); [|lia].
  eexists. split; [done|]. rewrite length_take, length_drop. lia.
Qed.

Lemma load16_some t i : (i + 2 ≤ length t)%nat → is_Some (load16 t i).
Proof. intros Hi. unfold load16. destruct (Nat.leb_spec (i + 2) (length t)); [eauto|lia]. Qed.

Lemma load32_some t i : (i + 4 ≤ length t)%nat → is_Some (load32 t i).
Proof. intros Hi. unfold load32. destruct (Nat.leb_spec (i + 4) (length t)); [eauto|lia]. Qed.
End load_facts.

(** Discharge a bounds-checked load of the goal. *)
Ltac do_load :=
  match goal with
  | |- context [load16 ?t ?i] =>
      let v := fresh "v" in destruct (load16_some t i) as [v ->]; [lia|]; simpl
  | |- context [load32 ?t ?i] =>
      let v := fresh "v" in destruct (load32_some t i) as [v ->]; [lia|]; simpl
  | |- context [byte_at ?t ?i] =>
      let v := fresh "v" in destruct (byte_at_some t i) as (v & -> & ?); [lia|]; simpl
  end.
