(* ===== verification/ProcessModel.v ===== *)
(** * ProcessModel: process identities, priorities and snapshot rows

    Models [src/src/process_model.h] and [src/src/process_model.c].  A fixed
    [char] array is the string it holds. *)
From S2P Require Import Prelude Double.
Local Open Scope Z_scope.

(** src: process_model.h:22-22 LSM_NAME_LEN *)
Definition LSM_NAME_LEN : nat := 128.
(** src: process_model.h:24-24 LSM_PATH_LEN *)
Definition LSM_PATH_LEN : nat := 512.

(** src: process_model.h:35-41 LsmProcessPriority *)
Inductive LsmProcessPriority :=
| LSM_PROCESS_PRIORITY_HIGH
| LSM_PROCESS_PRIORITY_ABOVE_NORMAL
| LSM_PROCESS_PRIORITY_NORMAL
| LSM_PROCESS_PRIORITY_BELOW_NORMAL
| LSM_PROCESS_PRIORITY_LOW.

(** src: process_model.h:52-66 LsmProcessScanFlags *)
Definition LSM_PROCESS_SCAN_NONE : Z := 0.
Definition LSM_PROCESS_SCAN_EXECUTABLE : Z := 1.
Definition LSM_PROCESS_SCAN_HANDLE_COUNT : Z := 2.
Definition LSM_PROCESS_SCAN_GPU : Z := 4.
Definition LSM_PROCESS_SCAN_CGROUP : Z := 8.
Definition LSM_PROCESS_SCAN_TECHNICAL : Z := 16.

(** src: process_model.h:68-120 LsmProcessInfo *)
Record LsmProcessInfo := {
  p_pid : Z;
  p_ppid : Z;
  p_account_identity : string;
  p_instance_id : Z;
  p_owned_by_current_user : bool;
  p_user : string;
  p_name : string;
  p_state : string;
  p_executable : string;
  p_command : string;
  p_cgroup_path : string;
  p_cgroup_v2 : bool;
  p_waiting_channel : string;
  p_security_context : string;
  p_unit : string;
  p_session : string;
  p_seat : string;
  p_owner : string;
  p_threads : Z;
  p_handle_count : Z;
  p_handle_count_available : bool;
  p_priority : LsmProcessPriority;
  p_nice_value : Z;
  p_nice_value_available : bool;
  p_efficiency_mode : bool;
  p_cpu_percent : double;
  p_memory_percent : double;
  p_read_bytes_per_sec : double;
  p_write_bytes_per_sec : double;
  p_io_rate_available : bool;
  p_rss_bytes : Z;
  p_virtual_memory_bytes : Z;
  p_writable_memory_bytes : Z;
  p_shared_memory_bytes : Z;
  p_virtual_memory_available : bool;
  p_writable_memory_available : bool;
  p_shared_memory_available : bool;
  p_read_bytes : Z;
  p_write_bytes : Z;
  p_io_totals_available : bool;
  p_context_switches : Z;
  p_page_faults : Z;
  p_cpu_time_nanoseconds : Z;
  p_cpu_time_seconds : Z;
  p_start_time_epoch : Z;
  p_elapsed_seconds : Z;
  p_gpu_percent : double;
  p_gpu_memory_bytes : Z;
  p_gpu_engine : string;
  p_gpu_available : bool;
  p_gpu_memory_available : bool;
}.
#[export] Instance eta_LsmProcessInfo : Eta LsmProcessInfo := λ x,
  Build_LsmProcessInfo (p_pid x)
    (p_ppid x)
    (p_account_identity x)
    (p_instance_id x)
    (p_owned_by_current_user x)
    (p_user x)
    (p_name x)
    (p_state x)
    (p_executable x)
    (p_command x)
    (p_cgroup_path x)
    (p_cgroup_v2 x)
    (p_waiting_channel x)
    (p_security_context x)
    (p_unit x)
    (p_session x)
    (p_seat x)
    (p_owner x)
    (p_threads x)
    (p_handle_count x)
    (p_handle_count_available x)
    (p_priority x)
    (p_nice_value x)
    (p_nice_value_available x)
    (p_efficiency_mode x)
    (p_cpu_percent x)
    (p_memory_percent x)
    (p_read_bytes_per_sec x)
    (p_write_bytes_per_sec x)
    (p_io_rate_available x)
    (p_rss_bytes x)
    (p_virtual_memory_bytes x)
    (p_writable_memory_bytes x)
    (p_shared_memory_bytes x)
    (p_virtual_memory_available x)
    (p_writable_memory_available x)
    (p_shared_memory_available x)
    (p_read_bytes x)
    (p_write_bytes x)
    (p_io_totals_available x)
    (p_context_switches x)
    (p_page_faults x)
    (p_cpu_time_nanoseconds x)
    (p_cpu_time_seconds x)
    (p_start_time_epoch x)
    (p_elapsed_seconds x)
    (p_gpu_percent x)
    (p_gpu_memory_bytes x)
    (p_gpu_engine x)
    (p_gpu_available x)
    (p_gpu_memory_available x).

(** src: process_model.c lsm_process_priority_name *)
Definition lsm_process_priority_name (priority : LsmProcessPriority) : string :=
  match priority with
  | LSM_PROCESS_PRIORITY_HIGH => "High"
  | LSM_PROCESS_PRIORITY_ABOVE_NORMAL => "Above normal"
  | LSM_PROCESS_PRIORITY_NORMAL => "Normal"
  | LSM_PROCESS_PRIORITY_BELOW_NORMAL => "Below normal"
  | LSM_PROCESS_PRIORITY_LOW => "Low"
  end.

#[export] Instance priority_eq_dec : EqDecision LsmProcessPriority.
Proof. solve_decision. Defined.

(** A zero-initialised row, as [calloc] and [memset] leave it. *)
Definition process_zero : LsmProcessInfo.
Proof.
  refine (Build_LsmProcessInfo 0 0 "" 0 false "" "" "" "" "" "" false "" "" "" "" "" ""
    0 0 false LSM_PROCESS_PRIORITY_HIGH 0 false false d0 d0 d0 d0 false 0 0 0 0
    false false false 0 0 false 0 0 0 0 0 0 d0 0 "" false false).
Defined.

Example set_field_example :
  p_pid (process_zero <| p_pid := 7 |>) = 7 ∧ p_name (process_zero <| p_pid := 7 |>) = "".
Proof. split; simpl; reflexivity. Qed.
