(* ===== verification/ProcessGrouping.v ===== *)
(** * ProcessGrouping: totals of an application group

    Models [src/src/process_grouping.c]: one process after the other is added to
    the metrics of its group.  The theorem characterises the totals of a group
    by all of its members at once. *)
From S2P Require Import Prelude Double CStrings Common ProcessModel.
Local Open Scope Z_scope.

(** src: process_grouping.h:17-28 LsmProcessGroupMetrics *)
Record LsmProcessGroupMetrics := {
  gm_cpu_percent : double;
  gm_memory_bytes : Z;
  gm_disk_bytes_per_sec : double;
  gm_disk_available : bool;
  gm_gpu_percent : double;
  gm_gpu_engine_peak : double;
  gm_gpu_engine : string;
  gm_gpu_available : bool;
  gm_process_count : Z;
  gm_all_stopped : bool;
  gm_all_efficient : bool;
}.
#[export] Instance eta_LsmProcessGroupMetrics : Eta LsmProcessGroupMetrics := λ x,
  Build_LsmProcessGroupMetrics (gm_cpu_percent x) (gm_memory_bytes x) (gm_disk_bytes_per_sec x)
    (gm_disk_available x) (gm_gpu_percent x) (gm_gpu_engine_peak x) (gm_gpu_engine x)
    (gm_gpu_available x) (gm_process_count x) (gm_all_stopped x) (gm_all_efficient x).

Definition group_zero : LsmProcessGroupMetrics :=
  Build_LsmProcessGroupMetrics d0 0 d0 false d0 d0 EmptyString false 0 false false.

(** src: process_grouping.c positive_finite_sum *)
Definition positive_finite_sum (total value : double) : double :=
  if negb (isfinite value) || dle value d0 then total
  else if dle value (dsub DBL_MAX total) then dadd total value else DBL_MAX.

Section grouping.
Context `{ArithmeticOps, TextOps}.

(** The GPU part of the step. *)
(** src: process_grouping.c:42-53 lsm_process_group_metrics_add *)
Definition add_gpu (metrics : LsmProcessGroupMetrics) (process : LsmProcessInfo) : LsmProcessGroupMetrics :=
  if p_gpu_available process then
    let metrics :=
      if nonempty (p_gpu_engine process)
         && (negb (gm_gpu_available metrics) || dgt (p_gpu_percent process) (gm_gpu_engine_peak metrics))
      then metrics <| gm_gpu_engine_peak := p_gpu_percent process |>
                   <| gm_gpu_engine := lsm_copy_string 256 (p_gpu_engine process) |>
      else metrics in
    metrics <| gm_gpu_percent := positive_finite_sum (gm_gpu_percent metrics) (p_gpu_percent process) |>
            <| gm_gpu_available := true |>
  else metrics.

(** src: process_grouping.c lsm_process_group_metrics_add *)
Definition lsm_process_group_metrics_add (metrics : LsmProcessGroupMetrics) (process : LsmProcessInfo)
    : LsmProcessGroupMetrics :=
  let first := gm_process_count metrics =? 0 in
  let metrics :=
    metrics <| gm_cpu_percent := positive_finite_sum (gm_cpu_percent metrics) (p_cpu_percent process) |>
            <| gm_memory_bytes := lsm_u64_add_saturating (gm_memory_bytes metrics) (p_rss_bytes process) |> in
  let metrics :=
    if p_io_rate_available process then
      metrics <| gm_disk_bytes_per_sec :=
                   positive_finite_sum
                     (positive_finite_sum (gm_disk_bytes_per_sec metrics) (p_read_bytes_per_sec process))
                     (p_write_bytes_per_sec process) |>
              <| gm_disk_available := true |>
    else metrics in
  let metrics := add_gpu metrics process in
  let stopped := strcmp_eq (p_state process) "Stopped" in
  metrics <| gm_all_stopped := if first then stopped else gm_all_stopped metrics && stopped |>
          <| gm_all_efficient := if first then p_efficiency_mode process
                                 else gm_all_efficient metrics && p_efficiency_mode process |>
          <| gm_process_count := if gm_process_count metrics <? size_max then gm_process_count metrics + 1
                                 else gm_process_count metrics |>.

Definition group_metrics (processes : list LsmProcessInfo) : LsmProcessGroupMetrics :=
  foldl lsm_process_group_metrics_add group_zero processes.
End grouping.

(** ** Sums of non-negative values *)

(** A number that is not negative, possibly infinite; never NaN. *)
Definition nonnegative (x : double) : Prop := dle d0 x = true.

Lemma nonnegative_cases x : nonnegative x ↔
  match x with S754_zero _ => True | S754_finite s _ _ | S754_infinity s => s = false | S754_nan => False end.
Proof. unfold nonnegative, dle, SFleb. destruct x as [s|s| |s m e]; simpl; try by split. all: by destruct s. Qed.

Lemma binary_round_nonnegative m e : nonnegative (binary_round 53 1024 false m e).
Proof.
  unfold binary_round. destruct (shl_align _ _ _) as [mz ez].
  pose proof (binary_round_aux_not_nan 53 1024 false (Z.pos mz) ez loc_Exact ltac:(lia)) as Hn.
  unfold binary_round_aux in *. destruct (shr_fexp _ _ _ ez _) as [r1 e1].
  destruct (shr_fexp _ _ _ e1 _) as [r2 e2]. apply nonnegative_cases.
  destruct (shr_m r2); [done| |done]. by destruct (_ <=? _).
Qed.

Lemma dadd_nonnegative x y : nonnegative x → nonnegative y → nonnegative (dadd x y).
Proof.
  rewrite !nonnegative_cases. intros Hx Hy. apply nonnegative_cases.
  destruct x as [sx|sx| |sx mx ex], y as [sy|sy| |sy my ey]; simpl in *; subst; try done;
    [by destruct sx, sy|].
  unfold dadd, SFadd. cbv zeta. unfold cond_Zopp.
  destruct (Z.pos _ + Z.pos _) eqn:E; [lia| |lia].
  apply binary_round_nonnegative.
Qed.

Lemma positive_sum_nonnegative total value : nonnegative total → nonnegative (positive_finite_sum total value).
Proof.
  intros Ht. unfold positive_finite_sum. destruct (negb (isfinite value) || dle value d0) eqn:E; [done|].
  destruct (dle value (dsub DBL_MAX total)); [|done]. apply orb_false_iff in E as [Hf Hv].
  apply dadd_nonnegative; [done|]. apply nonnegative_cases.
  destruct value as [s|s| |s m e]; try done. destruct s; [done|done].
Qed.

(** The guard compares with a rounded difference: near the largest double a sum
    it admits overflows. *)
Definition near_max : double := S754_finite false 9007199254740990 971.
Definition ulp_and_half : double := S754_finite false 6755399441055744 919.

Lemma positive_finite_sum_overflows :
  isfinite near_max = true ∧ isfinite ulp_and_half = true ∧
  positive_finite_sum ulp_and_half near_max = S754_infinity false.
Proof. by vm_compute. Qed.

(** ** The totals of a group *)

Section totals.
Context `{ArithmeticLaws, TextOps}.

Definition rss_total (processes : list LsmProcessInfo) : Z := foldr (λ p sum, p_rss_bytes p + sum) 0 processes.

(** A process that names its engine and its share. *)
Definition engine_of (p : LsmProcessInfo) : bool := p_gpu_available p && nonempty (p_gpu_engine p).

(** The peak is a share of a member that names the engine, and no smaller than
    the other members' shares. *)
Definition peak_spec (processes : list LsmProcessInfo) (m : LsmProcessGroupMetrics) : Prop :=
  ((gm_gpu_engine_peak m = d0 ∧ gm_gpu_engine m = EmptyString) ∨
   (∃ p, p ∈ processes ∧ engine_of p = true ∧ gm_gpu_engine_peak m = p_gpu_percent p ∧
         gm_gpu_engine m = lsm_copy_string 256 (p_gpu_engine p))) ∧
  (∀ p, p ∈ processes → engine_of p = true → dle (p_gpu_percent p) (gm_gpu_engine_peak m) = true) ∧
  isnan (gm_gpu_engine_peak m) = false.

Record totals (processes : list LsmProcessInfo) (m : LsmProcessGroupMetrics) : Prop := {
  tot_count : gm_process_count m = Z.min size_max (Z.of_nat (length processes));
  tot_memory : gm_memory_bytes m = Z.min uint64_max (rss_total processes);
  tot_stopped : processes ≠ [] → gm_all_stopped m = forallb (λ p, strcmp_eq (p_state p) "Stopped") processes;
  tot_efficient : processes ≠ [] → gm_all_efficient m = forallb p_efficiency_mode processes;
  tot_disk_available : gm_disk_available m = existsb p_io_rate_available processes;
  tot_gpu_available : gm_gpu_available m = existsb p_gpu_available processes;
  tot_cpu : nonnegative (gm_cpu_percent m);
  tot_disk : nonnegative (gm_disk_bytes_per_sec m);
  tot_gpu : nonnegative (gm_gpu_percent m);
  tot_peak : Forall (λ p, nonnegative (p_gpu_percent p)) processes → peak_spec processes m;
}.

Lemma rss_total_app l p : rss_total (l ++ [p]) = rss_total l + p_rss_bytes p.
Proof. unfold rss_total. rewrite foldr_app. simpl. induction l as [|q l IH]; simpl; lia. Qed.

Lemma rss_total_nonneg l : Forall (λ p, u64 (p_rss_bytes p)) l → 0 <= rss_total l.
Proof. unfold u64. induction 1 as [|p l Hp Hl IH]; simpl; lia. Qed.

Lemma existsb_snoc {A} (f : A → bool) l x : existsb f (l ++ [x]) = existsb f l || f x.
Proof. rewrite existsb_app. simpl. by rewrite orb_false_r. Qed.

Lemma forallb_snoc {A} (f : A → bool) l x : forallb f (l ++ [x]) = forallb f l && f x.
Proof. rewrite List.forallb_app. simpl. by rewrite andb_true_r. Qed.

Lemma dle_nonnegative x y : nonnegative x → nonnegative y → dlt y x = false → dle x y = true.
Proof.
  intros (_ & Hx & _)%dle_true (_ & Hy & _)%dle_true E. by apply dlt_false_iff in E.
Qed.

(** The peak after one more process. *)
Lemma peak_step l p m : Forall (λ p, nonnegative (p_gpu_percent p)) (l ++ [p]) →
  gm_gpu_available m = existsb p_gpu_available l → peak_spec l m → peak_spec (l ++ [p]) (add_gpu m p).
Proof.
  rewrite Forall_app, Forall_singleton. intros [Hl Hp] Havailable (Hfrom & Hmax & Hnan).
  pose proof Hp as (_ & Hpn & _)%dle_true.
  assert (Hkeep : engine_of p = false → peak_spec (l ++ [p]) m).
  { intros Hengine. split; [|split; [|done]].
    - destruct Hfrom as [?|(q & Hq & ?)]; [by left|right]. exists q. split; [|done]. apply elem_of_app. by left.
    - intros q [Hq|Hq%list_elem_of_singleton]%elem_of_app Heq; [by apply Hmax|]. congruence. }
  unfold add_gpu. destruct (p_gpu_available p) eqn:Ha; [|apply Hkeep; unfold engine_of; by rewrite Ha].
  destruct (nonempty (p_gpu_engine p)) eqn:He; simpl; [|apply Hkeep; unfold engine_of; by rewrite Ha, He].
  assert (Hengine : engine_of p = true) by (unfold engine_of; by rewrite Ha, He).
  destruct (negb (gm_gpu_available m) || dgt (p_gpu_percent p) (gm_gpu_engine_peak m)) eqn:Hc.
  - split; [right; exists p; split_and!; try done; apply elem_of_app; right; by apply list_elem_of_singleton|].
    split; [|done]. intros q [Hq|Hq%list_elem_of_singleton]%elem_of_app Heq; cbn [gm_gpu_engine_peak set_field eta].
    2:{ subst q. by apply dle_refl. }
    change (dle (p_gpu_percent q) (p_gpu_percent p) = true).
    apply orb_true_iff in Hc as [Hc|Hc].
    + apply negb_true_iff in Hc. rewrite Havailable in Hc. exfalso. apply not_true_iff_false in Hc. apply Hc.
      apply existsb_exists. exists q. split; [by apply list_elem_of_In|].
      unfold engine_of in Heq. by apply andb_true_iff in Heq as [? _].
    + eapply dle_trans; [by apply Hmax|]. by apply dlt_le.
  - apply orb_false_iff in Hc as [_ Hc].
    split; [destruct Hfrom as [?|(q & Hq & ?)]; [by left|right; exists q; split; [apply elem_of_app; by left|done]]|].
    split; [|done]. intros q [Hq|Hq%list_elem_of_singleton]%elem_of_app Heq.
    + by apply (Hmax q).
    + subst q. change (dle (p_gpu_percent p) (gm_gpu_engine_peak m) = true). by apply dlt_false_iff in Hc.
Qed.

Lemma add_gpu_other m p :
  gm_process_count (add_gpu m p) = gm_process_count m ∧ gm_memory_bytes (add_gpu m p) = gm_memory_bytes m ∧
  gm_all_stopped (add_gpu m p) = gm_all_stopped m ∧ gm_all_efficient (add_gpu m p) = gm_all_efficient m ∧
  gm_disk_available (add_gpu m p) = gm_disk_available m ∧ gm_cpu_percent (add_gpu m p) = gm_cpu_percent m ∧
  gm_disk_bytes_per_sec (add_gpu m p) = gm_disk_bytes_per_sec m ∧
  gm_gpu_available (add_gpu m p) = gm_gpu_available m || p_gpu_available p ∧
  (nonnegative (gm_gpu_percent m) → nonnegative (gm_gpu_percent (add_gpu m p))).
Proof.
  unfold add_gpu. destruct (p_gpu_available p); [|by rewrite orb_false_r; split_and!].
  destruct (_ && _); simpl; rewrite orb_true_r; split_and!; try done; apply positive_sum_nonnegative.
Qed.

Lemma add_totals l p m : Forall (λ p, u64 (p_rss_bytes p)) (l ++ [p]) →
  totals l m → totals (l ++ [p]) (lsm_process_group_metrics_add m p).
Proof.
  intros Hrss [Hc Hm Hs He Hd Hg Hcpu Hdisk Hgpu Hpeak].
  rewrite Forall_app, Forall_singleton in Hrss. destruct Hrss as [Hrl Hrp].
  pose proof (rss_total_nonneg l Hrl) as Hnn.
  unfold lsm_process_group_metrics_add.
  set (m1 := m <| gm_cpu_percent := _ |> <| gm_memory_bytes := _ |>).
  set (m2 := if p_io_rate_available p then _ else m1).
  assert (H2 : gm_process_count m2 = gm_process_count m ∧ gm_all_stopped m2 = gm_all_stopped m ∧
    gm_all_efficient m2 = gm_all_efficient m ∧
    gm_memory_bytes m2 = lsm_u64_add_saturating (gm_memory_bytes m) (p_rss_bytes p) ∧
    gm_cpu_percent m2 = positive_finite_sum (gm_cpu_percent m) (p_cpu_percent p) ∧
    gm_disk_available m2 = gm_disk_available m || p_io_rate_available p ∧
    gm_gpu_available m2 = gm_gpu_available m ∧ gm_gpu_percent m2 = gm_gpu_percent m ∧
    gm_gpu_engine_peak m2 = gm_gpu_engine_peak m ∧ gm_gpu_engine m2 = gm_gpu_engine m ∧
    nonnegative (gm_disk_bytes_per_sec m2)).
  { unfold m2, m1. destruct (p_io_rate_available p); simpl; rewrite ?orb_true_r, ?orb_false_r; split_and!; try done.
    by apply positive_sum_nonnegative, positive_sum_nonnegative. }
  destruct H2 as (E1 & E2 & E3 & E4 & E5 & E6 & E7 & E8 & E9 & E10 & Hdisk2).
  destruct (add_gpu_other m2 p) as (G1 & G2 & G3 & G4 & G5 & G6 & G7 & G8 & G9).
  assert (Hfirst : (gm_process_count m =? 0) = bool_decide (l = [])).
  { rewrite Hc. destruct l; [done|]. rewrite bool_decide_eq_false_2 by done. apply Z.eqb_neq.
    unfold size_max, uint64_max. simpl length. lia. }
  split; simpl.
  - rewrite G1, E1, Hc, length_app. simpl. unfold size_max, uint64_max.
    destruct (Z.ltb_spec (Z.min 18446744073709551615 (Z.of_nat (length l))) 18446744073709551615); lia.
  - rewrite G2, E4, Hm, rss_total_app. unfold u64 in Hrp. rewrite add_saturating_spec by (unfold u64, uint64_max in *; lia).
    unfold uint64_max in *. lia.
  - intros _. rewrite Hfirst, G3, E2, forallb_snoc. destruct l as [|q l]; [done|].
    rewrite bool_decide_eq_false_2 by done. by rewrite Hs.
  - intros _. rewrite Hfirst, G4, E3, forallb_snoc. destruct l as [|q l]; [done|].
    rewrite bool_decide_eq_false_2 by done. by rewrite He.
  - by rewrite G5, E6, Hd, existsb_snoc.
  - by rewrite G8, E7, Hg, existsb_snoc.
  - rewrite G6, E5. by apply positive_sum_nonnegative.
  - by rewrite G7.
  - apply G9. by rewrite E8.
  - intros Hall. change (peak_spec (l ++ [p]) (add_gpu m2 p)). apply peak_step; [done|by rewrite E7|].
    rewrite Forall_app in Hall. destruct Hall as [Hl _]. specialize (Hpeak Hl). unfold peak_spec in *.
    by rewrite E9, E10.
Qed.

(** The totals of an application group, whatever the order its processes
    are added in: the memory is the saturated sum and the count the number of
    the members, the group is stopped or efficient exactly when every member
    is, a rate is available exactly when some member has one; the sums of
    shares and rates are never negative and never NaN, whatever the members
    report; and the engine that is named is one of a member, whose share no
    other member exceeds. *)
Theorem group_totals processes : Forall (λ p, u64 (p_rss_bytes p)) processes →
  totals processes (group_metrics processes).
Proof.
  unfold group_metrics. induction processes as [|p l IH] using rev_ind; intros Hrss.
  - split; try done. intros _. split; [by left|]. split; [|done]. by intros p ?%not_elem_of_nil.
  - rewrite foldl_app. simpl. apply add_totals; [done|]. apply IH.
    by apply Forall_app in Hrss as [? _].
Qed.
End totals.

(** ** Witness *)

From S2P Require Import CommonReference.

Definition busy : LsmProcessInfo :=
  process_zero <| p_rss_bytes := uint64_max |> <| p_state := "Stopped" |> <| p_gpu_available := true |>
    <| p_gpu_engine := "render" |> <| p_gpu_percent := d100 |> <| p_cpu_percent := S754_infinity false |>.

Lemma group_totals_witness :
  gm_memory_bytes (group_metrics [busy; process_zero; busy]) = uint64_max ∧
  gm_all_stopped (group_metrics [busy; process_zero; busy]) = false ∧
  gm_gpu_engine (group_metrics [busy; process_zero; busy]) = "render".
Proof.
  destruct (group_totals [busy; process_zero; busy]) as [_ Hm Hs _ _ _ _ _ _ _].
  - by repeat (apply Forall_cons; split; [by split; vm_compute|]).
  - rewrite Hm, Hs by done. by vm_compute.
Defined.
