(* ===== verification/ProcessExport.v ===== *)
(** * ProcessExport: the CSV export of selected processes

    Models [src/src/process_export.c]: which rows of a snapshot are selected, the
    text of a row, and the whole document.  The encoding of one field is the shared
    library's ([EscapeOps]); what it promises is stated against a reader of RFC 4180
    text defined here. *)
From S2P Require Import Prelude Double CStrings Common ProcessModel.
Local Open Scope Z_scope.

(** src: process_export.h:21-29 LsmProcessExportView *)
Record LsmProcessExportView := {
  ev_processes : option (list LsmProcessInfo);           (** [None]: NULL *)
  ev_selected_pid : Z;
  ev_selected_instance_id : Z;
  ev_selected_group_pids : option (list Z);
  ev_selected_group_instance_ids : option (list Z);
  ev_selected_group_count : nat;
}.

(** ** Selection *)

(** src: process_export.c lsm_process_export_contains *)
Definition lsm_process_export_contains (view : LsmProcessExportView) (process : LsmProcessInfo) : bool :=
  if (p_pid process =? 0) || (p_instance_id process =? 0) then false
  else if (ev_selected_group_count view =? 0)%nat then
    negb (ev_selected_pid view =? 0) && negb (ev_selected_instance_id view =? 0)
    && (p_pid process =? ev_selected_pid view) && (p_instance_id process =? ev_selected_instance_id view)
  else
    match ev_selected_group_pids view, ev_selected_group_instance_ids view with
    | Some pids, Some instances =>
        existsb (λ '(pid, instance_id), (pid =? p_pid process) && (instance_id =? p_instance_id process))
          (take (ev_selected_group_count view) (zip pids instances))
    | _, _ => false
    end.

Definition selected (view : LsmProcessExportView) : list LsmProcessInfo :=
  base.filter (λ p, lsm_process_export_contains view p = true) (default [] (ev_processes view)).

(** src: process_export.c lsm_process_export_selection_count *)
Definition lsm_process_export_selection_count (view : LsmProcessExportView) : nat :=
  match ev_processes view with
  | None => 0
  | Some processes => fold_left (λ count p, if lsm_process_export_contains view p then S count else count) processes 0%nat
  end.

(** ** Text *)

Definition export_titles : list string :=
  ["Name"; "PID"; "Parent PID"; "User"; "Status"; "CPU (%)"; "CPU time (ns)";
   "Memory (bytes)"; "Threads"; "Read (bytes/s)"; "Write (bytes/s)"; "GPU (%)";
   "GPU engine"; "GPU memory (bytes)"; "Read total (bytes)"; "Write total (bytes)";
   "Handles"; "Context switches"; "Page faults"; "Priority"; "Executable"; "Command"]%string.

Definition newline : string := String nl EmptyString.

Section export.
Context `{NumberOps, EscapeOps}.

(** src: process_export.c csv_field *)
Definition csv_field (text : string) : option string := infiltratr_escape_csv_field text true.

(** The text one row writes; [None] when a value cannot be formatted or encoded. *)
(** src: process_export.c csv_row *)
Definition csv_row (process : LsmProcessInfo) : option string :=
  cpu_percent ← infiltratr_format_fixed_ascii (p_cpu_percent process) 3 64;
  read_rate ← (if p_io_rate_available process
               then infiltratr_format_fixed_ascii (p_read_bytes_per_sec process) 3 64 else Some EmptyString);
  write_rate ← (if p_io_rate_available process
                then infiltratr_format_fixed_ascii (p_write_bytes_per_sec process) 3 64 else Some EmptyString);
  gpu_percent ← (if p_gpu_available process
                 then infiltratr_format_fixed_ascii (p_gpu_percent process) 3 64 else Some EmptyString);
  name ← csv_field (p_name process);
  user ← csv_field (p_user process);
  state ← csv_field (p_state process);
  engine ← csv_field (if nonempty (p_gpu_engine process) then p_gpu_engine process else "N/A");
  priority ← csv_field (lsm_process_priority_name (p_priority process));
  executable ← csv_field (p_executable process);
  command ← csv_field (p_command process);
  Some (name +:+ "," +:+ print_u64 (p_pid process) +:+ "," +:+ print_u64 (p_ppid process) +:+ ","
    +:+ user +:+ "," +:+ state
    +:+ "," +:+ cpu_percent +:+ "," +:+ print_u64 (p_cpu_time_nanoseconds process) +:+ ","
    +:+ print_u64 (p_rss_bytes process) +:+ "," +:+ print_u64 (p_threads process) +:+ ","
    +:+ read_rate +:+ "," +:+ write_rate +:+ ","
    +:+ (if p_gpu_available process then gpu_percent else "") +:+ "," +:+ engine
    +:+ "," +:+ print_u64 (p_gpu_memory_bytes process) +:+ ","
    +:+ (if p_io_totals_available process
         then print_u64 (p_read_bytes process) +:+ "," +:+ print_u64 (p_write_bytes process) +:+ "," else ",,")
    +:+ (if p_handle_count_available process then print_u64 (p_handle_count process) +:+ "," else ",")
    +:+ print_u64 (p_context_switches process) +:+ "," +:+ print_u64 (p_page_faults process) +:+ ","
    +:+ priority +:+ "," +:+ executable +:+ "," +:+ command +:+ newline).

(** The rows of the selected processes, until one fails. *)
Fixpoint csv_rows (view : LsmProcessExportView) (processes : list LsmProcessInfo) : option string :=
  match processes with
  | [] => Some EmptyString
  | p :: processes =>
      if lsm_process_export_contains view p
      then row ← csv_row p; rest ← csv_rows view processes; Some (row +:+ rest)
      else csv_rows view processes
  end.

(** The document; [stream_ok] says that no write to the stream failed. *)
(** src: process_export.c write_process_export *)
Definition write_process_export (view : LsmProcessExportView) (stream_ok : bool) : option string :=
  rows ← csv_rows view (default [] (ev_processes view));
  if stream_ok then Some (join "," export_titles +:+ newline +:+ rows) else None.

(** The atomic writer gives 0 or an error for the outcome of its callback. *)
(** src: process_export.c lsm_process_export_write_view *)
Definition lsm_process_export_write_view (view : LsmProcessExportView) (path : string)
    (atomic_file_write : option string → Z) (strerror : Z → string) (stream_ok : bool) : bool * string :=
  if negb (nonempty path) then (false, "No destination file was selected."%string)
  else if (lsm_process_export_selection_count view =? 0)%nat
  then (false, "Select a process or application group first."%string)
  else
    let failure := atomic_file_write (write_process_export view stream_ok) in
    if failure =? 0 then (true, EmptyString) else (false, strerror failure).
End export.

(** ** Reading it back

    RFC 4180: a field in quotes, with its quotes doubled, or bare text; fields are
    separated by commas and a row ends at a newline. *)

Definition quote : ascii := "034"%char.

Fixpoint read_quoted (text : string) : option (string * string) :=
  match text with
  | EmptyString => None
  | String c text =>
      if Ascii.eqb c quote then
        match text with
        | String c' text' =>
            if Ascii.eqb c' quote
            then '(value, rest) ← read_quoted text'; Some (String quote value, rest)
            else Some (EmptyString, text)
        | EmptyString => Some (EmptyString, EmptyString)
        end
      else '(value, rest) ← read_quoted text; Some (String c value, rest)
  end.

Definition ends_field (c : ascii) : bool := Ascii.eqb c "," || Ascii.eqb c nl.

Definition read_field (text : string) : option (string * string) :=
  match text with
  | String c text' => if Ascii.eqb c quote then read_quoted text' else Some (span ends_field text)
  | EmptyString => Some (EmptyString, EmptyString)
  end.

(** A row, by the number of characters left. *)
Fixpoint read_row (fuel : nat) (text : string) : option (list string * string) :=
  match fuel with
  | O => None
  | S fuel =>
      '(value, rest) ← read_field text;
      match rest with
      | String c rest =>
          if Ascii.eqb c "," then '(values, rest) ← read_row fuel rest; Some (value :: values, rest)
          else if Ascii.eqb c nl then Some ([value], rest) else None
      | EmptyString => None
      end
  end.

Fixpoint read_rows (fuel : nat) (text : string) : option (list (list string)) :=
  match fuel, text with
  | _, EmptyString => Some []
  | O, _ => None
  | S fuel, _ => '(row, rest) ← read_row (S (String.length text)) text; rows ← read_rows fuel rest; Some (row :: rows)
  end.

Definition read_csv (text : string) : option (list (list string)) := read_rows (String.length text) text.

(** What a spreadsheet takes for a formula gets an apostrophe. *)
Definition starts_formula (text : string) : bool :=
  existsb (Ascii.eqb (char_at text 0)) ["="; "+"; "-"; "@"]%char.
Definition guard (text : string) : string := if starts_formula text then String "'" text else text.

Fixpoint drop_newlines (text : string) : string :=
  match text with
  | EmptyString => EmptyString
  | String c text => if Ascii.eqb c nl then drop_newlines text else String c (drop_newlines text)
  end.

(** Printable ASCII, and newlines behind the first character. *)
Definition printable (c : ascii) : bool := (32 <=? Ascii.nat_of_ascii c)%nat && (Ascii.nat_of_ascii c <=? 126)%nat.
Definition ordinary_text (text : string) : bool :=
  string_forallb (λ c, printable c || Ascii.eqb c nl) text
  && negb (existsb (Ascii.eqb (char_at text 0)) [nl; " "; "'"]%char).

(** infiltratr/escape.h, with hardening, as [support/tests/process_export_smoke.c]
    has it: the field is CSV and reads back as [exported] of the text.  For ordinary
    text that is the text without its newlines, guarded against formulas -
    ["@SUM(1,1)\nline"] becomes ['@SUM(1,1)line]; what becomes of other control
    characters and of other encodings is the library's. *)
Class EscapeLaws `{EscapeOps} := {
  exported : string → string;
  exported_ordinary text : ordinary_text text = true → exported text = guard (drop_newlines text);
  escape_reads_back text field rest : infiltratr_escape_csv_field text true = Some field →
    ends_field (char_at rest 0) = true → read_field (field +:+ rest) = Some (exported text, rest);
}.

(** ** Properties *)

Section export_facts.
Context `{NumberLaws, EscapeLaws}.

(** The number the row shows. *)
Definition fixed (x : double) : string := default EmptyString (infiltratr_format_fixed_ascii x 3 64).

(** The fields of a process, as a reader of the file gets them, where a text comes
    out as [show] of it. *)
Definition row_values (show : string → string) (p : LsmProcessInfo) : list string :=
  [show (p_name p); print_u64 (p_pid p); print_u64 (p_ppid p); show (p_user p); show (p_state p);
   fixed (p_cpu_percent p); print_u64 (p_cpu_time_nanoseconds p); print_u64 (p_rss_bytes p); print_u64 (p_threads p);
   if p_io_rate_available p then fixed (p_read_bytes_per_sec p) else EmptyString;
   if p_io_rate_available p then fixed (p_write_bytes_per_sec p) else EmptyString;
   if p_gpu_available p then fixed (p_gpu_percent p) else EmptyString;
   show (if nonempty (p_gpu_engine p) then p_gpu_engine p else "N/A");
   print_u64 (p_gpu_memory_bytes p);
   if p_io_totals_available p then print_u64 (p_read_bytes p) else EmptyString;
   if p_io_totals_available p then print_u64 (p_write_bytes p) else EmptyString;
   if p_handle_count_available p then print_u64 (p_handle_count p) else EmptyString;
   print_u64 (p_context_switches p); print_u64 (p_page_faults p);
   show (lsm_process_priority_name (p_priority p)); show (p_executable p); show (p_command p)].

(** Every text of the process is ordinary. *)
Definition ordinary_process (p : LsmProcessInfo) : bool :=
  ordinary_text (p_name p) && ordinary_text (p_user p) && ordinary_text (p_state p) && ordinary_text (p_gpu_engine p)
  && ordinary_text (p_executable p) && ordinary_text (p_command p).

Lemma row_values_ordinary p : ordinary_process p = true →
  row_values exported p = row_values (λ text, guard (drop_newlines text)) p.
Proof.
  unfold ordinary_process. intros Ho. bool_hyps. unfold row_values.
  rewrite !exported_ordinary by (done || (by destruct (p_priority p)) || (by destruct (nonempty (p_gpu_engine p)))).
  done.
Qed.

(** A field that reads as a value wherever it stands. *)
Definition reads (field value : string) : Prop :=
  ∀ rest, ends_field (char_at rest 0) = true → read_field (field +:+ rest) = Some (value, rest).

Definition bare (c : ascii) : bool := negb (ends_field c) && negb (Ascii.eqb c quote).

Lemma span_bare text rest : string_forallb bare text = true → ends_field (char_at rest 0) = true →
  span ends_field (text +:+ rest) = (text, rest).
Proof.
  intros Ht Hr. induction text as [|c text IH].
  - change (EmptyString +:+ rest) with rest. destruct rest as [|c rest]; [done|]. change (ends_field c = true) in Hr.
    cbn [span]. by rewrite Hr.
  - cbn [string_forallb] in Ht. apply andb_prop in Ht as [Hc Ht]. unfold bare in Hc. bool_hyps.
    change (String c text +:+ rest) with (String c (text +:+ rest)). cbn [span].
    match goal with Hf : ends_field c = false |- _ => rewrite Hf end. by rewrite IH.
Qed.

Lemma reads_bare text : string_forallb bare text = true → reads text text.
Proof.
  intros Ht rest Hr. pose proof (span_bare text rest Ht Hr) as Hs. unfold read_field.
  destruct (text +:+ rest) as [|c text'] eqn:E.
  - destruct text; [|done]. change (EmptyString +:+ rest) with rest in E. by rewrite E.
  - destruct (Ascii.eqb c quote) eqn:Hc; [|by rewrite Hs]. exfalso. apply Ascii.eqb_eq in Hc. subst c.
    destruct text as [|c text].
    + change (rest = String quote text') in E. subst rest. by vm_compute in Hr.
    + injection E as -> _. cbn [string_forallb] in Ht. apply andb_prop in Ht as [Hc _]. by vm_compute in Hc.
Qed.

Lemma bare_text (P : ascii → bool) text : (∀ c, P c = true → bare c = true) → string_forallb P text = true →
  string_forallb bare text = true.
Proof.
  intros HP. induction text as [|c text IH]; [done|]. cbn. intros Ht. apply andb_prop in Ht as [Hc Ht].
  by rewrite (HP c Hc), IH.
Qed.

Lemma existsb_char c cs : existsb (Ascii.eqb c) cs = true → c ∈ cs.
Proof. intros (d & Hd & E)%existsb_exists. apply Ascii.eqb_eq in E as ->. by apply list_elem_of_In. Qed.

Lemma reads_u64 n : 0 <= n → reads (print_u64 n) (print_u64 n).
Proof.
  intros Hn. apply reads_bare. destruct (print_u64_text n Hn) as (Ht & _). apply (bare_text is_decimal); [|done].
  intros c Hc. apply existsb_char in Hc. repeat (apply elem_of_cons in Hc as [->|Hc]; [done|]). by apply elem_of_nil in Hc.
Qed.

Lemma reads_fixed x text : infiltratr_format_fixed_ascii x 3 64 = Some text → reads text (fixed x).
Proof.
  intros Hx. unfold fixed. rewrite Hx. apply reads_bare. destruct (format_fixed_text x 3 64 text Hx) as (Ht & _).
  apply (bare_text fixed_char); [|done]. intros c Hc. apply existsb_char in Hc.
  repeat (apply elem_of_cons in Hc as [->|Hc]; [done|]). by apply elem_of_nil in Hc.
Qed.

Lemma reads_field text field : csv_field text = Some field → reads field (exported text).
Proof. intros Hf rest Hr. by apply escape_reads_back. Qed.

Lemma reads_empty : reads EmptyString EmptyString.
Proof. by apply reads_bare. Qed.

(** A row of fields reads as the row of their values. *)
Lemma read_row_join fields values rest fuel : Forall2 reads fields values → fields ≠ [] →
  (length fields <= fuel)%nat →
  read_row fuel (join "," fields +:+ newline +:+ rest) = Some (values, rest).
Proof.
  intros Hf. revert fuel. induction Hf as [|field value fields values Hread Hf IH]; intros fuel Hne Hl; [done|].
  destruct fuel as [|fuel]; [cbn in Hl; lia|]. cbn [read_row]. destruct Hf as [|field' value' fields values Hread' Hf].
  - cbn [join]. rewrite Hread by done. done.
  - change (join "," (field :: field' :: fields)) with (field +:+ "," +:+ join "," (field' :: fields)).
    rewrite !string_app_assoc. rewrite Hread by done.
    change ("," +:+ join "," (field' :: fields) +:+ newline +:+ rest)
      with (String "," (join "," (field' :: fields) +:+ newline +:+ rest)).
    cbn [mbind option_bind Ascii.eqb]. rewrite (IH fuel) by (done || (cbn in *; lia)). done.
Qed.

Lemma join_fields_length fields : (length fields <= S (String.length (join "," fields)))%nat.
Proof.
  induction fields as [|field [|field' fields] IH]; [cbn; lia..|].
  change (join "," (field :: field' :: fields)) with (field +:+ String "," (join "," (field' :: fields))).
  rewrite string_length_app. cbn [String.length length] in *. lia.
Qed.

(** The values a process can have in a [uint64_t] or [unsigned] member. *)
Definition counts_ok (p : LsmProcessInfo) : Prop :=
  0 <= p_pid p ∧ 0 <= p_ppid p ∧ 0 <= p_cpu_time_nanoseconds p ∧ 0 <= p_rss_bytes p ∧ 0 <= p_threads p ∧
  0 <= p_gpu_memory_bytes p ∧ 0 <= p_read_bytes p ∧ 0 <= p_write_bytes p ∧ 0 <= p_handle_count p ∧
  0 <= p_context_switches p ∧ 0 <= p_page_faults p.

Lemma csv_row_fields p text : counts_ok p → csv_row p = Some text →
  ∃ fields, text = join "," fields +:+ newline ∧ Forall2 reads fields (row_values exported p) ∧ fields ≠ [].
Proof.
  intros (? & ? & ? & ? & ? & ? & ? & ? & ? & ? & ?) Hrow. unfold csv_row in Hrow.
  apply bind_Some in Hrow as (cpu & Hcpu & Hrow). apply bind_Some in Hrow as (rd & Hrd & Hrow).
  apply bind_Some in Hrow as (wr & Hwr & Hrow). apply bind_Some in Hrow as (gpu & Hgpu & Hrow).
  apply bind_Some in Hrow as (name & Hname & Hrow). apply bind_Some in Hrow as (user & Huser & Hrow).
  apply bind_Some in Hrow as (state & Hstate & Hrow). apply bind_Some in Hrow as (engine & Hengine & Hrow).
  apply bind_Some in Hrow as (prio & Hprio & Hrow). apply bind_Some in Hrow as (exe & Hexe & Hrow).
  apply bind_Some in Hrow as (cmd & Hcmd & Hrow). injection Hrow as <-.
  exists [name; print_u64 (p_pid p); print_u64 (p_ppid p); user; state; cpu; print_u64 (p_cpu_time_nanoseconds p);
          print_u64 (p_rss_bytes p); print_u64 (p_threads p); rd; wr; (if p_gpu_available p then gpu else EmptyString); engine;
          print_u64 (p_gpu_memory_bytes p);
          (if p_io_totals_available p then print_u64 (p_read_bytes p) else EmptyString);
          (if p_io_totals_available p then print_u64 (p_write_bytes p) else EmptyString);
          (if p_handle_count_available p then print_u64 (p_handle_count p) else EmptyString);
          print_u64 (p_context_switches p); print_u64 (p_page_faults p); prio; exe; cmd].
  split; [|split; [|done]].
  - cbn [join]. destruct (p_io_totals_available p), (p_handle_count_available p); rewrite ?string_app_assoc; reflexivity.
  - unfold row_values. repeat (apply Forall2_cons; split).
    all: try (by apply reads_u64); try (by apply reads_field); try (by apply reads_fixed).
    + destruct (p_io_rate_available p); [by apply reads_fixed|injection Hrd as <-; apply reads_empty].
    + destruct (p_io_rate_available p); [by apply reads_fixed|injection Hwr as <-; apply reads_empty].
    + destruct (p_gpu_available p); [by apply reads_fixed|apply reads_empty].
    + destruct (p_io_totals_available p); [by apply reads_u64|apply reads_empty].
    + destruct (p_io_totals_available p); [by apply reads_u64|apply reads_empty].
    + destruct (p_handle_count_available p); [by apply reads_u64|apply reads_empty].
    + constructor.
Qed.

Lemma csv_rows_fields view processes text : Forall counts_ok processes → csv_rows view processes = Some text →
  ∃ rows, text = foldr String.append EmptyString ((λ fields, join "," fields +:+ newline) <$> rows) ∧
    Forall2 (λ fields p, Forall2 reads fields (row_values exported p) ∧ fields ≠ []) rows
      (base.filter (λ p, lsm_process_export_contains view p = true) processes).
Proof.
  intros Hc. revert text. induction Hc as [|p processes Hp Hc IH]; intros text Ht; cbn [csv_rows] in Ht.
  { injection Ht as <-. by exists []. }
  rewrite filter_cons. destruct (lsm_process_export_contains view p) eqn:Hin.
  - apply bind_Some in Ht as (row & Hrow & Ht). apply bind_Some in Ht as (rest & Hrest & Ht). injection Ht as <-.
    destruct (csv_row_fields p row Hp Hrow) as (fields & -> & Hread & Hne). destruct (IH rest Hrest) as (rows & -> & Hrows).
    exists (fields :: rows). rewrite decide_True by done. split; [done|by constructor].
  - rewrite decide_False by done. by apply IH.
Qed.

(** A document of rows reads as the rows of their values. *)
Lemma read_rows_document rows values fuel :
  Forall2 (λ fields row, Forall2 reads fields row ∧ fields ≠ []) rows values → (length rows <= fuel)%nat →
  read_rows fuel (foldr String.append EmptyString ((λ fields, join "," fields +:+ newline) <$> rows)) = Some values.
Proof.
  intros Hr. revert fuel. induction Hr as [|fields row rows values [Hf Hne] Hr IH]; intros fuel Hl; [by destruct fuel|].
  destruct fuel as [|fuel]; [cbn in Hl; lia|].
  set (rest := foldr String.append EmptyString ((λ fields, join "," fields +:+ newline) <$> rows)).
  change (read_rows (S fuel) ((join "," fields +:+ newline) +:+ rest) = Some (row :: values)). rewrite string_app_assoc.
  assert (Hfuel : (length fields <= S (String.length (join "," fields +:+ newline +:+ rest)))%nat).
  { pose proof (join_fields_length fields). rewrite string_length_app. lia. }
  assert (Hrow := read_row_join fields row rest _ Hf Hne Hfuel).
  cbn [read_rows]. destruct (join "," fields +:+ newline +:+ rest) as [|c text'] eqn:E.
  { exfalso. apply (f_equal String.length) in E. rewrite !string_length_app in E. cbn in E. lia. }
  rewrite Hrow. cbn [mbind option_bind]. rewrite IH by (cbn in Hl; lia). done.
Qed.

Lemma titles_read : Forall2 reads export_titles export_titles.
Proof. unfold export_titles. repeat (apply Forall2_cons; split; [by apply reads_bare|]). constructor. Qed.

Lemma selection_count_length view : lsm_process_export_selection_count view = length (selected view).
Proof.
  unfold lsm_process_export_selection_count, selected. destruct (ev_processes view) as [processes|]; [|done]. cbn [default].
  assert (∀ n, fold_left (λ count p, if lsm_process_export_contains view p then S count else count) processes n =
    (n + length (base.filter (λ p, lsm_process_export_contains view p = true) processes))%nat) as Hc; [|by rewrite Hc].
  induction processes as [|p processes IH]; intros n; [cbn; lia|]. cbn [fold_left]. rewrite IH, filter_cons.
  destruct (lsm_process_export_contains view p); [rewrite decide_True by done; cbn; lia|by rewrite decide_False].
Qed.

Lemma contains_spec view p :
  lsm_process_export_contains view p = true ↔
  p_pid p ≠ 0 ∧ p_instance_id p ≠ 0 ∧
  (ev_selected_group_count view = 0%nat ∧ p_pid p = ev_selected_pid view ∧ p_instance_id p = ev_selected_instance_id view ∨
   ∃ pids instances index, ev_selected_group_pids view = Some pids ∧ ev_selected_group_instance_ids view = Some instances ∧
     (index < ev_selected_group_count view)%nat ∧ pids !! index = Some (p_pid p) ∧ instances !! index = Some (p_instance_id p)).
Proof.
  unfold lsm_process_export_contains.
  destruct (Z.eqb_spec (p_pid p) 0) as [Hp|Hp]; [cbn; naive_solver|].
  destruct (Z.eqb_spec (p_instance_id p) 0) as [Hi|Hi]; [cbn; naive_solver|]. cbn [orb].
  destruct (Nat.eqb_spec (ev_selected_group_count view) 0) as [Hz|Hz].
  - rewrite !andb_true_iff, !negb_true_iff, !Z.eqb_neq, !Z.eqb_eq. split.
    + intros [[_ Hep] Hei]. split_and!; [done|done|by left].
    + intros (_ & _ & [(_ & <- & <-)|(? & ? & ? & _ & _ & Hlt & _)]); [by split_and!|lia].
  - destruct (ev_selected_group_pids view) as [pids|]; [|naive_solver].
    destruct (ev_selected_group_instance_ids view) as [instances|]; [|naive_solver].
    rewrite existsb_exists. split.
    + intros ([pid instance_id] & Hin%list_elem_of_In & Heq). apply andb_prop in Heq as [->%Z.eqb_eq ->%Z.eqb_eq].
      apply list_elem_of_lookup in Hin as [index Hin]. apply lookup_take_Some in Hin as [Hin Hlt].
      apply lookup_zip_Some in Hin as [? ?]. split_and!; [done..|]. right. exists pids, instances, index. by split_and!.
    + intros (_ & _ & [(? & _)|(? & ? & index & [= <-] & [= <-] & Hlt & Hpid & Hinst)]); [done|].
      exists (p_pid p, p_instance_id p). rewrite !Z.eqb_refl. split; [|done]. apply list_elem_of_In.
      apply list_elem_of_lookup_2 with index. apply lookup_take_Some. split; [|done]. by apply lookup_zip_Some.
Qed.

(** (C17) An export says what was selected.  Whenever [lsm_process_export_write_view]
    reports success it handed the atomic writer a document that a reader of RFC 4180
    text takes for the header and then one row of as many fields for each process
    whose PID and instance are exactly selected, in the order of the snapshot; and
    there is at least one such row.  Whatever quotes and commas a text holds its
    row has the same columns, and ordinary text comes out as it is but for its
    newlines, which are dropped, and the apostrophe in front of a formula. *)
Theorem export_reads_back view path atomic_file_write strerror stream_ok :
  atomic_file_write None ≠ 0 → Forall counts_ok (default [] (ev_processes view)) →
  (lsm_process_export_write_view view path atomic_file_write strerror stream_ok).1 = true →
  ∃ text, write_process_export view stream_ok = Some text ∧ atomic_file_write (Some text) = 0 ∧
    read_csv text = Some (export_titles :: (row_values exported <$> selected view)) ∧
    (∀ p, p ∈ selected view → ordinary_process p = true →
       row_values exported p = row_values (λ text, guard (drop_newlines text)) p) ∧
    selected view ≠ [] ∧ Forall (λ row, length row = length export_titles) (row_values exported <$> selected view) ∧
    ∀ p, p ∈ selected view ↔ p ∈ default [] (ev_processes view) ∧ p_pid p ≠ 0 ∧ p_instance_id p ≠ 0 ∧
      (ev_selected_group_count view = 0%nat ∧ p_pid p = ev_selected_pid view ∧ p_instance_id p = ev_selected_instance_id view ∨
       ∃ pids instances index, ev_selected_group_pids view = Some pids ∧ ev_selected_group_instance_ids view = Some instances ∧
         (index < ev_selected_group_count view)%nat ∧ pids !! index = Some (p_pid p) ∧ instances !! index = Some (p_instance_id p)).
Proof.
  intros Hatomic Hc. unfold lsm_process_export_write_view. destruct (negb (nonempty path)); [done|].
  rewrite selection_count_length. destruct (Nat.eqb_spec (length (selected view)) 0) as [|Hne]; [done|].
  destruct (Z.eqb_spec (atomic_file_write (write_process_export view stream_ok)) 0) as [Hz|]; [|done]. intros _.
  destruct (write_process_export view stream_ok) as [text|] eqn:Hw; [|done]. exists text. split; [done|]. split; [done|].
  unfold write_process_export in Hw. apply bind_Some in Hw as (rows_text & Hrows & Hw). destruct stream_ok; [|done].
  injection Hw as <-. destruct (csv_rows_fields view _ rows_text Hc Hrows) as (rows & -> & Hread). split_and!.
  - pose proof (read_rows_document (export_titles :: rows) (export_titles :: (row_values exported <$> selected view))
      (String.length (join "," export_titles +:+ newline +:+
         foldr String.append EmptyString ((λ fields, join "," fields +:+ newline) <$> rows)))) as Hdoc.
    unfold read_csv. rewrite <- Hdoc.
    + reflexivity.
    + constructor; [split; [apply titles_read|done]|]. apply Forall2_fmap_r. exact Hread.
    + clear. rewrite !string_length_app. change (length (export_titles :: rows)) with (S (length rows)).
      assert ((length rows <= String.length (foldr String.append EmptyString ((λ fields, join "," fields +:+ newline) <$> rows)))%nat); [|cbn; lia].
      induction rows as [|fields rows IH]; [cbn; lia|]. rewrite fmap_cons. cbn [foldr]. rewrite !string_length_app. cbn. lia.
  - intros p _. apply row_values_ordinary.
  - intros E. apply Hne. by rewrite E.
  - apply Forall_fmap, Forall_true. done.
  - intros p. unfold selected. rewrite list_elem_of_filter, contains_spec. tauto.
Qed.
End export_facts.

From S2P Require Import CommonReference.

(** A field is always quoted; a formula gets an apostrophe. *)
Fixpoint double_quotes (text : string) : string :=
  match text with
  | EmptyString => EmptyString
  | String c text => if Ascii.eqb c quote then String quote (String quote (double_quotes text)) else String c (double_quotes text)
  end.
#[local] Instance sample_escape : EscapeOps := {|
  infiltratr_escape_csv_field text hardened :=
    Some (String quote (double_quotes (if hardened : bool then guard (drop_newlines text) else text)
                        +:+ String quote EmptyString));
|}.

Lemma read_double_quotes text rest : ends_field (char_at rest 0) = true →
  read_quoted (double_quotes text +:+ String quote rest) = Some (text, rest).
Proof.
  intros Hr. induction text as [|c text IH].
  - change (read_quoted (String quote rest) = Some (EmptyString, rest)). cbn [read_quoted].
    destruct rest as [|c rest]; [done|]. rewrite Ascii.eqb_refl. destruct (Ascii.eqb c quote) eqn:E; [|done].
    apply Ascii.eqb_eq in E as ->. by vm_compute in Hr.
  - cbn [double_quotes]. destruct (Ascii.eqb c quote) eqn:E.
    + apply Ascii.eqb_eq in E as ->.
      change (read_quoted (String quote (String quote (double_quotes text +:+ String quote rest))) = Some (String quote text, rest)).
      cbn [read_quoted]. rewrite Ascii.eqb_refl. by rewrite IH.
    + change (read_quoted (String c (double_quotes text +:+ String quote rest)) = Some (String c text, rest)).
      cbn [read_quoted]. by rewrite E, IH.
Qed.

#[local] Instance sample_escape_laws : EscapeLaws.
Proof.
  refine (Build_EscapeLaws _ (λ text, guard (drop_newlines text)) _ _).
  - done.
  - intros text field rest [= <-] Hr.
    change (read_quoted ((double_quotes (guard (drop_newlines text)) +:+ String quote EmptyString) +:+ rest)
            = Some (guard (drop_newlines text), rest)).
    rewrite string_app_assoc. by apply read_double_quotes.
Defined.

Definition sample_process (pid instance_id : Z) (name : string) : LsmProcessInfo :=
  process_zero <| p_pid := pid |> <| p_instance_id := instance_id |> <| p_name := name |>.
Definition tricky_name : string := "a," +:+ String quote "b".
Definition tricky_command : string := "@SUM(1,1)" +:+ newline +:+ "line".
Definition sample_view : LsmProcessExportView :=
  {| ev_processes := Some [sample_process 7 100 tricky_name; sample_process 8 101 "other"; sample_process 9 102 "=two" <| p_command := tricky_command |>];
     ev_selected_pid := 0; ev_selected_instance_id := 0; ev_selected_group_pids := Some [9; 7];
     ev_selected_group_instance_ids := Some [102; 100]; ev_selected_group_count := 2 |}.
Definition sample_atomic (content : option string) : Z := match content with Some _ => 0 | None => 5 end.

(** The fields the smoke test of the repository looks for. *)
Example smoke_test_fields :
  csv_field "=two" = Some (String quote ("'=two" +:+ String quote EmptyString))
  ∧ csv_field tricky_command = Some (String quote ("'@SUM(1,1)line" +:+ String quote EmptyString)).
Proof. split; reflexivity. Qed.

Lemma export_reads_back_witness :
  ∃ text, write_process_export sample_view true = Some text ∧
    (fmap (M := option) (fmap (M := list) (λ row, (take 2 row, drop 21 row))) (read_csv text)) =
      Some [(["Name"; "PID"], ["Command"]); ([tricky_name; "7"], [EmptyString]); (["'=two"; "9"], ["'@SUM(1,1)line"])]%string.
Proof.
  destruct (export_reads_back sample_view "/home/u/out.csv" sample_atomic (λ _, EmptyString) true) as (text & Hw & _ & Hr & _).
  - done.
  - cbn. unfold counts_ok. repeat (apply Forall_cons; split; [cbn; lia|]). apply Forall_nil_2.
  - vm_compute. reflexivity.
  - exists text. split; [exact Hw|]. rewrite Hr. vm_compute. reflexivity.
Defined.
