(* ===== verification/MonitorTypes.v ===== *)
(** * MonitorTypes: the snapshot records shared by collectors and presentation

    Models [src/src/monitor_types.h].  Fixed [char] arrays are strings, fixed
    arrays of records are lists, unsigned integers are [Z] in range. *)
From S2P Require Import Prelude Double.
Local Open Scope Z_scope.

(** src: monitor_types.h:23-41 LSM_MAX_CPUS *)
Definition LSM_MAX_CPUS : nat := 512.
Definition LSM_MAX_DISKS : nat := 64.
Definition LSM_MAX_NETS : nat := 64.
Definition LSM_MAX_GPUS : nat := 16.
Definition LSM_MAX_PARTITIONS : nat := 64.
Definition LSM_MAX_BATTERIES : nat := 8.
Definition LSM_MAX_NPUS : nat := 16.
Definition LSM_MAX_BLUETOOTH : nat := 4.
Definition LSM_MAX_BLUETOOTH_DEVICES : nat := 32.
Definition LSM_MAX_MEMORY_MODULES : nat := 32.
Definition LSM_IDENTITY_LEN : nat := 512.

(** src: monitor_types.h:47-89 LsmCpuInfo *)
Record LsmCpuInfo := {
  cpu_model : string;
  cpu_logical_cores : Z;
  cpu_logical_cores_total : Z;
  cpu_physical_cores : Z;
  cpu_virtualization : bool;
  cpu_virtualization_available : bool;
  cpu_cache_l1 : string;
  cpu_cache_l2 : string;
  cpu_cache_l3 : string;
  cpu_usage_percent : double;
  cpu_user_percent : double;
  cpu_kernel_percent : double;
  cpu_usage_available : bool;
  cpu_frequency_ghz : double;
  cpu_frequency_available : bool;
  cpu_base_frequency_ghz : double;
  cpu_max_frequency_ghz : double;
  cpu_temperature_c : double;
  cpu_temperature_available : bool;
  cpu_temperature_warning_c : double;
  cpu_temperature_warning_available : bool;
  cpu_temperature_critical_c : double;
  cpu_temperature_critical_available : bool;
  cpu_process_count : Z;
  cpu_thread_count : Z;
  cpu_uptime_seconds : Z;
  cpu_file_handle_count : Z;
  cpu_file_handle_count_available : bool;
  cpu_load_average_1 : double;
  cpu_load_average_5 : double;
  cpu_load_average_15 : double;
  cpu_load_average_available : bool;
  cpu_interrupts_per_sec : double;
  cpu_interrupts_per_sec_available : bool;
  cpu_context_switches_per_sec : double;
  cpu_context_switches_per_sec_available : bool;
  cpu_interrupt_count : Z;
  cpu_context_switch_count : Z;
  cpu_socket_count : Z;
  cpu_numa_node_count : Z;
  cpu_core_usage : list double;
}.
#[export] Instance eta_LsmCpuInfo : Eta LsmCpuInfo := λ x,
  Build_LsmCpuInfo (cpu_model x)
    (cpu_logical_cores x)
    (cpu_logical_cores_total x)
    (cpu_physical_cores x)
    (cpu_virtualization x)
    (cpu_virtualization_available x)
    (cpu_cache_l1 x)
    (cpu_cache_l2 x)
    (cpu_cache_l3 x)
    (cpu_usage_percent x)
    (cpu_user_percent x)
    (cpu_kernel_percent x)
    (cpu_usage_available x)
    (cpu_frequency_ghz x)
    (cpu_frequency_available x)
    (cpu_base_frequency_ghz x)
    (cpu_max_frequency_ghz x)
    (cpu_temperature_c x)
    (cpu_temperature_available x)
    (cpu_temperature_warning_c x)
    (cpu_temperature_warning_available x)
    (cpu_temperature_critical_c x)
    (cpu_temperature_critical_available x)
    (cpu_process_count x)
    (cpu_thread_count x)
    (cpu_uptime_seconds x)
    (cpu_file_handle_count x)
    (cpu_file_handle_count_available x)
    (cpu_load_average_1 x)
    (cpu_load_average_5 x)
    (cpu_load_average_15 x)
    (cpu_load_average_available x)
    (cpu_interrupts_per_sec x)
    (cpu_interrupts_per_sec_available x)
    (cpu_context_switches_per_sec x)
    (cpu_context_switches_per_sec_available x)
    (cpu_interrupt_count x)
    (cpu_context_switch_count x)
    (cpu_socket_count x)
    (cpu_numa_node_count x)
    (cpu_core_usage x).

(** src: monitor_types.h:92-102 LsmMemoryModuleInfo *)
Record LsmMemoryModuleInfo := {
  mod_locator : string;
  mod_bank_locator : string;
  mod_manufacturer : string;
  mod_part_number : string;
  mod_serial_number : string;
  mod_memory_type : string;
  mod_form_factor : string;
  mod_size_bytes : Z;
  mod_speed_mhz : Z;
}.
#[export] Instance eta_LsmMemoryModuleInfo : Eta LsmMemoryModuleInfo := λ x,
  Build_LsmMemoryModuleInfo (mod_locator x)
    (mod_bank_locator x)
    (mod_manufacturer x)
    (mod_part_number x)
    (mod_serial_number x)
    (mod_memory_type x)
    (mod_form_factor x)
    (mod_size_bytes x)
    (mod_speed_mhz x).

(** src: monitor_types.h:105-128 LsmMemoryInfo *)
Record LsmMemoryInfo := {
  mem_total_bytes : Z;
  mem_available_bytes : Z;
  mem_used_bytes : Z;
  mem_free_bytes : Z;
  mem_buffers_bytes : Z;
  mem_cached_bytes : Z;
  mem_swap_total_bytes : Z;
  mem_swap_used_bytes : Z;
  mem_committed_bytes : Z;
  mem_commit_limit_bytes : Z;
  mem_kernel_reclaimable_bytes : Z;
  mem_kernel_nonreclaimable_bytes : Z;
  mem_page_tables_bytes : Z;
  mem_hardware_corrupted_bytes : Z;
  mem_speed_mhz : Z;
  mem_slots_used : Z;
  mem_slots_total : Z;
  mem_form_factor : string;
  mem_modules : list LsmMemoryModuleInfo;
  mem_module_count : Z;
  mem_module_details_available : bool;
  mem_usage_percent : double;
}.
#[export] Instance eta_LsmMemoryInfo : Eta LsmMemoryInfo := λ x,
  Build_LsmMemoryInfo (mem_total_bytes x)
    (mem_available_bytes x)
    (mem_used_bytes x)
    (mem_free_bytes x)
    (mem_buffers_bytes x)
    (mem_cached_bytes x)
    (mem_swap_total_bytes x)
    (mem_swap_used_bytes x)
    (mem_committed_bytes x)
    (mem_commit_limit_bytes x)
    (mem_kernel_reclaimable_bytes x)
    (mem_kernel_nonreclaimable_bytes x)
    (mem_page_tables_bytes x)
    (mem_hardware_corrupted_bytes x)
    (mem_speed_mhz x)
    (mem_slots_used x)
    (mem_slots_total x)
    (mem_form_factor x)
    (mem_modules x)
    (mem_module_count x)
    (mem_module_details_available x)
    (mem_usage_percent x).

(** src: monitor_types.h:131-139 LsmPartitionInfo *)
Record LsmPartitionInfo := {
  part_device : string;
  part_mount_point : string;
  part_filesystem : string;
  part_total_bytes : Z;
  part_used_bytes : Z;
  part_used_percent : Z;
  part_usage_known : bool;
}.
#[export] Instance eta_LsmPartitionInfo : Eta LsmPartitionInfo := λ x,
  Build_LsmPartitionInfo (part_device x)
    (part_mount_point x)
    (part_filesystem x)
    (part_total_bytes x)
    (part_used_bytes x)
    (part_used_percent x)
    (part_usage_known x).

(** src: monitor_types.h:142-162 LsmDiskInfo *)
Record LsmDiskInfo := {
  disk_name : string;
  disk_instance_identity : string;
  disk_model : string;
  disk_media_type : string;
  disk_connection_type : string;
  disk_size_bytes : Z;
  disk_read_bytes_per_sec : double;
  disk_write_bytes_per_sec : double;
  disk_active_percent : double;
  disk_average_response_ms : double;
  disk_read_response_ms : double;
  disk_write_response_ms : double;
  disk_queue_length : double;
  disk_read_bytes_total : Z;
  disk_write_bytes_total : Z;
  disk_in_progress_operations : Z;
  disk_system_disk : bool;
  disk_partitions : list LsmPartitionInfo;
  disk_partition_count : Z;
}.
#[export] Instance eta_LsmDiskInfo : Eta LsmDiskInfo := λ x,
  Build_LsmDiskInfo (disk_name x)
    (disk_instance_identity x)
    (disk_model x)
    (disk_media_type x)
    (disk_connection_type x)
    (disk_size_bytes x)
    (disk_read_bytes_per_sec x)
    (disk_write_bytes_per_sec x)
    (disk_active_percent x)
    (disk_average_response_ms x)
    (disk_read_response_ms x)
    (disk_write_response_ms x)
    (disk_queue_length x)
    (disk_read_bytes_total x)
    (disk_write_bytes_total x)
    (disk_in_progress_operations x)
    (disk_system_disk x)
    (disk_partitions x)
    (disk_partition_count x).

(** src: monitor_types.h:165-187 LsmNetInfo *)
Record LsmNetInfo := {
  net_name : string;
  net_instance_identity : string;
  net_ipv4 : string;
  net_ipv6 : string;
  net_mac : string;
  net_product : string;
  net_vendor : string;
  net_rx_bytes_total : Z;
  net_tx_bytes_total : Z;
  net_rx_bytes_per_sec : double;
  net_tx_bytes_per_sec : double;
  net_wireless : bool;
  net_ssid : string;
  net_access_point : string;
  net_signal_percent : double;
  net_signal_dbm : double;
  net_frequency_mhz : double;
  net_link_speed_mbps : double;
  net_utilisation_percent : double;
  net_utilisation_available : bool;
  net_connection_state : string;
}.
#[export] Instance eta_LsmNetInfo : Eta LsmNetInfo := λ x,
  Build_LsmNetInfo (net_name x)
    (net_instance_identity x)
    (net_ipv4 x)
    (net_ipv6 x)
    (net_mac x)
    (net_product x)
    (net_vendor x)
    (net_rx_bytes_total x)
    (net_tx_bytes_total x)
    (net_rx_bytes_per_sec x)
    (net_tx_bytes_per_sec x)
    (net_wireless x)
    (net_ssid x)
    (net_access_point x)
    (net_signal_percent x)
    (net_signal_dbm x)
    (net_frequency_mhz x)
    (net_link_speed_mbps x)
    (net_utilisation_percent x)
    (net_utilisation_available x)
    (net_connection_state x).

(** src: monitor_types.h:190-209 LsmBluetoothInfo *)
Record LsmBluetoothInfo := {
  bt_name : string;
  bt_address : string;
  bt_adapter_name : string;
  bt_alias : string;
  bt_connected_devices : string;
  bt_rx_bytes_total : Z;
  bt_tx_bytes_total : Z;
  bt_rx_bytes_per_sec : double;
  bt_tx_bytes_per_sec : double;
  bt_device_count : Z;
  bt_connected_count : Z;
  bt_paired_count : Z;
  bt_trusted_count : Z;
  bt_powered : bool;
  bt_discoverable : bool;
  bt_pairable : bool;
  bt_discovering : bool;
  bt_traffic_available : bool;
}.
#[export] Instance eta_LsmBluetoothInfo : Eta LsmBluetoothInfo := λ x,
  Build_LsmBluetoothInfo (bt_name x)
    (bt_address x)
    (bt_adapter_name x)
    (bt_alias x)
    (bt_connected_devices x)
    (bt_rx_bytes_total x)
    (bt_tx_bytes_total x)
    (bt_rx_bytes_per_sec x)
    (bt_tx_bytes_per_sec x)
    (bt_device_count x)
    (bt_connected_count x)
    (bt_paired_count x)
    (bt_trusted_count x)
    (bt_powered x)
    (bt_discoverable x)
    (bt_pairable x)
    (bt_discovering x)
    (bt_traffic_available x).

(** src: monitor_types.h:212-230 LsmBluetoothDeviceInfo *)
Record LsmBluetoothDeviceInfo := {
  btd_controller : string;
  btd_address : string;
  btd_name : string;
  btd_alias : string;
  btd_address_type : string;
  btd_icon : string;
  btd_modalias : string;
  btd_rx_bytes_total : Z;
  btd_tx_bytes_total : Z;
  btd_rx_bytes_per_sec : double;
  btd_tx_bytes_per_sec : double;
  btd_link_count : Z;
  btd_connected : bool;
  btd_paired : bool;
  btd_trusted : bool;
  btd_services_resolved : bool;
  btd_traffic_available : bool;
}.
#[export] Instance eta_LsmBluetoothDeviceInfo : Eta LsmBluetoothDeviceInfo := λ x,
  Build_LsmBluetoothDeviceInfo (btd_controller x)
    (btd_address x)
    (btd_name x)
    (btd_alias x)
    (btd_address_type x)
    (btd_icon x)
    (btd_modalias x)
    (btd_rx_bytes_total x)
    (btd_tx_bytes_total x)
    (btd_rx_bytes_per_sec x)
    (btd_tx_bytes_per_sec x)
    (btd_link_count x)
    (btd_connected x)
    (btd_paired x)
    (btd_trusted x)
    (btd_services_resolved x)
    (btd_traffic_available x).

(** src: monitor_types.h:233-283 LsmGpuInfo *)
Record LsmGpuInfo := {
  gpu_name : string;
  gpu_display_identifier : string;
  gpu_driver : string;
  gpu_driver_version : string;
  gpu_pci_location : string;
  gpu_active_engine : string;
  gpu_active_engine_percent : double;
  gpu_platform_identity : string;
  gpu_utilization_percent : double;
  gpu_memory_percent : double;
  gpu_memory_used_bytes : Z;
  gpu_memory_total_bytes : Z;
  gpu_temperature_c : double;
  gpu_temperature_warning_c : double;
  gpu_temperature_critical_c : double;
  gpu_core_clock_mhz : double;
  gpu_memory_clock_mhz : double;
  gpu_memory_busy_percent : double;
  gpu_encoder_percent : double;
  gpu_decoder_percent : double;
  gpu_render_percent : double;
  gpu_compute_percent : double;
  gpu_video_percent : double;
  gpu_video_enhance_percent : double;
  gpu_copy_percent : double;
  gpu_power_watts : double;
  gpu_fan_percent : double;
  gpu_supported_metrics : bool;
  gpu_utilization_available : bool;
  gpu_memory_usage_available : bool;
  gpu_memory_busy_available : bool;
  gpu_encoder_available : bool;
  gpu_decoder_available : bool;
  gpu_render_available : bool;
  gpu_compute_available : bool;
  gpu_video_available : bool;
  gpu_video_enhance_available : bool;
  gpu_copy_available : bool;
  gpu_temperature_available : bool;
  gpu_temperature_warning_available : bool;
  gpu_temperature_critical_available : bool;
  gpu_core_clock_available : bool;
  gpu_memory_clock_available : bool;
  gpu_power_available : bool;
  gpu_fan_available : bool;
  gpu_engine_metrics_capable : bool;
  gpu_shared_system_memory : bool;
  gpu_integrated_cooling : bool;
  gpu_metrics_source : string;
}.
#[export] Instance eta_LsmGpuInfo : Eta LsmGpuInfo := λ x,
  Build_LsmGpuInfo (gpu_name x)
    (gpu_display_identifier x)
    (gpu_driver x)
    (gpu_driver_version x)
    (gpu_pci_location x)
    (gpu_active_engine x)
    (gpu_active_engine_percent x)
    (gpu_platform_identity x)
    (gpu_utilization_percent x)
    (gpu_memory_percent x)
    (gpu_memory_used_bytes x)
    (gpu_memory_total_bytes x)
    (gpu_temperature_c x)
    (gpu_temperature_warning_c x)
    (gpu_temperature_critical_c x)
    (gpu_core_clock_mhz x)
    (gpu_memory_clock_mhz x)
    (gpu_memory_busy_percent x)
    (gpu_encoder_percent x)
    (gpu_decoder_percent x)
    (gpu_render_percent x)
    (gpu_compute_percent x)
    (gpu_video_percent x)
    (gpu_video_enhance_percent x)
    (gpu_copy_percent x)
    (gpu_power_watts x)
    (gpu_fan_percent x)
    (gpu_supported_metrics x)
    (gpu_utilization_available x)
    (gpu_memory_usage_available x)
    (gpu_memory_busy_available x)
    (gpu_encoder_available x)
    (gpu_decoder_available x)
    (gpu_render_available x)
    (gpu_compute_available x)
    (gpu_video_available x)
    (gpu_video_enhance_available x)
    (gpu_copy_available x)
    (gpu_temperature_available x)
    (gpu_temperature_warning_available x)
    (gpu_temperature_critical_available x)
    (gpu_core_clock_available x)
    (gpu_memory_clock_available x)
    (gpu_power_available x)
    (gpu_fan_available x)
    (gpu_engine_metrics_capable x)
    (gpu_shared_system_memory x)
    (gpu_integrated_cooling x)
    (gpu_metrics_source x).

(** src: monitor_types.h:286-320 LsmBatteryInfo *)
Record LsmBatteryInfo := {
  bat_name : string;
  bat_model : string;
  bat_manufacturer : string;
  bat_technology : string;
  bat_status : string;
  bat_health : string;
  bat_scope : string;
  bat_capacity_level : string;
  bat_serial : string;
  bat_connection : string;
  bat_battery_source : string;
  bat_device_type : string;
  bat_modalias : string;
  bat_capacity_percent : double;
  bat_supplemental_capacity_percent : double;
  bat_energy_now_wh : double;
  bat_energy_full_wh : double;
  bat_energy_design_wh : double;
  bat_power_watts : double;
  bat_voltage_volts : double;
  bat_current_amps : double;
  bat_temperature_c : double;
  bat_seconds_remaining : Z;
  bat_cycle_count : Z;
  bat_has_supplemental_capacity : bool;
  bat_on_ac_power : bool;
  bat_on_ac_power_available : bool;
  bat_is_peripheral : bool;
  bat_paired : bool;
  bat_trusted : bool;
  bat_services_resolved : bool;
  bat_bluetooth_details_available : bool;
  bat_present : bool;
}.
#[export] Instance eta_LsmBatteryInfo : Eta LsmBatteryInfo := λ x,
  Build_LsmBatteryInfo (bat_name x)
    (bat_model x)
    (bat_manufacturer x)
    (bat_technology x)
    (bat_status x)
    (bat_health x)
    (bat_scope x)
    (bat_capacity_level x)
    (bat_serial x)
    (bat_connection x)
    (bat_battery_source x)
    (bat_device_type x)
    (bat_modalias x)
    (bat_capacity_percent x)
    (bat_supplemental_capacity_percent x)
    (bat_energy_now_wh x)
    (bat_energy_full_wh x)
    (bat_energy_design_wh x)
    (bat_power_watts x)
    (bat_voltage_volts x)
    (bat_current_amps x)
    (bat_temperature_c x)
    (bat_seconds_remaining x)
    (bat_cycle_count x)
    (bat_has_supplemental_capacity x)
    (bat_on_ac_power x)
    (bat_on_ac_power_available x)
    (bat_is_peripheral x)
    (bat_paired x)
    (bat_trusted x)
    (bat_services_resolved x)
    (bat_bluetooth_details_available x)
    (bat_present x).

(** src: monitor_types.h:323-344 LsmNpuInfo *)
Record LsmNpuInfo := {
  npu_name : string;
  npu_display_identifier : string;
  npu_driver : string;
  npu_platform_identity : string;
  npu_device_identifier : string;
  npu_utilization_percent : double;
  npu_memory_percent : double;
  npu_memory_used_bytes : Z;
  npu_memory_total_bytes : Z;
  npu_temperature_c : double;
  npu_clock_mhz : double;
  npu_power_watts : double;
  npu_utilization_available : bool;
  npu_memory_used_available : bool;
  npu_memory_total_available : bool;
  npu_temperature_available : bool;
  npu_clock_available : bool;
  npu_power_available : bool;
  npu_supported_metrics : bool;
  npu_metrics_source : string;
}.
#[export] Instance eta_LsmNpuInfo : Eta LsmNpuInfo := λ x,
  Build_LsmNpuInfo (npu_name x)
    (npu_display_identifier x)
    (npu_driver x)
    (npu_platform_identity x)
    (npu_device_identifier x)
    (npu_utilization_percent x)
    (npu_memory_percent x)
    (npu_memory_used_bytes x)
    (npu_memory_total_bytes x)
    (npu_temperature_c x)
    (npu_clock_mhz x)
    (npu_power_watts x)
    (npu_utilization_available x)
    (npu_memory_used_available x)
    (npu_memory_total_available x)
    (npu_temperature_available x)
    (npu_clock_available x)
    (npu_power_available x)
    (npu_supported_metrics x)
    (npu_metrics_source x).

(** src: monitor_types.h:347-358 LsmPressureInfo *)
Record LsmPressureInfo := {
  psi_available : bool;
  psi_some_avg10 : double;
  psi_some_avg60 : double;
  psi_some_avg300 : double;
  psi_some_total_us : Z;
  psi_full_available : bool;
  psi_full_avg10 : double;
  psi_full_avg60 : double;
  psi_full_avg300 : double;
  psi_full_total_us : Z;
}.
#[export] Instance eta_LsmPressureInfo : Eta LsmPressureInfo := λ x,
  Build_LsmPressureInfo (psi_available x)
    (psi_some_avg10 x)
    (psi_some_avg60 x)
    (psi_some_avg300 x)
    (psi_some_total_us x)
    (psi_full_available x)
    (psi_full_avg10 x)
    (psi_full_avg60 x)
    (psi_full_avg300 x)
    (psi_full_total_us x).

(** src: monitor_types.h:361-386 LsmMonitor *)
Record LsmMonitor := {
  mon_cpu : LsmCpuInfo;
  mon_memory : LsmMemoryInfo;
  mon_cpu_pressure : LsmPressureInfo;
  mon_memory_pressure : LsmPressureInfo;
  mon_io_pressure : LsmPressureInfo;
  mon_disks : list LsmDiskInfo;
  mon_disk_count : Z;
  mon_disk_generation : Z;
  mon_topology_generation : Z;
  mon_nets : list LsmNetInfo;
  mon_net_count : Z;
  mon_bluetooth : list LsmBluetoothInfo;
  mon_bluetooth_count : Z;
  mon_bluetooth_devices : list LsmBluetoothDeviceInfo;
  mon_bluetooth_device_count : Z;
  mon_gpus : list LsmGpuInfo;
  mon_gpu_count : Z;
  mon_batteries : list LsmBatteryInfo;
  mon_battery_count : Z;
  mon_npus : list LsmNpuInfo;
  mon_npu_count : Z;
  mon_sample_generation : Z;
  mon_sample_monotonic_seconds : double;
  mon_backend_state : unit;
}.
#[export] Instance eta_LsmMonitor : Eta LsmMonitor := λ x,
  Build_LsmMonitor (mon_cpu x)
    (mon_memory x)
    (mon_cpu_pressure x)
    (mon_memory_pressure x)
    (mon_io_pressure x)
    (mon_disks x)
    (mon_disk_count x)
    (mon_disk_generation x)
    (mon_topology_generation x)
    (mon_nets x)
    (mon_net_count x)
    (mon_bluetooth x)
    (mon_bluetooth_count x)
    (mon_bluetooth_devices x)
    (mon_bluetooth_device_count x)
    (mon_gpus x)
    (mon_gpu_count x)
    (mon_batteries x)
    (mon_battery_count x)
    (mon_npus x)
    (mon_npu_count x)
    (mon_sample_generation x)
    (mon_sample_monotonic_seconds x)
    (mon_backend_state x).

(** ** Zero-initialised values, as [memset] and static storage leave them *)

Definition zero_LsmCpuInfo : LsmCpuInfo :=
  Build_LsmCpuInfo "" 0 0 0 false false "" "" "" d0 d0 d0 false d0 false d0 d0 d0 false d0 false d0 false 0 0 0 0 false d0 d0 d0 false d0 false d0 false 0 0 0 0 (replicate LSM_MAX_CPUS d0).

Definition zero_LsmMemoryModuleInfo : LsmMemoryModuleInfo :=
  Build_LsmMemoryModuleInfo "" "" "" "" "" "" "" 0 0.

Definition zero_LsmMemoryInfo : LsmMemoryInfo :=
  Build_LsmMemoryInfo 0 0 0 0 0 0 0 0 0 0 0 0 0 0 0 0 0 "" (replicate LSM_MAX_MEMORY_MODULES zero_LsmMemoryModuleInfo) 0 false d0.

Definition zero_LsmPartitionInfo : LsmPartitionInfo :=
  Build_LsmPartitionInfo "" "" "" 0 0 0 false.

Definition zero_LsmDiskInfo : LsmDiskInfo :=
  Build_LsmDiskInfo "" "" "" "" "" 0 d0 d0 d0 d0 d0 d0 d0 0 0 0 false (replicate LSM_MAX_PARTITIONS zero_LsmPartitionInfo) 0.

Definition zero_LsmNetInfo : LsmNetInfo :=
  Build_LsmNetInfo "" "" "" "" "" "" "" 0 0 d0 d0 false "" "" d0 d0 d0 d0 d0 false "".

Definition zero_LsmBluetoothInfo : LsmBluetoothInfo :=
  Build_LsmBluetoothInfo "" "" "" "" "" 0 0 d0 d0 0 0 0 0 false false false false false.

Definition zero_LsmBluetoothDeviceInfo : LsmBluetoothDeviceInfo :=
  Build_LsmBluetoothDeviceInfo "" "" "" "" "" "" "" 0 0 d0 d0 0 false false false false false.

Definition zero_LsmGpuInfo : LsmGpuInfo :=
  Build_LsmGpuInfo "" "" "" "" "" "" d0 "" d0 d0 0 0 d0 d0 d0 d0 d0 d0 d0 d0 d0 d0 d0 d0 d0 d0 d0 false false false false false false false false false false false false false false false false false false false false false "".

Definition zero_LsmBatteryInfo : LsmBatteryInfo :=
  Build_LsmBatteryInfo "" "" "" "" "" "" "" "" "" "" "" "" "" d0 d0 d0 d0 d0 d0 d0 d0 d0 0 0 false false false false false false false false false.

Definition zero_LsmNpuInfo : LsmNpuInfo :=
  Build_LsmNpuInfo "" "" "" "" "" d0 d0 0 0 d0 d0 d0 false false false false false false false "".

Definition zero_LsmPressureInfo : LsmPressureInfo :=
  Build_LsmPressureInfo false d0 d0 d0 0 false d0 d0 d0 0.

Definition zero_LsmMonitor : LsmMonitor :=
  Build_LsmMonitor zero_LsmCpuInfo zero_LsmMemoryInfo zero_LsmPressureInfo zero_LsmPressureInfo zero_LsmPressureInfo (replicate LSM_MAX_DISKS zero_LsmDiskInfo) 0 0 0 (replicate LSM_MAX_NETS zero_LsmNetInfo) 0 (replicate LSM_MAX_BLUETOOTH zero_LsmBluetoothInfo) 0 (replicate LSM_MAX_BLUETOOTH_DEVICES zero_LsmBluetoothDeviceInfo) 0 (replicate LSM_MAX_GPUS zero_LsmGpuInfo) 0 (replicate LSM_MAX_BATTERIES zero_LsmBatteryInfo) 0 (replicate LSM_MAX_NPUS zero_LsmNpuInfo) 0 0 d0 tt.
