(* ===== verification/StartupEntries.v ===== *)
(** * StartupEntries: startup applications and their reversible overrides

    Models [src/src/startup_backend_linux.c].  The inventory scans the autostart
    directory of the user and then those of the system; a file name seen once hides
    every later file of that name.  Disabling or enabling an entry never edits it:
    a copy with two keys changed is written under the same name into the directory
    of the user.

    An entry is effective when it is [switched_on] and [may_run]: the declarative
    form of the two keys a switch writes and of the three it leaves alone.

    GLib's key files ([KeyFileOps]), the file system ([AutostartFs]) and the
    environment are arguments. *)
From S2P Require Import Prelude CStrings Common ProcessModel.
Local Open Scope Z_scope.

(** src: startup_backend.h:23-32 LsmStartupEntry *)
Record LsmStartupEntry := {
  se_id : string;
  se_source_identity : string;
  se_origin_identity : string;
  se_name : string;
  se_command : string;
  se_description : string;
  se_user_entry : bool;
  se_enabled : bool;
}.

(** ** Key files

    [K] are loaded key files and [C] the contents of files; getters give [None]
    where GLib sets an error.  All keys are of the group [Desktop Entry]. *)
Class KeyFileOps (K C : Type) := {
  (** contents, whether comments are kept *)
  key_file_load : C → bool → option K;
  key_file_data : K → option C;
  key_file_boolean : K → string → option bool;
  key_file_string : K → string → option string;
  key_file_set_boolean : K → string → bool → K;
}.

Class KeyFileLaws (K C : Type) `{KeyFileOps K C} : Prop := {
  set_boolean_same k key b : key_file_boolean (key_file_set_boolean k key b) key = Some b;
  set_boolean_other k key key' b : key ≠ key' →
    key_file_boolean (key_file_set_boolean k key b) key' = key_file_boolean k key' ∧
    key_file_string (key_file_set_boolean k key b) key' = key_file_string k key';
  (** what is written can be read back *)
  load_data k data : key_file_data k = Some data → ∃ k', key_file_load data false = Some k' ∧
    ∀ key, key_file_boolean k' key = key_file_boolean k key ∧ key_file_string k' key = key_file_string k key;
  (** comments carry no key *)
  load_comments data k : key_file_load data true = Some k → ∃ k', key_file_load data false = Some k' ∧
    ∀ key, key_file_boolean k' key = key_file_boolean k key ∧ key_file_string k' key = key_file_string k key;
}.

(** infiltratr/core.h: suffix test. *)
Class SuffixOps := { lsm_string_ends_with : string → string → bool }.

(** ** The surroundings *)

(** [opendir] and the [readdir] loop: the names in order, and whether every read
    and the close succeeded. *)
Inductive DirectoryListing :=
  | NO_DIRECTORY                                         (** ENOENT *)
  | UNREADABLE
  | LISTING (names : list string) (complete : bool).

Record AutostartFs (C : Type) := {
  fs_list : string → DirectoryListing;
  fs_read : string → option C;
}.
Arguments fs_list {C}.
Arguments fs_read {C}.

Record Environment := {
  env_current_desktop : option string;                   (** XDG_CURRENT_DESKTOP *)
  env_path : option string;                              (** PATH *)
  env_config_home : option string;                       (** lsm_xdg_config_home *)
  env_config_dirs : option string;                       (** XDG_CONFIG_DIRS *)
  env_regular_executable : string → bool;                (** stat, S_ISREG and access *)
}.

(** [g_strsplit(text, separator, -1)]; no tokens for the empty text. *)
Definition g_strsplit_all (separator : ascii) (text : string) : list string :=
  if nonempty text then g_strsplit separator text (S (String.length text)) else [].

Section startup.
Context {K C : Type} `{KeyFileOps K C, TextOps, SuffixOps}.
Context (env : Environment).

(** ** Desktop entries *)

(** src: startup_backend_linux.c desktop_boolean *)
Definition desktop_boolean (file : K) (key : string) (fallback : bool) : bool :=
  default fallback (key_file_boolean file key).

(** src: startup_backend_linux.c desktop_string *)
Definition desktop_string (file : K) (key : string) : string :=
  default EmptyString (key_file_string file key).

(** src: startup_backend_linux.c current_desktop_matches *)
Definition current_desktop_matches (candidate : string) : bool :=
  if negb (nonempty candidate) then false else
  match env_current_desktop env with
  | Some current => if nonempty current then existsb (λ item, strcmp_eq item candidate) (g_strsplit_all ":" current) else false
  | None => false
  end.

(** src: startup_backend_linux.c desktop_environment_allows *)
Definition desktop_environment_allows (file : K) : bool :=
  let listed text := existsb (λ item, nonempty item && current_desktop_matches item) (g_strsplit_all ";" text) in
  let only := desktop_string file "OnlyShowIn" in
  if nonempty only && negb (listed only) then false
  else negb (listed (desktop_string file "NotShowIn")).

(** src: startup_backend_linux.c executable_file *)
Definition executable_file (path : string) : bool := env_regular_executable env path.

(** src: startup_backend_linux.c executable_in_path *)
Definition executable_in_path (name : string) : bool :=
  if negb (nonempty name) then false else
  if negb (no_char "/" name) then executable_file name else
  match env_path env with
  | None => false
  | Some path =>
      if negb (nonempty path) then executable_file name else
      existsb (λ item,
        match lsm_join_path LSM_PATH_LEN (if nonempty item then item else ".") name with
        | Some candidate => executable_file candidate
        | None => false
        end) (g_strsplit_all ":" path)
  end.

(** src: startup_backend_linux.c try_exec_available *)
Definition try_exec_available (file : K) : bool :=
  let try_exec := desktop_string file "TryExec" in negb (nonempty try_exec) || executable_in_path try_exec.

(** src: startup_backend_linux.c load_startup_entry *)
Definition load_startup_entry (fs : AutostartFs C) (path id : string) (user_entry : bool) : option LsmStartupEntry :=
  match fs_read fs path ≫= λ content, key_file_load content false with
  | None => None
  | Some file =>
      let type := desktop_string file "Type" in
      if nonempty type && negb (strcmp_eq type "Application") then None else
      let name := desktop_string file "Name" in
      let hidden := desktop_boolean file "Hidden" false in
      let gnome_enabled := desktop_boolean file "X-GNOME-Autostart-enabled" true in
      Some {| se_id := lsm_copy_string LSM_NAME_LEN id;
              se_source_identity := lsm_copy_string LSM_PATH_LEN path;
              se_origin_identity := lsm_copy_string LSM_PATH_LEN path;
              se_name := lsm_copy_string LSM_NAME_LEN (if nonempty name then name else id);
              se_command := lsm_copy_string 1024 (desktop_string file "Exec");
              se_description := lsm_copy_string 512 (desktop_string file "Comment");
              se_user_entry := user_entry;
              se_enabled := negb hidden && gnome_enabled && desktop_environment_allows file && try_exec_available file |}
  end.

(** ** The inventory *)

Context (reserve : nat → bool).   (** [lsm_array_reserve] for that many entries *)

Definition desktop_file_name (name : string) : bool :=
  (8 <? String.length name)%nat && lsm_string_ends_with name ".desktop".

(** What a scan leaves: the names seen, the entries, and whether it succeeded. *)
Record ScanState := { sc_seen : gset string; sc_entries : list LsmStartupEntry; sc_complete : bool }.

(** The [readdir] loop over the rest of the names. *)
(** src: startup_backend_linux.c:217-246 scan_directory *)
Fixpoint scan_names (fs : AutostartFs C) (directory : string) (user_entry : bool) (names : list string)
    (seen : gset string) (entries : list LsmStartupEntry) (complete : bool) : ScanState :=
  match names with
  | [] => Build_ScanState seen entries complete
  | name :: names =>
      if negb (desktop_file_name name) || bool_decide (name ∈ seen)
      then scan_names fs directory user_entry names seen entries complete
      else
        let seen := {[ name ]} ∪ seen in
        match lsm_join_path LSM_PATH_LEN directory name with
        | None => Build_ScanState seen entries false
        | Some path =>
            match load_startup_entry fs path name user_entry with
            | Some entry =>
                if reserve (length entries + 1)
                then scan_names fs directory user_entry names seen (entries ++ [entry]) complete
                else Build_ScanState seen entries false
            | None => scan_names fs directory user_entry names seen entries complete
            end
        end
  end.

(** src: startup_backend_linux.c scan_directory *)
Definition scan_directory (fs : AutostartFs C) (directory : string) (user_entry : bool) (seen : gset string)
    (entries : list LsmStartupEntry) : ScanState :=
  match fs_list fs directory with
  | NO_DIRECTORY => Build_ScanState seen entries true
  | UNREADABLE => Build_ScanState seen entries false
  | LISTING names complete => scan_names fs directory user_entry names seen entries complete
  end.

(** src: startup_backend_linux.c:285-296 lsm_startup_backend_collect *)
Fixpoint scan_system (fs : AutostartFs C) (directories : list string) (seen : gset string)
    (entries : list LsmStartupEntry) : option (list LsmStartupEntry) :=
  match directories with
  | [] => Some entries
  | directory :: directories =>
      match lsm_join_path LSM_PATH_LEN directory "autostart" with
      | None => None
      | Some path =>
          let scan := scan_directory fs path false seen entries in
          if sc_complete scan then scan_system fs directories (sc_seen scan) (sc_entries scan) else None
      end
  end.

Definition user_directory : option string :=
  env_config_home env ≫= λ home, lsm_join_path LSM_PATH_LEN home "autostart".

Definition system_directories : list string :=
  let dirs := match env_config_dirs env with Some dirs => if nonempty dirs then dirs else "/etc/xdg"%string
                                           | None => "/etc/xdg"%string end in
  strtok_all (is_char ":") dirs.

(** [None]: the inventory could not be completed. *)
(** src: startup_backend_linux.c lsm_startup_backend_collect *)
Definition lsm_startup_backend_collect (fs : AutostartFs C) : option (list LsmStartupEntry) :=
  match user_directory with
  | None => None
  | Some directory =>
      let scan := scan_directory fs directory true ∅ [] in
      if sc_complete scan then scan_system fs system_directories (sc_seen scan) (sc_entries scan) else None
  end.

(** ** Overrides *)

(** The file written: its directory, its path and its contents. *)
Record Override := { ov_directory : string; ov_target : string; ov_data : C }.

(** Up to the atomic write; the directory's creation may fail. *)
(** src: startup_backend_linux.c write_startup_override *)
Definition write_startup_override (fs : AutostartFs C) (created : string → bool) (source_path desktop_id : string)
    (enable : bool) : option Override :=
  match fs_read fs source_path ≫= λ content, key_file_load content true with
  | None => None
  | Some file =>
      let file := key_file_set_boolean file "Hidden" (negb enable) in
      let file := key_file_set_boolean file "X-GNOME-Autostart-enabled" enable in
      match key_file_data file with
      | None => None
      | Some data =>
          match user_directory with
          | None => None
          | Some directory =>
              if negb (created directory) then None else
              match lsm_join_path LSM_PATH_LEN directory desktop_id with
              | None => None
              | Some target => Some (Build_Override directory target data)
              end
          end
      end
  end.

(** The refusals of an identity that is not one file name inside the directory. *)
(** src: startup_backend_linux.c:375-381 lsm_startup_backend_set_enabled *)
Definition valid_identity (id source_identity source : string) : bool :=
  nonempty id && (String.length id <? LSM_NAME_LEN)%nat && lsm_string_ends_with id ".desktop"
  && (8 <? String.length id)%nat && no_char "/" id && no_char "\" id
  && nonempty source_identity && nonempty source
  && strcmp_eq (lsm_path_basename source_identity) id && strcmp_eq (lsm_path_basename source) id.

(** src: startup_backend_linux.c lsm_startup_backend_set_enabled *)
Definition lsm_startup_backend_set_enabled (fs : AutostartFs C) (created : string → bool)
    (id source_identity origin_identity : string) (enabled : bool) : option Override :=
  let source := if nonempty origin_identity then origin_identity else source_identity in
  if negb (valid_identity id source_identity source) then None
  else write_startup_override fs created source id enabled.
End startup.

(** ** Precedence *)

(** Two conditionals on equivalent tests. *)
Ltac same_test :=
  match goal with
  | |- (if bool_decide ?P then _ else _) = (if bool_decide ?Q then _ else _) =>
      let Hiff := fresh in assert (Hiff : P ↔ Q); [|by rewrite (bool_decide_ext P Q Hiff)]
  end.

Section precedence.
Context {K C : Type} `{KeyFileOps K C, TextLaws, SuffixOps}.
Context (env : Environment) (reserve : nat → bool).

(** The desktop files of a directory. *)
Definition listed (fs : AutostartFs C) (directory : string) : list string :=
  match fs_list fs directory with
  | LISTING names _ => base.filter (λ name, desktop_file_name name = true) names
  | _ => []
  end.

(** [readdir] gives names, not paths. *)
Definition fs_ok (fs : AutostartFs C) : Prop :=
  ∀ directory names complete, fs_list fs directory = LISTING names complete → Forall (λ name, no_char "/" name = true) names.

Definition entry_at (fs : AutostartFs C) (directory : string) (user_entry : bool) (name : string) : option LsmStartupEntry :=
  match lsm_join_path LSM_PATH_LEN directory name with
  | Some path => load_startup_entry env fs path name user_entry
  | None => None
  end.

(** The file name an entry stands for. *)
Definition entry_key (entry : LsmStartupEntry) : string := lsm_path_basename (se_source_identity entry).

(** The first directory that has the name decides, even when its file is broken. *)
Fixpoint decided (fs : AutostartFs C) (directories : list (string * bool)) (name : string) : option (option LsmStartupEntry) :=
  match directories with
  | [] => None
  | (directory, user_entry) :: directories =>
      if bool_decide (name ∈ listed fs directory) then Some (entry_at fs directory user_entry name)
      else decided fs directories name
  end.

(** The system's directories in order, for those that have a path. *)
Definition system_path : list (string * bool) :=
  omap (λ directory, (λ path, (path, false)) <$> lsm_join_path LSM_PATH_LEN directory "autostart") (system_directories env).

(** What a scan has found so far: each name seen, with its entry if it has one. *)
Record scan_rel (seen : gset string) (entries : list LsmStartupEntry) (found : gmap string (option LsmStartupEntry)) : Prop := {
  sr_seen : dom found = seen;
  sr_entries entry : entry ∈ entries ↔ found !! entry_key entry = Some (Some entry);
  sr_distinct : NoDup (entry_key <$> entries);
}.

Lemma load_entry_key fs path name user_entry entry : no_char "/" name = true →
  (String.length path < LSM_PATH_LEN)%nat → lsm_path_basename path = name →
  load_startup_entry env fs path name user_entry = Some entry →
  entry_key entry = name ∧ se_source_identity entry = path ∧ se_origin_identity entry = path ∧
  se_id entry = lsm_copy_string LSM_NAME_LEN name.
Proof.
  intros Hn Hl Hb. unfold load_startup_entry. destruct (fs_read fs path ≫= _) as [file|]; [|done].
  destruct (_ && _); [done|]. intros [= <-]. unfold entry_key. cbn. by rewrite copy_string_fits.
Qed.

Lemma scan_names_spec fs directory user_entry names seen entries complete found :
  Forall (λ name, no_char "/" name = true) names → scan_rel seen entries found →
  let scan := scan_names env reserve fs directory user_entry names seen entries complete in
  sc_complete scan = true →
  ∃ found', scan_rel (sc_seen scan) (sc_entries scan) found' ∧
    ∀ name, found' !! name =
      match found !! name with
      | Some known => Some known
      | None => if bool_decide (name ∈ base.filter (λ name, desktop_file_name name = true) names)
                then Some (entry_at fs directory user_entry name) else None
      end.
Proof.
  intros Hnames. revert seen entries found. induction Hnames as [|name names Hname Hnames IH]; intros seen entries found Hrel scan Hc; subst scan.
  { exists found. split; [done|]. intros name. destruct (found !! name) as [known|]; [done|].
    by rewrite bool_decide_eq_false_2 by apply not_elem_of_nil. }
  cbn [scan_names] in *. destruct (negb (desktop_file_name name) || bool_decide (name ∈ seen)) eqn:Hskip.
  { destruct (IH seen entries found Hrel Hc) as (found' & Hrel' & Hf). exists found'. split; [done|].
    intros name'. rewrite Hf. destruct (found !! name') as [known|] eqn:Hk; [done|]. same_test.
    rewrite filter_cons. apply orb_true_iff in Hskip as [Hd|Hs].
    - rewrite decide_False; [done|]. intros Ht. by rewrite Ht in Hd.
    - apply bool_decide_eq_true in Hs. destruct Hrel as [Hdom _ _]. rewrite <- Hdom in Hs. apply elem_of_dom in Hs as [x Hx].
      case_decide; [|done]. rewrite elem_of_cons. split; [by right|]. intros [->|?]; [congruence|done]. }
  apply orb_false_iff in Hskip as [Hd Hs]. apply negb_false_iff in Hd. apply bool_decide_eq_false in Hs.
  assert (Hunseen : found !! name = None).
  { apply not_elem_of_dom. destruct Hrel as [Hdom _ _]. by rewrite Hdom. }
  assert (Hnext : ∀ entries1, scan_rel ({[name]} ∪ seen) entries1 (<[name := entry_at fs directory user_entry name]> found) →
    sc_complete (scan_names env reserve fs directory user_entry names ({[name]} ∪ seen) entries1 complete) = true →
    ∃ found', scan_rel
        (sc_seen (scan_names env reserve fs directory user_entry names ({[name]} ∪ seen) entries1 complete))
        (sc_entries (scan_names env reserve fs directory user_entry names ({[name]} ∪ seen) entries1 complete)) found' ∧
      ∀ name0, found' !! name0 = match found !! name0 with
        | Some known => Some known
        | None => if bool_decide (name0 ∈ base.filter (λ name, desktop_file_name name = true) (name :: names))
                  then Some (entry_at fs directory user_entry name0) else None end).
  { intros entries1 Hrel1 Hc1. destruct (IH _ _ _ Hrel1 Hc1) as (found' & Hrel' & Hf). exists found'. split; [done|].
    intros name'. rewrite Hf, filter_cons, decide_True by done. destruct (decide (name' = name)) as [->|Hne].
    - rewrite lookup_insert_eq, Hunseen, bool_decide_eq_true_2; [done|]. left.
    - rewrite lookup_insert_ne by done. destruct (found !! name'); [done|]. same_test.
      rewrite elem_of_cons. naive_solver. }
  destruct (lsm_join_path LSM_PATH_LEN directory name) as [path|] eqn:Hjoin; [|done].
  assert (Hat : entry_at fs directory user_entry name = load_startup_entry env fs path name user_entry).
  { unfold entry_at. by rewrite Hjoin. }
  destruct (join_path_spec LSM_PATH_LEN directory name path Hjoin) as [Hlen Hbase].
  destruct Hrel as [Hdom He Hdist].
  destruct (load_startup_entry env fs path name user_entry) as [entry|] eqn:Hload.
  - destruct (reserve (length entries + 1)); [|done]. apply Hnext; [|done].
    destruct (load_entry_key fs path name user_entry entry Hname Hlen (Hbase Hname) Hload) as (Hkey & _).
    rewrite Hat. split.
    + by rewrite dom_insert_L, Hdom.
    + intros e. rewrite elem_of_app, list_elem_of_singleton, He. destruct (decide (entry_key e = name)) as [Hek|Hek].
      * rewrite Hek, lookup_insert_eq, Hunseen. split; [intros [?|?]; congruence|intros [= ->]; by right].
      * rewrite lookup_insert_ne by done. split; [intros [?|?]; [done|congruence]|by left].
    + rewrite fmap_app. apply NoDup_app. split_and!; [done| |apply NoDup_singleton].
      intros k (e & -> & Hin)%list_elem_of_fmap Hk. apply list_elem_of_singleton in Hk. apply He in Hin. rewrite Hk, Hkey in Hin. congruence.
  - apply Hnext; [|done]. rewrite Hat. split; [by rewrite dom_insert_L, Hdom| |done].
    intros e. rewrite He. destruct (decide (entry_key e = name)) as [Hek|Hek].
    + rewrite Hek, lookup_insert_eq, Hunseen. done.
    + by rewrite lookup_insert_ne.
Qed.

Lemma scan_directory_spec fs directory user_entry seen entries found : fs_ok fs → scan_rel seen entries found →
  let scan := scan_directory env reserve fs directory user_entry seen entries in
  sc_complete scan = true →
  ∃ found', scan_rel (sc_seen scan) (sc_entries scan) found' ∧
    ∀ name, found' !! name =
      match found !! name with
      | Some known => Some known
      | None => if bool_decide (name ∈ listed fs directory) then Some (entry_at fs directory user_entry name) else None
      end.
Proof.
  intros Hok Hrel. unfold scan_directory, listed. destruct (fs_list fs directory) as [| |names complete] eqn:Hl; intros Hc.
  - exists found. split; [done|]. intros name. by destruct (found !! name).
  - done.
  - apply (scan_names_spec fs directory user_entry names seen entries complete found (Hok _ _ _ Hl) Hrel Hc).
Qed.

Lemma scan_system_spec fs directories seen entries found entries' : fs_ok fs → scan_rel seen entries found →
  scan_system env reserve fs directories seen entries = Some entries' →
  ∃ seen' found', scan_rel seen' entries' found' ∧
    ∀ name, found' !! name =
      match found !! name with
      | Some known => Some known
      | None => decided fs (omap (λ directory, (λ path, (path, false)) <$> lsm_join_path LSM_PATH_LEN directory "autostart") directories) name
      end.
Proof.
  intros Hok. revert seen entries found. induction directories as [|directory directories IH]; intros seen entries found Hrel Hs.
  { injection Hs as <-. exists seen, found. split; [done|]. intros name. by destruct (found !! name). }
  cbn [scan_system] in Hs. cbn [omap list_omap]. destruct (lsm_join_path LSM_PATH_LEN directory "autostart") as [path|]; [|done].
  pose proof (scan_directory_spec fs path false seen entries found Hok Hrel) as Hd. cbn zeta in Hd.
  destruct (sc_complete _); [|done]. destruct (Hd eq_refl) as (found1 & Hrel1 & Hf1).
  destruct (IH _ _ _ Hrel1 Hs) as (seen' & found' & Hrel' & Hf'). exists seen', found'. split; [done|].
  intros name. rewrite Hf', Hf1. cbn [fmap option_fmap option_map decided].
  destruct (found !! name); [done|]. by destruct (bool_decide _).
Qed.

(** The inventory: one entry per name at most, decided by the first directory. *)
Lemma collect_spec fs entries : fs_ok fs → lsm_startup_backend_collect env reserve fs = Some entries →
  ∃ directory, user_directory env = Some directory ∧ NoDup (entry_key <$> entries) ∧
    ∀ entry, entry ∈ entries ↔ decided fs ((directory, true) :: system_path) (entry_key entry) = Some (Some entry).
Proof.
  intros Hok. unfold lsm_startup_backend_collect. destruct (user_directory env) as [directory|]; [|done].
  intros Hc. exists directory. split; [done|].
  assert (Hempty : scan_rel ∅ [] ∅).
  { split; [apply dom_empty_L| |constructor]. intros entry. rewrite lookup_empty. split; [by intros ?%elem_of_nil|done]. }
  pose proof (scan_directory_spec fs directory true ∅ [] ∅ Hok Hempty) as Hd. cbn zeta in Hd.
  destruct (sc_complete _); [|done]. destruct (Hd eq_refl) as (found1 & Hrel1 & Hf1).
  destruct (scan_system_spec fs _ _ _ _ _ Hok Hrel1 Hc) as (seen' & found' & [_ He Hn] & Hf'). split; [done|].
  intros entry. rewrite He, Hf', Hf1, lookup_empty. cbn [decided]. by destruct (bool_decide _).
Qed.
End precedence.

(** (C26) An autostart file hides every later one of its name.  When the inventory
    is complete it has at most one entry per file name, and exactly the entries of
    the first directory - the user's before the system's, in their order - that
    has a file of that name; a broken or foreign file there does not let a later
    one through. *)
Theorem startup_precedence {K C : Type} `{KeyFileOps K C, TextLaws, SuffixOps}
    (env : Environment) (reserve : nat → bool) (fs : AutostartFs C) (entries : list LsmStartupEntry) :
  fs_ok fs → lsm_startup_backend_collect (K := K) env reserve fs = Some entries →
  ∃ directory, user_directory env = Some directory ∧ NoDup (entry_key <$> entries) ∧
    ∀ entry, entry ∈ entries ↔
      decided (K := K) env fs ((directory, true) :: system_path env) (entry_key entry) = Some (Some entry).
Proof. intros Hok Hc. by eapply collect_spec. Qed.

(** ** What makes an entry effective *)

Section effective.
Context {K C : Type} `{KeyFileOps K C, TextLaws, SuffixOps}.
Context (env : Environment).
Implicit Types file : K.

(** The key file behind a path, as the inventory loads it. *)
Definition file_at (fs : AutostartFs C) (path : string) : option K :=
  fs_read fs path ≫= λ content, key_file_load content false.

(** A list of desktops names one of those running now. *)
Definition names_desktop (file : K) (key : string) : Prop :=
  ∃ desktop, desktop ≠ EmptyString ∧ desktop ∈ g_strsplit_all ";" (desktop_string file key) ∧
    desktop ∈ g_strsplit_all ":" (default EmptyString (env_current_desktop env)).

(** The files a program name stands for: itself when it is a path or the search
    path is set but empty, and else the file of that name in each directory. *)
Definition program_files (name : string) : list string :=
  if negb (no_char "/" name) then [name] else
  match env_path env with
  | None => []
  | Some EmptyString => [name]
  | Some path => omap (λ item, lsm_join_path LSM_PATH_LEN (match item with EmptyString => "."%string | _ => item end) name)
                      (g_strsplit_all ":" path)
  end.

(** The desktop entry specification: the file may run here unless it asks for
    other desktops, excludes this one, or its program is not installed. *)
Record may_run (file : K) : Prop := {
  mr_only : desktop_string file "OnlyShowIn" ≠ EmptyString → names_desktop file "OnlyShowIn";
  mr_not : ¬ names_desktop file "NotShowIn";
  mr_try_exec : desktop_string file "TryExec" ≠ EmptyString →
    ∃ path, path ∈ program_files (desktop_string file "TryExec") ∧ env_regular_executable env path = true;
}.

(** Neither of the two keys a switch writes turns it off. *)
Definition switched_on (file : K) : Prop :=
  key_file_boolean file "Hidden" ≠ Some true ∧ key_file_boolean file "X-GNOME-Autostart-enabled" ≠ Some false.

Lemma nonempty_ne (text : string) : nonempty text = true ↔ text ≠ EmptyString.
Proof. destruct text; naive_solver. Qed.

Lemma current_desktop_matches_true candidate : current_desktop_matches env candidate = true ↔
  candidate ≠ EmptyString ∧ candidate ∈ g_strsplit_all ":" (default EmptyString (env_current_desktop env)).
Proof.
  unfold current_desktop_matches. destruct (nonempty candidate) eqn:Hc; cbn [negb].
  2: { destruct candidate; naive_solver. }
  apply nonempty_ne in Hc.
  destruct (env_current_desktop env) as [current|]; cbn [default from_option id]; [|split; [done|intros [_ Hin]; by apply elem_of_nil in Hin]].
  destruct (nonempty current) eqn:Hn.
  - rewrite existsb_exists. split.
    + intros (item & Hin & ->%strcmp_eq_true). split; [done|]. by apply list_elem_of_In.
    + intros [_ Hin%list_elem_of_In]. exists candidate. by rewrite strcmp_eq_true.
  - unfold g_strsplit_all. rewrite Hn. split; [done|intros [_ Hin]; by apply elem_of_nil in Hin].
Qed.

Lemma names_desktop_true file key :
  existsb (λ item, nonempty item && current_desktop_matches env item) (g_strsplit_all ";" (desktop_string file key)) = true ↔
  names_desktop file key.
Proof.
  rewrite existsb_exists. unfold names_desktop. split; intros (item & Ha & Hb); exists item.
  - apply andb_prop in Hb as [_ (? & ?)%current_desktop_matches_true]. split_and!; [done|by apply list_elem_of_In|done].
  - destruct Hb as [Hb1 Hb2]. split; [by apply list_elem_of_In|]. apply andb_true_intro.
    by rewrite nonempty_ne, current_desktop_matches_true.
Qed.

Lemma executable_in_path_true name : name ≠ EmptyString → executable_in_path env name = true ↔
  ∃ path, path ∈ program_files name ∧ env_regular_executable env path = true.
Proof.
  intros Hname. unfold executable_in_path, program_files. rewrite (proj2 (nonempty_ne name) Hname). cbn [negb].
  assert (Hself : executable_file env name = true ↔ ∃ path, path ∈ [name] ∧ env_regular_executable env path = true).
  { unfold executable_file. split; [intros He; exists name; split; [left|done]|].
    by intros (path & ->%list_elem_of_singleton & He). }
  assert (Hnone : false = true ↔ ∃ path, path ∈ @nil string ∧ env_regular_executable env path = true).
  { split; [done|]. by intros (path & Hin%elem_of_nil & _). }
  destruct (negb (no_char "/" name)); [exact Hself|]. destruct (env_path env) as [path|]; [|exact Hnone].
  destruct path as [|c path]; [exact Hself|]. cbn [nonempty negb]. rewrite existsb_exists. split.
  - intros (item & Hin & He). destruct (lsm_join_path _ _ name) as [candidate|] eqn:Hj; [|done].
    exists candidate. split; [|exact He]. apply list_elem_of_omap. exists item.
    split; [by apply list_elem_of_In|]. by destruct item.
  - intros (candidate & (item & Hin & Hj)%list_elem_of_omap & He). exists item.
    split; [by apply list_elem_of_In|]. destruct item; cbn [nonempty]; by rewrite Hj.
Qed.

Lemma may_run_true file : desktop_environment_allows env file && try_exec_available env file = true ↔ may_run file.
Proof.
  unfold desktop_environment_allows, try_exec_available. rewrite andb_true_iff, orb_true_iff, negb_true_iff.
  assert (Hnot : negb (existsb (λ item, nonempty item && current_desktop_matches env item)
    (g_strsplit_all ";" (desktop_string file "NotShowIn"))) = true ↔ ¬ names_desktop file "NotShowIn").
  { rewrite negb_true_iff, <- not_true_iff_false. by rewrite names_desktop_true. }
  assert (Hexec : nonempty (desktop_string file "TryExec") = false ∨ executable_in_path env (desktop_string file "TryExec") = true ↔
    (desktop_string file "TryExec" ≠ EmptyString →
      ∃ path, path ∈ program_files (desktop_string file "TryExec") ∧ env_regular_executable env path = true)).
  { destruct (nonempty (desktop_string file "TryExec")) eqn:Hn.
    - apply nonempty_ne in Hn. rewrite executable_in_path_true by done. naive_solver.
    - destruct (desktop_string file "TryExec"); naive_solver. }
  pose proof (names_desktop_true file "OnlyShowIn") as Honly.
  destruct (nonempty (desktop_string file "OnlyShowIn")) eqn:Hn; cbn [andb].
  - apply nonempty_ne in Hn. destruct (existsb _ (g_strsplit_all ";" (desktop_string file "OnlyShowIn"))); cbn [negb].
    + rewrite Hnot, Hexec. split; [intros [??]; split; naive_solver|by intros [? ? ?]].
    + split; [by intros [? _]|]. intros [Ho _ _]. specialize (proj2 Honly (Ho Hn)). done.
  - assert (desktop_string file "OnlyShowIn" = EmptyString) as He by (by destruct (desktop_string file "OnlyShowIn")).
    rewrite Hnot, Hexec. split; [intros [??]; split; naive_solver|by intros [? ? ?]].
Qed.

(** An entry is effective when it is switched on and may run. *)
Lemma load_entry_enabled fs path name user_entry entry file : file_at fs path = Some file →
  load_startup_entry (K := K) env fs path name user_entry = Some entry →
  se_enabled entry = true ↔ switched_on file ∧ may_run file.
Proof.
  unfold load_startup_entry, file_at. intros ->. destruct (_ && _); [done|]. intros [= <-]. cbn [se_enabled].
  rewrite <- may_run_true. unfold desktop_boolean, switched_on.
  destruct (key_file_boolean file "Hidden") as [[]|], (key_file_boolean file "X-GNOME-Autostart-enabled") as [[]|];
    cbn [default negb andb]; naive_solver.
Qed.
End effective.

(** ** Overrides *)

Section overrides.
Context {K C : Type} `{KeyFileOps K C, !KeyFileLaws K C, TextLaws, SuffixOps}.
Context (env : Environment) (reserve : nat → bool).
Implicit Types fs : AutostartFs C.

(** The file system after the atomic write of an override. *)
Record written (fs : AutostartFs C) (ov : Override (C := C)) (id : string) (fs' : AutostartFs C) : Prop := {
  wr_target : fs_read fs' (ov_target ov) = Some (ov_data ov);
  wr_other path : lsm_path_basename path ≠ id → fs_read fs' path = fs_read fs path;
  wr_listed : desktop_file_name id = true → id ∈ listed fs' (ov_directory ov);
  wr_names directory name : name ≠ id → name ∈ listed fs' directory ↔ name ∈ listed fs directory;
}.

Lemma listed_no_slash (fs : AutostartFs C) directory name : fs_ok fs → name ∈ listed fs directory → no_char "/" name = true.
Proof.
  intros Hok. unfold listed. destruct (fs_list fs directory) as [| |names complete] eqn:Hl; [by intros ?%elem_of_nil..|].
  intros [_ Hin]%list_elem_of_filter. specialize (Hok _ _ _ Hl). rewrite Forall_forall in Hok. by apply Hok.
Qed.

Lemma entry_at_key fs directory user_entry name entry : no_char "/" name = true →
  entry_at (K := K) env fs directory user_entry name = Some entry →
  entry_key entry = name ∧ se_origin_identity entry = se_source_identity entry ∧
  load_startup_entry (K := K) env fs (se_source_identity entry) name user_entry = Some entry.
Proof.
  intros Hn. unfold entry_at. destruct (lsm_join_path _ _ _) as [path|] eqn:Hj; [|done]. intros Hl.
  destruct (join_path_spec _ _ _ _ Hj) as [Hlen Hb].
  destruct (load_entry_key env fs path name user_entry entry Hn Hlen (Hb Hn) Hl) as (Hk & Hs & Ho & _).
  split_and!; [done|congruence|by rewrite Hs].
Qed.

(** Another name is decided as before. *)
Lemma decided_other fs fs' ov id directories name : fs_ok fs → fs_ok fs' → written fs ov id fs' → name ≠ id →
  decided (K := K) env fs' directories name = decided (K := K) env fs directories name.
Proof.
  intros Hok Hok' [_ Hother _ Hnames] Hne. induction directories as [|[directory user_entry] directories IH]; [done|].
  cbn [decided]. rewrite (bool_decide_ext (name ∈ listed fs' directory) (name ∈ listed fs directory) (Hnames directory name Hne)). case_bool_decide as Hin; [|exact IH].
  f_equal. unfold entry_at. destruct (lsm_join_path _ _ _) as [path|] eqn:Hj; [|done].
  destruct (join_path_spec _ _ _ _ Hj) as [_ Hb].
  unfold load_startup_entry. rewrite Hother; [done|]. rewrite Hb by (by eapply (listed_no_slash fs)). done.
Qed.

Lemma decided_key fs directories name entry : fs_ok fs → decided (K := K) env fs directories name = Some (Some entry) →
  entry_key entry = name ∧ se_origin_identity entry = se_source_identity entry ∧ desktop_file_name name = true ∧
  ∃ user_entry, load_startup_entry (K := K) env fs (se_source_identity entry) name user_entry = Some entry.
Proof.
  intros Hok. induction directories as [|[directory user_entry] directories IH]; [done|]. cbn [decided].
  case_bool_decide as Hin; [|exact IH]. intros [= He].
  destruct (entry_at_key fs directory user_entry name entry) as (Hk & Ho & Hl); [by eapply (listed_no_slash fs)|done|].
  split_and!; [done|done| |by exists user_entry]. unfold listed in Hin.
  destruct (fs_list fs directory); [by apply elem_of_nil in Hin..|]. by apply list_elem_of_filter in Hin as [? _].
Qed.

(** The override of a file that loads, as the scan reads it back. *)
Lemma override_loads fs fs' created source id enable ov entry user_entry :
  write_startup_override (K := K) env fs created source id enable = Some ov → written fs ov id fs' →
  load_startup_entry (K := K) env fs source id user_entry = Some entry →
  ∃ entry', load_startup_entry (K := K) env fs' (ov_target ov) id true = Some entry' ∧
    se_name entry' = se_name entry ∧ se_command entry' = se_command entry ∧ se_description entry' = se_description entry ∧
    se_user_entry entry' = true ∧
    (∃ file : K, file_at fs source = Some file ∧
       (se_enabled entry = true ↔ switched_on file ∧ may_run env file) ∧
       (se_enabled entry' = true ↔ enable = true ∧ may_run env file)) ∧
    user_directory env = Some (ov_directory ov) ∧ lsm_join_path LSM_PATH_LEN (ov_directory ov) id = Some (ov_target ov).
Proof.
  intros Hw Hwritten Hload. pose proof (λ file, load_entry_enabled (K := K) env fs source id user_entry entry file) as Hwas.
  unfold write_startup_override in Hw. unfold load_startup_entry, file_at in Hwas, Hload |- *.
  destruct (fs_read fs source) as [content|] eqn:Hread; [|done]. cbn [mbind option_bind] in *.
  destruct (key_file_load content true) as [file|] eqn:Hfile; [|done].
  destruct (load_comments content file Hfile) as (file0 & E0 & Hsame0). rewrite E0 in Hload.
  set (file1 := key_file_set_boolean file "Hidden" (negb enable)) in *.
  set (file2 := key_file_set_boolean file1 "X-GNOME-Autostart-enabled" enable) in *.
  destruct (key_file_data file2) as [data|] eqn:Hdata; [|done].
  destruct (user_directory env) as [directory|] eqn:Hdir; [|done].
  destruct (negb (created directory)); [done|].
  destruct (lsm_join_path LSM_PATH_LEN directory id) as [target|] eqn:Hjoin; [|done]. injection Hw as <-.
  destruct (load_data file2 data Hdata) as (file3 & E3 & Hsame3).
  rewrite (wr_target _ _ _ _ Hwritten). cbn [ov_data ov_target ov_directory mbind option_bind]. rewrite E3.
  assert (Hstrings : ∀ key, key ≠ "Hidden"%string → key ≠ "X-GNOME-Autostart-enabled"%string →
    desktop_string file3 key = desktop_string file0 key).
  { intros key Hk1 Hk2. unfold desktop_string. rewrite (proj2 (Hsame3 key)), (proj2 (Hsame0 key)). unfold file2, file1.
    by rewrite (proj2 (set_boolean_other _ _ key _ (not_eq_sym Hk2))), (proj2 (set_boolean_other _ _ key _ (not_eq_sym Hk1))). }
  assert (Hhidden : desktop_boolean file3 "Hidden" false = negb enable).
  { unfold desktop_boolean. rewrite (proj1 (Hsame3 "Hidden")). unfold file2.
    rewrite (proj1 (set_boolean_other file1 "X-GNOME-Autostart-enabled" "Hidden" enable ltac:(discriminate))). unfold file1. by rewrite set_boolean_same. }
  assert (Hgnome : desktop_boolean file3 "X-GNOME-Autostart-enabled" true = enable).
  { unfold desktop_boolean. rewrite (proj1 (Hsame3 "X-GNOME-Autostart-enabled")). unfold file2. by rewrite set_boolean_same. }
  assert (Hruns : desktop_environment_allows env file3 && try_exec_available env file3 =
                  desktop_environment_allows env file0 && try_exec_available env file0).
  { unfold desktop_environment_allows, try_exec_available. by rewrite !Hstrings by done. }
  specialize (Hwas file0 E0). rewrite E0 in Hwas. specialize (Hwas Hload).
  rewrite Hhidden, Hgnome, <- andb_assoc, Hruns, !Hstrings by done.
  destruct (_ && negb (strcmp_eq (desktop_string file0 "Type") "Application")); [done|]. injection Hload as <-.
  eexists. split; [reflexivity|]. cbn [se_name se_command se_description se_user_entry]. rewrite negb_involutive, andb_diag.
  split_and!; try done. exists file0. split_and!; [exact E0|exact Hwas|]. cbn [se_enabled].
  by rewrite <- may_run_true, andb_true_iff.
Qed.
End overrides.

(** (C14) Switching a startup entry changes that entry and no other, and never
    leaves the user's directory.  After a successful [lsm_startup_backend_set_enabled]
    on an entry of a complete inventory, the next inventory has that entry under
    its name as a user entry with the same texts, and it is effective exactly when
    it was asked to be enabled and its file may run here: not for other desktops
    only, not excluded from this one, its [TryExec] program installed.  So a hidden
    entry that is enabled starts again, and a disabled one does not start.  Every
    other entry is exactly what it was, and the one file written lies under its own
    name directly in the user's autostart directory. *)
Theorem startup_switch_is_local {K C : Type} `{KeyFileOps K C, !KeyFileLaws K C, TextLaws, SuffixOps}
    (env : Environment) (reserve : nat → bool) (fs fs' : AutostartFs C) (created : string → bool)
    (entries entries' : list LsmStartupEntry) (entry : LsmStartupEntry) (enable : bool) (ov : Override) :
  fs_ok fs → fs_ok fs' →
  lsm_startup_backend_collect (K := K) env reserve fs = Some entries → entry ∈ entries →
  lsm_startup_backend_set_enabled (K := K) env fs created (se_id entry) (se_source_identity entry)
    (se_origin_identity entry) enable = Some ov →
  written fs ov (se_id entry) fs' →
  lsm_startup_backend_collect (K := K) env reserve fs' = Some entries' →
  entry_key entry = se_id entry ∧ no_char "/" (se_id entry) = true ∧
  user_directory env = Some (ov_directory ov) ∧
  lsm_join_path LSM_PATH_LEN (ov_directory ov) (se_id entry) = Some (ov_target ov) ∧
  (∀ other, entry_key other ≠ se_id entry → other ∈ entries' ↔ other ∈ entries) ∧
  (∃ entry', entry' ∈ entries' ∧ entry_key entry' = se_id entry ∧ se_user_entry entry' = true ∧
     se_name entry' = se_name entry ∧ se_command entry' = se_command entry ∧ se_description entry' = se_description entry ∧
     ∃ file : K, file_at fs (se_source_identity entry) = Some file ∧
       (se_enabled entry = true ↔ switched_on file ∧ may_run env file) ∧
       (se_enabled entry' = true ↔ enable = true ∧ may_run env file)).
Proof.
  intros Hok Hok' Hc Hin Hset Hw Hc'.
  destruct (collect_spec (K := K) env reserve fs entries Hok Hc) as (directory & Hdir & _ & He).
  destruct (collect_spec (K := K) env reserve fs' entries' Hok' Hc') as (directory' & Hdir' & _ & He').
  assert (directory' = directory) as -> by congruence.
  apply He in Hin. destruct (decided_key env fs _ _ entry Hok Hin) as (_ & Horigin & Hdesktop & user_entry & Hload).
  unfold lsm_startup_backend_set_enabled in Hset. rewrite Horigin in Hset.
  replace (if nonempty (se_source_identity entry) then se_source_identity entry else se_source_identity entry)
    with (se_source_identity entry) in Hset by (by destruct (nonempty _)).
  destruct (valid_identity _ _ _) eqn:Hvalid; [|done]. cbn [negb] in Hset. unfold valid_identity in Hvalid.
  apply andb_prop in Hvalid as [Hvalid Hbase]. apply strcmp_eq_true in Hbase. fold (entry_key entry) in Hbase.
  repeat (apply andb_prop in Hvalid as [Hvalid ?]). rewrite Hbase in *.
  destruct (override_loads env fs fs' created _ _ enable ov entry user_entry Hset Hw Hload)
    as (entry' & Hload' & Hn & Hcmd & Hdesc & Huser & Henabled & Hdir1 & Hjoin).
  assert (directory = ov_directory ov) as -> by congruence.
  destruct (join_path_spec _ _ _ _ Hjoin) as [Hlen Hb].
  split_and!; [done|done|done|done| |].
  - intros other Hne. rewrite He, He'. by rewrite (decided_other env fs fs' ov (se_id entry)).
  - exists entry'. assert (Hkey : entry_key entry' = se_id entry).
    { by eapply (load_entry_key env fs' (ov_target ov)); [done|done|apply Hb|]. }
    split_and!; try done. rewrite He', Hkey. cbn [decided].
    rewrite bool_decide_eq_true_2 by (by apply (wr_listed _ _ _ _ Hw)). unfold entry_at. by rewrite Hjoin, Hload'.
Qed.

(** ** Witnesses *)

From S2P Require Import CommonReference.

(** A key file as the map of its keys. *)
Definition SampleFile : Type := gmap string bool * gmap string string.
#[local] Instance sample_files : KeyFileOps SampleFile SampleFile := {|
  key_file_load content _ := Some content;
  key_file_data file := Some file;
  key_file_boolean file key := file.1 !! key;
  key_file_string file key := file.2 !! key;
  key_file_set_boolean file key b := (<[key := b]> file.1, file.2);
|}.
#[local] Instance sample_file_laws : KeyFileLaws SampleFile SampleFile.
Proof.
  split.
  - intros k key b. apply lookup_insert_eq.
  - intros k key key' b Hne. split; [by apply lookup_insert_ne|done].
  - intros k data [= ->]. by exists data.
  - intros data k [= ->]. by exists k.
Qed.
#[local] Instance sample_suffix : SuffixOps := {|
  lsm_string_ends_with text suffix :=
    strcmp_eq (String.substring (String.length text - String.length suffix) (String.length suffix) text) suffix;
|}.

Definition sample_environment : Environment :=
  {| env_current_desktop := Some "MATE"%string; env_path := Some "/usr/bin"%string; env_config_home := Some "/home/u"%string;
     env_config_dirs := None; env_regular_executable := λ path, strcmp_eq path "/usr/bin/agent" |}.
Definition sample_file : SampleFile := (∅, {[ "Name" := "Agent"; "Exec" := "agent --start"; "OnlyShowIn" := "GNOME;MATE;"; "TryExec" := "agent" ]}%string).
(** A system entry, and a broken user file that hides another. *)
Definition sample_fs : AutostartFs SampleFile :=
  {| fs_list := λ directory,
       if strcmp_eq directory "/etc/xdg/autostart" then LISTING ["agent.desktop"; "other.desktop"]%string true
       else if strcmp_eq directory "/home/u/autostart" then LISTING ["other.desktop"]%string true else NO_DIRECTORY;
     fs_read := λ path,
       if strcmp_eq path "/etc/xdg/autostart/agent.desktop" then Some sample_file
       else if strcmp_eq path "/etc/xdg/autostart/other.desktop" then Some sample_file else None |}.
Definition sample_disabled : SampleFile :=
  (key_file_set_boolean (key_file_set_boolean sample_file "Hidden" true) "X-GNOME-Autostart-enabled" false).
(** The user has the agent too, with these contents. *)
Definition sample_fs_with (contents : SampleFile) : AutostartFs SampleFile :=
  {| fs_list := λ directory,
       if strcmp_eq directory "/etc/xdg/autostart" then LISTING ["agent.desktop"; "other.desktop"]%string true
       else if strcmp_eq directory "/home/u/autostart" then LISTING ["agent.desktop"; "other.desktop"]%string true else NO_DIRECTORY;
     fs_read := λ path,
       if strcmp_eq path "/home/u/autostart/agent.desktop" then Some contents else fs_read sample_fs path |}.

Definition sample_entry (path : string) (user_entry enabled : bool) : LsmStartupEntry :=
  {| se_id := "agent.desktop"; se_source_identity := path; se_origin_identity := path; se_name := "Agent";
     se_command := "agent --start"; se_description := ""; se_user_entry := user_entry; se_enabled := enabled |}.
(** The hidden entry of the user, switched on again. *)
Definition sample_enabled : SampleFile :=
  key_file_set_boolean (key_file_set_boolean sample_disabled "Hidden" false) "X-GNOME-Autostart-enabled" true.
Definition sample_override : Override :=
  {| ov_directory := "/home/u/autostart"; ov_target := "/home/u/autostart/agent.desktop"; ov_data := sample_enabled |}.

Lemma sample_listing_ok (fs : AutostartFs SampleFile) :
  (∀ directory, fs_list fs directory ∈ [LISTING ["agent.desktop"; "other.desktop"]%string true;
                                        LISTING ["other.desktop"]%string true; NO_DIRECTORY]) → fs_ok fs.
Proof.
  intros Hl directory names complete E. specialize (Hl directory). rewrite E in Hl.
  repeat (apply elem_of_cons in Hl as [Hl|Hl]); [injection Hl as -> ->; repeat constructor..|done|by apply elem_of_nil in Hl].
Qed.

Lemma sample_fs_ok : fs_ok sample_fs ∧ ∀ contents, fs_ok (sample_fs_with contents).
Proof. split; [|intros contents]; apply sample_listing_ok; intros directory; cbn; repeat case_match; set_solver. Qed.

Lemma sample_collect : lsm_startup_backend_collect (K := SampleFile) sample_environment (λ _, true) sample_fs =
  Some [sample_entry "/etc/xdg/autostart/agent.desktop" false true].
Proof. vm_compute. reflexivity. Qed.

Lemma sample_collect_with :
  lsm_startup_backend_collect (K := SampleFile) sample_environment (λ _, true) (sample_fs_with sample_disabled) =
    Some [sample_entry "/home/u/autostart/agent.desktop" true false] ∧
  lsm_startup_backend_collect (K := SampleFile) sample_environment (λ _, true) (sample_fs_with sample_enabled) =
    Some [sample_entry "/home/u/autostart/agent.desktop" true true].
Proof. vm_compute. done. Qed.

Lemma sample_file_at contents :
  file_at (K := SampleFile) (sample_fs_with contents) "/home/u/autostart/agent.desktop" = Some contents.
Proof. done. Qed.

Lemma sample_written : written (sample_fs_with sample_disabled) sample_override "agent.desktop" (sample_fs_with sample_enabled).
Proof.
  split.
  - done.
  - intros path Hne. cbn. destruct (strcmp_eq path "/home/u/autostart/agent.desktop") eqn:E; [|done].
    apply strcmp_eq_true in E as ->. by destruct Hne.
  - intros _. apply (bool_decide_unpack _). by vm_compute.
  - done.
Qed.

Lemma startup_precedence_witness :
  NoDup (entry_key <$> [sample_entry "/etc/xdg/autostart/agent.desktop" false true]) ∧
  decided (K := SampleFile) sample_environment sample_fs
    (("/home/u/autostart"%string, true) :: system_path sample_environment) "other.desktop" = Some None.
Proof.
  split; [|vm_compute; reflexivity].
  destruct (startup_precedence (K := SampleFile) sample_environment (λ _, true) sample_fs _ (proj1 sample_fs_ok) sample_collect)
    as (directory & _ & Hd & _).
  exact Hd.
Defined.

Lemma startup_switch_is_local_witness :
  may_run sample_environment sample_disabled ∧
  ∃ entry', entry' ∈ [sample_entry "/home/u/autostart/agent.desktop" true true] ∧ se_enabled entry' = true.
Proof.
  assert (Hrun : may_run sample_environment sample_disabled).
  { apply may_run_true. by vm_compute. }
  split; [exact Hrun|].
  destruct (startup_switch_is_local (K := SampleFile) sample_environment (λ _, true) (sample_fs_with sample_disabled)
    (sample_fs_with sample_enabled) (λ _, true) _ _ (sample_entry "/home/u/autostart/agent.desktop" true false) true sample_override
    (proj2 sample_fs_ok _) (proj2 sample_fs_ok _) (proj1 sample_collect_with) ltac:(left) ltac:(vm_compute; reflexivity)
    sample_written (proj2 sample_collect_with)) as (_ & _ & _ & _ & _ & entry' & Hin & _ & _ & _ & _ & _ & file & Hfile & _ & Hon).
  exists entry'. split; [exact Hin|]. apply Hon. split; [done|]. cbn [se_source_identity sample_entry] in Hfile.
  rewrite sample_file_at in Hfile. apply (inj Some) in Hfile as <-. exact Hrun.
Defined.
