(* ===== verification/WifiMetadata.v ===== *)
(** * WifiMetadata: the wireless metadata cache

    Models [src/src/wifi_metadata.c]: the decoding of the six Wireless Extensions
    answers, the cache of 64 records keyed by interface name, and the refresh that
    publishes a record into an interface's entry.  The answers of the ioctls are
    arguments. *)
From S2P Require Import Prelude Double CStrings Common ProcessModel MonitorTypes.
Local Open Scope Z_scope.

Definition LSM_WIFI_METADATA_INTERVAL_SECONDS : double := double_of_Z 5.
Definition LSM_WIFI_NAME_LEN : nat := 64.

(** src: wifi_metadata.c:38-48 LsmWifiCacheRecord *)
Record LsmWifiCacheRecord := {
  wc_name : string;
  wc_ssid : string;
  wc_access_point : string;
  wc_signal_percent : double;
  wc_signal_dbm : double;
  wc_frequency_mhz : double;
  wc_link_speed_mbps : double;
  wc_last_sampled : double;
  wc_valid : bool;
}.
#[export] Instance eta_LsmWifiCacheRecord : Eta LsmWifiCacheRecord := λ x,
  Build_LsmWifiCacheRecord (wc_name x) (wc_ssid x) (wc_access_point x) (wc_signal_percent x) (wc_signal_dbm x)
    (wc_frequency_mhz x) (wc_link_speed_mbps x) (wc_last_sampled x) (wc_valid x).

(** All bytes zero. *)
Definition zero_record : LsmWifiCacheRecord :=
  Build_LsmWifiCacheRecord EmptyString EmptyString EmptyString d0 d0 d0 d0 d0 false.

(** What the socket answers for one interface; [None] is a failed request. *)
Record WifiAnswers := {
  wa_essid : option (string * nat);        (** buffer of 32 bytes, reported length *)
  wa_access_point : option (list Z);       (** six bytes *)
  wa_statistics : option (Z * Z * Z);      (** updated, quality, level *)
  wa_maximum_quality : option Z;
  wa_frequency : option (Z * Z);           (** mantissa, exponent *)
  wa_bitrate : option Z;
}.

Section wifi.
Context `{TextOps}.

(** ** The cache *)

(** src: wifi_metadata.c find_record *)
Definition find_record (records : list LsmWifiCacheRecord) (name : string) (create : bool)
    : option (nat * list LsmWifiCacheRecord) :=
  if negb (nonempty name) then None else
  match list_find (λ record, nonempty (wc_name record) && strcmp_eq (wc_name record) name) records with
  | Some (index, _) => Some (index, records)
  | None =>
      if create then
        match list_find (λ record, negb (nonempty (wc_name record))) records with
        | Some (index, empty) =>
            Some (index, <[index := empty <| wc_name := lsm_copy_string LSM_WIFI_NAME_LEN name |>
                                          <| wc_signal_dbm := NAN |>]> records)
        | None => None
        end
      else None
  end.

(** src: wifi_metadata.c invalidate_record *)
Definition invalidate_record (record : LsmWifiCacheRecord) (sampled_at : double) : LsmWifiCacheRecord :=
  zero_record <| wc_name := lsm_copy_string LSM_WIFI_NAME_LEN (lsm_copy_string LSM_WIFI_NAME_LEN (wc_name record)) |>
              <| wc_signal_dbm := NAN |> <| wc_last_sampled := sampled_at |>.

(** ** The answers *)

(** The buffer up to the reported length, without trailing NULs. *)
(** src: wifi_metadata.c:105-107 read_essid *)
Fixpoint essid_length (value : string) (length : nat) : nat :=
  match length with
  | O => O
  | S shorter => if Ascii.eqb (char_at value shorter) "000" then essid_length value shorter else length
  end.

(** src: wifi_metadata.c read_essid *)
Definition read_essid (answer : option (string * nat)) (destination_size : nat) : bool * string :=
  match answer with
  | None => (false, EmptyString)
  | Some (value, length) =>
      let length := essid_length value (Nat.min length 32) in
      let length := if (destination_size <=? length)%nat then (destination_size - 1)%nat else length in
      ((0 <? length)%nat, c_string (String.substring 0 length value))
  end.

(** src: wifi_metadata.c read_access_point *)
Definition read_access_point (answer : option (list Z)) (destination_size : nat) : bool * string :=
  match answer with
  | None => (false, EmptyString)
  | Some address =>
      if negb (existsb (λ byte, negb (byte =? 0)) (take 6 address)) then (false, EmptyString)
      else (true, snprintf destination_size (join ":" (hex_byte <$> take 6 address)))
  end.

Fixpoint scale_up (exponent : nat) (hertz : double) : double :=
  match exponent with O => hertz | S exponent => scale_up exponent (dmul hertz (double_of_Z 10)) end.
Fixpoint scale_down (exponent : nat) (hertz : double) : double :=
  match exponent with O => hertz | S exponent => scale_down exponent (ddiv hertz (double_of_Z 10)) end.

(** src: wifi_metadata.c read_frequency *)
Definition read_frequency (answer : option (Z * Z)) : option double :=
  match answer with
  | None => None
  | Some (m, e) =>
      let hertz := double_of_Z m in
      let hertz := if 0 <=? e then scale_up (Z.to_nat e) hertz else scale_down (Z.to_nat (- e)) hertz in
      if negb (isfinite hertz) || dle hertz d0 then None else Some (ddiv hertz (double_of_Z 1000000))
  end.

(** src: wifi_metadata.c read_bitrate *)
Definition read_bitrate (answer : option Z) : option double :=
  match answer with
  | None => None
  | Some value => if value <=? 0 then None else Some (ddiv (double_of_Z value) (double_of_Z 1000000))
  end.

(** src: wifi_metadata.c quality_maximum *)
Definition quality_maximum (answer : option Z) : double :=
  match answer with Some maximum => if 0 <? maximum then double_of_Z maximum else d0 | None => d0 end.

(** src: wifi_metadata.c dbm_to_percent *)
Definition dbm_to_percent (dbm : double) : double :=
  if negb (isfinite dbm) then d0
  else if dle dbm (double_of_Z (-100)) then d0
  else if dge dbm (double_of_Z (-50)) then d100
  else dmul (double_of_Z 2) (dadd dbm d100).

Definition IW_QUAL_QUAL_INVALID : Z := 16.
Definition IW_QUAL_DBM : Z := 8.
Definition IW_QUAL_RCPI : Z := 128.
Definition int8 (n : Z) : Z := if 128 <=? n then n - 256 else n.

(** Percentage and dBm. *)
(** src: wifi_metadata.c read_signal *)
Definition read_signal (statistics : option (Z * Z * Z)) (range : option Z) : option (double * double) :=
  match statistics with
  | None => None
  | Some (updated, qual, level) =>
      let dbm := if negb (Z.land updated IW_QUAL_RCPI =? 0)
                 then dsub (ddiv (double_of_Z level) (double_of_Z 2)) (double_of_Z 110)
                 else if negb (Z.land updated IW_QUAL_DBM =? 0) then double_of_Z (int8 level)
                 else NAN in
      let maximum := quality_maximum range in
      let percent := if (Z.land updated IW_QUAL_QUAL_INVALID =? 0) && dgt maximum d0
                     then ddiv (dmul d100 (double_of_Z qual)) maximum
                     else if isfinite dbm then dbm_to_percent dbm
                     else d0 in
      let percent := if dlt percent d0 then d0 else percent in
      let percent := if dgt percent d100 then d100 else percent in
      Some (percent, dbm)
  end.

(** The record collected, valid when any request succeeded. *)
(** src: wifi_metadata.c collect_wifi_metadata *)
Definition collect_wifi_metadata (interface_name : string) (answers : WifiAnswers) : bool * LsmWifiCacheRecord :=
  let collected := zero_record <| wc_name := lsm_copy_string LSM_WIFI_NAME_LEN interface_name |>
                               <| wc_signal_dbm := NAN |> in
  let '(have_essid, ssid) := read_essid (wa_essid answers) LSM_NAME_LEN in
  let '(have_point, point) := read_access_point (wa_access_point answers) 32 in
  let collected := collected <| wc_ssid := ssid |> <| wc_access_point := point |> in
  let signal := read_signal (wa_statistics answers) (wa_maximum_quality answers) in
  let collected := match signal with
                   | Some (percent, dbm) => collected <| wc_signal_percent := percent |> <| wc_signal_dbm := dbm |>
                   | None => collected
                   end in
  let frequency := read_frequency (wa_frequency answers) in
  let collected := match frequency with Some mhz => collected <| wc_frequency_mhz := mhz |> | None => collected end in
  let bitrate := read_bitrate (wa_bitrate answers) in
  let collected := match bitrate with Some mbps => collected <| wc_link_speed_mbps := mbps |> | None => collected end in
  let have_data := have_essid || have_point || bool_decide (is_Some signal) || bool_decide (is_Some frequency)
                   || bool_decide (is_Some bitrate) in
  (have_data, collected <| wc_valid := have_data |>).

(** ** Refresh *)

(** src: wifi_metadata.c clear_network_wifi_metadata *)
Definition clear_network_wifi_metadata (network : LsmNetInfo) : LsmNetInfo :=
  network <| net_ssid := EmptyString |> <| net_access_point := EmptyString |> <| net_signal_percent := d0 |>
          <| net_signal_dbm := NAN |> <| net_frequency_mhz := d0 |> <| net_link_speed_mbps := d0 |>.

(** src: wifi_metadata.c:300-308 lsm_wifi_metadata_refresh *)
Definition publish_record (record : LsmWifiCacheRecord) (network : LsmNetInfo) : LsmNetInfo :=
  network <| net_ssid := lsm_copy_string LSM_NAME_LEN (wc_ssid record) |>
          <| net_access_point := lsm_copy_string 32 (wc_access_point record) |>
          <| net_signal_percent := wc_signal_percent record |>
          <| net_signal_dbm := wc_signal_dbm record |>
          <| net_frequency_mhz := wc_frequency_mhz record |>
          <| net_link_speed_mbps := if dgt (wc_link_speed_mbps record) d0 then wc_link_speed_mbps record else d0 |>.

Context `{TimingOps}.

(** The record after a refresh at [now]; the socket is [None] when it could not
    be opened. *)
(** src: wifi_metadata.c:285-294 lsm_wifi_metadata_refresh *)
Definition refreshed_record (socket : bool) (record : LsmWifiCacheRecord) (name : string) (now : double)
    (answers : WifiAnswers) : LsmWifiCacheRecord :=
  if lsm_refresh_interval_due now (wc_last_sampled record) LSM_WIFI_METADATA_INTERVAL_SECONDS then
    if socket then
      let '(ok, collected) := collect_wifi_metadata name answers in
      if ok : bool then collected <| wc_last_sampled := now |> else invalidate_record record now
    else invalidate_record record now
  else record.

(** src: wifi_metadata.c lsm_wifi_metadata_refresh *)
Definition lsm_wifi_metadata_refresh (socket : bool) (records : list LsmWifiCacheRecord) (network : LsmNetInfo)
    (now : double) (answers : WifiAnswers) : list LsmWifiCacheRecord * LsmNetInfo :=
  if negb (net_wireless network) || negb (nonempty (net_name network)) then (records, network) else
  match find_record records (net_name network) true with
  | None => (records, clear_network_wifi_metadata network)
  | Some (index, records) =>
      let record := refreshed_record socket (default zero_record (records !! index)) (net_name network) now answers in
      (<[index := record]> records,
       if negb (wc_valid record) then clear_network_wifi_metadata network else publish_record record network)
  end.

Definition lsm_wifi_metadata_create : list LsmWifiCacheRecord := replicate LSM_MAX_NETS zero_record.

(** ** The cache as a map

    A record per interface name, at most 64 of them, none ever given up. *)

Definition fresh_record (name : string) : LsmWifiCacheRecord :=
  zero_record <| wc_name := name |> <| wc_signal_dbm := NAN |>.

Definition wifi_map_refresh (socket : bool) (m : gmap string LsmWifiCacheRecord) (network : LsmNetInfo)
    (now : double) (answers : WifiAnswers) : gmap string LsmWifiCacheRecord * LsmNetInfo :=
  let name := net_name network in
  if negb (net_wireless network) || negb (nonempty name) then (m, network)
  else if bool_decide (m !! name = None) && (LSM_MAX_NETS <=? size m)%nat
  then (m, clear_network_wifi_metadata network)
  else
    let record := refreshed_record socket (default (fresh_record name) (m !! name)) name now answers in
    (<[name := record]> m,
     if wc_valid record then publish_record record network else clear_network_wifi_metadata network).
End wifi.

(** ** The refinement *)

Section wifi_map.
Context `{TextLaws, TimingOps}.

Definition occupied (record : LsmWifiCacheRecord) : bool := nonempty (wc_name record).
Definition empty_slots (records : list LsmWifiCacheRecord) : nat :=
  length (filter (λ record, occupied record = false) records).

Record wifi_rel (records : list LsmWifiCacheRecord) (m : gmap string LsmWifiCacheRecord) : Prop := {
  wr_distinct i j r r' : records !! i = Some r → records !! j = Some r' → occupied r = true →
    wc_name r = wc_name r' → i = j;
  wr_lookup name r : m !! name = Some r ↔ nonempty name = true ∧ wc_name r = name ∧ r ∈ records;
  wr_size : (size m + empty_slots records = LSM_MAX_NETS)%nat;
  wr_fit : Forall (λ r, (String.length (wc_name r) < LSM_WIFI_NAME_LEN)%nat) records;
  wr_zero : Forall (λ r, occupied r = false → r = zero_record) records;
}.

Lemma empty_slots_insert records i old new : records !! i = Some old →
  (empty_slots (<[i := new]> records) + (if occupied old then 0 else 1) =
   empty_slots records + (if occupied new then 0 else 1))%nat.
Proof.
  intros Hi. unfold empty_slots. pose proof (lookup_lt_Some _ _ _ Hi) as Hlt.
  rewrite insert_take_drop by done. rewrite <- (take_drop_middle records i old) at 3 by done.
  rewrite !filter_app, !length_app, !filter_cons.
  destruct (occupied old), (occupied new); simpl; lia.
Qed.

Lemma wifi_rel_create : wifi_rel lsm_wifi_metadata_create ∅.
Proof.
  unfold lsm_wifi_metadata_create. split.
  - intros i j r r' Hi _ Ho _. apply lookup_replicate in Hi as [-> _]. done.
  - intros name r. rewrite lookup_empty. split; [done|]. intros (Hn & <- & Hr).
    apply elem_of_replicate in Hr as [-> _]. done.
  - done.
  - apply Forall_replicate. vm_compute. lia.
  - by apply Forall_replicate.
Qed.

(** Storing a record of the same name in its slot, or in an empty one. *)
Lemma wifi_rel_store records m i old new : wifi_rel records m → records !! i = Some old →
  occupied new = true → (String.length (wc_name new) < LSM_WIFI_NAME_LEN)%nat →
  (wc_name old = wc_name new ∨ occupied old = false ∧ m !! wc_name new = None) →
  wifi_rel (<[i := new]> records) (<[wc_name new := new]> m).
Proof.
  intros [Hd Hl Hs Hf Hz] Hi Hnew Hfit Hcase. pose proof (lookup_lt_Some _ _ _ Hi) as Hlt.
  assert (Honly : ∀ j r, j ≠ i → records !! j = Some r → wc_name r ≠ wc_name new).
  { intros j r Hne Hj Hname. destruct Hcase as [Hold|[_ Hnone]].
    - apply Hne. apply (Hd j i r old Hj Hi); [|congruence]. unfold occupied in *. congruence.
    - assert (Hsome : m !! wc_name new = Some r); [|congruence]. apply Hl.
      split; [exact Hnew|]. split; [done|]. by eapply list_elem_of_lookup_2. }
  split.
  - intros j k r r' Hj Hk Ho Hname.
    apply list_lookup_insert_Some in Hj as [(<- & <- & _)|[Hij Hj]];
      apply list_lookup_insert_Some in Hk as [(<- & <- & _)|[Hik Hk]]; [done| | |by eapply Hd].
    + exfalso. by apply (Honly k r').
    + exfalso. by apply (Honly j r).
  - intros name r. rewrite lookup_insert_Some, Hl. split.
    + intros [[<- <-]|(Hne & Hn & Hname & Hr)]; [split; [exact Hnew|]; split; [done|]|split_and!; [done..|]].
      * apply (list_elem_of_lookup_2 _ i). by apply list_lookup_insert_eq.
      * apply list_elem_of_lookup in Hr as [j Hj]. apply (list_elem_of_lookup_2 _ j).
        rewrite list_lookup_insert_ne; [done|]. intros ->. rewrite Hi in Hj. injection Hj as ->.
        destruct Hcase as [Hold|[Hempty _]]; [congruence|]. unfold occupied in Hempty. congruence.
    + intros (Hn & Hname & [j Hj]%list_elem_of_lookup).
      apply list_lookup_insert_Some in Hj as [(<- & <- & _)|[Hij Hj]]; [by left|]. right.
      split; [|split_and!; [done..|by eapply list_elem_of_lookup_2]].
      intros <-. by apply (Honly j r).
  - pose proof (empty_slots_insert records i old new Hi) as Hc. rewrite Hnew in Hc.
    destruct Hcase as [Hold|[Hempty Hnone]].
    + assert (Ho : occupied old = true) by (unfold occupied in *; congruence). rewrite Ho in Hc.
      rewrite map_size_insert_Some; [lia|]. exists old. apply Hl. split; [exact Hnew|]. split; [done|].
      by eapply list_elem_of_lookup_2.
    + rewrite Hempty in Hc. rewrite map_size_insert_None by done. lia.
  - by apply Forall_insert.
  - apply Forall_insert; [done|]. congruence.
Qed.

(** What the look-up finds. *)
Lemma find_record_rel records m name : wifi_rel records m → nonempty name = true →
  (String.length name < LSM_WIFI_NAME_LEN)%nat →
  match find_record records name true with
  | Some (i, records') =>
      ∃ old record, records !! i = Some old ∧ records' !! i = Some record ∧
        (∀ new, <[i := new]> records' = <[i := new]> records) ∧ wc_name record = name ∧
        record = default (fresh_record name) (m !! name) ∧
        (wc_name old = name ∨ occupied old = false ∧ m !! name = None) ∧
        (m !! name = None → (size m < LSM_MAX_NETS)%nat)
  | None => m !! name = None ∧ (LSM_MAX_NETS <= size m)%nat
  end.
Proof.
  intros Hrel Hn Hfit. pose proof Hrel as [Hd Hl Hs Hf Hz]. unfold find_record. rewrite Hn. cbn [negb].
  destruct (list_find (λ record, nonempty (wc_name record) && strcmp_eq (wc_name record) name) records)
    as [[i old]|] eqn:Hfind.
  - apply list_find_Some in Hfind as (Hi & Hold & _). apply Is_true_true_1 in Hold.
    apply andb_true_iff in Hold as [_ Hold%strcmp_eq_true]. exists old, old.
    assert (Hm : m !! name = Some old) by (apply Hl; split_and!; [done..|by eapply list_elem_of_lookup_2]).
    rewrite Hm. split_and!; [done..|by left|done].
  - assert (Hnone : m !! name = None).
    { destruct (m !! name) as [r|] eqn:Hm; [|done]. apply Hl in Hm as (_ & Hname & Hr).
      apply list_find_None in Hfind. rewrite Forall_forall in Hfind. exfalso. apply (Hfind r Hr).
      apply Is_true_true_2. apply andb_true_iff. split; [by rewrite Hname|]. by apply strcmp_eq_true. }
    destruct (list_find (λ record, negb (nonempty (wc_name record))) records) as [[i empty]|] eqn:Hempty.
    + apply list_find_Some in Hempty as (Hi & He & _). apply Is_true_true_1, negb_true_iff in He.
      pose proof (lookup_lt_Some _ _ _ Hi) as Hlt. rewrite copy_string_fits by done.
      assert (empty = zero_record) as -> by by apply (Forall_lookup_1 _ _ _ _ Hz Hi).
      exists zero_record, (fresh_record name). rewrite Hnone.
      split_and!; [done|by apply list_lookup_insert_eq|intros new; by rewrite list_insert_insert_eq|done|done|by right|].
      intros _. assert (0 < empty_slots records)%nat; [|lia]. unfold empty_slots.
      apply list_elem_of_lookup_2 in Hi. destruct (filter _ records) as [|x l] eqn:E; [|simpl; lia].
      assert (Hin : zero_record ∈ filter (λ record, occupied record = false) records) by by apply list_elem_of_filter.
      rewrite E in Hin. by apply elem_of_nil in Hin.
    + split; [done|]. apply list_find_None in Hempty.
      assert (empty_slots records = 0)%nat; [|lia]. unfold empty_slots.
      destruct (filter _ records) as [|x l] eqn:E; [done|].
      assert (Hin : x ∈ filter (λ record, occupied record = false) records) by (rewrite E; left).
      apply list_elem_of_filter in Hin as [Hx Hin]. rewrite Forall_forall in Hempty. exfalso. apply (Hempty x Hin).
      apply Is_true_true_2. unfold occupied in Hx. by rewrite Hx.
Qed.

Lemma refreshed_name socket record name now answers :
  (String.length name < LSM_WIFI_NAME_LEN)%nat → wc_name record = name →
  wc_name (refreshed_record socket record name now answers) = name.
Proof.
  intros Hfit Hname. unfold refreshed_record. destruct (lsm_refresh_interval_due _ _ _); [|done].
  assert (Hinvalid : wc_name (invalidate_record record now) = name)
    by (unfold invalidate_record; simpl; rewrite Hname; by rewrite !copy_string_fits by (rewrite ?copy_string_fits; done)).
  destruct socket; [|done]. destruct (collect_wifi_metadata name answers) as [[] collected] eqn:E; [|done].
  unfold collect_wifi_metadata in E. repeat case_match; injection E as _ <-; simpl; by apply copy_string_fits.
Qed.

(** One refresh is one refresh of the map. *)
Lemma wifi_refresh_refines socket records m network now answers :
  wifi_rel records m → (String.length (net_name network) < LSM_WIFI_NAME_LEN)%nat →
  let '(records', published) := lsm_wifi_metadata_refresh socket records network now answers in
  let '(m', expected) := wifi_map_refresh socket m network now answers in
  published = expected ∧ wifi_rel records' m'.
Proof.
  intros Hrel Hfit. unfold lsm_wifi_metadata_refresh, wifi_map_refresh.
  destruct (negb (net_wireless network) || negb (nonempty (net_name network))) eqn:Hskip; [done|].
  apply orb_false_iff in Hskip as [_ Hn%negb_false_iff].
  pose proof (find_record_rel records m (net_name network) Hrel Hn Hfit) as Hfind.
  destruct (find_record records (net_name network) true) as [[i records']|].
  - destruct Hfind as (old & record & Hi & Hi' & Hins & Hname & Hrecord & Hcase & Hroom).
    assert (Hb : bool_decide (m !! net_name network = None) && (LSM_MAX_NETS <=? size m)%nat = false).
    { apply andb_false_iff. destruct (m !! net_name network) eqn:Hm; [by left; apply bool_decide_eq_false|].
      right. apply Nat.leb_gt. by apply Hroom. }
    rewrite Hb, Hi', <- Hrecord. cbn [from_option]; unfold id.
    set (new := refreshed_record socket record (net_name network) now answers).
    assert (Hnew : wc_name new = net_name network) by by apply refreshed_name.
    split; [by destruct (wc_valid new)|]. rewrite Hins. rewrite <- Hnew at 1.
    apply (wifi_rel_store records m i old new Hrel Hi); [by unfold occupied; rewrite Hnew|by rewrite Hnew|by rewrite Hnew].
  - destruct Hfind as [Hnone Hfull]. rewrite bool_decide_eq_true_2, (proj2 (Nat.leb_le _ _)) by done. done.
Qed.
End wifi_map.

(** ** Signal strength *)

Definition byte (n : Z) : Prop := 0 <= n < 256.

(** The kernel's quality fields are bytes. *)
Record answers_ok (answers : WifiAnswers) : Prop := {
  ao_statistics updated qual level :
    wa_statistics answers = Some (updated, qual, level) → byte updated ∧ byte qual ∧ byte level;
  ao_maximum maximum : wa_maximum_quality answers = Some maximum → byte maximum;
}.

Lemma byte_check (P : Z → bool) n : forallb (λ n, P (Z.of_nat n)) (seq 0 256) = true → byte n → P n = true.
Proof.
  intros Hall Hn. rewrite List.forallb_forall in Hall. unfold byte in Hn. rewrite <- (Z2Nat.id n) by lia.
  apply Hall, in_seq. lia.
Qed.

Definition percent_ok (x : double) : bool := dle d0 x && dle x d100.

Lemma percent_ok_spec x : percent_ok x = true → in_percent x.
Proof. intros [? ?]%andb_true_iff. by split. Qed.

Lemma clamp_percent x : isnan x = false →
  in_percent (let y := if dlt x d0 then d0 else x in if dgt y d100 then d100 else y).
Proof.
  intros Hn. cbv zeta. destruct (dlt x d0) eqn:Hlow; [by apply percent_ok_spec|].
  destruct (dgt x d100) eqn:Hhigh; [apply in_percent_100|]. split.
  - by apply dlt_false_iff in Hlow.
  - by apply dlt_false_iff in Hhigh.
Qed.

Lemma read_signal_percent answers percent dbm : answers_ok answers →
  read_signal (wa_statistics answers) (wa_maximum_quality answers) = Some (percent, dbm) → in_percent percent.
Proof.
  intros [Hs Hm]. unfold read_signal. destruct (wa_statistics answers) as [[[updated qual] level]|]; [|done].
  destruct (Hs updated qual level eq_refl) as (_ & Hqual & Hlevel). cbv zeta.
  set (dbm0 := if negb (Z.land updated IW_QUAL_RCPI =? 0) then _ else _).
  set (raw := if (Z.land updated IW_QUAL_QUAL_INVALID =? 0) && _ then _ else _).
  intros [= <- _]. apply clamp_percent. unfold raw. destruct (_ && dgt _ d0) eqn:Hquality.
  - apply andb_true_iff in Hquality as [_ Hpos]. unfold quality_maximum in *.
    destruct (wa_maximum_quality answers) as [maximum|]; [|by vm_compute in Hpos].
    specialize (Hm maximum eq_refl). destruct (Z.ltb_spec 0 maximum) as [Hmax|_]; [|by vm_compute in Hpos].
    assert (Hfinite : match double_of_Z maximum with S754_finite _ _ _ => true | _ => maximum =? 0 end = true).
    { apply (byte_check (λ n, match double_of_Z n with S754_finite _ _ _ => true | _ => n =? 0 end)); [by vm_compute|done]. }
    assert (Hnum : negb (isnan (dmul d100 (double_of_Z qual))) = true).
    { apply (byte_check (λ n, negb (isnan (dmul d100 (double_of_Z n))))); [by vm_compute|done]. }
    apply negb_true_iff in Hnum. destruct (double_of_Z maximum); try (apply Z.eqb_eq in Hfinite; lia).
    by apply ddiv_not_nan.
  - destruct (isfinite dbm0) eqn:Hf; [|done]. apply in_percent_not_nan, percent_ok_spec. unfold dbm0 in *.
    destruct (negb (Z.land updated IW_QUAL_RCPI =? 0)).
    { apply (byte_check (λ n, percent_ok (dbm_to_percent (dsub (ddiv (double_of_Z n) (double_of_Z 2)) (double_of_Z 110)))));
        [by vm_compute|done]. }
    destruct (negb (Z.land updated IW_QUAL_DBM =? 0)); [|done].
    apply (byte_check (λ n, percent_ok (dbm_to_percent (double_of_Z (int8 n))))); [by vm_compute|done].
Qed.

Section wifi_percent.
Context `{TextLaws, TimingOps}.

Lemma refreshed_percent socket record name now answers : answers_ok answers →
  in_percent (wc_signal_percent record) →
  in_percent (wc_signal_percent (refreshed_record socket record name now answers)).
Proof.
  intros Ha Hr. unfold refreshed_record. destruct (lsm_refresh_interval_due _ _ _); [|done].
  destruct socket; [|apply in_percent_0]. destruct (collect_wifi_metadata name answers) as [[] collected] eqn:E;
    [|apply in_percent_0].
  unfold collect_wifi_metadata in E.
  destruct (read_essid _ _) as [he ssid], (read_access_point _ _) as [hp point].
  destruct (read_signal _ _) as [[percent dbm]|] eqn:Hs; injection E as _ <-;
    destruct (read_frequency _), (read_bitrate _); simpl; try apply in_percent_0; by eapply read_signal_percent.
Qed.

(** One sample of one interface. *)
Record WifiEvent := { we_network : LsmNetInfo; we_now : double; we_answers : WifiAnswers }.

Definition event_ok (event : WifiEvent) : Prop :=
  (String.length (net_name (we_network event)) < LSM_WIFI_NAME_LEN)%nat ∧ answers_ok (we_answers event).

Fixpoint wifi_run (socket : bool) (records : list LsmWifiCacheRecord) (events : list WifiEvent) : list LsmNetInfo :=
  match events with
  | [] => []
  | event :: events =>
      let '(records, network) :=
        lsm_wifi_metadata_refresh socket records (we_network event) (we_now event) (we_answers event) in
      network :: wifi_run socket records events
  end.

Fixpoint wifi_map_run (socket : bool) (m : gmap string LsmWifiCacheRecord) (events : list WifiEvent) : list LsmNetInfo :=
  match events with
  | [] => []
  | event :: events =>
      let '(m, network) := wifi_map_refresh socket m (we_network event) (we_now event) (we_answers event) in
      network :: wifi_map_run socket m events
  end.

Lemma wifi_run_refines socket records m events : wifi_rel records m → Forall event_ok events →
  wifi_run socket records events = wifi_map_run socket m events.
Proof.
  intros Hrel He. revert records m Hrel. induction He as [|event events [Hfit _] He IH]; intros records m Hrel; [done|].
  cbn [wifi_run wifi_map_run].
  pose proof (wifi_refresh_refines socket records m (we_network event) (we_now event) (we_answers event) Hrel Hfit) as Href.
  destruct (lsm_wifi_metadata_refresh _ _ _ _ _) as [records' published], (wifi_map_refresh _ _ _ _ _) as [m' expected].
  destruct Href as [-> Hrel']. f_equal. by apply IH.
Qed.

Definition published_ok (network : LsmNetInfo) : Prop :=
  net_wireless network = true → nonempty (net_name network) = true → in_percent (net_signal_percent network).

Lemma wifi_map_percent socket events m : Forall event_ok events →
  map_Forall (λ _ r, in_percent (wc_signal_percent r)) m → Forall published_ok (wifi_map_run socket m events).
Proof.
  intros He. revert m. induction He as [|event events [_ Ha] He IH]; intros m Hm; [constructor|].
  cbn [wifi_map_run]. unfold wifi_map_refresh.
  destruct (negb (net_wireless (we_network event)) || negb (nonempty (net_name (we_network event)))) eqn:Hskip.
  { constructor; [|by apply IH]. intros Hw Hn. by rewrite Hw, Hn in Hskip. }
  destruct (bool_decide _ && _).
  { constructor; [|by apply IH]. intros _ _. apply in_percent_0. }
  set (record := refreshed_record _ _ _ _ _).
  assert (Hrecord : in_percent (wc_signal_percent record)).
  { apply refreshed_percent; [done|]. destruct (m !! net_name (we_network event)) as [r|] eqn:Hr; [|apply in_percent_0].
    exact (Hm _ _ Hr). }
  constructor.
  - intros _ _. destruct (wc_valid record); [done|apply in_percent_0].
  - apply IH. by apply map_Forall_insert_2.
Qed.

(** The wireless metadata of an interface is its own.  Over any series of
    refreshes of any interfaces - sampled, skipped because they are not due,
    failed, or refused because all 64 records are taken - the fixed table of
    records publishes exactly what a map from interface names to the last sample
    of that interface would; and a published signal strength is a percentage
    whatever quality the driver reports. *)
Theorem wifi_cache_is_a_map socket events :
  Forall event_ok events →
  wifi_run socket lsm_wifi_metadata_create events = wifi_map_run socket ∅ events ∧
  Forall published_ok (wifi_run socket lsm_wifi_metadata_create events).
Proof.
  intros He. rewrite (wifi_run_refines socket _ ∅) by (done || apply wifi_rel_create). split; [done|].
  apply wifi_map_percent; [done|apply map_Forall_empty].
Qed.
End wifi_percent.

From S2P Require Import CommonReference.

Definition sample_interface (name : string) : LsmNetInfo :=
  Build_LsmNetInfo name "" "" "" "" "" "" 0 0 d0 d0 true "" "" d0 NAN d0 d0 d0 false "".
Definition sample_answers : WifiAnswers :=
  {| wa_essid := Some ("home", 4%nat); wa_access_point := Some [2; 0; 0; 171; 205; 239];
     wa_statistics := Some (8, 80, 206); wa_maximum_quality := Some 70; wa_frequency := Some (2437, 6);
     wa_bitrate := Some 54000000 |}.
Definition sample_events : list WifiEvent :=
  [{| we_network := sample_interface "wlan0"; we_now := double_of_Z 100; we_answers := sample_answers |};
   {| we_network := sample_interface "wlan1"; we_now := double_of_Z 101;
      we_answers := Build_WifiAnswers None None None None None None |};
   {| we_network := sample_interface "wlan0"; we_now := double_of_Z 102; we_answers := sample_answers |}].

Lemma sample_events_ok : Forall event_ok sample_events.
Proof.
  assert (Hsample : answers_ok sample_answers).
  { split; [intros updated qual level [= <- <- <-]|intros maximum [= <-]]; unfold byte; lia. }
  repeat (apply Forall_cons; split; [split; [vm_compute; lia|]|]); [done|by split|done|by apply Forall_nil_2].
Qed.

Lemma wifi_cache_is_a_map_witness :
  wifi_run true lsm_wifi_metadata_create sample_events = wifi_map_run true ∅ sample_events ∧
  net_access_point <$> wifi_run true lsm_wifi_metadata_create sample_events
    = ["02:00:00:ab:cd:ef"; ""; "02:00:00:ab:cd:ef"]%string.
Proof.
  split; [apply (wifi_cache_is_a_map true sample_events sample_events_ok)|vm_compute; reflexivity].
Defined.
