(* ===== verification/NetworkLinks.v ===== *)
(** * NetworkLinks: the link dump and interface identities

    Models the network part of [src/src/system_sources.c]: the netlink dump of
    links, message by message, with its attributes; the events that announce a
    topology change; the fallback on sysfs; and the identity that tells an
    interface instance from its successor.

    The socket is the list of results of [recvmsg], whose end stands for a failing
    socket; a datagram is the list of its decoded headers and whether bytes are
    left over. *)
From S2P Require Import Prelude CStrings Common ProcessModel MonitorTypes.
Local Open Scope Z_scope.

(** ** Identities *)

(** src: system_sources.c network_mac_identity_usable *)
Definition network_mac_identity_usable (mac : string) : bool :=
  nonempty mac && negb (strcmp_eq mac "00:00:00:00:00:00").

(** [snprintf] that must fit. *)
Definition print_fits (size : nat) (text : string) : option string :=
  if (String.length text <? size)%nat then Some text else None.

(** src: system_sources.c network_instance_identity *)
Definition network_instance_identity (ifindex : Z) (name mac : string) (size : nat) : string :=
  let index_text := "ifindex:" +:+ print_u64 ifindex in
  match (if (0 <? ifindex) && network_mac_identity_usable mac
         then print_fits size (index_text +:+ "|mac:" +:+ mac) else None) with
  | Some text => text
  | None =>
      match (if 0 <? ifindex then print_fits size index_text else None) with
      | Some text => text
      | None =>
          match (if network_mac_identity_usable mac then print_fits size ("mac:" +:+ mac) else None) with
          | Some text => text
          | None => if nonempty name then snprintf size ("name:" +:+ name) else EmptyString
          end
      end
  end.

(** src: system_sources.h:56-63 LsmNetworkRecord *)
Record LsmNetworkRecord := {
  nr_name : string;
  nr_instance_identity : string;
  nr_mac : string;
  nr_product : string;
  nr_vendor : string;
  nr_wireless : bool;
}.

(** src: system_sources.h:66-71 LsmNetworkCounterRecord *)
Record LsmNetworkCounterRecord := {
  nc_name : string;
  nc_instance_identity : string;
  nc_rx_bytes : Z;
  nc_tx_bytes : Z;
}.

(** ** The link dump *)

(** src: system_sources.c:438-448 LsmRouteLink *)
Record LsmRouteLink := {
  rl_name : string;
  rl_mac : string;
  rl_ifindex : Z;
  rl_rx_bytes : Z;
  rl_tx_bytes : Z;
  rl_operstate : Z;
  rl_flags : Z;
  rl_counters_available : bool;
  rl_counters_64bit : bool;
}.
#[export] Instance eta_LsmRouteLink : Eta LsmRouteLink := λ x,
  Build_LsmRouteLink (rl_name x) (rl_mac x) (rl_ifindex x) (rl_rx_bytes x) (rl_tx_bytes x) (rl_operstate x)
    (rl_flags x) (rl_counters_available x) (rl_counters_64bit x).

(** The attributes read; a statistics payload too short to hold its structure is
    [None]. *)
Inductive RouteAttribute :=
  | IFLA_IFNAME (payload : string)
  | IFLA_ADDRESS (payload : list Z)
  | IFLA_OPERSTATE (payload : list Z)
  | IFLA_STATS64 (rx_tx : option (Z * Z))
  | IFLA_STATS (rx_tx : option (Z * Z))
  | IFLA_OTHER.

(** [struct ifinfomsg] and the attributes that follow it, with the number of
    bytes [RTA_OK] refused at their end. *)
Record LinkMessage := {
  ifi_index : Z;
  ifi_flags : Z;
  ifi_attributes : list RouteAttribute;
  ifi_attribute_rest : Z;
}.

(** [NLMSG_ERROR] and [RTM_NEWLINK] carry [None] when they are too short. *)
Inductive RoutePayload :=
  | NLMSG_DONE
  | NLMSG_ERROR (error : option Z)
  | NLMSG_OVERRUN
  | RTM_NEWLINK (information : option LinkMessage)
  | RTM_DELLINK
  | RTM_NEWADDR
  | RTM_DELADDR
  | RTM_OTHER.

Record RouteMessage := {
  nlmsg_seq : Z;
  nlmsg_dump_intr : bool;
  nlmsg_payload : RoutePayload;
}.

Inductive Received :=
  | RECV_INTERRUPTED
  | RECV_AGAIN
  | RECV_FAILED
  | RECV_NOTHING
  | RECV_TRUNCATED
  | RECV_DATAGRAM (messages : list RouteMessage) (left_over : bool).

Definition IFF_LOOPBACK : Z := 8.
Definition IF_OPER_UNKNOWN : Z := 0.
Definition UINT_MAX : Z := 4294967295.

(** src: system_sources.c format_mac *)
Definition format_mac (bytes : list Z) (previous : string) (size : nat) : string :=
  if (length bytes <? 6)%nat then previous else snprintf size (join ":" (hex_byte <$> take 6 bytes)).

Section dump.
Context `{TextOps}.

(** src: system_sources.c apply_route_link_attribute *)
Definition apply_route_link_attribute (record : LsmRouteLink) (attribute : RouteAttribute) : LsmRouteLink :=
  match attribute with
  | IFLA_IFNAME payload =>
      if negb (string_forallb (λ c, negb (Ascii.eqb c "000")) payload)
      then record <| rl_name := lsm_copy_string 64 (c_string payload) |> else record
  | IFLA_ADDRESS payload => record <| rl_mac := format_mac payload (rl_mac record) 32 |>
  | IFLA_OPERSTATE (state :: _) => record <| rl_operstate := state |>
  | IFLA_STATS64 (Some (rx, tx)) =>
      record <| rl_rx_bytes := rx |> <| rl_tx_bytes := tx |> <| rl_counters_available := true |>
             <| rl_counters_64bit := true |>
  | IFLA_STATS (Some (rx, tx)) =>
      if negb (rl_counters_64bit record)
      then record <| rl_rx_bytes := rx |> <| rl_tx_bytes := tx |> <| rl_counters_available := true |>
      else record
  | _ => record
  end.

(** src: system_sources.c:637-648 route_link_dump *)
Definition link_of_message (information : LinkMessage) : LsmRouteLink :=
  fold_left apply_route_link_attribute (ifi_attributes information)
    (Build_LsmRouteLink "" "" (if 0 <? ifi_index information then ifi_index information else 0) 0 0 IF_OPER_UNKNOWN
       (ifi_flags information) false false).

Record DumpState := {
  ds_records : list LsmRouteLink;
  ds_complete : bool;
  ds_failed : bool;
  ds_overflow : bool;
}.
#[global] Instance eta_DumpState : Eta DumpState := λ x,
  Build_DumpState (ds_records x) (ds_complete x) (ds_failed x) (ds_overflow x).

(** The messages of one datagram. *)
(** src: system_sources.c:610-658 route_link_dump *)
Fixpoint dump_messages (sequence : Z) (capacity : nat) (messages : list RouteMessage) (d : DumpState) : DumpState :=
  match messages with
  | [] => d
  | header :: messages =>
      let continue := dump_messages sequence capacity messages in
      if negb (nlmsg_seq header =? sequence) then continue d
      else if nlmsg_dump_intr header then d <| ds_failed := true |>
      else
        match nlmsg_payload header with
        | NLMSG_DONE => d <| ds_complete := true |>
        | NLMSG_ERROR None => d <| ds_failed := true |>
        | NLMSG_ERROR (Some error) => continue (if error =? 0 then d else d <| ds_failed := true |>)
        | RTM_NEWLINK (Some information) =>
            if negb (Z.land (ifi_flags information) IFF_LOOPBACK =? 0) then continue d
            else if negb (ifi_attribute_rest information =? 0) then d <| ds_failed := true |>
            else
              let record := link_of_message information in
              if negb (nonempty (rl_name record)) then continue d
              else if (capacity <=? length (ds_records d))%nat then continue (d <| ds_overflow := true |>)
              else continue (d <| ds_records := ds_records d ++ [record] |>)
        | _ => continue d
        end
  end.

(** src: system_sources.c:592-660 route_link_dump *)
Fixpoint dump_loop (sequence : Z) (capacity : nat) (received : list Received) (d : DumpState) : DumpState :=
  match received with
  | RECV_INTERRUPTED :: received => dump_loop sequence capacity received d
  | RECV_DATAGRAM messages left_over :: received =>
      let d := dump_messages sequence capacity messages d in
      let d := if negb (ds_complete d) && negb (ds_failed d) && left_over then d <| ds_failed := true |> else d in
      if ds_complete d || ds_failed d then d else dump_loop sequence capacity received d
  | _ => d <| ds_failed := true |>
  end.

(** The links, when the socket is there and the request could be sent. *)
(** src: system_sources.c route_link_dump *)
Definition route_link_dump (socket sent : bool) (sequence : Z) (capacity : nat) (received : list Received)
    : option (list LsmRouteLink) :=
  if (capacity =? 0)%nat || negb socket then None
  else if negb sent then None
  else
    let d := dump_loop sequence capacity received (Build_DumpState [] false false false) in
    if negb (ds_complete d) || ds_failed d || ds_overflow d then None else Some (ds_records d).

(** ** Announced changes *)

(** [None]: the rest of the datagram is not to be trusted. *)
(** src: system_sources.c:1303-1319 lsm_sources_network_topology_changed *)
Fixpoint change_messages (messages : list RouteMessage) (changed : bool) : option bool :=
  match messages with
  | [] => Some changed
  | header :: messages =>
      match nlmsg_payload header with
      | RTM_NEWLINK _ | RTM_DELLINK | RTM_NEWADDR | RTM_DELADDR => change_messages messages true
      | NLMSG_ERROR _ | NLMSG_OVERRUN => None
      | _ => change_messages messages changed
      end
  end.

(** src: system_sources.c:1283-1323 lsm_sources_network_topology_changed *)
Fixpoint change_loop (received : list Received) (changed : bool) : bool :=
  match received with
  | RECV_INTERRUPTED :: received => change_loop received changed
  | RECV_AGAIN :: _ | RECV_NOTHING :: _ => changed
  | RECV_DATAGRAM messages left_over :: received =>
      match change_messages messages changed with
      | None => true
      | Some changed => if left_over : bool then true else change_loop received changed
      end
  | _ => true
  end.

(** src: system_sources.c lsm_sources_network_topology_changed *)
Definition lsm_sources_network_topology_changed (event_socket request_socket : bool) (received : list Received) : bool :=
  if negb event_socket || negb request_socket then true else change_loop received false.

(** ** The sysfs fallback *)

(** An entry of /sys/class/net: its address as the read left it (empty when there
    is none) and the numbers read. *)
Record SysfsInterface := {
  si_name : string;
  si_address : string;
  si_ifindex : option Z;
  si_rx_bytes : option Z;
  si_tx_bytes : option Z;
}.

(** The directory, its entries, and whether reading or closing it failed. *)
Record SysfsListing := { sl_entries : list SysfsInterface; sl_read_error : bool; sl_close_error : bool }.

(** What sysfs says of the device behind an interface. *)
Record Device := { dev_wireless : bool; dev_product : string; dev_vendor : string }.

(** src: system_sources.c network_ifindex_sysfs *)
Definition network_ifindex_sysfs (entry : SysfsInterface) : Z :=
  if negb (nonempty (si_name entry)) then 0 else
  match si_ifindex entry with
  | Some value => if (value =? 0) || (UINT_MAX <? value) then 0 else value
  | None => 0
  end.

Definition hidden_entry (entry : SysfsInterface) : bool :=
  Ascii.eqb (char_at (si_name entry) 0) "." || strcmp_eq (si_name entry) "lo".

(** One directory scan: the records of the first [capacity] wanted entries and
    whether there were more. *)
Fixpoint scan_entries {A} (make : SysfsInterface → option A) (capacity : nat) (entries : list SysfsInterface)
    (records : list A) (complete : bool) : list A * bool :=
  match entries with
  | [] => (records, complete)
  | entry :: entries =>
      if hidden_entry entry then scan_entries make capacity entries records complete
      else
        match make entry with
        | None => scan_entries make capacity entries records complete
        | Some record =>
            if (capacity <=? length records)%nat then scan_entries make capacity entries records false
            else scan_entries make capacity entries (records ++ [record]) complete
        end
  end.

Definition scan_listing {A} (make : SysfsInterface → option A) (capacity : nat) (listing : option SysfsListing)
    : option (list A) :=
  match listing with
  | None => None
  | Some listing =>
      let '(records, complete) := scan_entries make capacity (sl_entries listing) [] true in
      if complete && negb (sl_read_error listing) && negb (sl_close_error listing) then Some records else None
  end.

(** src: system_sources.c list_networks_sysfs_checked *)
Definition list_networks_sysfs_checked (device : string → Device) (capacity : nat) (listing : option SysfsListing)
    : option (list LsmNetworkRecord) :=
  if (capacity =? 0)%nat then None else
  scan_listing (λ entry,
    let mac := si_address entry in
    let name := lsm_copy_string 64 (si_name entry) in
    Some {| nr_name := name;
            nr_instance_identity :=
              network_instance_identity (network_ifindex_sysfs entry) (si_name entry) mac LSM_IDENTITY_LEN;
            nr_mac := mac;
            nr_product := dev_product (device (si_name entry));
            nr_vendor := dev_vendor (device (si_name entry));
            nr_wireless := dev_wireless (device name) |}) capacity listing.

(** src: system_sources.c network_counters_sysfs_checked *)
Definition network_counters_sysfs_checked (capacity : nat) (listing : option SysfsListing)
    : option (list LsmNetworkCounterRecord) :=
  if (capacity =? 0)%nat then None else
  scan_listing (λ entry,
    match si_rx_bytes entry, si_tx_bytes entry with
    | Some rx, Some tx =>
        let mac := si_address entry in
        Some {| nc_name := lsm_copy_string 64 (si_name entry);
                nc_instance_identity :=
                  network_instance_identity (network_ifindex_sysfs entry) (si_name entry) mac LSM_IDENTITY_LEN;
                nc_rx_bytes := rx; nc_tx_bytes := tx |}
    | _, _ => None
    end) capacity listing.

(** ** Records *)

(** src: system_sources.c:1229-1240 lsm_sources_list_networks_checked *)
Definition record_of_link (device : string → Device) (link : LsmRouteLink) : LsmNetworkRecord :=
  let name := lsm_copy_string 64 (rl_name link) in
  {| nr_name := name;
     nr_instance_identity := network_instance_identity (rl_ifindex link) (rl_name link) (rl_mac link) LSM_IDENTITY_LEN;
     nr_mac := lsm_copy_string 32 (rl_mac link);
     nr_product := dev_product (device name);
     nr_vendor := dev_vendor (device name);
     nr_wireless := dev_wireless (device name) |}.

(** src: system_sources.c lsm_sources_list_networks_checked *)
Definition lsm_sources_list_networks_checked (device : string → Device) (capacity : nat)
    (links : option (list LsmRouteLink)) (listing : option SysfsListing) : option (list LsmNetworkRecord) :=
  if (capacity =? 0)%nat then None else
  match links with
  | None => list_networks_sysfs_checked device capacity listing
  | Some links => if (capacity <? length links)%nat then None else Some (record_of_link device <$> links)
  end.

(** src: system_sources.c:1266-1271 lsm_sources_read_network_counters_checked *)
Definition counter_of_link (link : LsmRouteLink) : LsmNetworkCounterRecord :=
  {| nc_name := lsm_copy_string 64 (rl_name link);
     nc_instance_identity := network_instance_identity (rl_ifindex link) (rl_name link) (rl_mac link) LSM_IDENTITY_LEN;
     nc_rx_bytes := rl_rx_bytes link; nc_tx_bytes := rl_tx_bytes link |}.

(** src: system_sources.c lsm_sources_read_network_counters_checked *)
Definition lsm_sources_read_network_counters_checked (capacity : nat) (links : option (list LsmRouteLink))
    (listing : option SysfsListing) : option (list LsmNetworkCounterRecord) :=
  if (capacity =? 0)%nat then None else
  match links with
  | None => network_counters_sysfs_checked capacity listing
  | Some links =>
      let available := filter (λ link, rl_counters_available link = true) links in
      if (capacity <? length available)%nat then None else Some (counter_of_link <$> available)
  end.
End dump.

(** ** A published dump is the whole dump *)

Section dump_spec.
Context `{TextOps}.

(** A message that does not end, fail or corrupt the dump. *)
Definition plain_message (header : RouteMessage) : Prop :=
  nlmsg_dump_intr header = false ∧
  match nlmsg_payload header with
  | NLMSG_DONE | NLMSG_ERROR None => False
  | NLMSG_ERROR (Some error) => error = 0
  | RTM_NEWLINK (Some information) =>
      Z.land (ifi_flags information) IFF_LOOPBACK = 0 → ifi_attribute_rest information = 0
  | _ => True
  end.

(** The link a message reports: not the loopback, and with a name. *)
Definition link_reported (header : RouteMessage) : option LsmRouteLink :=
  match nlmsg_payload header with
  | RTM_NEWLINK (Some information) =>
      if negb (Z.land (ifi_flags information) IFF_LOOPBACK =? 0) then None
      else let record := link_of_message information in if nonempty (rl_name record) then Some record else None
  | _ => None
  end.

Definition ends_dump (header : RouteMessage) : Prop :=
  nlmsg_dump_intr header = false ∧ nlmsg_payload header = NLMSG_DONE.

Definition of_sequence (sequence : Z) (messages : list RouteMessage) : list RouteMessage :=
  filter (λ header, nlmsg_seq header = sequence) messages.

Definition datagram_messages (received : Received) : list RouteMessage :=
  match received with RECV_DATAGRAM messages _ => messages | _ => [] end.

Lemma dump_messages_failed sequence capacity messages d :
  ds_failed d = true → ds_failed (dump_messages sequence capacity messages d) = true.
Proof.
  revert d. induction messages as [|header messages IH]; intros d Hd; [done|]. cbn [dump_messages].
  destruct (negb (nlmsg_seq header =? sequence)); [by apply IH|]. destruct (nlmsg_dump_intr header); [done|].
  destruct (nlmsg_payload header) as [|[error|]| |[information|]| | | |]; try done; try by apply IH.
  - apply IH. by destruct (error =? 0).
  - repeat (case_match; try done); by apply IH.
Qed.

Lemma dump_messages_overflow sequence capacity messages d :
  ds_overflow d = true → ds_overflow (dump_messages sequence capacity messages d) = true.
Proof.
  revert d. induction messages as [|header messages IH]; intros d Hd; [done|]. cbn [dump_messages].
  destruct (negb (nlmsg_seq header =? sequence)); [by apply IH|]. destruct (nlmsg_dump_intr header); [done|].
  destruct (nlmsg_payload header) as [|[error|]| |[information|]| | | |]; try done; try by apply IH.
  - apply IH. by destruct (error =? 0).
  - repeat (case_match; try done); by apply IH.
Qed.

(** What a datagram that leaves the dump intact contained. *)
Lemma dump_messages_intact sequence capacity messages d :
  let d' := dump_messages sequence capacity messages d in
  ds_complete d = false → ds_failed d' = false → ds_overflow d' = false → (length (ds_records d) <= capacity)%nat →
  ∃ before after, of_sequence sequence messages = before ++ after ∧ Forall plain_message before ∧
    ds_records d' = ds_records d ++ omap link_reported before ∧ (length (ds_records d') <= capacity)%nat ∧
    if ds_complete d' then ∃ last rest, after = last :: rest ∧ ends_dump last else after = [].
Proof.
  revert d. induction messages as [|header messages IH]; intros d d' Hc Hf Ho Hl; subst d'.
  { exists [], []. cbn [dump_messages omap list_omap app]. rewrite Hc, app_nil_r. by split_and!. }
  cbn [dump_messages] in *. unfold of_sequence in *. rewrite filter_cons.
  destruct (decide (nlmsg_seq header = sequence)) as [Hs|Hs].
  2:{ rewrite (proj2 (Z.eqb_neq _ _) Hs) in *. by apply IH. }
  rewrite (proj2 (Z.eqb_eq _ _) Hs) in *. cbn [negb] in *.
  destruct (nlmsg_dump_intr header) eqn:Hi; [done|].
  assert (Hnext : ∀ d1, ds_complete d1 = false → plain_message header →
    ds_records d1 = ds_records d ++ option_list (link_reported header) →
    (length (ds_records d1) <= capacity)%nat →
    ds_failed (dump_messages sequence capacity messages d1) = false →
    ds_overflow (dump_messages sequence capacity messages d1) = false →
    let d' := dump_messages sequence capacity messages d1 in
    ∃ before after, header :: filter (λ h, nlmsg_seq h = sequence) messages = before ++ after ∧ Forall plain_message before ∧
      ds_records d' = ds_records d ++ omap link_reported before ∧ (length (ds_records d') <= capacity)%nat ∧
      if ds_complete d' then ∃ last rest, after = last :: rest ∧ ends_dump last else after = []).
  { intros d1 Hc1 Hp Hr Hl1 Hf1 Ho1. destruct (IH d1 Hc1 Hf1 Ho1 Hl1) as (before & after & E & Hb & Hrec & Hlen & Hend).
    exists (header :: before), after. split_and!; [by rewrite E|by constructor| |done|done].
    rewrite Hrec, Hr, <- app_assoc. f_equal. cbn. by destruct (link_reported header). }
  unfold plain_message, link_reported in Hnext. rewrite Hi in Hnext.
  destruct (nlmsg_payload header) as [|[error|]| |[information|]| | | |] eqn:Hp; try done;
    try (apply Hnext; try done; by rewrite app_nil_r).
  - exists [], (header :: filter (λ h, nlmsg_seq h = sequence) messages).
    split_and!; [done|constructor|by rewrite app_nil_r|done|]. by exists header, (filter (λ h, nlmsg_seq h = sequence) messages).
  - destruct (Z.eqb_spec error 0) as [->|Hne].
    + apply Hnext; try done. by rewrite app_nil_r.
    + by rewrite (dump_messages_failed _ _ _ (d <| ds_failed := true |>)) in Hf.
  - destruct (Z.eqb_spec (Z.land (ifi_flags information) IFF_LOOPBACK) 0) as [Hloop|Hloop]; cbn [negb] in *.
    2:{ apply Hnext; try done. by rewrite app_nil_r. }
    destruct (Z.eqb_spec (ifi_attribute_rest information) 0) as [Hrest|]; [|done]. cbn [negb] in *.
    destruct (nonempty (rl_name (link_of_message information))) eqn:Hname; cbn [negb] in *.
    2:{ apply Hnext; try done. by rewrite app_nil_r. }
    destruct (Nat.leb_spec capacity (length (ds_records d))).
    { by rewrite (dump_messages_overflow _ _ _ (d <| ds_overflow := true |>)) in Ho. }
    apply Hnext; try done. cbn. rewrite length_app. cbn. lia.
Qed.

(** Conversely, plain messages are all taken in. *)
Lemma dump_messages_plain sequence capacity messages d before after :
  of_sequence sequence messages = before ++ after → Forall plain_message before →
  (length (ds_records d ++ omap link_reported before) <= capacity)%nat →
  (after = [] ∨ ∃ last rest, after = last :: rest ∧ ends_dump last) →
  dump_messages sequence capacity messages d =
    d <| ds_records := ds_records d ++ omap link_reported before |>
      <| ds_complete := match after with [] => ds_complete d | _ => true end |>.
Proof.
  unfold of_sequence. revert d before. induction messages as [|header messages IH]; intros d before E Hb Hl Ha.
  { symmetry in E. apply app_eq_nil in E as [-> ->]. cbn. rewrite app_nil_r. by destruct d. }
  rewrite filter_cons in E. cbn [dump_messages]. destruct (decide (nlmsg_seq header = sequence)) as [Hs|Hs].
  2:{ rewrite (proj2 (Z.eqb_neq _ _) Hs). by apply IH. }
  rewrite (proj2 (Z.eqb_eq _ _) Hs). cbn [negb]. destruct before as [|h before].
  - destruct Ha as [->|(last & rest & -> & Hi & Hp)]; [done|]. injection E as -> _. rewrite Hi, Hp.
    cbn. rewrite app_nil_r. by destruct d.
  - injection E as -> E. apply Forall_cons in Hb as [[Hi Hp] Hb]. rewrite Hi.
    assert (Hskip : link_reported h = None → dump_messages sequence capacity messages d =
      d <| ds_records := ds_records d ++ omap link_reported (h :: before) |>
        <| ds_complete := match after with [] => ds_complete d | _ => true end |>).
    { intros Hn. cbn [omap list_omap] in *. rewrite Hn in *. by apply IH. }
    unfold link_reported in Hskip, Hl |- *. cbn [omap list_omap] in Hskip, Hl |- *.
    destruct (nlmsg_payload h) as [|[error|]| |[information|]| | | |]; try done; try by apply Hskip.
    + rewrite Hp. by apply Hskip.
    + destruct (Z.eqb_spec (Z.land (ifi_flags information) IFF_LOOPBACK) 0) as [Hloop|]; cbn [negb] in *; [|by apply Hskip].
      rewrite (Hp Hloop). cbn [Z.eqb negb] in *.
      destruct (nonempty (rl_name (link_of_message information))); cbn [negb] in *; [|by apply Hskip].
      rewrite length_app in Hl. cbn [length] in Hl.
      destruct (Nat.leb_spec capacity (length (ds_records d))); [lia|].
      rewrite (IH _ before E Hb); [|cbn; rewrite <- app_assoc, length_app; cbn; exact Hl|done].
      cbn. rewrite <- app_assoc. done.
Qed.

(** A result of [recvmsg] that leaves the dump intact. *)
Definition intact (received : Received) : Prop :=
  match received with RECV_INTERRUPTED | RECV_DATAGRAM _ false => True | _ => False end.

Definition dump_of (sequence : Z) (received : list Received) : list RouteMessage :=
  of_sequence sequence (concat (datagram_messages <$> received)).

(** The dump [links] was read from start to end. *)
Definition whole_dump (sequence : Z) (received : list Received) (links : list LsmRouteLink) : Prop :=
  ∃ first messages left_over rest before last after,
    received = first ++ RECV_DATAGRAM messages left_over :: rest ∧ Forall intact first ∧
    of_sequence sequence messages = before ++ last :: after ∧
    Forall plain_message (dump_of sequence first ++ before) ∧ ends_dump last ∧
    links = omap link_reported (dump_of sequence first ++ before).

Lemma dump_of_cons sequence received rest :
  dump_of sequence (received :: rest) = of_sequence sequence (datagram_messages received) ++ dump_of sequence rest.
Proof. unfold dump_of, of_sequence. cbn. by rewrite filter_app. Qed.

Lemma dump_loop_whole sequence capacity received d :
  let d' := dump_loop sequence capacity received d in
  ds_complete d = false → ds_failed d' = false → ds_overflow d' = false → ds_failed d = false →
  (length (ds_records d) <= capacity)%nat →
  ∃ links, whole_dump sequence received links ∧ ds_records d' = ds_records d ++ links ∧
    (length (ds_records d') <= capacity)%nat.
Proof.
  revert d. induction received as [|r received IH]; intros d d' Hc Hf Ho Hd Hl; subst d'; [done|].
  cbn [dump_loop] in *. destruct r as [| | | | |messages left_over]; try done.
  { destruct (IH d Hc Hf Ho Hd Hl) as (links & (first & ms & lo & rest & b & l & a & -> & Hi & E & Hp & He & ->) & Hr).
    exists (omap link_reported (dump_of sequence first ++ b)). split; [|done].
    exists (RECV_INTERRUPTED :: first), ms, lo, rest, b, l, a. split_and!; try done. by constructor. }
  set (d1 := dump_messages sequence capacity messages d) in *.
  pose proof (dump_messages_intact sequence capacity messages d Hc) as Hm. cbn zeta in Hm. fold d1 in Hm.
  destruct (ds_failed d1) eqn:Hf1.
  { rewrite andb_false_r in Hf. cbn [andb negb] in Hf. rewrite Hf1, orb_true_r in Hf. congruence. }
  rewrite andb_true_r in *. destruct (ds_complete d1) eqn:Hc1; cbn [andb negb orb] in *.
  - rewrite Hc1 in *. cbn [orb] in *. destruct (Hm eq_refl Ho Hl) as (b & a & E & Hp & Hr & Hlen & (last & rest & -> & He)).
    exists (omap link_reported b). split; [|done]. exists [], messages, left_over, received, b, last, rest. by split_and!.
  - destruct left_over; [by rewrite orb_true_r in Hf|]. rewrite Hc1, Hf1 in *. cbn [orb] in *.
    assert (Ho1 : ds_overflow d1 = false).
    { destruct (ds_overflow d1) eqn:E1; [|done]. exfalso. clear -E1 Ho.
      revert Ho. generalize dependent d1. clear. induction received as [|r received IH]; intros d Hd; [cbn; congruence|].
      cbn [dump_loop]. destruct r as [| | | | |messages lo]; try (cbn; congruence); [by apply IH|].
      pose proof (dump_messages_overflow sequence capacity messages d Hd) as Hm.
      repeat case_match; try (cbn in *; congruence); by apply IH. }
    destruct (Hm eq_refl Ho1 Hl) as (b & a & E & Hp & Hr & Hlen & ->). rewrite app_nil_r in E.
    destruct (IH d1 Hc1 Hf Ho Hf1 Hlen)
      as (links & (first & ms & lo & rest & b' & l & a & -> & Hi & E' & Hp' & He & ->) & Hr' & Hlen').
    exists (omap link_reported (b ++ dump_of sequence first ++ b')).
    split; [|split; [by rewrite Hr', Hr, (omap_app _ b), app_assoc|done]].
    exists (RECV_DATAGRAM messages false :: first), ms, lo, rest, b', l, a. rewrite dump_of_cons. cbn [datagram_messages].
    rewrite E, <- app_assoc. split_and!; try done; [by constructor|by apply Forall_app].
Qed.

Lemma whole_dump_loop sequence capacity first messages left_over rest before last after d :
  Forall intact first → of_sequence sequence messages = before ++ last :: after →
  Forall plain_message (dump_of sequence first ++ before) → ends_dump last →
  ds_failed d = false → ds_complete d = false →
  (length (ds_records d ++ omap link_reported (dump_of sequence first ++ before)) <= capacity)%nat →
  dump_loop sequence capacity (first ++ RECV_DATAGRAM messages left_over :: rest) d =
    d <| ds_records := ds_records d ++ omap link_reported (dump_of sequence first ++ before) |> <| ds_complete := true |>.
Proof.
  intros Hi E Hp He. revert d Hp. induction Hi as [|r first Hr Hi IH]; intros d Hp Hf Hc Hl.
  - cbn [app dump_loop]. rewrite (dump_messages_plain sequence capacity messages d before (last :: after) E Hp Hl) by
      (right; by exists last, after). cbn. by destruct d.
  - rewrite dump_of_cons in *. cbn [app dump_loop]. destruct r as [| | | | |ms []]; try done; [by apply IH|].
    cbn [datagram_messages] in *. rewrite <- app_assoc in *. apply Forall_app in Hp as [Hp1 Hp2].
    assert (Hl1 : (length (ds_records d ++ omap link_reported (of_sequence sequence ms)) <= capacity)%nat).
    { rewrite omap_app, !length_app in *. lia. }
    rewrite (dump_messages_plain sequence capacity ms d (of_sequence sequence ms) []); [|by rewrite app_nil_r|done|done|by left].
    destruct d as [records complete failed overflow]. cbn in Hf, Hc |- *. subst failed complete. cbn.
    rewrite IH; cbn; [|done..|by rewrite <- app_assoc, <- omap_app].
    by rewrite <- app_assoc, <- omap_app.
Qed.

(** (C19) A link dump is published whole or not at all.  [route_link_dump] gives
    links exactly when its socket was there, the request could be sent, and the
    answer - however the kernel splits it into datagrams, with interrupted calls
    and messages of other requests in between - was received up to its end
    without an interruption mark, an error or a malformed message; and then they
    are the named links other than the loopback, all of them, in order. *)
Theorem link_dump_whole socket sent sequence capacity received links :
  route_link_dump socket sent sequence capacity received = Some links ↔
  socket = true ∧ sent = true ∧ capacity ≠ 0%nat ∧ (length links <= capacity)%nat ∧
  whole_dump sequence received links.
Proof.
  unfold route_link_dump. destruct (Nat.eqb_spec capacity 0) as [->|Hcap]; [by naive_solver|].
  destruct socket, sent; try (cbn; naive_solver). cbn [negb orb].
  pose proof (dump_loop_whole sequence capacity received (Build_DumpState [] false false false) eq_refl) as Hw.
  cbn zeta in Hw. set (d := dump_loop _ _ _ _) in *. split.
  - destruct (ds_complete d) eqn:Hc, (ds_failed d) eqn:Hf, (ds_overflow d) eqn:Ho; try done. intros [= <-].
    destruct (Hw eq_refl eq_refl eq_refl) as (links & Hwhole & -> & Hlen); [cbn; lia|]. by split_and!.
  - intros (_ & _ & _ & Hlen & (first & ms & lo & rest & b & l & a & -> & Hi & E & Hp & He & ->)). subst d.
    rewrite (whole_dump_loop sequence capacity first ms lo rest b l a) by done. done.
Qed.
End dump_spec.

(** ** Identities tell instances apart *)

(** A number and what follows it, up to a character that is not a digit. *)
Lemma digits_prefix_inj a b r r' :
  string_forallb is_decimal a = true → string_forallb is_decimal b = true →
  is_decimal (char_at r 0) = false → is_decimal (char_at r' 0) = false → a +:+ r = b +:+ r' → a = b.
Proof.
  revert b. induction a as [|c a IH]; intros [|c' b] Ha Hb Hr Hr' E; [done| | |].
  - change (r = String c' (b +:+ r')) in E. subst r. change (is_decimal c' = false) in Hr.
    cbn [string_forallb] in Hb. bool_hyps. congruence.
  - change (String c (a +:+ r) = r') in E. subst r'. change (is_decimal c = false) in Hr'.
    cbn [string_forallb] in Ha. bool_hyps. congruence.
  - cbn [string_forallb] in Ha, Hb. injection E as -> E. bool_hyps. f_equal. by apply IH.
Qed.

(** The identity of a live instance starts with its index. *)
Lemma identity_of_index ifindex name mac : 0 < ifindex →
  ∃ suffix, network_instance_identity ifindex name mac LSM_IDENTITY_LEN = "ifindex:" +:+ print_u64 ifindex +:+ suffix
    ∧ is_decimal (char_at suffix 0) = false.
Proof.
  intros Hi. destruct (print_u64_text ifindex ltac:(lia)) as (_ & _ & Hl). unfold network_instance_identity.
  rewrite (proj2 (Z.ltb_lt 0 ifindex) Hi). cbn [andb].
  destruct (if network_mac_identity_usable mac then _ else None) as [text|] eqn:E.
  - destruct (network_mac_identity_usable mac); [|done]. unfold print_fits in E. case_match; [|done].
    injection E as <-. exists ("|mac:" +:+ mac). split; [|done]. by rewrite <- !string_app_assoc.
  - unfold print_fits. rewrite (proj2 (Nat.ltb_lt _ _)).
    + exists EmptyString. split; [|done]. by rewrite string_app_nil_r.
    + change (String.length ("ifindex:" +:+ print_u64 ifindex)) with (8 + String.length (print_u64 ifindex))%nat.
      unfold LSM_IDENTITY_LEN. lia.
Qed.

Lemma identity_index_inj i j name name' mac mac' : 0 < i → 0 < j → u64 i → u64 j →
  network_instance_identity i name mac LSM_IDENTITY_LEN = network_instance_identity j name' mac' LSM_IDENTITY_LEN → i = j.
Proof.
  intros Hi Hj Hui Huj E. destruct (identity_of_index i name mac Hi) as (r & Er & Hr).
  destruct (identity_of_index j name' mac' Hj) as (r' & Er' & Hr'). rewrite Er, Er' in E. injection E as E.
  destruct (print_u64_text i) as (Hdi & _ & _); [lia|]. destruct (print_u64_text j) as (Hdj & _ & _); [lia|].
  pose proof (digits_prefix_inj _ _ _ _ Hdi Hdj Hr Hr' E) as Ed. rewrite <- (print_u64_value i Hui), <- (print_u64_value j Huj). by rewrite Ed.
Qed.

Lemma identity_length ifindex name mac : (String.length (network_instance_identity ifindex name mac LSM_IDENTITY_LEN) < LSM_IDENTITY_LEN)%nat.
Proof.
  assert (Hn : (String.length (snprintf LSM_IDENTITY_LEN ("name:" +:+ name)) < LSM_IDENTITY_LEN)%nat).
  { unfold snprintf. pose proof (substring_0_length (LSM_IDENTITY_LEN - 1) ("name:" +:+ name)).
    unfold LSM_IDENTITY_LEN in *. lia. }
  unfold network_instance_identity, print_fits. repeat case_match; simplify_eq; bool_hyps; try lia; try done;
    cbn; unfold LSM_IDENTITY_LEN; lia.
Qed.

Lemma identity_nonempty ifindex name mac : 0 < ifindex → nonempty (network_instance_identity ifindex name mac LSM_IDENTITY_LEN) = true.
Proof. intros Hi. by destruct (identity_of_index ifindex name mac Hi) as (r & -> & _). Qed.

From S2P Require Import CommonReference.

Definition sample_link (index : Z) (name : string) (stats : RouteAttribute) : RouteMessage :=
  Build_RouteMessage 7 false (RTM_NEWLINK (Some (Build_LinkMessage index 4099
    [IFLA_IFNAME (name +:+ String "000" ""); stats; IFLA_ADDRESS [2; 0; 0; 171; 205; index];
     IFLA_STATS (Some (11, 12))] 0))).
Definition sample_dump : list Received :=
  [RECV_INTERRUPTED;
   RECV_DATAGRAM [sample_link 2 "eth0" (IFLA_STATS64 (Some (5000000000, 6)));
                  Build_RouteMessage 6 true NLMSG_DONE] false;
   RECV_DATAGRAM [sample_link 3 "wlan0" IFLA_OTHER; Build_RouteMessage 7 false NLMSG_DONE] true].

Lemma link_dump_whole_witness :
  route_link_dump true true 7 64 sample_dump =
    Some [Build_LsmRouteLink "eth0" "02:00:00:ab:cd:02" 2 5000000000 6 0 4099 true true;
          Build_LsmRouteLink "wlan0" "02:00:00:ab:cd:03" 3 11 12 0 4099 true false] ∧
  whole_dump 7 sample_dump
    [Build_LsmRouteLink "eth0" "02:00:00:ab:cd:02" 2 5000000000 6 0 4099 true true;
     Build_LsmRouteLink "wlan0" "02:00:00:ab:cd:03" 3 11 12 0 4099 true false].
Proof. split; [vm_compute; reflexivity|]. by apply (link_dump_whole true true 7 64). Defined.
