(* ===== verification/NetworkMonitor.v ===== *)
(** * NetworkMonitor: interfaces, their counters and their rates

    Models the network half of [src/src/monitor_storage_network.c].

    The public entries ([mon_nets]) and the retained baselines are separate arrays
    that a topology refresh rebuilds; a counter sample finds the baseline of an
    entry by its instance identity.  The netlink dump, the addresses, the link
    attributes and the wireless answers are arguments. *)
From S2P Require Import Prelude Double Rounding CStrings Common ProcessModel MonitorTypes WifiMetadata NetworkLinks.
Local Open Scope Z_scope.

(** src: monitor_linux_internal.h:38-44 LsmLinuxNetworkState *)
Record LsmLinuxNetworkState := {
  ns_name : string;
  ns_instance_identity : string;
  ns_previous_rx : Z;
  ns_previous_tx : Z;
  ns_initialized : bool;
}.
#[export] Instance eta_LsmLinuxNetworkState : Eta LsmLinuxNetworkState := λ x,
  Build_LsmLinuxNetworkState (ns_name x) (ns_instance_identity x) (ns_previous_rx x) (ns_previous_tx x)
    (ns_initialized x).

(** The part of the monitor and its backend state these functions use; the arrays
    are the lists of their occupied slots. *)
Record NetworkMonitor := {
  nm_nets : list LsmNetInfo;
  nm_states : list LsmLinuxNetworkState;
  nm_topology_generation : Z;
  nm_wifi : option (bool * list LsmWifiCacheRecord);   (** socket open, records *)
}.
#[export] Instance eta_NetworkMonitor : Eta NetworkMonitor := λ x,
  Build_NetworkMonitor (nm_nets x) (nm_states x) (nm_topology_generation x) (nm_wifi x).

(** ** Instances *)

(** src: monitor_storage_network.c network_instance_matches *)
Definition network_instance_matches (left_identity left_name right_identity right_name : string) : bool :=
  if nonempty left_identity && nonempty right_identity then strcmp_eq left_identity right_identity
  else strcmp_eq left_name right_name.

(** src: monitor_storage_network.c find_network_state *)
Definition find_network_state (states : list LsmLinuxNetworkState) (net : LsmNetInfo)
    : option (nat * LsmLinuxNetworkState) :=
  list_find (λ state, network_instance_matches (ns_instance_identity state) (ns_name state)
                        (net_instance_identity net) (net_name net)) states.

(** src: monitor_storage_network.c find_old_network *)
Definition find_old_network (nets : list LsmNetInfo) (net : LsmNetInfo) : option LsmNetInfo :=
  snd <$> list_find (λ old, network_instance_matches (net_instance_identity old) (net_name old)
                        (net_instance_identity net) (net_name net)) nets.

Section networks.
Context `{TextOps}.

(** src: monitor_storage_network.c reconcile_network_states *)
Definition reconcile_network_states (states : list LsmLinuxNetworkState) (nets : list LsmNetInfo)
    : list LsmLinuxNetworkState :=
  (λ net,
     let next := match find_network_state states net with
                 | Some (_, old) => old
                 | None => Build_LsmLinuxNetworkState "" "" 0 0 false
                 end in
     next <| ns_name := lsm_copy_string 64 (net_name net) |>
          <| ns_instance_identity := lsm_copy_string LSM_IDENTITY_LEN (net_instance_identity net) |>)
  <$> take LSM_MAX_NETS nets.

(** src: monitor_storage_network.c:413-423 refresh_networks *)
Definition discovered_network (record : LsmNetworkRecord) : LsmNetInfo :=
  zero_LsmNetInfo <| net_name := lsm_copy_string 64 (nr_name record) |>
           <| net_instance_identity := lsm_copy_string LSM_IDENTITY_LEN (nr_instance_identity record) |>
           <| net_mac := lsm_copy_string 32 (nr_mac record) |>
           <| net_product := lsm_copy_string LSM_NAME_LEN (nr_product record) |>
           <| net_vendor := lsm_copy_string LSM_NAME_LEN (nr_vendor record) |>
           <| net_wireless := nr_wireless record |>.

(** src: monitor_storage_network.c:426-439 refresh_networks *)
Definition retained_network (nets : list LsmNetInfo) (found : LsmNetInfo) : LsmNetInfo :=
  match find_old_network nets found with
  | None => found
  | Some old =>
      old <| net_name := lsm_copy_string 64 (net_name found) |>
          <| net_instance_identity := lsm_copy_string LSM_IDENTITY_LEN (net_instance_identity found) |>
          <| net_mac := lsm_copy_string 32 (net_mac found) |>
          <| net_product := lsm_copy_string LSM_NAME_LEN (net_product found) |>
          <| net_vendor := lsm_copy_string LSM_NAME_LEN (net_vendor found) |>
          <| net_wireless := net_wireless found |>
  end.

Definition compare_network_names (left right : LsmNetInfo) : comparison := strcmp (net_name left) (net_name right).

(** src: monitor_storage_network.c:444-455 refresh_networks *)
Definition networks_changed (discovered nets : list LsmNetInfo) : bool :=
  negb (length discovered =? length nets)%nat
  || existsb (λ '(net, old), negb (network_instance_matches (net_instance_identity net) (net_name net)
                                      (net_instance_identity old) (net_name old)))
       (zip discovered nets).

Context `{Qsort}.

(** The records of the dump, [None] when it failed. *)
(** src: monitor_storage_network.c refresh_networks *)
Definition refresh_networks (m : NetworkMonitor) (allocated : bool) (records : option (list LsmNetworkRecord))
    : bool * NetworkMonitor :=
  if negb allocated then (false, m) else
  match records with
  | None => (false, m)
  | Some records =>
      let discovered := qsort compare_network_names
                          (retained_network (nm_nets m) <$> (discovered_network <$> records)) in
      let states := reconcile_network_states (nm_states m) discovered in
      let changed := networks_changed discovered (nm_nets m) in
      (true, m <| nm_states := states |> <| nm_nets := discovered |>
               <| nm_topology_generation := if changed then wrap 64 (nm_topology_generation m + 1)
                                            else nm_topology_generation m |>)
  end.

(** ** Addresses *)

Inductive Family := AF_INET | AF_INET6 | AF_OTHER.
#[local] Instance family_eq_dec : EqDecision Family.
Proof. solve_decision. Defined.

(** One address of the list: interface, family, its text when it has one. *)
Record InterfaceAddress := { ia_name : string; ia_family : Family; ia_text : string }.

(** The first address of a family an interface has that could be printed. *)
(** src: monitor_storage_network.c:481-503 update_interface_addresses *)
Fixpoint first_address (addresses : list InterfaceAddress) (name : string) (family : Family) : string :=
  match addresses with
  | [] => EmptyString
  | address :: addresses =>
      if strcmp_eq name (ia_name address) && bool_decide (ia_family address = family) && nonempty (ia_text address)
      then ia_text address else first_address addresses name family
  end.

(** src: monitor_storage_network.c update_interface_addresses *)
Definition update_interface_addresses (m : NetworkMonitor) (addresses : option (list InterfaceAddress))
    : NetworkMonitor :=
  match addresses with
  | None => m
  | Some addresses =>
      m <| nm_nets := (λ net, net <| net_ipv4 := lsm_copy_string 64 (first_address addresses (net_name net) AF_INET) |>
                                  <| net_ipv6 := lsm_copy_string 128 (first_address addresses (net_name net) AF_INET6) |>)
                      <$> nm_nets m |>
  end.

(** ** Counters *)

Context `{ArithmeticOps, AsciiOps, TimingOps}.

(** What sysfs says about a link: its state, its speed or NaN. *)
Record LinkAttributes := { la_operstate : option string; la_speed : double }.

(** src: monitor_storage_network.c update_network_link_details *)
Definition update_network_link_details (net : LsmNetInfo) (link : LinkAttributes) : LsmNetInfo :=
  if negb (nonempty (net_name net)) then net else
  let net := match la_operstate link with
             | Some (String c state) =>
                 net <| net_connection_state := lsm_copy_string 32 (String (lsm_ascii_to_upper c) state) |>
             | _ => net <| net_connection_state := lsm_copy_string 32 "Unknown" |>
             end in
  if negb (net_wireless net) then
    let net := net <| net_link_speed_mbps := d0 |> in
    if isfinite (la_speed link) && dgt (la_speed link) d0 then net <| net_link_speed_mbps := la_speed link |> else net
  else net.

(** The first counter record of this very instance. *)
(** src: monitor_storage_network.c:552-562 update_networks *)
Definition counters_of (counters : list LsmNetworkCounterRecord) (own name : string) : option (Z * Z) :=
  (λ c : nat * LsmNetworkCounterRecord, (nc_rx_bytes c.2, nc_tx_bytes c.2)) <$>
  list_find (λ c, strcmp_eq name (nc_name c)
                  && network_instance_matches own name (nc_instance_identity c) (nc_name c)) counters.

(** src: monitor_storage_network.c:566-577 update_networks *)
Definition counter_rates (available : option (Z * Z)) (baseline : option (Z * Z)) (elapsed : double) : double * double :=
  match available, baseline with
  | Some (rx, tx), Some (previous_rx, previous_tx) =>
      if dgt elapsed d0 then
        let rate current previous :=
          let '(ok, rate) := lsm_u64_counter_rate current previous (ldouble_of_Z 1) elapsed d0 in
          if ok : bool then rate else NAN in
        (rate rx previous_rx, rate tx previous_tx)
      else (NAN, NAN)
  | _, _ => (NAN, NAN)
  end.

(** The conversion [(long double)x], which is exact. *)
Definition ldouble_of_double (x : double) : ldouble :=
  match x with
  | S754_finite s m e => binary_normalize 64 16384 (if s then Z.neg m else Z.pos m) e s
  | _ => x
  end.

(** src: monitor_storage_network.c:601-607 update_networks *)
Definition utilisation (rx_rate tx_rate link_speed : double) : double :=
  let busiest := fmax (ldouble_of_double rx_rate) (ldouble_of_double tx_rate) in
  let capacity := lddiv (ldmul (ldouble_of_double link_speed) (ldouble_of_Z 1000000)) (ldouble_of_Z 8) in
  double_of_ldouble (fmin (ldouble_of_Z 100) (fmax d0 (lddiv (ldmul busiest (ldouble_of_Z 100)) capacity))).

(** What one update reads. *)
Record NetworkInputs := {
  ni_counters : option (list LsmNetworkCounterRecord);
  ni_elapsed : double;
  ni_link : string → LinkAttributes;
  ni_wifi_now : string → double;
  ni_wifi : string → WifiAnswers;
}.

Definition baseline_of (state : LsmLinuxNetworkState) : option (Z * Z) :=
  if ns_initialized state then Some (ns_previous_rx state, ns_previous_tx state) else None.

(** src: monitor_storage_network.c:583-587 update_networks *)
Definition next_state (state : LsmLinuxNetworkState) (available : option (Z * Z)) : LsmLinuxNetworkState :=
  match available with
  | Some (rx, tx) => state <| ns_previous_rx := rx |> <| ns_previous_tx := tx |> <| ns_initialized := true |>
  | None => state <| ns_initialized := false |>
  end.

(** One interface. *)
(** src: monitor_storage_network.c:547-612 update_networks *)
Definition update_network (refresh_link : bool) (inputs : NetworkInputs) (net : LsmNetInfo) (states : list LsmLinuxNetworkState)
    (wifi : option (bool * list LsmWifiCacheRecord))
    : LsmNetInfo * list LsmLinuxNetworkState * option (bool * list LsmWifiCacheRecord) :=
  let available := match ni_counters inputs with
                   | Some counters => counters_of counters (net_instance_identity net) (net_name net)
                   | None => None
                   end in
  let state := find_network_state states net in
  let '(rx_rate, tx_rate) :=
    counter_rates available (match state with Some (_, s) => baseline_of s | None => None end) (ni_elapsed inputs) in
  let net := net <| net_rx_bytes_per_sec := rx_rate |> <| net_tx_bytes_per_sec := tx_rate |> in
  let net := match available with
             | Some (rx, tx) => net <| net_rx_bytes_total := rx |> <| net_tx_bytes_total := tx |>
             | None => net
             end in
  let states := match state with Some (index, s) => <[index := next_state s available]> states | None => states end in
  let net := if refresh_link || negb (nonempty (net_connection_state net))
             then update_network_link_details net (ni_link inputs (net_name net)) else net in
  let '(wifi, net) :=
    match wifi with
    | Some (socket, records) =>
        let '(records, net) := lsm_wifi_metadata_refresh socket records net (ni_wifi_now inputs (net_name net))
                                 (ni_wifi inputs (net_name net)) in
        (Some (socket, records), net)
    | None => (None, net)
    end in
  let net :=
    if bool_decide (is_Some available) && isfinite (net_rx_bytes_per_sec net) && isfinite (net_tx_bytes_per_sec net)
       && dgt (net_link_speed_mbps net) d0
    then net <| net_utilisation_percent :=
                  utilisation (net_rx_bytes_per_sec net) (net_tx_bytes_per_sec net) (net_link_speed_mbps net) |>
             <| net_utilisation_available := true |>
    else net <| net_utilisation_percent := NAN |> <| net_utilisation_available := false |> in
  (net, states, wifi).

Fixpoint update_loop (refresh_link : bool) (inputs : NetworkInputs) (nets : list LsmNetInfo) (states : list LsmLinuxNetworkState)
    (wifi : option (bool * list LsmWifiCacheRecord))
    : list LsmNetInfo * list LsmLinuxNetworkState * option (bool * list LsmWifiCacheRecord) :=
  match nets with
  | [] => ([], states, wifi)
  | net :: nets =>
      let '(net, states, wifi) := update_network refresh_link inputs net states wifi in
      let '(nets, states, wifi) := update_loop refresh_link inputs nets states wifi in
      (net :: nets, states, wifi)
  end.

(** src: monitor_storage_network.c update_networks *)
Definition update_networks (m : NetworkMonitor) (refresh_link : bool) (inputs : NetworkInputs) : NetworkMonitor :=
  let '(nets, states, wifi) := update_loop refresh_link inputs (nm_nets m) (nm_states m) (nm_wifi m) in
  m <| nm_nets := nets |> <| nm_states := states |> <| nm_wifi := wifi |>.

(** ** One update of the backend *)

(** What one call sees. *)
Record NetworkEvent := {
  ne_refresh_topology : bool;
  ne_topology_changed : bool;
  ne_allocated : bool;
  ne_records : option (list LsmNetworkRecord);
  ne_addresses : option (list InterfaceAddress);
  ne_inputs : NetworkInputs;
}.

(** The network half of the start. *)
(** src: monitor_storage_network.c:621-623 lsm_storage_initialise *)
Definition lsm_storage_initialise_networks (m : NetworkMonitor) (allocated : bool)
    (records : option (list LsmNetworkRecord)) (addresses : option (list InterfaceAddress)) : bool * NetworkMonitor :=
  let '(ok, m) := refresh_networks m allocated records in
  if negb ok then (false, m) else (true, update_interface_addresses m addresses).

(** The network half of an update; the first component says whether it was
    complete. *)
(** src: monitor_storage_network.c:634-644 lsm_storage_update *)
Definition lsm_storage_update_networks (m : NetworkMonitor) (event : NetworkEvent) : bool * NetworkMonitor :=
  let '(complete, m) :=
    if ne_refresh_topology event && ne_topology_changed event then
      let '(ok, m) := refresh_networks m (ne_allocated event) (ne_records event) in
      if ok : bool then (true, update_interface_addresses m (ne_addresses event)) else (false, m)
    else (true, m) in
  (complete, update_networks m (ne_refresh_topology event) (ne_inputs event)).
End networks.

(** ** The interfaces as a map

    Forgetting the arrays and their order: each instance has its name, the counters
    of the last sample if that sample had them, and the rates published. *)

Record Interface := {
  if_name : string;
  if_baseline : option (Z * Z);
  if_rates : double * double;
}.

Definition row (net : LsmNetInfo) (state : LsmLinuxNetworkState) : string * Interface :=
  (net_instance_identity net,
   Build_Interface (net_name net) (baseline_of state) (net_rx_bytes_per_sec net, net_tx_bytes_per_sec net)).

Definition interfaces_of (nets : list LsmNetInfo) (states : list LsmLinuxNetworkState) : gmap string Interface :=
  list_to_map (zip_with row nets states).

Definition interfaces (m : NetworkMonitor) : gmap string Interface := interfaces_of (nm_nets m) (nm_states m).

(** A topology: known instances keep what they had, new ones have nothing. *)
Definition discover (known : gmap string Interface) (records : list LsmNetworkRecord) : gmap string Interface :=
  list_to_map
    ((λ r, (nr_instance_identity r,
            match known !! nr_instance_identity r with
            | Some i => Build_Interface (nr_name r) (if_baseline i) (if_rates i)
            | None => Build_Interface (nr_name r) None (d0, d0)
            end)) <$> records).

Section map_model.
Context `{ArithmeticOps}.

Definition sampled_counters (inputs : NetworkInputs) (own name : string) : option (Z * Z) :=
  match ni_counters inputs with Some counters => counters_of counters own name | None => None end.

(** A sample: each instance is measured against its own last counters. *)
Definition sample_interface_map (known : gmap string Interface) (inputs : NetworkInputs) : gmap string Interface :=
  map_imap (λ own i,
    let available := sampled_counters inputs own (if_name i) in
    Some (Build_Interface (if_name i) available (counter_rates available (if_baseline i) (ni_elapsed inputs)))) known.

Definition update_interface_map (known : gmap string Interface) (event : NetworkEvent) : gmap string Interface :=
  let known :=
    match (if ne_refresh_topology event && ne_topology_changed event && ne_allocated event
           then ne_records event else None) with
    | Some records => discover known records
    | None => known
    end in
  sample_interface_map known (ne_inputs event).
End map_model.

(** ** The refinement *)

Definition same_instance (net : LsmNetInfo) (state : LsmLinuxNetworkState) : Prop :=
  ns_name state = net_name net ∧ ns_instance_identity state = net_instance_identity net.

Definition identified (net : LsmNetInfo) : Prop := nonempty (net_instance_identity net) = true.

Record aligned (nets : list LsmNetInfo) (states : list LsmLinuxNetworkState) : Prop := {
  al_same : Forall2 same_instance nets states;
  al_distinct : NoDup (net_instance_identity <$> nets);
  al_identified : Forall identified nets;
}.

(** The records of a dump: their fields fit, and instances are told apart. *)
Record records_ok (records : list LsmNetworkRecord) : Prop := {
  ro_capacity : (length records <= LSM_MAX_NETS)%nat;
  ro_fit : Forall (λ r, (String.length (nr_name r) < 64)%nat ∧
                        (String.length (nr_instance_identity r) < LSM_IDENTITY_LEN)%nat) records;
  ro_distinct : NoDup (nr_instance_identity <$> records);
  ro_identified : Forall (λ r, nonempty (nr_instance_identity r) = true) records;
}.

Lemma matches_identified left_identity left_name right_identity right_name :
  nonempty left_identity = true → nonempty right_identity = true →
  network_instance_matches left_identity left_name right_identity right_name = strcmp_eq left_identity right_identity.
Proof. intros Hl Hr. unfold network_instance_matches. by rewrite Hl, Hr. Qed.

Lemma find_state_cons state states net :
  snd <$> find_network_state (state :: states) net =
  if network_instance_matches (ns_instance_identity state) (ns_name state) (net_instance_identity net) (net_name net)
  then Some state else snd <$> find_network_state states net.
Proof.
  unfold find_network_state. cbn [list_find]. destruct (network_instance_matches _ _ _ _); [done|]. cbn.
  by destruct (list_find _ states) as [[]|].
Qed.

Lemma find_old_cons old nets net :
  find_old_network (old :: nets) net =
  if network_instance_matches (net_instance_identity old) (net_name old) (net_instance_identity net) (net_name net)
  then Some old else find_old_network nets net.
Proof.
  unfold find_old_network. cbn [list_find]. destruct (network_instance_matches _ _ _ _); [done|]. cbn.
  by destruct (list_find _ nets) as [[]|].
Qed.

(** Both arrays are searched by identity. *)
Lemma interfaces_lookup nets states net : Forall2 same_instance nets states → Forall identified nets → identified net →
  interfaces_of nets states !! net_instance_identity net =
    match find_old_network nets net, snd <$> find_network_state states net with
    | Some old, Some state => Some (row old state).2
    | _, _ => None
    end ∧ (find_old_network nets net = None ↔ snd <$> find_network_state states net = None).
Proof.
  intros Hs Hi Hnet. induction Hs as [|old state nets states [Hname Hid] Hs IH]; [done|].
  apply Forall_cons in Hi as [Ho Hi]. specialize (IH Hi). rewrite find_state_cons, find_old_cons.
  unfold identified in *. rewrite !matches_identified by congruence. rewrite Hid.
  change (interfaces_of (old :: nets) (state :: states))
    with (<[net_instance_identity old := (row old state).2]> (interfaces_of nets states)).
  destruct (strcmp_eq (net_instance_identity old) (net_instance_identity net)) eqn:E.
  - apply strcmp_eq_true in E. rewrite E, lookup_insert_eq. by split.
  - assert (net_instance_identity old ≠ net_instance_identity net) as Hne.
    { intros He. apply strcmp_eq_true in He. congruence. }
    by rewrite lookup_insert_ne.
Qed.

(** *** A topology *)

Section topology.
Context `{TextLaws, !Qsort, !QsortLaws}.

Lemma compare_network_names_preorder : preorder_cmp compare_network_names.
Proof. split; [intros; apply strcmp_antisym|]. intros x y z. apply (cmp_trans _ strcmp_preorder). Qed.

(** An entry made from a record carries its name and identity, and the rates the
    instance had. *)
Lemma retained_facts nets r :
  (String.length (nr_name r) < 64)%nat → (String.length (nr_instance_identity r) < LSM_IDENTITY_LEN)%nat →
  let net := retained_network nets (discovered_network r) in
  net_name net = nr_name r ∧ net_instance_identity net = nr_instance_identity r ∧
  (net_rx_bytes_per_sec net, net_tx_bytes_per_sec net) =
    match find_old_network nets (discovered_network r) with
    | Some old => (net_rx_bytes_per_sec old, net_tx_bytes_per_sec old) | None => (d0, d0) end ∧
  net_utilisation_available net =
    match find_old_network nets (discovered_network r) with
    | Some old => net_utilisation_available old | None => false end ∧
  net_utilisation_percent net =
    match find_old_network nets (discovered_network r) with
    | Some old => net_utilisation_percent old | None => d0 end.
Proof.
  intros Hn Hi. unfold retained_network, discovered_network.
  destruct (find_old_network nets _); cbn; by rewrite !copy_string_fits by (rewrite ?copy_string_fits; done).
Qed.

(** The row of a new entry: the baseline is looked up in the old states. *)
Definition interface_row (states : list LsmLinuxNetworkState) (net : LsmNetInfo) : string * Interface :=
  (net_instance_identity net,
   Build_Interface (net_name net) ((snd <$> find_network_state states net) ≫= baseline_of)
     (net_rx_bytes_per_sec net, net_tx_bytes_per_sec net)).

(** Look-ups only see the name and the identity. *)
Lemma find_state_same states net net' : net_name net = net_name net' →
  net_instance_identity net = net_instance_identity net' → find_network_state states net = find_network_state states net'.
Proof. intros Hn Hi. unfold find_network_state. by rewrite Hn, Hi. Qed.

Lemma interface_row_spec nets states r :
  Forall2 same_instance nets states → Forall identified nets →
  (String.length (nr_name r) < 64)%nat ∧ (String.length (nr_instance_identity r) < LSM_IDENTITY_LEN)%nat →
  nonempty (nr_instance_identity r) = true →
  interface_row states (retained_network nets (discovered_network r)) =
  (nr_instance_identity r,
   match interfaces_of nets states !! nr_instance_identity r with
   | Some i => Build_Interface (nr_name r) (if_baseline i) (if_rates i)
   | None => Build_Interface (nr_name r) None (d0, d0)
   end).
Proof.
  intros Hs Hi [Hn Hid] Hident. destruct (retained_facts nets r Hn Hid) as (En & Ei & Er & _).
  set (net := retained_network _ _) in *. unfold interface_row. rewrite En, Ei, Er.
  assert (Ed : net_name (discovered_network r) = nr_name r ∧ net_instance_identity (discovered_network r) = nr_instance_identity r).
  { unfold discovered_network. cbn. by rewrite !copy_string_fits. }
  destruct Ed as [Edn Edi].
  rewrite (find_state_same states net (discovered_network r)) by congruence.
  destruct (interfaces_lookup nets states (discovered_network r) Hs Hi) as [Hl Hiff].
  { unfold identified. by rewrite Edi. }
  rewrite Edi in Hl. rewrite Hl. clear Hl. f_equal.
  destruct (find_old_network _ _) as [old|], (snd <$> find_network_state _ _) as [state|]; [done|..]; naive_solver.
Qed.

Lemma reconcile_states_spec states nets :
  (length nets <= LSM_MAX_NETS)%nat →
  Forall (λ net, (String.length (net_name net) < 64)%nat ∧
                 (String.length (net_instance_identity net) < LSM_IDENTITY_LEN)%nat) nets →
  Forall2 same_instance nets (reconcile_network_states states nets) ∧
  zip_with row nets (reconcile_network_states states nets) =
    interface_row states <$> nets.
Proof.
  intros Hl Hf. unfold reconcile_network_states. rewrite take_ge by done. clear Hl.
  induction Hf as [|net nets [Hn Hi] Hf [IH1 IH2]]; [by split|]. cbn. rewrite !copy_string_fits by done.
  split; [by constructor|]. f_equal; [|exact IH2]. unfold row. do 2 f_equal. cbn.
  unfold interface_row. destruct (find_network_state states net) as [[index old]|]; reflexivity.
Qed.

Lemma refresh_refines m allocated records :
  aligned (nm_nets m) (nm_states m) → Forall records_ok (option_list records) →
  let '(ok, m') := refresh_networks m allocated records in
  aligned (nm_nets m') (nm_states m') ∧ ok = allocated && bool_decide (is_Some records) ∧
  interfaces m' = match (if allocated then records else None) with
                  | Some records => discover (interfaces m) records | None => interfaces m end.
Proof.
  intros [Hs Hd Hi] Hr. unfold refresh_networks. destruct allocated; [|by split_and!]. cbn [negb].
  destruct records as [records|]; [|by split_and!].
  apply Forall_cons in Hr as [[Hcap Hfit Hdist Hident] _].
  set (fresh := retained_network (nm_nets m) <$> (discovered_network <$> records)).
  pose proof (qsort_permutation compare_network_names fresh compare_network_names_preorder) as Hperm.
  set (discovered := qsort compare_network_names fresh) in *.
  assert (Hnames : Forall2 (λ r net, net_name net = nr_name r ∧ net_instance_identity net = nr_instance_identity r) records fresh).
  { unfold fresh. rewrite <- list_fmap_compose. apply Forall2_fmap_r, Forall_Forall2_diag.
    apply (Forall_impl _ _ _ Hfit). intros r [Hn Hid]. by destruct (retained_facts (nm_nets m) r Hn Hid) as (? & ? & _). }
  assert (Hids : net_instance_identity <$> fresh = nr_instance_identity <$> records).
  { clear -Hnames. induction Hnames as [|r net records' fresh' [_ E] _ IH]; [done|]. cbn. by rewrite E, IH. }
  assert (Hfresh : Forall (λ net, identified net ∧ (String.length (net_name net) < 64)%nat ∧
                 (String.length (net_instance_identity net) < LSM_IDENTITY_LEN)%nat) fresh).
  { clear -Hnames Hfit Hident. induction Hnames as [|r net records' fresh' [En Ei] _ IH]; constructor.
    - apply Forall_cons in Hfit as [Hf _]. apply Forall_cons in Hident as [Hid _]. unfold identified. by rewrite En, Ei.
    - apply Forall_cons in Hfit as [_ Hf]. apply Forall_cons in Hident as [_ Hid]. by apply IH. }
  rewrite <- Hperm in Hfresh. apply Forall_and in Hfresh as [Hfi Hff].
  assert (Hlen : (length discovered <= LSM_MAX_NETS)%nat).
  { rewrite Hperm. unfold fresh. by rewrite !length_fmap. }
  destruct (reconcile_states_spec (nm_states m) discovered Hlen Hff) as [Hsame Hrows].
  assert (Hnodup : NoDup (net_instance_identity <$> discovered)) by (rewrite Hperm, Hids; done).
  cbn [nm_nets nm_states]. split; [by split|]. split; [done|].
  change (list_to_map (zip_with row discovered (reconcile_network_states (nm_states m) discovered))
          = discover (interfaces m) records :> gmap string Interface).
  rewrite Hrows. rewrite (list_to_map_proper _ (interface_row (nm_states m) <$> fresh));
    [|by rewrite <- list_fmap_compose|by rewrite Hperm].
  unfold discover, fresh. f_equal. rewrite <- !list_fmap_compose. apply list_fmap_ext. intros i r Hr.
  apply interface_row_spec; [done..| |].
  - by eapply Forall_lookup_1 in Hfit.
  - by eapply Forall_lookup_1 in Hident.
Qed.
End topology.

(** *** A sample *)

(** Nothing the map sees differs. *)
Definition same_row (net net' : LsmNetInfo) : Prop :=
  net_name net' = net_name net ∧ net_instance_identity net' = net_instance_identity net ∧
  net_rx_bytes_per_sec net' = net_rx_bytes_per_sec net ∧ net_tx_bytes_per_sec net' = net_tx_bytes_per_sec net.
#[global] Instance same_row_preorder : PreOrder same_row.
Proof. split; [by intros ?|]. intros ??? (?&?&?&?) (?&?&?&?). unfold same_row. by split_and!; etrans. Qed.

Definition utilisation_ok (net : LsmNetInfo) : Prop :=
  net_utilisation_available net = true → in_percent (net_utilisation_percent net).

Definition sample_row `{ArithmeticOps} (inputs : NetworkInputs) (r : string * Interface) : string * Interface :=
  let available := sampled_counters inputs r.1 (if_name r.2) in
  (r.1, Build_Interface (if_name r.2) available (counter_rates available (if_baseline r.2) (ni_elapsed inputs))).

Section sampling.
Context `{TextOps, ArithmeticOps, AsciiOps, TimingOps}.

Lemma link_details_same net link : same_row net (update_network_link_details net link).
Proof. unfold update_network_link_details. repeat case_match; done. Qed.

Lemma wifi_refresh_same socket records net now answers :
  same_row net (lsm_wifi_metadata_refresh socket records net now answers).2.
Proof. unfold lsm_wifi_metadata_refresh. repeat case_match; done. Qed.

Lemma utilisation_percent rx_rate tx_rate link_speed : in_percent (utilisation rx_rate tx_rate link_speed).
Proof.
  unfold utilisation. set (x := ldmul _ (ldouble_of_Z 100)). set (y := lddiv _ (ldouble_of_Z 8)).
  pose proof (lddiv_digits x y) as Hd. generalize dependent (lddiv x y). clear x y. intros q Hd.
  destruct q as [s|s| |s m e]; [by destruct s; vm_compute|by destruct s; vm_compute|by vm_compute|].
  unfold fmax. cbn [isnan d0]. destruct (dlt d0 (S754_finite s m e)) eqn:E; [|by vm_compute].
  destruct s; [done|]. unfold fmin. change (isnan (ldouble_of_Z 100)) with false. cbn [isnan].
  destruct (dlt (S754_finite false m e) (ldouble_of_Z 100)) eqn:E1; [|by vm_compute].
  apply double_of_ldouble_percent; [by eapply Hd|].
  by apply dlt_asym.
Qed.

(** One entry: its baseline is found behind those of the entries before it. *)
Lemma update_network_refines refresh_link inputs net states state rest wifi :
  same_instance net state → identified net →
  Forall (λ s, nonempty (ns_instance_identity s) = true ∧ ns_instance_identity s ≠ net_instance_identity net) states →
  let '(net', states', _) := update_network refresh_link inputs net (states ++ state :: rest) wifi in
  ∃ state', states' = states ++ state' :: rest ∧ same_instance net' state' ∧
    net_instance_identity net' = net_instance_identity net ∧ utilisation_ok net' ∧
    row net' state' = sample_row inputs (row net state).
Proof.
  intros [Hn Hi] Hnet Hother. unfold update_network.
  assert (Hfind : find_network_state (states ++ state :: rest) net = Some (length states, state)).
  { apply list_find_Some. split_and!; [by apply list_lookup_middle| |].
    - unfold identified in Hnet. rewrite matches_identified by congruence. rewrite Hi. by rewrite (proj2 (strcmp_eq_true _ _) eq_refl).
    - intros j s Hj Hlt. rewrite lookup_app_l in Hj by done. apply (Forall_lookup_1 _ _ _ _ Hother) in Hj as [Hs Hne].
      unfold identified in Hnet. rewrite matches_identified by congruence. intros Ht%Is_true_true%strcmp_eq_true. done. }
  rewrite Hfind. cbn zeta. fold (sampled_counters inputs (net_instance_identity net) (net_name net)).
  set (available := sampled_counters _ _ _).
  destruct (counter_rates available (baseline_of state) (ni_elapsed inputs)) as [rx_rate tx_rate] eqn:Hrates.
  match goal with |- context [update_network_link_details ?n _] => set (net1 := n) end.
  set (net2 := if _ || _ then update_network_link_details net1 _ else net1).
  assert (Hlink : same_row net1 net2) by (unfold net2; destruct (_ || _); [apply link_details_same|done]).
  match goal with |- context [let '(_, _) := ?e in (_, _, _)] => set (wifi_step := e) end.
  assert (Hwifi : same_row net2 wifi_step.2).
  { unfold wifi_step. destruct wifi as [[socket records]|]; [|done].
    pose proof (wifi_refresh_same socket records net2 (ni_wifi_now inputs (net_name net2)) (ni_wifi inputs (net_name net2))).
    by destruct (lsm_wifi_metadata_refresh _ _ _ _ _). }
  destruct wifi_step as [wifi' net3]. cbn [snd] in Hwifi. assert (Hall : same_row net1 net3) by by etrans.
  exists (next_state state available). rewrite insert_app_r_alt, Nat.sub_diag by done. cbn [list_insert insert].
  assert (Hfacts : net_name net3 = net_name net ∧ net_instance_identity net3 = net_instance_identity net ∧
                   net_rx_bytes_per_sec net3 = rx_rate ∧ net_tx_bytes_per_sec net3 = tx_rate).
  { destruct Hall as (-> & -> & -> & ->). unfold net1. by destruct available as [[]|]. }
  destruct Hfacts as (Fn & Fi & Frx & Ftx).
  assert (Hnext : same_instance net (next_state state available) ∧ baseline_of (next_state state available) = available).
  { unfold next_state. by destruct available as [[]|]. }
  destruct Hnext as [[Sn Si] Hb].
  assert (Hrow : ∀ net', same_row net3 net' → same_instance net' (next_state state available) ∧
    net_instance_identity net' = net_instance_identity net ∧ row net' (next_state state available) = sample_row inputs (row net state)).
  { intros net' (En & Ei & Erx & Etx). unfold same_instance, row, sample_row. cbn [fst snd if_name if_baseline].
    fold available. rewrite En, Ei, Erx, Etx, Fn, Fi, Frx, Ftx, Hb, Hrates, Sn, Si. done. }
  destruct (_ && dgt (net_link_speed_mbps net3) d0); (edestruct Hrow as (Hs & Hid & Hr); [|split_and!; [done|done|done| |done]]);
    try done. intros _. apply utilisation_percent.
Qed.

(** The loop over the entries. *)
Lemma update_loop_refines refresh_link inputs nets states rest wifi :
  Forall2 same_instance nets rest → NoDup (net_instance_identity <$> nets) → Forall identified nets →
  Forall (λ s, nonempty (ns_instance_identity s) = true ∧ ns_instance_identity s ∉ net_instance_identity <$> nets) states →
  let '(nets', states', _) := update_loop refresh_link inputs nets (states ++ rest) wifi in
  ∃ rest', states' = states ++ rest' ∧ Forall2 same_instance nets' rest' ∧
    net_instance_identity <$> nets' = net_instance_identity <$> nets ∧ Forall utilisation_ok nets' ∧
    zip_with row nets' rest' = sample_row inputs <$> zip_with row nets rest.
Proof.
  intros Hs. revert states wifi. induction Hs as [|net state nets rest Hsame Hs IH]; intros states wifi Hd Hi Hother; cbn [update_loop].
  { exists []. by split_and!. }
  apply Forall_cons in Hi as [Hnet Hi]. rewrite fmap_cons in Hd. apply NoDup_cons in Hd as [Hnew Hd].
  pose proof (update_network_refines refresh_link inputs net states state rest wifi Hsame Hnet) as Hone.
  destruct (update_network _ _ _ _ _) as [[net' states'] wifi'].
  destruct Hone as (state' & -> & Hsame' & Hid & Hu & Hrow).
  { apply (Forall_impl _ _ _ Hother). intros s [Hs1 Hs2]. split; [done|]. rewrite fmap_cons in Hs2. set_solver. }
  specialize (IH (states ++ [state']) wifi' Hd Hi). rewrite <- app_assoc in IH. cbn [app] in IH.
  destruct (update_loop _ _ _ _ _) as [[nets' states''] wifi''].
  destruct IH as (rest' & -> & Hs' & Hids & Hus & Hrows).
  { apply Forall_app; split.
    - apply (Forall_impl _ _ _ Hother). intros s [Hs1 Hs2]. split; [done|]. rewrite fmap_cons in Hs2. set_solver.
    - constructor; [|done]. destruct Hsame' as [_ ->]. rewrite Hid. by split. }
  exists (state' :: rest'). rewrite <- app_assoc. split_and!; [done|by constructor|by rewrite !fmap_cons, Hid, Hids|by constructor|].
  cbn [zip_with]. by rewrite fmap_cons, Hrow, Hrows.
Qed.

Lemma update_networks_refines m refresh_link inputs : aligned (nm_nets m) (nm_states m) →
  let m' := update_networks m refresh_link inputs in
  aligned (nm_nets m') (nm_states m') ∧ Forall utilisation_ok (nm_nets m') ∧
  interfaces m' = sample_interface_map (interfaces m) inputs.
Proof.
  intros [Hs Hd Hi]. cbn zeta. unfold update_networks.
  pose proof (update_loop_refines refresh_link inputs (nm_nets m) [] (nm_states m) (nm_wifi m) Hs Hd Hi) as Hl.
  cbn [app] in Hl. destruct (update_loop _ _ _ _ _) as [[nets' states'] wifi'].
  destruct Hl as (rest' & -> & Hs' & Hids & Hu & Hrows); [constructor|]. match goal with |- context [nm_nets ?m0] => change (nm_nets m0) with nets'; change (nm_states m0) with rest' end.
  split_and!; [|done|].
  - split; [done|by rewrite Hids|]. apply Forall_forall. intros net' Hin. unfold identified.
    apply (list_elem_of_fmap_2 net_instance_identity) in Hin. rewrite Hids in Hin.
    apply list_elem_of_fmap in Hin as (net & -> & Hin). rewrite Forall_forall in Hi. by apply Hi.
  - change (list_to_map (zip_with row nets' rest') = sample_interface_map (interfaces m) inputs).
    rewrite Hrows. unfold sample_interface_map, interfaces, interfaces_of. by rewrite <- list_to_map_imap.
Qed.
End sampling.

(** *** The runs *)

(** The records of a dump in which every link has an index of its own, as the
    kernel gives them, are told apart. *)
Lemma link_records_ok `{TextLaws} device links listing records :
  lsm_sources_list_networks_checked device LSM_MAX_NETS (Some links) listing = Some records →
  Forall (λ link, 0 < rl_ifindex link ∧ u64 (rl_ifindex link)) links → NoDup (rl_ifindex <$> links) →
  records_ok records.
Proof.
  unfold lsm_sources_list_networks_checked. cbn [Nat.eqb LSM_MAX_NETS].
  destruct (Nat.ltb_spec LSM_MAX_NETS (length links)) as [|Hlen]; [done|]. intros [= <-] Hpos Hd. split.
  - by rewrite length_fmap.
  - apply Forall_fmap, Forall_true. intros link. split; [apply (copy_string_bound 64); lia|apply identity_length].
  - rewrite <- list_fmap_compose. clear Hlen. induction links as [|link links IH]; [constructor|].
    rewrite fmap_cons in *. apply NoDup_cons in Hd as [Hnew Hd]. apply Forall_cons in Hpos as [[Hp Hu] Hpos].
    apply NoDup_cons. split; [|by apply IH]. intros (link' & E & Hin)%list_elem_of_fmap. apply Hnew.
    apply list_elem_of_fmap. exists link'. split; [|done]. rewrite Forall_forall in Hpos.
    destruct (Hpos _ Hin) as [Hp' Hu']. exact (identity_index_inj _ _ _ _ _ _ Hp Hp' Hu Hu' E).
  - apply Forall_fmap. apply (Forall_impl _ _ _ Hpos). intros link [Hp _]. by apply identity_nonempty.
Qed.

Section runs.
Context `{TextLaws, !Qsort, !QsortLaws, ArithmeticOps, AsciiOps, TimingOps}.

Definition event_records_ok (event : NetworkEvent) : Prop := Forall records_ok (option_list (ne_records event)).

Definition network_run (m : NetworkMonitor) (events : list NetworkEvent) : NetworkMonitor :=
  fold_left (λ m event, (lsm_storage_update_networks m event).2) events m.

Lemma addresses_same m addresses : interfaces (update_interface_addresses m addresses) = interfaces m ∧
  (aligned (nm_nets m) (nm_states m) →
   aligned (nm_nets (update_interface_addresses m addresses)) (nm_states (update_interface_addresses m addresses))).
Proof.
  destruct addresses as [addresses|]; [|done]. destruct m as [nets states generation wifi]. cbn. split.
  - unfold interfaces, interfaces_of. cbn. f_equal. revert states. induction nets as [|net nets IH]; intros [|state states]; try done.
    cbn. by rewrite IH.
  - intros [Hs Hd Hi]. split; [|by rewrite <- list_fmap_compose|by apply Forall_fmap].
    clear Hd Hi. induction Hs; cbn; by constructor.
Qed.

Lemma storage_update_refines m event : aligned (nm_nets m) (nm_states m) → event_records_ok event →
  let m' := (lsm_storage_update_networks m event).2 in
  aligned (nm_nets m') (nm_states m') ∧ Forall utilisation_ok (nm_nets m') ∧
  interfaces m' = update_interface_map (interfaces m) event.
Proof.
  intros Ha Hr. unfold lsm_storage_update_networks, update_interface_map.
  destruct (ne_refresh_topology event && ne_topology_changed event) eqn:Hchange; cbn [andb].
  2:{ by apply update_networks_refines. }
  pose proof (refresh_refines m (ne_allocated event) (ne_records event) Ha Hr) as Href.
  destruct (refresh_networks _ _ _) as [ok m1]. destruct Href as (Ha1 & _ & Hm1). rewrite <- Hm1.
  destruct ok; cbn [snd]; [|by apply update_networks_refines].
  destruct (addresses_same m1 (ne_addresses event)) as [<- Ha2]. by apply update_networks_refines, Ha2.
Qed.

Lemma network_run_refines m events : aligned (nm_nets m) (nm_states m) → Forall utilisation_ok (nm_nets m) →
  Forall event_records_ok events →
  interfaces (network_run m events) = fold_left update_interface_map events (interfaces m) ∧
  Forall utilisation_ok (nm_nets (network_run m events)).
Proof.
  intros Ha Hu He. revert m Ha Hu. induction He as [|event events Hevent He IH]; intros m Ha Hu; [by split|].
  change (network_run m (event :: events)) with (network_run (lsm_storage_update_networks m event).2 events).
  cbn [fold_left].
  destruct (storage_update_refines m event Ha Hevent) as (Ha' & Hu' & E).
  destruct (IH _ Ha' Hu') as [-> Hend]. by rewrite E.
Qed.

(** Nothing is claimed of an interface that was never sampled. *)
Lemma initial_utilisation generation wifi records addresses :
  Forall utilisation_ok
    (nm_nets (lsm_storage_initialise_networks (Build_NetworkMonitor [] [] generation wifi) true (Some records) addresses).2).
Proof.
  unfold lsm_storage_initialise_networks, refresh_networks. cbn [negb nm_nets nm_states].
  set (fresh := retained_network [] <$> (discovered_network <$> records)).
  assert (Hfresh : Forall (λ net, net_utilisation_available net = false) (qsort compare_network_names fresh)).
  { rewrite (qsort_permutation compare_network_names fresh compare_network_names_preorder).
    unfold fresh. apply Forall_fmap, Forall_fmap, Forall_true. done. }
  assert (Hok : Forall utilisation_ok (qsort compare_network_names fresh)).
  { apply (Forall_impl _ _ _ Hfresh). intros net Hn Ha. congruence. }
  destruct addresses as [addresses|]; [|exact Hok]. cbn. by apply Forall_fmap.
Qed.

(** (C6) The rates of a network interface come from its own counters.  After the
    start and over any series of updates - topology refreshes that add, remove,
    rename and reorder interfaces, dumps that fail, samples without counters - the
    rates published for an instance are those of its last two consecutive samples:
    two parallel arrays found through instance identities behave as a map from
    identities to baselines, so a replaced interface never inherits the counters
    of the one whose name it took; and a utilisation marked available is a
    percentage. *)
Theorem network_rates_are_own wifi generation records addresses events :
  records_ok records → Forall event_records_ok events →
  let m := (lsm_storage_initialise_networks (Build_NetworkMonitor [] [] generation wifi) true (Some records) addresses).2 in
  interfaces (network_run m events) = fold_left update_interface_map events (discover ∅ records) ∧
  Forall utilisation_ok (nm_nets (network_run m events)).
Proof.
  intros Hr He m. assert (Hempty : aligned [] []) by (split; constructor).
  pose proof (refresh_refines (Build_NetworkMonitor [] [] generation wifi) true (Some records) Hempty
                ltac:(by apply Forall_singleton)) as Href.
  assert (Hm : aligned (nm_nets m) (nm_states m) ∧ interfaces m = discover ∅ records).
  { unfold m, lsm_storage_initialise_networks. destruct (refresh_networks _ _ _) as [ok m1].
    destruct Href as (Ha & -> & Hi). rewrite bool_decide_eq_true_2 by (by eexists). cbn [andb negb snd].
    destruct (addresses_same m1 addresses) as [Hs Ha2]. split; [by apply Ha2|]. by rewrite Hs, Hi. }
  destruct Hm as [Ha <-]. apply network_run_refines; [done|apply initial_utilisation|done].
Qed.
End runs.

From S2P Require Import CommonReference.

Definition wired (name : string) : Device := Build_Device false "" "".
Definition sample_route (name mac : string) (index rx tx : Z) : LsmRouteLink :=
  Build_LsmRouteLink name mac index rx tx 6 4099 true true.
(** An update at which the kernel reports [links], one second after the last. *)
Definition sample_event (links : list LsmRouteLink) : NetworkEvent :=
  {| ne_refresh_topology := true; ne_topology_changed := true; ne_allocated := true;
     ne_records := lsm_sources_list_networks_checked wired LSM_MAX_NETS (Some links) None;
     ne_addresses := None;
     ne_inputs := {| ni_counters := lsm_sources_read_network_counters_checked LSM_MAX_NETS (Some links) None;
                     ni_elapsed := double_of_Z 1;
                     ni_link := λ _, Build_LinkAttributes (Some "up") (double_of_Z 1000);
                     ni_wifi_now := λ _, d0;
                     ni_wifi := λ _, Build_WifiAnswers None None None None None None |} |}.

(** [eth0] is replaced by another adapter that reuses its name and index. *)
Definition sample_network_events : list NetworkEvent :=
  [sample_event [sample_route "eth1" "02:00:00:00:00:02" 3 100 100; sample_route "eth0" "02:00:00:00:00:01" 2 5000 700];
   sample_event [sample_route "eth0" "02:00:00:00:00:01" 2 9000 900; sample_route "eth1" "02:00:00:00:00:02" 3 300 150];
   sample_event [sample_route "eth0" "02:00:00:00:00:09" 2 9500 950; sample_route "eth1" "02:00:00:00:00:02" 3 400 150]].

Definition sample_records : list LsmNetworkRecord :=
  default [] (lsm_sources_list_networks_checked wired LSM_MAX_NETS (Some [sample_route "eth0" "02:00:00:00:00:01" 2 0 0]) None).

Lemma sample_links_ok links listing records :
  lsm_sources_list_networks_checked wired LSM_MAX_NETS (Some links) listing = Some records →
  forallb (λ link, (0 <? rl_ifindex link) && (rl_ifindex link <? 1000)) links = true →
  bool_decide (NoDup (rl_ifindex <$> links)) = true → records_ok records.
Proof.
  intros Hl Hp Hd. apply bool_decide_eq_true in Hd. eapply link_records_ok; [exact Hl| |exact Hd].
  apply Forall_forall. intros link Hin. rewrite forallb_forall in Hp. apply list_elem_of_In in Hin. specialize (Hp link Hin).
  bool_hyps. unfold u64, uint64_max. lia.
Qed.

Lemma sample_event_ok links :
  forallb (λ link, (0 <? rl_ifindex link) && (rl_ifindex link <? 1000)) links = true →
  bool_decide (NoDup (rl_ifindex <$> links)) = true → event_records_ok (sample_event links).
Proof.
  intros Hp Hd. unfold event_records_ok. cbn [ne_records sample_event].
  destruct (lsm_sources_list_networks_checked wired LSM_MAX_NETS (Some links) None) as [records|] eqn:E; [|constructor].
  apply Forall_singleton. by eapply sample_links_ok.
Qed.

Lemma sample_network_events_ok : records_ok sample_records ∧ Forall event_records_ok sample_network_events.
Proof.
  split.
  - apply (sample_links_ok [sample_route "eth0" "02:00:00:00:00:01" 2 0 0] None); [reflexivity|by vm_compute|by vm_compute].
  - unfold sample_network_events.
    repeat (apply Forall_cons; split; [apply sample_event_ok; by vm_compute|]). by apply Forall_nil_2.
Qed.

Lemma network_rates_are_own_witness :
  let m := (lsm_storage_initialise_networks (Build_NetworkMonitor [] [] 0 None) true (Some sample_records) None).2 in
  interfaces (network_run m sample_network_events)
    = fold_left update_interface_map sample_network_events (discover ∅ sample_records) ∧
  (λ net, (net_name net, net_rx_bytes_per_sec net)) <$> nm_nets (network_run m sample_network_events)
    = [("eth0"%string, NAN); ("eth1"%string, double_of_Z 100)].
Proof.
  split; [|vm_compute; reflexivity].
  exact (proj1 (network_rates_are_own None 0 sample_records None sample_network_events
                  (proj1 sample_network_events_ok) (proj2 sample_network_events_ok))).
Defined.
