(* ===== verification/HardwareTopology.v ===== *)
(** * HardwareTopology: reconciling optional hardware

    Models [src/src/hardware_topology.c].  A discovery fills the GPU, battery
    and NPU arrays of a monitor snapshot; reconciliation sorts them by identity,
    says whether the membership changed, and gives every device that was there
    before its published metrics back.

    The three classes of device share one algorithm, [reconcile]; the theorem
    about it is proved once.  [qsort] is a parameter: which order it gives to
    devices with equal keys is not specified. *)
From S2P Require Import Prelude Double CStrings Common ProcessModel MonitorTypes.
Local Open Scope Z_scope.

(** ** Identities *)

(** src: hardware_topology.c gpu_identity *)
Definition gpu_identity (gpu : LsmGpuInfo) : string :=
  if nonempty (gpu_platform_identity gpu) then gpu_platform_identity gpu else gpu_display_identifier gpu.

(** src: hardware_topology.c npu_identity *)
Definition npu_identity (npu : LsmNpuInfo) : string :=
  if nonempty (npu_platform_identity npu) then npu_platform_identity npu else npu_display_identifier npu.

(** src: hardware_topology.c same_gpu_identity *)
Definition same_gpu_identity (left right : LsmGpuInfo) : bool :=
  if nonempty (gpu_platform_identity left) && nonempty (gpu_platform_identity right)
  then strcmp_eq (gpu_platform_identity left) (gpu_platform_identity right)
  else strcmp_eq (gpu_display_identifier left) (gpu_display_identifier right).

(** src: hardware_topology.c same_npu_identity *)
Definition same_npu_identity (left right : LsmNpuInfo) : bool :=
  if nonempty (npu_platform_identity left) && nonempty (npu_platform_identity right)
  then strcmp_eq (npu_platform_identity left) (npu_platform_identity right)
  else strcmp_eq (npu_display_identifier left) (npu_display_identifier right).

(** src: hardware_topology.c compare_gpu_identity *)
Definition compare_gpu_identity (a b : LsmGpuInfo) : comparison := strcmp (gpu_identity a) (gpu_identity b).

(** src: hardware_topology.c compare_battery_names *)
Definition compare_battery_names (a b : LsmBatteryInfo) : comparison := strcmp (bat_name a) (bat_name b).

(** src: hardware_topology.c compare_npu_identity *)
Definition compare_npu_identity (a b : LsmNpuInfo) : comparison := strcmp (npu_identity a) (npu_identity b).

(** src: hardware_topology.c find_old_gpu *)
Definition find_old_gpu (gpus : list LsmGpuInfo) (identity : LsmGpuInfo) : option LsmGpuInfo :=
  List.find (λ gpu, same_gpu_identity gpu identity) gpus.

(** src: hardware_topology.c find_old_battery *)
Definition find_old_battery (batteries : list LsmBatteryInfo) (name : string) : option LsmBatteryInfo :=
  List.find (λ battery, strcmp_eq (bat_name battery) name) batteries.

(** src: hardware_topology.c find_old_npu *)
Definition find_old_npu (npus : list LsmNpuInfo) (identity : LsmNpuInfo) : option LsmNpuInfo :=
  List.find (λ npu, same_npu_identity npu identity) npus.

(** The discovered devices of a snapshot: the counted part of each array. *)
Definition monitor_gpus (monitor : LsmMonitor) : list LsmGpuInfo :=
  take (Z.to_nat (mon_gpu_count monitor)) (mon_gpus monitor).
Definition monitor_batteries (monitor : LsmMonitor) : list LsmBatteryInfo :=
  take (Z.to_nat (mon_battery_count monitor)) (mon_batteries monitor).
Definition monitor_npus (monitor : LsmMonitor) : list LsmNpuInfo :=
  take (Z.to_nat (mon_npu_count monitor)) (mon_npus monitor).

Definition is_none {A} (o : option A) : bool := match o with Some _ => false | None => true end.

(** src: hardware_topology.c hardware_membership_changed *)
Definition hardware_membership_changed (old_gpus : list LsmGpuInfo) (old_batteries : list LsmBatteryInfo)
    (old_npus : list LsmNpuInfo) (monitor : LsmMonitor) : bool :=
  if negb (Z.of_nat (length old_gpus) =? mon_gpu_count monitor)
     || negb (Z.of_nat (length old_batteries) =? mon_battery_count monitor)
     || negb (Z.of_nat (length old_npus) =? mon_npu_count monitor)
  then true
  else existsb (λ gpu, is_none (find_old_gpu old_gpus gpu)) (monitor_gpus monitor)
       || existsb (λ battery, is_none (find_old_battery old_batteries (bat_name battery)))
            (monitor_batteries monitor)
       || existsb (λ npu, is_none (find_old_npu old_npus npu)) (monitor_npus monitor).

(** ** What a surviving device keeps and takes *)

Section reconcile.
Context `{TextOps}.

(** A refreshed text replaces the retained one when it is not empty. *)
Definition refresh_text (size : nat) (retained refreshed : string) : string :=
  if nonempty refreshed then lsm_copy_string size refreshed else retained.

(** src: hardware_topology.c:144-174 lsm_hardware_topology_reconcile *)
Definition retain_gpu (old identity : LsmGpuInfo) : LsmGpuInfo :=
  old <| gpu_display_identifier := lsm_copy_string 64 (gpu_display_identifier identity) |>
      <| gpu_platform_identity := lsm_copy_string LSM_IDENTITY_LEN (gpu_platform_identity identity) |>
      <| gpu_name := refresh_text LSM_NAME_LEN (gpu_name old) (gpu_name identity) |>
      <| gpu_driver := refresh_text 64 (gpu_driver old) (gpu_driver identity) |>
      <| gpu_driver_version := lsm_copy_string 96 (gpu_driver_version identity) |>
      <| gpu_pci_location := lsm_copy_string 32 (gpu_pci_location identity) |>
      <| gpu_engine_metrics_capable := gpu_engine_metrics_capable identity |>
      <| gpu_shared_system_memory := gpu_shared_system_memory identity |>
      <| gpu_integrated_cooling := gpu_integrated_cooling identity |>
      <| gpu_metrics_source := refresh_text 96 (gpu_metrics_source old) (gpu_metrics_source identity) |>.

(** src: hardware_topology.c:182-226 lsm_hardware_topology_reconcile *)
Definition retain_battery (old identity : LsmBatteryInfo) : LsmBatteryInfo :=
  old <| bat_name := lsm_copy_string 64 (bat_name identity) |>
      <| bat_model := lsm_copy_string LSM_NAME_LEN (bat_model identity) |>
      <| bat_manufacturer := lsm_copy_string LSM_NAME_LEN (bat_manufacturer identity) |>
      <| bat_technology := lsm_copy_string 64 (bat_technology identity) |>
      <| bat_scope := lsm_copy_string 32 (bat_scope identity) |>
      <| bat_serial := lsm_copy_string 64 (bat_serial identity) |>
      <| bat_connection := lsm_copy_string 64 (bat_connection identity) |>
      <| bat_battery_source := lsm_copy_string 96 (bat_battery_source identity) |>
      <| bat_device_type := lsm_copy_string 64 (bat_device_type identity) |>
      <| bat_modalias := lsm_copy_string 128 (bat_modalias identity) |>
      <| bat_supplemental_capacity_percent := bat_supplemental_capacity_percent identity |>
      <| bat_has_supplemental_capacity := bat_has_supplemental_capacity identity |>
      <| bat_is_peripheral := bat_is_peripheral identity |>
      <| bat_paired := bat_paired identity |>
      <| bat_trusted := bat_trusted identity |>
      <| bat_services_resolved := bat_services_resolved identity |>
      <| bat_bluetooth_details_available := bat_bluetooth_details_available identity |>
      <| bat_present := bat_present identity |>
      <| bat_capacity_percent := if isfinite (bat_capacity_percent identity)
                                 then bat_capacity_percent identity else bat_capacity_percent old |>
      <| bat_status := refresh_text 64 (bat_status old) (bat_status identity) |>.

(** src: hardware_topology.c:233-247 lsm_hardware_topology_reconcile *)
Definition retain_npu (old identity : LsmNpuInfo) : LsmNpuInfo :=
  old <| npu_display_identifier := lsm_copy_string 64 (npu_display_identifier identity) |>
      <| npu_platform_identity := lsm_copy_string LSM_IDENTITY_LEN (npu_platform_identity identity) |>
      <| npu_device_identifier := lsm_copy_string LSM_PATH_LEN (npu_device_identifier identity) |>
      <| npu_name := refresh_text LSM_NAME_LEN (npu_name old) (npu_name identity) |>
      <| npu_driver := refresh_text 64 (npu_driver old) (npu_driver identity) |>.

(** One of the three loops: [find] is the look-up of the old record. *)
(** src: hardware_topology.c:140-144 lsm_hardware_topology_reconcile *)
Definition retain_items {A} (find : A → option A) (retain : A → A → A) (items : list A) : list A :=
  (λ identity, match find identity with Some old => retain old identity | None => identity end) <$> items.

(** [qsort] of the counted part of an array. *)
Definition sort_items `{Qsort} {A} (cmp : A → A → comparison) (count : Z) (items : list A) : list A :=
  qsort cmp (take (Z.to_nat count) items) ++ drop (Z.to_nat count) items.

(** Whether the membership changed, and the snapshot. *)
(** src: hardware_topology.c lsm_hardware_topology_reconcile *)
Definition lsm_hardware_topology_reconcile `{Qsort} (monitor : LsmMonitor) (old_gpus : list LsmGpuInfo)
    (old_batteries : list LsmBatteryInfo) (old_npus : list LsmNpuInfo) : bool * LsmMonitor :=
  let monitor :=
    monitor <| mon_gpus := sort_items compare_gpu_identity (mon_gpu_count monitor) (mon_gpus monitor) |>
            <| mon_batteries := sort_items compare_battery_names (mon_battery_count monitor)
                                  (mon_batteries monitor) |>
            <| mon_npus := sort_items compare_npu_identity (mon_npu_count monitor) (mon_npus monitor) |> in
  let changed := hardware_membership_changed old_gpus old_batteries old_npus monitor in
  let retained {A} (find : A → option A) retain (count : Z) (items : list A) :=
    retain_items find retain (take (Z.to_nat count) items) ++ drop (Z.to_nat count) items in
  (changed,
   monitor <| mon_gpus := retained (find_old_gpu old_gpus) retain_gpu (mon_gpu_count monitor)
                            (mon_gpus monitor) |>
           <| mon_batteries := retained (λ identity, find_old_battery old_batteries (bat_name identity))
                                 retain_battery (mon_battery_count monitor) (mon_batteries monitor) |>
           <| mon_npus := retained (find_old_npu old_npus) retain_npu (mon_npu_count monitor)
                            (mon_npus monitor) |>).
End reconcile.

(** ** One class of device *)

Section items.
Context {A : Type} (identity : A → string) (same : A → A → bool) (retain : A → A → A).

(** What reconciliation promises of one class: [sample] is what is measured of
    a device, [described] what a discovery says about it. *)
Record reconciled {S D} (sample : A → S) (described : A → D) (old discovered after : list A) : Prop := {
  (** the same devices, in the order of their identities *)
  after_identities : identity <$> after ≡ₚ identity <$> discovered;
  after_sorted : Sorted.StronglySorted (λ x y, strcmp (identity x) (identity y) ≠ Gt) after;
  (** a device that was there keeps its measurements, a new one is as discovered *)
  after_items x : x ∈ after → ∃ d, d ∈ discovered ∧ identity x = identity d ∧
    ((x = d ∧ ∀ o, o ∈ old → same o d = false) ∨
     (∃ o, o ∈ old ∧ same o d = true ∧ sample x = sample o ∧ described x = described d));
}.

(** The identity test agrees with the identities on the devices at hand. *)
Definition comparable (old discovered : list A) : Prop :=
  ∀ o d, o ∈ old → d ∈ discovered → same o d = true ↔ identity o = identity d.

(** Equal counts and a partner for each new device: the same set of devices. *)
Lemma membership_unchanged old discovered :
  comparable old discovered → NoDup (identity <$> old) → NoDup (identity <$> discovered) →
  (length old = length discovered ∧
   existsb (λ d, is_none (List.find (λ o, same o d) old)) discovered = false) ↔
  identity <$> old ≡ₚ identity <$> discovered.
Proof.
  intros Hc Ho Hd. split.
  - intros [Hl Hfound]. symmetry. apply submseteq_length_Permutation; [|by rewrite !length_fmap, Hl].
    apply NoDup_submseteq; [done|]. intros key (d & -> & Hin)%list_elem_of_fmap.
    destruct (List.find (λ o, same o d) old) as [o|] eqn:Hf.
    + apply List.find_some in Hf as [Hin' Hs]. apply list_elem_of_In in Hin'.
      apply list_elem_of_fmap. exists o. split; [|done]. symmetry. by apply Hc.
    + exfalso. apply not_true_iff_false in Hfound. apply Hfound. apply existsb_exists.
      exists d. split; [by apply list_elem_of_In|]. by rewrite Hf.
  - intros Hp. split; [by apply Permutation_length in Hp; rewrite !length_fmap in Hp|].
    apply not_true_iff_false. intros (d & Hin & Hn)%existsb_exists. apply list_elem_of_In in Hin.
    assert (Hkey : identity d ∈ identity <$> old) by (rewrite Hp; apply list_elem_of_fmap; eauto).
    apply list_elem_of_fmap in Hkey as (o & Heq & Hino).
    destruct (List.find (λ o, same o d) old) eqn:Hf; [done|].
    apply list_elem_of_In in Hino. pose proof (List.find_none _ _ Hf _ Hino) as Hs. cbv beta in Hs.
    apply list_elem_of_In in Hino. rewrite (proj2 (Hc o d Hino Hin)) in Hs; done.
Qed.

Lemma fmap_retain_identity (find : A → option A) items :
  (∀ d o, d ∈ items → find d = Some o → identity (retain o d) = identity d) →
  identity <$> retain_items find retain items = identity <$> items.
Proof.
  intros Hr. unfold retain_items. rewrite <- list_fmap_compose. apply list_fmap_ext.
  intros i d Hd. simpl. destruct (find d) as [o|] eqn:Hf; [|done].
  apply Hr; [|done]. by eapply list_elem_of_lookup_2.
Qed.

Lemma sorted_identities (items items' : list A) : identity <$> items = identity <$> items' →
  Sorted.StronglySorted (λ x y, strcmp (identity x) (identity y) ≠ Gt) items →
  Sorted.StronglySorted (λ x y, strcmp (identity x) (identity y) ≠ Gt) items'.
Proof.
  intros Heq Hs. revert items' Heq. induction Hs as [|x items Hs IH Hx]; intros [|y items'] Heq;
    simpl in Heq; try done; [constructor|].
  injection Heq as Hxy Heq. change (identity <$> items = identity <$> items') in Heq. constructor; [by apply IH|].
  rewrite List.Forall_forall in Hx |- *. intros z Hz.
  apply list_elem_of_In in Hz. assert (Hk : identity z ∈ identity <$> items) by (rewrite Heq; apply list_elem_of_fmap; eauto).
  apply list_elem_of_fmap in Hk as (w & -> & Hw). rewrite <- Hxy. apply Hx. by apply list_elem_of_In.
Qed.

Lemma identity_preorder : preorder_cmp (λ x y : A, strcmp (identity x) (identity y)).
Proof.
  split; [intros; apply strcmp_antisym|]. intros x y z. apply (cmp_trans _ strcmp_preorder).
Qed.

(** The loop over a sorted class of devices. *)
Lemma retain_reconciled `{QsortLaws} {S D} (sample : A → S) (described : A → D) old discovered :
  let find d := List.find (λ o, same o d) old in
  (∀ d o, d ∈ discovered → identity (retain o d) = identity d) →
  (∀ o d, sample (retain o d) = sample o) →
  (∀ o d, d ∈ discovered → described (retain o d) = described d) →
  reconciled sample described old discovered
    (retain_items find retain (qsort (λ x y, strcmp (identity x) (identity y)) discovered)).
Proof.
  intros find Hid Hsample Hdescribed.
  set (sorted := qsort _ discovered).
  assert (Hperm : sorted ≡ₚ discovered) by apply (qsort_permutation _ _ identity_preorder).
  assert (Hids : identity <$> retain_items find retain sorted = identity <$> sorted).
  { apply fmap_retain_identity. intros d o Hd _. apply Hid. by rewrite <- Hperm. }
  split.
  - rewrite Hids. by rewrite Hperm.
  - eapply sorted_identities; [symmetry; exact Hids|]. apply (qsort_sorted _ _ identity_preorder).
  - intros x (d & -> & Hd)%list_elem_of_fmap. rewrite Hperm in Hd. exists d. split; [done|].
    unfold find. destruct (List.find (λ o, same o d) old) as [o|] eqn:Hf.
    + split; [by apply Hid|]. right. apply List.find_some in Hf as [Hin Hs]. exists o.
      split_and!; [by apply list_elem_of_In|done|apply Hsample|by apply Hdescribed].
    + split; [done|]. left. split; [done|]. intros o Ho. apply list_elem_of_In in Ho.
      apply (List.find_none _ _ Hf o Ho).
Qed.
End items.

(** ** The three classes *)

(** What a GPU is measured to do: everything but what a discovery refreshes. *)
Definition gpu_sample (gpu : LsmGpuInfo) : LsmGpuInfo :=
  gpu <| gpu_display_identifier := EmptyString |> <| gpu_platform_identity := EmptyString |>
      <| gpu_name := EmptyString |> <| gpu_driver := EmptyString |> <| gpu_driver_version := EmptyString |>
      <| gpu_pci_location := EmptyString |> <| gpu_engine_metrics_capable := false |>
      <| gpu_shared_system_memory := false |> <| gpu_integrated_cooling := false |>
      <| gpu_metrics_source := EmptyString |>.

Definition gpu_described (gpu : LsmGpuInfo) :=
  (gpu_display_identifier gpu, gpu_platform_identity gpu, gpu_driver_version gpu, gpu_pci_location gpu,
   gpu_engine_metrics_capable gpu, gpu_shared_system_memory gpu, gpu_integrated_cooling gpu).

(** What a battery is measured to hold; status and capacity may be refreshed. *)
Definition battery_sample (battery : LsmBatteryInfo) :=
  (bat_health battery, bat_capacity_level battery, bat_energy_now_wh battery, bat_energy_full_wh battery,
   bat_energy_design_wh battery, bat_power_watts battery, bat_voltage_volts battery,
   bat_current_amps battery, bat_temperature_c battery, bat_seconds_remaining battery,
   bat_cycle_count battery, bat_on_ac_power battery, bat_on_ac_power_available battery).

Definition battery_described (battery : LsmBatteryInfo) :=
  (bat_name battery, bat_model battery, bat_manufacturer battery, bat_technology battery, bat_scope battery,
   bat_serial battery, bat_connection battery, bat_battery_source battery, bat_device_type battery,
   bat_modalias battery, bat_is_peripheral battery, bat_present battery,
   bat_supplemental_capacity_percent battery, bat_has_supplemental_capacity battery).

(** What an NPU is measured to do. *)
Definition npu_sample (npu : LsmNpuInfo) : LsmNpuInfo :=
  npu <| npu_display_identifier := EmptyString |> <| npu_platform_identity := EmptyString |>
      <| npu_device_identifier := EmptyString |> <| npu_name := EmptyString |> <| npu_driver := EmptyString |>.

Definition npu_described (npu : LsmNpuInfo) :=
  (npu_display_identifier npu, npu_platform_identity npu, npu_device_identifier npu).

(** The texts of a record fit the arrays that hold them. *)
Definition fits (size : nat) (text : string) : Prop := (String.length text < size)%nat.

Definition gpu_fits (gpu : LsmGpuInfo) : Prop :=
  fits 64 (gpu_display_identifier gpu) ∧ fits LSM_IDENTITY_LEN (gpu_platform_identity gpu) ∧
  fits 96 (gpu_driver_version gpu) ∧ fits 32 (gpu_pci_location gpu).
Definition battery_fits (battery : LsmBatteryInfo) : Prop :=
  fits 64 (bat_name battery) ∧ fits LSM_NAME_LEN (bat_model battery) ∧
  fits LSM_NAME_LEN (bat_manufacturer battery) ∧ fits 64 (bat_technology battery) ∧
  fits 32 (bat_scope battery) ∧ fits 64 (bat_serial battery) ∧ fits 64 (bat_connection battery) ∧
  fits 96 (bat_battery_source battery) ∧ fits 64 (bat_device_type battery) ∧ fits 128 (bat_modalias battery).
Definition npu_fits (npu : LsmNpuInfo) : Prop :=
  fits 64 (npu_display_identifier npu) ∧ fits LSM_IDENTITY_LEN (npu_platform_identity npu) ∧
  fits LSM_PATH_LEN (npu_device_identifier npu).

(** The counts of a snapshot are within its arrays, and its texts fit. *)
Record monitor_ok (monitor : LsmMonitor) : Prop := {
  gpus_counted : 0 <= mon_gpu_count monitor <= Z.of_nat (length (mon_gpus monitor));
  batteries_counted : 0 <= mon_battery_count monitor <= Z.of_nat (length (mon_batteries monitor));
  npus_counted : 0 <= mon_npu_count monitor <= Z.of_nat (length (mon_npus monitor));
  gpus_fit : Forall gpu_fits (monitor_gpus monitor);
  batteries_fit : Forall battery_fits (monitor_batteries monitor);
  npus_fit : Forall npu_fits (monitor_npus monitor);
}.

Definition same_battery (left right : LsmBatteryInfo) : bool := strcmp_eq (bat_name left) (bat_name right).

Section topology.
Context `{TextLaws, QsortLaws}.

Lemma retain_gpu_sample old identity : gpu_sample (retain_gpu old identity) = gpu_sample old.
Proof. reflexivity. Qed.

Lemma retain_npu_sample old identity : npu_sample (retain_npu old identity) = npu_sample old.
Proof. reflexivity. Qed.

Lemma retain_battery_sample old identity : battery_sample (retain_battery old identity) = battery_sample old.
Proof. reflexivity. Qed.

Lemma retain_gpu_described old identity : gpu_fits identity →
  gpu_described (retain_gpu old identity) = gpu_described identity.
Proof.
  intros (? & ? & ? & ?).
  transitivity (lsm_copy_string 64 (gpu_display_identifier identity),
    lsm_copy_string LSM_IDENTITY_LEN (gpu_platform_identity identity),
    lsm_copy_string 96 (gpu_driver_version identity), lsm_copy_string 32 (gpu_pci_location identity),
    gpu_engine_metrics_capable identity, gpu_shared_system_memory identity,
    gpu_integrated_cooling identity); [reflexivity|].
  by rewrite !copy_string_fits.
Qed.

Lemma retain_npu_described old identity : npu_fits identity →
  npu_described (retain_npu old identity) = npu_described identity.
Proof.
  intros (? & ? & ?).
  transitivity (lsm_copy_string 64 (npu_display_identifier identity),
    lsm_copy_string LSM_IDENTITY_LEN (npu_platform_identity identity),
    lsm_copy_string LSM_PATH_LEN (npu_device_identifier identity)); [reflexivity|].
  by rewrite !copy_string_fits.
Qed.

Lemma retain_battery_described old identity : battery_fits identity →
  battery_described (retain_battery old identity) = battery_described identity.
Proof.
  intros (? & ? & ? & ? & ? & ? & ? & ? & ? & ?).
  transitivity (lsm_copy_string 64 (bat_name identity), lsm_copy_string LSM_NAME_LEN (bat_model identity),
    lsm_copy_string LSM_NAME_LEN (bat_manufacturer identity), lsm_copy_string 64 (bat_technology identity),
    lsm_copy_string 32 (bat_scope identity), lsm_copy_string 64 (bat_serial identity),
    lsm_copy_string 64 (bat_connection identity), lsm_copy_string 96 (bat_battery_source identity),
    lsm_copy_string 64 (bat_device_type identity), lsm_copy_string 128 (bat_modalias identity),
    bat_is_peripheral identity, bat_present identity,
    bat_supplemental_capacity_percent identity, bat_has_supplemental_capacity identity); [reflexivity|].
  by rewrite !copy_string_fits.
Qed.

Lemma gpu_identity_described left right : gpu_described left = gpu_described right →
  gpu_identity left = gpu_identity right.
Proof. unfold gpu_described, gpu_identity. by intros [= -> -> _ _ _ _ _]. Qed.

Lemma npu_identity_described left right : npu_described left = npu_described right →
  npu_identity left = npu_identity right.
Proof. unfold npu_described, npu_identity. by intros [= -> -> _]. Qed.

(** The counted part of an array after the sort and the loop. *)
Lemma take_items {A} (cmp : A → A → comparison) (find : A → option A) retain count (items : list A) :
  preorder_cmp cmp → 0 <= count <= Z.of_nat (length items) →
  let sorted := sort_items cmp count items in
  take (Z.to_nat count) sorted = qsort cmp (take (Z.to_nat count) items) ∧
  take (Z.to_nat count) (retain_items find retain (take (Z.to_nat count) sorted) ++ drop (Z.to_nat count) sorted)
  = retain_items find retain (qsort cmp (take (Z.to_nat count) items)).
Proof.
  intros Hc Hcount sorted.
  assert (Hl : length (qsort cmp (take (Z.to_nat count) items)) = Z.to_nat count).
  { rewrite (qsort_permutation cmp) by done. rewrite length_take. lia. }
  assert (Hs : take (Z.to_nat count) sorted = qsort cmp (take (Z.to_nat count) items)).
  { unfold sorted, sort_items. rewrite take_app_le by lia. by rewrite take_ge by lia. }
  split; [done|]. rewrite Hs. rewrite take_app_le, take_ge; [done|..]; unfold retain_items; rewrite length_fmap; lia.
Qed.

(** The membership test of one class, on the sorted devices. *)
Lemma class_unchanged {A} (identity : A → string) (same : A → A → bool) old count (items : list A) :
  comparable identity same old (take (Z.to_nat count) items) →
  NoDup (identity <$> old) → NoDup (identity <$> take (Z.to_nat count) items) →
  0 <= count <= Z.of_nat (length items) →
  (Z.of_nat (length old) = count ∧
   existsb (λ d, is_none (List.find (λ o, same o d) old))
     (qsort (λ x y, strcmp (identity x) (identity y)) (take (Z.to_nat count) items)) = false) ↔
  identity <$> old ≡ₚ identity <$> take (Z.to_nat count) items.
Proof.
  intros Hc Ho Hd Hcount.
  pose proof (qsort_permutation _ (take (Z.to_nat count) items) (identity_preorder identity)) as Hp.
  set (sorted := qsort _ _) in *.
  assert (Hl : length sorted = Z.to_nat count) by (rewrite Hp, length_take; lia).
  rewrite <- Hp. rewrite <- (membership_unchanged identity same old sorted).
  - rewrite Hl. split; intros [? ?]; (split; [lia|done]).
  - intros o d Hino Hind. apply Hc; [done|]. by rewrite <- Hp.
  - done.
  - by rewrite Hp.
Qed.

(** (C24) Reconciling the optional hardware.  Of each class - GPUs, batteries,
    NPUs - the snapshot afterwards has exactly the discovered devices, in the
    order of their identities whatever order the discovery had; a device that
    was there before keeps every measurement of its old record and takes its
    description from the discovery, and a device that was not is as discovered.
    The call reports "unchanged" exactly when all three classes have the same
    set of identities as before, so a device that is swapped for another one is
    never missed and a mere reordering is never reported. *)
Theorem hardware_reconciled monitor old_gpus old_batteries old_npus :
  monitor_ok monitor →
  let '(changed, after) := lsm_hardware_topology_reconcile monitor old_gpus old_batteries old_npus in
  reconciled gpu_identity same_gpu_identity gpu_sample gpu_described old_gpus
    (monitor_gpus monitor) (monitor_gpus after) ∧
  reconciled bat_name same_battery battery_sample battery_described old_batteries
    (monitor_batteries monitor) (monitor_batteries after) ∧
  reconciled npu_identity same_npu_identity npu_sample npu_described old_npus
    (monitor_npus monitor) (monitor_npus after) ∧
  (comparable gpu_identity same_gpu_identity old_gpus (monitor_gpus monitor) →
   comparable npu_identity same_npu_identity old_npus (monitor_npus monitor) →
   NoDup (gpu_identity <$> old_gpus) → NoDup (gpu_identity <$> monitor_gpus monitor) →
   NoDup (bat_name <$> old_batteries) → NoDup (bat_name <$> monitor_batteries monitor) →
   NoDup (npu_identity <$> old_npus) → NoDup (npu_identity <$> monitor_npus monitor) →
   changed = false ↔
     gpu_identity <$> old_gpus ≡ₚ gpu_identity <$> monitor_gpus monitor ∧
     bat_name <$> old_batteries ≡ₚ bat_name <$> monitor_batteries monitor ∧
     npu_identity <$> old_npus ≡ₚ npu_identity <$> monitor_npus monitor).
Proof.
  intros [Hg Hb Hn Hgf Hbf Hnf]. unfold lsm_hardware_topology_reconcile. cbv zeta.
  assert (Hgp : preorder_cmp compare_gpu_identity) by apply (identity_preorder gpu_identity).
  assert (Hbp : preorder_cmp compare_battery_names) by apply (identity_preorder bat_name).
  assert (Hnp : preorder_cmp compare_npu_identity) by apply (identity_preorder npu_identity).
  destruct (take_items _ (find_old_gpu old_gpus) retain_gpu _ _ Hgp Hg) as [Hgs Hgr].
  destruct (take_items _ (λ identity, find_old_battery old_batteries (bat_name identity)) retain_battery _ _ Hbp Hb)
    as [Hbs Hbr].
  destruct (take_items _ (find_old_npu old_npus) retain_npu _ _ Hnp Hn) as [Hns Hnr].
  rewrite Forall_forall in Hgf; rewrite Forall_forall in Hbf; rewrite Forall_forall in Hnf.
  split_and!.
  - unfold monitor_gpus at 2. cbn [mon_gpu_count mon_gpus set_field eta eta_LsmMonitor]. rewrite Hgr.
    apply retain_reconciled; [exact _|intros..].
    + by apply gpu_identity_described, retain_gpu_described, Hgf.
    + apply retain_gpu_sample.
    + by apply retain_gpu_described, Hgf.
  - unfold monitor_batteries at 2. cbn [mon_battery_count mon_batteries set_field eta eta_LsmMonitor]. rewrite Hbr.
    apply (retain_reconciled bat_name same_battery); [exact _|intros..].
    + assert (Hd : battery_described (retain_battery o d) = battery_described d)
        by by apply retain_battery_described, Hbf.
      unfold battery_described in Hd. by injection Hd.
    + apply retain_battery_sample.
    + by apply retain_battery_described, Hbf.
  - unfold monitor_npus at 2. cbn [mon_npu_count mon_npus set_field eta eta_LsmMonitor]. rewrite Hnr.
    apply retain_reconciled; [exact _|intros..].
    + by apply npu_identity_described, retain_npu_described, Hnf.
    + apply retain_npu_sample.
    + by apply retain_npu_described, Hnf.
  - intros Hgc Hnc Hgo Hgd Hbo Hbd Hno Hnd.
    rewrite <- (class_unchanged _ _ _ _ _ Hgc Hgo Hgd Hg), <- (class_unchanged _ _ _ _ _ Hnc Hno Hnd Hn).
    rewrite <- (class_unchanged bat_name same_battery old_batteries _ _
                  ltac:(intros o d _ _; apply strcmp_eq_true) Hbo Hbd Hb).
    unfold hardware_membership_changed, monitor_gpus, monitor_batteries, monitor_npus.
    cbn [mon_gpu_count mon_gpus mon_battery_count mon_batteries mon_npu_count mon_npus set_field eta eta_LsmMonitor].
    rewrite Hgs, Hbs, Hns.
    destruct (_ || _ || _) eqn:Hcounts.
    + split; [done|]. intros ((Hc1 & _) & (Hc2 & _) & (Hc3 & _)).
      rewrite Hc1, Hc2, Hc3, !Z.eqb_refl in Hcounts. done.
    + bool_hyps. rewrite !orb_false_iff. unfold find_old_gpu, find_old_battery, find_old_npu, same_battery in *. tauto.
Qed.
End topology.

(** ** Witness *)

From S2P Require Import CommonReference.

Definition card (identity : string) (utilization : double) : LsmGpuInfo :=
  zero_LsmGpuInfo <| gpu_platform_identity := identity |> <| gpu_utilization_percent := utilization |>.

(** Two cards, discovered in the other order. *)
Definition rediscovered : LsmMonitor :=
  zero_LsmMonitor <| mon_gpus := [card "pci:2" d0; card "pci:1" d0] |> <| mon_gpu_count := 2 |>.
Definition known_cards : list LsmGpuInfo := [card "pci:1" d100; card "pci:2" d0].

Lemma hardware_reconciled_witness :
  (lsm_hardware_topology_reconcile rediscovered known_cards [] []).1 = false ∧
  gpu_utilization_percent <$>
    monitor_gpus (lsm_hardware_topology_reconcile rediscovered known_cards [] []).2 = [d100; d0].
Proof.
  pose proof (hardware_reconciled rediscovered known_cards [] []) as Hr.
  destruct (lsm_hardware_topology_reconcile rediscovered known_cards [] []) as [changed after] eqn:E.
  destruct Hr as (Hgpus & _ & _ & Hchanged).
  { split; [simpl; lia..| | |].
    - by repeat (apply Forall_cons; split; [unfold gpu_fits, fits, LSM_IDENTITY_LEN; simpl; lia|]).
    - by vm_compute.
    - by vm_compute. }
  assert (Hnames : gpu_identity <$> monitor_gpus rediscovered = ["pci:2"; "pci:1"]) by by vm_compute.
  assert (Hold : gpu_identity <$> known_cards = ["pci:1"; "pci:2"]) by by vm_compute.
  split.
  - apply Hchanged.
    + intros o d Ho%list_elem_of_In Hd%list_elem_of_In.
      destruct Ho as [<-|[<-|[]]]; destruct Hd as [<-|[<-|[]]]; vm_compute; by split.
    + intros o d Ho%list_elem_of_In. destruct Ho.
    + rewrite Hold. by apply (bool_decide_eq_true_1 _); vm_compute.
    + rewrite Hnames. by apply (bool_decide_eq_true_1 _); vm_compute.
    + constructor.
    + constructor.
    + constructor.
    + constructor.
    + rewrite Hold, Hnames. split_and!; [constructor|constructor..].
  - injection E as _ <-. by vm_compute.
Defined.
