(* ===== verification/ThermalPolicy.v ===== *)
(** * ThermalPolicy: warning and fault thresholds of a processor

    Models [src/src/thermal_policy.c]: documented limits of known models, the
    limits the firmware reports, and the fallback.  The theorem is about the
    doubles the code computes with: every rounding is accounted for. *)
From S2P Require Import Prelude Double Rounding CStrings Common ProcessModel MonitorTypes.
Local Open Scope Z_scope.

(** src: thermal_policy.h:20-24 LsmThermalPolicySource *)
Inductive LsmThermalPolicySource :=
  | LSM_THERMAL_POLICY_FALLBACK
  | LSM_THERMAL_POLICY_MODEL_TABLE
  | LSM_THERMAL_POLICY_SENSOR.

(** src: thermal_policy.h:27-31 LsmThermalPolicy *)
Record LsmThermalPolicy := {
  tp_warning_c : double;
  tp_fault_c : double;
  tp_source : LsmThermalPolicySource;
}.

(** src: thermal_policy.c:21-25 LSM_THERMAL_FALLBACK_WARNING_C *)
Definition LSM_THERMAL_FALLBACK_WARNING_C : double := double_of_Z 80.
Definition LSM_THERMAL_FALLBACK_FAULT_C : double := double_of_Z 95.
Definition LSM_THERMAL_WARNING_MARGIN_C : double := double_of_Z 10.
Definition LSM_THERMAL_MIN_LIMIT_C : double := double_of_Z 50.
Definition LSM_THERMAL_MAX_LIMIT_C : double := double_of_Z 150.

(** src: thermal_policy.c:32-47 cpu_thermal_table *)
Definition cpu_thermal_table : list (string * double) :=
  [("Core(TM) Ultra 5 125U", double_of_Z 110); ("Core(TM) Ultra 5 135U", double_of_Z 110);
   ("Core(TM) Ultra 7 155U", double_of_Z 110); ("Core(TM) Ultra 7 165U", double_of_Z 110);
   ("Ryzen 7 7800X3D", double_of_Z 89); ("Ryzen 9 7950X3D", double_of_Z 89);
   ("Ryzen 7 9800X3D", double_of_Z 95); ("Ryzen 9 9950X3D", double_of_Z 95);
   ("Ryzen 7 7700X", double_of_Z 95); ("Ryzen 9 9950X", double_of_Z 95)].

(** src: thermal_policy.c valid_limit *)
Definition valid_limit (celsius : double) : bool :=
  isfinite celsius && dge celsius LSM_THERMAL_MIN_LIMIT_C && dle celsius LSM_THERMAL_MAX_LIMIT_C.

Section thermal.
Context `{TextOps}.

(** src: thermal_policy.c table_limit *)
Definition table_limit (model : string) : option double :=
  if negb (nonempty model) then None
  else snd <$> List.find (λ entry, lsm_ascii_contains_ci model entry.1) cpu_thermal_table.

(** src: thermal_policy.c lsm_cpu_thermal_policy *)
Definition lsm_cpu_thermal_policy (cpu : LsmCpuInfo) : LsmThermalPolicy :=
  let '(warning, fault, source) :=
    match table_limit (cpu_model cpu) with
    | Some table_critical =>
        if valid_limit table_critical
        then (dsub table_critical LSM_THERMAL_WARNING_MARGIN_C, table_critical, LSM_THERMAL_POLICY_MODEL_TABLE)
        else (LSM_THERMAL_FALLBACK_WARNING_C, LSM_THERMAL_FALLBACK_FAULT_C, LSM_THERMAL_POLICY_FALLBACK)
    | None => (LSM_THERMAL_FALLBACK_WARNING_C, LSM_THERMAL_FALLBACK_FAULT_C, LSM_THERMAL_POLICY_FALLBACK)
    end in
  let have_sensor_warning := cpu_temperature_warning_available cpu && valid_limit (cpu_temperature_warning_c cpu) in
  let have_sensor_critical :=
    cpu_temperature_critical_available cpu && valid_limit (cpu_temperature_critical_c cpu) in
  let '(warning, fault, source) :=
    if have_sensor_warning && have_sensor_critical
    then (cpu_temperature_warning_c cpu, cpu_temperature_critical_c cpu, LSM_THERMAL_POLICY_SENSOR)
    else if have_sensor_warning then
      let fault := dadd (cpu_temperature_warning_c cpu) LSM_THERMAL_WARNING_MARGIN_C in
      (cpu_temperature_warning_c cpu,
       if dgt fault LSM_THERMAL_MAX_LIMIT_C then LSM_THERMAL_MAX_LIMIT_C else fault, LSM_THERMAL_POLICY_SENSOR)
    else if have_sensor_critical then
      (dsub (cpu_temperature_critical_c cpu) LSM_THERMAL_WARNING_MARGIN_C, cpu_temperature_critical_c cpu,
       LSM_THERMAL_POLICY_SENSOR)
    else (warning, fault, source) in
  let warning := if dlt warning LSM_THERMAL_MIN_LIMIT_C then LSM_THERMAL_MIN_LIMIT_C else warning in
  let warning := if dge warning fault then dsub fault (double_of_Z 5) else warning in
  {| tp_warning_c := warning; tp_fault_c := fault; tp_source := source |}.
End thermal.

(** ** Temperatures between 32 and 256 degrees, in units of 2^-47 *)

Definition celsius (x : double) (z : Z) : Prop :=
  ∃ m e, x = S754_finite false m e ∧ 2 ^ 52 <= Z.pos m < 2 ^ 53 ∧ -47 <= e <= -45 ∧ z = Z.pos m * 2 ^ (e + 47).

Definition degrees (n : Z) : Z := n * 2 ^ 47.

Lemma celsius_cases x z : celsius x z → ∃ m e, x = S754_finite false m e ∧
  2 ^ 52 <= Z.pos m < 2 ^ 53 ∧
  (e = -47 ∧ z = Z.pos m ∨ e = -46 ∧ z = 2 * Z.pos m ∨ e = -45 ∧ z = 4 * Z.pos m).
Proof.
  intros (m & e & -> & Hm & He & ->). exists m, e. split; [done|]. split; [done|].
  assert (e = -47 ∨ e = -46 ∨ e = -45) as [-> | [-> | ->]] by lia; simpl; lia.
Qed.

Lemma celsius_le x y zx zy : celsius x zx → celsius y zy → dle x y = true ↔ zx <= zy.
Proof.
  intros (m & e & -> & Hm & Hx)%celsius_cases (n & f & -> & Hn & Hy)%celsius_cases.
  rewrite dle_true. unfold key_lt. cbn [isnan dkey fst snd].
  split; [intros (_ & _ & [[= -> ->]|Hk]); lia|]. intros Hz. split; [done|]. split; [done|].
  destruct (Z.eq_dec zx zy) as [Heq|Hne].
  - left. f_equal; [f_equal|]; lia.
  - right. lia.
Qed.

Lemma celsius_not_nan x z : celsius x z → isnan x = false.
Proof. by intros (m & e & -> & _). Qed.

Lemma celsius_lt x y zx zy : celsius x zx → celsius y zy → dlt x y = true ↔ zx < zy.
Proof.
  intros Hx Hy. pose proof (celsius_le y x zy zx Hy Hx) as Hle.
  pose proof (celsius_not_nan _ _ Hx). pose proof (celsius_not_nan _ _ Hy).
  destruct (dlt x y) eqn:E.
  - split; [intros _|done]. destruct (Z.lt_ge_cases zx zy) as [|Hge]; [done|].
    apply Hle in Hge. apply dle_not_dlt in Hge. congruence.
  - split; [done|]. intros Hlt. apply dlt_false_iff in E; [|done..]. apply Hle in E. lia.
Qed.

Lemma celsius_constant n : 50 <= n <= 150 → n ∈ [50; 80; 85; 89; 95; 100; 110; 145; 150] → celsius (double_of_Z n) (degrees n).
Proof.
  intros _ Hn. apply list_elem_of_In in Hn.
  repeat destruct Hn as [<-|Hn]; [..|done];
    (eexists _, _; split; [vm_compute; reflexivity|]; split; [lia|]; split; [lia|]; vm_compute; reflexivity).
Qed.

(** A value between 32 and 200 degrees stays one, on its side of every integer. *)
Lemma celsius_round v e : -50 <= e <= -49 → 32 * 2 ^ (- e) <= Z.pos v <= 200 * 2 ^ (- e) →
  ∃ z, celsius (binary_round 53 1024 false v e) z ∧
    ∀ n, 0 <= n → (n * 2 ^ (- e) <= Z.pos v → degrees n <= z) ∧ (Z.pos v <= n * 2 ^ (- e) → z <= degrees n).
Proof.
  intros He Hv.
  assert (Hd : 6 - e <= Z.pos (digits2_pos v) <= 8 - e).
  { pose proof (digits_bounds v) as [Hlo Hhi]. split.
    - destruct (Z.le_gt_cases (6 - e) (Z.pos (digits2_pos v))) as [|Hgt]; [done|].
      assert (2 ^ Z.pos (digits2_pos v) <= 2 ^ (5 - e)) by (apply Z.pow_le_mono_r; lia).
      replace (5 - e) with (5 + - e) in * by lia. rewrite Z.pow_add_r in * by lia. lia.
    - eapply digits_le; [lia| |done]. replace (8 - e) with (8 + - e) by lia. rewrite Z.pow_add_r by lia.
      assert (0 < 2 ^ (- e)) by (apply Z.pow_pos_nonneg; lia). lia. }
  destruct (binary_round_cell false v e) as (m & e' & Heq & Hm & He' & Hcell & Hexact); [lia..|].
  set (k := Z.pos (digits2_pos v) - 53) in *. set (q := Z.pos v / 2 ^ k) in *.
  assert (Hk : 2 <= k <= 5) by lia. rewrite Heq.
  assert (Hpow : 2 ^ (- e) = 2 ^ (- e - k) * 2 ^ k) by (rewrite <- Z.pow_add_r by lia; f_equal; lia).
  assert (Hpk : 0 < 2 ^ k) by (apply Z.pow_pos_nonneg; lia).
  assert (Hbelow : ∀ n, n * 2 ^ (- e) <= Z.pos v → n * 2 ^ (- e) <= Z.pos m * 2 ^ (e' - e)).
  { intros n Hn. rewrite Hpow in *. enough (n * 2 ^ (- e - k) <= q) by nia.
    apply Z.div_le_lower_bound; lia. }
  assert (Habove : ∀ n, Z.pos v <= n * 2 ^ (- e) → Z.pos m * 2 ^ (e' - e) <= n * 2 ^ (- e)).
  { intros n Hn. rewrite Hpow in *.
    destruct (Z.eq_dec (Z.pos v) (q * 2 ^ k)) as [Hv2|Hv2]; [rewrite Hexact by done; lia|].
    enough (q < n * 2 ^ (- e - k)) by nia.
    pose proof (Z.mul_div_le (Z.pos v) (2 ^ k) Hpk). nia. }
  assert (Hscale : ∀ a, a * 2 ^ (- e) = degrees a * 2 ^ (- e - 47)).
  { intros a. unfold degrees. rewrite <- Z.mul_assoc, <- Z.pow_add_r by lia. do 2 f_equal. lia. }
  assert (Hup : e' <= -45).
  { pose proof (Habove 200 ltac:(lia)) as Hle. destruct (Z.le_gt_cases e' (-45)) as [|Hgt]; [done|].
    assert (2 ^ (- 44 - e) <= 2 ^ (e' - e)) by (apply Z.pow_le_mono_r; lia).
    replace (-44 - e) with (-44 + - e) in * by lia.
    assert (2 ^ 52 * 2 ^ (e' - e) <= 200 * 2 ^ (- e)) by nia.
    assert (2 ^ (- e) = 2 ^ 44 * 2 ^ (-44 + - e)) by (rewrite <- Z.pow_add_r by lia; f_equal; lia). nia. }
  exists (Z.pos m * 2 ^ (e' + 47)). split.
  { exists m, e'. split_and!; try done; lia. }
  assert (Hz : Z.pos m * 2 ^ (e' - e) = Z.pos m * 2 ^ (e' + 47) * 2 ^ (- e - 47)).
  { rewrite <- Z.mul_assoc, <- Z.pow_add_r by lia. do 2 f_equal. lia. }
  assert (0 < 2 ^ (- e - 47)) by (apply Z.pow_pos_nonneg; lia).
  intros n Hn. split; intros Hc.
  - apply Hbelow in Hc. rewrite Hz, Hscale in Hc. nia.
  - apply Habove in Hc. rewrite Hz, Hscale in Hc. nia.
Qed.

Lemma shl_align_value m e ez : ez <= e → Z.pos (fst (shl_align m e ez)) = Z.pos m * 2 ^ (e - ez).
Proof.
  intros He. unfold shl_align. destruct (ez - e) as [|p|p] eqn:E; [|lia|].
  - replace (e - ez) with 0 by lia. simpl. lia.
  - replace (e - ez) with (Z.pos p) by lia. cbn [fst]. rewrite <- Z.shiftl_mul_pow2 by lia.
    change (Z.shiftl (Z.pos m) (Z.pos p)) with (Pos.iter (Z.mul 2) (Z.pos m) p). clear.
    induction p as [|p IH] using Pos.peano_ind; [done|]. by rewrite !Pos.iter_succ, <- IH.
Qed.

Lemma shl_align_same m e : fst (shl_align m e e) = m.
Proof. unfold shl_align. by rewrite Z.sub_diag. Qed.

Lemma dadd_positive m e n f : f <= e →
  dadd (S754_finite false m e) (S754_finite false n f) =
  binary_normalize 53 1024 (Z.pos m * 2 ^ (e - f) + Z.pos n) f false.
Proof.
  intros He. unfold dadd, SFadd. rewrite Z.min_r by done. unfold cond_Zopp.
  by rewrite shl_align_same, shl_align_value.
Qed.

Lemma dsub_positive m e n f : f <= e →
  dsub (S754_finite false m e) (S754_finite false n f) =
  binary_normalize 53 1024 (Z.pos m * 2 ^ (e - f) - Z.pos n) f false.
Proof.
  intros He. unfold dsub, SFsub. rewrite Z.min_r by done. unfold cond_Zopp.
  by rewrite shl_align_same, shl_align_value.
Qed.

(** The exact sum or difference, in units of 2^(-50), and its rounding. *)
Lemma celsius_rounded total e : -50 <= e <= -49 → 32 * 2 ^ (- e) <= total <= 200 * 2 ^ (- e) →
  ∃ z, celsius (binary_normalize 53 1024 total e false) z ∧
    ∀ n, 0 <= n → (n * 2 ^ (- e) <= total → degrees n <= z) ∧ (total <= n * 2 ^ (- e) → z <= degrees n).
Proof.
  intros He Ht. assert (0 < 2 ^ (- e)) by (apply Z.pow_pos_nonneg; lia).
  destruct total as [|v|v]; [lia| |lia]. by apply celsius_round.
Qed.

Definition margin (k : Z) : Prop := k = 5 ∨ k = 10.

(** Moving a temperature by a margin. *)
Lemma celsius_move x z k (up : bool) : celsius x z → margin k →
  let target := if up then z + degrees k else z - degrees k in
  degrees 32 <= target <= degrees 200 →
  ∃ z', celsius ((if up then dadd else dsub) x (double_of_Z k)) z' ∧
    ∀ n, 0 <= n → (degrees n <= target → degrees n <= z') ∧ (target <= degrees n → z' <= degrees n).
Proof.
  intros (m & e & -> & Hm & He & ->) Hk target Ht.
  assert (∃ km ke, double_of_Z k = S754_finite false km ke ∧ -50 <= ke <= -49 ∧
            Z.pos km * 2 ^ (ke + 50) = k * 2 ^ 50) as (km & ke & Hkd & Hke & Hkm).
  { destruct Hk as [-> | ->].
    - exists (5 * 2 ^ 50)%positive, (-50). split; [by vm_compute|]. split; [lia|by vm_compute].
    - exists (10 * 2 ^ 49)%positive, (-49). split; [by vm_compute|]. split; [lia|by vm_compute]. }
  rewrite Hkd.
  assert (Hmz : Z.pos m * 2 ^ (e - ke) = Z.pos m * 2 ^ (e + 47) * 2 ^ (- ke - 47)).
  { rewrite <- Z.mul_assoc, <- Z.pow_add_r by lia. do 2 f_equal. lia. }
  assert (Hkz : Z.pos km = degrees k * 2 ^ (- ke - 47)).
  { unfold degrees. assert (ke = -50 ∨ ke = -49) as [-> | ->] by lia; simpl in Hkm |- *; lia. }
  assert (Hp : 0 < 2 ^ (- ke - 47)) by (apply Z.pow_pos_nonneg; lia).
  assert (Hn : ∀ n, n * 2 ^ (- ke) = degrees n * 2 ^ (- ke - 47)).
  { intros n. unfold degrees. rewrite <- Z.mul_assoc, <- Z.pow_add_r by lia. do 2 f_equal. lia. }
  destruct (celsius_rounded (target * 2 ^ (- ke - 47)) ke Hke) as (z' & Hz & Hbounds).
  { rewrite !Hn. nia. }
  exists z'. split.
  - assert (Hexact : (if up then dadd else dsub) (S754_finite false m e) (S754_finite false km ke) =
              binary_normalize 53 1024 (target * 2 ^ (- ke - 47)) ke false); [|by rewrite Hexact].
    clear Hz Hbounds. unfold target. destruct up.
    + rewrite dadd_positive by lia. rewrite Hmz, Hkz, Z.mul_add_distr_r. done.
    + rewrite dsub_positive by lia. rewrite Hmz, Hkz, Z.mul_sub_distr_r. done.
  - intros n Hn0. destruct (Hbounds n Hn0) as [Hlo Hhi]. rewrite Hn in *.
    split; intros Hc; [apply Hlo|apply Hhi]; nia.
Qed.

(** A limit that passed the validity test. *)
Lemma valid_limit_celsius x : valid_binary 53 1024 x = true → valid_limit x = true →
  ∃ z, celsius x z ∧ degrees 50 <= z <= degrees 150.
Proof.
  intros Hv [[_ Hlo]%andb_true_iff Hhi]%andb_true_iff.
  assert (Hx : ∃ z, celsius x z).
  { destruct x as [s|s| |s m e]; [done|by destruct s|done|].
    apply dle_true in Hlo as (_ & _ & Hlo), Hhi as (_ & _ & Hhi).
    change LSM_THERMAL_MIN_LIMIT_C with (S754_finite false (50 * 2 ^ 47) (-47)) in Hlo.
    change LSM_THERMAL_MAX_LIMIT_C with (S754_finite false (150 * 2 ^ 45) (-45)) in Hhi.
    unfold key_lt in *. destruct s; cbn [dkey fst snd] in *; [destruct Hlo as [[=]|]; lia|].
    assert (He : -47 <= e <= -45).
    { destruct Hlo as [[= <- <-]|Hlo], Hhi as [[= Hme Hee]|Hhi]; lia. }
    simpl in Hv. unfold bounded, canonical_mantissa in Hv. apply andb_true_iff in Hv as [Hc _].
    apply Z.eqb_eq in Hc. unfold fexp, emin in Hc.
    assert (Hd : Z.pos (digits2_pos m) = 53) by lia.
    pose proof (digits_bounds m) as Hb. rewrite Hd in Hb.
    eexists. exists m, e. split_and!; done || lia. }
  destruct Hx as [z Hz]. exists z. split; [done|].
  split; [eapply celsius_le; [by apply (celsius_constant 50); [lia|set_solver]|exact Hz|done]
         |eapply celsius_le; [exact Hz|by apply (celsius_constant 150); [lia|set_solver]|done]].
Qed.

Section thermal_theorems.
Context `{TextOps}.

(** Thresholds in their range, before the final order is enforced: the warning
    is a temperature up to 150 degrees or exactly the constant 50. *)
Lemma below_fault x z : celsius x z → degrees 50 <= z <= degrees 150 →
  ∃ z', celsius (dsub x (double_of_Z 5)) z' ∧ degrees 45 <= z' < z.
Proof.
  intros Hx Hz. destruct (celsius_move x z 5 false Hx (or_introl eq_refl)) as (z' & Hz' & Hb).
  { unfold degrees in *. lia. }
  exists z'. split; [done|]. split.
  - apply Hb; [lia|]. unfold degrees in *. lia.
  -
    set (n := (z - degrees 5) / 2 ^ 47 + 1).
    assert (Hn : z - degrees 5 <= degrees n ∧ degrees n < z).
    { unfold n, degrees. pose proof (Z.mul_succ_div_gt (z - 5 * 2 ^ 47) (2 ^ 47) ltac:(lia)).
      pose proof (Z.mul_div_le (z - 5 * 2 ^ 47) (2 ^ 47) ltac:(lia)). lia. }
    destruct (Hb n) as [_ Hhi]; [unfold n, degrees in *; pose proof (Z.div_pos (z - 5 * 2 ^ 47) (2 ^ 47)); lia|].
    lia.
Qed.

(** The last two statements order any pair of thresholds in range. *)
Lemma ordered_thresholds warning zw fault zf :
  celsius warning zw → celsius fault zf → degrees 50 <= zf <= degrees 150 →
  let warning := if dlt warning LSM_THERMAL_MIN_LIMIT_C then LSM_THERMAL_MIN_LIMIT_C else warning in
  let warning := if dge warning fault then dsub fault (double_of_Z 5) else warning in
  ∃ z, celsius warning z ∧ degrees 45 <= z < zf.
Proof.
  intros Hw Hf Hzf. cbv zeta.
  assert (H50 : celsius LSM_THERMAL_MIN_LIMIT_C (degrees 50)) by (apply (celsius_constant 50); [lia|set_solver]).
  set (raised := if dlt warning _ then _ else _).
  assert (∃ zr, celsius raised zr ∧ degrees 50 <= zr) as (zr & Hr & Hzr).
  { unfold raised. destruct (dlt warning _) eqn:E; [exists (degrees 50); split; [done|lia]|].
    exists zw. split; [done|]. apply not_true_iff_false in E. rewrite (celsius_lt _ _ _ _ Hw H50) in E. lia. }
  destruct (dge raised fault) eqn:E.
  - destruct (below_fault fault zf Hf Hzf) as (z & Hz & Hb). eauto.
  - exists zr. split; [done|]. apply not_true_iff_false in E. rewrite (celsius_le _ _ _ _ Hf Hr) in E.
    unfold degrees in *. lia.
Qed.

Lemma table_limit_cases model limit : table_limit model = Some limit →
  limit = double_of_Z 110 ∨ limit = double_of_Z 89 ∨ limit = double_of_Z 95.
Proof.
  unfold table_limit. destruct (negb _); [done|].
  destruct (List.find _ _) as [entry|] eqn:Hf; [|done]. intros [= <-].
  apply List.find_some in Hf as [Hin _]. unfold cpu_thermal_table in Hin. simpl In in Hin.
  repeat destruct Hin as [<-|Hin]; cbn [snd]; auto. done.
Qed.

(** The firmware's limits are C doubles. *)
Definition sensor_limits_ok (cpu : LsmCpuInfo) : Prop :=
  valid_binary 53 1024 (cpu_temperature_warning_c cpu) = true ∧
  valid_binary 53 1024 (cpu_temperature_critical_c cpu) = true.

(** The thresholds before the last two statements are in range. *)
Definition candidate_thresholds (cpu : LsmCpuInfo) : double * double * LsmThermalPolicySource :=
  let warning_ok := cpu_temperature_warning_available cpu && valid_limit (cpu_temperature_warning_c cpu) in
  let critical_ok := cpu_temperature_critical_available cpu && valid_limit (cpu_temperature_critical_c cpu) in
  if warning_ok && critical_ok
  then (cpu_temperature_warning_c cpu, cpu_temperature_critical_c cpu, LSM_THERMAL_POLICY_SENSOR)
  else if warning_ok then
    let fault := dadd (cpu_temperature_warning_c cpu) LSM_THERMAL_WARNING_MARGIN_C in
    (cpu_temperature_warning_c cpu,
     if dgt fault LSM_THERMAL_MAX_LIMIT_C then LSM_THERMAL_MAX_LIMIT_C else fault, LSM_THERMAL_POLICY_SENSOR)
  else if critical_ok then
    (dsub (cpu_temperature_critical_c cpu) LSM_THERMAL_WARNING_MARGIN_C, cpu_temperature_critical_c cpu,
     LSM_THERMAL_POLICY_SENSOR)
  else match table_limit (cpu_model cpu) with
       | Some limit => (dsub limit LSM_THERMAL_WARNING_MARGIN_C, limit, LSM_THERMAL_POLICY_MODEL_TABLE)
       | None => (LSM_THERMAL_FALLBACK_WARNING_C, LSM_THERMAL_FALLBACK_FAULT_C, LSM_THERMAL_POLICY_FALLBACK)
       end.

Lemma policy_of_candidates cpu :
  lsm_cpu_thermal_policy cpu =
  let '(warning, fault, source) := candidate_thresholds cpu in
  let warning := if dlt warning LSM_THERMAL_MIN_LIMIT_C then LSM_THERMAL_MIN_LIMIT_C else warning in
  let warning := if dge warning fault then dsub fault (double_of_Z 5) else warning in
  {| tp_warning_c := warning; tp_fault_c := fault; tp_source := source |}.
Proof.
  unfold lsm_cpu_thermal_policy, candidate_thresholds.
  assert (Hvalid : ∀ limit, table_limit (cpu_model cpu) = Some limit → valid_limit limit = true).
  { intros limit [-> | [-> | ->]]%table_limit_cases; by vm_compute. }
  destruct (table_limit (cpu_model cpu)) as [limit|]; [rewrite (Hvalid limit) by done|];
    by destruct (cpu_temperature_warning_available cpu && _), (cpu_temperature_critical_available cpu && _).
Qed.

Lemma fixed_celsius n : n ∈ [50; 80; 85; 89; 95; 100; 110; 145; 150] → celsius (double_of_Z n) (degrees n).
Proof. intros Hn. apply celsius_constant; [|done]. set_unfold. lia. Qed.

Lemma min_limit_celsius : celsius LSM_THERMAL_MIN_LIMIT_C (degrees 50).
Proof. apply (fixed_celsius 50). set_solver. Qed.

Lemma max_limit_celsius : celsius LSM_THERMAL_MAX_LIMIT_C (degrees 150).
Proof. apply (fixed_celsius 150). set_solver. Qed.

(** A critical limit and the margin below it. *)
Lemma below_critical x z : celsius x z → degrees 50 <= z <= degrees 150 →
  ∃ z', celsius (dsub x LSM_THERMAL_WARNING_MARGIN_C) z'.
Proof.
  intros Hx Hz. destruct (celsius_move x z 10 false Hx (or_intror eq_refl)) as (z' & Hz' & _); [|by eauto].
  unfold degrees in *. lia.
Qed.

Lemma candidates_in_range cpu : sensor_limits_ok cpu →
  let '(warning, fault, _) := candidate_thresholds cpu in
  ∃ zw zf, celsius warning zw ∧ celsius fault zf ∧ degrees 50 <= zf <= degrees 150.
Proof.
  intros [Hvw Hvc]. unfold candidate_thresholds.
  destruct (cpu_temperature_critical_available cpu && valid_limit (cpu_temperature_critical_c cpu)) eqn:Hcritical.
  - apply andb_true_iff in Hcritical as [_ Hcritical].
    destruct (valid_limit_celsius _ Hvc Hcritical) as (zf & Hf & Hzf).
    destruct (cpu_temperature_warning_available cpu && valid_limit (cpu_temperature_warning_c cpu)) eqn:Hwarning.
    + apply andb_true_iff in Hwarning as [_ Hwarning].
      destruct (valid_limit_celsius _ Hvw Hwarning) as (zw & Hw & _). by exists zw, zf.
    + destruct (below_critical _ _ Hf Hzf) as (zw & Hw). by exists zw, zf.
  - destruct (cpu_temperature_warning_available cpu && valid_limit (cpu_temperature_warning_c cpu)) eqn:Hwarning;
      cbn [andb].
    + apply andb_true_iff in Hwarning as [_ Hwarning].
      destruct (valid_limit_celsius _ Hvw Hwarning) as (zw & Hw & Hzw).
      destruct (celsius_move _ _ 10 true Hw (or_intror eq_refl)) as (zf & Hf & Hb); [unfold degrees in *; lia|].
      pose proof max_limit_celsius as Hmax.
      destruct (dgt _ LSM_THERMAL_MAX_LIMIT_C) eqn:E.
      * exists zw, (degrees 150). split_and!; [done..| |lia]. unfold degrees. lia.
      * exists zw, zf. split_and!; [done..| |].
        -- apply Hb; [lia|]. unfold degrees in *. lia.
        -- apply not_true_iff_false in E. rewrite (celsius_lt _ _ _ _ Hmax Hf) in E. lia.
    + destruct (table_limit (cpu_model cpu)) as [limit|] eqn:Htable.
      * assert (∃ zf, celsius limit zf ∧ degrees 50 <= zf <= degrees 150) as (zf & Hf & Hzf).
        { apply table_limit_cases in Htable as [-> | [-> | ->]];
            (eexists; split; [apply fixed_celsius; set_solver|unfold degrees; lia]). }
        destruct (below_critical _ _ Hf Hzf) as (zw & Hw). by exists zw, zf.
      * exists (degrees 80), (degrees 95).
        split_and!; [apply (fixed_celsius 80); set_solver|apply (fixed_celsius 95); set_solver|unfold degrees; lia..].
Qed.

(** The thermal thresholds are ordered and in range whatever the model
    name and the firmware say, NaN, infinities, negative and reversed limits
    included: the warning is at least 45 degrees and strictly below the fault,
    which is between 50 and 150 degrees, after all roundings.  Valid limits of
    both kinds are taken over unchanged when they are in order, and any valid
    limit of the firmware wins over the model table. *)
Theorem thermal_policy_ordered cpu : sensor_limits_ok cpu →
  let policy := lsm_cpu_thermal_policy cpu in
  let warning_ok := cpu_temperature_warning_available cpu && valid_limit (cpu_temperature_warning_c cpu) in
  let critical_ok := cpu_temperature_critical_available cpu && valid_limit (cpu_temperature_critical_c cpu) in
  dle (double_of_Z 45) (tp_warning_c policy) = true ∧
  dlt (tp_warning_c policy) (tp_fault_c policy) = true ∧
  dle (double_of_Z 50) (tp_fault_c policy) = true ∧ dle (tp_fault_c policy) (double_of_Z 150) = true ∧
  (tp_source policy = LSM_THERMAL_POLICY_SENSOR ↔ warning_ok || critical_ok = true) ∧
  (critical_ok = true → tp_fault_c policy = cpu_temperature_critical_c cpu) ∧
  (warning_ok = true → critical_ok = true →
   dlt (cpu_temperature_warning_c cpu) (cpu_temperature_critical_c cpu) = true →
   tp_warning_c policy = cpu_temperature_warning_c cpu).
Proof.
  intros Hok policy warning_ok critical_ok. unfold policy. rewrite policy_of_candidates.
  pose proof (candidates_in_range cpu Hok) as Hrange.
  assert (Hsource : (candidate_thresholds cpu).2 = LSM_THERMAL_POLICY_SENSOR ↔ warning_ok || critical_ok = true).
  { unfold candidate_thresholds. fold warning_ok critical_ok.
    destruct warning_ok, critical_ok; try done. by destruct (table_limit (cpu_model cpu)). }
  assert (Hcritical : critical_ok = true → (candidate_thresholds cpu).1.2 = cpu_temperature_critical_c cpu).
  { unfold candidate_thresholds. fold warning_ok critical_ok. intros ->. by destruct warning_ok. }
  assert (Hboth : warning_ok = true → critical_ok = true →
            (candidate_thresholds cpu).1.1 = cpu_temperature_warning_c cpu).
  { unfold candidate_thresholds. fold warning_ok critical_ok. by intros -> ->. }
  destruct (candidate_thresholds cpu) as [[warning fault] source]. cbn [fst snd] in *.
  destruct Hrange as (zw & zf & Hw & Hf & Hzf).
  destruct (ordered_thresholds _ _ _ _ Hw Hf Hzf) as (z & Hz & Hrange).
  assert (H45 : celsius (double_of_Z 45) (degrees 45)).
  { exists (45 * 2 ^ 47)%positive, (-47). split_and!; try done; try lia. }
  pose proof min_limit_celsius as H50. pose proof max_limit_celsius as H150.
  cbv zeta. cbn [tp_warning_c tp_fault_c tp_source]. split_and!.
  - apply (celsius_le _ _ _ _ H45 Hz). lia.
  - apply (celsius_lt _ _ _ _ Hz Hf). lia.
  - apply (celsius_le _ _ _ _ H50 Hf). lia.
  - apply (celsius_le _ _ _ _ Hf H150). lia.
  - done.
  - done.
  - intros Hwarning Hcrit Hlt. rewrite (Hboth Hwarning Hcrit) in *. rewrite (Hcritical Hcrit) in *.
    unfold warning_ok in Hwarning. apply andb_true_iff in Hwarning as [_ Hv].
    destruct (valid_limit_celsius _ (proj1 Hok) Hv) as (zw' & Hw' & Hzw').
    destruct (dlt (cpu_temperature_warning_c cpu) LSM_THERMAL_MIN_LIMIT_C) eqn:E.
    { apply (celsius_lt _ _ _ _ Hw' H50) in E. lia. }
    destruct (dge (cpu_temperature_warning_c cpu) (cpu_temperature_critical_c cpu)) eqn:E2; [|done].
    apply dle_not_dlt in E2. congruence.
Qed.
End thermal_theorems.

(** ** Witness *)

From S2P Require Import CommonReference.

(** Firmware that reports its limits the wrong way round. *)
Definition reversed_limits : LsmCpuInfo :=
  zero_LsmCpuInfo <| cpu_model := "AMD Ryzen 7 7800X3D" |>
    <| cpu_temperature_warning_c := double_of_Z 110 |> <| cpu_temperature_warning_available := true |>
    <| cpu_temperature_critical_c := double_of_Z 105 |> <| cpu_temperature_critical_available := true |>.

Lemma thermal_policy_ordered_witness :
  dlt (tp_warning_c (lsm_cpu_thermal_policy reversed_limits)) (tp_fault_c (lsm_cpu_thermal_policy reversed_limits))
  = true ∧ tp_warning_c (lsm_cpu_thermal_policy reversed_limits) = double_of_Z 100.
Proof.
  destruct (thermal_policy_ordered reversed_limits) as (_ & Hlt & _); [by split; vm_compute|].
  split; [exact Hlt|]. vm_compute. reflexivity.
Defined.
