(* ===== verification/SampleHistory.v ===== *)
(** * SampleHistory: the fixed-capacity circular history behind every graph

    Models [src/src/sample_history.c].  The implementation is a ring of 600
    slots; its specification is a plain list, the window the graph draws. *)
From S2P Require Import Prelude Double.
Local Open Scope nat_scope.

(** src: sample_history.h:19-19 LSM_HISTORY_LENGTH *)
Definition LSM_HISTORY_LENGTH : nat := 600.

(** src: sample_history.h:29-34 LsmSampleHistory *)
Record LsmSampleHistory := {
  sh_values : list double;
  sh_valid : list bool;
  sh_count : nat;
  sh_head : nat;
}.

(** src: sample_history.c lsm_sample_history_init *)
Definition lsm_sample_history_init (history : option LsmSampleHistory)
    : option LsmSampleHistory :=
  match history with
  | None => None
  | Some _ =>
      Some {| sh_values := replicate LSM_HISTORY_LENGTH d0;
              sh_valid := replicate LSM_HISTORY_LENGTH false;
              sh_count := LSM_HISTORY_LENGTH;
              sh_head := 0 |}
  end.

(** The index the sample goes to, with the new [count] and [head]. *)
(** src: sample_history.c:34-53 lsm_sample_history_push *)
Definition push_slot (h : LsmSampleHistory) (newer_on_right : bool) : nat * nat * nat :=
  if sh_count h <? LSM_HISTORY_LENGTH then
    if newer_on_right then
      ((sh_head h + sh_count h) mod LSM_HISTORY_LENGTH, sh_count h + 1, sh_head h)
    else
      let head := (sh_head h + LSM_HISTORY_LENGTH - 1) mod LSM_HISTORY_LENGTH in
      (head, sh_count h + 1, head)
  else if newer_on_right then
    (sh_head h, sh_count h, (sh_head h + 1) mod LSM_HISTORY_LENGTH)
  else
    let head := (sh_head h + LSM_HISTORY_LENGTH - 1) mod LSM_HISTORY_LENGTH in
    (head, sh_count h, head).

(** src: sample_history.c lsm_sample_history_push *)
Definition lsm_sample_history_push (history : option LsmSampleHistory)
    (value : double) (newer_on_right : bool) : option LsmSampleHistory :=
  match history with
  | None => None
  | Some h =>
      let '(index, count, head) := push_slot h newer_on_right in
      Some {| sh_values := <[index := if isfinite value then value else d0]> (sh_values h);
              sh_valid := <[index := isfinite value]> (sh_valid h);
              sh_count := count;
              sh_head := head |}
  end.

(** src: sample_history.c lsm_sample_history_get *)
Definition lsm_sample_history_get (history : option LsmSampleHistory)
    (logical_index : nat) : double :=
  match history with
  | None => d0
  | Some h =>
      if sh_count h <=? logical_index then d0
      else default d0 (sh_values h !! ((sh_head h + logical_index) mod LSM_HISTORY_LENGTH))
  end.

(** src: sample_history.c lsm_sample_history_is_valid *)
Definition lsm_sample_history_is_valid (history : option LsmSampleHistory)
    (logical_index : nat) : bool :=
  match history with
  | None => false
  | Some h =>
      if sh_count h <=? logical_index then false
      else default false (sh_valid h !! ((sh_head h + logical_index) mod LSM_HISTORY_LENGTH))
  end.

(** ** Invariant and abstraction *)

Record sh_wf (h : LsmSampleHistory) : Prop := {
  sh_wf_values : length (sh_values h) = LSM_HISTORY_LENGTH;
  sh_wf_valid : length (sh_valid h) = LSM_HISTORY_LENGTH;
  sh_wf_count : sh_count h <= LSM_HISTORY_LENGTH;
  sh_wf_head : sh_head h < LSM_HISTORY_LENGTH;
}.

(** The two windows a graph reads, in logical order. *)
Definition sh_value_window (h : LsmSampleHistory) : list double :=
  ring_window (sh_values h) (sh_head h) (sh_count h).
Definition sh_valid_window (h : LsmSampleHistory) : list bool :=
  ring_window (sh_valid h) (sh_head h) (sh_count h).

(** Specification of a push on a bounded list. *)
Definition push_spec {A} (newer_on_right : bool) (x : A) (window : list A) : list A :=
  if newer_on_right then
    (if length window <? LSM_HISTORY_LENGTH then window else tail window) ++ [x]
  else take LSM_HISTORY_LENGTH (x :: window).

(** One array of the ring under a push. *)
Lemma push_slot_window {A} (slots : list A) (x : A) h right index count head :
  sh_wf h → length slots = LSM_HISTORY_LENGTH →
  push_slot h right = (index, count, head) →
  count <= LSM_HISTORY_LENGTH ∧ head < LSM_HISTORY_LENGTH ∧
  ring_window (<[index := x]> slots) head count
  = push_spec right x (ring_window slots (sh_head h) (sh_count h)).
Proof.
  intros Hwf Hlen Hslot. pose proof (sh_wf_count h Hwf). pose proof (sh_wf_head h Hwf).
  unfold push_slot in Hslot. unfold push_spec.
  rewrite ring_window_length by lia.
  destruct (Nat.ltb_spec (sh_count h) LSM_HISTORY_LENGTH) as [Hc|Hc]; destruct right;
    simplify_eq.
  - split_and!; [lia..|]. rewrite <-Hlen, Nat.add_1_r. apply ring_window_snoc. lia.
  - pose proof (Nat.mod_upper_bound (sh_head h + LSM_HISTORY_LENGTH - 1) LSM_HISTORY_LENGTH
      ltac:(done)).
    split_and!; [lia..|].
    rewrite take_ge by (simpl; rewrite ring_window_length by lia; lia).
    rewrite <-Hlen, Nat.add_1_r. apply ring_window_cons. lia.
  - pose proof (Nat.mod_upper_bound (sh_head h + 1) LSM_HISTORY_LENGTH ltac:(done)).
    split_and!; [lia..|].
    replace (sh_count h) with LSM_HISTORY_LENGTH by lia.
    rewrite <-Hlen. apply ring_window_step. lia.
  - pose proof (Nat.mod_upper_bound (sh_head h + LSM_HISTORY_LENGTH - 1) LSM_HISTORY_LENGTH
      ltac:(done)).
    split_and!; [lia..|].
    replace (sh_count h) with LSM_HISTORY_LENGTH by lia.
    rewrite <-Hlen. apply ring_window_unstep. by destruct slots.
Qed.

Definition sample_of (value : double) : double * bool :=
  (if isfinite value then value else d0, isfinite value).

Lemma push_preserves_wf h value right h' :
  sh_wf h → lsm_sample_history_push (Some h) value right = Some h' → sh_wf h'.
Proof.
  intros Hwf. simpl. destruct (push_slot h right) as [[index count] head] eqn:E.
  intros [= <-].
  destruct (push_slot_window (sh_values h) d0 h right _ _ _ Hwf (sh_wf_values h Hwf) E)
    as (?&?&_).
  split; simpl; rewrite ?length_insert; try done; apply Hwf.
Qed.

Lemma init_wf h h' : lsm_sample_history_init (Some h) = Some h' → sh_wf h'.
Proof. intros [= <-]. split; simpl; rewrite ?length_replicate; unfold LSM_HISTORY_LENGTH; lia. Qed.

Lemma push_windows h value right h' :
  sh_wf h →
  lsm_sample_history_push (Some h) value right = Some h' →
  sh_wf h' ∧
  sh_value_window h' = push_spec right (sample_of value).1 (sh_value_window h) ∧
  sh_valid_window h' = push_spec right (sample_of value).2 (sh_valid_window h).
Proof.
  intros Hwf Hpush. split; [by eapply push_preserves_wf|].
  simpl in Hpush. destruct (push_slot h right) as [[index count] head] eqn:E.
  injection Hpush as <-. unfold sh_value_window, sh_valid_window. simpl.
  split; eapply push_slot_window; eauto; apply Hwf.
Qed.

(** Refinement: on every well-formed ring, in either graph direction,
    a push is a push on the plain bounded list, for values and for validity, and
    the ring stays well formed. *)
Theorem push_refines_window h value right h' :
  sh_wf h →
  lsm_sample_history_push (Some h) value right = Some h' →
  sh_wf h' ∧
  sh_value_window h' = push_spec right (sample_of value).1 (sh_value_window h) ∧
  sh_valid_window h' = push_spec right (sample_of value).2 (sh_valid_window h).
Proof. apply push_windows. Qed.

(** Reads are reads of the window, with the documented defaults outside it. *)
Theorem get_reads_window h i :
  sh_wf h →
  lsm_sample_history_get (Some h) i = default d0 (sh_value_window h !! i) ∧
  lsm_sample_history_is_valid (Some h) i = default false (sh_valid_window h !! i).
Proof.
  intros Hwf. pose proof (sh_wf_count h Hwf). simpl.
  unfold sh_value_window, sh_valid_window.
  destruct (Nat.leb_spec (sh_count h) i) as [Hi|Hi].
  - rewrite !lookup_ge_None_2; [done|..]; rewrite ring_window_length; try lia;
      rewrite ?(sh_wf_values h Hwf), ?(sh_wf_valid h Hwf); lia.
  - rewrite !ring_window_lookup; try lia;
      rewrite ?(sh_wf_values h Hwf), ?(sh_wf_valid h Hwf); try lia. done.
Qed.

(** A sequence of samples pushed in the default graph direction. *)
Definition push_all (h : LsmSampleHistory) (values : list double) : option LsmSampleHistory :=
  foldl (λ s v, lsm_sample_history_push s v true) (Some h) values.

Lemma push_spec_right_full {A} (x : A) w :
  length w = LSM_HISTORY_LENGTH → push_spec true x w = drop 1 (w ++ [x]).
Proof.
  intros Hw. unfold push_spec. rewrite Hw, Nat.ltb_irrefl.
  destruct w as [|y w]; [done|]. simpl. by rewrite drop_0.
Qed.

Lemma push_all_window h values h' :
  sh_wf h → sh_count h = LSM_HISTORY_LENGTH → push_all h values = Some h' →
  sh_wf h' ∧
  sh_value_window h' =
    drop (length values) (sh_value_window h ++ (fst ∘ sample_of <$> values)) ∧
  sh_valid_window h' =
    drop (length values) (sh_valid_window h ++ (snd ∘ sample_of <$> values)).
Proof.
  revert h. induction values as [|v values IH]; intros h Hwf Hfull Hall.
  - injection Hall as <-. simpl. rewrite !app_nil_r, !drop_0. done.
  - unfold push_all in Hall. cbn [foldl] in Hall.
    destruct (lsm_sample_history_push (Some h) v true) as [h1|] eqn:Hp.
    2: { simpl in Hp. by destruct (push_slot h true) as [[??]?]. }
    destruct (push_windows h v true h1 Hwf Hp) as (Hwf1&Hv&Hb).
    assert (sh_count h1 = LSM_HISTORY_LENGTH) as Hfull1.
    { simpl in Hp. unfold push_slot in Hp. rewrite Hfull, Nat.ltb_irrefl in Hp.
      by injection Hp as <-. }
    destruct (IH h1 Hwf1 Hfull1 Hall) as (?&Hv'&Hb').
    split; [done|].
    assert (length (sh_value_window h) = LSM_HISTORY_LENGTH
            ∧ length (sh_valid_window h) = LSM_HISTORY_LENGTH) as [Hl1 Hl2].
    { unfold sh_value_window, sh_valid_window.
      rewrite !ring_window_length; rewrite ?(sh_wf_values h Hwf), ?(sh_wf_valid h Hwf); lia. }
    rewrite push_spec_right_full in Hv by done.
    rewrite push_spec_right_full in Hb by done.
    rewrite Hv', Hb', Hv, Hb. cbn [fmap list_fmap length].
    split; rewrite <-drop_app_le by (rewrite length_app; simpl; lia);
      rewrite drop_drop, <-app_assoc; f_equal; simpl; lia.
Qed.

(** A graph that was initialised and then sampled shows exactly the
    last 600 entries of "600 unavailable slots followed by the samples": no slot
    is invented, none is lost early, order is preserved. *)
Theorem initialised_graph_shows_samples h h0 values h' :
  lsm_sample_history_init (Some h) = Some h0 →
  push_all h0 values = Some h' →
  sh_value_window h' =
    drop (length values) (replicate LSM_HISTORY_LENGTH d0 ++ (fst ∘ sample_of <$> values)) ∧
  sh_valid_window h' =
    drop (length values) (replicate LSM_HISTORY_LENGTH false ++ (snd ∘ sample_of <$> values)).
Proof.
  intros Hinit Hall. pose proof (init_wf h h0 Hinit) as Hwf0.
  injection Hinit as <-.
  destruct (push_all_window _ values h' Hwf0 eq_refl Hall) as (_&Hv&Hb).
  rewrite Hv, Hb.
  by replace (sh_value_window _) with (replicate LSM_HISTORY_LENGTH d0) by (vm_compute; done);
     replace (sh_valid_window _) with (replicate LSM_HISTORY_LENGTH false) by (vm_compute; done).
Qed.

(** ** Witnesses *)

Definition blank_history : LsmSampleHistory :=
  {| sh_values := replicate LSM_HISTORY_LENGTH d0;
     sh_valid := replicate LSM_HISTORY_LENGTH false;
     sh_count := LSM_HISTORY_LENGTH; sh_head := 599 |}.

Lemma blank_history_wf : sh_wf blank_history.
Proof. split; vm_compute; lia. Qed.

Lemma push_refines_window_witness :
  ∃ h', lsm_sample_history_push (Some blank_history) d1 true = Some h' ∧
        sh_value_window h' = push_spec true d1 (sh_value_window blank_history).
Proof.
  eexists. split; [reflexivity|].
  refine (proj1 (proj2 (push_refines_window blank_history d1 true _ blank_history_wf eq_refl))).
Defined.

Lemma get_reads_window_witness :
  lsm_sample_history_get (Some blank_history) 3
  = default d0 (sh_value_window blank_history !! 3).
Proof. exact (proj1 (get_reads_window blank_history 3 blank_history_wf)). Defined.

Lemma initialised_graph_shows_samples_witness :
  ∃ h0 h', lsm_sample_history_init (Some blank_history) = Some h0 ∧
    push_all h0 [d1; NAN] = Some h' ∧
    sh_valid_window h' =
      drop 2 (replicate LSM_HISTORY_LENGTH false ++ [true; false]).
Proof.
  eexists. eexists. split; [reflexivity|]. split; [reflexivity|].
  refine (proj2 (initialised_graph_shows_samples blank_history _ [d1; NAN] _ eq_refl eq_refl)).
Defined.
