(* ===== verification/SortedVector.v ===== *)
(** * SortedVector: binary search over a vector sorted by process identifier

    The process backend keeps its baselines and its parent snapshots in arrays
    sorted by PID and searches them with the same lower-bound loop
    ([find_or_create_sample] and [find_pid_parent] of
    [src/src/process_backend_linux.c]). *)
From S2P Require Import Prelude.
From Stdlib Require Sorted.
Local Open Scope Z_scope.

Section lower_bound.
Context {A : Type} (key : A → Z).

(** [while (low < high)] over the half-open range; the halving makes the width
    of the range enough fuel. *)
(** src: process_backend_linux.c:1560-1568 find_pid_parent *)
Fixpoint lower_bound_loop (fuel : nat) (v : list A) (pid : Z) (low high : nat) : nat :=
  match fuel with
  | O => low
  | S fuel =>
      if (low <? high)%nat then
        let middle := (low + (high - low) / 2)%nat in
        match v !! middle with
        | Some candidate =>
            if key candidate <? pid then lower_bound_loop fuel v pid (middle + 1) high
            else lower_bound_loop fuel v pid low middle
        | None => low
        end
      else low
  end.
Definition lower_bound (v : list A) (count : nat) (pid : Z) : nat :=
  lower_bound_loop count v pid 0 count.

(** The index of the element of the searchable prefix with that identifier. *)
Definition search (v : list A) (count : nat) (pid : Z) : option nat :=
  let low := lower_bound v count pid in
  if (low <? count)%nat then
    match v !! low with
    | Some candidate => if key candidate =? pid then Some low else None
    | None => None
    end
  else None.

(** The first [count] elements have increasing keys. *)
Definition sorted_prefix (v : list A) (count : nat) : Prop :=
  (count ≤ length v)%nat
  ∧ ∀ i j x y, (i < j < count)%nat → v !! i = Some x → v !! j = Some y → key x < key y.

Lemma lower_bound_loop_spec v n pid fuel low high :
  sorted_prefix v n → (high ≤ n)%nat → (high - low ≤ fuel)%nat → (low ≤ high)%nat →
  (∀ i x, (i < low)%nat → v !! i = Some x → key x < pid) →
  (∀ i x, (high ≤ i < n)%nat → v !! i = Some x → pid <= key x) →
  let r := lower_bound_loop fuel v pid low high in
  (r ≤ n)%nat ∧ (∀ i x, (i < r)%nat → v !! i = Some x → key x < pid)
  ∧ (∀ i x, (r ≤ i < n)%nat → v !! i = Some x → pid <= key x).
Proof.
  intros [Hn Hs]. revert low high.
  induction fuel as [|fuel IH]; intros low high Hh Hf Hlh Hlo Hhi; cbn [lower_bound_loop].
  { assert (low = high) as -> by lia. auto. }
  destruct (Nat.ltb_spec low high) as [Hlt|Hge].
  2:{ assert (low = high) as -> by lia. auto. }
  set (middle := (low + (high - low) / 2)%nat).
  assert (Hm : (low ≤ middle < high)%nat).
  { unfold middle. pose proof (Nat.div_lt (high - low) 2 ltac:(lia) ltac:(lia)). lia. }
  destruct (lookup_lt_is_Some_2 v middle ltac:(lia)) as [c Hc]. rewrite Hc.
  destruct (Z.ltb_spec (key c) pid) as [Hk|Hk]; apply IH; try lia; auto.
  - intros i x Hi Hx. destruct (decide (i = middle)) as [->|Hne]; [congruence|].
    enough (key x < key c) by lia. apply (Hs i middle); [lia|done|done].
  - intros i x Hi Hx. destruct (decide (i = middle)) as [->|Hne]; [congruence|].
    enough (key c < key x) by lia. apply (Hs middle i); [lia|done|done].
Qed.

Lemma lower_bound_spec v n pid :
  sorted_prefix v n →
  (lower_bound v n pid ≤ n)%nat
  ∧ (∀ i x, (i < lower_bound v n pid)%nat → v !! i = Some x → key x < pid)
  ∧ (∀ i x, (lower_bound v n pid ≤ i < n)%nat → v !! i = Some x → pid <= key x).
Proof.
  intros Hs. apply lower_bound_loop_spec; try done; try lia; intros; lia.
Qed.

(** The search finds what is there. *)
Lemma search_spec v n pid :
  sorted_prefix v n →
  ∀ i, search v n pid = Some i ↔ (i < n)%nat ∧ ∃ x, v !! i = Some x ∧ key x = pid.
Proof.
  intros Hs i. destruct (lower_bound_spec v n pid Hs) as (Hle & Hlo & Hhi). unfold search.
  set (low := lower_bound v n pid) in *. destruct Hs as [Hn Hs]. split.
  - destruct (Nat.ltb_spec low n) as [Hlt|]; [|done].
    destruct (v !! low) as [c|] eqn:Hc; [|done].
    destruct (Z.eqb_spec (key c) pid) as [Hk|]; [|done]. intros [= <-]. eauto.
  - intros (Hi & x & Hx & Hk).
    assert (low ≤ i)%nat.
    { destruct (decide (i < low)%nat) as [Hlt|]; [|lia]. specialize (Hlo i x Hlt Hx). lia. }
    destruct (Nat.ltb_spec low n) as [Hlt|]; [|lia].
    destruct (lookup_lt_is_Some_2 v low ltac:(lia)) as [c Hc]. rewrite Hc.
    pose proof (Hhi low c ltac:(lia) Hc) as Hpc.
    destruct (decide (low = i)) as [->|Hne].
    + assert (c = x) as -> by congruence. by rewrite (proj2 (Z.eqb_eq _ _) Hk).
    + exfalso. pose proof (Hs low i c x ltac:(lia) Hc Hx). lia.
Qed.

Lemma search_none v n pid :
  sorted_prefix v n → search v n pid = None →
  ∀ i x, (i < n)%nat → v !! i = Some x → key x ≠ pid.
Proof.
  intros Hs Hn i x Hi Hx Hk. assert (search v n pid = Some i) by (apply search_spec; eauto). congruence.
Qed.
End lower_bound.

Lemma strongly_sorted_lookup {A} (R : A → A → Prop) (l : list A) i j x y :
  Sorted.StronglySorted R l → (i < j)%nat → l !! i = Some x → l !! j = Some y → R x y.
Proof.
  intros Hs. revert i j. induction Hs as [|a l Hs IH Hall]; intros i j Hij Hi Hj; [done|].
  destruct j as [|j]; [lia|]. destruct i as [|i]; cbn in Hi, Hj.
  - injection Hi as ->. rewrite List.Forall_forall in Hall. apply Hall.
    apply list_elem_of_In. by eapply list_elem_of_lookup_2.
  - eapply (IH i j); [lia|done|done].
Qed.
