(* ===== verification/PciNames.v ===== *)
(** * PciNames: names of PCI devices

    Models [src/src/pci_names.c] and the look-up functions at the end of
    [src/src/pci_names_data.c].  The generated tables are arguments: the vendor
    and device records, sorted by key, and the chunks of names they refer to.
    The developer's override file is an argument too: its text and the outcomes
    of reading and closing it.

    The theorems show that a look-up through the 64-entry cache, whatever was
    looked up before and evicted since, reports what a declarative search of
    the registry reports for that pair of identifiers. *)
From S2P Require Import Prelude CStrings Common SortedVector.
Local Open Scope Z_scope.

(** ** The generated tables *)

(** src: pci_names_data.c:19-22 LsmPciVendorRecord *)
Record LsmPciVendorRecord := { vr_id : Z; vr_name_ref : Z }.

(** src: pci_names_data.c:24-27 LsmPciDeviceRecord *)
Record LsmPciDeviceRecord := { dr_key : Z; dr_name_ref : Z }.

(** A chunk is an array of characters: names ended by NUL characters. *)
Record PciTables := {
  pt_vendors : list LsmPciVendorRecord;
  pt_devices : list LsmPciDeviceRecord;
  pt_chunks : list string;
}.

(** The C string that starts at an offset of a chunk; [None] outside of it. *)
Definition text_at (chunk : string) (offset : nat) : option string :=
  if (offset <? String.length chunk)%nat
  then Some (span (is_char "000") (String.substring offset (String.length chunk - offset) chunk)).1
  else None.

(** src: pci_names_data.c name_at *)
Definition name_at (tables : PciTables) (reference : Z) : option string :=
  let chunk := Z.to_nat (Z.shiftr reference 16) in
  let offset := Z.to_nat (Z.land reference 65535) in
  pt_chunks tables !! chunk ≫= λ text, text_at text offset.

(** src: pci_names_data.c lsm_pci_data_vendor_name *)
Definition lsm_pci_data_vendor_name (tables : PciTables) (vendor_id : Z) : option string :=
  let records := pt_vendors tables in
  let low := lower_bound vr_id records (length records) vendor_id in
  match records !! low with
  | Some record => if negb (vr_id record =? vendor_id) then None else name_at tables (vr_name_ref record)
  | None => None
  end.

(** src: pci_names_data.c lsm_pci_data_device_name *)
Definition lsm_pci_data_device_name (tables : PciTables) (vendor_id device_id : Z) : option string :=
  let key := Z.lor (Z.shiftl vendor_id 16) device_id in
  let records := pt_devices tables in
  let low := lower_bound dr_key records (length records) key in
  match records !! low with
  | Some record => if negb (dr_key record =? key) then None else name_at tables (dr_name_ref record)
  | None => None
  end.

(** ** The cache *)

(** src: pci_names.c:32-38 LsmPciCacheEntry *)
Record LsmPciCacheEntry := {
  pe_vendor_id : string;
  pe_device_id : string;
  pe_vendor : string;
  pe_product : string;
  pe_found : bool;
}.
#[export] Instance eta_LsmPciCacheEntry : Eta LsmPciCacheEntry := λ x,
  Build_LsmPciCacheEntry (pe_vendor_id x) (pe_device_id x) (pe_vendor x) (pe_product x) (pe_found x).

(** src: pci_names.c:30-30 LSM_PCI_CACHE_SIZE *)
Definition LSM_PCI_CACHE_SIZE : nat := 64.
(** src: pci_names.c:29-29 LSM_PCI_NAME_LEN *)
Definition LSM_PCI_NAME_LEN : nat := 256.

(** The override file when [LSM_PCI_DB_PATH] names one that opens: its text,
    [ferror(database) == 0], [fclose(database) == 0]. *)
Record Override := { ov_text : string; ov_read_ok : bool; ov_close_ok : bool }.

Section pci_names.
Context `{TextOps, NumberOps, AsciiOps}.

(** Four hexadecimal digits in upper case, and what follows them. *)
(** src: pci_names.c:48-51 normalise_id *)
Fixpoint take_digits (count : nat) (input : string) : option (string * string) :=
  match count, input with
  | O, _ => Some (EmptyString, input)
  | S count, String c rest =>
      if lsm_ascii_is_xdigit c then
        match take_digits count rest with
        | Some (output, rest) => Some (String (lsm_ascii_to_upper c) output, rest)
        | None => None
        end
      else None
  | S _, EmptyString => None
  end.

(** src: pci_names.c normalise_id *)
Definition normalise_id (input : option string) : option (string * Z) :=
  match input with
  | None => None
  | Some input =>
      let input := skip lsm_ascii_is_space input in
      let input := match input with
                   | String "0" (String c rest) =>
                       if Ascii.eqb c "x" || Ascii.eqb c "X" then rest else input
                   | _ => input
                   end in
      match take_digits 4 input with
      | None => None
      | Some (output, rest) =>
          if nonempty (skip lsm_ascii_is_space rest) then None else
          let '(ok, parsed) := infiltratr_parse_u64 output 16 0 in
          if negb ok || (uint16_max <? parsed) then None else Some (output, parsed)
      end
  end.

(** src: pci_names.c find_cached *)
Definition find_cached (cache : list LsmPciCacheEntry) (vendor_id device_id : string)
    : option LsmPciCacheEntry :=
  List.find (λ entry, strcmp_eq (pe_vendor_id entry) vendor_id && strcmp_eq (pe_device_id entry) device_id)
    cache.

(** The cache without the slot that is reused, and the cleared entry that goes
    to its end. *)
(** src: pci_names.c new_cache_entry *)
Definition new_cache_entry (cache : list LsmPciCacheEntry) (vendor_id device_id : string)
    : list LsmPciCacheEntry * LsmPciCacheEntry :=
  (if (length cache <? LSM_PCI_CACHE_SIZE)%nat then cache else tail cache,
   {| pe_vendor_id := lsm_copy_string 5 vendor_id; pe_device_id := lsm_copy_string 5 device_id;
      pe_vendor := EmptyString; pe_product := EmptyString; pe_found := false |}).

Definition is_tab : ascii → bool := is_char tab.

(** An empty destination takes a nonempty name. *)
Definition set_name (destination name : string) : string :=
  if nonempty name && negb (nonempty destination) then lsm_copy_string LSM_PCI_NAME_LEN name
  else destination.

(** The names a line of the registry contributes. *)
(** src: pci_names.c:110-131 search_database_file *)
Definition database_line (vendor_id expected_key line : string) (entry : LsmPciCacheEntry) : LsmPciCacheEntry :=
  let line := lsm_trim_line_end line in
  if negb (nonempty line) || char_is line 0 "#" then entry else
  match strtok_step is_tab line with
  | None => entry
  | Some (kind, save) =>
      match strtok_step is_tab save with
      | None => entry
      | Some (key, save) =>
          if strcmp_eq kind "V" && lsm_ascii_equal_ci key vendor_id
          then entry <| pe_vendor := set_name (pe_vendor entry) save |>
          else if strcmp_eq kind "D" && lsm_ascii_equal_ci key expected_key
          then let '(vendor, product) := default (EmptyString, EmptyString) (strtok_step is_tab save) in
               entry <| pe_vendor := set_name (pe_vendor entry) vendor |>
                     <| pe_product := set_name (pe_product entry) product |>
          else entry
      end
  end.

(** The loop over the lines; it stops once both names are known. *)
(** src: pci_names.c:109-133 search_database_file *)
Fixpoint database_lines (vendor_id expected_key : string) (lines : list string) (entry : LsmPciCacheEntry)
    : LsmPciCacheEntry :=
  match lines with
  | [] => entry
  | line :: lines =>
      let entry := database_line vendor_id expected_key line entry in
      if nonempty (pe_vendor entry) && nonempty (pe_product entry) then entry
      else database_lines vendor_id expected_key lines entry
  end.

(** src: pci_names.c search_database_file *)
Definition search_database_file (database : Override) (vendor_id device_id : string) (entry : LsmPciCacheEntry)
    : bool * LsmPciCacheEntry :=
  let expected_key := snprintf 10 (vendor_id +:+ ":" +:+ device_id) in
  (ov_read_ok database, database_lines vendor_id expected_key (fgets_all 1024 (ov_text database)) entry).

(** src: pci_names.c populate_entry *)
Definition populate_entry (tables : PciTables) (override : option Override) (entry : LsmPciCacheEntry)
    (vendor_id device_id : Z) : LsmPciCacheEntry :=
  let entry :=
    match override with
    | None => entry
    | Some database =>
        let '(complete, candidate) :=
          search_database_file database (pe_vendor_id entry) (pe_device_id entry) entry in
        if complete && ov_close_ok database
        then entry <| pe_vendor := lsm_copy_string LSM_PCI_NAME_LEN (pe_vendor candidate) |>
                   <| pe_product := lsm_copy_string LSM_PCI_NAME_LEN (pe_product candidate) |>
        else entry
    end in
  let entry := if nonempty (pe_vendor entry) then entry else
               match lsm_pci_data_vendor_name tables vendor_id with
               | Some vendor => entry <| pe_vendor := lsm_copy_string LSM_PCI_NAME_LEN vendor |>
               | None => entry
               end in
  let entry := if nonempty (pe_product entry) then entry else
               match lsm_pci_data_device_name tables vendor_id device_id with
               | Some product => entry <| pe_product := lsm_copy_string LSM_PCI_NAME_LEN product |>
               | None => entry
               end in
  entry <| pe_found := nonempty (pe_vendor entry) || nonempty (pe_product entry) |>.

(** The result, the two texts written, and the cache afterwards. *)
(** src: pci_names.c lsm_pci_names_lookup *)
Definition lsm_pci_names_lookup (tables : PciTables) (override : option Override)
    (cache : list LsmPciCacheEntry) (vendor_id device_id : option string) (vendor_size product_size : nat)
    : bool * string * string * list LsmPciCacheEntry :=
  match normalise_id vendor_id, normalise_id device_id with
  | Some (normal_vendor, numeric_vendor), Some (normal_device, numeric_device) =>
      let '(entry, cache) :=
        match find_cached cache normal_vendor normal_device with
        | Some entry => (entry, cache)
        | None =>
            let '(kept, entry) := new_cache_entry cache normal_vendor normal_device in
            let entry := populate_entry tables override entry numeric_vendor numeric_device in
            (entry, kept ++ [entry])
        end in
      (pe_found entry, lsm_copy_string vendor_size (pe_vendor entry),
       lsm_copy_string product_size (pe_product entry), cache)
  | _, _ => (false, EmptyString, EmptyString, cache)
  end.
End pci_names.

(** ** Reference: the registry as a relation *)

Section pci_reference.
Context `{TextOps, NumberOps, AsciiOps}.

(** The kind, the key and the remaining columns of a registry line. *)
Definition line_columns (line : string) : option (string * string * string) :=
  let line := lsm_trim_line_end line in
  if negb (nonempty line) || char_is line 0 "#" then None else
  strtok_step is_tab line ≫= λ '(kind, save),
  strtok_step is_tab save ≫= λ '(key, save), Some (kind, key, save).

(** The vendor name and the product name of a line for a pair of identifiers. *)
Definition line_names (vendor_id expected_key line : string) : string * string :=
  match line_columns line with
  | None => (EmptyString, EmptyString)
  | Some (kind, key, save) =>
      if strcmp_eq kind "V" && lsm_ascii_equal_ci key vendor_id then (save, EmptyString)
      else if strcmp_eq kind "D" && lsm_ascii_equal_ci key expected_key
      then default (EmptyString, EmptyString) (strtok_step is_tab save)
      else (EmptyString, EmptyString)
  end.

(** The first name of a list that is not empty, as it is stored. *)
Definition first_name (names : list string) : string :=
  default EmptyString (List.find nonempty (lsm_copy_string LSM_PCI_NAME_LEN <$> List.filter nonempty names)).

Definition file_names (override : option Override) (vendor_id device_id : string) : string * string :=
  match override with
  | Some database =>
      if ov_read_ok database && ov_close_ok database then
        let names := line_names vendor_id (snprintf 10 (vendor_id +:+ ":" +:+ device_id))
                       <$> fgets_all 1024 (ov_text database) in
        (first_name (fst <$> names), first_name (snd <$> names))
      else (EmptyString, EmptyString)
  | None => (EmptyString, EmptyString)
  end.

(** The name of the record with a key. *)
Definition table_name {A} (key name_ref : A → Z) (tables : PciTables) (records : list A) (k : Z) : string :=
  default EmptyString
    (lsm_copy_string LSM_PCI_NAME_LEN <$>
       (List.find (λ record, key record =? k) records ≫= λ record, name_at tables (name_ref record))).

Definition or_else (name fallback : string) : string := if nonempty name then name else fallback.

Definition numeric (text : string) : Z := (infiltratr_parse_u64 text 16 0).2.

(** What the registry says about a pair of identifiers. *)
Definition registry_names (tables : PciTables) (override : option Override) (vendor_id device_id : string)
    : string * string :=
  let '(vendor, product) := file_names override vendor_id device_id in
  (or_else vendor (table_name vr_id vr_name_ref tables (pt_vendors tables) (numeric vendor_id)),
   or_else product (table_name dr_key dr_name_ref tables (pt_devices tables)
                      (Z.lor (Z.shiftl (numeric vendor_id) 16) (numeric device_id)))).

(** An uncached look-up. *)
Definition registry_lookup (tables : PciTables) (override : option Override) (vendor_id device_id : option string)
    (vendor_size product_size : nat) : bool * string * string :=
  match normalise_id vendor_id, normalise_id device_id with
  | Some (vendor_id, _), Some (device_id, _) =>
      let '(vendor, product) := registry_names tables override vendor_id device_id in
      (nonempty vendor || nonempty product, lsm_copy_string vendor_size vendor,
       lsm_copy_string product_size product)
  | _, _ => (false, EmptyString, EmptyString)
  end.

(** The generated tables are sorted by key, without repetitions, and refer to
    names inside their chunks. *)
Record tables_ok (tables : PciTables) : Prop := {
  vendors_sorted : sorted_prefix vr_id (pt_vendors tables) (length (pt_vendors tables));
  devices_sorted : sorted_prefix dr_key (pt_devices tables) (length (pt_devices tables));
  references_inside : ∀ reference,
    reference ∈ (vr_name_ref <$> pt_vendors tables) ++ (dr_name_ref <$> pt_devices tables) →
    is_Some (name_at tables reference);
}.

(** ** The table search *)

Lemma find_sorted {A} (key : A → Z) (records : list A) k :
  sorted_prefix key records (length records) →
  List.find (λ record, key record =? k) records =
  match records !! lower_bound key records (length records) k with
  | Some record => if negb (key record =? k) then None else Some record
  | None => None
  end.
Proof.
  intros Hs. destruct (lower_bound_spec key records (length records) k Hs) as (_ & Hlo & Hhi).
  set (low := lower_bound key records (length records) k) in *.
  destruct (List.find (λ record, key record =? k) records) as [found|] eqn:Hf.
  - pose proof Hf as Hf'. apply List.find_some in Hf as [Hin Hk%Z.eqb_eq].
    apply list_elem_of_In, list_elem_of_lookup in Hin as [i Hi].
    assert (Hi2 : (low ≤ i)%nat).
    { destruct (decide (i < low)%nat) as [Hlt|]; [|lia]. specialize (Hlo i found Hlt Hi). lia. }
    pose proof (lookup_lt_Some _ _ _ Hi) as Hlen.
    destruct (lookup_lt_is_Some_2 records low ltac:(lia)) as [c Hc]. rewrite Hc.
    pose proof (Hhi low c ltac:(lia) Hc) as Hkc.
    destruct (decide (low = i)) as [Heq|Hne].
    + assert (c = found) as -> by congruence. by rewrite (proj2 (Z.eqb_eq _ _) Hk).
    + destruct Hs as [_ Hs]. pose proof (Hs low i c found ltac:(lia) Hc Hi). lia.
  - destruct (records !! low) as [c|] eqn:Hc; [|done].
    destruct (key c =? k) eqn:Hk; [|done].
    pose proof (List.find_none _ _ Hf c) as Hn. cbv beta in Hn. rewrite Hn in Hk; [done|].
    apply list_elem_of_In. by eapply list_elem_of_lookup_2.
Qed.

Lemma vendor_name_spec tables vendor_id : tables_ok tables →
  default EmptyString (lsm_copy_string LSM_PCI_NAME_LEN <$> lsm_pci_data_vendor_name tables vendor_id) =
  table_name vr_id vr_name_ref tables (pt_vendors tables) vendor_id.
Proof.
  intros Hok. unfold table_name, lsm_pci_data_vendor_name. rewrite find_sorted by apply Hok.
  destruct (_ !! _) as [record|]; [|done]. by destruct (negb _).
Qed.

Lemma device_name_spec tables vendor_id device_id : tables_ok tables →
  default EmptyString (lsm_copy_string LSM_PCI_NAME_LEN <$> lsm_pci_data_device_name tables vendor_id device_id) =
  table_name dr_key dr_name_ref tables (pt_devices tables) (Z.lor (Z.shiftl vendor_id 16) device_id).
Proof.
  intros Hok. unfold table_name, lsm_pci_data_device_name. rewrite find_sorted by apply Hok.
  destruct (_ !! _) as [record|]; [|done]. by destruct (negb _).
Qed.

(** ** The file search *)

Lemma database_line_names vendor_id expected_key line entry :
  database_line vendor_id expected_key line entry =
  entry <| pe_vendor := set_name (pe_vendor entry) (line_names vendor_id expected_key line).1 |>
        <| pe_product := set_name (pe_product entry) (line_names vendor_id expected_key line).2 |>.
Proof.
  unfold database_line, line_names, line_columns. destruct entry; simpl.
  destruct (_ || _); [done|]. destruct (strtok_step is_tab (lsm_trim_line_end line)) as [[kind save]|]; [|done].
  simpl. destruct (strtok_step is_tab save) as [[key rest]|]; [|done]. simpl.
  destruct (strcmp_eq kind "V" && _); [done|]. destruct (strcmp_eq kind "D" && _); [|done].
  by destruct (strtok_step is_tab rest) as [[vendor product]|].
Qed.

Lemma set_name_set destination name : nonempty destination = true → set_name destination name = destination.
Proof. intros Hd. unfold set_name. rewrite Hd. by rewrite andb_false_r. Qed.

(** Filling a name from a list of candidates. *)
Lemma set_names names destination :
  foldl set_name destination names = or_else destination (first_name names).
Proof.
  revert destination. induction names as [|name names IH]; intros destination; simpl.
  { unfold or_else, first_name. simpl. by destruct destination. }
  rewrite IH. unfold or_else, first_name. destruct (nonempty destination) eqn:Hd.
  { by rewrite set_name_set, Hd. }
  unfold set_name. rewrite Hd. simpl. destruct (nonempty name) eqn:Hn; simpl; [|by rewrite Hd].
  destruct (nonempty (lsm_copy_string _ name)) eqn:Hc; [done|]. by destruct (lsm_copy_string _ name).
Qed.

(** Stopping early loses nothing: both names keep what they have. *)
Lemma database_lines_names vendor_id expected_key lines entry :
  let names := line_names vendor_id expected_key <$> lines in
  database_lines vendor_id expected_key lines entry =
  entry <| pe_vendor := foldl set_name (pe_vendor entry) (fst <$> names) |>
        <| pe_product := foldl set_name (pe_product entry) (snd <$> names) |>.
Proof.
  revert entry. induction lines as [|line lines IH]; intros entry; simpl; [by destruct entry|].
  rewrite database_line_names. set (next := entry <| pe_vendor := _ |> <| pe_product := _ |>).
  destruct (nonempty (pe_vendor next) && nonempty (pe_product next)) eqn:Hfull; [|rewrite IH; by destruct entry].
  apply andb_true_iff in Hfull as [Hv Hp]. unfold next in *. destruct entry; simpl in *.
  f_equal; rewrite set_names; unfold or_else; [by rewrite Hv|by rewrite Hp].
Qed.
End pci_reference.

(** ** The cache *)

Section pci_cache.
Context `{TextOps, NumberOps, AsciiOps, !TextLaws}.

Lemma take_digits_length count input output rest :
  take_digits count input = Some (output, rest) → String.length output = count.
Proof.
  revert input output rest. induction count as [|count IH]; intros input output rest; [by intros [= <- _]|].
  destruct input as [|c input]; [done|]. simpl. destruct (lsm_ascii_is_xdigit c); [|done].
  destruct (take_digits count input) as [[text after]|] eqn:E; [|done]. intros [= <- <-].
  simpl. by rewrite (IH _ _ _ E).
Qed.

Lemma normalise_id_spec input text value : normalise_id input = Some (text, value) →
  String.length text = 4%nat ∧ value = numeric text.
Proof.
  destruct input as [input|]; [|done]. unfold normalise_id.
  destruct (take_digits 4 _) as [[output rest]|] eqn:Et; [|done].
  destruct (nonempty _); [done|].
  destruct (infiltratr_parse_u64 output 16 0) as [ok parsed] eqn:Ep.
  destruct (_ || _); [done|]. intros [= <- <-]. split; [by eapply take_digits_length|].
  unfold numeric. by rewrite Ep.
Qed.

Lemma copy_copy size text : (0 < size)%nat →
  lsm_copy_string size (lsm_copy_string size text) = lsm_copy_string size text.
Proof. intros Hs. apply copy_string_fits. by apply copy_string_bound. Qed.

Lemma copy_empty size : (0 < size)%nat → lsm_copy_string size EmptyString = EmptyString.
Proof. intros Hs. by apply copy_string_fits. Qed.

Lemma first_name_copied names : lsm_copy_string LSM_PCI_NAME_LEN (first_name names) = first_name names.
Proof.
  unfold first_name. destruct (List.find _ _) as [name|] eqn:Hf; simpl; [|apply copy_empty; unfold LSM_PCI_NAME_LEN; lia].
  apply List.find_some in Hf as [Hin _]. apply list_elem_of_In, list_elem_of_fmap in Hin as (name' & -> & _).
  apply copy_copy. unfold LSM_PCI_NAME_LEN. lia.
Qed.

(** A name that is empty is filled from the table. *)
Lemma fallback_name vendor name :
  (if nonempty vendor then vendor
   else match name with Some name => lsm_copy_string LSM_PCI_NAME_LEN name | None => vendor end) =
  or_else vendor (default EmptyString (lsm_copy_string LSM_PCI_NAME_LEN <$> name)).
Proof. unfold or_else. destruct vendor; [|done]. by destruct name. Qed.

Lemma override_entry override vendor_id device_id :
  let entry := Build_LsmPciCacheEntry vendor_id device_id EmptyString EmptyString false in
  match override with
  | None => entry
  | Some database =>
      let '(complete, candidate) :=
        search_database_file database (pe_vendor_id entry) (pe_device_id entry) entry in
      if complete && ov_close_ok database
      then entry <| pe_vendor := lsm_copy_string LSM_PCI_NAME_LEN (pe_vendor candidate) |>
                 <| pe_product := lsm_copy_string LSM_PCI_NAME_LEN (pe_product candidate) |>
      else entry
  end = entry <| pe_vendor := (file_names override vendor_id device_id).1 |>
              <| pe_product := (file_names override vendor_id device_id).2 |>.
Proof.
  intros entry. destruct override as [database|]; [|done]. unfold search_database_file.
  rewrite database_lines_names. simpl. rewrite !set_names. unfold or_else; simpl.
  rewrite !first_name_copied. by destruct (ov_read_ok database && ov_close_ok database).
Qed.

Lemma populate_entry_spec tables override vendor_id device_id : tables_ok tables →
  let names := registry_names tables override vendor_id device_id in
  populate_entry tables override (Build_LsmPciCacheEntry vendor_id device_id EmptyString EmptyString false)
    (numeric vendor_id) (numeric device_id) =
  Build_LsmPciCacheEntry vendor_id device_id names.1 names.2 (nonempty names.1 || nonempty names.2).
Proof.
  intros Hok names. unfold populate_entry. rewrite override_entry.
  unfold names, registry_names. destruct (file_names override vendor_id device_id) as [vendor product].
  rewrite <- (vendor_name_spec tables (numeric vendor_id) Hok).
  rewrite <- (device_name_spec tables (numeric vendor_id) (numeric device_id) Hok). unfold or_else. simpl.
  destruct (nonempty vendor) eqn:Hv; [|destruct vendor; [|done]; destruct (lsm_pci_data_vendor_name _ _)]; simpl;
    (destruct (nonempty product) eqn:Hp; [|destruct product; [|done]; destruct (lsm_pci_data_device_name _ _ _)]);
    simpl; rewrite ?Hv, ?Hp; done.
Qed.

(** Every entry is what the registry says about its identifiers, and the cache
    is bounded. *)
Definition entry_ok (tables : PciTables) (override : option Override) (entry : LsmPciCacheEntry) : Prop :=
  let names := registry_names tables override (pe_vendor_id entry) (pe_device_id entry) in
  pe_vendor entry = names.1 ∧ pe_product entry = names.2 ∧ pe_found entry = nonempty names.1 || nonempty names.2.

Record cache_ok (tables : PciTables) (override : option Override) (cache : list LsmPciCacheEntry) : Prop := {
  entries_ok : Forall (entry_ok tables override) cache;
  cache_bounded : (length cache ≤ LSM_PCI_CACHE_SIZE)%nat;
  cache_distinct : NoDup ((λ entry, (pe_vendor_id entry, pe_device_id entry)) <$> cache);
}.

Lemma find_cached_some cache vendor_id device_id entry :
  find_cached cache vendor_id device_id = Some entry →
  entry ∈ cache ∧ pe_vendor_id entry = vendor_id ∧ pe_device_id entry = device_id.
Proof.
  unfold find_cached. intros [Hin Hk]%List.find_some. apply andb_true_iff in Hk as [Hv Hd].
  apply strcmp_eq_true in Hv, Hd. split_and!; [by apply list_elem_of_In|done|done].
Qed.

Lemma find_cached_none cache vendor_id device_id :
  find_cached cache vendor_id device_id = None →
  (vendor_id, device_id) ∉ (λ entry, (pe_vendor_id entry, pe_device_id entry)) <$> cache.
Proof.
  unfold find_cached. intros Hn (entry & [= -> ->] & Hin)%list_elem_of_fmap.
  apply list_elem_of_In in Hin. apply (List.find_none _ _ Hn) in Hin. cbv beta in Hin.
  rewrite (proj2 (strcmp_eq_true _ _) eq_refl), (proj2 (strcmp_eq_true _ _) eq_refl) in Hin. done.
Qed.

(** The room made for a new entry. *)
Lemma kept_spec tables override cache : cache_ok tables override cache →
  let kept := if (length cache <? LSM_PCI_CACHE_SIZE)%nat then cache else tail cache in
  Forall (entry_ok tables override) kept ∧ (length kept < LSM_PCI_CACHE_SIZE)%nat ∧ kept `sublist_of` cache.
Proof.
  intros [He Hb _]. destruct (Nat.ltb_spec (length cache) LSM_PCI_CACHE_SIZE) as [Hlt|Hge]; [by split_and!|].
  destruct cache as [|first cache]; simpl in *; [unfold LSM_PCI_CACHE_SIZE in Hge; lia|].
  split_and!; [by inversion He|lia|by apply sublist_cons].
Qed.

Lemma lookup_step tables override cache vendor_id device_id vendor_size product_size :
  tables_ok tables → cache_ok tables override cache →
  let r := lsm_pci_names_lookup tables override cache vendor_id device_id vendor_size product_size in
  r.1 = registry_lookup tables override vendor_id device_id vendor_size product_size ∧
  cache_ok tables override r.2.
Proof.
  intros Ht Hc r. subst r. unfold lsm_pci_names_lookup, registry_lookup.
  destruct (normalise_id vendor_id) as [[vendor vnum]|] eqn:Ev; [|by split].
  destruct (normalise_id device_id) as [[device dnum]|] eqn:Ed; [|by split].
  apply normalise_id_spec in Ev as [Hvl ->], Ed as [Hdl ->].
  destruct (registry_names tables override vendor device) as [vname pname] eqn:Hnames.
  destruct (find_cached cache vendor device) as [entry|] eqn:Hf.
  - apply find_cached_some in Hf as (Hin & <- & <-). split; [|done].
    pose proof (proj1 (Forall_forall _ _) (entries_ok _ _ _ Hc) entry Hin) as (Hv & Hp & Hfound).
    cbn [fst]. by rewrite Hv, Hp, Hfound, Hnames.
  - unfold new_cache_entry. rewrite !copy_string_fits by lia. cbv beta iota zeta.
    rewrite populate_entry_spec by done. rewrite Hnames. cbn [fst snd pe_found pe_vendor pe_product].
    split; [done|].
    destruct (kept_spec _ _ _ Hc) as (Hk & Hl & Hsub).
    set (kept := if (_ <? _)%nat then _ else _) in *. split.
    + apply Forall_app. split; [done|]. apply Forall_singleton. unfold entry_ok; simpl. by rewrite Hnames.
    + rewrite length_app. simpl. lia.
    + rewrite fmap_app. apply NoDup_app. split_and!.
      * eapply sublist_NoDup; [apply Hc|by apply fmap_sublist].
      * intros key Hkey Hnew%list_elem_of_singleton. subst key. apply (find_cached_none _ _ _ Hf).
        eapply elem_of_sublist; [exact Hkey|by apply fmap_sublist].
      * apply NoDup_singleton.
Qed.

Abbreviation Request := (option string * option string)%type.

(** The cache after a series of look-ups. *)
Definition looked_up (tables : PciTables) (override : option Override) (requests : list Request)
    : list LsmPciCacheEntry :=
  foldl (λ cache request,
    (lsm_pci_names_lookup tables override cache request.1 request.2 LSM_PCI_NAME_LEN LSM_PCI_NAME_LEN).2)
    [] requests.

Lemma looked_up_ok tables override requests : tables_ok tables → cache_ok tables override (looked_up tables override requests).
Proof.
  intros Ht. unfold looked_up. induction requests as [|request requests IH] using rev_ind.
  { split; [done|simpl; lia|constructor]. }
  rewrite foldl_app. simpl. by apply lookup_step.
Qed.

(** (C22) The name cache is transparent.  After any series of look-ups, however
    many entries it evicted, a look-up reports exactly what a declarative search
    of the registry reports: the first name the override file has for the
    identifiers if it could be read and closed, else the name of the record with
    that key in the embedded tables - the early exit of the file loop, the binary
    searches and the reuse of slots change nothing.  The cache never holds more
    than 64 entries, nor two for one pair of identifiers. *)
Theorem pci_cache_transparent tables override requests vendor_id device_id vendor_size product_size :
  tables_ok tables →
  let cache := looked_up tables override requests in
  (lsm_pci_names_lookup tables override cache vendor_id device_id vendor_size product_size).1 =
    registry_lookup tables override vendor_id device_id vendor_size product_size ∧
  (length cache ≤ LSM_PCI_CACHE_SIZE)%nat ∧
  NoDup ((λ entry, (pe_vendor_id entry, pe_device_id entry)) <$> cache).
Proof.
  intros Ht cache. pose proof (looked_up_ok tables override requests Ht) as Hc.
  split; [by apply lookup_step|]. split; apply Hc.
Qed.
End pci_cache.

(** ** Witness *)

From S2P Require Import CommonReference.

Definition nul : string := String "000" EmptyString.


Definition registry_text : string :=
  "# comment" +:+ String nl ("V" +:+ String tab ("8086" +:+ String tab ("Intel Corporation" +:+ String nl EmptyString))).

(** Two vendors and a device, and an override that renames one vendor. *)
Definition some_tables : PciTables := {|
  pt_vendors := [{| vr_id := 4318; vr_name_ref := 6 |}; {| vr_id := 32902; vr_name_ref := 0 |}];
  pt_devices := [{| dr_key := 32902 * 65536 + 100; dr_name_ref := 13 |}];
  pt_chunks := ["Intel" +:+ nul +:+ "NVIDIA" +:+ nul +:+ "Adapter" +:+ nul];
|}.

Definition some_requests : list (option string * option string) :=
  [(Some "0x8086", Some "0064"); (Some "10de", Some "1234"); (Some "zz", None)].

Lemma pci_cache_transparent_witness :
  let override := Some {| ov_text := registry_text; ov_read_ok := true; ov_close_ok := true |} in
  (lsm_pci_names_lookup some_tables override (looked_up some_tables override some_requests)
     (Some " 0X8086 ") (Some "0064") 64 64).1 = (true, "Intel Corporation", "Adapter").
Proof.
  cbv zeta.
  match goal with |- context [looked_up some_tables ?override _] =>
    destruct (pci_cache_transparent some_tables override some_requests (Some " 0X8086 ") (Some "0064") 64 64)
      as [Hr _] end.
  - split.
    + split; [simpl; lia|]. intros [|[|i]] [|[|j]] x y Hij Hx Hy; simpl in *; simplify_eq; simpl; lia.
    + split; [simpl; lia|]. intros [|i] [|j] x y Hij Hx Hy; simpl in *; simplify_eq; simpl; lia.
    + intros reference Hr. simpl in Hr.
      apply list_elem_of_In in Hr as [<-|[<-|[<-|[]]]]; vm_compute; eauto.
  - rewrite Hr. vm_compute. reflexivity.
Defined.
