(* ===== verification/ProcessStat.v ===== *)
(** * ProcessStat: the kernel's process record

    Models [read_process_stat] of [src/src/process_backend_linux.c] on the text
    of [/proc/PID/stat]: the command name, which may itself contain spaces and
    parentheses, and the numbered fields behind it. *)
From S2P Require Import Prelude Double CStrings Common ProcessModel.
Local Open Scope Z_scope.

Definition int_min : Z := -2147483648.
Definition int_max : Z := 2147483647.

(** src: process_backend_linux.c:62-66 LinuxProcessStat *)
Record LinuxProcessStat := {
  ls_cpu_ticks : Z;
  ls_start_ticks : Z;
  ls_nice_value : Z;
}.
#[export] Instance eta_LinuxProcessStat : Eta LinuxProcessStat := λ x,
  Build_LinuxProcessStat (ls_cpu_ticks x) (ls_start_ticks x) (ls_nice_value x).

(** src: process_backend_linux.c state_name *)
Definition state_name (state : ascii) : string :=
  match state with
  | "R"%char => "Running"
  | "S"%char => "Sleeping"
  | "D"%char => "Disk sleep"
  | "Z"%char => "Zombie"
  | "T"%char | "t"%char => "Stopped"
  | "I"%char => "Idle"
  | "X"%char | "x"%char => "Dead"
  | "W"%char => "Paging"
  | _ => "Unknown"
  end.

(** The locals of the field loop. *)
(** src: process_backend_linux.c:343-347 read_process_stat *)
Record StatFields := {
  sf_state : ascii;
  sf_ppid : option Z;
  sf_start : option Z;
  sf_utime : Z;
  sf_stime : Z;
  sf_minflt : Z;
  sf_majflt : Z;
  sf_nice : Z;
  sf_threads : Z;
}.
#[export] Instance eta_StatFields : Eta StatFields := λ x,
  Build_StatFields (sf_state x) (sf_ppid x) (sf_start x) (sf_utime x) (sf_stime x) (sf_minflt x)
    (sf_majflt x) (sf_nice x) (sf_threads x).

Section stat.
Context `{NumberOps, ArithmeticOps, TextOps}.

Definition u64_field (token : string) (store : Z → StatFields) : option StatFields :=
  let '(ok, value) := infiltratr_parse_u64 token 10 0 in
  if ok : bool then Some (store value) else None.

(** One field; [None] rejects the record. *)
(** src: process_backend_linux.c:352-394 read_process_stat *)
Definition stat_field (field : nat) (token : string) (f : StatFields) : option StatFields :=
  match field with
  | 3%nat => Some (f <| sf_state := char_at token 0 |>)
  | 4%nat => u64_field token (λ v, f <| sf_ppid := Some v |>)
  | 10%nat => u64_field token (λ v, f <| sf_minflt := v |>)
  | 12%nat => u64_field token (λ v, f <| sf_majflt := v |>)
  | 14%nat => u64_field token (λ v, f <| sf_utime := v |>)
  | 15%nat => u64_field token (λ v, f <| sf_stime := v |>)
  | 19%nat =>
      let '(ok, value) := lsm_parse_i64_range token 10 int_min int_max 0 in
      if ok : bool then Some (f <| sf_nice := value |>) else None
  | 20%nat => u64_field token (λ v, f <| sf_threads := if v <=? uint_max then v else uint_max |>)
  | 22%nat => u64_field token (λ v, f <| sf_start := Some v |>)
  | _ => Some f
  end.

(** [while (token)], ended by the last field the program reads. *)
(** src: process_backend_linux.c:349-398 read_process_stat *)
Fixpoint stat_fields (field : nat) (tokens : list string) (f : StatFields) : option StatFields :=
  match tokens with
  | [] => Some f
  | token :: tokens =>
      match stat_field field token f with
      | None => None
      | Some f => if (22 <=? field)%nat then Some f else stat_fields (S field) tokens f
      end
  end.

Definition no_fields (threads : Z) : StatFields :=
  {| sf_state := "?"%char; sf_ppid := None; sf_start := None; sf_utime := 0; sf_stime := 0;
     sf_minflt := 0; sf_majflt := 0; sf_nice := 0; sf_threads := threads |}.

(** [text] is the file as read into the buffer, [None] when it could not be read;
    [stale] is what the buffer holds behind the terminator, which the code reads
    when the record ends at the closing parenthesis ([right + 2]). *)
(** src: process_backend_linux.c read_process_stat *)
Definition read_process_stat (text : option string) (stale : string) (process : LsmProcessInfo)
    : option (LsmProcessInfo * LinuxProcessStat) :=
  match text with
  | None => None
  | Some text =>
      match split_at "(" text with
      | None => None
      | Some (_, after_left) =>
          match split_last ")" after_left with
          | None => None
          | Some (name, after_right) =>
              let process := process <| p_name := lsm_copy_string LSM_NAME_LEN name |> in
              let rest := match after_right with
                          | String _ rest => rest
                          | EmptyString => stale
                          end in
              match stat_fields 3 (strtok_all (is_char " ") rest) (no_fields (p_threads process)) with
              | None => None
              | Some f =>
                  match sf_ppid f, sf_start f with
                  | Some ppid, Some start =>
                      let native := {| ls_cpu_ticks := lsm_u64_add_saturating (sf_utime f) (sf_stime f);
                                       ls_start_ticks := start; ls_nice_value := sf_nice f |} in
                      Some (process <| p_ppid := ppid |> <| p_threads := sf_threads f |>
                              <| p_nice_value := sf_nice f |> <| p_nice_value_available := true |>
                              <| p_page_faults := lsm_u64_add_saturating (sf_minflt f) (sf_majflt f) |>
                              <| p_state := state_name (sf_state f) |>, native)
                  | _, _ => None
                  end
              end
          end
      end
  end.
End stat.

(** ** The kernel's record *)

(** What [do_task_stat] prints behind the identifier and the name, up to the
    start time; the program reads none of the fields behind it. *)
Record KernelStat := {
  ks_pid : Z;
  ks_comm : string;
  ks_state : ascii;
  ks_ppid : Z;
  ks_ids : list Z;          (** pgrp, session, tty, tpgid *)
  ks_flags : Z;
  ks_minflt : Z;
  ks_cminflt : Z;
  ks_majflt : Z;
  ks_cmajflt : Z;
  ks_utime : Z;
  ks_stime : Z;
  ks_children : list Z;     (** cutime, cstime, priority *)
  ks_nice : Z;
  ks_threads : Z;
  ks_itrealvalue : Z;
  ks_start : Z;
  ks_rest : list string;
}.

Definition stat_tokens (k : KernelStat) : list string :=
  [String (ks_state k) EmptyString; print_u64 (ks_ppid k)]
  ++ (print_i64 <$> ks_ids k)
  ++ [print_u64 (ks_flags k); print_u64 (ks_minflt k); print_u64 (ks_cminflt k);
      print_u64 (ks_majflt k); print_u64 (ks_cmajflt k); print_u64 (ks_utime k);
      print_u64 (ks_stime k)]
  ++ (print_i64 <$> ks_children k)
  ++ [print_i64 (ks_nice k); print_u64 (ks_threads k); print_i64 (ks_itrealvalue k);
      print_u64 (ks_start k)]
  ++ ks_rest k.

Definition stat_line (k : KernelStat) : string :=
  print_u64 (ks_pid k) +:+ " (" +:+ ks_comm k +:+ ") " +:+ CStrings.join " " (stat_tokens k).

(** A token of the record: not empty, no space and no parenthesis. *)
Definition stat_token (s : string) : Prop :=
  nonempty s = true ∧ string_forallb (λ c, negb (Ascii.eqb c " ") && negb (Ascii.eqb c ")")) s = true.

Record kernel_stat_ok (k : KernelStat) : Prop := {
  ko_pid : u64 (ks_pid k);
  ko_state : stat_token (String (ks_state k) EmptyString);
  ko_ids : length (ks_ids k) = 4%nat;
  ko_children : length (ks_children k) = 3%nat;
  ko_counters : Forall u64 [ks_ppid k; ks_flags k; ks_minflt k; ks_cminflt k; ks_majflt k;
                            ks_cmajflt k; ks_utime k; ks_stime k; ks_threads k; ks_start k];
  ko_nice : int_min <= ks_nice k <= int_max;
  ko_rest : Forall stat_token (ks_rest k);
}.

Lemma decimal_not c d :
  is_decimal c = true → is_decimal d = false → Ascii.eqb c d = false.
Proof. intros Hc Hd. destruct (Ascii.eqb_spec c d) as [->|]; [congruence|done]. Qed.

Lemma printed_token s :
  nonempty s = true → string_forallb is_decimal s = true → stat_token s.
Proof.
  intros Hn Hd. split; [done|]. eapply forallb_impl; [|exact Hd].
  intros c Hc. by rewrite !(decimal_not c) by done.
Qed.

Lemma print_u64_token n : u64 n → stat_token (print_u64 n).
Proof. intros [Hn _]. destruct (print_u64_text n Hn) as (? & ? & _). by apply printed_token. Qed.

Lemma print_i64_token n : stat_token (print_i64 n).
Proof.
  unfold print_i64. destruct (Z.ltb_spec n 0) as [Hn|Hn].
  - destruct (print_u64_text (- n) ltac:(lia)) as (Hd & Hne & _).
    destruct (printed_token _ Hne Hd) as [_ Ht]. split; [done|]. exact Ht.
  - destruct (print_u64_text n Hn) as (? & ? & _). by apply printed_token.
Qed.

Lemma stat_token_clean s : stat_token s → token_clean (is_char " ") s = true.
Proof.
  intros [Hn Hs]. unfold token_clean. rewrite Hn. cbn. eapply forallb_impl; [|exact Hs].
  intros c [Hc _]%andb_true_iff. exact Hc.
Qed.

Lemma join_no_parenthesis tokens :
  Forall stat_token tokens → no_char ")" (CStrings.join " " tokens) = true.
Proof.
  assert (Hone : ∀ s, stat_token s → no_char ")" s = true).
  { intros s [_ Hs]. eapply forallb_impl; [|exact Hs]. by intros c [_ Hc]%andb_true_iff. }
  induction 1 as [|s tokens Hs Ht IH]; [done|]. destruct tokens as [|t tokens]; [by apply Hone|].
  change (CStrings.join " " (s :: t :: tokens))
    with (s +:+ String " " (CStrings.join " " (t :: tokens))).
  unfold no_char. rewrite CStrings.forallb_app. apply andb_true_iff. split; [by apply Hone|exact IH].
Qed.

Lemma stat_tokens_ok k : kernel_stat_ok k → Forall stat_token (stat_tokens k).
Proof.
  intros [_ Hs _ _ Hc _ Hr]. rewrite !Forall_cons in Hc.
  unfold stat_tokens. rewrite !Forall_app, !Forall_fmap, !Forall_cons.
  naive_solver (eauto using Forall_nil_2, print_u64_token, print_i64_token, Forall_true).
Qed.

Section round_trip.
Context `{NumberLaws, ArithmeticLaws, TextOps}.

Lemma u64_field_print n store : u64 n → u64_field (print_u64 n) store = Some (store n).
Proof. intros Hn. unfold u64_field. by rewrite parse_u64_print. Qed.

(** The fields the loop collects from the kernel's record. *)
Lemma stat_fields_kernel k threads :
  kernel_stat_ok k →
  stat_fields 3 (stat_tokens k) (no_fields threads)
  = Some {| sf_state := ks_state k; sf_ppid := Some (ks_ppid k); sf_start := Some (ks_start k);
            sf_utime := ks_utime k; sf_stime := ks_stime k; sf_minflt := ks_minflt k;
            sf_majflt := ks_majflt k; sf_nice := ks_nice k;
            sf_threads := Z.min (ks_threads k) uint_max |}.
Proof.
  intros [_ _ Hi Hch Hc Hn _]. rewrite !Forall_cons in Hc.
  destruct Hc as (C1 & C2 & C3 & C4 & C5 & C6 & C7 & C8 & C9 & C10 & _).
  unfold stat_tokens.
  destruct (ks_ids k) as [|i1 [|i2 [|i3 [|i4 []]]]]; try done.
  destruct (ks_children k) as [|h1 [|h2 [|h3 []]]]; try done.
  cbn [app fmap list_fmap stat_fields stat_field Nat.leb].
  repeat (rewrite u64_field_print by done; cbn [stat_fields stat_field Nat.leb]).
  assert (Hw : - 2 ^ 63 <= ks_nice k < 2 ^ 63).
  { change (2 ^ 63) with 9223372036854775808. unfold int_min, int_max in Hn. lia. }
  rewrite parse_i64_range_print by done. cbn [stat_fields stat_field Nat.leb].
  repeat (rewrite u64_field_print by done; cbn [stat_fields stat_field Nat.leb]). 
  replace (Z.min (ks_threads k) uint_max)
    with (if ks_threads k <=? uint_max then ks_threads k else uint_max); [done|].
  destruct (Z.leb_spec (ks_threads k) uint_max); lia.
Qed.

(** The kernel's process record reads back whatever the command is
    called: for every name, with spaces, parentheses or control characters in it,
    and every value of the fields, the parser recovers the name (cut to its
    buffer), the parent, the state, the fault, tick and thread counts (clamped or
    saturated to their fields) and the start time that identifies the
    instance. *)
Theorem stat_round_trip k stale process :
  kernel_stat_ok k →
  read_process_stat (Some (stat_line k)) stale process
  = Some (process <| p_name := lsm_copy_string LSM_NAME_LEN (ks_comm k) |>
            <| p_ppid := ks_ppid k |> <| p_threads := Z.min (ks_threads k) uint_max |>
            <| p_nice_value := ks_nice k |> <| p_nice_value_available := true |>
            <| p_page_faults := Z.min uint64_max (ks_minflt k + ks_majflt k) |>
            <| p_state := state_name (ks_state k) |>,
          {| ls_cpu_ticks := Z.min uint64_max (ks_utime k + ks_stime k);
             ls_start_ticks := ks_start k; ls_nice_value := ks_nice k |}).
Proof.
  intros Hk. pose proof (stat_tokens_ok k Hk) as Ht. pose proof (ko_counters _ Hk) as Hc.
  rewrite !Forall_cons in Hc. destruct Hc as (_ & _ & U1 & _ & U2 & _ & U3 & U4 & _).
  unfold read_process_stat.
  assert (El : stat_line k
    = (print_u64 (ks_pid k) +:+ " ") +:+ String "(" (ks_comm k +:+ String ")" (String " "
        (CStrings.join " " (stat_tokens k))))).
  { unfold stat_line. by rewrite !string_app_assoc. }
  rewrite El, split_at_app.
  2:{ unfold no_char. rewrite CStrings.forallb_app. apply andb_true_iff. split; [|done].
      destruct (print_u64_text (ks_pid k)) as (Hd & _ & _); [apply Hk|].
      eapply forallb_impl; [|exact Hd]. intros c Hcd. by rewrite decimal_not. }
  rewrite split_last_app by (change (no_char ")" (CStrings.join " " (stat_tokens k)) = true); by apply join_no_parenthesis).
  rewrite strtok_all_join; [|done|eapply Forall_impl; [exact Ht|apply stat_token_clean]].
  rewrite stat_fields_kernel by done. cbn [sf_ppid sf_start sf_utime sf_stime sf_minflt sf_majflt].
  by rewrite !add_saturating_spec by done.
Qed.
End round_trip.

(** ** Witness *)

From S2P Require Import CommonReference.

Definition hostile_name : KernelStat :=
  {| ks_pid := 42; ks_comm := "a) R 1 (b"; ks_state := "S"; ks_ppid := 7; ks_ids := [42; 42; 0; -1];
     ks_flags := 4194304; ks_minflt := 10; ks_cminflt := 0; ks_majflt := 2; ks_cmajflt := 0;
     ks_utime := 30; ks_stime := 5; ks_children := [0; 0; 20]; ks_nice := -5; ks_threads := 3;
     ks_itrealvalue := 0; ks_start := 9000; ks_rest := ["1"; "2"] |}.

Lemma hostile_name_ok : kernel_stat_ok hostile_name.
Proof.
  split; cbn [hostile_name ks_pid ks_state ks_ids ks_children ks_nice ks_rest ks_ppid ks_flags ks_minflt
    ks_cminflt ks_majflt ks_cmajflt ks_utime ks_stime ks_threads ks_start].
  - unfold u64, uint64_max. lia.
  - done.
  - done.
  - done.
  - rewrite !Forall_cons, Forall_nil. unfold u64, uint64_max. lia.
  - unfold int_min, int_max. lia.
  - rewrite !Forall_cons, Forall_nil. done.
Qed.

Lemma stat_round_trip_witness :
  ∃ p native, read_process_stat (Some "42 (a) R 1 (b) S 7 42 42 0 -1 4194304 10 0 2 0 30 5 0 0 20 -5 3 0 9000 1 2")
                "" process_zero = Some (p, native)
    ∧ p_name p = "a) R 1 (b" ∧ p_ppid p = 7 ∧ p_page_faults p = 12 ∧ ls_start_ticks native = 9000.
Proof.
  eexists _, _. split; [exact (stat_round_trip hostile_name "" process_zero hostile_name_ok)|].
  vm_compute. done.
Defined.

(** A record that ends at the parenthesis is completed from stale memory. *)
Lemma stat_reads_stale_memory :
  is_Some (read_process_stat (Some "42 (a)") "S 7 1 1 0 -1 0 0 0 0 0 0 0 0 0 0 0 1 0 9000" process_zero).
Proof. vm_compute. by eexists. Qed.
