(* ===== verification/ProcessGpu.v ===== *)
(** * ProcessGpu: per-process graphics accounting from DRM client counters

    Models [src/src/process_gpu.c].  A process may hold several descriptors of
    one DRM client; each publishes the client's cumulative counters in its
    [fdinfo] file.  The reader identifies the clients, counts each once, and adds
    their engine times and memory regions into a snapshot; two snapshots give the
    utilisation of the busiest engine.  The directory and its files are arguments:
    what [opendir], [readdir], [fopen], [fgets], [ferror] and [fclose] answered. *)
From S2P Require Import Prelude Double Rounding CStrings Common.
Local Open Scope Z_scope.

(** src: process_gpu.h:21-21 LSM_PROCESS_GPU_MAX_ENGINES *)
Definition LSM_PROCESS_GPU_MAX_ENGINES : nat := 32.
(** src: process_gpu.c:31-31 LSM_PROCESS_GPU_MAX_CLIENTS *)
Definition LSM_PROCESS_GPU_MAX_CLIENTS : nat := 128.
(** src: process_gpu.c:32-32 LSM_PROCESS_GPU_MAX_REGIONS *)
Definition LSM_PROCESS_GPU_MAX_REGIONS : nat := 32.

(** src: process_gpu.h:24-29 LsmProcessGpuEngine *)
Record LsmProcessGpuEngine := {
  ge_name : string;
  ge_time_ns : Z;
  ge_capacity : Z;
  ge_time_available : bool;
}.
#[export] Instance eta_LsmProcessGpuEngine : Eta LsmProcessGpuEngine := λ x,
  Build_LsmProcessGpuEngine (ge_name x) (ge_time_ns x) (ge_capacity x) (ge_time_available x).

(** The used prefix of [engines]; [engine_count] is its length. *)
(** src: process_gpu.h:32-38 LsmProcessGpuSnapshot *)
Record LsmProcessGpuSnapshot := {
  gs_engines : list LsmProcessGpuEngine;
  gs_memory_bytes : Z;
  gs_engine_counters_available : bool;
  gs_memory_available : bool;
}.
#[export] Instance eta_LsmProcessGpuSnapshot : Eta LsmProcessGpuSnapshot := λ x,
  Build_LsmProcessGpuSnapshot (gs_engines x) (gs_memory_bytes x) (gs_engine_counters_available x)
    (gs_memory_available x).

Definition gpu_snapshot_zero : LsmProcessGpuSnapshot := Build_LsmProcessGpuSnapshot [] 0 false false.

(** src: process_gpu.c:34-38 LsmDrmMemoryRegion *)
Record LsmDrmMemoryRegion := {
  mr_name : string;
  mr_bytes : Z;
  mr_resident_preferred : bool;
}.
#[export] Instance eta_LsmDrmMemoryRegion : Eta LsmDrmMemoryRegion := λ x,
  Build_LsmDrmMemoryRegion (mr_name x) (mr_bytes x) (mr_resident_preferred x).

(** src: process_gpu.c:40-48 LsmDrmClient *)
Record LsmDrmClient := {
  dc_key : string;
  dc_device_key : string;
  dc_engines : list LsmProcessGpuEngine;
  dc_regions : list LsmDrmMemoryRegion;
  dc_memory_available : bool;
}.
#[export] Instance eta_LsmDrmClient : Eta LsmDrmClient := λ x,
  Build_LsmDrmClient (dc_key x) (dc_device_key x) (dc_engines x) (dc_regions x) (dc_memory_available x).

Definition drm_client_zero : LsmDrmClient := Build_LsmDrmClient "" "" [] [] false.

(** A descriptor's file: its text, and whether reading and closing succeeded. *)
Record FdinfoFile := {
  ff_text : string;
  ff_read_ok : bool;
  ff_close_ok : bool;
}.

(** The directory: its entries in enumeration order, each with the file it
    opens ([None]: [fopen] failed), and whether [readdir] ended without an error
    and [closedir] succeeded. *)
Record FdinfoDirectory := {
  fd_entries : list (string * option FdinfoFile);
  fd_readdir_ok : bool;
  fd_closedir_ok : bool;
}.

Section gpu.
Context `{ArithmeticOps, TextOps, NumberOps}.

(** src: process_gpu.c field_value *)
Definition field_value (line : string) : option string :=
  match split_at ":" line with
  | Some (_, value) => Some (lsm_trim value)
  | None => None
  end.

(** The first element whose name is [name], replaced. *)
Definition update_first {A} (name_of : A → string) (name : string) (f : A → A)
    : list A → option (list A) :=
  fix go l :=
    match l with
    | [] => None
    | x :: l => if strcmp_eq (name_of x) name then Some (f x :: l) else cons x <$> go l
    end.

(** src: process_gpu.c add_engine *)
Definition add_engine (engines : list LsmProcessGpuEngine) (name : string) (time_ns capacity : Z)
    (have_time : bool) : bool * list LsmProcessGpuEngine :=
  if negb (nonempty name) then (false, engines) else
  let merge engine :=
    let engine := if have_time
                  then engine <| ge_time_ns := lsm_u64_add_saturating (ge_time_ns engine) time_ns |>
                         <| ge_time_available := true |>
                  else engine in
    if ge_capacity engine <? capacity then engine <| ge_capacity := capacity |> else engine in
  match update_first ge_name name merge engines with
  | Some engines => (true, engines)
  | None =>
      if (LSM_PROCESS_GPU_MAX_ENGINES <=? length engines)%nat then (false, engines)
      else (true, engines ++ [{| ge_name := lsm_copy_string 256 name; ge_time_ns := time_ns;
                                 ge_capacity := if 0 <? capacity then capacity else 1;
                                 ge_time_available := have_time |}])
  end.

(** src: process_gpu.c set_memory_region *)
Definition set_memory_region (regions : list LsmDrmMemoryRegion) (name : string) (bytes : Z)
    (resident : bool) : bool * list LsmDrmMemoryRegion :=
  if negb (nonempty name) then (false, regions) else
  let replace region :=
    (if resident || negb (mr_resident_preferred region) then region <| mr_bytes := bytes |> else region)
      <| mr_resident_preferred := mr_resident_preferred region || resident |> in
  match update_first mr_name name replace regions with
  | Some regions => (true, regions)
  | None =>
      if (LSM_PROCESS_GPU_MAX_REGIONS <=? length regions)%nat then (false, regions)
      else (true, regions ++ [{| mr_name := lsm_copy_string 96 name; mr_bytes := bytes;
                                 mr_resident_preferred := resident |}])
  end.

(** The locals of [read_client_file] that its line loop carries. *)
(** src: process_gpu.c:115-119 read_client_file *)
Record ClientLines := {
  cl_driver : string;
  cl_device : string;
  cl_client_id : Z;
  cl_have_client_id : bool;
  cl_recognised : bool;
  cl_complete : bool;
  cl_client : LsmDrmClient;
}.
#[export] Instance eta_ClientLines : Eta ClientLines := λ x,
  Build_ClientLines (cl_driver x) (cl_device x) (cl_client_id x) (cl_have_client_id x) (cl_recognised x)
    (cl_complete x) (cl_client x).

Definition client_lines_zero : ClientLines :=
  Build_ClientLines "" "" 0 false false true drm_client_zero.

Definition drop_chars (n : nat) (s : string) : string := String.substring n (String.length s - n) s.

(** [strchr(line, ':')], and the counter behind it. *)
Definition counter_field (line : string) : option (string * Z) :=
  match split_at ":" line with
  | Some (name, text) =>
      let '(ok, _, value) := lsm_parse_u64_token text 10 0 in
      if ok : bool then Some (name, value) else None
  | None => None
  end.

(** src: process_gpu.c:121-184 read_client_file *)
Definition client_line (s : ClientLines) (raw : string) : ClientLines :=
  let line := (span (is_char nl) raw).1 in
  if lsm_string_starts_with line "drm-driver:" then
    match field_value line with
    | Some value => s <| cl_driver := lsm_copy_string 64 value |>
    | None => s
    end
  else if lsm_string_starts_with line "drm-pdev:" then
    match field_value line with
    | Some value => s <| cl_device := lsm_copy_string 96 value |>
    | None => s
    end
  else if lsm_string_starts_with line "drm-minor:" && negb (nonempty (cl_device s)) then
    match field_value line with
    | Some value => s <| cl_device := snprintf 96 ("minor-" +:+ value) |>
    | None => s
    end
  else if lsm_string_starts_with line "drm-client-id:" then
    match field_value line with
    | Some value =>
        let '(ok, _, client_id) := lsm_parse_u64_token value 10 (cl_client_id s) in
        s <| cl_client_id := client_id |> <| cl_have_client_id := ok |>
    | None => s <| cl_have_client_id := false |>
    end
  else if lsm_string_starts_with line "drm-engine-capacity-" then
    match counter_field line with
    | None => s
    | Some (name, capacity) =>
        if capacity =? 0 then s else
        let '(added, engines) := add_engine (dc_engines (cl_client s)) (drop_chars 20 name) 0
                                   (Z.min capacity uint_max) false in
        s <| cl_client := cl_client s <| dc_engines := engines |> |>
          <| cl_complete := cl_complete s && added |>
    end
  else if lsm_string_starts_with line "drm-engine-" then
    match counter_field line with
    | None => s
    | Some (name, time_ns) =>
        let '(added, engines) := add_engine (dc_engines (cl_client s)) (drop_chars 11 name) time_ns 1 true in
        s <| cl_client := cl_client s <| dc_engines := engines |> |>
          <| cl_complete := cl_complete s && added |> <| cl_recognised := true |>
    end
  else if lsm_string_starts_with line "drm-resident-" || lsm_string_starts_with line "drm-memory-" then
    let resident := lsm_string_starts_with line "drm-resident-" in
    let prefix := if resident then 13%nat else 11%nat in
    match split_at ":" line, field_value line with
    | Some (name, _), Some value =>
        let '(ok, bytes) := infiltratr_parse_binary_quantity_u64 value 0 in
        if ok : bool then
          let '(stored, regions) := set_memory_region (dc_regions (cl_client s)) (drop_chars prefix name)
                                      bytes resident in
          s <| cl_client := cl_client s <| dc_regions := regions |> <| dc_memory_available := true |> |>
            <| cl_complete := cl_complete s && stored |> <| cl_recognised := true |>
        else s
    | _, _ => s
    end
  else s.

(** The result, the outgoing [*complete] and the client. *)
(** src: process_gpu.c read_client_file *)
Definition read_client_file (path : string) (file : option FdinfoFile) : bool * bool * LsmDrmClient :=
  match file with
  | None => (false, true, drm_client_zero)
  | Some file =>
      let s := fold_left client_line (fgets_all 512 (ff_text file)) client_lines_zero in
      let complete := cl_complete s && ff_close_ok file && ff_read_ok file in
      if negb (cl_recognised s) then (false, complete, cl_client s) else
      let device := cl_driver s +:+ ":" +:+ cl_device s in
      let key := if cl_have_client_id s
                 then snprintf 192 (device +:+ ":" +:+ print_u64 (cl_client_id s))
                 else snprintf 192 ("fd:" +:+ String.substring 0 180 (lsm_path_basename path)) in
      (true, complete, cl_client s <| dc_device_key := snprintf 192 device |> <| dc_key := key |>)
  end.

(** src: process_gpu.c client_seen *)
Definition client_seen (seen : list string) (key : string) : bool :=
  existsb (λ k, strcmp_eq k key) seen.

(** [snprintf(engine_key, 256, "%.120s:%.120s", ...)] *)
(** src: process_gpu.c:269-271 lsm_process_gpu_read *)
Definition engine_key (client : LsmDrmClient) (engine : LsmProcessGpuEngine) : string :=
  snprintf 256 (String.substring 0 120 (dc_device_key client) +:+ ":"
                +:+ String.substring 0 120 (ge_name engine)).

(** The loop over a client's engines; [None]: the snapshot has no room. *)
(** src: process_gpu.c:266-279 lsm_process_gpu_read *)
Fixpoint add_client_engines (client : LsmDrmClient) (engines : list LsmProcessGpuEngine)
    (acc : list LsmProcessGpuEngine) : option (list LsmProcessGpuEngine) :=
  match engines with
  | [] => Some acc
  | engine :: engines =>
      if negb (ge_time_available engine) then add_client_engines client engines acc else
      let '(added, acc) := add_engine acc (engine_key client engine) (ge_time_ns engine)
                             (ge_capacity engine) true in
      if added : bool then add_client_engines client engines acc else None
  end.

(** src: process_gpu.c:281-285 lsm_process_gpu_read *)
Definition add_client_memory (client : LsmDrmClient) (snapshot : LsmProcessGpuSnapshot)
    : LsmProcessGpuSnapshot :=
  snapshot <| gs_memory_bytes := fold_left (λ bytes region, lsm_u64_add_saturating bytes (mr_bytes region))
                                   (dc_regions client) (gs_memory_bytes snapshot) |>
           <| gs_memory_available := gs_memory_available snapshot || dc_memory_available client |>.

(** The enumeration; [None]: incomplete. *)
(** src: process_gpu.c:220-286 lsm_process_gpu_read *)
Fixpoint read_clients (directory_path : string) (entries : list (string * option FdinfoFile))
    (seen : list string) (snapshot : LsmProcessGpuSnapshot) : option LsmProcessGpuSnapshot :=
  match entries with
  | [] => Some snapshot
  | (name, file) :: entries =>
      let continue := read_clients directory_path entries in
      if negb (lsm_parse_u64_range name 10 0 2147483647 0).1 then continue seen snapshot else
      match lsm_join_path 640 directory_path name with
      | None => continue seen snapshot
      | Some path =>
          let '(recognised, complete, client) := read_client_file path file in
          if negb complete then None
          else if negb recognised then continue seen snapshot
          else if client_seen seen (dc_key client) then continue seen snapshot
          else if (LSM_PROCESS_GPU_MAX_CLIENTS <=? length seen)%nat then None
          else match add_client_engines client (dc_engines client) (gs_engines snapshot) with
               | None => None
               | Some engines =>
                   continue (seen ++ [lsm_copy_string 192 (dc_key client)])
                     (add_client_memory client (snapshot <| gs_engines := engines |>))
               end
      end
  end.

(** [directory = None]: [opendir] failed. *)
(** src: process_gpu.c lsm_process_gpu_read *)
Definition lsm_process_gpu_read (proc_root : string) (pid : Z) (directory : option FdinfoDirectory)
    : bool * LsmProcessGpuSnapshot :=
  if negb (nonempty proc_root) || (pid <=? 0) then (false, gpu_snapshot_zero) else
  let directory_path := proc_root +:+ "/" +:+ print_u64 pid +:+ "/fdinfo" in
  if (512 <=? String.length directory_path)%nat then (false, gpu_snapshot_zero) else
  match directory with
  | None => (false, gpu_snapshot_zero)
  | Some directory =>
      match read_clients directory_path (fd_entries directory) [] gpu_snapshot_zero with
      | Some snapshot =>
          if fd_readdir_ok directory && fd_closedir_ok directory then
            let available := (0 <? length (gs_engines snapshot))%nat in
            (available || gs_memory_available snapshot,
             snapshot <| gs_engine_counters_available := available |>)
          else (false, gpu_snapshot_zero)
      | None => (false, gpu_snapshot_zero)
      end
  end.

(** src: process_gpu.c find_engine *)
Definition find_engine (snapshot : LsmProcessGpuSnapshot) (name : string) : option LsmProcessGpuEngine :=
  List.find (λ e, strcmp_eq (ge_name e) name) (gs_engines snapshot).

(** src: process_gpu.c lsm_process_gpu_normalise *)
Definition lsm_process_gpu_normalise (current previous : LsmProcessGpuSnapshot) : LsmProcessGpuSnapshot :=
  current <| gs_engines :=
    (λ engine, match find_engine previous (ge_name engine) with
               | Some old => if ge_time_ns engine <? ge_time_ns old
                             then engine <| ge_time_ns := ge_time_ns old |> else engine
               | None => engine
               end) <$> gs_engines current |>.

(** The utilisation of one engine since the previous snapshot. *)
(** src: process_gpu.c:340-349 lsm_process_gpu_calculate_engine *)
Definition engine_percent (interval_ns : ldouble) (previous : LsmProcessGpuSnapshot)
    (engine : LsmProcessGpuEngine) : option ldouble :=
  match find_engine previous (ge_name engine) with
  | Some old =>
      if ge_time_ns engine <? ge_time_ns old then None else
      let delta := ge_time_ns engine - ge_time_ns old in
      let capacity := if 0 <? ge_capacity engine then ge_capacity engine else 1 in
      Some (lddiv (ldmul (ldouble_of_Z delta) (ldouble_of_Z 100))
                  (ldmul interval_ns (ldouble_of_Z capacity)))
  | None => None
  end.

(** [matched], [peak_percent] and [peak_engine] of the loop. *)
(** src: process_gpu.c:333-355 lsm_process_gpu_calculate_engine *)
Definition peak_step (interval_ns : ldouble) (previous : LsmProcessGpuSnapshot)
    (peak : option (ldouble * string)) (engine : LsmProcessGpuEngine) : option (ldouble * string) :=
  match engine_percent interval_ns previous engine with
  | None => peak
  | Some value =>
      match peak with
      | Some (peak_percent, _) =>
          if SFltb peak_percent value then Some (value, ge_name engine) else peak
      | None => Some (value, ge_name engine)
      end
  end.

(** [None]: false, with [*percent] 0 and [engine] empty. *)
(** src: process_gpu.c lsm_process_gpu_calculate_engine *)
Definition lsm_process_gpu_calculate_engine (current previous : LsmProcessGpuSnapshot)
    (elapsed_seconds : double) (engine_size : nat) : option (double * string) :=
  if negb (isfinite elapsed_seconds) || dle elapsed_seconds d0
     || negb (gs_engine_counters_available current)
     || negb (gs_engine_counters_available previous) then None else
  let interval_ns := ldmul elapsed_seconds (ldouble_of_Z 1000000000) in
  match fold_left (peak_step interval_ns previous) (gs_engines current) None with
  | None => None
  | Some (value, peak_engine) =>
      let value := if negb (isfinite value) || SFltb value (ldouble_of_Z 0) then ldouble_of_Z 0 else value in
      let value := if SFltb (ldouble_of_Z 100) value then ldouble_of_Z 100 else value in
      let display_name := match split_last ":" peak_engine with
                          | Some (_, name) => name
                          | None => peak_engine
                          end in
      Some (double_of_ldouble value, lsm_copy_string engine_size display_name)
  end.
End gpu.

(** ** Each client counts once *)

Section accounting.
Context `{ArithmeticLaws, TextLaws, NumberLaws}.

(** The clients the descriptors identify, in order, duplicates included;
    [None] when a recognisable file could not be read whole. *)
Fixpoint fdinfo_clients (directory_path : string) (entries : list (string * option FdinfoFile))
    : option (list LsmDrmClient) :=
  match entries with
  | [] => Some []
  | (name, file) :: entries =>
      if negb (lsm_parse_u64_range name 10 0 2147483647 0).1 then fdinfo_clients directory_path entries else
      match lsm_join_path 640 directory_path name with
      | None => fdinfo_clients directory_path entries
      | Some path =>
          match read_client_file path file with
          | (_, false, _) => None
          | (false, true, _) => fdinfo_clients directory_path entries
          | (true, true, client) => cons client <$> fdinfo_clients directory_path entries
          end
      end
  end.

(** The first descriptor of every client. *)
Fixpoint distinct_clients (seen : list string) (clients : list LsmDrmClient) : list LsmDrmClient :=
  match clients with
  | [] => []
  | client :: clients =>
      if decide (dc_key client ∈ seen) then distinct_clients seen clients
      else client :: distinct_clients (seen ++ [dc_key client]) clients
  end.

(** What a client adds to the engine published under [key]. *)
Definition client_times (key : string) (client : LsmDrmClient) : list Z :=
  omap (λ engine, if ge_time_available engine && strcmp_eq (engine_key client engine) key
                  then Some (ge_time_ns engine) else None) (dc_engines client).

Definition client_memory (client : LsmDrmClient) : list Z := mr_bytes <$> dc_regions client.

Definition engine_time (engines : list LsmProcessGpuEngine) (key : string) : option Z :=
  ge_time_ns <$> List.find (λ e, strcmp_eq (ge_name e) key) engines.

Definition sum_Z (l : list Z) : Z := foldr Z.add 0 l.

(** No counter at all, or their saturated sum. *)
Definition total_time (times : list Z) : option Z :=
  match times with [] => None | _ => Some (Z.min uint64_max (sum_Z times)) end.

Lemma sum_nonneg l : Forall u64 l → 0 <= sum_Z l.
Proof. induction 1 as [|x l [Hx _] _ IH]; simpl; lia. Qed.

Lemma sum_app l k : sum_Z (l ++ k) = sum_Z l + sum_Z k.
Proof. induction l as [|x l IH]; simpl; lia. Qed.

(** Saturating additions in a row saturate the sum. *)
Lemma saturating_fold l a :
  u64 a → Forall u64 l → fold_left lsm_u64_add_saturating l a = Z.min uint64_max (a + sum_Z l).
Proof.
  intros Ha Hl. revert a Ha. induction Hl as [|x l Hx Hl IH]; intros a Ha; simpl.
  { unfold u64, uint64_max in *. lia. }
  rewrite IH by (rewrite add_saturating_spec by done; unfold u64, uint64_max in *; lia).
  rewrite add_saturating_spec by done.
  pose proof (sum_nonneg l Hl). unfold u64, uint64_max in *. lia.
Qed.

Definition add_time (o : option Z) (t : Z) : option Z :=
  Some (match o with Some t0 => lsm_u64_add_saturating t0 t | None => t end).

Lemma add_time_fold_some l a :
  fold_left add_time l (Some a) = Some (fold_left lsm_u64_add_saturating l a).
Proof. revert a. induction l as [|x l IH]; intros a; [done|]. apply IH. Qed.

Lemma add_time_fold l : Forall u64 l → fold_left add_time l None = total_time l.
Proof.
  intros Hl. destruct Hl as [|x l Hx Hl]; [done|]. cbn [fold_left]. unfold add_time at 2.
  by rewrite add_time_fold_some, saturating_fold.
Qed.

Lemma update_first_find {A} (name_of : A → string) name (f : A → A) l l' :
  (∀ x, name_of (f x) = name_of x) →
  update_first name_of name f l = Some l' →
  ∀ key, List.find (λ x, strcmp_eq (name_of x) key) l'
         = (if decide (key = name) then f else id)
             <$> List.find (λ x, strcmp_eq (name_of x) key) l.
Proof.
  intros Hf. revert l'. induction l as [|x l IH]; intros l' Hu key; simpl in Hu; [done|].
  destruct (strcmp_eq (name_of x) name) eqn:E.
  - injection Hu as <-. apply strcmp_eq_true in E. simpl. rewrite Hf.
    destruct (strcmp_eq (name_of x) key) eqn:Ek.
    + apply strcmp_eq_true in Ek. rewrite decide_True by congruence. done.
    + rewrite decide_False; [by destruct (List.find _ l)|].
      intros ->. by rewrite (proj2 (strcmp_eq_true _ _) E) in Ek.
  - destruct (update_first name_of name f l) as [k|] eqn:Ek; [|done]. injection Hu as <-. simpl.
    destruct (strcmp_eq (name_of x) key) eqn:Ex; [|by apply IH].
    rewrite decide_False; [done|]. intros ->. congruence.
Qed.

Lemma update_first_none {A} (name_of : A → string) name (f : A → A) l :
  update_first name_of name f l = None ↔ List.find (λ x, strcmp_eq (name_of x) name) l = None.
Proof.
  induction l as [|x l IH]; [done|]. simpl. destruct (strcmp_eq (name_of x) name); [done|].
  rewrite <-IH. by destruct (update_first name_of name f l).
Qed.

Lemma find_app {A} (p : A → bool) l k :
  List.find p (l ++ k) = match List.find p l with Some x => Some x | None => List.find p k end.
Proof. induction l as [|x l IH]; [done|]. simpl. by destruct (p x). Qed.

(** One counter into the snapshot. *)
Lemma add_engine_time acc name t capacity acc' :
  (String.length name < 256)%nat →
  add_engine acc name t capacity true = (true, acc') →
  ∀ key, engine_time acc' key
         = if decide (key = name) then add_time (engine_time acc key) t else engine_time acc key.
Proof.
  intros Hl. unfold add_engine. destruct (nonempty name); [|done]. cbn [negb].
  match goal with |- context [update_first _ _ ?f _] => set (merge := f) end.
  assert (Hm : ∀ e, ge_name (merge e) = ge_name e ∧
                    ge_time_ns (merge e) = lsm_u64_add_saturating (ge_time_ns e) t).
  { intros e. unfold merge. by destruct (_ <? _). }
  unfold engine_time. destruct (update_first ge_name name merge acc) as [u|] eqn:E.
  - intros [= <-] key. rewrite (update_first_find ge_name name merge acc u) by
      first [done | intros; apply Hm].
    destruct (decide (key = name)) as [->|]; [|by destruct (List.find _ acc)].
    destruct (List.find _ acc) as [e|] eqn:Ef; simpl.
    + by rewrite (proj2 (Hm e)).
    + apply (update_first_none ge_name name merge) in Ef. congruence.
  - destruct (_ <=? _)%nat; [done|]. intros [= <-] key. rewrite find_app.
    apply update_first_none in E. simpl. rewrite copy_string_fits by done.
    destruct (decide (key = name)) as [->|Hne].
    + rewrite E. cbn. by rewrite (proj2 (strcmp_eq_true name name) eq_refl).
    + rewrite strcmp_eq_ne by done. by destruct (List.find (λ e, strcmp_eq (ge_name e) key) acc).
Qed.

Lemma engine_key_fits client engine : (String.length (engine_key client engine) < 256)%nat.
Proof. unfold engine_key, snprintf. eapply Nat.le_lt_trans; [apply substring_0_length|lia]. Qed.

Lemma add_client_engines_time client engines acc acc' :
  add_client_engines client engines acc = Some acc' →
  ∀ key, engine_time acc' key
         = fold_left add_time
             (omap (λ engine, if ge_time_available engine && strcmp_eq (engine_key client engine) key
                              then Some (ge_time_ns engine) else None) engines)
             (engine_time acc key).
Proof.
  revert acc. induction engines as [|e engines IH]; intros acc Ha key; simpl in Ha; [by injection Ha as <-|].
  destruct (ge_time_available e) eqn:Et; simpl in Ha.
  2:{ rewrite (IH _ Ha). simpl. by rewrite Et. }
  destruct (add_engine acc _ _ _ _) as [added acc1] eqn:E. destruct added; [|done].
  rewrite (IH _ Ha). simpl. rewrite Et. cbn [andb].
  rewrite (add_engine_time _ _ _ _ _ (engine_key_fits client e) E).
  destruct (decide (key = engine_key client e)) as [->|Hne].
  - by rewrite (proj2 (strcmp_eq_true _ _) eq_refl).
  - by rewrite strcmp_eq_ne by done.
Qed.

(** *** What a client file yields *)

Record client_ok (client : LsmDrmClient) : Prop := {
  co_times : Forall (λ e, u64 (ge_time_ns e)) (dc_engines client);
  co_bytes : Forall (λ r, u64 (mr_bytes r)) (dc_regions client);
  co_memory : dc_memory_available client = false → dc_regions client = [];
}.

Lemma client_zero_ok : client_ok drm_client_zero.
Proof. split; [constructor|constructor|done]. Qed.

Lemma update_first_forall {A} (P : A → Prop) (name_of : A → string) name f l l' :
  (∀ x, P x → P (f x)) → Forall P l → update_first name_of name f l = Some l' → Forall P l'.
Proof.
  intros Hf Hl. revert l'. induction Hl as [|x l Hx Hl IH]; intros l' Hu; simpl in Hu; [done|].
  destruct (strcmp_eq _ _); [injection Hu as <-; auto|].
  destruct (update_first _ _ _ l) as [k|]; [|done]. injection Hu as <-. auto.
Qed.

Lemma saturating_u64 a b : u64 a → u64 b → u64 (lsm_u64_add_saturating a b).
Proof. intros Ha Hb. rewrite add_saturating_spec by done. unfold u64, uint64_max in *. lia. Qed.

Lemma add_engine_ok engines name t capacity have :
  u64 t → Forall (λ e, u64 (ge_time_ns e)) engines →
  Forall (λ e, u64 (ge_time_ns e)) (add_engine engines name t capacity have).2.
Proof.
  intros Ht Hl. unfold add_engine. destruct (nonempty name); [|done]. cbn [negb].
  match goal with |- context [update_first _ _ ?f _] => set (merge := f) end.
  destruct (update_first ge_name name merge engines) as [u|] eqn:E.
  - eapply update_first_forall, E; [|done]. intros e He. unfold merge.
    destruct have, (_ <? _); cbn; auto using saturating_u64.
  - destruct (_ <=? _)%nat; [done|]. cbn. apply Forall_app. split; [done|]. by constructor.
Qed.

Lemma set_region_ok regions name bytes resident :
  u64 bytes → Forall (λ r, u64 (mr_bytes r)) regions →
  Forall (λ r, u64 (mr_bytes r)) (set_memory_region regions name bytes resident).2.
Proof.
  intros Ht Hl. unfold set_memory_region. destruct (nonempty name); [|done]. cbn [negb].
  match goal with |- context [update_first _ _ ?f _] => set (replace := f) end.
  destruct (update_first mr_name name replace regions) as [u|] eqn:E.
  - eapply update_first_forall, E; [|done]. intros r Hr. unfold replace.
    by destruct resident, (mr_resident_preferred r).
  - destruct (_ <=? _)%nat; [done|]. cbn. apply Forall_app. split; [done|]. by constructor.
Qed.

Definition lines_ok (s : ClientLines) : Prop :=
  Forall (λ e, u64 (ge_time_ns e)) (dc_engines (cl_client s))
  ∧ Forall (λ r, u64 (mr_bytes r)) (dc_regions (cl_client s))
  ∧ (dc_memory_available (cl_client s) = false → dc_regions (cl_client s) = []).

Lemma counter_field_u64 line name value : counter_field line = Some (name, value) → u64 value.
Proof.
  unfold counter_field. destruct (split_at ":" line) as [[n text]|]; [|done].
  pose proof (parse_token_u64 text 10 0 u64_zero) as Hv.
  destruct (lsm_parse_u64_token text 10 0) as [[[] rest] v]; [|done]. by intros [= _ <-].
Qed.

Lemma client_line_ok s raw : lines_ok s → lines_ok (client_line s raw).
Proof.
  intros (He & Hr & Hm). unfold client_line. set (line := (span _ raw).1). clearbody line.
  destruct (lsm_string_starts_with line "drm-driver:"); [by destruct (field_value line)|].
  destruct (lsm_string_starts_with line "drm-pdev:"); [by destruct (field_value line)|].
  destruct (_ && _); [by destruct (field_value line)|].
  destruct (lsm_string_starts_with line "drm-client-id:").
  { destruct (field_value line) as [v|]; [|done]. by destruct (lsm_parse_u64_token v 10 _) as [[]]. }
  destruct (lsm_string_starts_with line "drm-engine-capacity-").
  { destruct (counter_field line) as [[name c]|]; [|done]. destruct (c =? 0); [done|].
    pose proof (add_engine_ok (dc_engines (cl_client s)) (drop_chars 20 name) 0 (Z.min c uint_max) false
                  u64_zero He) as Ho.
    destruct (add_engine _ _ _ _ _) as [added engines]. by split_and!. }
  destruct (lsm_string_starts_with line "drm-engine-").
  { destruct (counter_field line) as [[name t]|] eqn:Ec; [|done]. apply counter_field_u64 in Ec.
    pose proof (add_engine_ok (dc_engines (cl_client s)) (drop_chars 11 name) t 1 true Ec He) as Ho.
    destruct (add_engine _ _ _ _ _) as [added engines]. by split_and!. }
  destruct (_ || _); [|done].
  destruct (split_at ":" line) as [[name rest]|]; [|done]. destruct (field_value line) as [v|]; [|done].
  pose proof (parse_quantity_u64 v 0 u64_zero) as Hb.
  destruct (infiltratr_parse_binary_quantity_u64 v 0) as [[] b]; [|done].
  pose proof (set_region_ok (dc_regions (cl_client s))
    (drop_chars (if lsm_string_starts_with line "drm-resident-" then 13 else 11) name) b
    (lsm_string_starts_with line "drm-resident-") Hb Hr) as Ho.
  destruct (set_memory_region _ _ _ _) as [stored regions]. by split_and!.
Qed.

Lemma read_client_file_ok path file recognised complete client :
  read_client_file path file = (recognised, complete, client) →
  client_ok client ∧ (recognised = true → (String.length (dc_key client) < 192)%nat).
Proof.
  unfold read_client_file. destruct file as [f|]; [|intros [= <- <- <-]; split; [apply client_zero_ok|done]].
  assert (Hok : ∀ lines s, lines_ok s → lines_ok (fold_left client_line lines s)).
  { induction lines as [|l lines IH]; [done|]. intros s Hs. by apply IH, client_line_ok. }
  specialize (Hok (fgets_all 512 (ff_text f)) client_lines_zero).
  set (s := fold_left _ _ _) in *. destruct Hok as (He & Hr & Hm).
  { split_and!; [constructor|constructor|done]. }
  destruct (cl_recognised s); intros [= <- <- <-]; [|by split].
  split; [by split|]. intros _. cbn. unfold snprintf.
  pose proof (substring_0_length (192 - 1)) as Hlen.
  destruct (cl_have_client_id s); match goal with |- context [String.substring 0 _ ?t] => specialize (Hlen t) end; lia.
Qed.

(** *** The enumeration *)

Definition memories (clients : list LsmDrmClient) : list Z := concat (client_memory <$> clients).
Definition times (key : string) (clients : list LsmDrmClient) : list Z :=
  concat (client_times key <$> clients).

Lemma add_client_memory_fold client s :
  gs_memory_bytes (add_client_memory client s)
  = fold_left lsm_u64_add_saturating (client_memory client) (gs_memory_bytes s).
Proof.
  unfold client_memory. cbn. generalize (gs_memory_bytes s).
  induction (dc_regions client) as [|r l IH]; [done|]. intros m. cbn. apply IH.
Qed.

Lemma client_seen_elem seen key : client_seen seen key = bool_decide (key ∈ seen).
Proof.
  apply eq_bool_prop_intro. rewrite Is_true_true, Is_true_true, bool_decide_eq_true.
  unfold client_seen. rewrite existsb_exists. split.
  - intros (k & Hk & ->%strcmp_eq_true). by apply list_elem_of_In.
  - intros Hk%list_elem_of_In. exists key. split; [done|]. by apply strcmp_eq_true.
Qed.

(** One enumeration adds exactly the first descriptor of every client. *)
Lemma read_clients_spec path entries seen snapshot result :
  read_clients path entries seen snapshot = Some result →
  ∃ clients, fdinfo_clients path entries = Some clients ∧ Forall client_ok clients ∧
    let distinct := distinct_clients seen clients in
    (length seen ≤ LSM_PROCESS_GPU_MAX_CLIENTS → length seen + length distinct ≤ LSM_PROCESS_GPU_MAX_CLIENTS)%nat
    ∧ gs_memory_bytes result = fold_left lsm_u64_add_saturating (memories distinct) (gs_memory_bytes snapshot)
    ∧ gs_memory_available result = gs_memory_available snapshot || existsb dc_memory_available distinct
    ∧ gs_engine_counters_available result = gs_engine_counters_available snapshot
    ∧ ∀ key, engine_time (gs_engines result) key
             = fold_left add_time (times key distinct) (engine_time (gs_engines snapshot) key).
Proof.
  revert seen snapshot. induction entries as [|[name file] entries IH]; intros seen snapshot Hr.
  { injection Hr as <-. exists []. do 2 (split; [done|]). cbn. rewrite orb_false_r. split_and!; [lia|done..]. }
  cbn [read_clients fdinfo_clients] in *. destruct (negb _); [by apply IH|].
  destruct (lsm_join_path 640 path name) as [p|]; [|by apply IH].
  destruct (read_client_file p file) as [[recognised complete] client] eqn:Ec.
  pose proof (read_client_file_ok _ _ _ _ _ Ec) as [Hc Hk].
  destruct complete; [|done]. cbn [negb] in Hr. destruct recognised; [|by apply IH].
  specialize (Hk eq_refl). cbn [negb] in Hr. rewrite client_seen_elem in Hr.
  case_bool_decide as Hin.
  { destruct (IH _ _ Hr) as (clients & -> & Hall & Hd). exists (client :: clients).
    split; [done|]. split; [by constructor|]. cbn [distinct_clients]. by rewrite decide_True. }
  destruct (Nat.leb_spec LSM_PROCESS_GPU_MAX_CLIENTS (length seen)) as [|Hroom]; [done|].
  destruct (add_client_engines _ _ _) as [engines|] eqn:Ee; [|done].
  rewrite copy_string_fits in Hr by done.
  destruct (IH _ _ Hr) as (clients & -> & Hall & Hd). exists (client :: clients).
  split; [done|]. split; [by constructor|]. cbn [distinct_clients]. rewrite decide_False by done.
  destruct Hd as (Hl & Hm & Ha & Hx & Ht). split_and!.
  - intros _. rewrite length_app in Hl. cbn [length] in *. lia.
  - rewrite Hm, add_client_memory_fold. unfold memories. cbn. by rewrite fold_left_app.
  - rewrite Ha. cbn. by rewrite orb_assoc.
  - by rewrite Hx.
  - intros key. rewrite Ht. cbn [gs_engines add_client_memory set_field]. unfold times.
    cbn. rewrite fold_left_app. f_equal. by apply add_client_engines_time.
Qed.

Lemma distinct_forall (P : LsmDrmClient → Prop) seen clients :
  Forall P clients → Forall P (distinct_clients seen clients).
Proof.
  intros Hc. revert seen. induction Hc as [|c clients Hc _ IH]; intros seen; [constructor|]. cbn.
  case_decide; [done|by constructor].
Qed.

(** What a complete enumeration publishes. *)
Definition snapshot_of (distinct : list LsmDrmClient) (s : LsmProcessGpuSnapshot) : Prop :=
  gs_memory_bytes s = Z.min uint64_max (sum_Z (memories distinct))
  ∧ gs_memory_available s = existsb dc_memory_available distinct
  ∧ (∀ key, engine_time (gs_engines s) key = total_time (times key distinct))
  ∧ (gs_engine_counters_available s = true ↔ gs_engines s ≠ []).

Lemma memories_u64 clients : Forall client_ok clients → Forall u64 (memories clients).
Proof.
  induction 1 as [|c clients Hc _ IH]; [constructor|]. unfold memories. cbn.
  apply Forall_app. split; [|done]. unfold client_memory. rewrite Forall_fmap. apply Hc.
Qed.

Lemma times_u64 key clients : Forall client_ok clients → Forall u64 (times key clients).
Proof.
  induction 1 as [|c clients Hc _ IH]; [constructor|]. unfold times. cbn.
  apply Forall_app. split; [|done]. unfold client_times.
  induction (co_times c Hc) as [|e l He _ IH']; [constructor|]. cbn.
  destruct (_ && _); [by constructor|done].
Qed.

Lemma no_memory_no_bytes clients :
  Forall client_ok clients → existsb dc_memory_available clients = false → memories clients = [].
Proof.
  induction 1 as [|c clients Hc _ IH]; [done|]. cbn. intros [Hm Hr]%orb_false_iff.
  specialize (IH Hr). unfold memories in *. cbn. unfold client_memory at 1.
  by rewrite (co_memory c Hc Hm), IH.
Qed.

(** (C15) Per-process graphics accounting counts every DRM client once, however
    many descriptors the process holds on it, and publishes all of it or nothing:
    on success the memory is the saturated sum of the regions of the distinct
    clients and every engine's time the saturated sum of their counters for it;
    on any failure (unreadable file or directory, more clients or engines than
    the bounded working set, nothing recognised) the snapshot is zero. *)
Theorem gpu_read_counts_each_client_once proc_root pid directory :
  let r := lsm_process_gpu_read proc_root pid directory in
  if r.1 then
    ∃ d path clients,
      directory = Some d ∧ fd_readdir_ok d = true ∧ fd_closedir_ok d = true
      ∧ fdinfo_clients path (fd_entries d) = Some clients
      ∧ (length (distinct_clients [] clients) ≤ LSM_PROCESS_GPU_MAX_CLIENTS)%nat
      ∧ snapshot_of (distinct_clients [] clients) r.2
  else r.2 = gpu_snapshot_zero.
Proof.
  unfold lsm_process_gpu_read. cbv zeta. destruct (_ || _); [done|].
  set (path := proc_root +:+ _). destruct (_ <=? _)%nat; [done|].
  destruct directory as [d|]; [|done].
  destruct (read_clients path (fd_entries d) [] gpu_snapshot_zero) as [s|] eqn:E; [|done].
  destruct (fd_readdir_ok d && fd_closedir_ok d) eqn:Eok; [|done]. bool_hyps.
  apply read_clients_spec in E as (clients & Ec & Hall & Hd). cbv zeta in Hd.
  set (distinct := distinct_clients [] clients) in *.
  pose proof (distinct_forall client_ok [] clients Hall) as Hok. fold distinct in Hok.
  destruct Hd as (Hl & Hm & Ha & Hx & Ht). cbn [fst snd].
  rewrite saturating_fold, Z.add_0_l in Hm by (apply memories_u64 || apply u64_zero; done).
  assert (Ht' : ∀ key, engine_time (gs_engines s) key = total_time (times key distinct)).
  { intros key. rewrite Ht. by apply add_time_fold, times_u64. }
  destruct ((0 <? length (gs_engines s))%nat || gs_memory_available s) eqn:Eav; cbn [fst snd].
  - exists d, path, clients. fold distinct. split_and!; try done; [apply Hl; cbn; lia|].
    split_and!; try done. cbn. destruct (gs_engines s); by split.
  - apply orb_false_iff in Eav as [Ee Em]. rewrite Em in Ha. cbn in Ha.
    rewrite no_memory_no_bytes in Hm by done. destruct s as [engines bytes counters memory].
    cbn in *. destruct engines; [|done]. by subst.
Qed.
End accounting.

(** ** The busiest engine *)

Section utilisation.
Context `{ArithmeticOps, TextOps, NumberOps}.

Definition extended (x : ldouble) : Prop := ∀ s m e, x = S754_finite s m e → Z.pos m < 2 ^ 64.

Lemma engine_percent_extended interval previous e v :
  engine_percent interval previous e = Some v → extended v.
Proof.
  unfold engine_percent. destruct (find_engine _ _) as [old|]; [|done]. destruct (_ <? _); [done|].
  intros [= <-] s m ex. apply lddiv_digits.
Qed.

Lemma peak_extended interval previous engines peak :
  (∀ v n, peak = Some (v, n) → extended v) →
  ∀ v n, fold_left (peak_step interval previous) engines peak = Some (v, n) → extended v.
Proof.
  revert peak. induction engines as [|e engines IH]; intros peak Hp; [done|]. apply IH.
  intros v n. unfold peak_step. destruct (engine_percent _ _ e) as [v'|] eqn:E; [|apply Hp].
  apply engine_percent_extended in E. destruct peak as [[v0 n0]|]; [|by intros [= <- _]].
  destruct (SFltb v0 v'); [by intros [= <- _]|apply Hp].
Qed.

(** The clamp of [lsm_process_gpu_calculate_engine], in extended precision. *)
Definition clamp_percent (value : ldouble) : ldouble :=
  let value := if negb (isfinite value) || SFltb value (ldouble_of_Z 0) then ldouble_of_Z 0 else value in
  if SFltb (ldouble_of_Z 100) value then ldouble_of_Z 100 else value.

Lemma clamp_percent_bounds v : extended v → in_percent (double_of_ldouble (clamp_percent v)).
Proof.
  intros Hv. unfold clamp_percent.
  destruct (negb (isfinite v) || SFltb v (ldouble_of_Z 0)) eqn:E; [by vm_compute|].
  destruct (SFltb (ldouble_of_Z 100) v) eqn:E1; [by vm_compute|]. bool_hyps.
  destruct v as [s|s| |s m e]; try done. destruct s; [done|].
  apply double_of_ldouble_percent; [by eapply Hv|done].
Qed.

Lemma find_engine_name s name e : find_engine s name = Some e → ge_name e = name.
Proof. intros Hf. apply find_some in Hf as [_ Hn]. by apply strcmp_eq_true. Qed.

Lemma peak_defined interval previous engines peak :
  (peak = None → ∃ e, e ∈ engines ∧ engine_percent interval previous e ≠ None) →
  fold_left (peak_step interval previous) engines peak ≠ None.
Proof.
  revert peak. induction engines as [|e engines IH]; intros peak Hp; cbn.
  { destruct peak; [done|]. destruct (Hp eq_refl) as (e & He & _). by apply elem_of_nil in He. }
  apply IH. intros Hn. unfold peak_step in Hn.
  destruct (engine_percent interval previous e) as [v|] eqn:E.
  { destruct peak as [[v0 n0]|]; [|done]. by destruct (SFltb v0 v). }
  destruct (Hp Hn) as (e' & [->|He']%elem_of_cons & Hne); [congruence|eauto].
Qed.

Lemma peak_none interval previous engines :
  (∀ e, e ∈ engines → engine_percent interval previous e = None) →
  fold_left (peak_step interval previous) engines None = None.
Proof.
  induction engines as [|e engines IH]; intros Hn; [done|]. cbn. unfold peak_step at 2.
  rewrite Hn by by left. apply IH. intros e' He'. apply Hn. by right.
Qed.

(** A counter held at its high-water mark is never behind the previous one. *)
Lemma normalised_matches interval current previous e :
  e ∈ gs_engines (lsm_process_gpu_normalise current previous) →
  engine_percent interval previous e ≠ None ↔ find_engine previous (ge_name e) ≠ None.
Proof.
  cbn. intros (e0 & -> & He0)%list_elem_of_fmap. unfold engine_percent.
  destruct (find_engine previous (ge_name e0)) as [old|] eqn:E; [|by rewrite E].
  destruct (Z.ltb_spec (ge_time_ns e0) (ge_time_ns old)); cbn; rewrite E.
  - by rewrite Z.ltb_irrefl.
  - by rewrite (proj2 (Z.ltb_ge _ _)) by lia.
Qed.

Lemma normalised_names current previous :
  ge_name <$> gs_engines (lsm_process_gpu_normalise current previous) = ge_name <$> gs_engines current.
Proof.
  cbn. rewrite <-list_fmap_compose. apply list_fmap_ext. intros _ e _. cbn.
  destruct (find_engine _ _); [|done]. by destruct (_ <? _).
Qed.

(** (C40) Graphics utilisation is a percentage, and a normalised snapshot loses
    no engine: whatever the counters and the interval, a published value is
    between 0 and 100 (the extended-precision clamp survives the conversion to
    [double]); and once the temporary decreases the DRM contract allows are held
    at their high-water mark, a value is published exactly when some engine has
    a counter in both snapshots. *)
Theorem gpu_utilisation_bounded_and_defined current previous elapsed engine_size :
  (∀ percent name,
     lsm_process_gpu_calculate_engine current previous elapsed engine_size = Some (percent, name) →
     in_percent percent)
  ∧ (isfinite elapsed = true → dle elapsed d0 = false →
     gs_engine_counters_available current = true → gs_engine_counters_available previous = true →
     lsm_process_gpu_calculate_engine (lsm_process_gpu_normalise current previous) previous elapsed
       engine_size ≠ None
     ↔ ∃ name, name ∈ ge_name <$> gs_engines current ∧ find_engine previous name ≠ None).
Proof.
  split.
  - intros percent name. unfold lsm_process_gpu_calculate_engine. destruct (_ || _); [done|].
    destruct (fold_left _ _ _) as [[v n]|] eqn:E; [|done]. intros [= <- _].
    apply (clamp_percent_bounds v). eapply peak_extended, E. done.
  - intros Hf Hp Hc Hq. unfold lsm_process_gpu_calculate_engine.
    cbn [gs_engine_counters_available lsm_process_gpu_normalise set_field].
    rewrite Hf, Hp, Hc, Hq. cbn [negb orb].
    set (interval := ldmul elapsed _). set (c' := lsm_process_gpu_normalise current previous).
    rewrite <-(normalised_names current previous). fold c'.
    transitivity (fold_left (peak_step interval previous) (gs_engines c') None ≠ None).
    { by destruct (fold_left _ _ _) as [[v n]|]. }
    split.
    + intros Hne. destruct (decide (Exists (λ e, find_engine previous (ge_name e) ≠ None) (gs_engines c')))
        as [(e & He & Hx)%Exists_exists|Hno].
      * exists (ge_name e). split; [by apply list_elem_of_fmap_2|done].
      * exfalso. apply Hne, peak_none. intros e He.
        destruct (engine_percent interval previous e) as [v|] eqn:Ev; [|done].
        exfalso. apply Hno, Exists_exists. exists e. split; [done|].
        apply (normalised_matches interval current previous e He). congruence.
    + intros (name & (e & -> & He)%list_elem_of_fmap & Hx). apply peak_defined. intros _.
      exists e. split; [done|]. by apply (normalised_matches interval current previous e He).
Qed.
End utilisation.

(** ** Witnesses *)

From S2P Require Import CommonReference.

Definition lines (l : list string) : string := foldr (λ s acc, s +:+ String nl acc) EmptyString l.

Definition render_client : string :=
  lines ["drm-driver:	amdgpu"; "drm-pdev:	0000:03:00.0"; "drm-client-id:	7"; "drm-engine-gfx:	1000 ns";
         "drm-memory-vram:	4 kB"].
Definition video_client : string :=
  lines ["drm-driver:	amdgpu"; "drm-pdev:	0000:03:00.0"; "drm-client-id:	9"; "drm-engine-gfx:	500 ns";
         "drm-engine-dec:	20 ns"].

Definition fdinfo (text : string) : option FdinfoFile :=
  Some {| ff_text := text; ff_read_ok := true; ff_close_ok := true |}.

(** Three descriptors, two of them of one client. *)
Definition shared_descriptors : FdinfoDirectory :=
  {| fd_entries := [("3", fdinfo render_client); ("4", fdinfo video_client); ("11", fdinfo render_client);
                    ("socket", None)];
     fd_readdir_ok := true; fd_closedir_ok := true |}.

Definition shared_snapshot : LsmProcessGpuSnapshot :=
  {| gs_engines := [{| ge_name := "amdgpu:0000:03:00.0:gfx"; ge_time_ns := 1500; ge_capacity := 1;
                       ge_time_available := true |};
                    {| ge_name := "amdgpu:0000:03:00.0:dec"; ge_time_ns := 20; ge_capacity := 1;
                       ge_time_available := true |}];
     gs_memory_bytes := 4096; gs_engine_counters_available := true; gs_memory_available := true |}.

Lemma gpu_read_counts_each_client_once_witness :
  lsm_process_gpu_read "/proc" 42 (Some shared_descriptors) = (true, shared_snapshot)
  ∧ ∃ d path clients, Some shared_descriptors = Some d ∧ fd_readdir_ok d = true ∧ fd_closedir_ok d = true
      ∧ fdinfo_clients path (fd_entries d) = Some clients
      ∧ (length (distinct_clients [] clients) ≤ LSM_PROCESS_GPU_MAX_CLIENTS)%nat
      ∧ snapshot_of (distinct_clients [] clients) shared_snapshot.
Proof.
  split; [by vm_compute|]. exact (gpu_read_counts_each_client_once "/proc" 42 (Some shared_descriptors)).
Defined.

Definition later_snapshot : LsmProcessGpuSnapshot :=
  {| gs_engines := [{| ge_name := "amdgpu:0000:03:00.0:gfx"; ge_time_ns := 1400; ge_capacity := 1;
                       ge_time_available := true |};
                    {| ge_name := "amdgpu:0000:03:00.0:dec"; ge_time_ns := 1000000020; ge_capacity := 2;
                       ge_time_available := true |}];
     gs_memory_bytes := 4096; gs_engine_counters_available := true; gs_memory_available := true |}.

Lemma gpu_utilisation_bounded_and_defined_witness :
  lsm_process_gpu_calculate_engine (lsm_process_gpu_normalise later_snapshot shared_snapshot)
    shared_snapshot d1 256 = Some (double_of_Z 50, "dec")
  ∧ in_percent (double_of_Z 50)
  ∧ (lsm_process_gpu_calculate_engine (lsm_process_gpu_normalise later_snapshot shared_snapshot)
       shared_snapshot d1 256 ≠ None
     ↔ ∃ name, name ∈ ge_name <$> gs_engines later_snapshot ∧ find_engine shared_snapshot name ≠ None).
Proof.
  split; [by vm_compute|].
  destruct (gpu_utilisation_bounded_and_defined (lsm_process_gpu_normalise later_snapshot shared_snapshot)
              shared_snapshot d1 256) as [Hb _].
  split; [apply (Hb _ "dec"); by vm_compute|].
  exact (proj2 (gpu_utilisation_bounded_and_defined later_snapshot shared_snapshot d1 256)
           eq_refl eq_refl eq_refl eq_refl).
Defined.
