(* ===== verification/ProcessFiles.v ===== *)
(** * ProcessFiles: the procfs files behind one process row

    Models the per-process readers of [src/src/process_backend_linux.c]: the
    status record, the command line, the control group, the technical details, the
    I/O counters, the descriptor count, and [lsm_process_enrich], which reads the
    expensive ones between two checks of the process's identity.  What a system
    call answered is an argument of the reader: the text of a file ([None] when it
    could not be read), a directory listing, the answer of the user database. *)
From S2P Require Import Prelude Double CStrings Common ProcessModel ProcessStat.
Local Open Scope Z_scope.

(** What [infiltratr_read_text_file_ex] left in a buffer, and whether it
    succeeded. *)
Record FileRead := {
  fr_ok : bool;
  fr_text : string;
}.

(** src: process_backend_linux.c:68-71 LinuxProcessStatus *)
Record LinuxProcessStatus := {
  lu_uid : Z;
  lu_uid_available : bool;
}.

(** src: process_backend_linux.c:111-114 UidNameEntry *)
Record UidNameEntry := {
  un_uid : Z;
  un_name : string;
}.

(** ** Text helpers *)

(** The lines a loop to the end of a text over [strchr(line, '\n')] visits.  Each
    consumes a character, so the length of the text is enough fuel. *)
Fixpoint text_lines_fuel (fuel : nat) (s : string) : list string :=
  match fuel, s with
  | O, _ | _, EmptyString => []
  | S fuel, _ =>
      match split_at nl s with
      | Some (line, rest) => line :: text_lines_fuel fuel rest
      | None => [s]
      end
  end.
Definition text_lines (s : string) : list string := text_lines_fuel (String.length s) s.

Fixpoint string_map (f : ascii → ascii) (s : string) : string :=
  match s with
  | EmptyString => EmptyString
  | String c s => String (f c) (string_map f s)
  end.

(** Drop the trailing characters that satisfy [p]. *)
Fixpoint strip_end (p : ascii → bool) (s : string) : string :=
  match s with
  | EmptyString => EmptyString
  | String c s =>
      match strip_end p s with
      | EmptyString => if p c then EmptyString else String c EmptyString
      | t => String c t
      end
  end.

(** [strstr]: the text behind the first occurrence, and the text before it. *)
Definition strstr (s needle : string) : option (string * string) :=
  match String.index 0 needle s with
  | Some i =>
      let after := (i + String.length needle)%nat in
      Some (String.substring 0 i s, String.substring after (String.length s - after) s)
  | None => None
  end.

Definition char_code (c : ascii) : Z := Z.of_nat (Ascii.nat_of_ascii c).

Section files.
Context `{ArithmeticOps, TextOps, NumberOps}.

(** src: process_backend_linux.c parse_prefixed_u64 *)
Definition parse_prefixed_u64 (line prefix : string) : option Z :=
  if lsm_string_starts_with line prefix then
    let '(ok, _, value) :=
      lsm_parse_u64_token
        (String.substring (String.length prefix) (String.length line - String.length prefix) line) 10 0 in
    if ok : bool then Some value else None
  else None.

(** [lsm_u64_multiply_checked(value, 1024U, &bytes)] *)
Definition kib_bytes (value : Z) : option Z :=
  let '(ok, bytes) := lsm_u64_multiply_checked value 1024 0 in
  if ok : bool then Some bytes else None.

(** [name] is what [getpwuid_r] answered, [None] when it was not called or found
    nothing; [allocated] whether the cache could grow. *)
(** src: process_backend_linux.c resolve_process_user *)
Definition resolve_process_user (cache : list UidNameEntry) (uid : Z) (name : option string)
    (allocated : bool) (process : LsmProcessInfo) : list UidNameEntry * LsmProcessInfo :=
  let process := process <| p_account_identity := snprintf 128 ("uid:" +:+ print_u64 uid) |> in
  match List.find (λ entry, un_uid entry =? uid) cache with
  | Some entry => (cache, process <| p_user := lsm_copy_string 64 (un_name entry) |>)
  | None =>
      let resolved := match name with Some name => lsm_copy_string 64 name | None => EmptyString end in
      let resolved := if nonempty resolved then resolved else snprintf 64 (print_u64 uid) in
      (if allocated then cache ++ [{| un_uid := uid; un_name := lsm_copy_string 64 resolved |}] else cache,
       process <| p_user := lsm_copy_string 64 resolved |>)
  end.

(** The locals of the status loop. *)
(** src: process_backend_linux.c:491-496 read_process_status *)
Record StatusFields := {
  sl_process : LsmProcessInfo;
  sl_uid : option Z;
  sl_voluntary : Z;
  sl_involuntary : Z;
  sl_rss_file_kib : option Z;
  sl_rss_shmem_kib : option Z;
}.
#[export] Instance eta_StatusFields : Eta StatusFields := λ x,
  Build_StatusFields (sl_process x) (sl_uid x) (sl_voluntary x) (sl_involuntary x) (sl_rss_file_kib x)
    (sl_rss_shmem_kib x).

(** src: process_backend_linux.c:502-527 read_process_status *)
Definition status_line (s : StatusFields) (line : string) : StatusFields :=
  match parse_prefixed_u64 line "Uid:" with
  | Some value => s <| sl_uid := Some (wrap 32 value) |>
  | None =>
  match parse_prefixed_u64 line "VmSize:" with
  | Some value =>
      match kib_bytes value with
      | Some bytes => s <| sl_process := sl_process s <| p_virtual_memory_bytes := bytes |>
                                           <| p_virtual_memory_available := true |> |>
      | None => s
      end
  | None =>
  match parse_prefixed_u64 line "VmRSS:" with
  | Some value => s <| sl_process := sl_process s <| p_rss_bytes := default 0 (kib_bytes value) |> |>
  | None =>
  match parse_prefixed_u64 line "RssFile:" with
  | Some value => s <| sl_rss_file_kib := Some value |>
  | None =>
  match parse_prefixed_u64 line "RssShmem:" with
  | Some value => s <| sl_rss_shmem_kib := Some value |>
  | None =>
  match parse_prefixed_u64 line "Threads:" with
  | Some value => s <| sl_process := sl_process s <| p_threads := Z.min value uint_max |> |>
  | None =>
  match parse_prefixed_u64 line "voluntary_ctxt_switches:" with
  | Some value => s <| sl_voluntary := value |>
  | None =>
  match parse_prefixed_u64 line "nonvoluntary_ctxt_switches:" with
  | Some value => s <| sl_involuntary := value |>
  | None => s
  end end end end end end end end.

(** src: process_backend_linux.c read_process_status *)
Definition read_process_status (cache : list UidNameEntry) (text : option string) (name : option string)
    (allocated : bool) (process : LsmProcessInfo)
    : list UidNameEntry * LsmProcessInfo * LinuxProcessStatus :=
  match text with
  | None => (cache, process, {| lu_uid := 0; lu_uid_available := false |})
  | Some text =>
      let s := fold_left status_line (text_lines text)
                 {| sl_process := process; sl_uid := None; sl_voluntary := 0; sl_involuntary := 0;
                    sl_rss_file_kib := None; sl_rss_shmem_kib := None |} in
      let process := sl_process s <| p_context_switches :=
                       lsm_u64_add_saturating (sl_voluntary s) (sl_involuntary s) |> in
      let process :=
        match sl_rss_file_kib s, sl_rss_shmem_kib s with
        | None, None => process
        | file, shmem =>
            match kib_bytes (lsm_u64_add_saturating (default 0 file) (default 0 shmem)) with
            | Some bytes => process <| p_shared_memory_bytes := bytes |>
                                    <| p_shared_memory_available := true |>
            | None => process
            end
        end in
      match sl_uid s with
      | Some uid =>
          let '(cache, process) := resolve_process_user cache uid name allocated process in
          (cache, process, {| lu_uid := uid; lu_uid_available := true |})
      | None => (cache, process, {| lu_uid := 0; lu_uid_available := false |})
      end
  end.

(** A byte of the command line as it is shown. *)
(** src: process_backend_linux.c:572-575 read_process_command *)
Definition command_char (c : ascii) : ascii :=
  if (char_code c <? 32) || (char_code c =? 127) then " "%char else c.

(** [cmdline]: the bytes the successful [read] returned, NULs included. *)
(** src: process_backend_linux.c read_process_command *)
Definition read_process_command (cmdline : option string) (process : LsmProcessInfo) : LsmProcessInfo :=
  let unnamed := process <| p_command := snprintf 1024 ("[" +:+ p_name process +:+ "]") |> in
  match cmdline with
  | None => unnamed
  | Some bytes =>
      if nonempty bytes then
        process <| p_command := strip_end (is_char " ")
                     (string_map command_char (String.substring 0 1023 bytes)) |>
      else unnamed
  end.

(** src: process_backend_linux.c read_process_cgroup *)
Definition read_process_cgroup (text : option string) (process : LsmProcessInfo) : LsmProcessInfo :=
  let process := process <| p_cgroup_path := EmptyString |> <| p_cgroup_v2 := false |> in
  match text with
  | None => process
  | Some text =>
      match List.find (λ line, lsm_string_starts_with line "0::") (strtok_all (is_char nl) text) with
      | None => process
      | Some line =>
          let group := String.substring 3 (String.length line - 3) line in
          let group := if nonempty group then group else "/"%string in
          if (LSM_PATH_LEN <=? String.length group)%nat then process
          else process <| p_cgroup_path := lsm_copy_string LSM_PATH_LEN group |> <| p_cgroup_v2 := true |>
      end
  end.

Definition is_blank_end (c : ascii) : bool :=
  Ascii.eqb c nl || Ascii.eqb c "013" || Ascii.eqb c " " || Ascii.eqb c tab.

(** src: process_backend_linux.c trim_kernel_text *)
Definition trim_kernel_text (text : string) : string :=
  skip (λ c, Ascii.eqb c " " || Ascii.eqb c tab) (strip_end is_blank_end text).

(** What [output] holds afterwards. *)
(** src: process_backend_linux.c read_process_text_field *)
Definition read_process_text_field (file : FileRead) : string :=
  if fr_ok file then trim_kernel_text (fr_text file) else fr_text file.

(** The first [Private_Dirty] line ends the search. *)
(** src: process_backend_linux.c:647-662 read_process_writable_memory *)
Fixpoint writable_lines (lines : list string) (process : LsmProcessInfo) : LsmProcessInfo :=
  match lines with
  | [] => process
  | line :: lines =>
      match parse_prefixed_u64 line "Private_Dirty:" with
      | Some value =>
          match kib_bytes value with
          | Some bytes => process <| p_writable_memory_bytes := bytes |>
                                  <| p_writable_memory_available := true |>
          | None => process
          end
      | None => writable_lines lines process
      end
  end.

(** src: process_backend_linux.c:637-663 read_process_writable_memory *)
Definition read_process_writable_memory (text : option string) (process : LsmProcessInfo)
    : LsmProcessInfo :=
  match text with
  | None => process
  | Some text => writable_lines (text_lines text) process
  end.

(** src: process_backend_linux.c safe_session_identifier *)
Definition safe_session_identifier (session : string) : bool :=
  nonempty session
  && string_forallb (λ c, lsm_ascii_is_alnum c || Ascii.eqb c "-" || Ascii.eqb c "_") session.

(** src: process_backend_linux.c:680-683 derive_systemd_process_identity *)
Definition derive_unit (process : LsmProcessInfo) : LsmProcessInfo :=
  let path := p_cgroup_path process in
  let last := match split_last "/" path with Some (_, last) => last | None => path end in
  if nonempty last && (String.length last <? 128)%nat
  then process <| p_unit := lsm_copy_string 128 last |> else process.

(** src: process_backend_linux.c:685-696 derive_systemd_process_identity *)
Definition derive_session (process : LsmProcessInfo) : LsmProcessInfo :=
  match strstr (p_cgroup_path process) "/session-" with
  | Some (_, rest) =>
      match strstr rest ".scope" with
      | Some (session, _) =>
          if nonempty session && (String.length session <? 64)%nat
          then process <| p_session := session |> else process
      | None => process
      end
  | None => process
  end.

(** src: process_backend_linux.c:698-699 derive_systemd_process_identity *)
Definition derive_owner (process : LsmProcessInfo) : LsmProcessInfo :=
  if nonempty (p_user process)
  then process <| p_owner := lsm_copy_string 64 (p_user process) |> else process.

(** src: process_backend_linux.c:713-716 derive_systemd_process_identity *)
Definition session_line (process : LsmProcessInfo) (line : string) : LsmProcessInfo :=
  let value := String.substring 5 (String.length line - 5) line in
  if lsm_string_starts_with line "SEAT=" then process <| p_seat := lsm_copy_string 64 value |>
  else if lsm_string_starts_with line "USER=" then process <| p_owner := lsm_copy_string 64 value |>
  else process.

(** [session_file] maps an identifier to the text of its file under
    [/run/systemd/sessions]. *)
(** src: process_backend_linux.c derive_systemd_process_identity *)
Definition derive_systemd_process_identity (session_file : string → option string)
    (process : LsmProcessInfo) : LsmProcessInfo :=
  if negb (nonempty (p_cgroup_path process)) then process else
  let process := derive_owner (derive_session (derive_unit process)) in
  if negb (safe_session_identifier (p_session process)) then process else
  match session_file (p_session process) with
  | None => process
  | Some text => fold_left session_line (strtok_all (is_char nl) text) process
  end.

(** The answers behind [lsm_process_enrich], in the order it asks. *)
Record EnrichFiles := {
  ef_stat_before : option string * string;   (** the record and the stale bytes behind it *)
  ef_exe : option string;
  ef_fds : option (list string * bool * bool);  (** entries, [readdir] and [closedir] succeeded *)
  ef_cgroup : option string;
  ef_wchan : FileRead;
  ef_security : FileRead;
  ef_smaps : option string;
  ef_session : string → option string;
  ef_stat_after : option string * string;
}.

(** src: process_backend_linux.c read_process_technical *)
Definition read_process_technical (files : EnrichFiles) (process : LsmProcessInfo) : LsmProcessInfo :=
  let channel := read_process_text_field (ef_wchan files) in
  let process := process <| p_waiting_channel := if strcmp_eq channel "0" then EmptyString else channel |>
                         <| p_security_context := read_process_text_field (ef_security files) |> in
  derive_systemd_process_identity (ef_session files)
    (read_process_writable_memory (ef_smaps files) process).

(** src: process_backend_linux.c:750-757 read_process_io *)
Definition io_line (s : LsmProcessInfo * bool * bool) (line : string) : LsmProcessInfo * bool * bool :=
  let '(process, have_read, have_write) := s in
  match parse_prefixed_u64 line "read_bytes:" with
  | Some value => (process <| p_read_bytes := value |>, true, have_write)
  | None =>
  match parse_prefixed_u64 line "write_bytes:" with
  | Some value => (process <| p_write_bytes := value |>, have_read, true)
  | None => s
  end end.

(** src: process_backend_linux.c read_process_io *)
Definition read_process_io (text : option string) (process : LsmProcessInfo) : bool * LsmProcessInfo :=
  match text with
  | None => (false, process)
  | Some text =>
      let '(process, have_read, have_write) :=
        fold_left io_line (text_lines text) (process, false, false) in
      (have_read && have_write, process)
  end.

(** [target]: what [readlink] returned into the 511 bytes it was given. *)
(** src: process_backend_linux.c read_process_executable *)
Definition read_process_executable (target : option string) (process : LsmProcessInfo) : LsmProcessInfo :=
  process <| p_executable := match target with Some path => path | None => EmptyString end |>.

(** src: process_backend_linux.c:789-808 count_process_fds *)
Fixpoint count_entries (names : list string) (value : Z) (complete : bool) : Z * bool :=
  match names with
  | [] => (value, complete)
  | name :: names =>
      if strcmp_eq name "." || strcmp_eq name ".." then count_entries names value complete
      else if value =? uint_max then count_entries names value false
      else count_entries names (value + 1) complete
  end.

(** The result and the outgoing [*count]. *)
(** src: process_backend_linux.c count_process_fds *)
Definition count_process_fds (directory : option (list string * bool * bool)) : bool * Z :=
  match directory with
  | None => (false, 0)
  | Some (names, readdir_ok, closedir_ok) =>
      let '(value, complete) := count_entries names 0 true in
      if complete && readdir_ok && closedir_ok then (true, value) else (false, 0)
  end.

Definition has_flag (flags flag : Z) : bool := negb (Z.land flags flag =? 0).

(** [process_identity_pid] on the record it reads. *)
(** src: process_backend_linux.c process_identity_pid *)
Definition identity_holds (stat : option string * string) (process_id instance_id : Z) : bool :=
  negb ((process_id =? 0) || (int_max <? process_id)) && negb (instance_id =? 0)
  && match read_process_stat stat.1 stat.2 (process_zero <| p_pid := process_id |>) with
     | Some (_, native) => ls_start_ticks native =? instance_id
     | None => false
     end.

(** What is withdrawn when the identity was lost while the files were read. *)
(** src: process_backend_linux.c:841-860 lsm_process_enrich *)
Definition enrich_withdraw (scan_flags : Z) (process : LsmProcessInfo) : LsmProcessInfo :=
  let process := if has_flag scan_flags LSM_PROCESS_SCAN_EXECUTABLE
                 then process <| p_executable := EmptyString |> else process in
  let process := if has_flag scan_flags LSM_PROCESS_SCAN_HANDLE_COUNT
                 then process <| p_handle_count := 0 |> <| p_handle_count_available := false |>
                 else process in
  let process := if has_flag scan_flags LSM_PROCESS_SCAN_CGROUP
                 then process <| p_cgroup_path := EmptyString |> <| p_cgroup_v2 := false |>
                 else process in
  if has_flag scan_flags LSM_PROCESS_SCAN_TECHNICAL
  then process <| p_waiting_channel := EmptyString |> <| p_security_context := EmptyString |>
               <| p_unit := EmptyString |> <| p_session := EmptyString |> <| p_seat := EmptyString |>
               <| p_owner := EmptyString |> <| p_writable_memory_bytes := 0 |>
               <| p_writable_memory_available := false |>
  else process.

(** src: process_backend_linux.c:828-838 lsm_process_enrich *)
Definition enrich_read (files : EnrichFiles) (scan_flags : Z) (process : LsmProcessInfo) : LsmProcessInfo :=
  let process := if has_flag scan_flags LSM_PROCESS_SCAN_EXECUTABLE
                 then read_process_executable (ef_exe files) process else process in
  let process := if has_flag scan_flags LSM_PROCESS_SCAN_HANDLE_COUNT
                 then let '(available, count) := count_process_fds (ef_fds files) in
                      process <| p_handle_count := count |> <| p_handle_count_available := available |>
                 else process in
  let process := if has_flag scan_flags LSM_PROCESS_SCAN_CGROUP
                    || (has_flag scan_flags LSM_PROCESS_SCAN_TECHNICAL
                        && negb (nonempty (p_cgroup_path process)))
                 then read_process_cgroup (ef_cgroup files) process else process in
  if has_flag scan_flags LSM_PROCESS_SCAN_TECHNICAL then read_process_technical files process else process.

(** src: process_backend_linux.c lsm_process_enrich *)
Definition lsm_process_enrich (files : EnrichFiles) (process_id : Z) (process : LsmProcessInfo)
    (scan_flags : Z) : bool * LsmProcessInfo :=
  if negb (p_pid process =? process_id)
     || negb (identity_holds (ef_stat_before files) process_id (p_instance_id process))
  then (false, process) else
  let process := enrich_read files scan_flags process in
  if identity_holds (ef_stat_after files) process_id (p_instance_id process) then (true, process)
  else (false, enrich_withdraw scan_flags process).
End files.

(** ** What the readers leave alone *)

(** The identity and the rates of a row, which only the scan itself sets. *)
Definition row_core (p : LsmProcessInfo) : Z * Z * double * double * double * bool :=
  (p_pid p, p_instance_id p, p_cpu_percent p, p_read_bytes_per_sec p, p_write_bytes_per_sec p,
   p_io_rate_available p).

(** The I/O totals of a row, which only its I/O record sets. *)
Definition row_totals (p : LsmProcessInfo) : Z * Z * bool :=
  (p_read_bytes p, p_write_bytes p, p_io_totals_available p).

(** What everything but the scan and the I/O record leaves alone. *)
Definition row_frame (p : LsmProcessInfo) : Z * Z * double * double * double * bool * (Z * Z * bool) :=
  (row_core p, row_totals p).

Create Rewrite HintDb row_core.

Section core.
Context `{ArithmeticOps, TextOps, NumberOps}.

Lemma fold_left_frame {A} (f : LsmProcessInfo → A → LsmProcessInfo) l p :
  (∀ p x, row_frame (f p x) = row_frame p) → row_frame (fold_left f l p) = row_frame p.
Proof. intros Hf. revert p. induction l as [|x l IH]; intros p; [done|]. cbn. by rewrite IH. Qed.

Lemma status_line_core s line : row_core (sl_process (status_line s line)) = row_core (sl_process s).
Proof. unfold status_line. repeat case_goal; reflexivity. Qed.

Lemma resolve_user_core cache uid name allocated p :
  row_core (resolve_process_user cache uid name allocated p).2 = row_core p.
Proof. unfold resolve_process_user. by destruct (List.find _ _). Qed.

Lemma status_core cache text name allocated p :
  row_core (read_process_status cache text name allocated p).1.2 = row_core p.
Proof.
  unfold read_process_status. destruct text as [text|]; [|done].
  set (s := fold_left _ _ _).
  assert (row_core (sl_process s) = row_core p) as Hs.
  { unfold s. change p with (sl_process {| sl_process := p; sl_uid := None; sl_voluntary := 0;
      sl_involuntary := 0; sl_rss_file_kib := None; sl_rss_shmem_kib := None |}) at 2.
    generalize ({| sl_process := p; sl_uid := None; sl_voluntary := 0;
      sl_involuntary := 0; sl_rss_file_kib := None; sl_rss_shmem_kib := None |}).
    induction (text_lines text) as [|l ls IH]; intros s0; [done|]. cbn. by rewrite IH, status_line_core. }
  clearbody s. cbv zeta.
  match goal with |- context [resolve_process_user _ _ _ _ ?p'] => set (q := p') end.
  assert (row_core q = row_core p) as Hq.
  { rewrite <-Hs. unfold q. destruct (sl_rss_file_kib s), (sl_rss_shmem_kib s); try done;
      by destruct (kib_bytes _). }
  destruct (sl_uid s) as [uid|]; [|done].
  pose proof (resolve_user_core cache uid name allocated q) as Hr.
  destruct (resolve_process_user cache uid name allocated q). cbn in *. congruence.
Qed.

Lemma command_core cmdline p : row_core (read_process_command cmdline p) = row_core p.
Proof. unfold read_process_command. destruct cmdline as [b|]; [|done]. by destruct (nonempty b). Qed.

Lemma cgroup_frame text p : row_frame (read_process_cgroup text p) = row_frame p.
Proof. unfold read_process_cgroup. repeat case_goal; reflexivity. Qed.

Lemma executable_core target p : row_core (read_process_executable target p) = row_core p.
Proof. done. Qed.

Lemma writable_frame text p : row_frame (read_process_writable_memory text p) = row_frame p.
Proof.
  destruct text as [text|]; [|done]. cbn. induction (text_lines text) as [|l ls IH]; [done|]. cbn.
  destruct (parse_prefixed_u64 l "Private_Dirty:") as [v|]; [|done]. by destruct (kib_bytes v).
Qed.

Lemma derive_frame session p : row_frame (derive_systemd_process_identity session p) = row_frame p.
Proof.
  unfold derive_systemd_process_identity. cbv zeta. destruct (negb _); [done|].
  assert (row_frame (derive_owner (derive_session (derive_unit p))) = row_frame p) as Hd.
  { unfold derive_owner, derive_session, derive_unit. repeat case_goal; reflexivity. }
  destruct (negb _); [done|]. destruct (session _); [|done].
  rewrite fold_left_frame; [done|]. intros r l. unfold session_line. by repeat case_goal.
Qed.

Lemma technical_frame files p : row_frame (read_process_technical files p) = row_frame p.
Proof. unfold read_process_technical. by rewrite derive_frame, writable_frame. Qed.

Lemma io_core text p : row_core (read_process_io text p).2 = row_core p.
Proof.
  destruct text as [text|]; [|done]. cbn.
  assert (∀ l s, row_core (fold_left io_line l s).1.1 = row_core s.1.1) as Hf.
  { induction l as [|x l IH]; intros [[q a] b]; [done|]. cbn [fold_left]. rewrite IH. cbn.
    by repeat case_goal. }
  specialize (Hf (text_lines text) (p, false, false)).
  by destruct (fold_left io_line _ _) as [[q a] b].
Qed.

Lemma enrich_read_frame files flags p : row_frame (enrich_read files flags p) = row_frame p.
Proof.
  unfold enrich_read. cbv zeta.
  set (q1 := if has_flag flags LSM_PROCESS_SCAN_EXECUTABLE then _ else _).
  assert (row_frame q1 = row_frame p) as C1 by (unfold q1; by destruct (has_flag _ _)). clearbody q1.
  set (q2 := if has_flag flags LSM_PROCESS_SCAN_HANDLE_COUNT then _ else _).
  assert (row_frame q2 = row_frame p) as C2.
  { unfold q2. destruct (has_flag _ _); [|done]. by destruct (count_process_fds _). }
  clearbody q2.
  set (q3 := if _ || _ then _ else _).
  assert (row_frame q3 = row_frame p) as C3.
  { unfold q3. destruct (_ || _); [|done]. by rewrite cgroup_frame. }
  clearbody q3. destruct (has_flag _ _); [|done]. by rewrite technical_frame.
Qed.

Lemma enrich_withdraw_frame flags p : row_frame (enrich_withdraw flags p) = row_frame p.
Proof. unfold enrich_withdraw. by repeat case_goal. Qed.

Lemma enrich_frame files pid p flags : row_frame (lsm_process_enrich files pid p flags).2 = row_frame p.
Proof.
  unfold lsm_process_enrich. destruct (_ || _); [done|].
  destruct (identity_holds _ _ _); cbn; by rewrite ?enrich_withdraw_frame, ?enrich_read_frame.
Qed.

(** The totals of an I/O record: the last value of each of its two counters, when
    it has both.  A line counts as read bytes first. *)
Definition read_counter (line : string) : option Z := parse_prefixed_u64 line "read_bytes:".
Definition write_counter (line : string) : option Z :=
  match read_counter line with None => parse_prefixed_u64 line "write_bytes:" | Some _ => None end.
Definition io_totals (text : option string) : option (Z * Z) :=
  text ← text;
  read ← last (omap read_counter (text_lines text));
  write ← last (omap write_counter (text_lines text));
  Some (read, write).

Lemma io_line_counters p have_read have_write line : io_line (p, have_read, have_write) line =
  match read_counter line, write_counter line with
  | Some value, _ => (p <| p_read_bytes := value |>, true, have_write)
  | None, Some value => (p <| p_write_bytes := value |>, have_read, true)
  | None, None => (p, have_read, have_write)
  end.
Proof. unfold io_line, write_counter, read_counter. by destruct (parse_prefixed_u64 line "read_bytes:"). Qed.

Lemma write_counter_exclusive line value : read_counter line = Some value → write_counter line = None.
Proof. unfold write_counter. by intros ->. Qed.

Lemma io_lines_totals lines p have_read have_write :
  let '(p', have_read', have_write') := fold_left io_line lines (p, have_read, have_write) in
  p_read_bytes p' = default (p_read_bytes p) (last (omap read_counter lines))
  ∧ p_write_bytes p' = default (p_write_bytes p) (last (omap write_counter lines))
  ∧ have_read' = have_read || bool_decide (is_Some (last (omap read_counter lines)))
  ∧ have_write' = have_write || bool_decide (is_Some (last (omap write_counter lines))).
Proof.
  revert p have_read have_write. induction lines as [|line lines IH]; intros p have_read have_write.
  { cbn. by rewrite !orb_false_r. }
  cbn [fold_left]. rewrite io_line_counters. cbn [omap list_omap].
  destruct (read_counter line) as [value|] eqn:Er.
  - rewrite (write_counter_exclusive _ _ Er). specialize (IH (p <| p_read_bytes := value |>) true have_write).
    destruct (fold_left _ _ _) as [[p' a] b]. destruct IH as (-> & -> & -> & ->).
    rewrite last_cons. destruct (last (omap read_counter lines)); cbn; by rewrite ?orb_true_r.
  - destruct (write_counter line) as [value|].
    + specialize (IH (p <| p_write_bytes := value |>) have_read true).
      destruct (fold_left _ _ _) as [[p' a] b]. destruct IH as (-> & -> & -> & ->).
      rewrite last_cons. destruct (last (omap write_counter lines)); cbn; by rewrite ?orb_true_r.
    + specialize (IH p have_read have_write). by destruct (fold_left _ _ _) as [[p' a] b].
Qed.

Lemma io_totals_spec text p :
  let '(available, p') := read_process_io text p in
  (if available : bool then Some (p_read_bytes p', p_write_bytes p') else None) = io_totals text.
Proof.
  destruct text as [text|]; [|done]. cbn [read_process_io io_totals mbind option_bind].
  pose proof (io_lines_totals (text_lines text) p false false) as Hl.
  destruct (fold_left _ _ _) as [[p' a] b]. destruct Hl as (-> & -> & -> & ->).
  by destruct (last (omap read_counter _)), (last (omap write_counter _)).
Qed.

Lemma frame_core p q : row_frame p = row_frame q → row_core p = row_core q ∧ row_totals p = row_totals q.
Proof. intros E. split; [exact (f_equal fst E)|exact (f_equal snd E)]. Qed.

Lemma enrich_read_core files flags p : row_core (enrich_read files flags p) = row_core p.
Proof. by apply frame_core, enrich_read_frame. Qed.

Lemma enrich_core files pid p flags : row_core (lsm_process_enrich files pid p flags).2 = row_core p.
Proof. by apply frame_core, enrich_frame. Qed.

(** ** Enrichment belongs to one instance *)

(** The requested details are withdrawn. *)
Record withdrawn (flags : Z) (p : LsmProcessInfo) : Prop := {
  wd_executable : has_flag flags LSM_PROCESS_SCAN_EXECUTABLE = true → p_executable p = EmptyString;
  wd_handles : has_flag flags LSM_PROCESS_SCAN_HANDLE_COUNT = true →
    p_handle_count p = 0 ∧ p_handle_count_available p = false;
  wd_cgroup : has_flag flags LSM_PROCESS_SCAN_CGROUP = true →
    p_cgroup_path p = EmptyString ∧ p_cgroup_v2 p = false;
  wd_technical : has_flag flags LSM_PROCESS_SCAN_TECHNICAL = true →
    p_waiting_channel p = EmptyString ∧ p_security_context p = EmptyString ∧ p_unit p = EmptyString
    ∧ p_session p = EmptyString ∧ p_seat p = EmptyString ∧ p_owner p = EmptyString
    ∧ p_writable_memory_available p = false;
}.

(** Whoever has the PID when its record is read. *)
Definition occupant (stat : option string * string) (pid : Z) : option Z :=
  (λ r, ls_start_ticks r.2) <$> read_process_stat stat.1 stat.2 (process_zero <| p_pid := pid |>).

Lemma identity_holds_occupant stat pid instance :
  identity_holds stat pid instance = true → occupant stat pid = Some instance.
Proof.
  unfold identity_holds, occupant. intros [_ Hr]%andb_true_iff.
  destruct (read_process_stat _ _ _) as [[p native]|]; [|done]. apply Z.eqb_eq in Hr. cbn. by rewrite Hr.
Qed.

(** The reads of one call: [world] is what the files of the PID say as time goes
    on, [t i] the time of the [i]-th access. *)
Definition files_over (world : nat → EnrichFiles) (t : nat → nat) : EnrichFiles :=
  {| ef_stat_before := ef_stat_before (world (t 0%nat));
     ef_exe := ef_exe (world (t 1%nat)); ef_fds := ef_fds (world (t 2%nat));
     ef_cgroup := ef_cgroup (world (t 3%nat)); ef_wchan := ef_wchan (world (t 4%nat));
     ef_security := ef_security (world (t 5%nat)); ef_smaps := ef_smaps (world (t 6%nat));
     ef_session := ef_session (world (t 7%nat));
     ef_stat_after := ef_stat_before (world (t 8%nat)) |}.

(** The kernel's identity of a process: a PID given up is not held by the same
    instance again. *)
Definition instances_contiguous (world : nat → EnrichFiles) (pid : Z) : Prop :=
  ∀ i j k x, (i <= j <= k)%nat → occupant (ef_stat_before (world i)) pid = Some x →
    occupant (ef_stat_before (world k)) pid = Some x → occupant (ef_stat_before (world j)) pid = Some x.

(** The entries of a descriptor directory that are descriptors. *)
Definition descriptors (names : list string) : list string :=
  List.filter (λ name, negb (strcmp_eq name "." || strcmp_eq name "..")) names.

Lemma count_entries_spec names value :
  0 <= value → value + Z.of_nat (length (descriptors names)) <= uint_max →
  count_entries names value true = (value + Z.of_nat (length (descriptors names)), true).
Proof.
  revert value. induction names as [|name names IH]; intros value Hlow.
  { intros _. cbn. by rewrite Z.add_0_r. }
  cbn [count_entries]. unfold descriptors in *. cbn [List.filter].
  destruct (strcmp_eq name "." || strcmp_eq name ".."); cbn [negb]; [by apply IH|].
  cbn [length]. intros Hmax. rewrite (proj2 (Z.eqb_neq value uint_max)) by lia.
  rewrite IH by lia. f_equal. lia.
Qed.

(** What is withdrawn of the technical details. *)
Definition no_technical (p : LsmProcessInfo) : LsmProcessInfo :=
  p <| p_waiting_channel := EmptyString |> <| p_security_context := EmptyString |>
    <| p_unit := EmptyString |> <| p_session := EmptyString |> <| p_seat := EmptyString |>
    <| p_owner := EmptyString |> <| p_writable_memory_bytes := 0 |>
    <| p_writable_memory_available := false |>.

Lemma derive_no_technical session p :
  no_technical (derive_systemd_process_identity session p) = no_technical p.
Proof.
  unfold derive_systemd_process_identity. cbv zeta. destruct (negb _); [done|].
  assert (no_technical (derive_owner (derive_session (derive_unit p))) = no_technical p) as Hd.
  { unfold derive_owner, derive_session, derive_unit. repeat case_goal; reflexivity. }
  destruct (negb _); [done|]. destruct (session _) as [text|]; [|done].
  rewrite <-Hd. generalize (derive_owner (derive_session (derive_unit p))).
  induction (strtok_all _ text) as [|l ls IH]; intros q; [done|]. cbn [fold_left]. rewrite IH.
  unfold session_line. by repeat case_goal.
Qed.

Lemma technical_no_technical files p : no_technical (read_process_technical files p) = no_technical p.
Proof.
  unfold read_process_technical. cbv zeta. rewrite derive_no_technical.
  destruct (ef_smaps files) as [text|]; [|done]. cbn.
  induction (text_lines text) as [|l ls IH]; [done|]. cbn.
  destruct (parse_prefixed_u64 l "Private_Dirty:") as [v|]; [|done]. by destruct (kib_bytes v).
Qed.

(** A call that lost the identity leaves nothing it read, except for the control
    group when only the technical details were asked for. *)
Lemma withdraw_read files flags p :
  enrich_withdraw flags (enrich_read files flags p)
  = enrich_withdraw flags
      (if has_flag flags LSM_PROCESS_SCAN_TECHNICAL && negb (has_flag flags LSM_PROCESS_SCAN_CGROUP)
          && negb (nonempty (p_cgroup_path p))
       then read_process_cgroup (ef_cgroup files) p else p).
Proof.
  assert (∀ q q', no_technical q = no_technical q' →
    has_flag flags LSM_PROCESS_SCAN_TECHNICAL = true → enrich_withdraw flags q = enrich_withdraw flags q') as Ht.
  { intros q q' E Hf. unfold enrich_withdraw. rewrite Hf. cbv zeta.
    destruct q, q'; unfold no_technical in E; cbn in E; injection E as; subst.
    by repeat case_goal. }
  assert (∃ path v2, ∀ q, read_process_cgroup (ef_cgroup files) q
            = q <| p_cgroup_path := path |> <| p_cgroup_v2 := v2 |>) as (path & v2 & Hg).
  { eexists (p_cgroup_path (read_process_cgroup (ef_cgroup files) p)),
      (p_cgroup_v2 (read_process_cgroup (ef_cgroup files) p)).
    intros q. unfold read_process_cgroup. cbv zeta. by repeat case_goal. }
  unfold enrich_read. cbv zeta.
  match goal with |- enrich_withdraw _ (if _ then read_process_technical _ ?q else _) = _ => set (r := q) end.
  transitivity (enrich_withdraw flags r).
  { destruct (has_flag flags LSM_PROCESS_SCAN_TECHNICAL) eqn:Hf; [|done]. apply Ht; [|done].
    apply technical_no_technical. }
  clear Ht. subst r. unfold enrich_withdraw.
  destruct (count_process_fds (ef_fds files)) as [available count].
  destruct (has_flag flags LSM_PROCESS_SCAN_EXECUTABLE), (has_flag flags LSM_PROCESS_SCAN_HANDLE_COUNT),
    (has_flag flags LSM_PROCESS_SCAN_CGROUP), (has_flag flags LSM_PROCESS_SCAN_TECHNICAL); cbn [orb andb negb];
    cbv zeta.
  all: rewrite ?Hg; repeat case_goal; try reflexivity; unfold read_process_executable in *; cbn in *; congruence.
Qed.

(** What enrichment reports for the executable and the descriptors. *)
Lemma enrich_read_details files flags p :
  let q := enrich_read files flags p in
  p_executable q = (if has_flag flags LSM_PROCESS_SCAN_EXECUTABLE then default EmptyString (ef_exe files)
                    else p_executable p)
  ∧ (p_handle_count_available q, p_handle_count q)
    = (if has_flag flags LSM_PROCESS_SCAN_HANDLE_COUNT then count_process_fds (ef_fds files)
       else (p_handle_count_available p, p_handle_count p)).
Proof.
  assert (∀ q text, p_executable (read_process_cgroup text q) = p_executable q
    ∧ p_handle_count_available (read_process_cgroup text q) = p_handle_count_available q
    ∧ p_handle_count (read_process_cgroup text q) = p_handle_count q) as Hg
    by (intros q text; unfold read_process_cgroup; cbv zeta; by repeat case_goal).
  assert (∀ q, p_executable (read_process_technical files q) = p_executable q
    ∧ p_handle_count_available (read_process_technical files q) = p_handle_count_available q
    ∧ p_handle_count (read_process_technical files q) = p_handle_count q) as Ht.
  { intros q. pose proof (technical_no_technical files q) as E.
    split_and!; [apply (f_equal p_executable) in E|apply (f_equal p_handle_count_available) in E
                |apply (f_equal p_handle_count) in E]; exact E. }
  cbv zeta. unfold enrich_read. cbv zeta.
  match goal with |- context [if _ || _ then read_process_cgroup _ _ else ?q0] => set (q := q0) end.
  assert (p_executable q = (if has_flag flags LSM_PROCESS_SCAN_EXECUTABLE then default EmptyString (ef_exe files)
                    else p_executable p)
    ∧ (p_handle_count_available q, p_handle_count q)
    = (if has_flag flags LSM_PROCESS_SCAN_HANDLE_COUNT then count_process_fds (ef_fds files)
       else (p_handle_count_available p, p_handle_count p))) as [<- <-].
  { unfold q. destruct (count_process_fds _).
    by destruct (has_flag flags LSM_PROCESS_SCAN_EXECUTABLE), (has_flag flags LSM_PROCESS_SCAN_HANDLE_COUNT). }
  clearbody q.
  set (q' := if _ || _ then _ else q).
  assert (p_executable q' = p_executable q ∧ p_handle_count_available q' = p_handle_count_available q
    ∧ p_handle_count q' = p_handle_count q) as (<- & <- & <-)
    by (unfold q'; destruct (_ || _); [apply Hg|done]).
  clearbody q'. destruct (has_flag _ _); [|done]. by destruct (Ht q') as (-> & -> & ->).
Qed.

(** (C32) The expensive details of a row come from the process instance the row
    is about, whatever PID reuse happens between the reads.  When enrichment
    reports success the PID belonged to that instance at every one of its reads:
    the executable shown is then the link target the instance had, the handle
    count the number of its descriptors.  When the PID is not the instance's at
    the start nothing of the row changes.  When the instance is gone at the end
    the requested details are withdrawn and the row is what it is without having
    read anything - with one exception: asked for technical details only, a row
    that had no control group keeps the one read meanwhile. *)
Theorem enrich_is_of_one_instance world t pid process flags :
  instances_contiguous world pid → (∀ i j, (i <= j)%nat → (t i <= t j)%nat) →
  let r := lsm_process_enrich (files_over world t) pid process flags in
  (r.1 = true →
     p_pid process = pid
     ∧ (∀ i, (i <= 8)%nat → occupant (ef_stat_before (world (t i))) pid = Some (p_instance_id process))
     ∧ p_pid r.2 = pid ∧ p_instance_id r.2 = p_instance_id process
     ∧ p_executable r.2 = (if has_flag flags LSM_PROCESS_SCAN_EXECUTABLE
                           then default EmptyString (ef_exe (world (t 1%nat))) else p_executable process)
     ∧ (has_flag flags LSM_PROCESS_SCAN_HANDLE_COUNT = true →
        ∀ names, ef_fds (world (t 2%nat)) = Some (names, true, true) →
          Z.of_nat (length (descriptors names)) <= uint_max →
          p_handle_count_available r.2 = true ∧ p_handle_count r.2 = Z.of_nat (length (descriptors names))))
  ∧ (p_pid process ≠ pid ∨ occupant (ef_stat_before (world (t 0%nat))) pid ≠ Some (p_instance_id process) →
     r = (false, process))
  ∧ (occupant (ef_stat_before (world (t 8%nat))) pid ≠ Some (p_instance_id process) →
     r = (false, process)
     ∨ (r.1 = false ∧ withdrawn flags r.2 ∧
        let exception := has_flag flags LSM_PROCESS_SCAN_TECHNICAL
                         && negb (has_flag flags LSM_PROCESS_SCAN_CGROUP)
                         && negb (nonempty (p_cgroup_path process)) in
        r.2 = enrich_withdraw flags
                (if exception then process <| p_cgroup_path := p_cgroup_path r.2 |> <| p_cgroup_v2 := p_cgroup_v2 r.2 |>
                 else process))).
Proof.
  intros Hlife Ht. cbv zeta. set (files := files_over world t). unfold lsm_process_enrich.
  pose proof (enrich_read_core files flags process) as Hc.
  assert (p_instance_id (enrich_read files flags process) = p_instance_id process) as Hi
    by (unfold row_core in Hc; congruence).
  rewrite Hi. destruct (Z.eqb_spec (p_pid process) pid) as [Hp|Hp]; cbn [negb orb].
  2:{ split_and!; [done|done|by left]. }
  destruct (identity_holds (ef_stat_before files) pid _) eqn:Hb; cbn [negb].
  2:{ split_and!; [done|done|by left]. }
  apply identity_holds_occupant in Hb.
  destruct (identity_holds (ef_stat_after files) pid _) eqn:Ha; cbn [fst snd].
  - apply identity_holds_occupant in Ha. split_and!; [|by intros [?|?]|done].
    intros _. destruct (enrich_read_details files flags process) as [He Hd].
    split_and!; [done| |unfold row_core in Hc; congruence|done|done|].
    + intros i Hi8. apply (Hlife (t 0%nat) (t i) (t 8%nat)); [split; apply Ht; lia|done|done].
    + intros Hf names Hnames Hmax.
      assert (ef_fds files = Some (names, true, true)) as Ef by exact Hnames.
      rewrite Hf, Ef in Hd. unfold count_process_fds in Hd. rewrite (count_entries_spec names 0) in Hd by lia.
      by injection Hd as -> ->.
  - split_and!; [done|by intros [?|?]|]. intros _. right. split; [done|]. split.
    { unfold enrich_withdraw. split; intros ->; cbv zeta; repeat case_goal; done. }
    rewrite withdraw_read. destruct (has_flag flags LSM_PROCESS_SCAN_TECHNICAL
      && negb (has_flag flags LSM_PROCESS_SCAN_CGROUP) && negb (nonempty (p_cgroup_path process))) eqn:E; [|done].
    bool_hyps. unfold enrich_withdraw. repeat case_goal; try congruence.
    all: unfold read_process_cgroup; cbv zeta; repeat case_goal; reflexivity.
Qed.
End core.

#[export] Hint Rewrite @status_core @command_core @executable_core @io_core @enrich_core
  : row_core.

(** ** Witness, and a gap *)

From S2P Require Import CommonReference.

(** The record of a process with the given start time. *)
Definition stat_started (start : Z) : option string * string :=
  (Some ("42 (a) S 1 42 42 0 -1 0 0 0 0 0 0 0 0 0 20 0 1 0 " +:+ print_u64 start), EmptyString).

Definition enrich_files (before after : Z) (group : string) : EnrichFiles :=
  {| ef_stat_before := stat_started before; ef_exe := Some "/usr/bin/b"%string;
     ef_fds := Some ([".";".."; "0"; "1"], true, true)%string;
     ef_cgroup := Some group; ef_wchan := {| fr_ok := true; fr_text := "futex_wait" |};
     ef_security := {| fr_ok := true; fr_text := "unconfined" |}; ef_smaps := None;
     ef_session := λ _, None; ef_stat_after := stat_started after |}.

Definition row_42 : LsmProcessInfo := process_zero <| p_pid := 42 |> <| p_instance_id := 100 |>.

(** PID 42 is instance 100 until time 4 and instance 200 from then on. *)
Definition reused_world (i : nat) : EnrichFiles :=
  if (i <=? 4)%nat then enrich_files 100 100 "0::/system.slice/a.service"
  else enrich_files 200 200 "0::/system.slice/b.service".

Lemma reused_occupant i : occupant (ef_stat_before (reused_world i)) 42 = Some (if (i <=? 4)%nat then 100 else 200).
Proof. unfold reused_world. by destruct (i <=? 4)%nat; vm_compute. Qed.

Lemma reused_contiguous : instances_contiguous reused_world 42.
Proof.
  intros i j k x Hij. rewrite !reused_occupant.
  destruct (Nat.leb_spec i 4), (Nat.leb_spec j 4), (Nat.leb_spec k 4); intros; simplify_eq; (done || lia).
Qed.

(** Read within the instance's life, and across its end. *)
Lemma enrich_is_of_one_instance_witness :
  (let r := lsm_process_enrich (files_over reused_world (λ i, i / 2)%nat) 42 row_42 31 in
   r.1 = true ∧ p_executable r.2 = "/usr/bin/b"%string ∧ p_handle_count r.2 = 2)
  ∧ (let r := lsm_process_enrich (files_over reused_world (λ i, i)) 42 row_42 31 in
     r.1 = false ∧ r.2 = enrich_withdraw 31 row_42 ∧ withdrawn 31 r.2).
Proof.
  split; cbv zeta.
  - destruct (enrich_is_of_one_instance reused_world (λ i, i / 2)%nat 42 row_42 31 reused_contiguous)
      as (Hok & _ & _).
    { intros i j Hij. by apply Nat.Div0.div_le_mono. }
    assert ((lsm_process_enrich (files_over reused_world (λ i, i / 2)%nat) 42 row_42 31).1 = true) as Hr
      by (by vm_compute).
    destruct (Hok Hr) as (_ & _ & _ & _ & He & Hh). split; [done|]. split.
    + rewrite He. by vm_compute.
    + by apply (Hh ltac:(by vm_compute) [".";".."; "0"; "1"]%string).
  - destruct (enrich_is_of_one_instance reused_world (λ i, i) 42 row_42 31 reused_contiguous (λ i j H, H))
      as (_ & _ & Hlost).
    destruct Hlost as [Hl|(Hr & Hw & He)]; [by rewrite reused_occupant|by vm_compute in Hl|].
    split; [done|]. split; [exact He|done].
Defined.

(** With only the technical details requested, the control group of a row that
    had none is read too, and is kept when the identity is lost. *)
Lemma enrich_keeps_foreign_cgroup :
  let r := lsm_process_enrich (enrich_files 100 200 "0::/system.slice/b.service") 42 row_42
             LSM_PROCESS_SCAN_TECHNICAL in
  r.1 = false ∧ p_cgroup_path r.2 = "/system.slice/b.service"%string ∧ p_cgroup_v2 r.2 = true.
Proof. by vm_compute. Qed.
