(* ===== verification/ProcessControl.v ===== *)
(** * ProcessControl: signalling a process or a process tree

    Models the control operations of [src/src/process_backend_linux.c]: the
    identity check, the signal through a pidfd with its fallback, and the tree
    operation with its enumeration, its parent chains and its order.  Every
    system call happens at a point in time; the kernel may start, end and replace
    processes between any two calls. *)
From S2P Require Import Prelude Double CStrings Common ProcessModel SortedVector ProcessStat.
From stdpp Require Import sorting.
Local Open Scope Z_scope.

Definition EINVAL : Z := 22.
Definition ENOENT : Z := 2.
Definition ESRCH : Z := 3.
Definition ENOSYS : Z := 38.

(** ** The kernel

    The first argument is the point in time.  [kernel_owner] is the start time of
    the process that has the PID; the program cannot see it except through the
    files and calls. *)
Class ProcessKernel := {
  kernel_owner : nat → Z → option Z;
  (** the text of /proc/PID/stat, [None] when it cannot be read, and then its errno *)
  kernel_stat_text : nat → Z → option string;
  kernel_stat_errno : nat → Z → Z;
  (** what the buffer of the reader holds behind the text *)
  kernel_stale : nat → Z → string;
  (** errno of [pidfd_open], [pidfd_send_signal] and [kill]; 0 is success *)
  kernel_pidfd_open : nat → Z → Z;
  kernel_send_signal : nat → Z → Z;
  kernel_kill : nat → Z → Z;
}.

(** What procfs and the process life cycle guarantee: a readable record is the
    record of the process that has the PID; a PID with a given start time is one
    process, which keeps the PID from its start to its end. *)
Class ProcessKernelLaws `{ProcessKernel, NumberOps, ArithmeticOps, TextOps} : Prop := {
  stat_text_owner t pid process info native :
    read_process_stat (kernel_stat_text t pid) (kernel_stale t pid) process = Some (info, native) →
    kernel_owner t pid = Some (ls_start_ticks native);
  owner_lifetime t1 t2 t3 pid start :
    (t1 <= t2 <= t3)%nat → kernel_owner t1 pid = Some start → kernel_owner t3 pid = Some start →
    kernel_owner t2 pid = Some start;
}.

(** src: process_model.h:44-49 LsmProcessControl *)
Inductive LsmProcessControl :=
| LSM_PROCESS_CONTROL_TERMINATE
| LSM_PROCESS_CONTROL_SUSPEND
| LSM_PROCESS_CONTROL_RESUME
| LSM_PROCESS_CONTROL_FORCE_TERMINATE.

(** SIGTERM, SIGSTOP, SIGCONT and SIGKILL of Linux. *)
(** src: process_backend_linux.c signal_from_control *)
Definition signal_from_control (action : LsmProcessControl) : Z :=
  match action with
  | LSM_PROCESS_CONTROL_TERMINATE => 15
  | LSM_PROCESS_CONTROL_SUSPEND => 19
  | LSM_PROCESS_CONTROL_RESUME => 18
  | LSM_PROCESS_CONTROL_FORCE_TERMINATE => 9
  end.

(** A delivered signal: the PID, the start time of the process that got it, and
    the signal. *)
Record Signal := { sg_pid : Z; sg_start : option Z; sg_number : Z }.

(** src: process_backend_linux.c:104-109 PidParent *)
Record PidParent := {
  pp_pid : Z;
  pp_ppid : Z;
  pp_instance_id : Z;
  pp_depth : nat;
}.
#[export] Instance eta_PidParent : Eta PidParent := λ x,
  Build_PidParent (pp_pid x) (pp_ppid x) (pp_instance_id x) (pp_depth x).

Section control.
Context `{ProcessKernel, NumberOps, ArithmeticOps, TextOps}.

(** src: process_backend_linux.c native_pid *)
Definition native_pid (id : Z) : bool := negb ((id =? 0) || (int_max <? id)).

(** The errno of the check, 0 when the PID still is that instance, and the time
    after it. *)
(** src: process_backend_linux.c process_identity_pid *)
Definition process_identity_pid (t : nat) (process_id instance_id : Z) : nat * Z :=
  if negb (native_pid process_id) || (instance_id =? 0) then (t, EINVAL)
  else
    let process := process_zero <| p_pid := process_id |> in
    match read_process_stat (kernel_stat_text t process_id) (kernel_stale t process_id) process with
    | None =>
        let errno := kernel_stat_errno t process_id in
        (S t, if (errno =? 0) || (errno =? ENOENT) then ESRCH else errno)
    | Some (_, native_stat) =>
        (S t, if negb (ls_start_ticks native_stat =? instance_id) then ESRCH else 0)
    end.

(** The result: the time, the errno (0 is success), whether pidfds are
    unsupported, and what was delivered.  The pidfd refers to the process that
    has the PID when it is opened. *)
(** src: process_backend_linux.c signal_with_pidfd *)
Definition signal_with_pidfd (t : nat) (process_id instance_id signal_number : Z)
    : nat * Z * bool * list Signal :=
  let '(t, errno) := process_identity_pid t process_id instance_id in
  if negb (errno =? 0) then (t, errno, false, [])
  else if (process_id <=? 1) || (signal_number <=? 0) then (t, EINVAL, false, [])
  else
    let opened := kernel_pidfd_open t process_id in
    let target := kernel_owner t process_id in
    let t := S t in
    if negb (opened =? 0) then (t, opened, opened =? ENOSYS, [])
    else
      let '(t, errno) := process_identity_pid t process_id instance_id in
      if negb (errno =? 0) then (t, errno, false, [])
      else
        let result := kernel_send_signal t process_id in
        if result =? 0
        then (S t, 0, false,
              [{| sg_pid := process_id; sg_start := target; sg_number := signal_number |}])
        else (S t, result, result =? ENOSYS, []).

(** src: process_backend_linux.c lsm_process_control *)
Definition lsm_process_control (t : nat) (process_id instance_id : Z) (action : LsmProcessControl)
    : nat * Z * list Signal :=
  let signal_number := signal_from_control action in
  if signal_number <=? 0 then (t, EINVAL, [])
  else
    let '(t, errno, pidfd_unsupported, sent) :=
      signal_with_pidfd t process_id instance_id signal_number in
    if errno =? 0 then (t, 0, sent)
    else if negb pidfd_unsupported then (t, errno, sent)
    else
      let '(t, errno) := process_identity_pid t process_id instance_id in
      if negb (errno =? 0) then (t, errno, sent)
      else if process_id <=? 1 then (t, EINVAL, sent)
      else
        let result := kernel_kill t process_id in
        if result =? 0
        then (S t, 0, sent ++ [{| sg_pid := process_id; sg_start := kernel_owner t process_id;
                                  sg_number := signal_number |}])
        else (S t, result, sent).

(** *** The tree *)

(** src: process_backend_linux.c parse_proc_pid *)
Definition parse_proc_pid (name : string) : option Z :=
  let '(ok, value) := lsm_parse_u64_range name 10 1 int_max 0 in
  if ok : bool then Some value else None.

(** src: process_backend_linux.c read_pid_parent *)
Definition read_pid_parent (t : nat) (pid : Z) : option PidParent :=
  match read_process_stat (kernel_stat_text t pid) (kernel_stale t pid)
          (process_zero <| p_pid := pid |>) with
  | None => None
  | Some (process, native_stat) =>
      Some {| pp_pid := pid; pp_ppid := if p_ppid process <=? int_max then p_ppid process else 0;
              pp_instance_id := ls_start_ticks native_stat; pp_depth := 0 |}
  end.

(** The loop over the names [readdir] returns. *)
(** src: process_backend_linux.c:1622-1643 lsm_process_control_tree *)
Fixpoint enumerate (t : nat) (names : list string) : nat * list PidParent :=
  match names with
  | [] => (t, [])
  | name :: names =>
      match parse_proc_pid name with
      | None => enumerate t names
      | Some pid =>
          if pid <=? 1 then enumerate t names
          else match read_pid_parent t pid with
               | None => enumerate (S t) names
               | Some item => let '(t, items) := enumerate (S t) names in (t, item :: items)
               end
      end
  end.

(** src: process_backend_linux.c compare_pid_parent_pid *)
Definition pid_le (a b : PidParent) : Prop := pp_pid a <= pp_pid b.
#[export] Instance pid_le_dec a b : Decision (pid_le a b).
Proof. unfold pid_le. apply _. Defined.

(** src: process_backend_linux.c find_pid_parent *)
Definition find_pid_parent (items : list PidParent) (pid : Z) : option PidParent :=
  match search pp_pid items (length items) pid with
  | Some index => items !! index
  | None => None
  end.

(** [for (guard = 0; guard < count && current != root; guard++)]; the result is
    the PID the walk ended at and the depth, or [None] for the early return. *)
(** src: process_backend_linux.c:1581-1586 process_depth *)
Fixpoint depth_loop (guard : nat) (items : list PidParent) (root current : Z) (depth : nat)
    : option (Z * nat) :=
  match guard with
  | O => Some (current, depth)
  | S guard =>
      if current =? root then Some (current, depth)
      else match find_pid_parent items current with
           | None => None
           | Some record => depth_loop guard items root (pp_ppid record) (S depth)
           end
  end.

(** src: process_backend_linux.c process_depth *)
Definition process_depth (items : list PidParent) (pid root : Z) : nat :=
  match depth_loop (length items) items root pid 0 with
  | Some (current, depth) => if current =? root then depth else 0
  | None => 0
  end.

(** [qsort]'s order: deepest first, then the higher PID. *)
(** src: process_backend_linux.c compare_depth_descending *)
Definition depth_descending (a b : PidParent) : Prop :=
  (pp_depth b < pp_depth a)%nat ∨ pp_depth a = pp_depth b ∧ pp_pid b <= pp_pid a.
#[export] Instance depth_descending_dec a b : Decision (depth_descending a b).
Proof. unfold depth_descending. apply _. Defined.

(** The processes below the root, in the order they are signalled. *)
(** src: process_backend_linux.c:1658-1675 lsm_process_control_tree *)
Definition tree_descendants (items : list PidParent) (root : Z) : list PidParent :=
  let items := merge_sort pid_le items in
  merge_sort depth_descending
    (omap (λ item, let depth := process_depth items (pp_pid item) root in
                   if (0 <? depth)%nat then Some (item <| pp_depth := depth |>) else None) items).

(** One signal of the loop; the first errno other than ESRCH is kept. *)
(** src: process_backend_linux.c:1679-1686 lsm_process_control_tree *)
Definition control_one (action : LsmProcessControl) (acc : nat * Z * list Signal)
    (target : Z * Z) : nat * Z * list Signal :=
  let '(t, saved_errno, sent) := acc in
  let '(t, errno, new) := lsm_process_control t target.1 target.2 action in
  (t, if negb (errno =? 0) && negb (errno =? ESRCH) && (saved_errno =? 0) then errno else saved_errno,
   sent ++ new).

(** [names] and [enumeration_error] are what the directory stream delivers,
    [allocated] the success of the allocations. *)
(** src: process_backend_linux.c lsm_process_control_tree *)
Definition lsm_process_control_tree (t : nat) (root_id root_instance_id : Z)
    (action : LsmProcessControl) (names : list string) (enumeration_error : Z) (allocated : bool)
    : nat * Z * list Signal :=
  let signal_number := signal_from_control action in
  let '(t, errno) := process_identity_pid t root_id root_instance_id in
  if negb (errno =? 0) then (t, errno, [])
  else if (root_id <=? 1) || (signal_number <=? 0) then (t, EINVAL, [])
  else
    let '(t, items) := enumerate t names in
    if negb (enumeration_error =? 0) then (t, enumeration_error, [])
    else
      let '(t, errno) := process_identity_pid t root_id root_instance_id in
      if negb (errno =? 0) then (t, errno, [])
      else if negb allocated then (t, 12, [])
      else
        let targets := ((λ item, (pp_pid item, pp_instance_id item)) <$> tree_descendants items root_id)
                       ++ [(root_id, root_instance_id)] in
        foldl (control_one action) (t, 0, []) targets.
End control.

(** ** Identity *)

Section identity.
Context `{ProcessKernelLaws}.

Lemma identity_spec t pid instance t' :
  process_identity_pid t pid instance = (t', 0) →
  t' = S t ∧ kernel_owner t pid = Some instance.
Proof.
  unfold process_identity_pid. destruct (_ || _); [done|].
  destruct (read_process_stat _ _ _) as [[info native]|] eqn:E.
  - destruct (Z.eqb_spec (ls_start_ticks native) instance) as [Ei|]; [|done].
    intros [= <-]. split; [done|]. rewrite <-Ei. by eapply stat_text_owner.
  - destruct (Z.eqb_spec (kernel_stat_errno t pid) 0); cbn; [done|].
    destruct (_ =? ENOENT); [done|]. intros [= <- ?]. done.
Qed.

(** No pidfd call says that pidfds do not exist. *)
Definition pidfd_supported : Prop :=
  ∀ t pid, kernel_pidfd_open t pid ≠ ENOSYS ∧ kernel_send_signal t pid ≠ ENOSYS.

Definition delivered (pid instance signal : Z) : Signal :=
  {| sg_pid := pid; sg_start := Some instance; sg_number := signal |}.

Lemma pidfd_spec t pid instance signal :
  let '(t', errno, unsupported, sent) := signal_with_pidfd t pid instance signal in
  (if errno =? 0 then sent = [delivered pid instance signal] else sent = [])
  ∧ (pidfd_supported → unsupported = false).
Proof.
  unfold signal_with_pidfd.
  destruct (process_identity_pid t pid instance) as [t1 e1] eqn:E1.
  destruct (Z.eqb_spec e1 0) as [->|Hne]; cbn [negb].
  2:{ split; [|done]. by rewrite (proj2 (Z.eqb_neq _ _) Hne). }
  apply identity_spec in E1 as [-> O1]. destruct (_ || _); [done|].
  destruct (Z.eqb_spec (kernel_pidfd_open (S t) pid) 0) as [Eo|Eo]; cbn [negb].
  2:{ split; [by rewrite (proj2 (Z.eqb_neq _ _) Eo)|]. intros Hs. by apply Z.eqb_neq, Hs. }
  destruct (process_identity_pid (S (S t)) pid instance) as [t2 e2] eqn:E2.
  destruct (Z.eqb_spec e2 0) as [->|Hne]; cbn [negb].
  2:{ split; [|done]. by rewrite (proj2 (Z.eqb_neq _ _) Hne). }
  apply identity_spec in E2 as [-> O2].
  rewrite (owner_lifetime t (S t) (S (S t)) pid instance) by (lia || done).
  destruct (Z.eqb_spec (kernel_send_signal (S (S (S t))) pid) 0) as [Es|Es]; [done|].
  split; [by rewrite (proj2 (Z.eqb_neq _ _) Es)|]. intros Hs. by apply Z.eqb_neq, Hs.
Qed.

Lemma control_spec t pid instance action :
  pidfd_supported →
  let '(t', errno, sent) := lsm_process_control t pid instance action in
  if errno =? 0 then sent = [delivered pid instance (signal_from_control action)] else sent = [].
Proof.
  intros Hs. unfold lsm_process_control.
  assert (Hp : (signal_from_control action <=? 0) = false) by by destruct action. rewrite Hp.
  pose proof (pidfd_spec t pid instance (signal_from_control action)) as Hf.
  destruct (signal_with_pidfd _ _ _ _) as [[[t' errno] unsupported] sent].
  destruct Hf as [Hf Hu]. specialize (Hu Hs). subst unsupported. cbn [negb].
  destruct (errno =? 0) eqn:E; [done|]. by rewrite E.
Qed.

Lemma control_all action targets t saved sent :
  pidfd_supported →
  ∃ new, (foldl (control_one action) (t, saved, sent) targets).2 = sent ++ new
    ∧ new `sublist_of` ((λ target, delivered target.1 target.2 (signal_from_control action)) <$> targets).
Proof.
  intros Hs. revert t saved sent. induction targets as [|[pid instance] targets IH]; intros t saved sent.
  { exists []. by rewrite app_nil_r. }
  cbn [foldl fmap list_fmap control_one fst snd].
  pose proof (control_spec t pid instance action Hs) as Hc.
  destruct (lsm_process_control t pid instance action) as [[t' errno] now].
  destruct (IH t' (if negb (errno =? 0) && negb (errno =? ESRCH) && (saved =? 0) then errno else saved)
              (sent ++ now)) as (new & -> & Hsub).
  exists (now ++ new). split; [by rewrite app_assoc|].
  destruct (errno =? 0); subst now; [by apply sublist_skip|by apply sublist_cons].
Qed.
End identity.

(** (C27) No signal reaches a recycled PID.  Where the kernel has pidfds, for
    every sequence of processes starting, ending and taking over PIDs between the
    system calls, a control operation delivers its signal exactly when it
    succeeds, and then to the very instance it was asked for; the tree operation
    delivers only to the instances of its snapshot and the root instance, in the
    order of its target list, root last. *)
Theorem control_hits_only_its_instance `{ProcessKernelLaws} t pid instance action names
    enumeration_error allocated :
  pidfd_supported →
  (let '(_, errno, sent) := lsm_process_control t pid instance action in
   sent = if errno =? 0
          then [{| sg_pid := pid; sg_start := Some instance; sg_number := signal_from_control action |}]
          else [])
  ∧ let '(_, errno, sent) :=
      lsm_process_control_tree t pid instance action names enumeration_error allocated in
    sent = [] ∨ ∃ t' items, enumerate (S t) names = (t', items)
      ∧ ((λ s, (sg_pid s, sg_start s)) <$> sent)
        `sublist_of` ((λ item, (pp_pid item, Some (pp_instance_id item))) <$> tree_descendants items pid)
                     ++ [(pid, Some instance)].
Proof.
  intros Hs. split.
  { pose proof (control_spec t pid instance action Hs) as Hc.
    destruct (lsm_process_control t pid instance action) as [[t' errno] sent].
    by destruct (errno =? 0). }
  unfold lsm_process_control_tree.
  destruct (process_identity_pid t pid instance) as [t1 e1] eqn:E1.
  destruct (Z.eqb_spec e1 0) as [->|]; cbn [negb]; [|by left].
  apply identity_spec in E1 as [-> _]. destruct (_ || _); [by left|].
  destruct (enumerate (S t) names) as [t2 items].
  destruct (negb _); [by left|]. destruct (process_identity_pid t2 pid instance) as [t3 e3].
  destruct (negb _); [by left|]. destruct (negb allocated); [by left|].
  set (targets := ((λ item, (pp_pid item, pp_instance_id item)) <$> tree_descendants items pid)
                  ++ [(pid, instance)]).
  destruct (control_all action targets t3 0 [] Hs) as (new & En & Hsub).
  destruct (foldl _ _ targets) as [[t4 e4] sent]. cbn in En. subst sent. right.
  exists t2, items. split; [done|].
  apply (fmap_sublist (λ s, (sg_pid s, sg_start s))) in Hsub.
  etrans; [exact Hsub|]. unfold targets. rewrite <-list_fmap_compose, fmap_app, <-list_fmap_compose. done.
Qed.

(** ** The tree *)

(** [below items root pid n]: following parents from [pid] reaches [root] after
    [n] records of the snapshot, and not before. *)
Inductive below (items : list PidParent) (root : Z) : Z → nat → Prop :=
| below_child record :
    record ∈ items → pp_pid record ≠ root → pp_ppid record = root →
    below items root (pp_pid record) 1
| below_step record n :
    record ∈ items → pp_pid record ≠ root → pp_ppid record ≠ root →
    below items root (pp_ppid record) n → below items root (pp_pid record) (S n).

Section tree.
Variables (items : list PidParent) (root : Z).
Hypothesis (Hdistinct : NoDup (pp_pid <$> items)).

Lemma record_unique a b : a ∈ items → b ∈ items → pp_pid a = pp_pid b → a = b.
Proof.
  intros Ha Hb E. apply list_elem_of_lookup in Ha as [i Hi]. apply list_elem_of_lookup in Hb as [j Hj].
  assert (i = j) as ->; [|congruence].
  eapply (NoDup_lookup _ i j (pp_pid a) Hdistinct); rewrite list_lookup_fmap.
  - by rewrite Hi.
  - by rewrite Hj, E.
Qed.

Definition sorted_items : list PidParent := merge_sort pid_le items.

Lemma sorted_items_perm : sorted_items ≡ₚ items.
Proof. apply merge_sort_Permutation. Qed.

#[local] Instance pid_le_total : Total pid_le.
Proof. intros a b. unfold pid_le. lia. Qed.
#[local] Instance pid_le_trans : Transitive pid_le.
Proof. intros a b c. unfold pid_le. lia. Qed.

Lemma sorted_items_prefix : sorted_prefix pp_pid sorted_items (length sorted_items).
Proof.
  split; [done|]. intros i j x y Hij Hi Hj.
  pose proof (StronglySorted_merge_sort pid_le items) as Hs. fold sorted_items in Hs.
  assert (Hle : pid_le x y) by (apply (strongly_sorted_lookup pid_le sorted_items i j x y Hs); [lia|done|done]).
  assert (pp_pid x ≠ pp_pid y); [|unfold pid_le in Hle; lia].
  intros E. assert (i = j); [|lia].
  eapply (NoDup_lookup (pp_pid <$> sorted_items) i j (pp_pid x)).
  - by rewrite sorted_items_perm.
  - by rewrite list_lookup_fmap, Hi.
  - by rewrite list_lookup_fmap, Hj, E.
Qed.

Lemma find_spec pid record :
  find_pid_parent sorted_items pid = Some record ↔ record ∈ items ∧ pp_pid record = pid.
Proof.
  unfold find_pid_parent.
  pose proof (search_spec pp_pid sorted_items (length sorted_items) pid sorted_items_prefix) as Hs.
  rewrite <-sorted_items_perm. split.
  - destruct (search _ _ _ _) as [i|]; [|done]. intros Hi.
    destruct (proj1 (Hs i) eq_refl) as (_ & x & Hx & E). assert (x = record) as -> by congruence.
    split; [by eapply list_elem_of_lookup_2|done].
  - intros [Hin E]. apply list_elem_of_lookup in Hin as [i Hi].
    assert (search pp_pid sorted_items (length sorted_items) pid = Some i) as ->; [|done].
    apply Hs. split; [by eapply lookup_lt_Some|eauto].
Qed.

Lemma below_unique pid n n' : below items root pid n → below items root pid n' → n = n'.
Proof.
  intros Hb. revert n'. induction Hb as [r Hr Hne Hp|r n Hr Hne Hp Hb IH]; intros n' Hb';
    inversion Hb' as [r' Hr' Hne' Hp' E|r' m Hr' Hne' Hp' Hb'' E];
    pose proof (record_unique r' r Hr' Hr E) as ->; try done.
  f_equal. by apply IH.
Qed.

Lemma below_in pid n : below items root pid n → pid ∈ pp_pid <$> items.
Proof. destruct 1; by apply list_elem_of_fmap_2. Qed.

(** A chain has no more records than the snapshot. *)
Lemma below_bound pid n : below items root pid n → (n ≤ length items)%nat.
Proof.
  intros Hb.
  assert (∃ l, length l = n ∧ NoDup l ∧ ∀ x, x ∈ l → ∃ m, (m ≤ n)%nat ∧ below items root x m)
    as (l & <- & Hnd & Hl).
  { induction Hb as [r Hr Hne Hp|r n Hr Hne Hp Hb (l & Hlen & Hnd & Hl)].
    - exists [pp_pid r]. split_and!; [done|apply NoDup_singleton|].
      intros x ->%list_elem_of_singleton. exists 1%nat. split; [lia|by constructor].
    - assert (Hnew : below items root (pp_pid r) (S n)) by by constructor.
      exists (pp_pid r :: l). split_and!; [by cbn; rewrite Hlen| |].
      + apply NoDup_cons. split; [|done]. intros (m & Hm & Hbm)%Hl.
        pose proof (below_unique _ _ _ Hnew Hbm). lia.
      + intros x [->|(m & Hm & Hbm)%Hl]%elem_of_cons; eauto. }
  rewrite <-(length_fmap pp_pid items). apply submseteq_length, NoDup_submseteq; [done|].
  intros x (m & _ & Hm)%Hl. by eapply below_in.
Qed.

Lemma depth_loop_below guard pid n d :
  below items root pid n → (n ≤ guard)%nat →
  depth_loop guard sorted_items root pid d = Some (root, (d + n)%nat).
Proof.
  intros Hb. revert guard d. induction Hb as [r Hr Hne Hp|r n Hr Hne Hp Hb IH]; intros guard d Hg;
    (destruct guard as [|guard]; [lia|]); cbn [depth_loop];
    rewrite (proj2 (Z.eqb_neq _ _) Hne), (proj2 (find_spec _ r)) by done.
  - rewrite Hp. destruct guard; cbn [depth_loop]; rewrite ?Z.eqb_refl; do 2 f_equal; lia.
  - rewrite IH by lia. do 2 f_equal. lia.
Qed.

Lemma depth_loop_reaches guard pid d d' :
  depth_loop guard sorted_items root pid d = Some (root, d') → pid ≠ root →
  ∃ n, d' = (d + n)%nat ∧ below items root pid n.
Proof.
  revert pid d. induction guard as [|guard IH]; intros pid d; cbn [depth_loop]; [by intros [= -> _]|].
  destruct (Z.eqb_spec pid root) as [->|Hne]; [done|].
  destruct (find_pid_parent sorted_items pid) as [r|] eqn:Er; [|done]. intros Hl _.
  apply find_spec in Er as [Hr <-]. destruct (decide (pp_ppid r = root)) as [Hp|Hp].
  - exists 1%nat. split; [|by constructor]. rewrite Hp in Hl.
    destruct guard; cbn [depth_loop] in Hl; rewrite ?Z.eqb_refl in Hl; injection Hl as <-; lia.
  - destruct (IH _ _ Hl Hp) as (n & -> & Hb). exists (S n). split; [lia|]. by constructor.
Qed.

(** The depth is the distance below the root, 0 for everything else. *)
Lemma depth_spec pid n : (0 < n)%nat → process_depth sorted_items pid root = n ↔ below items root pid n.
Proof.
  intros Hn. unfold process_depth. split.
  - destruct (depth_loop _ _ _ _ _) as [[current depth]|] eqn:E; [|lia].
    destruct (Z.eqb_spec current root) as [->|]; [|lia]. intros ->.
    destruct (decide (pid = root)) as [->|Hne].
    + destruct (length sorted_items); cbn [depth_loop] in E; rewrite ?Z.eqb_refl in E;
        injection E as <-; lia.
    + destruct (depth_loop_reaches _ _ _ _ E Hne) as (m & -> & Hb). done.
  - intros Hb. rewrite (depth_loop_below _ _ _ 0 Hb).
    + by rewrite Z.eqb_refl.
    + rewrite sorted_items_perm. by eapply below_bound.
Qed.

#[local] Instance depth_descending_total : Total depth_descending.
Proof. intros a b. unfold depth_descending. lia. Qed.
#[local] Instance depth_descending_trans : Transitive depth_descending.
Proof. intros a b c. unfold depth_descending. lia. Qed.

Lemma elem_of_descendants x :
  x ∈ tree_descendants items root
  ↔ ∃ item n, item ∈ items ∧ below items root (pp_pid item) n ∧ x = item <| pp_depth := n |>.
Proof.
  unfold tree_descendants. fold sorted_items. rewrite merge_sort_Permutation, list_elem_of_omap.
  split.
  - intros (item & Hin & E). rewrite sorted_items_perm in Hin. cbv zeta in E.
    destruct (Nat.ltb_spec 0 (process_depth sorted_items (pp_pid item) root)) as [Hd|]; [|done].
    injection E as <-. exists item, (process_depth sorted_items (pp_pid item) root).
    split_and!; [done|by apply depth_spec|done].
  - intros (item & n & Hin & Hb & ->). exists item. split; [by rewrite sorted_items_perm|].
    assert (Hn : (0 < n)%nat) by (destruct Hb; lia).
    apply depth_spec in Hb; [|done]. rewrite Hb. by rewrite (proj2 (Nat.ltb_lt _ _) Hn).
Qed.

Lemma descendants_sorted : Sorted.StronglySorted depth_descending (tree_descendants items root).
Proof. apply StronglySorted_merge_sort; apply _. Qed.

Lemma select_distinct (depth_of : PidParent → nat) l :
  NoDup (pp_pid <$> l) →
  NoDup (pp_pid <$> omap (λ item, let depth := depth_of item in
    if (0 <? depth)%nat then Some (item <| pp_depth := depth |>) else None) l).
Proof.
  intros Hs. induction l as [|x l IH]; [done|]. rewrite fmap_cons in Hs. apply NoDup_cons in Hs as [Hx Hs].
  cbn [omap list_omap]. cbv zeta. destruct (_ <? _)%nat; [|by apply IH].
  rewrite fmap_cons. apply NoDup_cons. split; [|by apply IH].
  intros (y & E & (z & Hz & Ez)%list_elem_of_omap)%list_elem_of_fmap. cbv zeta in Ez.
  destruct (_ <? _)%nat; [|done]. injection Ez as <-. cbn in E.
  apply Hx. rewrite E. by apply list_elem_of_fmap_2.
Qed.

Lemma descendants_distinct : NoDup (pp_pid <$> tree_descendants items root).
Proof.
  unfold tree_descendants. fold sorted_items. rewrite merge_sort_Permutation.
  apply (select_distinct (λ item, process_depth sorted_items (pp_pid item) root)).
  by rewrite sorted_items_perm.
Qed.
End tree.

(** (C28) The tree operation reaches exactly the processes below the root.
    For a snapshot with distinct PIDs, with any other processes, stale parents or
    cycles in it, the target list holds every process whose chain of parents
    leads to the root, each once, with its instance and its distance, and
    nothing else; and every child comes before its parent, so a parent cannot
    replace children while they are signalled. *)
Theorem tree_targets_exact items root :
  NoDup (pp_pid <$> items) →
  (∀ x, x ∈ tree_descendants items root
     ↔ ∃ item n, item ∈ items ∧ below items root (pp_pid item) n ∧ x = (item <| pp_depth := n |>))
  ∧ NoDup (pp_pid <$> tree_descendants items root)
  ∧ root ∉ (pp_pid <$> tree_descendants items root)
  ∧ (∀ i j a b, tree_descendants items root !! i = Some a →
       tree_descendants items root !! j = Some b → pp_ppid a = pp_pid b → (i < j)%nat).
Proof.
  intros Hd. pose proof (elem_of_descendants items root Hd) as Hel. split_and!.
  - exact Hel.
  - by apply descendants_distinct.
  - intros (x & E & (item & n & Hin & Hb & ->)%Hel)%list_elem_of_fmap.
    cbn in E. destruct Hb; congruence.
  - intros i j a b Hi Hj E.
    assert (Ha : a ∈ tree_descendants items root) by by eapply list_elem_of_lookup_2.
    assert (Hb : b ∈ tree_descendants items root) by by eapply list_elem_of_lookup_2.
    apply Hel in Ha as (ia & n & Hia & Hba & ->). apply Hel in Hb as (ib & m & Hib & Hbb & ->).
    cbn in E.
    assert (n = S m) as ->.
    { inversion Hba as [r Hr Hne Hp Er|r k Hr Hne Hp Hb Er];
        pose proof (record_unique items Hd r ia Hr Hia Er) as ->.
      - rewrite Hp in E. rewrite <-E in Hbb. inversion Hbb; congruence.
      - f_equal. rewrite E in Hb. by eapply below_unique. }
    destruct (decide (i = j)) as [->|Hne].
    { rewrite Hi in Hj. injection Hj. lia. }
    destruct (decide (j < i)%nat) as [Hlt|]; [|lia]. exfalso.
    pose proof (strongly_sorted_lookup depth_descending _ j i _ _
                  (descendants_sorted items root) Hlt Hj Hi) as [Hdep|[Hdep _]]; cbn in Hdep; lia.
Qed.

(** ** Witnesses *)

From S2P Require Import CommonReference.

Definition record (pid ppid instance : Z) : PidParent :=
  {| pp_pid := pid; pp_ppid := ppid; pp_instance_id := instance; pp_depth := 0 |}.

(** A root with a child and a grandchild, a stranger, and a cycle. *)
Definition forest : list PidParent :=
  [record 12 11 3; record 10 1 1; record 30 31 5; record 11 10 2; record 31 30 6; record 20 1 4].

Lemma tree_targets_exact_witness :
  pp_pid <$> tree_descendants forest 10 = [12; 11] ∧ NoDup (pp_pid <$> tree_descendants forest 10).
Proof.
  destruct (tree_targets_exact forest 10) as (_ & Hnd & _ & _).
  { apply (bool_decide_unpack _). vm_compute. done. }
  split; [vm_compute; reflexivity|exact Hnd].
Defined.

(** PID 11 is taken over by another process between the times 2 and 3. *)
Definition start_of (t : nat) (pid : Z) : option Z :=
  if pid =? 11 then Some (if (t <? 3)%nat then 110 else 500) else None.
Definition text_of (start : Z) : string :=
  "11 (job) S 10 1 1 0 -1 0 0 0 0 0 1 1 0 0 20 0 1 0 " +:+ print_u64 start.

#[export] Instance recycling_kernel : ProcessKernel := {|
  kernel_owner := start_of;
  kernel_stat_text t pid := text_of <$> start_of t pid;
  kernel_stat_errno _ _ := ENOENT;
  kernel_stale _ _ := "";
  kernel_pidfd_open _ _ := 0;
  kernel_send_signal _ _ := 0;
  kernel_kill _ _ := 0;
|}.

#[export] Instance recycling_kernel_laws : ProcessKernelLaws.
Proof.
  split.
  - intros t pid process info native. cbn [kernel_stat_text kernel_stale kernel_owner recycling_kernel].
    unfold start_of. destruct (pid =? 11); [|done]. cbn [fmap option_fmap option_map].
    destruct (t <? 3)%nat; vm_compute; by intros [= _ <-].
  - intros t1 t2 t3 pid start Ht. cbn. unfold start_of. destruct (pid =? 11); [|done].
    intros E1 E3.
    destruct (Nat.ltb_spec t1 3), (Nat.ltb_spec t2 3), (Nat.ltb_spec t3 3); simplify_eq; try done; lia.
Qed.

Lemma control_hits_only_its_instance_witness :
  (lsm_process_control 0 11 110 LSM_PROCESS_CONTROL_TERMINATE).2
    = [{| sg_pid := 11; sg_start := Some 110; sg_number := 15 |}]
  ∧ (lsm_process_control 1 11 110 LSM_PROCESS_CONTROL_TERMINATE).2 = [].
Proof.
  assert (Hs : pidfd_supported) by done.
  destruct (control_hits_only_its_instance 0 11 110 LSM_PROCESS_CONTROL_TERMINATE [] 0 true Hs) as [H0 _].
  destruct (control_hits_only_its_instance 1 11 110 LSM_PROCESS_CONTROL_TERMINATE [] 0 true Hs) as [H1 _].
  destruct (lsm_process_control 0 11 110 _) as [[t0 e0] s0] eqn:E0.
  destruct (lsm_process_control 1 11 110 _) as [[t1 e1] s1] eqn:E1.
  cbn [snd]. rewrite H0, H1.
  assert (e0 = 0) as -> by (change e0 with (t0, e0, s0).1.2; rewrite <-E0; vm_compute; reflexivity).
  assert (e1 = ESRCH) as -> by (change e1 with (t1, e1, s1).1.2; rewrite <-E1; vm_compute; reflexivity).
  split; reflexivity.
Defined.
