(* ===== verification/ProcessScan.v ===== *)
(** * ProcessScan: the process scan and its retained baselines

    Models [lsm_process_scan] of [src/src/process_backend_linux.c] with the
    backend it works on: the vector of previous samples sorted by PID, the
    generation that tells live samples from dead ones, the CPU baseline, the user
    name cache, and the ownership of the duplicated metadata strings.  A scan is a
    transaction: it logs the samples it overwrites, and either commits (dropping
    the dead samples and sorting the new ones in) or rolls back.

    What the kernel and the allocator answered is an argument: a [ScanInputs]
    with one [ProcFiles] per directory entry.  The metadata strings live on an
    explicit heap of addresses, so that a leak or a double free is a statement
    about the model. *)
From S2P Require Import Prelude Double CStrings Common ProcessModel SortedVector ProcessStat ProcessGpu.
From S2P Require Import ProcessFiles ProcessControl.
From stdpp Require sorting.
Local Open Scope Z_scope.

(** ** The heap of metadata strings *)

Record HeapString := {
  hs_address : nat;
  hs_text : string;
}.

(** The next fresh address, and the addresses freed so far. *)
Record Heap := {
  hp_next : nat;
  hp_freed : list nat;
}.

Definition strdup (heap : Heap) (text : string) (allocated : bool) : Heap * option HeapString :=
  if allocated
  then ({| hp_next := S (hp_next heap); hp_freed := hp_freed heap |},
        Some {| hs_address := hp_next heap; hs_text := text |})
  else (heap, None).

(** [free(p)]; freeing NULL does nothing. *)
Definition free (p : option HeapString) (heap : Heap) : Heap :=
  match p with
  | Some s => {| hp_next := hp_next heap; hp_freed := hs_address s :: hp_freed heap |}
  | None => heap
  end.

Definition same_pointer (p q : option HeapString) : bool :=
  bool_decide (hs_address <$> p = hs_address <$> q).

(** [if (current != before) free(current)] *)
Definition free_unless_same (p other : option HeapString) (heap : Heap) : Heap :=
  if same_pointer p other then heap else free p heap.

(** ** The retained state *)

(** src: process_backend_linux.c:73-97 PreviousProcessSample *)
Record PreviousProcessSample := {
  sm_pid : Z;
  sm_start_ticks : Z;
  sm_cpu_ticks : Z;
  sm_read_bytes : Z;
  sm_write_bytes : Z;
  sm_io_available : bool;
  sm_sampled_at : double;
  sm_gpu_sampled_at : double;
  sm_gpu : LsmProcessGpuSnapshot;
  sm_gpu_percent : double;
  sm_gpu_memory_bytes : Z;
  sm_gpu_engine : string;
  sm_command : option HeapString;
  sm_executable : option HeapString;
  sm_cgroup_path : option HeapString;
  sm_command_sampled_at : double;
  sm_executable_sampled_at : double;
  sm_cgroup_sampled_at : double;
  sm_gpu_snapshot_valid : bool;
  sm_gpu_available : bool;
  sm_gpu_memory_available : bool;
  sm_cgroup_v2 : bool;
  sm_generation : Z;
}.
#[export] Instance eta_PreviousProcessSample : Eta PreviousProcessSample := λ x,
  Build_PreviousProcessSample (sm_pid x) (sm_start_ticks x) (sm_cpu_ticks x) (sm_read_bytes x)
    (sm_write_bytes x) (sm_io_available x) (sm_sampled_at x) (sm_gpu_sampled_at x) (sm_gpu x)
    (sm_gpu_percent x) (sm_gpu_memory_bytes x) (sm_gpu_engine x) (sm_command x) (sm_executable x)
    (sm_cgroup_path x) (sm_command_sampled_at x) (sm_executable_sampled_at x) (sm_cgroup_sampled_at x)
    (sm_gpu_snapshot_valid x) (sm_gpu_available x) (sm_gpu_memory_available x) (sm_cgroup_v2 x)
    (sm_generation x).

(** [memset(sample, 0, sizeof *sample)] *)
Definition sample_zero : PreviousProcessSample :=
  Build_PreviousProcessSample 0 0 0 0 0 false d0 d0 gpu_snapshot_zero d0 0 EmptyString None None None d0 d0 d0
    false false false false 0.

(** src: process_backend_linux.c:99-102 PreviousProcessMutation *)
Record PreviousProcessMutation := {
  mu_index : nat;
  mu_before : PreviousProcessSample;
}.

(** [samples] is the used prefix of the array and [sample_count] its length; the
    scratch array of mutations carries nothing from one scan to the next. *)
(** src: process_backend_linux.c:119-143 LsmProcessBackend *)
Record LsmProcessBackend := {
  pb_samples : list PreviousProcessSample;
  pb_generation : Z;
  pb_previous_total_cpu_ticks : Z;
  pb_total_memory_bytes : Z;
  pb_ticks_per_second : Z;
  pb_boot_time_epoch : Z;
  pb_uid_names : list UidNameEntry;
  pb_current_uid : Z;
  pb_heap : Heap;
}.
#[export] Instance eta_LsmProcessBackend : Eta LsmProcessBackend := λ x,
  Build_LsmProcessBackend (pb_samples x) (pb_generation x) (pb_previous_total_cpu_ticks x)
    (pb_total_memory_bytes x) (pb_ticks_per_second x) (pb_boot_time_epoch x) (pb_uid_names x)
    (pb_current_uid x) (pb_heap x).

(** src: process_backend_linux.c priority_from_nice *)
Definition priority_from_nice (nice_value : Z) : LsmProcessPriority :=
  if nice_value <=? -10 then LSM_PROCESS_PRIORITY_HIGH
  else if nice_value <? 0 then LSM_PROCESS_PRIORITY_ABOVE_NORMAL
  else if nice_value =? 0 then LSM_PROCESS_PRIORITY_NORMAL
  else if nice_value <=? 10 then LSM_PROCESS_PRIORITY_BELOW_NORMAL
  else LSM_PROCESS_PRIORITY_LOW.

(** [LSM_PROCESS_METADATA_REFRESH_SECONDS], [LSM_PROCESS_GPU_REFRESH_SECONDS] and
    [LSM_PROCESS_GPU_NEGATIVE_REFRESH_SECONDS]. *)
(** src: process_backend_linux.c:58-60 LSM_PROCESS_METADATA_REFRESH_SECONDS *)
Definition metadata_refresh : double := double_of_Z 5.
Definition gpu_refresh : double := double_of_Z 2.
Definition gpu_negative_refresh : double := double_of_Z 10.

(** ** What one scan is answered *)

Record ProcFiles := {
  pf_row_allocated : bool;
  pf_stat : option string * string;
  pf_sample_allocated : bool;
  pf_status : option string;
  pf_user : option string;
  pf_uid_allocated : bool;
  pf_cmdline : option string;
  pf_command_allocated : bool;
  pf_exe : option string;
  pf_executable_allocated : bool;
  pf_io : option string;
  pf_enrich : EnrichFiles;
  pf_cgroup_allocated : bool;
  pf_gpu : option FdinfoDirectory;
}.

Record ScanInputs := {
  si_stat : option string;          (** the text of /proc/stat *)
  si_directory : bool;              (** [opendir] *)
  si_rows_allocated : bool;
  si_mutations_allocated : bool;
  si_uptime : option string;
  si_sampled_at : double;
  si_entries : list (string * ProcFiles);
  si_readdir_ok : bool;
  si_closedir_ok : bool;
}.

Section scan.
Context `{ArithmeticOps, TextOps, NumberOps}.

(** *** The machine's records *)

(** Up to [fields] tokens, added up. *)
(** src: process_backend_linux.c:871-875 lsm_process_linux_parse_total_cpu_ticks *)
Fixpoint cpu_fields (fields : nat) (cursor : string) : list Z :=
  match fields with
  | O => []
  | S fields =>
      let '(ok, cursor, value) := lsm_parse_u64_token cursor 10 0 in
      if ok : bool then value :: cpu_fields fields cursor else []
  end.

(** src: process_backend_linux.c lsm_process_linux_parse_total_cpu_ticks *)
Definition lsm_process_linux_parse_total_cpu_ticks (text : string) : option Z :=
  if negb (lsm_string_starts_with text "cpu") then None else
  let fields := cpu_fields 8 (String.substring 3 (String.length text - 3) text) in
  if (length fields <? 4)%nat then None else Some (fold_left lsm_u64_add_saturating fields 0).

(** src: process_backend_linux.c read_total_cpu_ticks *)
Definition read_total_cpu_ticks (text : option string) : option Z :=
  match text with
  | Some text =>
      if no_char "000" text then lsm_process_linux_parse_total_cpu_ticks text else None
  | None => None
  end.

(** src: process_backend_linux.c:919-931 read_boot_time *)
Fixpoint boot_lines (lines : list string) : Z :=
  match lines with
  | [] => 0
  | line :: lines =>
      if negb (lsm_string_starts_with line "btime") then boot_lines lines else
      let '(ok, cursor, value) :=
        infiltratr_parse_i64_token (String.substring 5 (String.length line - 5) line) 10 0 in
      if negb ok then boot_lines lines
      else if nonempty (skip lsm_ascii_is_space cursor) then boot_lines lines
      else value
  end.

(** src: process_backend_linux.c read_boot_time *)
Definition read_boot_time (text : option string) : Z :=
  match text with
  | Some text => if no_char "000" text then boot_lines (strtok_all (is_char nl) text) else 0
  | None => 0
  end.

(** src: process_backend_linux.c lsm_process_linux_parse_uptime_record *)
Definition lsm_process_linux_parse_uptime_record (text : string) : option double :=
  let '(ok, cursor, value) := lsm_parse_double_token text false d0 in
  if negb ok || (nonempty cursor && negb (lsm_ascii_is_space (char_at cursor 0)))
     || negb (isfinite value) || dlt value d0 then None
  else Some value.

(** src: process_backend_linux.c read_uptime_seconds *)
Definition read_uptime_seconds (text : option string) : double :=
  match text with
  | Some text => default d0 (lsm_process_linux_parse_uptime_record text)
  | None => d0
  end.

(** src: process_backend_linux.c lsm_process_cpu_total_percent *)
Definition lsm_process_cpu_total_percent (process_delta system_delta : Z) : double :=
  lsm_percent_u64 process_delta system_delta.

(** *** The sample vector *)

(** The index of the sample, and the vector; [None]: no memory. *)
(** src: process_backend_linux.c find_or_create_sample *)
Definition find_or_create_sample (samples : list PreviousProcessSample) (searchable_count : nat) (pid : Z)
    (allocated : bool) : option (list PreviousProcessSample * nat) :=
  match search sm_pid samples searchable_count pid with
  | Some index => Some (samples, index)
  | None =>
      if allocated then Some (samples ++ [sample_zero <| sm_pid := pid |>], length samples) else None
  end.

(** src: process_backend_linux.c sample_metadata_free *)
Definition sample_metadata_free (sample : PreviousProcessSample) (heap : Heap) : Heap :=
  free (sm_cgroup_path sample) (free (sm_executable sample) (free (sm_command sample) heap)).

(** src: process_backend_linux.c:268-279 rollback_sample_mutations *)
Definition rollback_mutation (state : list PreviousProcessSample * Heap)
    (mutation : PreviousProcessMutation) : list PreviousProcessSample * Heap :=
  let '(samples, heap) := state in
  match samples !! mu_index mutation with
  | None => state
  | Some current =>
      let before := mu_before mutation in
      (<[mu_index mutation := before]> samples,
       free_unless_same (sm_cgroup_path current) (sm_cgroup_path before)
         (free_unless_same (sm_executable current) (sm_executable before)
            (free_unless_same (sm_command current) (sm_command before) heap)))
  end.

(** The mutations are undone in reverse order. *)
(** src: process_backend_linux.c rollback_sample_mutations *)
Definition rollback_sample_mutations (samples : list PreviousProcessSample) (heap : Heap)
    (mutations : list PreviousProcessMutation) (original_sample_count : nat)
    : list PreviousProcessSample * Heap :=
  let '(samples, heap) := fold_left rollback_mutation (rev mutations) (samples, heap) in
  (take original_sample_count samples,
   fold_left (λ heap sample, sample_metadata_free sample heap) (drop original_sample_count samples) heap).

(** src: process_backend_linux.c commit_sample_mutations *)
Definition commit_sample_mutations (samples : list PreviousProcessSample)
    (mutations : list PreviousProcessMutation) (heap : Heap) : Heap :=
  fold_left (λ heap mutation,
      match samples !! mu_index mutation with
      | None => heap
      | Some current =>
          let before := mu_before mutation in
          free_unless_same (sm_cgroup_path before) (sm_cgroup_path current)
            (free_unless_same (sm_executable before) (sm_executable current)
               (free_unless_same (sm_command before) (sm_command current) heap))
      end) mutations heap.

(** The compaction: dead samples are released, live ones keep their order. *)
(** src: process_backend_linux.c:1255-1269 lsm_process_scan *)
Definition drop_dead_samples (generation : Z) (samples : list PreviousProcessSample) (heap : Heap)
    : list PreviousProcessSample * Heap :=
  (List.filter (λ sample, sm_generation sample =? generation) samples,
   fold_left (λ heap sample,
       if sm_generation sample =? generation then heap else sample_metadata_free sample heap) samples heap).

(** [compare_sample_pid] *)
(** src: process_backend_linux.c compare_sample_pid *)
Definition sample_pid_le (a b : PreviousProcessSample) : Prop := sm_pid a <= sm_pid b.
#[export] Instance sample_pid_le_dec a b : Decision (sample_pid_le a b).
Proof. unfold sample_pid_le. apply _. Defined.

(** *** One process *)

(** What does not change during a scan. *)
Record ScanContext := {
  sc_flags : Z;
  sc_total_delta : Z;
  sc_uptime : double;
  sc_sampled_at : double;
  sc_generation : Z;
  sc_searchable : nat;
}.

(** The row under construction, its sample, and the heap. *)
Record RowState := {
  rs_process : LsmProcessInfo;
  rs_sample : PreviousProcessSample;
  rs_heap : Heap;
}.
#[export] Instance eta_RowState : Eta RowState := λ x,
  Build_RowState (rs_process x) (rs_sample x) (rs_heap x).

(** A cached string is reused for [LSM_PROCESS_METADATA_REFRESH_SECONDS]. *)
Definition cache_fresh (sampled_at cached_at : double) : bool :=
  let age := dsub sampled_at cached_at in dle d0 age && dlt age metadata_refresh.

(** src: process_backend_linux.c:1063-1077 lsm_process_scan *)
Definition scan_command (ctx : ScanContext) (files : ProcFiles) (same_process : bool) (s : RowState)
    : RowState :=
  let cached := if same_process && cache_fresh (sc_sampled_at ctx) (sm_command_sampled_at (rs_sample s))
                then sm_command (rs_sample s) else None in
  match cached with
  | Some command => s <| rs_process := rs_process s <| p_command := lsm_copy_string 1024 (hs_text command) |> |>
  | None =>
      let process := read_process_command (pf_cmdline files) (rs_process s) in
      let '(heap, command) := strdup (rs_heap s) (p_command process) (pf_command_allocated files) in
      let s := s <| rs_process := process |> <| rs_heap := heap |> in
      match command with
      | Some _ => s <| rs_sample := rs_sample s <| sm_command := command |>
                                      <| sm_command_sampled_at := sc_sampled_at ctx |> |>
      | None => s
      end
  end.

(** src: process_backend_linux.c:1079-1096 lsm_process_scan *)
Definition scan_executable (ctx : ScanContext) (files : ProcFiles) (same_process : bool) (s : RowState)
    : RowState :=
  if negb (has_flag (sc_flags ctx) LSM_PROCESS_SCAN_EXECUTABLE) then s else
  let cached := if same_process && cache_fresh (sc_sampled_at ctx) (sm_executable_sampled_at (rs_sample s))
                then sm_executable (rs_sample s) else None in
  match cached with
  | Some executable =>
      s <| rs_process := rs_process s <| p_executable := lsm_copy_string LSM_PATH_LEN (hs_text executable) |> |>
  | None =>
      let process := read_process_executable (pf_exe files) (rs_process s) in
      let '(heap, executable) := strdup (rs_heap s) (p_executable process) (pf_executable_allocated files) in
      let s := s <| rs_process := process |> <| rs_heap := heap |> in
      match executable with
      | Some _ => s <| rs_sample := rs_sample s <| sm_executable := executable |>
                                      <| sm_executable_sampled_at := sc_sampled_at ctx |> |>
      | None => s
      end
  end.

(** src: process_backend_linux.c:1098-1099 lsm_process_scan *)
Definition scan_io (files : ProcFiles) (s : RowState) : RowState :=
  let '(available, process) := read_process_io (pf_io files) (rs_process s) in
  s <| rs_process := process <| p_io_totals_available := available |> <| p_io_rate_available := false |> |>.

(** The control group from the cache, and what is left to read. *)
(** src: process_backend_linux.c:1101-1113 lsm_process_scan *)
Definition cached_cgroup (ctx : ScanContext) (same_process : bool) (s : RowState) : RowState * Z :=
  let flags := Z.ldiff (sc_flags ctx) LSM_PROCESS_SCAN_EXECUTABLE in
  let cached := if has_flag (sc_flags ctx) LSM_PROCESS_SCAN_CGROUP && same_process
                   && cache_fresh (sc_sampled_at ctx) (sm_cgroup_sampled_at (rs_sample s))
                then sm_cgroup_path (rs_sample s) else None in
  match cached with
  | Some path =>
      (s <| rs_process := rs_process s <| p_cgroup_path := lsm_copy_string LSM_PATH_LEN (hs_text path) |>
                            <| p_cgroup_v2 := sm_cgroup_v2 (rs_sample s) |> |>,
       Z.ldiff flags LSM_PROCESS_SCAN_CGROUP)
  | None => (s, flags)
  end.

(** src: process_backend_linux.c:1116-1124 lsm_process_scan *)
Definition store_cgroup (ctx : ScanContext) (files : ProcFiles) (flags : Z) (s : RowState) : RowState :=
  if has_flag (sc_flags ctx) LSM_PROCESS_SCAN_CGROUP && has_flag flags LSM_PROCESS_SCAN_CGROUP then
    let '(heap, path) := strdup (rs_heap s) (p_cgroup_path (rs_process s)) (pf_cgroup_allocated files) in
    let s := s <| rs_heap := heap |> in
    match path with
    | Some _ => s <| rs_sample := rs_sample s <| sm_cgroup_path := path |>
                                    <| sm_cgroup_v2 := p_cgroup_v2 (rs_process s) |>
                                    <| sm_cgroup_sampled_at := sc_sampled_at ctx |> |>
    | None => s
    end
  else s.

(** src: process_backend_linux.c:1101-1124 lsm_process_scan *)
Definition scan_enrich (ctx : ScanContext) (files : ProcFiles) (same_process : bool) (s : RowState)
    : RowState :=
  let '(s, flags) := cached_cgroup ctx same_process s in
  let s := if flags =? 0 then s
           else s <| rs_process := (lsm_process_enrich (pf_enrich files) (p_pid (rs_process s)) (rs_process s)
                                     flags).2 |> in
  store_cgroup ctx files flags s.

(** The details of the row that come from files. *)
(** src: process_backend_linux.c:1063-1124 lsm_process_scan *)
Definition scan_details (ctx : ScanContext) (files : ProcFiles) (same_process : bool) (s : RowState) : RowState :=
  scan_enrich ctx files same_process
    (scan_io files (scan_executable ctx files same_process (scan_command ctx files same_process s))).

(** src: process_backend_linux.c:1126-1141 lsm_process_scan *)
Definition scan_times (backend : LsmProcessBackend) (ctx : ScanContext) (cpu_ticks : Z)
    (process : LsmProcessInfo) : LsmProcessInfo :=
  let process := process <| p_memory_percent :=
                   lsm_percent_u64 (p_rss_bytes process) (pb_total_memory_bytes backend) |> in
  let hertz := pb_ticks_per_second backend in
  if 0 <? hertz then
    let ns := lddiv (ldmul (ldouble_of_Z cpu_ticks) (ldouble_of_Z 1000000000)) (ldouble_of_Z hertz) in
    let started_after_boot := ddiv (double_of_Z (p_instance_id process)) (double_of_Z hertz) in
    process <| p_cpu_time_seconds := cpu_ticks / hertz |>
            <| p_cpu_time_nanoseconds := if SFleb (ldouble_of_Z uint64_max) ns then uint64_max else trunc_Z ns |>
            <| p_start_time_epoch := if 0 <? pb_boot_time_epoch backend
                                     then pb_boot_time_epoch backend + trunc_Z started_after_boot else 0 |>
            <| p_elapsed_seconds := if dlt started_after_boot (sc_uptime ctx)
                                    then trunc_Z (dsub (sc_uptime ctx) started_after_boot) else 0 |>
  else process.

(** src: process_backend_linux.c:1144-1150 lsm_process_scan *)
Definition scan_cpu (ctx : ScanContext) (same_process : bool) (cpu_ticks : Z)
    (sample : PreviousProcessSample) (process : LsmProcessInfo) : LsmProcessInfo :=
  if same_process && (0 <? sc_total_delta ctx) then
    let '(advanced, process_delta) := lsm_u64_counter_delta cpu_ticks (sm_cpu_ticks sample) 0 in
    if advanced : bool
    then process <| p_cpu_percent := lsm_process_cpu_total_percent process_delta (sc_total_delta ctx) |>
    else process
  else process.

(** src: process_backend_linux.c:1151-1162 lsm_process_scan *)
Definition scan_io_rates (ctx : ScanContext) (same_process : bool) (sample : PreviousProcessSample)
    (process : LsmProcessInfo) : LsmProcessInfo :=
  let interval := dsub (sc_sampled_at ctx) (sm_sampled_at sample) in
  if same_process && p_io_totals_available process && sm_io_available sample
     && dlt d0 (sm_sampled_at sample) && dlt d0 interval then
    let '(read_ok, read_rate) := lsm_u64_counter_rate (p_read_bytes process) (sm_read_bytes sample)
                                   (ldouble_of_Z 1) interval (p_read_bytes_per_sec process) in
    let '(write_ok, write_rate) := lsm_u64_counter_rate (p_write_bytes process) (sm_write_bytes sample)
                                     (ldouble_of_Z 1) interval (p_write_bytes_per_sec process) in
    process <| p_read_bytes_per_sec := read_rate |> <| p_write_bytes_per_sec := write_rate |>
            <| p_io_rate_available := read_ok && write_ok |>
  else process.

(** src: process_backend_linux.c:1164-1173 lsm_process_scan *)
Definition gpu_due (ctx : ScanContext) (same_process : bool) (sample : PreviousProcessSample) : bool :=
  let gpu_interval := dsub (sc_sampled_at ctx) (sm_gpu_sampled_at sample) in
  let refresh := if same_process && negb (sm_gpu_snapshot_valid sample) then gpu_negative_refresh
                 else gpu_refresh in
  negb same_process || dle (sm_gpu_sampled_at sample) d0 || dlt gpu_interval d0 || dle refresh gpu_interval.

(** src: process_backend_linux.c:1163-1215 lsm_process_scan *)
Definition scan_gpu (ctx : ScanContext) (files : ProcFiles) (same_process : bool)
    (sample : PreviousProcessSample) (process : LsmProcessInfo) : PreviousProcessSample * LsmProcessInfo :=
  if negb (has_flag (sc_flags ctx) LSM_PROCESS_SCAN_GPU) then (sample, process)
  else if gpu_due ctx same_process sample then
    let '(available, gpu) := lsm_process_gpu_read "/proc" (p_pid process) (pf_gpu files) in
    let '(sample, process) :=
      if available : bool then
        let process := process <| p_gpu_memory_bytes := if gs_memory_available gpu then gs_memory_bytes gpu else 0 |>
                               <| p_gpu_memory_available := gs_memory_available gpu |> in
        let comparable := same_process && sm_gpu_snapshot_valid sample in
        let gpu := if comparable then lsm_process_gpu_normalise gpu (sm_gpu sample) else gpu in
        let busiest := if comparable
                       then lsm_process_gpu_calculate_engine gpu (sm_gpu sample)
                              (dsub (sc_sampled_at ctx) (sm_gpu_sampled_at sample)) 256
                       else None in
        let process :=
          match busiest with
          | Some (percent, engine) => process <| p_gpu_percent := percent |> <| p_gpu_engine := engine |>
                                              <| p_gpu_available := true |>
          | None => if comparable
                    then process <| p_gpu_percent := d0 |> <| p_gpu_engine := EmptyString |>
                                 <| p_gpu_available := false |>
                    else process <| p_gpu_available := false |>
          end in
        (sample <| sm_gpu := gpu |> <| sm_gpu_snapshot_valid := true |>, process)
      else
        (sample <| sm_gpu_snapshot_valid := false |>,
         process <| p_gpu_available := false |> <| p_gpu_memory_available := false |>) in
    (sample <| sm_gpu_percent := p_gpu_percent process |>
            <| sm_gpu_memory_bytes := p_gpu_memory_bytes process |>
            <| sm_gpu_engine := lsm_copy_string 256 (p_gpu_engine process) |>
            <| sm_gpu_available := p_gpu_available process |>
            <| sm_gpu_memory_available := p_gpu_memory_available process |>
            <| sm_gpu_sampled_at := sc_sampled_at ctx |>, process)
  else
    (sample, process <| p_gpu_percent := sm_gpu_percent sample |>
                     <| p_gpu_memory_bytes := sm_gpu_memory_bytes sample |>
                     <| p_gpu_engine := lsm_copy_string 256 (sm_gpu_engine sample) |>
                     <| p_gpu_available := sm_gpu_available sample |>
                     <| p_gpu_memory_available := sm_gpu_memory_available sample |>).

(** src: process_backend_linux.c:1216-1224 lsm_process_scan *)
Definition store_baseline (ctx : ScanContext) (cpu_ticks : Z) (process : LsmProcessInfo)
    (sample : PreviousProcessSample) : PreviousProcessSample :=
  let sample := sample <| sm_start_ticks := p_instance_id process |> <| sm_cpu_ticks := cpu_ticks |> in
  let sample := if p_io_totals_available process
                then sample <| sm_read_bytes := p_read_bytes process |>
                            <| sm_write_bytes := p_write_bytes process |>
                else sample in
  sample <| sm_io_available := p_io_totals_available process |> <| sm_sampled_at := sc_sampled_at ctx |>
         <| sm_generation := sc_generation ctx |>.

(** Everything between finding the sample and appending the row.  [process] has
    its identity and its stat fields. *)
(** src: process_backend_linux.c:1055-1225 lsm_process_scan *)
Definition scan_row (ctx : ScanContext) (backend : LsmProcessBackend) (files : ProcFiles) (cpu_ticks : Z)
    (process : LsmProcessInfo) (sample : PreviousProcessSample)
    : LsmProcessInfo * PreviousProcessSample * Heap * list UidNameEntry :=
  let same_process := (sm_start_ticks sample =? p_instance_id process) && negb (sm_start_ticks sample =? 0) in
  let '(uid_names, process, status) :=
    read_process_status (pb_uid_names backend) (pf_status files) (pf_user files) (pf_uid_allocated files)
      process in
  let process := process <| p_owned_by_current_user :=
                   lu_uid_available status && (lu_uid status =? pb_current_uid backend) |> in
  let s := {| rs_process := process; rs_sample := sample; rs_heap := pb_heap backend |} in
  let s := scan_details ctx files same_process s in
  let process := scan_times backend ctx cpu_ticks (rs_process s) in
  let process := scan_cpu ctx same_process cpu_ticks (rs_sample s) process in
  let process := scan_io_rates ctx same_process (rs_sample s) process in
  let '(sample, process) := scan_gpu ctx files same_process (rs_sample s) process in
  (process, store_baseline ctx cpu_ticks process sample, rs_heap s, uid_names).

(** *** The scan *)

(** The backend, the mutation log and the rows so far. *)
Record ScanState := {
  ss_backend : LsmProcessBackend;
  ss_mutations : list PreviousProcessMutation;
  ss_rows : list LsmProcessInfo;
}.

(** The identity a row starts from: its PID, its stat record, its priority. *)
(** src: process_backend_linux.c:1033-1040 lsm_process_scan *)
Definition start_row (pid : Z) (files : ProcFiles) : option (LsmProcessInfo * Z) :=
  match read_process_stat (pf_stat files).1 (pf_stat files).2 (process_zero <| p_pid := pid |>) with
  | None => None
  | Some (process, native_stat) =>
      Some (process <| p_instance_id := ls_start_ticks native_stat |>
                    <| p_priority := priority_from_nice (ls_nice_value native_stat) |>
                    <| p_efficiency_mode := 10 <=? ls_nice_value native_stat |>,
            ls_cpu_ticks native_stat)
  end.

(** One directory entry; the boolean is [scan_failed]. *)
(** src: process_backend_linux.c:1023-1226 lsm_process_scan *)
Definition scan_entry (ctx : ScanContext) (s : ScanState) (entry : string * ProcFiles) : ScanState * bool :=
  let '(name, files) := entry in
  let backend := ss_backend s in
  match parse_proc_pid name with
  | None => (s, false)
  | Some pid =>
      if negb (pf_row_allocated files) then (s, true) else
      match start_row pid files with
      | None => (s, false)
      | Some (process, cpu_ticks) =>
          match find_or_create_sample (pb_samples backend) (sc_searchable ctx) pid
                  (pf_sample_allocated files) with
          | None => (s, true)
          | Some (samples, index) =>
              let sample := default sample_zero (samples !! index) in
              let mutations := if (index <? sc_searchable ctx)%nat
                               then ss_mutations s ++ [{| mu_index := index; mu_before := sample |}]
                               else ss_mutations s in
              let '(process, sample, heap, uid_names) :=
                scan_row ctx backend files cpu_ticks process sample in
              ({| ss_backend := backend <| pb_samples := <[index := sample]> samples |>
                                        <| pb_heap := heap |> <| pb_uid_names := uid_names |>;
                  ss_mutations := mutations; ss_rows := ss_rows s ++ [process] |}, false)
          end
      end
  end.

(** The enumeration stops at the first failure. *)
(** src: process_backend_linux.c:1013-1227 lsm_process_scan *)
Fixpoint scan_entries (ctx : ScanContext) (entries : list (string * ProcFiles)) (s : ScanState)
    : ScanState * bool :=
  match entries with
  | [] => (s, false)
  | entry :: entries =>
      let '(s, failed) := scan_entry ctx s entry in
      if failed : bool then (s, true) else scan_entries ctx entries s
  end.

(** [backend->generation++], never 0. *)
(** src: process_backend_linux.c:1001-1002 lsm_process_scan *)
Definition next_generation (generation : Z) : Z :=
  let next := wrap 32 (generation + 1) in if next =? 0 then 1 else next.

(** The snapshot, [None] when the scan failed, and the backend afterwards. *)
(** src: process_backend_linux.c lsm_process_scan *)
Definition lsm_process_scan (backend : LsmProcessBackend) (inputs : ScanInputs) (scan_flags : Z)
    : option (list LsmProcessInfo) * LsmProcessBackend :=
  match read_total_cpu_ticks (si_stat inputs) with
  | None => (None, backend)
  | Some current_total_ticks =>
      if negb (si_directory inputs) || negb (si_rows_allocated inputs) || negb (si_mutations_allocated inputs)
      then (None, backend) else
      let searchable := length (pb_samples backend) in
      let generation := next_generation (pb_generation backend) in
      let ctx := {| sc_flags := scan_flags;
                    sc_total_delta :=
                      (lsm_u64_counter_delta current_total_ticks (pb_previous_total_cpu_ticks backend) 0).2;
                    sc_uptime := read_uptime_seconds (si_uptime inputs);
                    sc_sampled_at := si_sampled_at inputs; sc_generation := generation;
                    sc_searchable := searchable |} in
      let '(s, failed) :=
        scan_entries ctx (si_entries inputs)
          {| ss_backend := backend <| pb_generation := generation |>; ss_mutations := []; ss_rows := [] |} in
      let scanned := ss_backend s in
      if failed || negb (si_readdir_ok inputs) || negb (si_closedir_ok inputs) then
        let '(samples, heap) := rollback_sample_mutations (pb_samples scanned) (pb_heap scanned)
                                  (ss_mutations s) searchable in
        (None, scanned <| pb_samples := samples |> <| pb_heap := heap |>
                       <| pb_generation := pb_generation backend |>)
      else
        let heap := commit_sample_mutations (pb_samples scanned) (ss_mutations s) (pb_heap scanned) in
        let appended := (searchable <? length (pb_samples scanned))%nat in
        let '(samples, heap) := drop_dead_samples generation (pb_samples scanned) heap in
        let samples := if appended then sorting.merge_sort sample_pid_le samples else samples in
        (Some (ss_rows s), scanned <| pb_samples := samples |> <| pb_heap := heap |>
                                   <| pb_previous_total_cpu_ticks := current_total_ticks |>)
  end.

(** [boot], [memory], [hertz] and [uid] are what the machine answered. *)
(** src: process_backend_linux.c lsm_process_backend_create *)
Definition lsm_process_backend_create (stat : option string) (page_size pages hertz uid : Z)
    : LsmProcessBackend :=
  {| pb_samples := []; pb_generation := 0; pb_previous_total_cpu_ticks := 0;
     pb_total_memory_bytes := if (0 <? page_size) && (0 <? pages)
                              then (lsm_u64_multiply_checked page_size pages 0).2 else 0;
     pb_ticks_per_second := hertz; pb_boot_time_epoch := read_boot_time stat; pb_uid_names := [];
     pb_current_uid := uid; pb_heap := {| hp_next := 0; hp_freed := [] |} |}.

(** The heap after the backend has released its strings. *)
(** src: process_backend_linux.c lsm_process_backend_destroy *)
Definition lsm_process_backend_destroy (backend : LsmProcessBackend) : Heap :=
  fold_left (λ heap sample, sample_metadata_free sample heap) (pb_samples backend) (pb_heap backend).
End scan.
