(* ===== verification/ScanOwnership.v ===== *)
(** * ScanOwnership: who owns the metadata strings of a scan

    The bookkeeping behind [ProcessScan]: every address handed out is freed once or
    owned once, where the owners are the samples and, during a scan, the log that
    keeps the replaced strings for a rollback.  Rolling back, committing, dropping
    the dead samples and sorting keep the books balanced. *)
From S2P Require Import Prelude ProcessScan.
From stdpp Require sorting.
Local Open Scope Z_scope.

(** ** Ownership of the metadata strings *)

Definition address (p : option HeapString) : list nat :=
  match p with Some s => [hs_address s] | None => [] end.

(** The addresses a sample owns. *)
Definition pointers (s : PreviousProcessSample) : list nat :=
  address (sm_command s) ++ address (sm_executable s) ++ address (sm_cgroup_path s).

Definition owned (samples : list PreviousProcessSample) : list nat := concat (pointers <$> samples).

Definition lost_pointer (p q : option HeapString) : list nat := if same_pointer p q then [] else address p.

(** What [a] owns and [b] does not. *)
Definition lost (a b : PreviousProcessSample) : list nat :=
  lost_pointer (sm_command a) (sm_command b)
  ++ lost_pointer (sm_executable a) (sm_executable b)
  ++ lost_pointer (sm_cgroup_path a) (sm_cgroup_path b).

(** What the original samples owned and their current versions do not. *)
Definition lost_all (originals samples : list PreviousProcessSample) : list nat :=
  concat (zip_with lost originals samples).

Definition occurrences (a : nat) (l : list nat) : nat := count_occ Nat.eq_dec l a.

#[global] Arguments pointers : simpl never.
#[global] Arguments lost : simpl never.
#[global] Arguments owned : simpl never.
#[global] Arguments lost_all : simpl never.
#[global] Arguments occurrences : simpl never.

(** Every address handed out so far is either freed once or in [live] once. *)
Definition balanced (heap : Heap) (live : list nat) : Prop :=
  ∀ a, (occurrences a (hp_freed heap) + occurrences a live = if decide (a < hp_next heap) then 1 else 0)%nat.

Lemma occurrences_app a l k : occurrences a (l ++ k) = (occurrences a l + occurrences a k)%nat.
Proof. apply count_occ_app. Qed.

Lemma occurrences_seq a start n :
  occurrences a (seq start n) = if decide (start ≤ a < start + n)%nat then 1%nat else 0%nat.
Proof.
  revert start. induction n as [|n IH]; intros start.
  { by rewrite decide_False by lia. }
  unfold occurrences in *. cbn [seq count_occ]. rewrite IH. destruct (Nat.eq_dec start a) as [->|Hne].
  - rewrite decide_False by lia. by rewrite decide_True by lia.
  - destruct (decide (S start ≤ a < S start + n)%nat); [by rewrite decide_True by lia|].
    by rewrite decide_False by lia.
Qed.

(** A balanced heap with nothing live has freed every string exactly once. *)
Lemma balanced_freed heap : balanced heap [] → hp_freed heap ≡ₚ seq 0 (hp_next heap).
Proof.
  intros Hb. apply (Permutation_count_occ Nat.eq_dec). intros a. specialize (Hb a).
  pose proof (occurrences_seq a 0 (hp_next heap)) as Hs. unfold occurrences in *. cbn in Hb. rewrite Hs.
  destruct (decide (a < hp_next heap)%nat); [rewrite decide_True by lia|rewrite decide_False by lia]; lia.
Qed.

Lemma balanced_ext heap live live' :
  (∀ a, occurrences a live = occurrences a live') → balanced heap live → balanced heap live'.
Proof. intros He Hb a. rewrite <-He. apply Hb. Qed.

Lemma balanced_lt heap live a : balanced heap live → a ∈ live → (a < hp_next heap)%nat.
Proof.
  intros Hb Ha. specialize (Hb a). destruct (decide (a < hp_next heap)%nat); [done|].
  apply list_elem_of_In, (count_occ_In Nat.eq_dec) in Ha. unfold occurrences in Hb. lia.
Qed.

Lemma free_next p heap : hp_next (free p heap) = hp_next heap.
Proof. by destruct p. Qed.

Lemma free_occurrences a p heap :
  occurrences a (hp_freed (free p heap)) = (occurrences a (address p) + occurrences a (hp_freed heap))%nat.
Proof. destruct p as [s|]; [|done]. unfold occurrences. cbn. by destruct (Nat.eq_dec _ a). Qed.

Lemma free_unless_next p q heap : hp_next (free_unless_same p q heap) = hp_next heap.
Proof. unfold free_unless_same. destruct (same_pointer p q); [done|apply free_next]. Qed.

Lemma free_unless_occurrences a p q heap :
  occurrences a (hp_freed (free_unless_same p q heap))
  = (occurrences a (lost_pointer p q) + occurrences a (hp_freed heap))%nat.
Proof. unfold free_unless_same, lost_pointer. destruct (same_pointer p q); [done|apply free_occurrences]. Qed.

Lemma metadata_free_next s heap : hp_next (sample_metadata_free s heap) = hp_next heap.
Proof. unfold sample_metadata_free. by rewrite !free_next. Qed.

Lemma metadata_free_occurrences a s heap :
  occurrences a (hp_freed (sample_metadata_free s heap))
  = (occurrences a (pointers s) + occurrences a (hp_freed heap))%nat.
Proof. unfold sample_metadata_free, pointers. rewrite !free_occurrences, !occurrences_app. lia. Qed.

(** Exchanging the two versions of a sample. *)
Lemma lost_pointer_swap a p q :
  (occurrences a (address p) + occurrences a (lost_pointer q p)
   = occurrences a (address q) + occurrences a (lost_pointer p q))%nat.
Proof.
  unfold lost_pointer, same_pointer.
  destruct (decide (hs_address <$> p = hs_address <$> q)) as [E|E].
  - rewrite !bool_decide_eq_true_2 by done.
    destruct p as [s|], q as [t|]; cbn in E; try done. cbn. by injection E as ->.
  - rewrite !bool_decide_eq_false_2 by congruence. lia.
Qed.

Lemma lost_swap a s t :
  (occurrences a (pointers s) + occurrences a (lost t s)
   = occurrences a (pointers t) + occurrences a (lost s t))%nat.
Proof.
  unfold pointers, lost. rewrite !occurrences_app.
  pose proof (lost_pointer_swap a (sm_command s) (sm_command t)).
  pose proof (lost_pointer_swap a (sm_executable s) (sm_executable t)).
  pose proof (lost_pointer_swap a (sm_cgroup_path s) (sm_cgroup_path t)). lia.
Qed.

Lemma lost_self s : lost s s = [].
Proof. unfold lost, lost_pointer, same_pointer. by rewrite !bool_decide_eq_true_2 by done. Qed.

Lemma owned_app l k : owned (l ++ k) = owned l ++ owned k.
Proof. unfold owned. by rewrite fmap_app, concat_app. Qed.

Lemma occurrences_owned_cons a s l :
  occurrences a (owned (s :: l)) = (occurrences a (pointers s) + occurrences a (owned l))%nat.
Proof. apply (occurrences_app a (pointers s)). Qed.

Lemma occurrences_lost_cons a s t l k :
  occurrences a (lost_all (s :: l) (t :: k)) = (occurrences a (lost s t) + occurrences a (lost_all l k))%nat.
Proof. apply (occurrences_app a (lost s t)). Qed.

Lemma elem_of_owned samples i s x : samples !! i = Some s → x ∈ pointers s → x ∈ owned samples.
Proof.
  intros Hi Hx. rewrite <-(take_drop_middle samples i s Hi), owned_app. apply elem_of_app. right.
  apply elem_of_app. by left.
Qed.

Lemma owned_update a samples i s s' :
  samples !! i = Some s →
  (occurrences a (owned (<[i := s']> samples)) + occurrences a (pointers s)
   = occurrences a (owned samples) + occurrences a (pointers s'))%nat.
Proof.
  revert i. induction samples as [|x samples IH]; intros [|i] Hi; cbn in Hi; try done.
  - injection Hi as ->. cbn. rewrite !occurrences_owned_cons. lia.
  - specialize (IH i Hi). change (<[S i:=s']> (x :: samples)) with (x :: <[i:=s']> samples).
    rewrite !occurrences_owned_cons. lia.
Qed.

Lemma lost_all_update a originals samples i s0 s s' :
  originals !! i = Some s0 → samples !! i = Some s →
  (occurrences a (lost_all originals (<[i := s']> samples)) + occurrences a (lost s0 s)
   = occurrences a (lost_all originals samples) + occurrences a (lost s0 s'))%nat.
Proof.
  revert i samples. induction originals as [|x originals IH]; intros [|i] [|y samples] H0 Hi;
    cbn in H0, Hi; try done.
  - injection H0 as ->. injection Hi as ->. cbn. rewrite !occurrences_lost_cons. lia.
  - specialize (IH i samples H0 Hi). change (<[S i:=s']> (y :: samples)) with (y :: <[i:=s']> samples).
    rewrite !occurrences_lost_cons. lia.
Qed.

Lemma lost_all_beyond originals samples i s' :
  (length originals ≤ i)%nat → lost_all originals (<[i := s']> samples) = lost_all originals samples.
Proof.
  revert i samples. induction originals as [|x originals IH]; intros i samples Hi; [done|].
  destruct samples as [|y samples]; [done|]. destruct i as [|i]; cbn in Hi; [lia|].
  unfold lost_all in *. change (<[S i:=s']> (y :: samples)) with (y :: <[i:=s']> samples).
  cbn [zip_with concat]. by rewrite IH by lia.
Qed.

Lemma lost_all_same samples : lost_all samples samples = [].
Proof. unfold lost_all. induction samples as [|x samples IH]; [done|]. cbn [zip_with concat]. by rewrite lost_self, IH. Qed.

Lemma lost_all_take originals samples k :
  (length originals ≤ length samples)%nat →
  lost_all originals (samples ++ k) = lost_all originals samples.
Proof.
  revert samples. induction originals as [|x originals IH]; intros [|y samples] Hl; cbn in Hl; try done; [lia|].
  unfold lost_all in *. cbn [app zip_with concat]. by rewrite IH by lia.
Qed.

(** The transaction's books: what is freed, what the samples own, and what the
    log keeps alive for a rollback. *)
Definition books (originals samples : list PreviousProcessSample) (heap : Heap) : Prop :=
  balanced heap (owned samples ++ lost_all originals samples).

(** Releasing a run of samples. *)
Lemma release_all samples heap live :
  balanced heap (owned samples ++ live) →
  balanced (fold_left (λ heap sample, sample_metadata_free sample heap) samples heap) live.
Proof.
  revert heap. induction samples as [|s samples IH]; intros heap Hb; [done|]. cbn. apply IH.
  intros a. specialize (Hb a). rewrite metadata_free_next, metadata_free_occurrences.
  rewrite occurrences_app in Hb |- *. rewrite occurrences_owned_cons in Hb. lia.
Qed.

(** *** Rollback *)

(** The log of a scan over [originals]: every entry saves the original. *)
Record log_ok (originals : list PreviousProcessSample) (mutations : list PreviousProcessMutation) : Prop := {
  lg_before m : m ∈ mutations → originals !! mu_index m = Some (mu_before m);
  lg_distinct : NoDup (mu_index <$> mutations);
}.

Lemma rollback_mutation_books originals samples heap m :
  books originals samples heap → originals !! mu_index m = Some (mu_before m) →
  let r := rollback_mutation (samples, heap) m in books originals r.1 r.2.
Proof.
  intros Hb Ho. cbn. destruct (samples !! mu_index m) as [c|] eqn:Hc; [|done]. cbn. intros a.
  specialize (Hb a). rewrite !free_unless_next, !free_unless_occurrences. rewrite !occurrences_app in *.
  pose proof (owned_update a samples _ c (mu_before m) Hc).
  pose proof (lost_all_update a originals samples _ _ c (mu_before m) Ho Hc) as Hl.
  rewrite lost_self in Hl. change (occurrences a []) with 0%nat in Hl. pose proof (lost_swap a c (mu_before m)) as Hs.
  unfold lost at 2 in Hs. rewrite !occurrences_app in Hs. lia.
Qed.

Lemma rollback_mutation_lookup samples heap m i :
  (rollback_mutation (samples, heap) m).1 !! i
  = if decide (i = mu_index m) then (λ _, mu_before m) <$> samples !! i else samples !! i.
Proof.
  cbn. destruct (samples !! mu_index m) as [c|] eqn:Hc; cbn.
  - destruct (decide (i = mu_index m)) as [->|Hne].
    + rewrite Hc. cbn. by rewrite list_lookup_insert_eq by by eapply lookup_lt_Some.
    + by rewrite list_lookup_insert_ne by congruence.
  - destruct (decide (i = mu_index m)) as [->|Hne]; [by rewrite Hc|done].
Qed.

Lemma rollback_all originals mutations samples heap :
  log_ok originals mutations → books originals samples heap → (length originals ≤ length samples)%nat →
  let r := fold_left rollback_mutation mutations (samples, heap) in
  books originals r.1 r.2 ∧ length r.1 = length samples
  ∧ ∀ i, r.1 !! i = match list_find (λ m, mu_index m = i) mutations with
                    | Some (_, m) => Some (mu_before m)
                    | None => samples !! i
                    end.
Proof.
  intros [Hbefore Hd]. revert samples heap. induction mutations as [|m ms IH]; intros samples heap Hb Hl; [done|].
  cbn [fold_left]. destruct (rollback_mutation (samples, heap) m) as [samples1 heap1] eqn:Em.
  assert (Hm : originals !! mu_index m = Some (mu_before m)) by (apply Hbefore; by left).
  pose proof (rollback_mutation_books originals samples heap m Hb Hm) as Hb1. rewrite Em in Hb1.
  pose proof (λ i, rollback_mutation_lookup samples heap m i) as Hl1. rewrite Em in Hl1. cbn in Hb1, Hl1.
  assert (length samples1 = length samples) as El.
  { cbn in Em. destruct (samples !! mu_index m); injection Em as <- _; [apply length_insert|done]. }
  rewrite fmap_cons, NoDup_cons in Hd. destruct Hd as [Hnot Hd].
  assert (∀ m0, m0 ∈ ms → originals !! mu_index m0 = Some (mu_before m0)) as Hrest
    by (intros; apply Hbefore; by right).
  destruct (IH Hrest Hd samples1 heap1 Hb1 ltac:(lia)) as (Hb2 & Hlen & Hlook).
  split; [done|]. split; [by rewrite Hlen|]. intros i. rewrite Hlook. cbn [list_find].
  destruct (list_find (λ m0, mu_index m0 = i) ms) as [[j m0]|] eqn:Ef.
  - rewrite decide_False; [done|]. intros Hi. apply list_find_Some in Ef as (Hj & Hm0 & _).
    apply Hnot. rewrite Hi, <-Hm0. by eapply list_elem_of_fmap_2, list_elem_of_lookup_2.
  - rewrite Hl1. destruct (decide (mu_index m = i)) as [<-|Hne]; [|by rewrite decide_False by congruence].
    rewrite decide_True by done. destruct (lookup_lt_is_Some_2 samples (mu_index m)) as [c ->]; [|done].
    apply lookup_lt_Some in Hm. lia.
Qed.

(** *** Commit *)

Lemma lost_all_update_original a originals samples i s0 s0' s :
  originals !! i = Some s0 → samples !! i = Some s →
  (occurrences a (lost_all (<[i := s0']> originals) samples) + occurrences a (lost s0 s)
   = occurrences a (lost_all originals samples) + occurrences a (lost s0' s))%nat.
Proof.
  revert i samples. induction originals as [|x originals IH]; intros [|i] [|y samples] H0 Hi;
    cbn in H0, Hi; try done.
  - injection H0 as ->. injection Hi as ->. cbn. rewrite !occurrences_lost_cons. lia.
  - specialize (IH i samples H0 Hi).
    change (<[S i:=s0']> (x :: originals)) with (x :: <[i:=s0']> originals).
    rewrite !occurrences_lost_cons. lia.
Qed.

Lemma lost_all_none originals samples :
  (∀ i s0 s, originals !! i = Some s0 → samples !! i = Some s → s0 = s) → lost_all originals samples = [].
Proof.
  revert samples. induction originals as [|x originals IH]; intros [|y samples] He; try done.
  unfold lost_all in *. cbn [zip_with concat]. rewrite (He 0%nat x y) by done. rewrite lost_self. cbn.
  apply IH. intros i s0 s. apply (He (S i)).
Qed.

(** A commit releases what the log saved and the samples no longer own. *)
Lemma commit_books originals samples mutations heap :
  log_ok originals mutations → books originals samples heap →
  (∀ i s0 s, originals !! i = Some s0 → samples !! i = Some s → s0 = s ∨ i ∈ mu_index <$> mutations) →
  balanced (commit_sample_mutations samples mutations heap) (owned samples).
Proof.
  unfold commit_sample_mutations. intros [Hbefore Hd]. revert originals heap Hbefore.
  induction mutations as [|m ms IH]; intros originals heap Hbefore Hb Hsame; cbn [fold_left].
  { apply (balanced_ext _ (owned samples ++ lost_all originals samples)); [|done].
    rewrite lost_all_none; [intros a; by rewrite app_nil_r|].
    intros i s0 s H0 Hs. destruct (Hsame i s0 s H0 Hs) as [|Hin]; [done|]. by apply elem_of_nil in Hin. }
  rewrite fmap_cons, NoDup_cons in Hd. destruct Hd as [Hnot Hd].
  assert (Hm : originals !! mu_index m = Some (mu_before m)) by (apply Hbefore; by left).
  assert (Hms : ∀ m0, m0 ∈ ms → mu_index m0 ≠ mu_index m).
  { intros m0 Hm0 E. apply Hnot. rewrite <-E. by apply list_elem_of_fmap_2. }
  destruct (samples !! mu_index m) as [c|] eqn:Hc.
  - apply (IH Hd (<[mu_index m := c]> originals)).
    + intros m0 Hm0. rewrite list_lookup_insert_ne by (specialize (Hms m0 Hm0); congruence).
      apply Hbefore. by right.
    + intros a. specialize (Hb a). rewrite !free_unless_next, !free_unless_occurrences.
      rewrite !occurrences_app in *.
      pose proof (lost_all_update_original a originals samples _ _ c c Hm Hc) as Hl.
      rewrite lost_self in Hl. change (occurrences a []) with 0%nat in Hl.
      unfold lost in Hl. rewrite !occurrences_app in Hl. lia.
    + intros i s0 s H0 Hs. destruct (decide (i = mu_index m)) as [->|Hne].
      * rewrite list_lookup_insert_eq in H0 by by eapply lookup_lt_Some. left. congruence.
      * rewrite list_lookup_insert_ne in H0 by congruence. destruct (Hsame i s0 s H0 Hs) as [|Hin]; [by left|].
        rewrite fmap_cons, elem_of_cons in Hin. destruct Hin as [|]; [done|by right].
  - apply (IH Hd originals); [intros; apply Hbefore; by right|done|].
    intros i s0 s H0 Hs. destruct (Hsame i s0 s H0 Hs) as [|Hin]; [by left|].
    rewrite fmap_cons, elem_of_cons in Hin. destruct Hin as [->|]; [congruence|by right].
Qed.

(** *** Compaction and sorting *)

Lemma drop_dead_balanced generation samples heap :
  balanced heap (owned samples) →
  balanced (drop_dead_samples generation samples heap).2 (owned (drop_dead_samples generation samples heap).1).
Proof.
  cbn [drop_dead_samples fst snd]. intros Hb.
  enough (∀ live, balanced heap (owned samples ++ live) →
    balanced (fold_left (λ heap sample, if sm_generation sample =? generation then heap
                                        else sample_metadata_free sample heap) samples heap)
             (owned (List.filter (λ s, sm_generation s =? generation) samples) ++ live)) as Hgen.
  { apply (balanced_ext _ (owned (List.filter (λ s, sm_generation s =? generation) samples) ++ []));
      [intros a; by rewrite app_nil_r|]. apply Hgen. by rewrite app_nil_r. }
  clear Hb. revert heap. induction samples as [|s samples IH]; intros heap live Hb; [done|]. cbn.
  destruct (sm_generation s =? generation).
  - apply (balanced_ext _ (owned (List.filter (λ s, sm_generation s =? generation) samples) ++ pointers s ++ live)).
    { intros a. rewrite !occurrences_app, occurrences_owned_cons. lia. }
    apply IH. eapply balanced_ext, Hb. intros a. rewrite !occurrences_app, occurrences_owned_cons. lia.
  - apply IH. intros a. specialize (Hb a). rewrite metadata_free_next, metadata_free_occurrences.
    rewrite occurrences_app in Hb |- *. rewrite occurrences_owned_cons in Hb. lia.
Qed.

Lemma owned_permutation a l k : l ≡ₚ k → occurrences a (owned l) = occurrences a (owned k).
Proof.
  induction 1 as [|s l k _ IH|s t l|l k m _ IH1 _ IH2]; [done| | |congruence];
    rewrite !occurrences_owned_cons; lia.
Qed.
