(* ===== verification/ScanTransaction.v ===== *)
(** * ScanTransaction: what a process scan does

    The facts about one row of [ProcessScan], the invariant of the enumeration, and
    the properties of a whole scan: a failed one restores the backend, a successful
    one refines a map from PIDs to baselines, and over any sequence of scans every
    metadata string is freed exactly once. *)
From S2P Require Import Prelude Double CStrings Common ProcessModel SortedVector ProcessStat ProcessGpu.
From S2P Require Import ProcessFiles ProcessControl ProcessScan ScanOwnership.
From stdpp Require sorting.
From Stdlib Require Sorted.
Local Open Scope Z_scope.

(** ** One row *)

(** What is kept of a process from one scan to the next: its instance, its CPU
    ticks, its read and write totals if they were known, and when. *)
Record Baseline := {
  bl_instance : Z;
  bl_cpu_ticks : Z;
  bl_io : option (Z * Z);
  bl_sampled_at : double;
}.

Section rows.
Context `{ArithmeticOps, TextOps, NumberOps}.

(** The totals of a row and of a sample. *)
Definition row_io (p : LsmProcessInfo) : option (Z * Z) :=
  if p_io_totals_available p then Some (p_read_bytes p, p_write_bytes p) else None.
Definition sample_io (s : PreviousProcessSample) : option (Z * Z) :=
  if sm_io_available s then Some (sm_read_bytes s, sm_write_bytes s) else None.

(** The part of a sample that identifies it and carries the baselines. *)
Definition sample_core (s : PreviousProcessSample) : Z * Z * Z * Z * Z * bool * double :=
  (sm_pid s, sm_start_ticks s, sm_cpu_ticks s, sm_read_bytes s, sm_write_bytes s, sm_io_available s,
   sm_sampled_at s).

(** A phase may replace one metadata string by a fresh one. *)
Definition fresh_pointer (heap heap' : Heap) (p p' : option HeapString) : Prop :=
  hp_freed heap' = hp_freed heap ∧
  ((hp_next heap' = hp_next heap ∧ p' = p)
   ∨ (hp_next heap' = S (hp_next heap) ∧ address p' = [hp_next heap])).

Lemma fresh_same heap p : fresh_pointer heap heap p p.
Proof. split; auto. Qed.

Lemma fresh_lost a heap heap' p p' :
  fresh_pointer heap heap' p p' → Forall (λ x, (x < hp_next heap)%nat) (address p) →
  occurrences a (lost_pointer p' p)
  = if decide (hp_next heap ≤ a < hp_next heap')%nat then 1%nat else 0%nat.
Proof.
  intros [_ [[-> ->]|[-> Hp]]] Hold.
  - rewrite decide_False by lia. unfold lost_pointer, same_pointer. by rewrite bool_decide_eq_true_2.
  - unfold lost_pointer, same_pointer. rewrite bool_decide_eq_false_2.
    + rewrite Hp. unfold occurrences. cbn. destruct (Nat.eq_dec _ a) as [->|Hne].
      * by rewrite decide_True by lia.
      * by rewrite decide_False by lia.
    + destruct p' as [s'|], p as [s|]; cbn in *; try done. intros [= E]. injection Hp as Hp.
      apply Forall_cons_1 in Hold as [Hlt _]. lia.
Qed.

Lemma fresh_next heap heap' p p' : fresh_pointer heap heap' p p' → (hp_next heap ≤ hp_next heap')%nat.
Proof. intros [_ [[-> _]|[-> _]]]; lia. Qed.

Lemma scan_command_spec ctx files same s :
  let s' := scan_command ctx files same s in
  row_core (rs_process s') = row_core (rs_process s)
  ∧ sample_core (rs_sample s') = sample_core (rs_sample s)
  ∧ fresh_pointer (rs_heap s) (rs_heap s') (sm_command (rs_sample s)) (sm_command (rs_sample s'))
  ∧ sm_executable (rs_sample s') = sm_executable (rs_sample s)
  ∧ sm_cgroup_path (rs_sample s') = sm_cgroup_path (rs_sample s).
Proof.
  cbv zeta. unfold scan_command. destruct (if _ && _ then _ else None) as [c|].
  { split_and!; try done. apply fresh_same. }
  pose proof (command_core (pf_cmdline files) (rs_process s)) as Hc.
  destruct (pf_command_allocated files); cbn [strdup].
  - split_and!; try done. by split; [|right].
  - split_and!; try done. apply fresh_same.
Qed.

Lemma scan_executable_spec ctx files same s :
  let s' := scan_executable ctx files same s in
  row_core (rs_process s') = row_core (rs_process s)
  ∧ sample_core (rs_sample s') = sample_core (rs_sample s)
  ∧ fresh_pointer (rs_heap s) (rs_heap s') (sm_executable (rs_sample s)) (sm_executable (rs_sample s'))
  ∧ sm_command (rs_sample s') = sm_command (rs_sample s)
  ∧ sm_cgroup_path (rs_sample s') = sm_cgroup_path (rs_sample s).
Proof.
  cbv zeta. unfold scan_executable.
  destruct (negb _); [split_and!; try done; apply fresh_same|].
  destruct (if _ && _ then _ else None) as [c|].
  { split_and!; try done. apply fresh_same. }
  destruct (pf_executable_allocated files); cbn [strdup].
  - split_and!; try done. by split; [|right].
  - split_and!; try done. apply fresh_same.
Qed.

Lemma scan_io_spec files s :
  let s' := scan_io files s in
  rs_sample s' = rs_sample s ∧ rs_heap s' = rs_heap s ∧ row_io (rs_process s') = io_totals (pf_io files)
  ∧ (p_io_rate_available (rs_process s) = false → row_core (rs_process s') = row_core (rs_process s)).
Proof.
  cbv zeta. unfold scan_io. pose proof (io_core (pf_io files) (rs_process s)) as Hc.
  pose proof (io_totals_spec (pf_io files) (rs_process s)) as Ht.
  destruct (read_process_io _ _) as [available process]. do 2 (split; [done|]). split; [by destruct available|].
  intros Hr. cbn in *. unfold row_core in *. cbn. rewrite Hr in Hc. by injection Hc as -> -> -> -> -> _; rewrite Hr.
Qed.

Lemma scan_enrich_spec ctx files same s :
  let s' := scan_enrich ctx files same s in
  row_frame (rs_process s') = row_frame (rs_process s)
  ∧ sample_core (rs_sample s') = sample_core (rs_sample s)
  ∧ fresh_pointer (rs_heap s) (rs_heap s') (sm_cgroup_path (rs_sample s)) (sm_cgroup_path (rs_sample s'))
  ∧ sm_command (rs_sample s') = sm_command (rs_sample s)
  ∧ sm_executable (rs_sample s') = sm_executable (rs_sample s).
Proof.
  cbv zeta. unfold scan_enrich.
  assert (Hc : let r := cached_cgroup ctx same s in
    row_frame (rs_process r.1) = row_frame (rs_process s) ∧ rs_sample r.1 = rs_sample s ∧ rs_heap r.1 = rs_heap s)
    by (unfold cached_cgroup; cbv zeta; repeat case_goal; done).
  destruct (cached_cgroup ctx same s) as [s1 flags]. cbn in Hc. destruct Hc as (Hp & Hs & Hh).
  rewrite <-Hs, <-Hh. set (s2 := if flags =? 0 then s1 else _).
  assert (row_frame (rs_process s2) = row_frame (rs_process s) ∧ rs_sample s2 = rs_sample s1
          ∧ rs_heap s2 = rs_heap s1) as (Hp2 & <- & <-).
  { unfold s2. destruct (flags =? 0); [done|]. cbn. by rewrite enrich_frame. }
  clearbody s2. unfold store_cgroup. destruct (_ && _); [|split_and!; try done; apply fresh_same].
  destruct (pf_cgroup_allocated files); cbn [strdup].
  - split_and!; try done. by split; [|right].
  - split_and!; try done. apply fresh_same.
Qed.

Lemma scan_times_core backend ctx cpu p :
  row_core (scan_times backend ctx cpu p) = row_core p ∧ row_totals (scan_times backend ctx cpu p) = row_totals p.
Proof. unfold scan_times. cbv zeta. by destruct (0 <? _). Qed.

(** The instance the baseline belongs to. *)
Definition same_instance (sample : PreviousProcessSample) (instance : Z) : bool :=
  (sm_start_ticks sample =? instance) && negb (sm_start_ticks sample =? 0).

(** A sample as the baseline it stands for. *)
Definition abstract_baseline (s : PreviousProcessSample) : Baseline :=
  {| bl_instance := sm_start_ticks s; bl_cpu_ticks := sm_cpu_ticks s; bl_io := sample_io s;
     bl_sampled_at := sm_sampled_at s |}.

(** The baseline of the very instance, if there is one. *)
Definition own_baseline (baseline : option Baseline) (instance : Z) : option Baseline :=
  baseline ≫= λ bl, if (bl_instance bl =? instance) && negb (bl_instance bl =? 0) then Some bl else None.

(** The share of the machine's time since the baseline. *)
Definition cpu_share (total_delta cpu : Z) (own : option Baseline) : double :=
  match own with
  | Some bl =>
      let '(advanced, delta) := lsm_u64_counter_delta cpu (bl_cpu_ticks bl) 0 in
      if (0 <? total_delta) && advanced then lsm_percent_u64 delta total_delta else d0
  | None => d0
  end.

(** The read and write rates since the baseline: both totals are known then and
    now, time has passed, and neither counter went back. *)
Definition io_rates (now : double) (own : option Baseline) (io : option (Z * Z)) : option (double * double) :=
  bl ← own; totals ← io; before ← bl_io bl;
  let elapsed := dsub now (bl_sampled_at bl) in
  let '(read_ok, read_rate) := lsm_u64_counter_rate totals.1 before.1 (ldouble_of_Z 1) elapsed d0 in
  let '(write_ok, write_rate) := lsm_u64_counter_rate totals.2 before.2 (ldouble_of_Z 1) elapsed d0 in
  if dlt d0 (bl_sampled_at bl) && dlt d0 elapsed && read_ok && write_ok then Some (read_rate, write_rate) else None.

(** The rates a row publishes. *)
Definition row_rates (p : LsmProcessInfo) : option (double * double) :=
  if p_io_rate_available p then Some (p_read_bytes_per_sec p, p_write_bytes_per_sec p) else None.

(** A row before its rates. *)
Definition rates_unset (p : LsmProcessInfo) : Prop :=
  p_cpu_percent p = d0 ∧ p_read_bytes_per_sec p = d0 ∧ p_write_bytes_per_sec p = d0
  ∧ p_io_rate_available p = false.

Lemma rates_unset_core p q : row_core q = row_core p → rates_unset p → rates_unset q.
Proof. unfold row_core, rates_unset. intros [= _ _ -> -> -> ->]. done. Qed.

Lemma scan_rates_spec ctx same sample cpu p :
  same = same_instance sample (p_instance_id p) → rates_unset p →
  let own := own_baseline (Some (abstract_baseline sample)) (p_instance_id p) in
  let p' := scan_io_rates ctx same sample (scan_cpu ctx same cpu sample p) in
  p_pid p' = p_pid p ∧ p_instance_id p' = p_instance_id p ∧ row_totals p' = row_totals p
  ∧ p_cpu_percent p' = cpu_share (sc_total_delta ctx) cpu own
  ∧ row_rates p' = io_rates (sc_sampled_at ctx) own (row_io p).
Proof.
  intros Hsame (Hc & Hr & Hw & Ha). cbv zeta.
  assert (own_baseline (Some (abstract_baseline sample)) (p_instance_id p) = if same then Some (abstract_baseline sample) else None)
    as -> by by rewrite Hsame.
  set (q := scan_cpu ctx same cpu sample p).
  assert (Hq : p_pid q = p_pid p ∧ p_instance_id q = p_instance_id p ∧ row_totals q = row_totals p
    ∧ p_cpu_percent q = cpu_share (sc_total_delta ctx) cpu (if same then Some (abstract_baseline sample) else None)
    ∧ p_read_bytes_per_sec q = d0 ∧ p_write_bytes_per_sec q = d0 ∧ p_io_rate_available q = false).
  { unfold q, scan_cpu, cpu_share. destruct same; [|done]. cbn [andb abstract_baseline bl_cpu_ticks].
    destruct (lsm_u64_counter_delta cpu _ 0) as [[] d]; by destruct (0 <? sc_total_delta ctx). }
  clearbody q. clear Hsame. destruct Hq as (Hp & Hi & Ht & Hcpu & Hr' & Hw' & Ha').
  assert (row_io p = row_io q) as -> by (unfold row_totals in Ht; unfold row_io; by injection Ht as -> -> ->).
  unfold scan_io_rates, io_rates, row_rates, row_io, sample_io, abstract_baseline, sample_io. cbv zeta.
  destruct same; cbn [andb mbind option_bind]; [|by rewrite Ha'].
  destruct (p_io_totals_available q) eqn:Et; cbn [andb mbind option_bind]; [|by rewrite Ha'].
  cbn [bl_io bl_sampled_at]. destruct (sm_io_available sample); cbn [andb mbind option_bind]; [|by rewrite Ha'].
  cbn [fst snd]. rewrite Hr', Hw'.
  destruct (lsm_u64_counter_rate (p_read_bytes q) _ _ _ _) as [rok rrate].
  destruct (lsm_u64_counter_rate (p_write_bytes q) _ _ _ _) as [wok wrate].
  destruct (dlt d0 (sm_sampled_at sample)); cbn [andb]; [|by rewrite Ha'].
  destruct (dlt d0 _); cbn [andb]; [|by rewrite Ha']. done.
Qed.

Lemma scan_gpu_spec ctx files same sample p :
  let r := scan_gpu ctx files same sample p in
  row_core r.2 = row_core p ∧ row_totals r.2 = row_totals p ∧ sample_core r.1 = sample_core sample
  ∧ sm_command r.1 = sm_command sample ∧ sm_executable r.1 = sm_executable sample
  ∧ sm_cgroup_path r.1 = sm_cgroup_path sample.
Proof.
  cbv zeta. unfold scan_gpu. destruct (negb _); [done|]. destruct (gpu_due _ _ _); [|done].
  destruct (lsm_process_gpu_read _ _ _) as [[] gpu]; [|done]. cbv zeta.
  destruct (same && sm_gpu_snapshot_valid sample); [|done].
  by destruct (lsm_process_gpu_calculate_engine _ _ _ _) as [[percent engine]|].
Qed.

(** The sample as the scan leaves it. *)
Record committed (ctx : ScanContext) (pid instance cpu : Z) (io : option (Z * Z)) (s : PreviousProcessSample) : Prop := {
  cm_pid : sm_pid s = pid;
  cm_start : sm_start_ticks s = instance;
  cm_cpu : sm_cpu_ticks s = cpu;
  cm_io : sample_io s = io;
  cm_sampled : sm_sampled_at s = sc_sampled_at ctx;
  cm_generation : sm_generation s = sc_generation ctx;
}.

Lemma store_baseline_spec ctx cpu p s :
  committed ctx (sm_pid s) (p_instance_id p) cpu (row_io p) (store_baseline ctx cpu p s)
  ∧ pointers (store_baseline ctx cpu p s) = pointers s
  ∧ ∀ t, lost (store_baseline ctx cpu p s) t = lost s t.
Proof.
  unfold store_baseline, row_io. cbv zeta. destruct (p_io_totals_available p) eqn:E; split_and!; try done;
    split; try done; unfold sample_io; cbn; by rewrite E.
Qed.

Record row_result (ctx : ScanContext) (backend : LsmProcessBackend) (cpu : Z) (io : option (Z * Z))
    (process : LsmProcessInfo) (sample : PreviousProcessSample) (row : LsmProcessInfo)
    (sample' : PreviousProcessSample) (heap' : Heap) : Prop := {
  rr_pid : p_pid row = p_pid process;
  rr_instance : p_instance_id row = p_instance_id process;
  rr_io : row_io row = io;
  rr_cpu : p_cpu_percent row =
    cpu_share (sc_total_delta ctx) cpu (own_baseline (Some (abstract_baseline sample)) (p_instance_id process));
  rr_rates : row_rates row =
    io_rates (sc_sampled_at ctx) (own_baseline (Some (abstract_baseline sample)) (p_instance_id process)) io;
  rr_committed : committed ctx (sm_pid sample) (p_instance_id process) cpu io sample';
  rr_freed : hp_freed heap' = hp_freed (pb_heap backend);
  rr_next : (hp_next (pb_heap backend) ≤ hp_next heap')%nat;
  rr_lost a : Forall (λ x, (x < hp_next (pb_heap backend))%nat) (pointers sample) →
    occurrences a (lost sample' sample)
    = if decide (hp_next (pb_heap backend) ≤ a < hp_next heap')%nat then 1%nat else 0%nat;
}.

Lemma totals_io p q : row_totals p = row_totals q → row_io p = row_io q.
Proof. unfold row_totals, row_io. by intros [= -> -> ->]. Qed.

(** The files leave the identity and the baselines alone, and every fresh string
    is in the sample. *)
Lemma scan_details_spec ctx files same s :
  rates_unset (rs_process s) →
  let s' := scan_details ctx files same s in
  row_core (rs_process s') = row_core (rs_process s)
  ∧ row_io (rs_process s') = io_totals (pf_io files)
  ∧ sample_core (rs_sample s') = sample_core (rs_sample s)
  ∧ hp_freed (rs_heap s') = hp_freed (rs_heap s)
  ∧ (hp_next (rs_heap s) ≤ hp_next (rs_heap s'))%nat
  ∧ ∀ a, Forall (λ x, (x < hp_next (rs_heap s))%nat) (pointers (rs_sample s)) →
      occurrences a (lost (rs_sample s') (rs_sample s))
      = if decide (hp_next (rs_heap s) ≤ a < hp_next (rs_heap s'))%nat then 1%nat else 0%nat.
Proof.
  intros Hunset. cbv zeta. unfold scan_details.
  destruct (scan_command_spec ctx files same s) as (P1 & C1 & F1 & X1 & G1).
  set (s1 := scan_command ctx files same s) in *. clearbody s1.
  destruct (scan_executable_spec ctx files same s1) as (P2 & C2 & F2 & X2 & G2).
  set (s2 := scan_executable ctx files same s1) in *. clearbody s2.
  destruct (scan_io_spec files s2) as (S3 & E3 & T3 & P3). set (s3 := scan_io files s2) in *. clearbody s3.
  assert (rates_unset (rs_process s2)) as U2 by (eapply rates_unset_core, Hunset; congruence).
  specialize (P3 (proj2 (proj2 (proj2 U2)))).
  destruct (scan_enrich_spec ctx files same s3) as ([P4 T4]%frame_core & C4 & F4 & X4 & G4).
  set (s4 := scan_enrich ctx files same s3) in *. clearbody s4. rewrite S3, E3 in *.
  pose proof (fresh_next _ _ _ _ F1) as N1. pose proof (fresh_next _ _ _ _ F2) as N2.
  pose proof (fresh_next _ _ _ _ F4) as N4.
  split_and!; [congruence|rewrite <-T3; by apply totals_io|congruence| |lia|].
  { destruct F1 as [F1 _], F2 as [F2 _], F4 as [F4 _]. congruence. }
  intros a Hold. unfold pointers in Hold. rewrite !Forall_app in Hold. destruct Hold as (O1 & O2 & O3).
  unfold lost. rewrite !occurrences_app, G4, X4, X2. rewrite X1 in F2. rewrite G2, G1 in F4.
  rewrite (fresh_lost a _ _ _ _ F1 O1).
  rewrite (fresh_lost a _ _ _ _ F2) by (eapply Forall_impl; [exact O2|]; intros; cbn in *; lia).
  rewrite (fresh_lost a _ _ _ _ F4) by (eapply Forall_impl; [exact O3|]; intros; cbn in *; lia).
  repeat case_decide; lia.
Qed.

(** Two samples with one core stand for one baseline. *)
Lemma sample_core_baseline t t' : sample_core t = sample_core t' → abstract_baseline t = abstract_baseline t'.
Proof. unfold sample_core, abstract_baseline, sample_io. by intros [= _ -> -> -> -> -> ->]. Qed.

Lemma row_core_identity p q : row_core p = row_core q → p_pid p = p_pid q ∧ p_instance_id p = p_instance_id q.
Proof. unfold row_core. by intros [= -> -> _ _ _ _]. Qed.

Lemma row_core_rates p q : row_core p = row_core q → p_cpu_percent p = p_cpu_percent q ∧ row_rates p = row_rates q.
Proof. unfold row_core, row_rates. by intros [= _ _ -> -> -> ->]. Qed.

Lemma scan_row_spec ctx backend files cpu process sample :
  rates_unset process →
  let '(row, sample', heap', _) := scan_row ctx backend files cpu process sample in
  row_result ctx backend cpu (io_totals (pf_io files)) process sample row sample' heap'.
Proof.
  intros Hunset. unfold scan_row. cbv zeta.
  pose proof (status_core (pb_uid_names backend) (pf_status files) (pf_user files) (pf_uid_allocated files)
    process) as Hst.
  destruct (read_process_status _ _ _ _ _) as [[uid_names p1] status]. cbn [fst snd] in Hst.
  fold (same_instance sample (p_instance_id process)). set (same := same_instance sample (p_instance_id process)).
  set (s0 := Build_RowState _ sample (pb_heap backend)).
  assert (row_core (rs_process s0) = row_core process) as P0 by exact Hst.
  destruct (scan_details_spec ctx files same s0) as (P4 & T4 & C4 & F4 & N4 & L4);
    [by eapply rates_unset_core, Hunset|].
  set (s4 := scan_details ctx files same s0) in *. clearbody s4.
  change (rs_sample s0) with sample in *. change (rs_heap s0) with (pb_heap backend) in *. clearbody s0.
  destruct (scan_times_core backend ctx cpu (rs_process s4)) as [P5 T5].
  set (p5 := scan_times backend ctx cpu (rs_process s4)) in *. clearbody p5.
  assert (row_core p5 = row_core process) as Hc5 by congruence.
  assert (row_io p5 = io_totals (pf_io files)) as Ht5 by (rewrite <-T4; by apply totals_io).
  destruct (row_core_identity _ _ Hc5) as [Hp5 Hi5]. pose proof (sample_core_baseline _ _ C4) as Hb.
  destruct (scan_rates_spec ctx same (rs_sample s4) cpu p5) as (Hp6 & Hi6 & Ht6 & Hc6 & Hio6).
  { unfold same, same_instance. unfold abstract_baseline in Hb. injection Hb as -> _ _ _. by rewrite Hi5. }
  { by eapply rates_unset_core, Hunset. }
  set (p6 := scan_io_rates _ _ _ _) in *. clearbody p6. rewrite Hb, Hi5, ?Ht5 in *.
  destruct (scan_gpu_spec ctx files same (rs_sample s4) p6) as (P7 & T7 & C7 & K7 & X7 & G7).
  destruct (scan_gpu ctx files same (rs_sample s4) p6) as [sample7 p7]. cbn [fst snd] in *.
  destruct (store_baseline_spec ctx cpu p7 sample7) as (Hcm & Hpt & Hlost).
  destruct (row_core_identity _ _ P7) as [Hp7 Hi7]. destruct (row_core_rates _ _ P7) as [Hc7 Hr7].
  assert (row_io p7 = io_totals (pf_io files)) as Ht7 by (rewrite <-Ht5; apply totals_io; congruence).
  split; [congruence|congruence|done|congruence|congruence| |done|done|].
  - assert (sm_pid sample7 = sm_pid sample) as Hsp by (unfold sample_core in *; congruence).
    rewrite <-Hsp, <-Ht7. replace (p_instance_id process) with (p_instance_id p7) by congruence. done.
  - intros a Hold. rewrite Hlost. unfold lost. rewrite K7, X7, G7. by apply L4.
Qed.
End rows.

(** ** The transaction *)

Section transaction.
Context `{ArithmeticOps, TextOps, NumberOps}.

(** A process the scan observed: its PID, its instance, its CPU ticks, and its I/O
    totals if it told them. *)
Record Observation := {
  ob_pid : Z;
  ob_instance : Z;
  ob_cpu : Z;
  ob_io : option (Z * Z);
}.

Definition observe (entry : string * ProcFiles) : option Observation :=
  match parse_proc_pid entry.1 with
  | Some pid =>
      match start_row pid entry.2 with
      | Some (process, cpu) =>
          Some {| ob_pid := pid; ob_instance := p_instance_id process; ob_cpu := cpu;
                  ob_io := io_totals (pf_io entry.2) |}
      | None => None
      end
  | None => None
  end.

Definition observed_pids (obs : list Observation) : list Z := ob_pid <$> obs.

(** The baselines as a map from PIDs. *)
Definition baseline_map (b : LsmProcessBackend) : gmap Z Baseline :=
  list_to_map ((λ s, (sm_pid s, abstract_baseline s)) <$> pb_samples b).

(** The observations of one time as the next baselines. *)
Definition observation_map (now : double) (obs : list Observation) : gmap Z Baseline :=
  list_to_map ((λ o, (ob_pid o, {| bl_instance := ob_instance o; bl_cpu_ticks := ob_cpu o; bl_io := ob_io o;
                                   bl_sampled_at := now |})) <$> obs).

(** The baseline kept for a PID. *)
Definition baseline_of (samples : list PreviousProcessSample) (pid : Z) : PreviousProcessSample :=
  default (sample_zero <| sm_pid := pid |>) (List.find (λ s, sm_pid s =? pid) samples).

(** A row and the process it is about: its identity and totals are what was
    observed, its usage and rates those since the baseline of its own instance. *)
Record row_of (total_delta : Z) (now : double) (baselines : gmap Z Baseline) (o : Observation) (row : LsmProcessInfo)
    : Prop := {
  ro_pid : p_pid row = ob_pid o;
  ro_instance : p_instance_id row = ob_instance o;
  ro_io : row_io row = ob_io o;
  ro_cpu : p_cpu_percent row =
    cpu_share total_delta (ob_cpu o) (own_baseline (baselines !! ob_pid o) (ob_instance o));
  ro_rates : row_rates row = io_rates now (own_baseline (baselines !! ob_pid o) (ob_instance o)) (ob_io o);
}.

Definition committed_for (ctx : ScanContext) (o : Observation) (s : PreviousProcessSample) : Prop :=
  committed ctx (ob_pid o) (ob_instance o) (ob_cpu o) (ob_io o) s.

(** The vector between two scans. *)
Definition sorted_samples (samples : list PreviousProcessSample) : Prop :=
  sorted_prefix sm_pid samples (length samples).

Record scanning (ctx : ScanContext) (b0 : LsmProcessBackend) (s : ScanState) (obs : list Observation) : Prop := {
  sn_length : (length (pb_samples b0) ≤ length (pb_samples (ss_backend s)))%nat;
  sn_pids i s0 : pb_samples b0 !! i = Some s0 →
    sm_pid <$> (pb_samples (ss_backend s) !! i) = Some (sm_pid s0);
  sn_old i s0 sm : pb_samples b0 !! i = Some s0 → pb_samples (ss_backend s) !! i = Some sm →
    (sm = s0 ∧ sm_pid s0 ∉ observed_pids obs)
    ∨ (∃ o, o ∈ obs ∧ committed_for ctx o sm ∧ i ∈ mu_index <$> ss_mutations s);
  sn_new i sm : (length (pb_samples b0) ≤ i)%nat → pb_samples (ss_backend s) !! i = Some sm →
    ∃ o, o ∈ obs ∧ committed_for ctx o sm;
  sn_obs o : o ∈ obs → ∃ i sm, pb_samples (ss_backend s) !! i = Some sm ∧ committed_for ctx o sm;
  sn_nodup : NoDup (sm_pid <$> pb_samples (ss_backend s));
  sn_log : log_ok (pb_samples b0) (ss_mutations s);
  sn_logged m : m ∈ ss_mutations s → sm_pid (mu_before m) ∈ observed_pids obs;
  sn_rows : Forall2 (row_of (sc_total_delta ctx) (sc_sampled_at ctx) (baseline_map b0)) obs (ss_rows s);
  sn_books : books (pb_samples b0) (pb_samples (ss_backend s)) (pb_heap (ss_backend s));
  sn_generation : pb_generation (ss_backend s) = sc_generation ctx;
  sn_ticks : pb_previous_total_cpu_ticks (ss_backend s) = pb_previous_total_cpu_ticks b0;
}.

Lemma start_row_spec pid files process cpu :
  start_row pid files = Some (process, cpu) → p_pid process = pid ∧ rates_unset process.
Proof.
  unfold start_row. intros Hs.
  destruct (read_process_stat _ _ _) as [[p native]|] eqn:E; [|done]. injection Hs as <- _.
  enough (row_core p = row_core (process_zero <| p_pid := pid |>)) as Hc.
  { unfold row_core in Hc. unfold rates_unset. cbn in *. by injection Hc as -> _ -> -> -> ->. }
  unfold read_process_stat in E. repeat case_hyp E; try done; injection E as <- _; done.
Qed.

Lemma find_key_some samples i s :
  NoDup (sm_pid <$> samples) → samples !! i = Some s → List.find (λ x, sm_pid x =? sm_pid s) samples = Some s.
Proof.
  revert i. induction samples as [|x samples IH]; intros [|i] Hn Hi; cbn in Hi; try done;
    rewrite fmap_cons, NoDup_cons in Hn; destruct Hn as [Hx Hn]; cbn.
  - injection Hi as ->. by rewrite Z.eqb_refl.
  - destruct (Z.eqb_spec (sm_pid x) (sm_pid s)) as [E|_]; [|by eapply IH].
    exfalso. apply Hx. rewrite E. eapply list_elem_of_fmap_2, list_elem_of_lookup_2, Hi.
Qed.

Lemma find_key_none samples pid :
  pid ∉ sm_pid <$> samples → List.find (λ x, sm_pid x =? pid) samples = None.
Proof.
  induction samples as [|x samples IH]; [done|]. rewrite fmap_cons, not_elem_of_cons. intros [Hne Hr]. cbn.
  destruct (Z.eqb_spec (sm_pid x) pid); [congruence|by apply IH].
Qed.

(** The map has the baseline [find_or_create_sample] hands out; a new sample
    stands for none. *)
Lemma own_baseline_of b pid instance : NoDup (sm_pid <$> pb_samples b) →
  own_baseline (baseline_map b !! pid) instance = own_baseline (Some (abstract_baseline (baseline_of (pb_samples b) pid))) instance.
Proof.
  intros Hn. unfold baseline_map, baseline_of. destruct (list_find (λ s, sm_pid s = pid) (pb_samples b)) as [[i s]|] eqn:E.
  - apply list_find_Some in E as (Hi & <- & _). rewrite (find_key_some _ _ _ Hn Hi). cbn [default from_option id].
    f_equal. apply elem_of_list_to_map; [by rewrite <-list_fmap_compose|].
    apply list_elem_of_fmap. exists s. split; [done|by eapply list_elem_of_lookup_2].
  - assert (pid ∉ sm_pid <$> pb_samples b) as Hout.
    { intros (x & -> & Hx)%list_elem_of_fmap. apply list_find_None in E. rewrite Forall_forall in E. by apply (E x). }
    rewrite (find_key_none _ _ Hout). rewrite not_elem_of_list_to_map_1; [|by rewrite <-list_fmap_compose].
    unfold own_baseline. cbn. by rewrite andb_false_r.
Qed.

Lemma sorted_nodup samples : sorted_samples samples → NoDup (sm_pid <$> samples).
Proof.
  intros [_ Hs]. apply NoDup_alt. intros i j pid Hi Hj.
  rewrite list_lookup_fmap in Hi, Hj. apply fmap_Some in Hi as (x & Hx & ->). apply fmap_Some in Hj as (y & Hy & E).
  pose proof (lookup_lt_Some _ _ _ Hx). pose proof (lookup_lt_Some _ _ _ Hy).
  destruct (Nat.lt_trichotomy i j) as [Hl|[->|Hl]]; [|done|]; exfalso.
  - pose proof (Hs i j x y ltac:(lia) Hx Hy). lia.
  - pose proof (Hs j i y x ltac:(lia) Hy Hx). lia.
Qed.

(** The searchable prefix keeps its keys while the scan updates it. *)
Lemma prefix_sorted ctx b0 s obs :
  sorted_samples (pb_samples b0) → scanning ctx b0 s obs →
  sorted_prefix sm_pid (pb_samples (ss_backend s)) (length (pb_samples b0)).
Proof.
  intros [_ Hs] Hc. split; [apply Hc|]. intros i j x y Hij Hx Hy.
  destruct (lookup_lt_is_Some_2 (pb_samples b0) i ltac:(lia)) as [x0 Hx0].
  destruct (lookup_lt_is_Some_2 (pb_samples b0) j ltac:(lia)) as [y0 Hy0].
  pose proof (sn_pids _ _ _ _ Hc i x0 Hx0) as Ex. pose proof (sn_pids _ _ _ _ Hc j y0 Hy0) as Ey.
  rewrite Hx in Ex. rewrite Hy in Ey. injection Ex as ->. injection Ey as ->. by apply (Hs i j).
Qed.

(** What [find_or_create_sample] hands to the row. *)
Lemma find_or_create_spec ctx b0 s obs pid allocated samples i :
  sorted_samples (pb_samples b0) → scanning ctx b0 s obs → pid ∉ observed_pids obs →
  find_or_create_sample (pb_samples (ss_backend s)) (length (pb_samples b0)) pid allocated = Some (samples, i) →
  let sample := default sample_zero (samples !! i) in
  samples !! i = Some sample ∧ sample = baseline_of (pb_samples b0) pid ∧ sm_pid sample = pid
  ∧ ((samples = pb_samples (ss_backend s) ∧ (i < length (pb_samples b0))%nat ∧ pb_samples b0 !! i = Some sample)
     ∨ (samples = pb_samples (ss_backend s) ++ [sample] ∧ i = length (pb_samples (ss_backend s))
        ∧ (pid ∉ (sm_pid <$> pb_samples (ss_backend s))) ∧ pointers sample = [])).
Proof.
  intros Hsorted Hc Hnew. pose proof (prefix_sorted _ _ _ _ Hsorted Hc) as Hp.
  pose proof (sorted_nodup _ Hsorted) as Hnd. unfold find_or_create_sample.
  destruct (search sm_pid _ _ pid) as [j|] eqn:E.
  - intros [= <- <-]. apply (search_spec sm_pid _ _ _ Hp) in E as (Hlt & x & Hx & Hk).
    destruct (lookup_lt_is_Some_2 (pb_samples b0) j Hlt) as [x0 Hx0].
    pose proof (sn_pids _ _ _ _ Hc j x0 Hx0) as Ex. rewrite Hx in Ex. injection Ex as Ex.
    rewrite Hx. cbn [default].
    assert (x = x0) as ->.
    { destruct (sn_old _ _ _ _ Hc j x0 x Hx0 Hx) as [[-> _]|(o & Ho & Hco & _)]; [done|].
      exfalso. apply Hnew. apply cm_pid in Hco. rewrite <-Hk, Hco. by apply (list_elem_of_fmap_2 ob_pid). }
    split_and!; try done; [|by left].
    unfold baseline_of. by rewrite <-Hk, (find_key_some _ j x0).
  - destruct allocated; [|done]. intros [= <- <-].
    set (fresh := sample_zero <| sm_pid := pid |>).
    assert (Hout : pid ∉ (sm_pid <$> pb_samples (ss_backend s))).
    { intros (x & -> & Hx)%list_elem_of_fmap. apply list_elem_of_lookup in Hx as [k Hk].
      destruct (decide (k < length (pb_samples b0))%nat) as [Hlt|Hge].
      - by apply (search_none sm_pid _ _ _ Hp E k x).
      - destruct (sn_new _ _ _ _ Hc k x ltac:(lia) Hk) as (o & Ho & Hco). apply Hnew.
        apply cm_pid in Hco. rewrite Hco. by apply (list_elem_of_fmap_2 ob_pid). }
    rewrite lookup_app_r, Nat.sub_diag by lia. cbn [lookup list_lookup default].
    split_and!; try done.
    + unfold baseline_of. rewrite find_key_none; [done|]. intros (x0 & -> & Hx0)%list_elem_of_fmap.
      apply list_elem_of_lookup in Hx0 as [k Hk]. apply Hout.
      pose proof (sn_pids _ _ _ _ Hc k x0 Hk) as Ex. apply fmap_Some in Ex as (y & Hy & ->).
      eapply list_elem_of_fmap_2, list_elem_of_lookup_2, Hy.
    + by right.
Qed.

(** *** One more process *)

(** Where [find_or_create_sample] put the process: over its original sample, or
    in a new one behind the vector. *)
Record placed (b0 : LsmProcessBackend) (s : ScanState) (pid : Z) (samples : list PreviousProcessSample)
    (i : nat) (sample : PreviousProcessSample) : Prop := {
  pl_at : samples !! i = Some sample;
  pl_pid : sm_pid sample = pid;
  pl_case :
    (samples = pb_samples (ss_backend s) ∧ (i < length (pb_samples b0))%nat ∧ pb_samples b0 !! i = Some sample)
    ∨ (samples = pb_samples (ss_backend s) ++ [sample] ∧ i = length (pb_samples (ss_backend s))
       ∧ (pid ∉ (sm_pid <$> pb_samples (ss_backend s))) ∧ pointers sample = []);
}.

Section one_more.
Context (ctx : ScanContext) (b0 : LsmProcessBackend) (s : ScanState) (obs : list Observation).
Context (pid instance cpu : Z) (io : option (Z * Z)) (samples : list PreviousProcessSample) (i : nat).
Context (sample sample' : PreviousProcessSample).
Hypothesis Hsorted : sorted_samples (pb_samples b0).
Hypothesis Hc : scanning ctx b0 s obs.
Hypothesis Hnew : pid ∉ observed_pids obs.
Hypothesis Hplaced : placed b0 s pid samples i sample.
Let o : Observation := {| ob_pid := pid; ob_instance := instance; ob_cpu := cpu; ob_io := io |}.
Hypothesis Hco : committed_for ctx o sample'.

Let samples' := <[i := sample']> samples.
Let mutations' := if (i <? length (pb_samples b0))%nat
                  then ss_mutations s ++ [{| mu_index := i; mu_before := sample |}] else ss_mutations s.

Lemma step_at : samples' !! i = Some sample'.
Proof. apply list_lookup_insert_eq. eapply lookup_lt_Some, Hplaced. Qed.

Lemma step_before k sm : k ≠ i → samples' !! k = Some sm → pb_samples (ss_backend s) !! k = Some sm.
Proof.
  intros Hk. unfold samples'. rewrite list_lookup_insert_ne by done.
  destruct (pl_case _ _ _ _ _ _ Hplaced) as [(-> & _)|(-> & -> & _)]; [done|].
  intros [|[Hge Hsm]]%lookup_app_Some; [done|]. apply lookup_lt_Some in Hsm. cbn in Hsm. lia.
Qed.

Lemma step_after k sm : k ≠ i → pb_samples (ss_backend s) !! k = Some sm → samples' !! k = Some sm.
Proof.
  intros Hk Hsm. unfold samples'. rewrite list_lookup_insert_ne by done.
  destruct (pl_case _ _ _ _ _ _ Hplaced) as [(-> & _)|(-> & _)]; [done|]. by apply lookup_app_l_Some.
Qed.

(** An index of the original vector is not that of a new sample. *)
Lemma step_original s0 : pb_samples b0 !! i = Some s0 → samples = pb_samples (ss_backend s) ∧ s0 = sample.
Proof.
  intros Hs0. destruct (pl_case _ _ _ _ _ _ Hplaced) as [(-> & _ & E)|(_ & -> & _)]; [split; congruence|].
  apply lookup_lt_Some in Hs0. pose proof (sn_length _ _ _ _ Hc). lia.
Qed.

Lemma step_length : (length (pb_samples b0) ≤ length samples')%nat.
Proof.
  unfold samples'. rewrite length_insert. pose proof (sn_length _ _ _ _ Hc).
  destruct (pl_case _ _ _ _ _ _ Hplaced) as [(-> & _)|(-> & _)]; [done|]. rewrite length_app. cbn. lia.
Qed.

Lemma step_pids k s0 : pb_samples b0 !! k = Some s0 → sm_pid <$> (samples' !! k) = Some (sm_pid s0).
Proof.
  intros Hk0. destruct (decide (k = i)) as [->|Hk].
  - destruct (step_original _ Hk0) as [_ ->]. rewrite step_at. cbn.
    rewrite (cm_pid _ _ _ _ _ _ Hco). cbn. f_equal. symmetry. apply Hplaced.
  - pose proof (sn_pids _ _ _ _ Hc k s0 Hk0) as Ex. apply fmap_Some in Ex as (x & Hx & ->).
    by rewrite (step_after k x Hk Hx).
Qed.

Lemma step_fresh_pid k s0 : pb_samples b0 !! k = Some s0 → k ≠ i → sm_pid s0 ≠ pid.
Proof.
  intros Hk0 Hk E. destruct (pl_case _ _ _ _ _ _ Hplaced) as [(_ & _ & Hs0)|(_ & _ & Hfresh & _)].
  - apply Hk. eapply NoDup_lookup; [exact (sorted_nodup _ Hsorted)| |]; rewrite list_lookup_fmap.
    + by rewrite Hk0.
    + rewrite Hs0. cbn. f_equal. rewrite E. apply Hplaced.
  - apply Hfresh. rewrite <-E. pose proof (sn_pids _ _ _ _ Hc k s0 Hk0) as Ex.
    apply fmap_Some in Ex as (x & Hx & ->). eapply list_elem_of_fmap_2, list_elem_of_lookup_2, Hx.
Qed.

Lemma step_observed : observed_pids (obs ++ [o]) = observed_pids obs ++ [pid].
Proof. unfold observed_pids. by rewrite fmap_app. Qed.

Lemma step_old k s0 sm : pb_samples b0 !! k = Some s0 → samples' !! k = Some sm →
  (sm = s0 ∧ sm_pid s0 ∉ observed_pids (obs ++ [o]))
  ∨ (∃ o', o' ∈ obs ++ [o] ∧ committed_for ctx o' sm ∧ k ∈ mu_index <$> mutations').
Proof.
  intros Hk0 Hsm. destruct (decide (k = i)) as [->|Hk].
  - rewrite step_at in Hsm. injection Hsm as <-. right. exists o. split; [apply elem_of_app; right; by left|].
    split; [done|]. apply lookup_lt_Some in Hk0. unfold mutations'.
    destruct (Nat.ltb_spec i (length (pb_samples b0))); [|lia].
    rewrite fmap_app. apply elem_of_app. right. by left.
  - apply step_before in Hsm; [|done].
    destruct (sn_old _ _ _ _ Hc k s0 sm Hk0 Hsm) as [[-> Hout]|(o' & Ho' & Hco' & Hlog)].
    + left. split; [done|]. rewrite step_observed, not_elem_of_app. split; [done|].
      intros E%list_elem_of_singleton. by apply (step_fresh_pid k s0).
    + right. exists o'. split; [apply elem_of_app; by left|]. split; [done|]. unfold mutations'.
      destruct (_ <? _)%nat; [|done]. rewrite fmap_app. apply elem_of_app. by left.
Qed.

Lemma step_new k sm : (length (pb_samples b0) ≤ k)%nat → samples' !! k = Some sm →
  ∃ o', o' ∈ obs ++ [o] ∧ committed_for ctx o' sm.
Proof.
  intros Hge Hsm. destruct (decide (k = i)) as [->|Hk].
  - rewrite step_at in Hsm. injection Hsm as <-. exists o. split; [apply elem_of_app; right; by left|done].
  - apply step_before in Hsm; [|done]. destruct (sn_new _ _ _ _ Hc k sm Hge Hsm) as (o' & Ho' & Hco').
    exists o'. split; [apply elem_of_app; by left|done].
Qed.

Lemma step_obs o' : o' ∈ obs ++ [o] → ∃ k sm, samples' !! k = Some sm ∧ committed_for ctx o' sm.
Proof.
  intros [Ho'|Ho'%list_elem_of_singleton]%elem_of_app; [|subst; eauto using step_at].
  destruct (sn_obs _ _ _ _ Hc o' Ho') as (k & sm & Hsm & Hco'). exists k, sm. split; [|done].
  apply step_after; [|done]. intros ->.
  destruct (pl_case _ _ _ _ _ _ Hplaced) as [(_ & Hlt & Hs0)|(_ & -> & _)].
  - pose proof (sn_pids _ _ _ _ Hc i sample Hs0) as Ex. rewrite Hsm in Ex. injection Ex as Ex.
    apply Hnew. rewrite <-(pl_pid _ _ _ _ _ _ Hplaced), <-Ex, (cm_pid _ _ _ _ _ _ Hco').
    by apply (list_elem_of_fmap_2 ob_pid).
  - apply lookup_lt_Some in Hsm. lia.
Qed.

Lemma step_nodup : NoDup (sm_pid <$> samples').
Proof.
  unfold samples'. rewrite list_fmap_insert, (cm_pid _ _ _ _ _ _ Hco). cbn [fst].
  destruct Hplaced as [Hi Hspid [(-> & _)|(-> & -> & Hfresh & _)]].
  - rewrite list_insert_id; [apply Hc|]. rewrite list_lookup_fmap, Hi. cbn. by rewrite Hspid.
  - rewrite fmap_app. cbn [fmap list_fmap]. rewrite Hspid, list_insert_id.
    + apply NoDup_app. split; [apply Hc|]. split; [|apply NoDup_singleton].
      intros x Hx ->%list_elem_of_singleton. done.
    + rewrite lookup_app_r by (by rewrite length_fmap). by rewrite length_fmap, Nat.sub_diag.
Qed.

Lemma step_mutation m :
  m ∈ mutations' → m ∈ ss_mutations s
                   ∨ (m = {| mu_index := i; mu_before := sample |} ∧ pb_samples b0 !! i = Some sample).
Proof.
  unfold mutations'. destruct (Nat.ltb_spec i (length (pb_samples b0))) as [Hlt|]; [|by left].
  intros [|E%list_elem_of_singleton]%elem_of_app; [by left|right]. split; [done|].
  destruct (lookup_lt_is_Some_2 _ _ Hlt) as [s0 Hs0]. by destruct (step_original _ Hs0) as [_ <-].
Qed.

Lemma step_log : log_ok (pb_samples b0) mutations'.
Proof.
  split.
  - intros m [Hm|[-> Hs0]]%step_mutation; [by apply (sn_log _ _ _ _ Hc)|done].
  - unfold mutations'. destruct (Nat.ltb_spec i (length (pb_samples b0))) as [Hlt|]; [|apply (sn_log _ _ _ _ Hc)].
    rewrite fmap_app. apply NoDup_app. split; [apply (sn_log _ _ _ _ Hc)|]. split; [|apply NoDup_singleton].
    intros k (m & -> & Hm)%list_elem_of_fmap E%list_elem_of_singleton. cbn in E.
    pose proof (lg_before _ _ (sn_log _ _ _ _ Hc) m Hm) as Hb. rewrite E in Hb.
    destruct (step_original _ Hb) as [_ Es]. apply Hnew. rewrite <-(pl_pid _ _ _ _ _ _ Hplaced), <-Es.
    by apply (sn_logged _ _ _ _ Hc).
Qed.

Lemma step_logged m : m ∈ mutations' → sm_pid (mu_before m) ∈ observed_pids (obs ++ [o]).
Proof.
  rewrite step_observed, elem_of_app. intros [Hm|[-> _]]%step_mutation; [left; by apply (sn_logged _ _ _ _ Hc)|].
  right. cbn. rewrite (pl_pid _ _ _ _ _ _ Hplaced). by left.
Qed.

(** The books after a row whose fresh strings are the gap between two heaps. *)
Lemma step_books heap' :
  hp_freed heap' = hp_freed (pb_heap (ss_backend s)) →
  (hp_next (pb_heap (ss_backend s)) ≤ hp_next heap')%nat →
  (∀ a, Forall (λ x, (x < hp_next (pb_heap (ss_backend s)))%nat) (pointers sample) →
    occurrences a (lost sample' sample)
    = if decide (hp_next (pb_heap (ss_backend s)) ≤ a < hp_next heap')%nat then 1%nat else 0%nat) →
  books (pb_samples b0) samples' heap'.
Proof.
  intros Hfreed Hnext Hgain a. pose proof (sn_books _ _ _ _ Hc a) as Hb. rewrite Hfreed.
  rewrite occurrences_app in Hb |- *. destruct Hplaced as [Hi _ Hcase].
  pose proof (owned_update a samples i sample sample' Hi) as Ho. pose proof (lost_swap a sample' sample) as Hswap.
  fold samples' in Ho. destruct Hcase as [(Es & _ & Hs0)|(Es & Ei & _ & Hnone)].
  - specialize (Hgain a). rewrite Es in Ho, Hi. unfold samples' in *. rewrite Es in *.
    pose proof (lost_all_update a _ _ i sample sample sample' Hs0 Hi) as Hl. rewrite lost_self in Hl.
    change (occurrences a []) with 0%nat in Hl.
    assert (Forall (λ x, (x < hp_next (pb_heap (ss_backend s)))%nat) (pointers sample)) as Hlt.
    { apply Forall_forall. intros x Hx. eapply balanced_lt; [apply (sn_books _ _ _ _ Hc)|].
      apply elem_of_app. left. by eapply elem_of_owned. }
    specialize (Hgain Hlt). clear - Hb Ho Hl Hswap Hgain Hnext. repeat case_decide; lia.
  - specialize (Hgain a). rewrite Hnone in *. specialize (Hgain (Forall_nil_2 _)).
    assert (lost sample sample' = []) as Hnl.
    { unfold pointers in Hnone. apply app_nil in Hnone as [N1 [N2 N3]%app_nil]. unfold lost, lost_pointer.
      rewrite N1, N2, N3. by repeat case_match. }
    rewrite Hnl in Hswap. rewrite Es, owned_app, occurrences_app, occurrences_owned_cons, Hnone in Ho.
    change (occurrences a (owned [])) with 0%nat in Ho. change (occurrences a []) with 0%nat in *.
    assert (lost_all (pb_samples b0) samples' = lost_all (pb_samples b0) (pb_samples (ss_backend s))) as ->.
    { pose proof (sn_length _ _ _ _ Hc). unfold samples'. rewrite lost_all_beyond by lia. rewrite Es.
      by apply lost_all_take. }
    clear - Hb Ho Hswap Hgain Hnext. repeat case_decide; lia.
Qed.
End one_more.

Lemma scan_entry_step ctx b0 s obs entry s' :
  sc_searchable ctx = length (pb_samples b0) → sorted_samples (pb_samples b0) →
  scanning ctx b0 s obs →
  (∀ pid, parse_proc_pid entry.1 = Some pid → pid ∉ observed_pids obs) →
  scan_entry ctx s entry = (s', false) →
  scanning ctx b0 s' (obs ++ option_list (observe entry)).
Proof.
  intros Hn Hsorted Hc Hnew. destruct entry as [name files]. unfold scan_entry, observe. cbn [fst snd] in *.
  destruct (parse_proc_pid name) as [pid|]; [|intros [= <-]; by rewrite app_nil_r].
  specialize (Hnew pid eq_refl). destruct (negb _); [done|].
  destruct (start_row pid files) as [[process cpu]|] eqn:Estart; [|intros [= <-]; by rewrite app_nil_r].
  apply start_row_spec in Estart as [Hpid Hunset]. rewrite Hn.
  destruct (find_or_create_sample _ _ _ _) as [[samples i]|] eqn:Ef; [|done].
  destruct (find_or_create_spec _ _ _ _ _ _ _ _ Hsorted Hc Hnew Ef) as (Hi & Hbase & Hspid & Hcase).
  set (sample := default sample_zero (samples !! i)) in *. clearbody sample.
  pose proof (Build_placed b0 s pid samples i sample Hi Hspid Hcase) as Hplaced.
  pose proof (scan_row_spec ctx (ss_backend s) files cpu process sample Hunset) as Hrow.
  destruct (scan_row ctx (ss_backend s) files cpu process sample) as [[[row sample'] heap'] uids].
  intros [= <-].
  set (o := {| ob_pid := pid; ob_instance := p_instance_id process; ob_cpu := cpu; ob_io := io_totals (pf_io files) |}).
  change (option_list (Some o)) with [o].
  assert (Hco : committed_for ctx o sample') by (unfold committed_for; cbn; rewrite <-Hspid; apply Hrow).
  split; cbn [ss_backend pb_samples pb_heap pb_generation pb_previous_total_cpu_ticks ss_mutations ss_rows set_field];
    eauto using step_length, step_pids, step_old, step_new, step_obs, step_nodup, step_log, step_logged.
  - apply Forall2_app; [apply Hc|]. constructor; [|constructor].
    assert (Hown : own_baseline (baseline_map b0 !! pid) (p_instance_id process) =
                   own_baseline (Some (abstract_baseline sample)) (p_instance_id process)).
    { rewrite own_baseline_of by (by apply sorted_nodup). by rewrite <-Hbase. }
    split; unfold o; cbn [ob_pid ob_instance ob_cpu ob_io]; rewrite ?Hown; [|apply Hrow..].
    rewrite <-Hpid. apply Hrow.
  - eapply step_books; [done..|apply Hrow|apply Hrow|apply Hrow].
  - apply Hc.
  - apply Hc.
Qed.

(** The whole enumeration, up to where it stopped. *)
Lemma scan_entries_inv ctx b0 entries s obs s' failed :
  sc_searchable ctx = length (pb_samples b0) → sorted_samples (pb_samples b0) →
  scanning ctx b0 s obs →
  NoDup (observed_pids obs ++ omap (λ e : string * ProcFiles, parse_proc_pid e.1) entries) →
  scan_entries ctx entries s = (s', failed) →
  ∃ obs', scanning ctx b0 s' obs' ∧ (failed = false → obs' = obs ++ omap observe entries).
Proof.
  intros Hn Hsorted. revert s obs. induction entries as [|e entries IH]; intros s obs Hc Hd Hs.
  { injection Hs as <- <-. exists obs. split; [done|]. by rewrite app_nil_r. }
  cbn [scan_entries] in Hs. destruct (scan_entry ctx s e) as [s1 stop] eqn:Ee. destruct stop.
  { injection Hs as <- <-. exists obs. split; [|done]. destruct e as [name files]. unfold scan_entry in Ee.
    repeat case_hyp Ee; try done; by injection Ee as <-. }
  assert (Hnew : ∀ pid, parse_proc_pid e.1 = Some pid → pid ∉ observed_pids obs).
  { intros pid Hp Hin. cbn [omap list_omap] in Hd. rewrite Hp in Hd. apply NoDup_app in Hd as (_ & Hd & _).
    apply (Hd pid Hin). by left. }
  pose proof (scan_entry_step _ _ _ _ _ _ Hn Hsorted Hc Hnew Ee) as Hc1.
  destruct (IH _ _ Hc1) as (obs' & Hc' & Ho); [|done|].
  - cbn [omap list_omap] in Hd. unfold observed_pids in *. rewrite fmap_app, <-app_assoc. unfold observe.
    destruct (parse_proc_pid e.1) as [pid|]; [|by rewrite app_nil_l].
    destruct (start_row pid e.2) as [[process cpu]|]; [done|].
    apply NoDup_app in Hd as (N1 & N2 & N3). apply NoDup_cons in N3 as [_ N3]. apply NoDup_app.
    split; [done|]. split; [|done]. intros x Hx Hx'. apply (N2 x Hx). by right.
  - exists obs'. split; [done|]. intros Hf. rewrite (Ho Hf), <-app_assoc. f_equal. cbn [omap list_omap].
    by destruct (observe e).
Qed.

(** The state between scans. *)
Record backend_ok (b : LsmProcessBackend) : Prop := {
  bo_sorted : sorted_samples (pb_samples b);
  bo_range : 0 <= pb_generation b <= uint_max;
  bo_generation : Forall (λ s, sm_generation s = pb_generation b) (pb_samples b);
  bo_balanced : balanced (pb_heap b) (owned (pb_samples b));
}.

Lemma next_generation_spec g :
  0 <= g <= uint_max → 0 <= next_generation g <= uint_max ∧ next_generation g ≠ g.
Proof.
  unfold next_generation, wrap, uint_max. change (2 ^ 32) with 4294967296. intros Hg.
  destruct (Z.eq_dec g 4294967295) as [->|Hne]; [done|].
  rewrite Z.mod_small by lia. destruct (Z.eqb_spec (g + 1) 0); lia.
Qed.

Lemma scanning_start ctx b :
  backend_ok b → sc_generation ctx = next_generation (pb_generation b) →
  scanning ctx b {| ss_backend := b <| pb_generation := next_generation (pb_generation b) |>;
                    ss_mutations := []; ss_rows := [] |} [].
Proof.
  intros Hb Hg. split; cbn; try done.
  - intros i s0 ->. done.
  - intros i s0 sm Hx1 Hx2. left. split; [congruence|]. apply not_elem_of_nil.
  - intros i sm Hge Hsm. apply lookup_lt_Some in Hsm. lia.
  - intros o Ho. by apply elem_of_nil in Ho.
  - by apply sorted_nodup, Hb.
  - split; [|constructor]. intros m Hm. by apply elem_of_nil in Hm.
  - intros m Hm. by apply elem_of_nil in Hm.
  - unfold books. rewrite lost_all_same, app_nil_r. apply Hb.
Qed.

(** Every observed process, [None] for what is not a readable process. *)
Definition observations (inputs : ScanInputs) : list Observation := omap observe (si_entries inputs).

(** procfs lists a PID at most once. *)
Definition distinct_entries (inputs : ScanInputs) : Prop :=
  NoDup (omap (λ e : string * ProcFiles, parse_proc_pid e.1) (si_entries inputs)).

(** What the machine has run since the last scan; nothing after a reset. *)
Definition machine_delta (b : LsmProcessBackend) (total : Z) : Z :=
  (lsm_u64_counter_delta total (pb_previous_total_cpu_ticks b) 0).2.

Definition context_of (b : LsmProcessBackend) (inputs : ScanInputs) (flags total : Z) : ScanContext :=
  {| sc_flags := flags;
     sc_total_delta := machine_delta b total; sc_uptime := read_uptime_seconds (si_uptime inputs); sc_sampled_at := si_sampled_at inputs;
     sc_generation := next_generation (pb_generation b); sc_searchable := length (pb_samples b) |}.

(** A rollback restores the samples. *)
Lemma rollback_restores ctx b s obs samples heap :
  scanning ctx b s obs →
  rollback_sample_mutations (pb_samples (ss_backend s)) (pb_heap (ss_backend s)) (ss_mutations s)
    (length (pb_samples b)) = (samples, heap) →
  samples = pb_samples b ∧ balanced heap (owned samples).
Proof.
  intros Hc. unfold rollback_sample_mutations.
  assert (Hlog : log_ok (pb_samples b) (rev (ss_mutations s))).
  { destruct (sn_log _ _ _ _ Hc) as [Hb Hd]. split.
    - intros m Hm. apply Hb. by rewrite (Permutation_rev (ss_mutations s)).
    - by rewrite <-(Permutation_rev (ss_mutations s)). }
  destruct (rollback_all _ _ _ _ Hlog (sn_books _ _ _ _ Hc) (sn_length _ _ _ _ Hc)) as (Hbooks & Hlen & Hlook).
  destruct (fold_left rollback_mutation _ _) as [samples1 heap1]. cbn [fst snd] in *. intros [= <- <-].
  assert (Htake : take (length (pb_samples b)) samples1 = pb_samples b).
  { apply list_eq_same_length with (length (pb_samples b)); [done| |].
    - rewrite length_take, Hlen. pose proof (sn_length _ _ _ _ Hc). lia.
    - intros i x y Hi Hx Hy. rewrite lookup_take_lt, Hlook in Hx by done.
      destruct (list_find _ _) as [[k m]|] eqn:Ef.
      + apply list_find_Some in Ef as (Hm & <- & _). apply list_elem_of_lookup_2 in Hm.
        rewrite (lg_before _ _ Hlog m Hm) in Hy. congruence.
      + destruct (sn_old _ _ _ _ Hc i y x Hy Hx) as [[-> _]|(o & _ & _ & Hin)]; [done|].
        exfalso. apply list_elem_of_fmap in Hin as (m & Hi' & Hm). apply list_find_None in Ef.
        rewrite Forall_forall in Ef. apply (Ef m); [|done]. by rewrite <-(Permutation_rev (ss_mutations s)). }
  split; [done|]. rewrite Htake. apply release_all. eapply balanced_ext, Hbooks. intros a.
  rewrite <-(take_drop (length (pb_samples b)) samples1) at 1 2. rewrite Htake.
  rewrite lost_all_take, lost_all_same, owned_app by done. rewrite !occurrences_app.
  change (occurrences a []) with 0%nat. lia.
Qed.

(** ** Commit keeps exactly what was observed *)

Lemma sorted_samples_strong samples :
  sorted_samples samples ↔ Sorted.StronglySorted (λ a b, sm_pid a < sm_pid b) samples.
Proof.
  split.
  - intros [_ Hs]. induction samples as [|x samples IH]; constructor.
    + apply IH. intros i j y z Hij Hy Hz. apply (Hs (S i) (S j) y z); [cbn; lia|done|done].
    + apply List.Forall_forall. intros y Hy%list_elem_of_In. apply list_elem_of_lookup in Hy as [j Hj].
      pose proof (lookup_lt_Some _ _ _ Hj). apply (Hs 0%nat (S j) x y); [cbn; lia|done|done].
  - intros Hs. split; [done|]. intros i j x y [Hij _] Hx Hy.
    exact (strongly_sorted_lookup _ samples i j x y Hs Hij Hx Hy).
Qed.

Lemma filter_sorted (p : PreviousProcessSample → bool) samples :
  sorted_samples samples → sorted_samples (List.filter p samples).
Proof.
  rewrite !sorted_samples_strong. induction 1 as [|x samples Hs IH Hx]; [constructor|]. cbn.
  destruct (p x); [|done]. constructor; [done|]. rewrite List.Forall_forall in *.
  intros y Hy. apply Hx. by apply filter_In in Hy as [Hy _].
Qed.

Lemma merge_sort_sorted samples :
  NoDup (sm_pid <$> samples) → sorted_samples (sorting.merge_sort sample_pid_le samples).
Proof.
  intros Hnd. set (l := sorting.merge_sort sample_pid_le samples).
  assert (Hp : l ≡ₚ samples) by apply sorting.merge_sort_Permutation.
  assert (Sorted.StronglySorted sample_pid_le l) as Hs.
  { apply sorting.StronglySorted_merge_sort; [intros x y z; unfold sample_pid_le; lia|].
    intros x y. unfold sample_pid_le. lia. }
  rewrite <-Hp in Hnd. clearbody l. clear Hp. rewrite sorted_samples_strong.
  induction Hs as [|x l Hs IH Hx]; [constructor|]. rewrite fmap_cons, NoDup_cons in Hnd.
  destruct Hnd as [Hnot Hnd]. constructor; [by apply IH|]. rewrite List.Forall_forall in *.
  intros y Hy. specialize (Hx y Hy). unfold sample_pid_le in Hx.
  enough (sm_pid x ≠ sm_pid y) by lia. intros E. apply Hnot. rewrite E.
  by apply list_elem_of_fmap_2, list_elem_of_In.
Qed.

Lemma in_sort x (sort : bool) samples :
  x ∈ (if sort then sorting.merge_sort sample_pid_le samples else samples) ↔ x ∈ samples.
Proof. destruct sort; [by rewrite sorting.merge_sort_Permutation|done]. Qed.

(** The samples after a committed scan: those of the observed processes. *)
Definition committed_samples (ctx : ScanContext) (s : ScanState) (sort : bool) : list PreviousProcessSample :=
  let live := List.filter (λ x, sm_generation x =? sc_generation ctx) (pb_samples (ss_backend s)) in
  if sort then sorting.merge_sort sample_pid_le live else live.

Lemma nodup_filter (p : PreviousProcessSample → bool) samples :
  NoDup (sm_pid <$> samples) → NoDup (sm_pid <$> List.filter p samples).
Proof.
  induction samples as [|x samples IH]; [done|]. rewrite fmap_cons, NoDup_cons. intros [Hx Hn]. cbn.
  destruct (p x); [|by apply IH]. rewrite fmap_cons, NoDup_cons. split; [|by apply IH].
  intros (y & E & Hy)%list_elem_of_fmap. apply Hx. rewrite E. apply list_elem_of_fmap_2.
  apply list_elem_of_In. by apply list_elem_of_In, filter_In in Hy as [Hy _].
Qed.

Lemma committed_samples_spec ctx b s obs :
  backend_ok b → sc_generation ctx = next_generation (pb_generation b) → scanning ctx b s obs →
  let sort := (length (pb_samples b) <? length (pb_samples (ss_backend s)))%nat in
  sorted_samples (committed_samples ctx s sort)
  ∧ ∀ x, x ∈ committed_samples ctx s sort ↔ ∃ o, o ∈ obs ∧ committed_for ctx o x ∧ x ∈ pb_samples (ss_backend s).
Proof.
  intros Hb Hg Hc. cbv zeta. split.
  - unfold committed_samples. destruct (Nat.ltb_spec (length (pb_samples b)) (length (pb_samples (ss_backend s)))).
    + apply merge_sort_sorted, nodup_filter, Hc.
    + apply filter_sorted. unfold sorted_samples. pose proof (sn_length _ _ _ _ Hc).
      replace (length (pb_samples (ss_backend s))) with (length (pb_samples b)) by lia.
      eapply prefix_sorted; [apply Hb|done].
  - intros x. unfold committed_samples. rewrite in_sort. rewrite list_elem_of_In, filter_In, <-list_elem_of_In.
    split.
    + intros [Hx Hgen%Z.eqb_eq]. apply list_elem_of_lookup in Hx as [i Hi].
      destruct (decide (i < length (pb_samples b))%nat) as [Hlt|Hge].
      * destruct (lookup_lt_is_Some_2 (pb_samples b) i Hlt) as [x0 Hx0].
        destruct (sn_old _ _ _ _ Hc i x0 x Hx0 Hi) as [[-> _]|(o & Ho & Hco & _)].
        -- exfalso. pose proof (bo_generation _ Hb) as Hall. rewrite Forall_forall in Hall.
           specialize (Hall x0 (list_elem_of_lookup_2 _ _ _ Hx0)). cbn in Hall.
           destruct (next_generation_spec _ (bo_range _ Hb)) as [_ Hne]. congruence.
        -- exists o. eauto using list_elem_of_lookup_2.
      * destruct (sn_new _ _ _ _ Hc i x ltac:(lia) Hi) as (o & Ho & Hco).
        exists o. eauto using list_elem_of_lookup_2.
    + intros (o & _ & Hco & Hx). split; [done|]. apply Z.eqb_eq, Hco.
Qed.

(** ** What a scan does *)

Lemma baseline_map_spec b (obs : list Observation) ctx :
  NoDup (sm_pid <$> pb_samples b) → NoDup (observed_pids obs) →
  (∀ x, x ∈ pb_samples b → ∃ o, o ∈ obs ∧ committed_for ctx o x) →
  (∀ o, o ∈ obs → ∃ x, x ∈ pb_samples b ∧ committed_for ctx o x) →
  baseline_map b = observation_map (sc_sampled_at ctx) obs.
Proof.
  intros Hs Ho Hto Hfrom. apply map_eq. intros pid. apply option_eq. intros v. unfold observation_map, baseline_map.
  rewrite <-!elem_of_list_to_map by (rewrite <-list_fmap_compose; done). rewrite !list_elem_of_fmap.
  split.
  - intros (x & [= -> ->] & Hx). destruct (Hto x Hx) as (o & Hin & [E1 E2 E3 E4 E5 _]). exists o.
    split; [|done]. unfold abstract_baseline. by rewrite E1, E2, E3, E4, E5.
  - intros (o & [= -> ->] & Hin). destruct (Hfrom o Hin) as (x & Hx & [E1 E2 E3 E4 E5 _]). exists x.
    split; [|done]. unfold abstract_baseline. by rewrite E1, E2, E3, E4, E5.
Qed.

(** The effect of a failed scan: none, up to the caches. *)
Record restored (b b' : LsmProcessBackend) : Prop := {
  re_samples : pb_samples b' = pb_samples b;
  re_generation : pb_generation b' = pb_generation b;
  re_ticks : pb_previous_total_cpu_ticks b' = pb_previous_total_cpu_ticks b;
  re_balanced : balanced (pb_heap b') (owned (pb_samples b'));
}.

(** The effect of a successful scan. *)
Record published (b : LsmProcessBackend) (inputs : ScanInputs) (total : Z) (rows : list LsmProcessInfo)
    (b' : LsmProcessBackend) : Prop := {
  pu_rows : Forall2 (row_of (machine_delta b total) (si_sampled_at inputs) (baseline_map b)) (observations inputs) rows;
  pu_baselines : baseline_map b' = observation_map (si_sampled_at inputs) (observations inputs);
  pu_ticks : pb_previous_total_cpu_ticks b' = total;
  pu_ok : backend_ok b';
}.

Lemma observe_pid e o : observe e = Some o → parse_proc_pid e.1 = Some (ob_pid o).
Proof.
  unfold observe. destruct (parse_proc_pid e.1) as [pid|]; [|done].
  destruct (start_row pid e.2) as [[process cpu]|]; [|done]. by intros [= <-].
Qed.

Lemma observed_listed pid entries :
  pid ∈ observed_pids (omap observe entries) →
  pid ∈ omap (λ e : string * ProcFiles, parse_proc_pid e.1) entries.
Proof.
  intros (o & -> & Ho)%list_elem_of_fmap. apply list_elem_of_omap in Ho as (e & He & Eo).
  apply list_elem_of_omap. exists e. split; [done|by apply observe_pid].
Qed.

Lemma observed_distinct inputs : distinct_entries inputs → NoDup (observed_pids (observations inputs)).
Proof.
  unfold distinct_entries, observations. induction (si_entries inputs) as [|e entries IH]; [constructor|].
  cbn [omap list_omap]. destruct (observe e) as [o|] eqn:Eo.
  - rewrite (observe_pid _ _ Eo). intros [Hnot Hd]%NoDup_cons. unfold observed_pids. rewrite fmap_cons.
    apply NoDup_cons. split; [|by apply IH]. intros Hin. apply Hnot. by apply observed_listed.
  - destruct (parse_proc_pid e.1); [|done]. intros [_ Hd]%NoDup_cons. by apply IH.
Qed.

Lemma scan_outcome b inputs flags result b' :
  backend_ok b → distinct_entries inputs → lsm_process_scan b inputs flags = (result, b') →
  match result with
  | None => restored b b'
  | Some rows => ∃ total, read_total_cpu_ticks (si_stat inputs) = Some total
                          ∧ published b inputs total rows b'
  end.
Proof.
  intros Hb Hd. unfold lsm_process_scan.
  destruct (read_total_cpu_ticks (si_stat inputs)) as [total|]; [|intros [= <- <-]; split; try done; apply Hb].
  destruct (_ || _); [intros [= <- <-]; split; try done; apply Hb|]. cbv zeta.
  fold (machine_delta b total). fold (context_of b inputs flags total). set (ctx := context_of b inputs flags total).
  destruct (scan_entries ctx _ _) as [s failed] eqn:Es.
  destruct (scan_entries_inv ctx b _ _ [] s failed eq_refl (bo_sorted _ Hb) (scanning_start ctx b Hb eq_refl) Hd Es)
    as (obs & Hc & Hobs).
  destruct (failed || _ || _) eqn:Ef.
  - destruct (rollback_sample_mutations _ _ _ _) as [samples heap] eqn:Er. intros [= <- <-].
    destruct (rollback_restores _ _ _ _ _ _ Hc Er) as [-> Hbal].
    split; cbn; [done|done|apply Hc|done].
  - cbn [drop_dead_samples]. intros [= <- <-]. exists total. split; [done|].
    destruct failed; [done|]. rewrite (Hobs eq_refl) in Hc. cbn [app] in Hc. fold (observations inputs) in Hc.
    destruct (committed_samples_spec ctx b s _ Hb eq_refl Hc) as [Hsorted Hin].
    unfold committed_samples in Hsorted, Hin. cbn [sc_generation ctx context_of] in Hsorted, Hin.
    set (sort := (length (pb_samples b) <? length (pb_samples (ss_backend s)))%nat) in *.
    set (live := List.filter _ _) in *.
    split; cbn [pb_samples pb_heap pb_generation pb_previous_total_cpu_ticks set_field]; [apply Hc| |done|].
    + apply (baseline_map_spec _ _ ctx).
      * by apply sorted_nodup.
      * by apply observed_distinct.
      * intros x Hx. apply Hin in Hx as (o & Ho & Hco & _). eauto.
      * intros o Ho. destruct (sn_obs _ _ _ _ Hc o Ho) as (i & x & Hx & Hco). exists x.
        split; [|done]. apply Hin. exists o. eauto using list_elem_of_lookup_2.
    + split; cbn [pb_samples pb_heap pb_generation set_field]; [done| | |].
      * rewrite (sn_generation _ _ _ _ Hc). by apply next_generation_spec, Hb.
      * rewrite (sn_generation _ _ _ _ Hc). apply Forall_forall. intros x Hx.
        apply Hin in Hx as (o & _ & Hco & _). apply Hco.
      * assert (Hcommit : balanced (commit_sample_mutations (pb_samples (ss_backend s)) (ss_mutations s)
          (pb_heap (ss_backend s))) (owned (pb_samples (ss_backend s)))).
        { eapply commit_books; [apply Hc|apply Hc|]. intros i s0 sm Hs0 Hsm.
          destruct (sn_old _ _ _ _ Hc i s0 sm Hs0 Hsm) as [[-> _]|(o & _ & _ & Hlog)]; [by left|by right]. }
        pose proof (drop_dead_balanced (next_generation (pb_generation b)) _ _ Hcommit) as Hdrop.
        eapply balanced_ext, Hdrop. intros a. cbn [drop_dead_samples fst]. fold live.
        apply owned_permutation. destruct sort; [symmetry; apply sorting.merge_sort_Permutation|done].
Qed.
End transaction.

(** ** The properties *)

Section properties.
Context `{ArithmeticOps, TextOps, NumberOps}.

(** The scan meets no fault of the kernel or the allocator.  A process that ends
    before its record is read is none. *)
Definition faultless (inputs : ScanInputs) : Prop :=
  is_Some (read_total_cpu_ticks (si_stat inputs))
  ∧ si_directory inputs = true ∧ si_rows_allocated inputs = true ∧ si_mutations_allocated inputs = true
  ∧ si_readdir_ok inputs = true ∧ si_closedir_ok inputs = true
  ∧ Forall (λ e : string * ProcFiles, pf_row_allocated e.2 = true ∧ pf_sample_allocated e.2 = true)
      (si_entries inputs).

Lemma entries_succeed ctx entries s :
  Forall (λ e : string * ProcFiles, pf_row_allocated e.2 = true ∧ pf_sample_allocated e.2 = true) entries →
  (scan_entries ctx entries s).2 = false.
Proof.
  intros He. revert s. induction He as [|[name files] entries [Hr Ha] _ IH]; intros s; [done|].
  cbn [scan_entries]. cbn in Hr, Ha. destruct (scan_entry ctx s (name, files)) as [s1 stop] eqn:E.
  enough (stop = false) as -> by apply IH. unfold scan_entry in E. rewrite Hr, Ha in E. cbn [negb] in E.
  unfold find_or_create_sample in E. repeat case_hyp E; try done; by injection E as _ <-.
Qed.

Lemma faultless_succeeds b inputs flags :
  faultless inputs → (lsm_process_scan b inputs flags).1 ≠ None.
Proof.
  intros ((total & Ht) & Hd & Hr & Hm & Hrd & Hcl & He). unfold lsm_process_scan.
  rewrite Ht, Hd, Hr, Hm, Hrd, Hcl. cbn [negb orb]. cbv zeta.
  match goal with |- context [scan_entries ?c ?e ?s] => pose proof (entries_succeed c e s He) as Hs;
    destruct (scan_entries c e s) as [s' failed] end.
  cbn in Hs. subst failed. done.
Qed.

(** A sequence of scans, successful or not. *)
Definition run_scans (b : LsmProcessBackend) (scans : list (ScanInputs * Z)) : LsmProcessBackend :=
  fold_left (λ b scan, (lsm_process_scan b scan.1 scan.2).2) scans b.

Lemma scan_ok b inputs flags :
  backend_ok b → distinct_entries inputs → backend_ok (lsm_process_scan b inputs flags).2.
Proof.
  intros Hb Hd. pose proof (scan_outcome b inputs flags) as Ho.
  destruct (lsm_process_scan b inputs flags) as [[rows|] b'].
  - destruct (Ho _ _ Hb Hd eq_refl) as (total & _ & Hp). apply Hp.
  - destruct (Ho _ _ Hb Hd eq_refl) as [Hs Hg _ Hbal]. cbn. split; [|rewrite Hg; apply Hb| |done].
    + rewrite Hs. apply Hb.
    + rewrite Hs, Hg. apply Hb.
Qed.

Lemma create_ok stat page_size pages hertz uid :
  backend_ok (lsm_process_backend_create stat page_size pages hertz uid).
Proof.
  split; cbn; [|unfold uint_max; lia|constructor|].
  - split; [done|]. intros i j x y _ Hx. done.
  - intros a. cbn. by rewrite decide_False by lia.
Qed.

Lemma run_ok b scans :
  backend_ok b → Forall (λ scan : ScanInputs * Z, distinct_entries scan.1) scans → backend_ok (run_scans b scans).
Proof.
  intros Hb Hs. revert b Hb. induction Hs as [|scan scans Hd _ IH]; intros b Hb; [done|].
  cbn. by apply IH, scan_ok.
Qed.

(** (C2) A process scan is a transaction.  Whatever makes it fail - the kernel's
    records, an allocation at any row, the enumeration, or closing the directory -
    the sorted samples, every field of every baseline, the generation and the CPU
    baseline are exactly what they were, and each metadata string allocated on
    the way has been released while the retained ones are untouched. *)
Theorem scan_failure_restores_backend b inputs flags b' :
  backend_ok b → distinct_entries inputs → lsm_process_scan b inputs flags = (None, b') →
  pb_samples b' = pb_samples b ∧ pb_generation b' = pb_generation b
  ∧ pb_previous_total_cpu_ticks b' = pb_previous_total_cpu_ticks b
  ∧ ¬ faultless inputs
  ∧ balanced (pb_heap b') (owned (pb_samples b)).
Proof.
  intros Hb Hd Hs. destruct (scan_outcome b inputs flags None b' Hb Hd Hs) as [Hsm Hg Ht Hbal].
  split_and!; [done..| |by rewrite <-Hsm].
  intros Hf. apply (faultless_succeeds b inputs flags Hf). by rewrite Hs.
Qed.

(** (C4) A successful scan refines a map from PIDs to baselines: the instance, its
    CPU ticks, its read and write totals if they were known, and when they were
    taken.  Without faults it succeeds; its rows are, in order, the readable
    processes of the directory, each with its identity and its I/O totals.  A row's
    CPU share is the advance over the machine's since the baseline of its own
    instance - zero for a new process, for a recycled PID and after a counter
    reset.  Its read and write rates are those since that baseline, and it
    publishes them exactly when the totals were known then and now, time has passed
    and neither counter went back.  Afterwards the map is replaced by the observed
    processes, with what was observed of them, and the retained vector is strictly
    sorted. *)
Theorem scan_refines_baseline_map b inputs flags :
  backend_ok b → distinct_entries inputs →
  (faultless inputs → is_Some (lsm_process_scan b inputs flags).1)
  ∧ ∀ rows b', lsm_process_scan b inputs flags = (Some rows, b') →
    ∃ total, read_total_cpu_ticks (si_stat inputs) = Some total
      ∧ Forall2 (row_of (machine_delta b total) (si_sampled_at inputs) (baseline_map b)) (observations inputs) rows
      ∧ baseline_map b' = observation_map (si_sampled_at inputs) (observations inputs)
      ∧ sorted_samples (pb_samples b')
      ∧ pb_previous_total_cpu_ticks b' = total.
Proof.
  intros Hb Hd. split.
  - intros Hf. apply not_eq_None_Some. by apply faultless_succeeds.
  - intros rows b' Hs. destruct (scan_outcome b inputs flags (Some rows) b' Hb Hd Hs) as (total & Ht & Hp).
    exists total. split_and!; [done|apply Hp|apply Hp|apply Hp|apply Hp].
Qed.

(** (C30) The metadata strings of the process backend are freed exactly once.
    Over any sequence of scans, failed ones included, and the final destruction,
    every command, executable and control-group string that was ever duplicated
    is released, and none is released twice. *)
Theorem metadata_freed_exactly_once stat page_size pages hertz uid scans :
  Forall (λ scan : ScanInputs * Z, distinct_entries scan.1) scans →
  let final := lsm_process_backend_destroy
                 (run_scans (lsm_process_backend_create stat page_size pages hertz uid) scans) in
  hp_freed final ≡ₚ seq 0 (hp_next final).
Proof.
  intros Hs. apply balanced_freed, release_all. apply (balanced_ext _ (owned (pb_samples
    (run_scans (lsm_process_backend_create stat page_size pages hertz uid) scans)))).
  - intros a. by rewrite app_nil_r.
  - apply run_ok; [apply create_ok|done].
Qed.
End properties.

(** ** Witnesses *)

From S2P Require Import CommonReference.

(** The record of process 42. *)
Definition record_42 (utime start : Z) : option string * string :=
  (Some ("42 (worker) S 1 42 42 0 -1 0 0 0 0 0 " +:+ print_u64 utime +:+ " 0 0 0 20 0 1 0 " +:+ print_u64 start),
   EmptyString).

(** Its I/O record: ten bytes read and one written per tick. *)
Definition io_42 (utime : Z) : option string :=
  Some ("rchar: 1" +:+ String nl ("read_bytes: " +:+ print_u64 (10 * utime) +:+
        String nl ("write_bytes: " +:+ print_u64 utime +:+ String nl "cancelled_write_bytes: 9"))).

Definition unread : FileRead := {| fr_ok := false; fr_text := EmptyString |}.

Definition files_42 (utime start : Z) (exe : string) (gpu : option FdinfoDirectory) : ProcFiles :=
  {| pf_row_allocated := true; pf_stat := record_42 utime start; pf_sample_allocated := true;
     pf_status := None; pf_user := None; pf_uid_allocated := true; pf_cmdline := Some exe;
     pf_command_allocated := true; pf_exe := Some exe; pf_executable_allocated := true; pf_io := io_42 utime;
     pf_enrich := {| ef_stat_before := record_42 utime start; ef_exe := None; ef_fds := None; ef_cgroup := None;
                     ef_wchan := unread; ef_security := unread; ef_smaps := None; ef_session := λ _, None;
                     ef_stat_after := record_42 utime start |};
     pf_cgroup_allocated := true; pf_gpu := gpu |}.

Definition scan_at (total : Z) (seconds : Z) (entries : list (string * ProcFiles)) (complete : bool) : ScanInputs :=
  {| si_stat := Some ("cpu " +:+ print_u64 total +:+ " 0 0 0"); si_directory := true; si_rows_allocated := true;
     si_mutations_allocated := true; si_uptime := None; si_sampled_at := double_of_Z seconds;
     si_entries := entries; si_readdir_ok := complete; si_closedir_ok := true |}.

Definition fresh_backend : LsmProcessBackend := lsm_process_backend_create None 4096 1000 100 1000.

(** The worker runs through the first second and half of the second. *)
Definition first_scan : ScanInputs * Z :=
  (scan_at 1000 10 [("42", files_42 300 7000 "/usr/bin/a" None); ("self", files_42 0 0 "" None)] true,
   LSM_PROCESS_SCAN_EXECUTABLE).
Definition second_scan (complete : bool) : ScanInputs * Z :=
  (scan_at 1100 11 [("42", files_42 350 7000 "/usr/bin/a" None)] complete, LSM_PROCESS_SCAN_EXECUTABLE).

Lemma first_scan_distinct : distinct_entries first_scan.1.
Proof. apply (bool_decide_unpack _). by vm_compute. Qed.

Lemma second_scan_distinct complete : distinct_entries (second_scan complete).1.
Proof. destruct complete; apply (bool_decide_unpack _); by vm_compute. Qed.

Definition observed_backend : LsmProcessBackend := run_scans fresh_backend [first_scan].

Lemma observed_backend_ok : backend_ok observed_backend.
Proof. apply run_ok; [apply create_ok|]. constructor; [apply first_scan_distinct|constructor]. Qed.

Lemma scan_failure_restores_backend_witness :
  lsm_process_scan observed_backend (second_scan false).1 (second_scan false).2
    = (None, (lsm_process_scan observed_backend (second_scan false).1 (second_scan false).2).2)
  ∧ pb_samples (lsm_process_scan observed_backend (second_scan false).1 (second_scan false).2).2
    = pb_samples observed_backend.
Proof.
  assert (lsm_process_scan observed_backend (second_scan false).1 (second_scan false).2
    = (None, (lsm_process_scan observed_backend (second_scan false).1 (second_scan false).2).2)) as Hs
    by (by vm_compute).
  split; [exact Hs|].
  exact (proj1 (scan_failure_restores_backend _ _ _ _ observed_backend_ok (second_scan_distinct false) Hs)).
Defined.

Local Abbreviation second_result :=
  (lsm_process_scan observed_backend (second_scan true).1 (second_scan true).2).

(** Half of the machine, 500 bytes read and 50 written per second. *)
Lemma scan_refines_baseline_map_witness :
  second_result = (Some (default [] second_result.1), second_result.2)
  ∧ ((λ p, (p_cpu_percent p, row_rates p)) <$> default [] second_result.1)
    = [(double_of_Z 50, Some (double_of_Z 500, double_of_Z 50))]
  ∧ observations (second_scan true).1
    = [{| ob_pid := 42; ob_instance := 7000; ob_cpu := 350; ob_io := Some (3500, 350) |}]
  ∧ baseline_map second_result.2
    = {[ 42 := {| bl_instance := 7000; bl_cpu_ticks := 350; bl_io := Some (3500, 350); bl_sampled_at := double_of_Z 11 |} ]}.
Proof.
  assert (second_result = (Some (default [] second_result.1), second_result.2)) as Hs by (by vm_compute).
  split; [exact Hs|]. do 2 (split; [by vm_compute|]).
  destruct (proj2 (scan_refines_baseline_map observed_backend (second_scan true).1 (second_scan true).2
    observed_backend_ok (second_scan_distinct true)) _ _ Hs) as (total & _ & _ & Hm & _).
  rewrite Hm. by vm_compute.
Defined.

Definition three_scans : list (ScanInputs * Z) := [first_scan; second_scan false; second_scan true].

Lemma metadata_freed_exactly_once_witness :
  let final := lsm_process_backend_destroy (run_scans fresh_backend three_scans) in
  hp_next final = 2%nat ∧ hp_freed final ≡ₚ seq 0 (hp_next final).
Proof.
  split; [by vm_compute|].
  apply (metadata_freed_exactly_once None 4096 1000 100 1000 three_scans).
  constructor; [exact first_scan_distinct|]. constructor; [exact (second_scan_distinct false)|].
  constructor; [exact (second_scan_distinct true)|constructor].
Defined.

(** ** A gap

    The cached executable and the graphics counters belong to the PID, not to the
    instance: a scan that does not ask for them still moves the sample to the new
    instance, and the next one that does takes them for its own. *)
Definition gpu_counter (ns : Z) : option FdinfoDirectory :=
  Some {| fd_entries := [("3", Some {| ff_text := "drm-client-id: 1" +:+ String nl ("drm-engine-gfx: " +:+ print_u64 ns);
                                       ff_read_ok := true; ff_close_ok := true |})];
          fd_readdir_ok := true; fd_closedir_ok := true |}.

(** Instance 7000 is scanned with every detail, instance 8000 takes its PID over
    unasked, and the details are asked for again. *)
Definition recycled_run (flags seconds : Z) : option (list LsmProcessInfo) :=
  (lsm_process_scan
     (run_scans fresh_backend
        [(scan_at 1000 10 [("42", files_42 300 7000 "/usr/bin/old" (gpu_counter 1000))] true, flags);
         (scan_at 1100 11 [("42", files_42 0 8000 "/usr/bin/new" (gpu_counter 0))] true, LSM_PROCESS_SCAN_NONE)])
     (scan_at 1200 seconds [("42", files_42 0 8000 "/usr/bin/new" (gpu_counter 1000001000))] true) flags).1.

Lemma recycled_pid_shows_old_executable :
  ((λ p, (p_instance_id p, p_executable p)) <$> default [] (recycled_run LSM_PROCESS_SCAN_EXECUTABLE 12))
  = [(8000, "/usr/bin/old"%string)].
Proof. by vm_compute. Qed.

Lemma recycled_pid_compares_old_counters :
  ((λ p, (p_instance_id p, p_gpu_available p, p_gpu_percent p)) <$> default [] (recycled_run LSM_PROCESS_SCAN_GPU 14))
  = [(8000, true, double_of_Z 25)].
Proof. by vm_compute. Qed.
