(* ===== verification/ProcessPriority.v ===== *)
(** * ProcessPriority: priorities, efficiency mode and CPU affinity

    Models the scheduling operations of [src/src/process_backend_linux.c]:
    [lsm_process_set_priority], [lsm_process_set_nice],
    [lsm_process_set_efficiency] with its restore table, and the affinity pair.
    The kernel's scheduler is a parameter: a state with the priority system calls
    and the laws of their manual pages.  Whether the PID still is the instance
    (the check each operation starts with) is [identity], the error of
    [process_identity_pid], 0 when it is.

    An operation is one step on the table and the scheduler.  The C releases the
    lock of the restore table between its accesses, but the operation has one
    caller, the menu handler [process_actions.c:542] on the GTK thread, so no two
    calls overlap; changes by other programs fall between calls. *)
From S2P Require Import Prelude ProcessModel ProcessStat ProcessControl ProcessScan.
Local Open Scope Z_scope.

Definition ENOSPC : Z := 28.
Definition EACCES : Z := 13.

(** ** The scheduler *)

Class Scheduler (K : Type) := {
  getpriority : K → Z → option Z;
  (** errno, 0 on success *)
  setpriority : K → Z → Z → Z * K;
  ioprio_get : K → Z → option Z;
  ioprio_set : K → Z → Z → bool * K;
  sched_getaffinity : K → Z → option (list nat);
  sched_setaffinity : K → Z → list nat → bool * K;
  (** the CPUs of the machine the process may use *)
  cpus_permitted : K → Z → list nat;
  nprocessors_conf : Z;
}.

(** What one process's attributes are. *)
Definition attributes {K} `{Scheduler K} (k : K) (pid : Z) : option Z * option Z * option (list nat) :=
  (getpriority k pid, ioprio_get k pid, sched_getaffinity k pid).

(** A call that succeeds sets its attribute of its process and nothing else; a
    call that fails changes nothing. *)
Class SchedulerLaws (K : Type) `{Scheduler K} : Prop := {
  setpriority_done k pid nice k' : setpriority k pid nice = (0, k') →
    attributes k' pid = (Some nice, ioprio_get k pid, sched_getaffinity k pid);
  setpriority_other k pid nice other : other ≠ pid →
    attributes (setpriority k pid nice).2 other = attributes k other;
  setpriority_failed k pid nice : (setpriority k pid nice).1 ≠ 0 → (setpriority k pid nice).2 = k;
  ioprio_set_done k pid ioprio k' : ioprio_set k pid ioprio = (true, k') →
    attributes k' pid = (getpriority k pid, Some ioprio, sched_getaffinity k pid);
  ioprio_set_other k pid ioprio other : other ≠ pid →
    attributes (ioprio_set k pid ioprio).2 other = attributes k other;
  ioprio_set_failed k pid ioprio : (ioprio_set k pid ioprio).1 = false → (ioprio_set k pid ioprio).2 = k;
  setaffinity_done k pid cpus k' : sched_setaffinity k pid cpus = (true, k') →
    attributes k' pid = (getpriority k pid, ioprio_get k pid, Some (filter (λ cpu, cpu ∈ cpus_permitted k pid) cpus));
}.

(** ** Priority *)

(** src: process_backend_linux.c nice_from_priority *)
Definition nice_from_priority (priority : LsmProcessPriority) : Z :=
  match priority with
  | LSM_PROCESS_PRIORITY_HIGH => -10
  | LSM_PROCESS_PRIORITY_ABOVE_NORMAL => -5
  | LSM_PROCESS_PRIORITY_NORMAL => 0
  | LSM_PROCESS_PRIORITY_BELOW_NORMAL => 5
  | LSM_PROCESS_PRIORITY_LOW => 10
  end.

(** src: process_backend_linux.c:1312-1319 LsmEfficiencyRestoreState *)
Record LsmEfficiencyRestoreState := {
  es_pid : Z;
  es_instance_id : Z;
  es_original_nice : Z;
  es_original_ioprio : Z;
  es_restore_ioprio : bool;
  es_captured : bool;
}.
#[export] Instance eta_LsmEfficiencyRestoreState : Eta LsmEfficiencyRestoreState := λ x,
  Build_LsmEfficiencyRestoreState (es_pid x) (es_instance_id x) (es_original_nice x) (es_original_ioprio x)
    (es_restore_ioprio x) (es_captured x).

Definition restore_zero : LsmEfficiencyRestoreState := Build_LsmEfficiencyRestoreState 0 0 0 0 false false.

(** src: process_backend_linux.c:1321-1321 LSM_EFFICIENCY_RESTORE_CAPACITY *)
Definition LSM_EFFICIENCY_RESTORE_CAPACITY : nat := 1024.

Abbreviation RestoreTable := (list LsmEfficiencyRestoreState).

(** [LSM_IOPRIO_VALUE(class_id, data)] *)
(** src: process_backend_linux.c:57-57 LSM_IOPRIO_VALUE *)
Definition ioprio_value (class_id data : Z) : Z := Z.lor (Z.shiftl class_id 13) data.

(** src: process_backend_linux.c efficiency_restore_find *)
Definition efficiency_restore_find (table : RestoreTable) (pid instance_id : Z)
    : option (nat * LsmEfficiencyRestoreState) :=
  list_find (λ state, es_captured state = true ∧ es_pid state = pid ∧ es_instance_id state = instance_id) table.

(** The table with the slot, or [None] when it is full. *)
(** src: process_backend_linux.c efficiency_restore_reserve *)
Definition efficiency_restore_reserve (table : RestoreTable) (pid instance_id : Z)
    : option (nat * RestoreTable) :=
  match efficiency_restore_find table pid instance_id with
  | Some (index, _) => Some (index, table)
  | None =>
      match list_find (λ state, es_captured state = false) table with
      | Some (index, _) =>
          Some (index, <[index := restore_zero <| es_pid := pid |> <| es_instance_id := instance_id |>
                                               <| es_captured := true |>]> table)
      | None => None
      end
  end.

(** src: process_backend_linux.c efficiency_restore_remove *)
Definition efficiency_restore_remove (table : RestoreTable) (pid instance_id : Z) : RestoreTable :=
  match efficiency_restore_find table pid instance_id with
  | Some (index, _) => <[index := restore_zero]> table
  | None => table
  end.

Section operations.
Context {K : Type} `{Scheduler K}.

(** The errno (0 is success) and the scheduler afterwards. *)
(** src: process_backend_linux.c lsm_process_set_priority *)
Definition lsm_process_set_priority (k : K) (identity : Z) (pid : Z) (priority : LsmProcessPriority)
    : Z * K :=
  if negb (identity =? 0) then (identity, k)
  else if pid <=? 1 then (EINVAL, k)
  else setpriority k pid (nice_from_priority priority).

(** src: process_backend_linux.c lsm_process_set_nice *)
Definition lsm_process_set_nice (k : K) (identity : Z) (pid nice_value : Z) : Z * K :=
  if (nice_value <? -20) || (19 <? nice_value) then (EINVAL, k)
  else if negb (identity =? 0) then (identity, k)
  else if pid <=? 1 then (EINVAL, k)
  else setpriority k pid nice_value.

(** [setpriority] failed: the I/O priority and the table go back. *)
(** src: process_backend_linux.c:1438-1450 lsm_process_set_efficiency *)
Definition enable_undo (table : RestoreTable) (k : K) (pid instance_id original_ioprio : Z)
    (io_changed already_captured : bool) : RestoreTable * K :=
  (if already_captured then table else efficiency_restore_remove table pid instance_id,
   if io_changed then (ioprio_set k pid original_ioprio).2 else k).

(** src: process_backend_linux.c:1387-1453 lsm_process_set_efficiency *)
Definition enable_efficiency (table : RestoreTable) (k : K) (pid instance_id : Z) : Z * RestoreTable * K :=
  match getpriority k pid with
  | None => (ESRCH, table, k)
  | Some original_nice =>
      let current_ioprio := ioprio_get k pid in
      let original_ioprio := default 0 current_ioprio in
      let already_captured := bool_decide (is_Some (efficiency_restore_find table pid instance_id)) in
      match efficiency_restore_reserve table pid instance_id with
      | None => (ENOSPC, table, k)
      | Some (index, table) =>
          let table := if already_captured then table
                       else alter (λ state, state <| es_original_nice := original_nice |>
                                                  <| es_original_ioprio := original_ioprio |>
                                                  <| es_restore_ioprio := false |>) index table in
          let '(io_changed, k) := match current_ioprio with
                                  | Some _ => ioprio_set k pid (ioprio_value 3 0)
                                  | None => (false, k)
                                  end in
          let table :=
            if io_changed && negb already_captured then
              match efficiency_restore_find table pid instance_id with
              | Some (index, state) => <[index := state <| es_restore_ioprio := true |>]> table
              | None => table
              end
            else table in
          let '(errno, k) := setpriority k pid 10 in
          if negb (errno =? 0) then
            let '(table, k) := enable_undo table k pid instance_id original_ioprio io_changed already_captured in
            (errno, table, k)
          else (0, table, k)
      end
  end.

(** src: process_backend_linux.c:1455-1481 lsm_process_set_efficiency *)
Definition disable_efficiency (table : RestoreTable) (k : K) (pid instance_id : Z) : Z * RestoreTable * K :=
  let saved := match efficiency_restore_find table pid instance_id with
               | Some (_, state) => state
               | None => {| es_pid := pid; es_instance_id := instance_id; es_original_nice := 0;
                            es_original_ioprio := ioprio_value 2 4; es_restore_ioprio := true;
                            es_captured := false |}
               end in
  let '(io_ok, k) := if es_restore_ioprio saved then ioprio_set k pid (es_original_ioprio saved) else (true, k) in
  if negb io_ok then (EACCES, table, k) else
  let '(errno, k) := setpriority k pid (es_original_nice saved) in
  if negb (errno =? 0) then (errno, table, k)
  else (0, efficiency_restore_remove table pid instance_id, k).

(** src: process_backend_linux.c lsm_process_set_efficiency *)
Definition lsm_process_set_efficiency (table : RestoreTable) (k : K) (identity : Z) (pid instance_id : Z)
    (enabled : bool) : Z * RestoreTable * K :=
  if negb (identity =? 0) then (identity, table, k)
  else if pid <=? 1 then (EINVAL, table, k)
  else if enabled then enable_efficiency table k pid instance_id
  else disable_efficiency table k pid instance_id.

(** The CPUs that are set in a mask. *)
(** src: process_backend_linux.c:1523-1528 lsm_process_affinity_set *)
Definition cpu_set (enabled : list bool) : list nat :=
  omap (λ i, if default false (enabled !! i) then Some i else None) (seq 0 (length enabled)).

Definition CPU_SETSIZE : nat := 1024.

(** src: process_backend_linux.c lsm_process_affinity_set *)
Definition lsm_process_affinity_set (k : K) (identity : Z) (pid : Z) (enabled : list bool) : Z * K :=
  if (length enabled =? 0)%nat || (CPU_SETSIZE <? length enabled)%nat then (EINVAL, k)
  else if negb (identity =? 0) then (identity, k)
  else if pid <=? 1 then (EINVAL, k)
  else if (length (cpu_set enabled) =? 0)%nat then (EINVAL, k)
  else let '(ok, k) := sched_setaffinity k pid (cpu_set enabled) in (if ok then 0 else EACCES, k).

(** The flags written, [None] on failure. *)
(** src: process_backend_linux.c lsm_process_affinity_get *)
Definition lsm_process_affinity_get (k : K) (identity : Z) (pid : Z) (capacity : nat) : option (list bool) :=
  if (capacity =? 0)%nat || negb (identity =? 0) then None else
  match sched_getaffinity k pid with
  | None => None
  | Some cpus =>
      let configured := nprocessors_conf in
      let count := if 0 <? configured then Z.to_nat configured else capacity in
      let count := Nat.min (Nat.min count capacity) CPU_SETSIZE in
      Some ((λ i, bool_decide (i ∈ cpus)) <$> seq 0 count)
  end.
End operations.

(** ** The restore table *)

(** A slot is empty or holds a process no other slot holds. *)
Definition restore_key (state : LsmEfficiencyRestoreState) : Z * Z := (es_pid state, es_instance_id state).

Record table_ok (table : RestoreTable) : Prop := {
  ok_free i state : table !! i = Some state → es_captured state = false → state = restore_zero;
  ok_unique i j left right : table !! i = Some left → table !! j = Some right →
    es_captured left = true → es_captured right = true → restore_key left = restore_key right → i = j;
}.

(** [static] storage: every slot is zero. *)
Definition table_initial : RestoreTable := replicate LSM_EFFICIENCY_RESTORE_CAPACITY restore_zero.

Lemma table_initial_ok : table_ok table_initial.
Proof.
  split; intros * Hi; apply lookup_replicate in Hi as [-> _]; [done|].
  intros Hj Hc; discriminate Hc.
Qed.

Lemma find_Some table pid instance_id index state : table_ok table →
  efficiency_restore_find table pid instance_id = Some (index, state) ↔
  table !! index = Some state ∧ es_captured state = true ∧ restore_key state = (pid, instance_id).
Proof.
  intros Hok. unfold efficiency_restore_find, restore_key. rewrite list_find_Some. split.
  - intros (Hi & (Hc & Hp & Hx) & _). by rewrite Hp, Hx.
  - intros (Hi & Hc & Hk). simplify_eq. split_and!; [done..|].
    intros j other Hj Hlt (Hcj & Hpj & Hxj).
    assert (index = j) by (eapply ok_unique; eauto; unfold restore_key; congruence). lia.
Qed.

Lemma find_None table pid instance_id :
  efficiency_restore_find table pid instance_id = None ↔
  ∀ index state, table !! index = Some state → es_captured state = true → restore_key state ≠ (pid, instance_id).
Proof.
  unfold efficiency_restore_find, restore_key. rewrite list_find_None, Forall_lookup. split.
  - intros Hall index state Hi Hc Hk. simplify_eq. by apply (Hall _ _ Hi).
  - intros Hall index state Hi (Hc & Hp & Hx). by apply (Hall _ _ Hi Hc); rewrite Hp, Hx.
Qed.

Lemma table_ok_clear table index : table_ok table → table_ok (<[index := restore_zero]> table).
Proof.
  intros [Hfree Hunique]. split.
  - intros i state [(-> & <- & _)|(Hne & Hi)]%list_lookup_insert_Some Hc; [done|by eapply Hfree].
  - intros i j left right [(-> & <- & _)|(Hne & Hi)]%list_lookup_insert_Some
      [(-> & <- & _)|(Hnj & Hj)]%list_lookup_insert_Some Hl Hr Hk; try discriminate; by eapply Hunique.
Qed.

Lemma table_ok_capture table index state : table_ok table → es_captured state = true →
  efficiency_restore_find table (es_pid state) (es_instance_id state) = None →
  table_ok (<[index := state]> table).
Proof.
  intros [Hfree Hunique] Hc Hnew. rewrite find_None in Hnew. split.
  - intros i other [(-> & <- & _)|(Hne & Hi)]%list_lookup_insert_Some Hf; [congruence|by eapply Hfree].
  - intros i j left right [(-> & <- & _)|(Hne & Hi)]%list_lookup_insert_Some
      [(-> & <- & _)|(Hnj & Hj)]%list_lookup_insert_Some Hl Hr Hk; try done.
    + by destruct (Hnew _ _ Hj Hr).
    + by destruct (Hnew _ _ Hi Hl).
    + by eapply Hunique.
Qed.

(** A write to a free slot is seen under its own key and no other. *)
Lemma find_capture table index free state pid instance_id : table_ok table →
  table !! index = Some free → es_captured free = false → es_captured state = true →
  efficiency_restore_find table (es_pid state) (es_instance_id state) = None →
  efficiency_restore_find (<[index := state]> table) pid instance_id =
  if decide (restore_key state = (pid, instance_id)) then Some (index, state)
  else efficiency_restore_find table pid instance_id.
Proof.
  intros Hok Hi Hf Hc Hnew. pose proof (table_ok_capture table index state Hok Hc Hnew) as Hok'.
  destruct (decide _) as [Hk|Hk].
  { apply find_Some; [done|]. split; [|done]. by eapply list_lookup_insert_eq, lookup_lt_Some. }
  destruct (efficiency_restore_find table pid instance_id) as [[i found]|] eqn:Hfind.
  - apply find_Some in Hfind as (Hfi & Hfc & Hfk); [|done]. apply find_Some; [done|].
    split; [|done]. rewrite list_lookup_insert_ne; [done|]. intros ->. congruence.
  - rewrite find_None in Hfind |- *.
    intros i other [(-> & <- & _)|(Hne & Hli)]%list_lookup_insert_Some Hoc; [done|by eapply Hfind].
Qed.

(** Removing a process frees its slot and no other's. *)
Lemma find_remove table pid instance_id pid' instance_id' : table_ok table →
  efficiency_restore_find (efficiency_restore_remove table pid instance_id) pid' instance_id' =
  if decide ((pid, instance_id) = (pid', instance_id')) then None
  else efficiency_restore_find table pid' instance_id'.
Proof.
  intros Hok. unfold efficiency_restore_remove.
  destruct (efficiency_restore_find table pid instance_id) as [[i held]|] eqn:Hheld.
  2:{ by destruct (decide _) as [[= <- <-]|_]. }
  apply find_Some in Hheld as (Hi & Hc & Hk); [|done].
  pose proof (table_ok_clear table i Hok) as Hok'.
  destruct (decide _) as [[= <- <-]|Hne].
  - apply find_None. intros j other [(-> & <- & _)|(Hne & Hj)]%list_lookup_insert_Some Hoc; [discriminate|].
    intros Hko. apply Hne. apply (ok_unique _ Hok i j held other); congruence.
  - destruct (efficiency_restore_find table pid' instance_id') as [[j found]|] eqn:Hfind.
    + apply find_Some in Hfind as (Hfj & Hfc & Hfk); [|done]. apply find_Some; [done|].
      split; [|done]. rewrite list_lookup_insert_ne; [done|]. intros ->. congruence.
    + rewrite find_None in Hfind |- *.
      intros j other [(-> & <- & _)|(Hnj & Hj)]%list_lookup_insert_Some Hoc; [discriminate|by eapply Hfind].
Qed.

Lemma table_ok_remove table pid instance_id : table_ok table →
  table_ok (efficiency_restore_remove table pid instance_id).
Proof.
  intros Hok. unfold efficiency_restore_remove.
  destruct (efficiency_restore_find table pid instance_id) as [[i held]|]; [by apply table_ok_clear|done].
Qed.

(** ** What an operation does to the table and to the process *)

Section theory.
Context {K : Type} `{HS : Scheduler K, !SchedulerLaws K}.
Implicit Types (k : K) (table : RestoreTable).

(** The enabling call's write to the I/O priority: whether it took effect, and the scheduler. *)
Definition idle_io (k : K) (pid : Z) : bool * K :=
  match ioprio_get k pid with
  | Some _ => ioprio_set k pid (ioprio_value 3 0)
  | None => (false, k)
  end.

(** The entry a first enabling call captures. *)
Definition captured_entry (k : K) (pid instance_id nice : Z) : LsmEfficiencyRestoreState :=
  Build_LsmEfficiencyRestoreState pid instance_id nice (default 0 (ioprio_get k pid)) (idle_io k pid).1 true.

(** The scheduler after an enabling call. *)
Definition enabled_scheduler (k : K) (pid : Z) : Z * K :=
  let '(errno, k') := setpriority (idle_io k pid).2 pid 10 in
  (errno, if negb (errno =? 0) && (idle_io k pid).1
          then (ioprio_set k' pid (default 0 (ioprio_get k pid))).2 else k').

Lemma find_remove_captured table index state : table_ok table → es_captured state = true →
  table !! index = Some restore_zero →
  efficiency_restore_find table (es_pid state) (es_instance_id state) = None →
  efficiency_restore_remove (<[index := state]> table) (es_pid state) (es_instance_id state) = table.
Proof.
  intros Hok Hc Hi Hnew. unfold efficiency_restore_remove.
  rewrite (find_capture table index restore_zero state) by done.
  rewrite decide_True by done. rewrite list_insert_insert_eq. by apply list_insert_id.
Qed.

(** A process whose entry is captured keeps it: enabling again changes the
    scheduler only. *)
Lemma enable_again table k pid instance_id nice entry :
  getpriority k pid = Some nice →
  efficiency_restore_find table pid instance_id = Some entry →
  enable_efficiency table k pid instance_id =
  ((enabled_scheduler k pid).1, table, (enabled_scheduler k pid).2).
Proof.
  intros Hg Hf. unfold enable_efficiency, enabled_scheduler, enable_undo, idle_io, efficiency_restore_reserve.
  rewrite Hg, Hf. destruct entry as [index state].
  rewrite bool_decide_eq_true_2 by eauto.
  destruct (ioprio_get k pid) as [io|]; simpl;
    [destruct (ioprio_set k pid _) as [io_changed k1]|]; simpl; rewrite ?andb_false_r;
    destruct (setpriority _ _ _) as [errno k2]; simpl; destruct (negb (errno =? 0)) eqn:He; simpl; try done.
  all: apply negb_false_iff, Z.eqb_eq in He; by subst.
Qed.

(** A first enabling call takes the first free slot; when it fails the table is
    what it was. *)
Lemma enable_first table k pid instance_id nice index free : table_ok table →
  getpriority k pid = Some nice →
  efficiency_restore_find table pid instance_id = None →
  list_find (λ state, es_captured state = false) table = Some (index, free) →
  enable_efficiency table k pid instance_id =
  ((enabled_scheduler k pid).1,
   if (enabled_scheduler k pid).1 =? 0 then <[index := captured_entry k pid instance_id nice]> table else table,
   (enabled_scheduler k pid).2).
Proof.
  intros Hok Hg Hf Hfree. unfold enable_efficiency, enabled_scheduler, enable_undo, efficiency_restore_reserve.
  rewrite Hg, Hf, Hfree. rewrite bool_decide_eq_false_2 by (by intros [? [=]]).
  apply list_find_Some in Hfree as (Hi & Hc & _). pose proof (ok_free _ Hok _ _ Hi Hc) as ->.
  pose proof (lookup_lt_Some _ _ _ Hi) as Hlt.
  set (state := captured_entry k pid instance_id nice).
  assert (Hio : match ioprio_get k pid with
                | Some _ => ioprio_set k pid (ioprio_value 3 0) | None => (false, k) end = idle_io k pid) by done.
  rewrite Hio. rewrite (surjective_pairing (idle_io k pid)).
  set (early := state <| es_restore_ioprio := false |>).
  assert (Halter : alter (λ state, state <| es_original_nice := nice |>
                            <| es_original_ioprio := default 0 (ioprio_get k pid) |>
                            <| es_restore_ioprio := false |>) index
                    (<[index := restore_zero <| es_pid := pid |> <| es_instance_id := instance_id |>
                                             <| es_captured := true |>]> table) = <[index := early]> table).
  { apply list_eq. intros j. rewrite list_lookup_alter, !list_lookup_insert. repeat case_decide; naive_solver. }
  rewrite Halter. clear Halter.
  assert (Hfe : efficiency_restore_find (<[index := early]> table) pid instance_id = Some (index, early)).
  { rewrite (find_capture table index restore_zero early) by done. by rewrite decide_True. }
  rewrite Hfe.
  assert (Htable : (if (idle_io k pid).1 && negb false
                    then <[index := early <| es_restore_ioprio := true |>]> (<[index := early]> table)
                    else <[index := early]> table) = <[index := state]> table).
  { unfold early, state, captured_entry. destruct (idle_io k pid).1; simpl; [by rewrite list_insert_insert_eq|done]. }
  rewrite Htable. clear Htable.
  destruct (setpriority _ _ _) as [errno k2]; simpl. destruct (errno =? 0) eqn:He; simpl.
  - apply Z.eqb_eq in He. by subst.
  - change pid with (es_pid state). change instance_id with (es_instance_id state).
    by rewrite find_remove_captured.
Qed.

Lemma enable_full table k pid instance_id nice :
  getpriority k pid = Some nice →
  efficiency_restore_find table pid instance_id = None →
  list_find (λ state, es_captured state = false) table = None →
  enable_efficiency table k pid instance_id = (ENOSPC, table, k).
Proof. intros Hg Hf Hfull. unfold enable_efficiency, efficiency_restore_reserve. by rewrite Hg, Hf, Hfull. Qed.

Lemma enable_no_process table k pid instance_id :
  getpriority k pid = None → enable_efficiency table k pid instance_id = (ESRCH, table, k).
Proof. intros Hg. unfold enable_efficiency. by rewrite Hg. Qed.

(** The four ways an enabling call goes. *)
Lemma enable_cases table k pid instance_id : table_ok table →
  (getpriority k pid = None ∧ enable_efficiency table k pid instance_id = (ESRCH, table, k)) ∨
  (∃ nice, getpriority k pid = Some nice ∧
    ((list_find (λ state, es_captured state = false) table = None ∧
      enable_efficiency table k pid instance_id = (ENOSPC, table, k)) ∨
     (∃ table', enable_efficiency table k pid instance_id =
        ((enabled_scheduler k pid).1, table', (enabled_scheduler k pid).2) ∧
      (table' = table ∨
       ∃ index, (enabled_scheduler k pid).1 = 0 ∧ table !! index = Some restore_zero ∧
         efficiency_restore_find table pid instance_id = None ∧
         table' = <[index := captured_entry k pid instance_id nice]> table)))).
Proof.
  intros Hok. destruct (getpriority k pid) as [nice|] eqn:Hg.
  2:{ left. by rewrite enable_no_process. }
  right. exists nice. split; [done|].
  destruct (efficiency_restore_find table pid instance_id) as [entry|] eqn:Hf.
  { right. exists table. by rewrite (enable_again _ _ _ _ nice entry) by done; auto. }
  destruct (list_find (λ state, es_captured state = false) table) as [[index free]|] eqn:Hfree.
  2:{ left. by rewrite (enable_full _ _ _ _ nice). }
  right. rewrite (enable_first _ _ _ _ nice index free) by done. eexists. split; [done|].
  destruct (_ =? 0) eqn:He; [right|by left]. exists index. apply Z.eqb_eq in He.
  apply list_find_Some in Hfree as (Hi & Hc & _). pose proof (ok_free _ Hok _ _ Hi Hc) as ->. by split_and!.
Qed.

Lemma disable_table table k pid instance_id errno table' k' :
  disable_efficiency table k pid instance_id = (errno, table', k') →
  if errno =? 0 then table' = efficiency_restore_remove table pid instance_id else table' = table.
Proof.
  unfold disable_efficiency. destruct (if es_restore_ioprio _ then _ else _) as [[] k1]; simpl.
  2:{ by intros [= <- <- <-]. }
  destruct (setpriority _ _ _) as [error k2]; simpl. destruct (error =? 0) eqn:He; simpl; intros [= <- <- <-];
    [done|by rewrite He].
Qed.

(** ** Histories *)

(** A step of the program or of the rest of the system: an operation on some
    process, or a change of the scheduler the program has no part in.  No
    successful disabling call is for a process that [stays]. *)
Inductive efficiency_step (stays : Z * Z → Prop) : RestoreTable * K → RestoreTable * K → Prop :=
  | step_set table k identity pid instance_id enabled errno table' k' :
      lsm_process_set_efficiency table k identity pid instance_id enabled = (errno, table', k') →
      (enabled = false → errno = 0 → ¬ stays (pid, instance_id)) →
      efficiency_step stays (table, k) (table', k')
  | step_elsewhere table k k' : efficiency_step stays (table, k) (table, k').

Lemma enable_keeps table k pid instance_id errno table' k' : table_ok table →
  enable_efficiency table k pid instance_id = (errno, table', k') →
  table_ok table' ∧ ∀ pid' instance_id' entry, efficiency_restore_find table pid' instance_id' = Some entry →
    efficiency_restore_find table' pid' instance_id' = Some entry.
Proof.
  intros Hok He. destruct (enable_cases table k pid instance_id Hok)
    as [[Hg Hc]|(nice & Hg & [[Hfull Hc]|(table1 & Hc & Hd)])];
    rewrite Hc in He; simplify_eq; [by split..|].
  destruct Hd as [->|(index & _ & Hi & Hf & ->)]; [by split|].
  split; [by apply table_ok_capture|]. intros pid' instance_id' entry Hentry.
  rewrite (find_capture table index restore_zero) by done.
  destruct (decide _) as [Heq|Hne]; [|done]. unfold restore_key, captured_entry in Heq; simpl in Heq.
  injection Heq as -> ->. congruence.
Qed.

Lemma step_keeps stays state state' : efficiency_step stays state state' → table_ok state.1 →
  table_ok state'.1 ∧ ∀ pid instance_id entry, stays (pid, instance_id) →
    efficiency_restore_find state.1 pid instance_id = Some entry →
    efficiency_restore_find state'.1 pid instance_id = Some entry.
Proof.
  intros [table k identity pid instance_id enabled errno table' k' Hset Hallowed|table k k'] Hok; simpl in *;
    [|by split].
  unfold lsm_process_set_efficiency in Hset.
  destruct (negb (identity =? 0)); [by simplify_eq|]. destruct (pid <=? 1); [by simplify_eq|].
  destruct enabled.
  - apply enable_keeps in Hset as [Hok' Hkeep]; [|done]. eauto.
  - apply disable_table in Hset. destruct (errno =? 0) eqn:He; subst; [|by split].
    split; [by apply table_ok_remove|]. intros pid' instance_id' entry Hstays Hentry.
    rewrite find_remove by done. destruct (decide _) as [[= <- <-]|Hne]; [|done].
    apply Z.eqb_eq in He. by destruct (Hallowed eq_refl He).
Qed.

Lemma steps_keep stays state state' : rtc (efficiency_step stays) state state' → table_ok state.1 →
  table_ok state'.1 ∧ ∀ pid instance_id entry, stays (pid, instance_id) →
    efficiency_restore_find state.1 pid instance_id = Some entry →
    efficiency_restore_find state'.1 pid instance_id = Some entry.
Proof.
  induction 1 as [state|state middle state' Hstep Hsteps IH]; intros Hok; [by split|].
  destruct (step_keeps _ _ _ Hstep Hok) as [Hok' Hkeep]. destruct (IH Hok') as [Hok2 Hkeep2]. eauto.
Qed.

Lemma set_efficiency_done table k identity pid instance_id enabled table' k' :
  lsm_process_set_efficiency table k identity pid instance_id enabled = (0, table', k') →
  (if enabled then enable_efficiency table k pid instance_id
   else disable_efficiency table k pid instance_id) = (0, table', k').
Proof.
  unfold lsm_process_set_efficiency. destruct (identity =? 0) eqn:Hid; simpl.
  - destruct (pid <=? 1); [by intros [=]|]. by destruct enabled.
  - intros [= -> _ _]. done.
Qed.

Lemma setpriority_attributes k pid nice errno k' : setpriority k pid nice = (errno, k') →
  (errno = 0 → attributes k' pid = (Some nice, ioprio_get k pid, sched_getaffinity k pid)) ∧
  (errno ≠ 0 → k' = k).
Proof.
  intros Hs. split; intros He; [subst; by eapply setpriority_done|].
  pose proof (setpriority_failed k pid nice) as Hf. rewrite Hs in Hf. by apply Hf.
Qed.


Lemma ioprio_set_keeps k pid ioprio :
  getpriority (ioprio_set k pid ioprio).2 pid = getpriority k pid ∧
  sched_getaffinity (ioprio_set k pid ioprio).2 pid = sched_getaffinity k pid ∧
  (∀ other, other ≠ pid → attributes (ioprio_set k pid ioprio).2 other = attributes k other).
Proof.
  split_and!; [..|by intros; apply ioprio_set_other].
  all: destruct (ioprio_set k pid ioprio) as [[] k1] eqn:Hi; simpl;
    [by apply ioprio_set_done in Hi; unfold attributes in Hi; simplify_eq
    |by pose proof (ioprio_set_failed k pid ioprio) as Hf; rewrite Hi in Hf; simpl in Hf; rewrite Hf].
Qed.

Lemma idle_io_keeps k pid :
  getpriority (idle_io k pid).2 pid = getpriority k pid ∧
  sched_getaffinity (idle_io k pid).2 pid = sched_getaffinity k pid ∧
  (∀ other, other ≠ pid → attributes (idle_io k pid).2 other = attributes k other).
Proof. unfold idle_io. destruct (ioprio_get k pid); [apply ioprio_set_keeps|by split_and!]. Qed.

(** A failed enabling call leaves the nice value and the affinity, and the
    other processes; it leaves the I/O priority too unless it changed it and the
    write that puts it back failed. *)
Lemma enabled_scheduler_failed k pid k' errno : enabled_scheduler k pid = (errno, k') → errno ≠ 0 →
  getpriority k' pid = getpriority k pid ∧ sched_getaffinity k' pid = sched_getaffinity k pid ∧
  (∀ other, other ≠ pid → attributes k' other = attributes k other) ∧
  ((idle_io k pid).1 = false ∨ (ioprio_set (idle_io k pid).2 pid (default 0 (ioprio_get k pid))).1 = true →
   ioprio_get k' pid = ioprio_get k pid).
Proof.
  unfold enabled_scheduler. destruct (setpriority _ _ _) as [error k2] eqn:Hs. intros [= -> <-] He.
  destruct (setpriority_attributes _ _ _ _ _ Hs) as [_ Hf]. rewrite (Hf He).
  rewrite (proj2 (Z.eqb_neq errno 0)) by done. simpl.
  destruct (idle_io_keeps k pid) as (Hn & Ha & Ho).
  destruct (idle_io k pid) as [[] k1] eqn:Hio; simpl in *.
  - destruct (ioprio_set_keeps k1 pid (default 0 (ioprio_get k pid))) as (Hn' & Ha' & Ho').
    rewrite Hn', Ha'. split_and!; [done..| |].
    + intros other Hne. by rewrite Ho', Ho.
    + intros [|Hback]; [done|]. unfold idle_io in Hio. destruct (ioprio_get k pid) as [io|] eqn:Hg; [|done].
      destruct (ioprio_set k1 pid _) as [ok k3] eqn:Hset; simpl in *. subst.
      apply ioprio_set_done in Hset. unfold attributes in Hset. by simplify_eq.
  - split_and!; [done..|]. intros _. unfold idle_io in Hio.
    destruct (ioprio_get k pid) as [io|] eqn:Hg; [|by simplify_eq].
    pose proof (ioprio_set_failed k pid (ioprio_value 3 0)) as Hf2. rewrite Hio in Hf2. simpl in Hf2. by rewrite Hf2.
Qed.

(** A successful disabling call with an entry writes what the entry holds. *)
Lemma disable_done table k pid instance_id index entry table' k' :
  efficiency_restore_find table pid instance_id = Some (index, entry) →
  disable_efficiency table k pid instance_id = (0, table', k') →
  getpriority k' pid = Some (es_original_nice entry) ∧
  ioprio_get k' pid = (if es_restore_ioprio entry then Some (es_original_ioprio entry) else ioprio_get k pid).
Proof.
  intros Hf. unfold disable_efficiency. rewrite Hf.
  destruct (if es_restore_ioprio entry then _ else _) as [io_ok k1] eqn:Hio.
  destruct io_ok; simpl; [|by intros [=]].
  destruct (setpriority _ _ _) as [errno k2] eqn:Hs. destruct (errno =? 0) eqn:He; simpl;
    [intros [= <- <-]|by intros [= -> _ _]].
  apply Z.eqb_eq in He. destruct (setpriority_attributes _ _ _ _ _ Hs) as [Hd _]. specialize (Hd He).
  unfold attributes in Hd. injection Hd as Hn Hi _. rewrite Hn, Hi. split; [done|].
  destruct (es_restore_ioprio entry); [|by simplify_eq].
  apply ioprio_set_done in Hio. unfold attributes in Hio. by simplify_eq.
Qed.

Lemma initial_steps_ok stays k0 table k :
  rtc (efficiency_step stays) (table_initial, k0) (table, k) → table_ok table.
Proof. intros Hsteps. apply (steps_keep _ _ _ Hsteps). apply table_initial_ok. Qed.

(** ** Properties *)


(** An enabling call that fails has no effect: the
    restore table is what it was, the nice value and the affinity too, no other
    process is touched, and the I/O priority is what it was unless the kernel
    refuses to put it back.  A full table is such a failure, with [ENOSPC], before
    anything of the process is changed. *)
Theorem efficiency_failure_has_no_effect k0 table k identity pid instance_id errno table' k' :
  rtc (efficiency_step (λ _, False)) (table_initial, k0) (table, k) →
  lsm_process_set_efficiency table k identity pid instance_id true = (errno, table', k') → errno ≠ 0 →
  table' = table ∧ getpriority k' pid = getpriority k pid ∧
  sched_getaffinity k' pid = sched_getaffinity k pid ∧
  (∀ other, other ≠ pid → attributes k' other = attributes k other) ∧
  ((idle_io k pid).1 = false ∨ (ioprio_set (idle_io k pid).2 pid (default 0 (ioprio_get k pid))).1 = true →
   ioprio_get k' pid = ioprio_get k pid) ∧
  (identity = 0 → 1 < pid → is_Some (getpriority k pid) → efficiency_restore_find table pid instance_id = None →
   Forall (λ state, es_captured state = true) table → errno = ENOSPC ∧ k' = k).
Proof.
  intros Hbefore Hset Hne. pose proof (initial_steps_ok _ _ _ _ Hbefore) as Hok.
  unfold lsm_process_set_efficiency in Hset.
  destruct (identity =? 0) eqn:Hid; simpl in Hset.
  2:{ simplify_eq. apply Z.eqb_neq in Hid. by split_and!. }
  destruct (pid <=? 1) eqn:Hpid; [simplify_eq; split_and!; (done || lia)|].
  destruct (enable_cases table k pid instance_id Hok)
    as [[Hg Hc]|(nice & Hg & [[Hfull Hc]|(table1 & Hc & Hd)])]; rewrite Hc in Hset.
  - simplify_eq. split_and!; try done. intros _ _ [? ?]. congruence.
  - simplify_eq. by split_and!.
  - injection Hset as He <- Hk. destruct Hd as [->|(index & He0 & _)]; [|congruence].
    assert (Heq : enabled_scheduler k pid = (errno, k')) by (by rewrite <- He, <- Hk, <- surjective_pairing).
    destruct (enabled_scheduler_failed k pid k' errno Heq Hne) as (Hn & Ha & Ho & Hio).
    split_and!; [done..|]. intros _ _ _ Hf Hall. rewrite (enable_full _ _ _ _ nice) in Hc; [|done..|].
    { injection Hc as Hc1 Hc2. split; congruence. }
    apply list_find_None. apply (Forall_impl _ _ _ Hall). intros state Hs Hs'. congruence.
Qed.

Lemma elem_of_cpu_set enabled cpu : cpu ∈ cpu_set enabled ↔ enabled !! cpu = Some true.
Proof.
  unfold cpu_set. rewrite list_elem_of_omap. split.
  - intros (i & _ & Hi). destruct (enabled !! i) as [[]|] eqn:He; simpl in Hi; by simplify_eq.
  - intros He. exists cpu. rewrite He. split; [|done]. apply elem_of_seq. apply lookup_lt_Some in He. lia.
Qed.

(** After a successful call that sets the affinity, the reading
    call reports, for each CPU of the machine the caller has room for, what was
    asked for where the process may use the CPU, and "not set" elsewhere: no other
    CPU appears, and none that was asked for and is permitted is lost.  The call
    is refused with [EINVAL] for a mask with no CPU set. *)
Theorem affinity_round_trip k identity pid enabled k' capacity :
  lsm_process_affinity_set k identity pid enabled = (0, k') → (0 < capacity)%nat →
  (∃ flags, lsm_process_affinity_get k' identity pid capacity = Some flags ∧
    length flags = Nat.min (Nat.min (if 0 <? nprocessors_conf (K := K) then Z.to_nat (nprocessors_conf (K := K))
                                     else capacity) capacity) CPU_SETSIZE ∧
    ∀ cpu flag, flags !! cpu = Some flag →
      (flag = true ↔ enabled !! cpu = Some true ∧ cpu ∈ cpus_permitted k pid)) ∧
  ∃ cpu, enabled !! cpu = Some true.
Proof.
  unfold lsm_process_affinity_set. intros Hset Hcap.
  destruct (_ || _)%bool; [by simplify_eq|].
  destruct (identity =? 0) eqn:Hid; simpl in Hset; [|by simplify_eq].
  destruct (pid <=? 1); [by simplify_eq|].
  destruct (length (cpu_set enabled) =? 0)%nat eqn:Hany; [by simplify_eq|].
  destruct (sched_setaffinity k pid (cpu_set enabled)) as [[] k1] eqn:Hs; [|by simplify_eq]. simplify_eq.
  pose proof (setaffinity_done _ _ _ _ Hs) as Ha. unfold attributes in Ha. injection Ha as _ _ Ha.
  split.
  - unfold lsm_process_affinity_get. rewrite (proj2 (Nat.eqb_neq capacity 0)) by lia. rewrite Hid. simpl.
    rewrite Ha. eexists. split; [done|]. split; [by rewrite length_fmap, length_seq|].
    intros cpu flag Hflag. rewrite list_lookup_fmap in Hflag.
    apply fmap_Some in Hflag as (i & Hi & ->). apply lookup_seq in Hi as [-> _]. simpl.
    rewrite bool_decide_eq_true, list_elem_of_filter, elem_of_cpu_set. tauto.
  - apply Nat.eqb_neq in Hany. destruct (cpu_set enabled) as [|cpu rest] eqn:Hc; [done|].
    exists cpu. apply elem_of_cpu_set. rewrite Hc. left.
Qed.

(** The nice value a choice gives, as the backend reads it back. *)
Lemma priority_from_nice_from_priority priority :
  priority_from_nice (nice_from_priority priority) =
  match priority with LSM_PROCESS_PRIORITY_LOW => LSM_PROCESS_PRIORITY_BELOW_NORMAL | _ => priority end.
Proof. by destruct priority. Qed.

(** Setting a priority or a nice value is refused for the kernel's
    and the first process and, for a nice value, outside -20..19, with the
    scheduler unchanged; when it succeeds the process has that nice value, its
    other attributes are kept, no other process is touched, and the priority
    choice shown next is the chosen one except that "Low" is shown as "Below
    normal". *)
Theorem set_priority_effect k identity pid nice priority :
  let set_nice := lsm_process_set_nice k identity pid nice in
  let set_priority := lsm_process_set_priority k identity pid priority in
  (identity ≠ 0 ∨ pid <= 1 ∨ nice < -20 ∨ 19 < nice → set_nice.1 ≠ 0 ∧ set_nice.2 = k) ∧
  (identity ≠ 0 ∨ pid <= 1 → set_priority.1 ≠ 0 ∧ set_priority.2 = k) ∧
  (set_nice.1 = 0 → attributes set_nice.2 pid = (Some nice, ioprio_get k pid, sched_getaffinity k pid)) ∧
  (set_priority.1 = 0 → ∃ value, getpriority set_priority.2 pid = Some value ∧ -20 <= value <= 19 ∧
     priority_from_nice value =
       match priority with LSM_PROCESS_PRIORITY_LOW => LSM_PROCESS_PRIORITY_BELOW_NORMAL | _ => priority end) ∧
  ∀ other, other ≠ pid → attributes set_nice.2 other = attributes k other ∧
                         attributes set_priority.2 other = attributes k other.
Proof.
  intros set_nice set_priority. subst set_nice set_priority.
  unfold lsm_process_set_nice, lsm_process_set_priority.
  destruct (identity =? 0) eqn:Hid; [apply Z.eqb_eq in Hid|apply Z.eqb_neq in Hid]; simpl.
  2:{ destruct (_ || _) eqn:Hr; simpl; split_and!; intros; (done || by split). }
  destruct (pid <=? 1) eqn:Hpid; simpl.
  { destruct (_ || _) eqn:Hr; simpl; split_and!; intros; (done || by split). }
  apply Z.leb_gt in Hpid.
  assert (Hpri : ∀ value k' errno, setpriority k pid value = (errno, k') →
            (errno = 0 → attributes k' pid = (Some value, ioprio_get k pid, sched_getaffinity k pid)) ∧
            (∀ other, other ≠ pid → attributes k' other = attributes k other)).
  { intros value k' errno Hs. destruct (setpriority_attributes _ _ _ _ _ Hs) as [Hd _]. split; [done|].
    intros other Ho. rewrite <- (setpriority_other k pid value other Ho). by rewrite Hs. }
  destruct (setpriority k pid (nice_from_priority priority)) as [error k2] eqn:Hs2.
  destruct (Hpri _ _ _ Hs2) as [Hd2 Ho2].
  assert (Hvalue : error = 0 → ∃ value, getpriority k2 pid = Some value ∧ -20 <= value <= 19 ∧
     priority_from_nice value =
       match priority with LSM_PROCESS_PRIORITY_LOW => LSM_PROCESS_PRIORITY_BELOW_NORMAL | _ => priority end).
  { intros He. specialize (Hd2 He). unfold attributes in Hd2. injection Hd2 as Hn _ _.
    exists (nice_from_priority priority). rewrite priority_from_nice_from_priority.
    split_and!; [done|by destruct priority..]. }
  destruct ((nice <? -20) || (19 <? nice)) eqn:Hr; simpl.
  { split_and!; intros; try done; [lia|by auto|by split; auto]. }
  apply orb_false_iff in Hr as [Hr1%Z.ltb_ge Hr2%Z.ltb_ge].
  destruct (setpriority k pid nice) as [error1 k1] eqn:Hs1. destruct (Hpri _ _ _ Hs1) as [Hd1 Ho1]. simpl.
  split_and!; [lia|lia|done|done|by split; auto].
Qed.

(** A repeated enabling call whose I/O write succeeds after a first one whose
    write failed does not record it, so disabling leaves the idle I/O class. *)
Lemma repeated_enable_forgets_io table k pid instance_id nice index entry errno table' k' :
  getpriority k pid = Some nice →
  efficiency_restore_find table pid instance_id = Some (index, entry) → es_restore_ioprio entry = false →
  enable_efficiency table k pid instance_id = (errno, table', k') →
  ∀ k2 table3 k3, disable_efficiency table' k2 pid instance_id = (0, table3, k3) →
  ioprio_get k3 pid = ioprio_get k2 pid.
Proof.
  intros Hg Hf Hr He k2 table3 k3 Hd. rewrite (enable_again _ _ _ _ nice _ Hg Hf) in He. simplify_eq.
  destruct (disable_done _ _ _ _ _ _ _ _ Hf Hd) as [_ Hio]. by rewrite Hio, Hr.
Qed.
End theory.

(** ** A scheduler *)

(** The processes of a machine with four CPUs, all permitted; the priority of
    process 8 may not be changed. *)
Abbreviation Machine := (gmap Z (Z * Z * list nat)).

#[export] Instance machine_scheduler : Scheduler Machine := {
  getpriority k pid := (λ p, p.1.1) <$> k !! pid;
  setpriority k pid nice :=
    if pid =? 8 then (EACCES, k) else
    match k !! pid with Some (_, io, cpus) => (0, <[pid := (nice, io, cpus)]> k) | None => (ESRCH, k) end;
  ioprio_get k pid := (λ p, p.1.2) <$> k !! pid;
  ioprio_set k pid io :=
    match k !! pid with Some (nice, _, cpus) => (true, <[pid := (nice, io, cpus)]> k) | None => (false, k) end;
  sched_getaffinity k pid := snd <$> k !! pid;
  sched_setaffinity k pid cpus :=
    match k !! pid with
    | Some (nice, io, _) => (true, <[pid := (nice, io, filter (λ cpu, cpu ∈ seq 0 4) cpus)]> k)
    | None => (false, k)
    end;
  cpus_permitted _ _ := seq 0 4;
  nprocessors_conf := 4;
}.

#[export] Instance machine_laws : SchedulerLaws Machine.
Proof.
  split; unfold attributes; simpl; intros.
  all: try (destruct (pid =? 8); [by simplify_eq|]).
  all: destruct (_ !! pid) as [[[nice0 io0] cpus0]|] eqn:Hp; simpl in *; simplify_eq.
  all: rewrite ?lookup_insert_eq, ?lookup_insert_ne, ?Hp by done; done.
Qed.

Definition machine : Machine := <[7 := (3, ioprio_value 2 4, [0; 1]%nat)]> (<[8 := (0, 0, [2]%nat)]> ∅).

(** Process 7 is enabled twice with another process between, and disabled. *)
Definition enabled_once := Eval vm_compute in lsm_process_set_efficiency table_initial machine 0 7 70 true.
Definition enabled_twice := Eval vm_compute in lsm_process_set_efficiency enabled_once.1.2 enabled_once.2 0 7 70 true.
Definition disabled_after := Eval vm_compute in
  lsm_process_set_efficiency enabled_twice.1.2 enabled_twice.2 0 7 70 false.


(** The I/O priority of process 8 is changed and put back. *)
Definition refused := Eval vm_compute in lsm_process_set_efficiency table_initial machine 0 8 80 true.

Lemma efficiency_failure_has_no_effect_witness :
  refused.1.1 = EACCES ∧ refused.1.2 = table_initial ∧ getpriority refused.2 8 = Some 0 ∧
  ioprio_get refused.2 8 = Some 0.
Proof.
  destruct (efficiency_failure_has_no_effect machine table_initial machine 0 8 80 EACCES refused.1.2 refused.2)
    as (Ht & Hn & _ & _ & Hio & _);
    [apply rtc_refl|vm_compute; reflexivity|discriminate|].
  split_and!; [reflexivity|exact Ht|exact Hn|apply Hio; right; vm_compute; reflexivity].
Defined.

Lemma affinity_round_trip_witness :
  let k' := (lsm_process_affinity_set machine 0 7 [true; false; true]).2 in
  ∃ flags, lsm_process_affinity_get k' 0 7 16 = Some flags ∧ length flags = 4%nat.
Proof.
  destruct (affinity_round_trip machine 0 7 [true; false; true]
              (lsm_process_affinity_set machine 0 7 [true; false; true]).2 16)
    as [(flags & Hf & Hl & _) _]; [vm_compute; reflexivity|lia|].
  exists flags. by split.
Defined.

Lemma set_priority_effect_witness :
  attributes (lsm_process_set_nice machine 0 7 19).2 7 = (Some 19, Some (ioprio_value 2 4), Some [0; 1]%nat).
Proof.
  destruct (set_priority_effect machine 0 7 19 LSM_PROCESS_PRIORITY_LOW) as (_ & _ & Hn & _).
  apply Hn. reflexivity.
Defined.
