(* ===== verification/ProcessScanner.v ===== *)
(** * ProcessScanner: the coalescing background process-snapshot worker

    Models [src/src/process_scanner.c].  Every critical section is a function on
    the shared record; threads (the detached worker, the GLib main thread and
    its idle queue) are program counters of a system state, and the interleaving
    semantics is the relation [step].  The record is [None] once freed, so an
    operation on freed memory is a step that does not exist; the ownership
    theorem shows every step the code would take does exist. *)
From S2P Require Import Prelude Double ProcessModel.
Local Open Scope Z_scope.

(** src: process_scanner.c:27-44 LsmProcessScanner *)
Record LsmProcessScanner := {
  sc_completed : option (list LsmProcessInfo);
  sc_completed_count : Z;
  sc_requested_flags : Z;
  sc_active_flags : Z;
  sc_references : nat;
  (** callback function and its user data, as opaque identities *)
  sc_ready_callback : option Z;
  sc_ready_callback_data : option Z;
  sc_request_pending : bool;
  sc_scan_in_progress : bool;
  sc_result_ready : bool;
  sc_ready_dispatch_pending : bool;
  sc_stop_requested : bool;
}.
#[export] Instance eta_LsmProcessScanner : Eta LsmProcessScanner := λ x,
  Build_LsmProcessScanner (sc_completed x) (sc_completed_count x)
    (sc_requested_flags x) (sc_active_flags x) (sc_references x)
    (sc_ready_callback x) (sc_ready_callback_data x) (sc_request_pending x)
    (sc_scan_in_progress x) (sc_result_ready x) (sc_ready_dispatch_pending x)
    (sc_stop_requested x).

(** ** Critical sections *)

(** Drop one reference; the last one frees the record. *)
(** src: process_scanner.c scanner_release *)
Definition scanner_release (s : LsmProcessScanner) : option LsmProcessScanner :=
  let s' := s <| sc_references := pred (sc_references s) |> in
  if (sc_references s =? 1)%nat then None else Some s'.

(** src: process_scanner.c scanner_retain *)
Definition scanner_retain (s : LsmProcessScanner) : LsmProcessScanner :=
  s <| sc_references := S (sc_references s) |>.

(** The main-loop callback: clears the pending mark and says what to invoke. *)
(** src: process_scanner.c scanner_ready_dispatch *)
Definition scanner_ready_dispatch (s : LsmProcessScanner)
    : LsmProcessScanner * option (Z * option Z) :=
  let s' := s <| sc_ready_dispatch_pending := false |> in
  if sc_stop_requested s then (s', None)
  else match sc_ready_callback s with
       | Some callback => (s', Some (callback, sc_ready_callback_data s))
       | None => (s', None)
       end.

(** What the worker finds when it takes the lock at the top of its loop. *)
Inductive WorkerWake :=
| Wait                                     (** block in [pthread_cond_wait] *)
| Stop                                     (** leave the loop *)
| Scan (flags : Z) (s : LsmProcessScanner).

(** src: process_scanner.c:105-118 scanner_thread_main *)
Definition worker_begin (s : LsmProcessScanner) : WorkerWake :=
  if negb (sc_request_pending s) && negb (sc_stop_requested s) then Wait
  else if sc_stop_requested s then Stop
  else let flags := sc_requested_flags s in
       Scan flags (s <| sc_active_flags := flags |> <| sc_request_pending := false |>
                     <| sc_scan_in_progress := true |>).

(** The critical section after a scan: the result is [NULL] on backend failure.
    Returns whether the worker leaves the loop and whether it must queue a
    main-loop dispatch. *)
(** src: process_scanner.c:123-149 scanner_thread_main *)
Definition worker_finish (s : LsmProcessScanner)
    (processes : option (list LsmProcessInfo)) (count : Z)
    : LsmProcessScanner * bool * bool :=
  let s := s <| sc_scan_in_progress := false |> in
  if sc_stop_requested s then (s, true, false)
  else match processes with
  | Some _ =>
      let s := s <| sc_completed := processes |> <| sc_completed_count := count |>
                 <| sc_result_ready := true |> in
      if match sc_ready_callback s with Some _ => true | None => false end
         && negb (sc_ready_dispatch_pending s)
      then (scanner_retain (s <| sc_ready_dispatch_pending := true |>), false, true)
      else (s, false, false)
  | None => (s, false, false)
  end.

(** The record just before the worker thread starts. *)
(** src: process_scanner.c:160-182 lsm_process_scanner_create *)
Definition scanner_initial : LsmProcessScanner :=
  {| sc_completed := None; sc_completed_count := 0;
     sc_requested_flags := LSM_PROCESS_SCAN_EXECUTABLE; sc_active_flags := 0;
     sc_references := 2; sc_ready_callback := None; sc_ready_callback_data := None;
     sc_request_pending := true; sc_scan_in_progress := false;
     sc_result_ready := false; sc_ready_dispatch_pending := false;
     sc_stop_requested := false |}.

(** src: process_scanner.c lsm_process_scanner_set_ready_callback *)
Definition lsm_process_scanner_set_ready_callback (s : LsmProcessScanner)
    (callback user_data : option Z) : LsmProcessScanner * bool :=
  if sc_stop_requested s then (s, false)
  else
    let s := s <| sc_ready_callback := callback |>
               <| sc_ready_callback_data :=
                    match callback with Some _ => user_data | None => None end |> in
    if match callback with Some _ => true | None => false end
       && sc_result_ready s && negb (sc_ready_dispatch_pending s)
    then (scanner_retain (s <| sc_ready_dispatch_pending := true |>), true)
    else (s, false).

(** Result: accepted, new record, whether the condition is signalled. *)
(** src: process_scanner.c lsm_process_scanner_request *)
Definition lsm_process_scanner_request (s : LsmProcessScanner) (scan_flags : Z)
    : bool * LsmProcessScanner * bool :=
  if sc_stop_requested s then (false, s, false)
  else if sc_scan_in_progress s then
    if scan_flags =? sc_active_flags s
    then (true, s <| sc_request_pending := false |>, false)
    else (true, s <| sc_requested_flags := scan_flags |> <| sc_request_pending := true |>, false)
  else
    let s := s <| sc_requested_flags := scan_flags |> in
    if sc_request_pending s then (true, s, false)
    else (true, s <| sc_request_pending := true |>, true).

(** src: process_scanner.c lsm_process_scanner_take *)
Definition lsm_process_scanner_take (s : LsmProcessScanner)
    : option (option (list LsmProcessInfo) * Z) * LsmProcessScanner :=
  if negb (sc_result_ready s) then (None, s)
  else (Some (sc_completed s, sc_completed_count s),
        s <| sc_completed := None |> <| sc_completed_count := 0 |>
          <| sc_result_ready := false |>).

(** The locked part of [destroy]; the caller's reference is dropped after it. *)
(** src: process_scanner.c:286-293 lsm_process_scanner_destroy *)
Definition destroy_locked (s : LsmProcessScanner) : LsmProcessScanner :=
  s <| sc_stop_requested := true |> <| sc_ready_callback := None |>
    <| sc_ready_callback_data := None |> <| sc_request_pending := false |>.

(** ** The concurrent system *)

(** Where the detached worker is. *)
Inductive WorkerPC :=
| WTop                   (** about to take the lock *)
| WBlocked               (** asleep in [pthread_cond_wait] *)
| WScanning (flags : Z)  (** scanning, lock released *)
| WNotify                (** must still call [g_idle_add_full] *)
| WExit                  (** left the loop, must drop its reference *)
| WDone.

#[export] Instance WorkerPC_eq_dec : EqDecision WorkerPC.
Proof. solve_decision. Defined.

(** What the creator still holds. *)
Inductive OwnerPC := OOwns | OReleasing | OGone.

Record System := {
  sys_mem : option LsmProcessScanner;
  sys_worker : WorkerPC;
  sys_owner : OwnerPC;
  sys_owner_notify : bool;   (** [set_ready_callback] must still queue *)
  sys_queued : nat;          (** idle sources waiting in the main loop *)
  sys_running : nat;         (** sources run, destroy notify outstanding *)
  (** Ghost state: flags of the newest accepted request, flags of the last scan
      that finished, callbacks invoked so far. *)
  sys_newest : Z;
  sys_served : option Z;
  sys_callbacks : list (Z * option Z);
}.
#[export] Instance eta_System : Eta System := λ x,
  Build_System (sys_mem x) (sys_worker x) (sys_owner x) (sys_owner_notify x)
    (sys_queued x) (sys_running x) (sys_newest x) (sys_served x) (sys_callbacks x).

(** The state [lsm_process_scanner_create] returns in. *)
Definition sys_initial : System :=
  {| sys_mem := Some scanner_initial; sys_worker := WTop; sys_owner := OOwns;
     sys_owner_notify := false; sys_queued := 0; sys_running := 0;
     sys_newest := LSM_PROCESS_SCAN_EXECUTABLE; sys_served := None;
     sys_callbacks := [] |}.

(** Construction: each failing resource returns [NULL]. *)
(** src: process_scanner.c lsm_process_scanner_create *)
Definition lsm_process_scanner_create
    (alloc_ok mutex_ok cond_ok backend_ok thread_ok detach_ok : bool) : option System :=
  if negb alloc_ok then None
  else if negb mutex_ok then None
  else if negb cond_ok then None
  else if negb backend_ok then None
  else if negb thread_ok then None
  else if negb detach_ok then None
  else Some sys_initial.

(** [pthread_cond_signal] wakes the worker if it sleeps. *)
Definition wake (signalled : bool) (w : WorkerPC) : WorkerPC :=
  match w with WBlocked => if signalled then WTop else WBlocked | _ => w end.

(** One atomic action of some thread.  Every rule reads [sys_mem = Some _]. *)
(** src: process_scanner.c:90-156 scanner_thread_main *)
Inductive step : System → System → Prop :=
| step_wait y s :
    sys_mem y = Some s → sys_worker y = WTop → worker_begin s = Wait →
    step y (y <| sys_worker := WBlocked |>)
| step_stop y s :
    sys_mem y = Some s → sys_worker y = WTop → worker_begin s = Stop →
    step y (y <| sys_worker := WExit |>)
| step_scan y s flags s' :
    sys_mem y = Some s → sys_worker y = WTop → worker_begin s = Scan flags s' →
    step y (y <| sys_mem := Some s' |> <| sys_worker := WScanning flags |>)
| step_wake y s :        (** spurious wake-up *)
    sys_mem y = Some s → sys_worker y = WBlocked →
    step y (y <| sys_worker := WTop |>)
| step_finish y s flags processes count s' leave notify :
    sys_mem y = Some s → sys_worker y = WScanning flags →
    worker_finish s processes count = (s', leave, notify) →
    step y (y <| sys_mem := Some s' |>
              <| sys_worker := if leave then WExit else if notify then WNotify else WTop |>
              <| sys_served := Some flags |>)
| step_queue y s :
    sys_mem y = Some s → sys_worker y = WNotify →
    step y (y <| sys_worker := WTop |> <| sys_queued := S (sys_queued y) |>)
| step_exit y s :
    sys_mem y = Some s → sys_worker y = WExit →
    step y (y <| sys_mem := scanner_release s |> <| sys_worker := WDone |>)
| step_request y s flags ok s' signalled :
    sys_mem y = Some s → sys_owner y = OOwns → sys_owner_notify y = false →
    lsm_process_scanner_request s flags = (ok, s', signalled) →
    step y (y <| sys_mem := Some s' |> <| sys_worker := wake signalled (sys_worker y) |>
              <| sys_newest := if ok then flags else sys_newest y |>)
| step_set_callback y s callback data s' notify :
    sys_mem y = Some s → sys_owner y = OOwns → sys_owner_notify y = false →
    lsm_process_scanner_set_ready_callback s callback data = (s', notify) →
    step y (y <| sys_mem := Some s' |> <| sys_owner_notify := notify |>)
| step_owner_queue y s :
    sys_mem y = Some s → sys_owner_notify y = true →
    step y (y <| sys_owner_notify := false |> <| sys_queued := S (sys_queued y) |>)
| step_take y s result s' :
    sys_mem y = Some s → sys_owner y = OOwns → sys_owner_notify y = false →
    lsm_process_scanner_take s = (result, s') →
    step y (y <| sys_mem := Some s' |>)
| step_dispatch y s queued s' call :
    sys_mem y = Some s → sys_queued y = S queued → sys_owner_notify y = false →
    scanner_ready_dispatch s = (s', call) →
    step y (y <| sys_mem := Some s' |> <| sys_queued := queued |>
              <| sys_running := S (sys_running y) |>
              <| sys_callbacks := sys_callbacks y ++ option_list call |>)
| step_dispatch_destroy y s running :
    sys_mem y = Some s → sys_running y = S running →
    step y (y <| sys_mem := scanner_release s |> <| sys_running := running |>)
| step_destroy y s :
    sys_mem y = Some s → sys_owner y = OOwns → sys_owner_notify y = false →
    step y (y <| sys_mem := Some (destroy_locked s) |> <| sys_owner := OReleasing |>
              <| sys_worker := wake true (sys_worker y) |>)
| step_owner_release y s :
    sys_mem y = Some s → sys_owner y = OReleasing →
    step y (y <| sys_mem := scanner_release s |> <| sys_owner := OGone |>).

Inductive reachable : System → Prop :=
| reach_initial : reachable sys_initial
| reach_step y z : reachable y → step y z → reachable z.

(** ** Invariant *)

Definition holds (b : bool) : nat := if b then 1 else 0.

(** The references the program's threads still owe a release. *)
Definition worker_refs (w : WorkerPC) : nat :=
  match w with WDone => 0 | WNotify => 2 | _ => 1 end.
Definition worker_notify (w : WorkerPC) : nat :=
  match w with WNotify => 1 | _ => 0 end.
Definition owner_refs (o : OwnerPC) : nat :=
  match o with OGone => 0 | _ => 1 end.
Definition owed (y : System) : nat :=
  worker_refs (sys_worker y) + owner_refs (sys_owner y) + holds (sys_owner_notify y)
  + sys_queued y + sys_running y.

(** The newest accepted request is pending, being scanned, or already served. *)
Definition newest_tracked (y : System) (s : LsmProcessScanner) : Prop :=
  (sc_request_pending s = true ∧ sc_requested_flags s = sys_newest y) ∨
  (sc_request_pending s = false ∧ sys_worker y = WScanning (sys_newest y)) ∨
  (sc_request_pending s = false ∧ sc_scan_in_progress s = false
   ∧ sys_served y = Some (sys_newest y)).

Record live_inv (y : System) (s : LsmProcessScanner) : Prop := {
  li_refs : sc_references s = owed y;
  li_dispatch : holds (sc_ready_dispatch_pending s)
                = (sys_queued y + worker_notify (sys_worker y) + holds (sys_owner_notify y))%nat;
  li_scanning : match sys_worker y with
                | WScanning flags => sc_scan_in_progress s = true ∧ sc_active_flags s = flags
                | _ => sc_scan_in_progress s = false
                end;
  li_blocked : sys_worker y = WBlocked →
               sc_request_pending s = false ∧ sc_stop_requested s = false;
  li_exit : sys_worker y = WExit ∨ sys_worker y = WDone → sc_stop_requested s = true;
  li_ready : sc_result_ready s = true ↔ is_Some (sc_completed s);
  li_stop : sc_stop_requested s = true ↔ sys_owner y ≠ OOwns;
  li_stopped : sc_stop_requested s = true →
               sc_ready_callback s = None ∧ sc_request_pending s = false;
  li_newest : sc_stop_requested s = false → newest_tracked y s;
}.

Definition inv_system (y : System) : Prop :=
  match sys_mem y with
  | Some s => live_inv y s ∧ (0 < owed y)%nat
  | None => owed y = 0%nat
  end.

(** ** The invariant is preserved *)

(** Dropping a reference that is owed. *)
Lemma release_inv y s z :
  live_inv y s →
  sys_mem z = scanner_release s → S (owed z) = owed y →
  ((0 < owed z)%nat → live_inv z (s <| sc_references := pred (sc_references s) |>)) →
  inv_system z.
Proof.
  intros Hlive Hz Howed Hrest. unfold inv_system. rewrite Hz.
  unfold scanner_release. pose proof (li_refs y s Hlive).
  destruct (Nat.eqb_spec (sc_references s) 1) as [E|E]; [lia|].
  split; [apply Hrest|]; lia.
Qed.

Ltac ops_cases :=
  repeat (simplify_eq/=;
    match goal with
    | H : context [match ?x with _ => _ end] |- _ =>
        lazymatch type of H with _ = _ => idtac | _ = _ → _ => idtac end;
        lazymatch x with
        | context [match _ with _ => _ end] => fail
        | _ => let E := fresh "E" in destruct x eqn:E
        end
    end).

Ltac rewrite_pcs :=
  repeat match goal with
  | H : sys_worker ?y = _ |- _ => progress rewrite ?H in *
  | H : sys_owner ?y = _ |- _ => progress rewrite ?H in *
  | H : sys_owner_notify ?y = _ |- _ => progress rewrite ?H in *
  end.

Lemma step_preserves_inv y z : inv_system y → step y z → inv_system z.
Proof.
  intros Hinv Hstep. destruct y as [mem worker owner notify queued running newest served calls].
  unfold inv_system in Hinv.
  inversion Hstep; simpl in *; subst; simpl in *; destruct Hinv as [Hlive Hpos];
   pose proof Hlive as [Hr Hd Hsc Hb He Hrd Hst Hsd Hn]; unfold owed, newest_tracked in *; simpl in *.
  all: try (eapply release_inv; [exact Hlive|reflexivity|unfold owed; simpl; lia|]; intros ?; unfold owed in *; simpl in *).
  all: unfold worker_begin, worker_finish, lsm_process_scanner_request,
    lsm_process_scanner_set_ready_callback, lsm_process_scanner_take,
    scanner_ready_dispatch, destroy_locked, scanner_retain in *.
  all: ops_cases; simplify_eq/=.
  all: try (split; [|unfold owed in *; simpl in *; lia]).
  all: split; unfold newest_tracked, owed in *; simpl in *.
  all: rewrite ?andb_true_r in *; bool_hyps; subst.
  all: try solve [assumption | lia].
  all: try solve [intuition congruence].
  all: try solve [split; [done|intros [? ?]; done] | split; eauto].
  all: repeat match goal with
    | E : sc_ready_dispatch_pending _ = _ |- _ => rewrite E in *; clear E
    end; simpl in *.
  all: try lia.
  all: try destruct worker; simpl in *; try solve [intuition (congruence || lia)].
  all: destruct (sc_ready_dispatch_pending s); simpl in *; lia.
Qed.

Lemma reachable_inv y : reachable y → inv_system y.
Proof.
  induction 1 as [|y z _ IH Hstep]; [|by eapply step_preserves_inv].
  split; [|unfold owed; simpl; lia].
  split; simpl; try done.
  - by intros [?|?].
  - intros _. by left.
Qed.

Lemma reachable_live y s : reachable y → sys_mem y = Some s → live_inv y s.
Proof. intros Hy Hs. apply reachable_inv in Hy. unfold inv_system in Hy. rewrite Hs in Hy. tauto. Qed.

(** ** Ownership *)

(** (C5) Memory safety of the reference-counted worker, under every
    interleaving of the worker, the owner and the main loop: the record is freed
    exactly when nobody owes it a release any more, its counter is always the
    number of releases owed, so no thread that still has something to do
    (running worker, undestroyed owner, queued or running idle source) can find
    it freed. *)
Theorem scanner_freed_exactly_when_unowned y :
  reachable y →
  (sys_mem y = None ↔ owed y = 0%nat) ∧
  (∀ s, sys_mem y = Some s → sc_references s = owed y) ∧
  (sys_worker y ≠ WDone ∨ sys_owner y ≠ OGone ∨ (0 < sys_queued y + sys_running y)%nat →
   is_Some (sys_mem y)).
Proof.
  intros Hy. pose proof (reachable_inv y Hy) as Hinv. unfold inv_system in Hinv.
  destruct (sys_mem y) as [s|] eqn:Hs.
  - destruct Hinv as [Hlive Hpos]. split_and!; [split; [done|lia]|..]; [|eauto].
    intros s' [= <-]. apply (li_refs y s Hlive).
  - split_and!; [done|done|]. unfold owed in Hinv.
    destruct (sys_worker y), (sys_owner y); simpl in Hinv; try lia; intros [?|[?|?]]; try done; lia.
Qed.

(** At most one main-loop notification exists at any time, however
    many scans complete, and the pending mark says exactly whether one does. *)
Theorem scanner_dispatch_coalesced y s :
  reachable y → sys_mem y = Some s →
  (sys_queued y + worker_notify (sys_worker y) + holds (sys_owner_notify y))%nat
    = holds (sc_ready_dispatch_pending s) ∧
  (sys_queued y ≤ 1)%nat.
Proof.
  intros Hy Hs. pose proof (li_dispatch y s (reachable_live y s Hy Hs)) as E.
  destruct (sc_ready_dispatch_pending s); simpl in *; lia.
Qed.

(** No lost wake-up: while the worker sleeps on the condition variable
    there is neither a request to serve nor a stop to obey. *)
Theorem scanner_no_lost_wakeup y s :
  reachable y → sys_mem y = Some s → sys_worker y = WBlocked →
  sc_request_pending s = false ∧ sc_stop_requested s = false.
Proof. intros Hy Hs. apply (li_blocked y s (reachable_live y s Hy Hs)). Qed.

(** Once the owner has called destroy no further callback is invoked,
    although queued idle sources may still run. *)
Theorem scanner_silent_after_destroy y z :
  reachable y → sys_owner y ≠ OOwns → step y z → sys_callbacks z = sys_callbacks y.
Proof.
  intros Hy Howner Hstep.
  destruct Hstep as [| | | | | | | | | | |y s queued s' call Hs Hq Hn Hd| | |]; simpl; try done.
  pose proof (reachable_live y s Hy Hs) as Hlive.
  apply (li_stop y s Hlive) in Howner.
  unfold scanner_ready_dispatch in Hd. rewrite Howner in Hd.
  injection Hd as <- <-. apply app_nil_r.
Qed.

(** ** Progress *)

(** A move of the worker thread by itself.  A worker asleep in [pthread_cond_wait]
    has none: only a signal gets it out, and the spurious wake-ups the rules allow
    are not counted on. *)
Definition worker_move (y z : System) : Prop :=
  step y z ∧ sys_worker y ≠ WBlocked ∧ sys_worker z ≠ sys_worker y.

(** How many moves the worker is from sleep at most. *)
Definition moves_left (y : System) : nat :=
  (let top := match sys_mem y with Some s => if sc_request_pending s then 4 else 1 | None => 0 end in
  match sys_worker y with
  | WBlocked => 0
  | WTop => top
  | WNotify => 1 + top
  | WScanning _ => 2 + top
  | WExit | WDone => 0
  end)%nat.

Definition scanner_running (y : System) : Prop :=
  ∃ s, sys_mem y = Some s ∧ sc_stop_requested s = false.

(** A move of a running worker brings it nearer to sleep and accepts nothing. *)
Lemma worker_move_decreases y z :
  inv_system y → scanner_running y → worker_move y z →
  scanner_running z ∧ sys_newest z = sys_newest y ∧ (moves_left z < moves_left y)%nat.
Proof.
  intros Hinv (s & Hs & Hstop) (Hstep & Hawake & Hmoved). unfold inv_system in Hinv. rewrite Hs in Hinv.
  destruct Hinv as [[_ _ _ _ He _ _ _ _] _].
  destruct y as [mem worker owner notify queued running newest served calls]; simpl in *; subst.
  inversion Hstep; simpl in *; subst; simplify_eq/=; try done.
  all: try solve [destruct worker; simpl in *; try done; by destruct signalled].
  all: try solve [rewrite He in Hstop by auto; done].
  all: unfold worker_begin, worker_finish, moves_left, scanner_running in *; simpl in *.
  all: ops_cases; simplify_eq/=; split_and!; eauto; bool_hyps.
  all: repeat match goal with E : sc_request_pending _ = _ |- _ => rewrite E; clear E end.
  all: repeat case_match; simpl in *; lia.
Qed.

(** The worker that is neither asleep nor past its loop can move. *)
Lemma worker_can_move y :
  inv_system y → scanner_running y → sys_worker y ≠ WBlocked → ∃ z, worker_move y z.
Proof.
  intros Hinv (s & Hs & Hstop) Hawake. unfold inv_system in Hinv. rewrite Hs in Hinv.
  destruct Hinv as [[_ _ _ _ He _ _ _ _] _].
  destruct (sys_worker y) as [| |flags| | |] eqn:Hw; [|done|..].
  - destruct (sc_request_pending s) eqn:Hp.
    + eexists. split; [eapply (step_scan y s)|]; [done..|unfold worker_begin; by rewrite Hp, Hstop|].
      by rewrite Hw.
    + eexists. split; [eapply (step_wait y s)|]; [done..|unfold worker_begin; by rewrite Hp, Hstop|].
      by rewrite Hw.
  - destruct (worker_finish s None 0) as [[s' leave] notify] eqn:E.
    eexists. split; [by eapply (step_finish y s flags None 0)|]. unfold worker_finish in E. simpl in E.
    rewrite Hstop in E. injection E as <- <- <-. by rewrite Hw.
  - eexists. split; [by eapply (step_queue y s)|]. by rewrite Hw.
  - rewrite He in Hstop by auto. done.
  - rewrite He in Hstop by auto. done.
Qed.

Lemma worker_moves n y z :
  nsteps worker_move n y z → inv_system y → scanner_running y →
  inv_system z ∧ scanner_running z ∧ sys_newest z = sys_newest y ∧ (n + moves_left z ≤ moves_left y)%nat.
Proof.
  induction 1 as [y|n y y' z Hmove _ IH]; intros Hinv Hrun; [done|].
  destruct (worker_move_decreases y y' Hinv Hrun Hmove) as (Hrun' & Hn & Hlt).
  destruct IH as (Hz & Hrunz & Hnz & Hle); [by eapply step_preserves_inv, Hmove|done|].
  split_and!; [done..|congruence|lia].
Qed.

(** With nothing pending and no scan under way everything accepted was scanned. *)
Lemma idle_served y s :
  live_inv y s → sc_stop_requested s = false → sc_request_pending s = false →
  sc_scan_in_progress s = false → sys_served y = Some (sys_newest y).
Proof.
  intros Hlive Hstop Hp Hsc.
  destruct (li_newest y s Hlive Hstop) as [[? _]|[[_ Hw]|(_ & _ & ?)]]; [congruence| |done].
  pose proof (li_scanning y s Hlive) as Hflags. rewrite Hw in Hflags. destruct Hflags. congruence.
Qed.

Lemma asleep_served y s :
  live_inv y s → sc_stop_requested s = false → sys_worker y = WBlocked → sys_served y = Some (sys_newest y).
Proof.
  intros Hlive Hstop Hw. destruct (li_blocked y s Hlive Hw) as [Hp _].
  apply (idle_served y s Hlive Hstop Hp). pose proof (li_scanning y s Hlive) as Hsc. by rewrite Hw in Hsc.
Qed.

(** (C21) The newest demand is never lost and always served.  In every reachable
    state of a scanner that is not shut down: if no request is pending and no scan
    is under way, and in particular whenever the worker sleeps on the condition
    variable, the last finished scan used the flags of the newest accepted
    request; and however the worker's own moves go - none of them a spurious
    wake-up - it can always move on until, after at most six of them, it sleeps
    having served that request. *)
Theorem scanner_newest_request_served y s :
  reachable y → sys_mem y = Some s → sc_stop_requested s = false →
  (sc_request_pending s = false → sc_scan_in_progress s = false → sys_served y = Some (sys_newest y))
  ∧ (sys_worker y = WBlocked → sys_served y = Some (sys_newest y))
  ∧ ∀ n z, nsteps worker_move n y z →
      (n ≤ 6)%nat ∧ sys_newest z = sys_newest y
      ∧ ((∃ z', worker_move z z') ∨ (sys_worker z = WBlocked ∧ sys_served z = Some (sys_newest y))).
Proof.
  intros Hy Hs Hstop. pose proof (reachable_live y s Hy Hs) as Hlive.
  split_and!; [by apply idle_served|by eapply asleep_served|].
  intros n z Hmoves.
  destruct (worker_moves n y z Hmoves) as (Hz & Hrun & Hn & Hle); [by apply reachable_inv|by exists s|].
  split_and!; [|done|].
  - enough (moves_left y ≤ 6)%nat by lia. unfold moves_left. rewrite Hs. repeat case_match; lia.
  - destruct (decide (sys_worker z = WBlocked)) as [Hw|Hw]; [right|left; by apply worker_can_move].
    split; [done|]. destruct Hrun as (s' & Hs' & Hstop'). unfold inv_system in Hz. rewrite Hs' in Hz.
    rewrite <-Hn. by eapply asleep_served; [apply Hz| |].
Qed.

(** ** Snapshot transfer *)

(** A completed scan replaces the retained snapshot and is handed
    over exactly once; a failed scan leaves the retained snapshot authoritative
    and still available. *)
Theorem scanner_take_transfers_once s processes count s' leave notify :
  sc_stop_requested s = false →
  worker_finish s processes count = (s', leave, notify) →
  match processes with
  | Some rows =>
      ∃ s'', lsm_process_scanner_take s' = (Some (Some rows, count), s'')
             ∧ (lsm_process_scanner_take s'').1 = None
  | None => (lsm_process_scanner_take s').1 = (lsm_process_scanner_take s).1
  end.
Proof.
  intros Hstop Hf. unfold worker_finish in Hf. simpl in Hf. rewrite Hstop in Hf.
  destruct processes as [rows|].
  - repeat (case_hyp Hf); injection Hf as <- <- <-; eexists; split; reflexivity.
  - injection Hf as <- <- <-. unfold lsm_process_scanner_take. simpl.
    by destruct (sc_result_ready s).
Qed.

(** ** Witnesses *)

Definition sys_requested : System :=
  sys_initial <| sys_mem := Some (scanner_initial <| sc_requested_flags := 5 |>) |>
              <| sys_newest := 5 |>.

Lemma sys_requested_reachable : reachable sys_requested.
Proof.
  eapply reach_step; [apply reach_initial|].
  by apply (step_request sys_initial scanner_initial 5 true
    (scanner_initial <| sc_requested_flags := 5 |>) false).
Qed.

Definition sys_destroying : System :=
  sys_initial <| sys_mem := Some (destroy_locked scanner_initial) |>
              <| sys_owner := OReleasing |>.

Lemma sys_destroying_reachable : reachable sys_destroying.
Proof.
  eapply reach_step; [apply reach_initial|].
  by apply (step_destroy sys_initial scanner_initial).
Qed.

Lemma scanner_freed_exactly_when_unowned_witness :
  owed sys_requested = 2%nat ∧
  (∀ s, sys_mem sys_requested = Some s → sc_references s = owed sys_requested).
Proof.
  split; [reflexivity|].
  exact (proj1 (proj2 (scanner_freed_exactly_when_unowned _ sys_requested_reachable))).
Defined.

Lemma scanner_dispatch_coalesced_witness : (sys_queued sys_requested ≤ 1)%nat.
Proof.
  exact (proj2 (scanner_dispatch_coalesced _ _ sys_requested_reachable eq_refl)).
Defined.

Lemma scanner_silent_after_destroy_witness :
  sys_callbacks (sys_destroying <| sys_worker := WExit |>) = [].
Proof.
  exact (scanner_silent_after_destroy sys_destroying _ sys_destroying_reachable
    ltac:(discriminate) (step_stop sys_destroying _ eq_refl eq_refl eq_refl)).
Defined.

(** The worker after serving its first request. *)
Definition scanner_idle : LsmProcessScanner :=
  scanner_initial <| sc_active_flags := 1 |> <| sc_request_pending := false |>
    <| sc_scan_in_progress := false |>.
Definition sys_idle : System :=
  sys_initial <| sys_mem := Some scanner_idle |> <| sys_served := Some 1 |>.

Lemma sys_sleeping_reachable : reachable (sys_idle <| sys_worker := WBlocked |>).
Proof.
  eapply (reach_step sys_idle); [|by apply (step_wait sys_idle scanner_idle)].
  set (s1 := scanner_initial <| sc_active_flags := 1 |> <| sc_request_pending := false |>
               <| sc_scan_in_progress := true |>).
  set (y1 := sys_initial <| sys_mem := Some s1 |> <| sys_worker := WScanning 1 |>).
  eapply (reach_step y1).
  - eapply reach_step; [apply reach_initial|].
    by apply (step_scan sys_initial scanner_initial 1 s1).
  - by apply (step_finish y1 s1 1 None 0 scanner_idle false false).
Qed.

(** Asleep after the first request, then asked for scan 5: the signal has put the
    worker back at the top. *)
Definition sys_awoken : System :=
  sys_idle <| sys_mem := Some (scanner_idle <| sc_requested_flags := 5 |> <| sc_request_pending := true |>) |>
           <| sys_newest := 5 |>.

Lemma sys_awoken_reachable : reachable sys_awoken.
Proof.
  eapply reach_step; [apply sys_sleeping_reachable|].
  exact (step_request (sys_idle <| sys_worker := WBlocked |>) scanner_idle 5 true
    (scanner_idle <| sc_requested_flags := 5 |> <| sc_request_pending := true |>) true
    eq_refl eq_refl eq_refl eq_refl).
Qed.

Lemma scanner_newest_request_served_witness :
  sys_served sys_awoken = Some 1 ∧ sys_newest sys_awoken = 5 ∧
  ∀ n z, nsteps worker_move n sys_awoken z →
    (n ≤ 6)%nat ∧ sys_newest z = 5
    ∧ ((∃ z', worker_move z z') ∨ (sys_worker z = WBlocked ∧ sys_served z = Some 5)).
Proof.
  do 2 (split; [reflexivity|]).
  exact (proj2 (proj2 (scanner_newest_request_served _ _ sys_awoken_reachable eq_refl eq_refl))).
Defined.

Lemma scanner_no_lost_wakeup_witness : sc_request_pending scanner_idle = false.
Proof.
  exact (proj1 (scanner_no_lost_wakeup _ _ sys_sleeping_reachable eq_refl eq_refl)).
Defined.

Lemma scanner_take_transfers_once_witness :
  ∃ s'', lsm_process_scanner_take
    (worker_finish scanner_initial (Some [process_zero]) 1).1.1
    = (Some (Some [process_zero], 1), s'') ∧ (lsm_process_scanner_take s'').1 = None.
Proof.
  exact (scanner_take_transfers_once scanner_initial (Some [process_zero]) 1 _ _ _
    eq_refl eq_refl).
Defined.
