(* ===== verification/RecorderCsv.v ===== *)
(** * RecorderCsv: the recorder's on-disk CSV schema

    Models the schema half of [src/src/process_recorder.c]: the header check,
    the timestamp and metric validation used when a recording is imported, and
    the line [write_record] prints.  A [(start, end)] pointer pair into a line is
    the field's text. *)
From S2P Require Import Prelude Double CStrings Common ProcessModel.
Local Open Scope Z_scope.

(** src: process_recorder.c:26-36 RecordNode *)
Record RecordNode := {
  rn_timestamp : Z;
  rn_pid : Z;
  rn_cpu_percent : double;
  rn_memory_percent : double;
  rn_rss_bytes : Z;
  rn_read_bytes : Z;
  rn_write_bytes : Z;
  rn_threads : Z;
}.

(** src: process_recorder.c:40-42 recorder_csv_header *)
Definition recorder_csv_header : string :=
  "timestamp,pid,cpu_percent,memory_percent,rss_bytes," +:+
  "read_bytes,write_bytes,threads".

Definition newline : string := String nl EmptyString.
Definition carriage_newline : string := String "013"%char newline.

(** [strncmp(line, prefix, strlen(prefix)) == 0], with the rest of the line. *)
Fixpoint strip_prefix (prefix line : string) : option string :=
  match prefix, line with
  | EmptyString, _ => Some line
  | String c p, String d l => if Ascii.eqb c d then strip_prefix p l else None
  | String _ _, EmptyString => None
  end.

(** src: process_recorder.c lsm_process_recorder_header_matches *)
Definition lsm_process_recorder_header_matches (line : option string) : bool :=
  match line with
  | None => false
  | Some line =>
      match strip_prefix recorder_csv_header line with
      | None => false
      | Some rest => strcmp_eq rest newline || strcmp_eq rest carriage_newline
      end
  end.

(** src: process_recorder.c recorder_field *)
Definition recorder_field (field : string) (capacity : nat) : option string :=
  if negb (nonempty field) then None
  else if (capacity <=? String.length field)%nat then None
  else Some field.

Definition char_code (c : ascii) : Z := Z.of_nat (Ascii.nat_of_ascii c).

(** src: process_recorder.c recorder_pair *)
Definition recorder_pair (text : string) (digits : nat) : option Z :=
  let a := char_code (char_at text digits) in
  let b := char_code (char_at text (S digits)) in
  if (a <? 48) || (57 <? a) || (b <? 48) || (57 <? b) then None
  else Some ((a - 48) * 10 + (b - 48)).

Definition month_days : list Z := [31; 28; 31; 30; 31; 30; 31; 31; 30; 31; 30; 31].

(** src: process_recorder.c recorder_timestamp_valid *)
Definition recorder_timestamp_valid (text : string) : bool :=
  let length := String.length text in
  if (negb (length =? 24)%nat && negb (length =? 26)%nat)
     || negb (char_is text 4 "-") || negb (char_is text 7 "-")
     || negb (char_is text 10 "T") || negb (char_is text 13 ":")
     || negb (char_is text 16 ":")
     || (negb (char_is text 19 "+") && negb (char_is text 19 "-"))
  then false
  else
    match recorder_pair text 0, recorder_pair text 2, recorder_pair text 5,
          recorder_pair text 8, recorder_pair text 11, recorder_pair text 14,
          recorder_pair text 17, recorder_pair text 20, recorder_pair text 22,
          (if (length =? 26)%nat then recorder_pair text 24 else Some 0) with
    | Some century, Some year_tail, Some month, Some day, Some hour, Some minute,
      Some second, Some zone_hour, Some zone_minute, Some zone_second =>
        let year := century * 100 + year_tail in
        if (year =? 0) || (month =? 0) || (12 <? month)
           || (23 <? hour) || (59 <? minute) || (59 <? second)
           || (23 <? zone_hour) || (59 <? zone_minute) || (59 <? zone_second)
        then false
        else
          let leap := (year mod 4 =? 0)
                      && (negb (year mod 100 =? 0) || (year mod 400 =? 0)) in
          let maximum := default 0 (month_days !! Z.to_nat (month - 1))
                         + (if (month =? 2) && leap then 1 else 0) in
          (0 <? day) && (day <=? maximum)
    | _, _, _, _, _, _, _, _, _, _ => false
    end.

(** The text of a physical line without its end of line, if it has one. *)
(** src: process_recorder.c:141-145 lsm_process_recorder_parse_metrics *)
Definition line_body (line : string) : option string :=
  let length := String.length line in
  if (length <? 2)%nat then None
  else if negb (char_is line (length - 1) nl) then None
  else
    let body := String.substring 0 (length - 1) line in
    if char_is body (length - 2) "013" then Some (String.substring 0 (length - 2) body)
    else Some body.

(** [n] comma-terminated fields and what follows them. *)
(** src: process_recorder.c:147-156 lsm_process_recorder_parse_metrics *)
Fixpoint take_fields (n : nat) (cursor : string) : option (list string * string) :=
  match n with
  | O => Some ([], cursor)
  | S n =>
      match split_at "," cursor with
      | None => None
      | Some (field, rest) =>
          match take_fields n rest with
          | Some (fields, last) => Some (field :: fields, last)
          | None => None
          end
      end
  end.

Section parse.
Context `{NumberOps}.

(** One integral column; the scratch value is threaded as the C code reuses it. *)
(** src: process_recorder.c:163-175 lsm_process_recorder_parse_metrics *)
Definition integral_column (fields : list string) (value : option Z) (column : nat) : option Z :=
  match value, fields !! column with
  | Some value, Some field =>
      match recorder_field field 64 with
      | None => None
      | Some value_text =>
          let '(ok, integer_value) := infiltratr_parse_u64 value_text 10 value in
          if negb ok then None
          else if (column =? 1)%nat && (integer_value =? 0) then None
          else if (column =? 7)%nat && (uint_max <? integer_value) then None
          else Some integer_value
      end
  | _, _ => None
  end.

(** One floating-point column within bounds. *)
Definition double_column (fields : list string) (column : nat) (minimum maximum : double)
    : option double :=
  match fields !! column with
  | None => None
  | Some field =>
      match recorder_field field 64 with
      | None => None
      | Some value_text =>
          let '(ok, value) := infiltratr_parse_double_range value_text minimum maximum d0 in
          if ok then Some value else None
      end
  end.

(** The result is [Some (cpu, memory)] when the C function commits both outputs
    and returns true. *)
(** src: process_recorder.c lsm_process_recorder_parse_metrics *)
Definition lsm_process_recorder_parse_metrics (line : option string)
    : option (double * double) :=
  match line with
  | None => None
  | Some line =>
      match line_body line with
      | None => None
      | Some body =>
          match take_fields 7 body with
          | None => None
          | Some (fields7, last) =>
              let fields := fields7 ++ [last] in
              if match split_at "," last with Some _ => true | None => false end then None
              else if negb (recorder_timestamp_valid (default EmptyString (fields !! 0%nat)))
              then None
              else match foldl (integral_column fields) (Some 0) [1; 4; 5; 6; 7]%nat with
                   | None => None
                   | Some _ =>
                       match double_column fields 2 d0 DBL_MAX,
                             double_column fields 3 d0 d100 with
                       | Some cpu, Some memory => Some (cpu, memory)
                       | _, _ => None
                       end
                   end
          end
      end
  end.

(** The line [write_record] prints for a node whose local time is [timestamp];
    [None] is the [ERANGE] path. *)
(** src: process_recorder.c write_record *)
Definition record_line (timestamp : string) (node : RecordNode) : option string :=
  match infiltratr_format_fixed_ascii (rn_cpu_percent node) 3 64,
        infiltratr_format_fixed_ascii (rn_memory_percent node) 3 64 with
  | Some cpu_percent, Some memory_percent =>
      Some (join "," [timestamp; print_u64 (rn_pid node); cpu_percent; memory_percent;
                      print_u64 (rn_rss_bytes node); print_u64 (rn_read_bytes node);
                      print_u64 (rn_write_bytes node); print_u64 (rn_threads node)]
            +:+ newline)
  | _, _ => None
  end.
End parse.
(** ** The accepted timestamps *)

Record civil := Civil {
  cv_year : Z; cv_month : Z; cv_day : Z; cv_hour : Z; cv_minute : Z; cv_second : Z;
  cv_west : bool; cv_zone_hour : Z; cv_zone_minute : Z; cv_zone_second : option Z;
}.

Definition leap_year (year : Z) : bool :=
  (year mod 4 =? 0) && (negb (year mod 100 =? 0) || (year mod 400 =? 0)).

Definition days_in_month (year month : Z) : Z :=
  default 0 (month_days !! Z.to_nat (month - 1))
  + (if (month =? 2) && leap_year year then 1 else 0).

Definition civil_valid (c : civil) : Prop :=
  1 <= cv_year c <= 9999 ∧ 1 <= cv_month c <= 12
  ∧ 1 <= cv_day c <= days_in_month (cv_year c) (cv_month c)
  ∧ 0 <= cv_hour c <= 23 ∧ 0 <= cv_minute c <= 59 ∧ 0 <= cv_second c <= 59
  ∧ 0 <= cv_zone_hour c <= 23 ∧ 0 <= cv_zone_minute c <= 59
  ∧ (∀ s, cv_zone_second c = Some s → 0 <= s <= 59).

Definition pad2 (n : Z) : string :=
  String (digit_char (n / 10)) (String (digit_char (n mod 10)) EmptyString).

Definition print_civil (c : civil) : string :=
  pad2 (cv_year c / 100) +:+ pad2 (cv_year c mod 100) +:+ "-" +:+ pad2 (cv_month c)
  +:+ "-" +:+ pad2 (cv_day c) +:+ "T" +:+ pad2 (cv_hour c) +:+ ":" +:+ pad2 (cv_minute c)
  +:+ ":" +:+ pad2 (cv_second c) +:+ (if cv_west c then "-" else "+")
  +:+ pad2 (cv_zone_hour c) +:+ pad2 (cv_zone_minute c)
  +:+ match cv_zone_second c with Some s => pad2 s | None => EmptyString end.

Lemma digit_char_code d : 0 <= d < 10 → char_code (digit_char d) = 48 + d.
Proof. intros H. pose proof (digit_char_value d H). unfold char_code. lia. Qed.

Lemma char_code_digit c d : char_code c = 48 + d → digit_char d = c.
Proof.
  unfold char_code, digit_char. intros <-. rewrite Nat2Z.id.
  apply Ascii.ascii_nat_embedding.
Qed.

Lemma recorder_pair_some text i n :
  recorder_pair text i = Some n ↔
  char_at text i = digit_char (n / 10) ∧ char_at text (S i) = digit_char (n mod 10)
  ∧ 0 <= n < 100.
Proof.
  unfold recorder_pair. split.
  - case_goal; [done|]. bool_hyps. intros [= <-].
    assert ((char_code (char_at text i) - 48) * 10 + (char_code (char_at text (S i)) - 48)
            = (char_code (char_at text (S i)) - 48) + (char_code (char_at text i) - 48) * 10)
      as -> by lia.
    rewrite Z.div_add, Z.mod_add, Z.div_small, Z.mod_small by lia.
    split_and!; [| |lia|lia]; symmetry; apply char_code_digit; lia.
  - intros (-> & -> & Hn).
    pose proof (Z.mod_pos_bound n 10 ltac:(lia)). pose proof (Z.div_mod n 10 ltac:(lia)).
    rewrite !digit_char_code by lia. 
    case_goal; [exfalso; lia|]. f_equal. lia.
Qed.

Lemma pair_cases text i :
  match recorder_pair text i with
  | Some n => char_at text i = digit_char (n / 10) ∧ char_at text (S i) = digit_char (n mod 10)
              ∧ 0 <= n < 100
  | None => True
  end.
Proof. destruct (recorder_pair text i) eqn:E; [|done]. by apply recorder_pair_some. Qed.


Lemma string_length_eq n s :
  String.length s = S n → ∃ c s', s = String c s' ∧ String.length s' = n.
Proof. destruct s; simpl; [done|]. intros [= <-]. eauto. Qed.

Lemma string_length_0 s : String.length s = 0%nat → s = EmptyString.
Proof. by destruct s. Qed.

(** Name the characters of a string of known length. *)
Ltac explode_string s H :=
  repeat (let c := fresh "c" in let s' := fresh "s" in let H' := fresh "Hlen" in
          apply string_length_eq in H as (c & s' & -> & H'); rename H' into H);
  apply string_length_0 in H; subst.

Lemma year_split y : y = y / 100 * 100 + y mod 100.
Proof. pose proof (Z.div_mod y 100). lia. Qed.

Lemma days_in_month_bound y m : days_in_month y m < 100.
Proof.
  unfold days_in_month.
  assert (default 0 (month_days !! Z.to_nat (m - 1)) <= 31).
  { destruct (month_days !! _) as [n|] eqn:E; [|simpl; lia]. simpl.
    assert (Forall (λ n, n <= 31) month_days) as Hall by (repeat constructor; lia).
    by apply (Forall_lookup_1 _ _ _ _ Hall E). }
  destruct (_ && _); lia.
Qed.

Lemma print_civil_pairs c :
  civil_valid c →
  recorder_pair (print_civil c) 0 = Some (cv_year c / 100)
  ∧ recorder_pair (print_civil c) 2 = Some (cv_year c mod 100)
  ∧ recorder_pair (print_civil c) 5 = Some (cv_month c)
  ∧ recorder_pair (print_civil c) 8 = Some (cv_day c)
  ∧ recorder_pair (print_civil c) 11 = Some (cv_hour c)
  ∧ recorder_pair (print_civil c) 14 = Some (cv_minute c)
  ∧ recorder_pair (print_civil c) 17 = Some (cv_second c)
  ∧ recorder_pair (print_civil c) 20 = Some (cv_zone_hour c)
  ∧ recorder_pair (print_civil c) 22 = Some (cv_zone_minute c)
  ∧ (∀ s, cv_zone_second c = Some s → recorder_pair (print_civil c) 24 = Some s).
Proof.
  intros (?&?&?&?&?&?&?&?&Hz).
  pose proof (days_in_month_bound (cv_year c) (cv_month c)).
  assert (0 <= cv_year c / 100 < 100).
  { split; [apply Z.div_pos; lia|apply Z.div_lt_upper_bound; lia]. }
  pose proof (Z.mod_pos_bound (cv_year c) 100 ltac:(lia)).
  unfold print_civil.
  split_and!;
    try (apply recorder_pair_some; split_and!;
         [by destruct (cv_west c)|by destruct (cv_west c)|lia|lia]).
  intros s Es. specialize (Hz _ Es). apply recorder_pair_some.
  rewrite Es.
  split_and!; [by destruct (cv_west c)|by destruct (cv_west c)|lia|lia].
Qed.


(** The validator, read as conditions on the ten numbers it extracts. *)
Lemma fields_valid_iff c :
  civil_valid c ↔
  (((cv_year c =? 0) || (cv_month c =? 0) || (12 <? cv_month c)
    || (23 <? cv_hour c) || (59 <? cv_minute c) || (59 <? cv_second c)
    || (23 <? cv_zone_hour c) || (59 <? cv_zone_minute c)
    || (59 <? default 0 (cv_zone_second c))) = false
   ∧ ((0 <? cv_day c) && (cv_day c <=? days_in_month (cv_year c) (cv_month c))) = true)
  ∧ 0 <= cv_year c <= 9999 ∧ 0 <= cv_month c ∧ 0 <= cv_hour c ∧ 0 <= cv_minute c
  ∧ 0 <= cv_second c ∧ 0 <= cv_zone_hour c ∧ 0 <= cv_zone_minute c
  ∧ 0 <= default 0 (cv_zone_second c).
Proof.
  unfold civil_valid. destruct (cv_zone_second c) as [z|]; simpl; split.
  - intros (?&?&?&?&?&?&?&?&Hz). specialize (Hz _ eq_refl). lia.
  - intros H. split_and!; try lia. intros ? [= <-]. lia.
  - intros (?&?&?&?&?&?&?&?&Hz). lia.
  - intros H. split_and!; try lia. done.
Qed.

Lemma print_civil_accepted c : civil_valid c → recorder_timestamp_valid (print_civil c) = true.
Proof.
  intros Hc. destruct (print_civil_pairs c Hc) as (P0&P2&P5&P8&P11&P14&P17&P20&P22&P24).
  unfold recorder_timestamp_valid. rewrite P0, P2, P5, P8, P11, P14, P17, P20, P22.
  apply fields_valid_iff in Hc as [[Hbad Hday] _].
  match goal with |- (if ?b then _ else _) = true => assert (b = false) as -> end.
  { by destruct c as [??????[] ?? []]. }
  assert ((if (String.length (print_civil c) =? 26)%nat
           then recorder_pair (print_civil c) 24 else Some 0)
          = Some (default 0 (cv_zone_second c))) as ->.
  { destruct (cv_zone_second c) as [s|] eqn:Es.
    - rewrite (P24 s eq_refl). unfold print_civil. rewrite Es. by destruct (cv_west c).
    - unfold print_civil. rewrite Es. by destruct (cv_west c). }
  rewrite <-year_split, Hbad. exact Hday.
Qed.

(** A string of the right shape is determined by its pairs and separators. *)
Lemma accepted_shape s :
  ((negb (String.length s =? 24)%nat && negb (String.length s =? 26)%nat)
     || negb (char_is s 4 "-") || negb (char_is s 7 "-")
     || negb (char_is s 10 "T") || negb (char_is s 13 ":")
     || negb (char_is s 16 ":")
     || (negb (char_is s 19 "+") && negb (char_is s 19 "-"))) = false →
  (String.length s = 24 ∨ String.length s = 26)%nat
  ∧ char_at s 4 = "-"%char ∧ char_at s 7 = "-"%char ∧ char_at s 10 = "T"%char
  ∧ char_at s 13 = ":"%char ∧ char_at s 16 = ":"%char
  ∧ char_at s 19 = (if char_is s 19 "-" then "-" else "+")%char.
Proof.
  intros H. bool_hyps.
  repeat match goal with
  | H : char_is s ?n ?c = true |- _ =>
      unfold char_is in H; apply Ascii.eqb_eq in H
  end.
  split_and!; try done.
  - destruct (Nat.eqb_spec (String.length s) 24); [auto|].
    destruct (Nat.eqb_spec (String.length s) 26); [auto|done].
  - unfold char_is in *. destruct (Ascii.eqb_spec (char_at s 19) "-"); [done|].
    destruct (Ascii.eqb_spec (char_at s 19) "+"); done.
Qed.

Definition civil_pairs (c : civil) : list (nat * Z) :=
  [(0%nat, cv_year c / 100); (2%nat, cv_year c mod 100); (5%nat, cv_month c);
   (8%nat, cv_day c); (11%nat, cv_hour c); (14%nat, cv_minute c); (17%nat, cv_second c);
   (20%nat, cv_zone_hour c); (22%nat, cv_zone_minute c)].

Lemma rebuild_string c s :
  (String.length s = 24 ∧ cv_zone_second c = None
   ∨ String.length s = 26 ∧ is_Some (cv_zone_second c))%nat →
  0 <= cv_year c →
  char_at s 4 = "-"%char → char_at s 7 = "-"%char → char_at s 10 = "T"%char →
  char_at s 13 = ":"%char → char_at s 16 = ":"%char →
  char_at s 19 = (if cv_west c then "-" else "+")%char →
  (∀ i n, In (i, n) (civil_pairs c) → recorder_pair s i = Some n) →
  (∀ z, cv_zone_second c = Some z → recorder_pair s 24 = Some z) →
  s = print_civil c.
Proof.
  intros Hlen Hy H4 H7 H10 H13 H16 H19 Hpairs Hz.
  assert (∀ i n, In (i, n) (civil_pairs c) → char_at s i = digit_char (n / 10)
                               ∧ char_at s (S i) = digit_char (n mod 10)) as Hc.
  { intros i n Hin. specialize (Hpairs i n Hin). apply recorder_pair_some in Hpairs. tauto. }
  clear Hpairs. unfold civil_pairs in Hc. simpl in Hc.
  pose proof (Hc 0%nat _ ltac:(auto)). pose proof (Hc 2%nat _ ltac:(auto)).
  pose proof (Hc 5%nat _ ltac:(auto)). pose proof (Hc 8%nat _ ltac:(auto)).
  pose proof (Hc 11%nat _ ltac:(auto 10)). pose proof (Hc 14%nat _ ltac:(auto 10)).
  pose proof (Hc 17%nat _ ltac:(auto 10)). pose proof (Hc 20%nat _ ltac:(auto 10)).
  pose proof (Hc 22%nat _ ltac:(auto 12)). clear Hc.
  unfold print_civil. destruct Hlen as [[Hlen Hz0]|[Hlen [z Hz1]]].
  - rewrite Hz0. explode_string s Hlen. destruct_and!. cbv [char_at] in *. simpl in *.
    subst. by destruct (cv_west c).
  - rewrite Hz1. apply Hz, recorder_pair_some in Hz1. explode_string s Hlen.
    destruct_and!. cbv [char_at] in *. simpl in *. subst. by destruct (cv_west c).
Qed.

Lemma accepted_print_civil s :
  recorder_timestamp_valid s = true → ∃ c, civil_valid c ∧ s = print_civil c.
Proof.
  unfold recorder_timestamp_valid.
  match goal with |- (if ?b then _ else _) = true → _ => destruct b eqn:Hshape; [done|] end.
  apply accepted_shape in Hshape as (Hlen&H4&H7&H10&H13&H16&H19).
  destruct (recorder_pair s 0) as [ce|] eqn:P0; [|done].
  destruct (recorder_pair s 2) as [ye|] eqn:P2; [|done].
  destruct (recorder_pair s 5) as [mo|] eqn:P5; [|done].
  destruct (recorder_pair s 8) as [d|] eqn:P8; [|done].
  destruct (recorder_pair s 11) as [h|] eqn:P11; [|done].
  destruct (recorder_pair s 14) as [mi|] eqn:P14; [|done].
  destruct (recorder_pair s 17) as [se|] eqn:P17; [|done].
  destruct (recorder_pair s 20) as [zh|] eqn:P20; [|done].
  destruct (recorder_pair s 22) as [zm|] eqn:P22; [|done].
  set (zs := if (String.length s =? 26)%nat then recorder_pair s 24 else None).
  set (c := Civil (ce * 100 + ye) mo d h mi se (char_is s 19 "-") zh zm zs).
  assert (∀ i n, recorder_pair s i = Some n → 0 <= n < 100) as Hrange.
  { intros i n Hp. apply recorder_pair_some in Hp. tauto. }
  pose proof (Hrange _ _ P0). pose proof (Hrange _ _ P2).
  destruct (if (String.length s =? 26)%nat then recorder_pair s 24 else Some 0) as [z|] eqn:P24;
    [|done].
  case_goal; [done|]. intros Hday. exists c. split.
  - apply fields_valid_iff. unfold c; cbn -[days_in_month Z.ltb Z.leb orb andb].
    assert (default 0 zs = z ∧ 0 <= z) as [-> ?].
    { unfold zs. destruct (_ =? 26)%nat; [|by injection P24 as <-].
      rewrite P24. split; [done|]. eapply Hrange, P24. }
    split; [split; [exact E|exact Hday]|].
    split_and!; try (eapply Hrange; eassumption); lia.
  - apply rebuild_string; unfold c; simpl; try done; try lia.
    + unfold zs. destruct Hlen as [Hl|Hl]; rewrite Hl in *; [by left|right].
      simpl in *. eauto.
    + rewrite Z.div_add_l, Z.div_small, Z.add_0_r by lia.
      rewrite Z.add_comm, Z.mod_add, Z.mod_small by lia.
      revert P0 P2 P5 P8 P11 P14 P17 P20 P22. clear. intros.
      repeat match goal with H : _ ∨ _ |- _ => destruct H as [[= <- <-]|H]; [done|] end. done.
    + unfold zs. intros z' Hz'. by destruct (_ =? 26)%nat.
Qed.

(** The recorder accepts exactly the ISO 8601 texts of valid
    Gregorian local times with an offset of four or six digits: 24 or 26
    characters, month lengths and leap years respected. *)
Theorem timestamp_accepted_iff s :
  recorder_timestamp_valid s = true ↔ ∃ c, civil_valid c ∧ s = print_civil c.
Proof.
  split; [apply accepted_print_civil|]. intros (c & Hc & ->). by apply print_civil_accepted.
Qed.

(** ** Lines *)

Definition no_comma (s : string) : bool := no_char "," s.

Lemma take_fields_join fields last :
  forallb no_comma fields = true →
  take_fields (length fields) (join "," (fields ++ [last])) = Some (fields, last).
Proof.
  induction fields as [|f fields IH]; [done|]. cbn [forallb]. intros H. bool_hyps.
  assert (join "," ((f :: fields) ++ [last])
          = f +:+ String "," (join "," (fields ++ [last]))) as ->.
  { simpl. by destruct (fields ++ [last]) eqn:E; [destruct fields|]. }
  simpl. rewrite split_at_app, IH; done.
Qed.

Lemma split_at_some c s a b : split_at c s = Some (a, b) → s = a +:+ String c b ∧ no_char c a = true.
Proof.
  revert a b. induction s as [|d s IH]; intros a b; simpl; [done|].
  destruct (Ascii.eqb_spec d c) as [->|Hd]; [by intros [= <- <-]|].
  destruct (split_at c s) as [[l r]|]; [|done]. intros [= <- <-].
  destruct (IH l r eq_refl) as [-> Hl]. split; [done|].
  change (negb (Ascii.eqb d c) && no_char c l = true). rewrite Hl.
  by destruct (Ascii.eqb_spec d c).
Qed.

Lemma take_fields_sound n cursor fields last :
  take_fields n cursor = Some (fields, last) →
  cursor = join "," (fields ++ [last]) ∧ length fields = n ∧ forallb no_comma fields = true.
Proof.
  revert cursor fields. induction n as [|n IH]; intros cursor fields; simpl.
  - by intros [= <- <-].
  - destruct (split_at "," cursor) as [[f rest]|] eqn:Hs; [|done].
    destruct (take_fields n rest) as [[fs l]|] eqn:Ht; [|done]. intros [= <- <-].
    apply split_at_some in Hs as [-> Hf]. apply IH in Ht as (-> & <- & Hfs).
    split_and!; [|done|].
    + simpl. by destruct (fs ++ [l]) eqn:E; [destruct fs|].
    + cbn [forallb]. unfold no_comma at 1. by rewrite Hf, Hfs.
Qed.

Lemma line_body_newline body :
  nonempty body = true → last_char body ≠ "013"%char →
  line_body (body +:+ newline) = Some body.
Proof.
  intros Hne Hcr. unfold line_body.
  rewrite string_length_app. change (String.length newline) with 1%nat.
  assert (0 < String.length body)%nat by (destruct body; simpl in *; [done|lia]).
  destruct (Nat.ltb_spec (String.length body + 1) 2); [lia|].
  replace (String.length body + 1 - 1)%nat with (String.length body + 0)%nat by lia.
  unfold char_is at 1. rewrite char_at_app_r. simpl (negb _). cbv iota.
  rewrite Nat.add_0_r, substring_app_l.
  replace (String.length body + 1 - 2)%nat with (String.length body - 1)%nat by lia.
  unfold char_is. fold (last_char body). destruct (Ascii.eqb_spec (last_char body) "013"); done.
Qed.

Lemma join_snoc fields last :
  ∃ prefix, join "," (fields ++ [last]) = prefix +:+ last.
Proof.
  induction fields as [|f fields [p IH]]; [by exists EmptyString|].
  exists (f +:+ "," +:+ p). cbn [app join]. rewrite IH.
  destruct (fields ++ [last]) eqn:E; [by destruct fields|]. by rewrite !string_app_assoc.
Qed.

Lemma decimal_no_comma s : string_forallb is_decimal s = true → no_comma s = true.
Proof.
  apply forallb_impl. intros c Hc. destruct (Ascii.eqb_spec c ","); [by subst|done].
Qed.

Lemma fixed_no_comma s : string_forallb fixed_char s = true → no_comma s = true.
Proof.
  apply forallb_impl. intros c Hc. destruct (Ascii.eqb_spec c ","); [by subst|done].
Qed.

Lemma pad2_no_comma n : 0 <= n < 100 → no_comma (pad2 n) = true.
Proof.
  intros Hn. apply decimal_no_comma. cbn -[is_decimal].
  pose proof (Z.mod_pos_bound n 10 ltac:(lia)).
  assert (0 <= n / 10 < 10) by (split; [apply Z.div_pos; lia|apply Z.div_lt_upper_bound; lia]).
  by rewrite !digit_char_decimal by lia.
Qed.

Lemma print_civil_no_comma c : civil_valid c → no_comma (print_civil c) = true.
Proof.
  intros (?&?&?&?&?&?&?&?&Hz).
  pose proof (days_in_month_bound (cv_year c) (cv_month c)).
  pose proof (Z.mod_pos_bound (cv_year c) 100 ltac:(lia)).
  assert (0 <= cv_year c / 100 < 100)
    by (split; [apply Z.div_pos; lia|apply Z.div_lt_upper_bound; lia]).
  unfold no_comma, no_char, print_civil. rewrite !forallb_app.
  fold (no_char ","). change (no_char ",") with no_comma.
  rewrite !pad2_no_comma by lia.
  destruct (cv_zone_second c) as [z|]; [rewrite pad2_no_comma by (specialize (Hz z eq_refl); lia)|];
    by destruct (cv_west c).
Qed.

Record node_valid (node : RecordNode) : Prop := {
  nv_pid : 0 < rn_pid node <= uint64_max;
  nv_rss : u64 (rn_rss_bytes node);
  nv_read : u64 (rn_read_bytes node);
  nv_write : u64 (rn_write_bytes node);
  nv_threads : 0 <= rn_threads node <= uint_max;
}.

Lemma print_u64_field n :
  u64 n → recorder_field (print_u64 n) 64 = Some (print_u64 n) ∧ no_comma (print_u64 n) = true.
Proof.
  intros [Hn _]. destruct (print_u64_text n Hn) as (Hd & Hne & Hl).
  unfold recorder_field. rewrite Hne. simpl (negb _). cbv iota.
  destruct (Nat.leb_spec 64 (String.length (print_u64 n))); [lia|].
  split; [done|]. by apply decimal_no_comma.
Qed.

Lemma print_u64_no_comma n : u64 n → no_comma (print_u64 n) = true.
Proof. apply print_u64_field. Qed.

Section round_trip.
Context `{NumberLaws}.

Lemma integral_column_printed fields value column n :
  fields !! column = Some (print_u64 n) → u64 n →
  (column = 1%nat → n ≠ 0) → (column = 7%nat → n <= uint_max) →
  integral_column fields (Some value) column = Some n.
Proof.
  intros Hf Hn H1 H7. unfold integral_column. rewrite Hf.
  destruct (print_u64_field n Hn) as [-> _]. rewrite parse_u64_print by done. simpl.
  destruct (Nat.eqb_spec column 1), (Z.eqb_spec n 0); simpl; try (exfalso; naive_solver);
    destruct (Nat.eqb_spec column 7), (Z.ltb_spec uint_max n); simpl; try done;
    exfalso; naive_solver lia.
Qed.

Lemma double_column_formatted fields column value text minimum maximum result :
  fields !! column = Some text →
  infiltratr_format_fixed_ascii value 3 64 = Some text →
  infiltratr_parse_double_range text minimum maximum d0 = (true, result) →
  double_column fields column minimum maximum = Some result.
Proof.
  intros Hf Ht Hp. unfold double_column. rewrite Hf.
  destruct (format_fixed_text _ _ _ _ Ht) as (_ & Hne & Hl).
  unfold recorder_field. rewrite Hne. simpl (negb _). cbv iota.
  destruct (Nat.leb_spec 64 (String.length text)); [lia|]. by rewrite Hp.
Qed.

(** (C25) What the recorder writes it can import again: the line
    [write_record] prints for a node in range is accepted by the import parser,
    which returns the values of the two formatted percentages. *)
Theorem record_round_trip civil node cpu_text memory_text cpu memory :
  civil_valid civil → node_valid node →
  infiltratr_format_fixed_ascii (rn_cpu_percent node) 3 64 = Some cpu_text →
  infiltratr_parse_double_range cpu_text d0 DBL_MAX d0 = (true, cpu) →
  infiltratr_format_fixed_ascii (rn_memory_percent node) 3 64 = Some memory_text →
  infiltratr_parse_double_range memory_text d0 d100 d0 = (true, memory) →
  ∃ line, record_line (print_civil civil) node = Some line
          ∧ lsm_process_recorder_parse_metrics (Some line) = Some (cpu, memory).
Proof.
  intros Hc [Hpid Hrss Hread Hwrite Hthreads] Hct Hcp Hmt Hmp.
  assert (u64 (rn_pid node)) as Hpid' by (unfold u64; lia).
  assert (u64 (rn_threads node)) as Ht' by (unfold u64, uint64_max, uint_max in *; lia).
  unfold record_line. rewrite Hct, Hmt. eexists. split; [done|].
  unfold lsm_process_recorder_parse_metrics.
  set (fields := [print_civil civil; print_u64 (rn_pid node); cpu_text; memory_text;
                  print_u64 (rn_rss_bytes node); print_u64 (rn_read_bytes node);
                  print_u64 (rn_write_bytes node)]).
  set (last := print_u64 (rn_threads node)).
  change (join "," _) with (join "," (fields ++ [last])).
  destruct (print_u64_text (rn_threads node) ltac:(lia)) as (Hd & Hne & _). fold last in Hd, Hne.
  destruct (join_snoc fields last) as [prefix Hj].
  rewrite line_body_newline.
  2: { rewrite Hj. by destruct prefix. }
  2: { rewrite Hj, last_char_app by done. intros Hcr.
       pose proof (last_char_forallb _ _ Hne Hd) as E. by rewrite Hcr in E. }
  destruct (format_fixed_text _ _ _ _ Hct) as (Hcf & _).
  destruct (format_fixed_text _ _ _ _ Hmt) as (Hmf & _).
  rewrite (take_fields_join fields last : _ → take_fields 7 _ = _).
  2: { simpl. by rewrite print_civil_no_comma, !print_u64_no_comma, !fixed_no_comma. }
  rewrite split_at_none by apply (proj2 (print_u64_field _ Ht')).
  simpl (default _ _). rewrite print_civil_accepted by done. simpl negb. cbv iota.
  cbn [foldl].
  rewrite (integral_column_printed _ _ 1 (rn_pid node)) by (done || lia).
  rewrite (integral_column_printed _ _ 4 (rn_rss_bytes node)) by done.
  rewrite (integral_column_printed _ _ 5 (rn_read_bytes node)) by done.
  rewrite (integral_column_printed _ _ 6 (rn_write_bytes node)) by done.
  rewrite (integral_column_printed _ _ 7 (rn_threads node)) by (done || lia).
  rewrite (double_column_formatted _ 2 _ cpu_text _ _ cpu) by done.
  by rewrite (double_column_formatted _ 3 _ memory_text _ _ memory) by done.
Qed.
End round_trip.

Lemma string_init s n :
  String.length s = S n → s = String.substring 0 n s +:+ String (char_at s n) EmptyString.
Proof.
  revert n. induction s as [|c s IH]; [done|]. intros n [= Hn]. destruct n as [|n].
  - by destruct s.
  - change (String c s = String c (String.substring 0 n s +:+ String (char_at s n) EmptyString)).
    by rewrite <-IH.
Qed.

Lemma substring_length s n : (n ≤ String.length s)%nat → String.length (String.substring 0 n s) = n.
Proof.
  revert n. induction s as [|c s IH]; intros [|n]; simpl; try done; try lia.
  intros. f_equal. apply IH. lia.
Qed.

Lemma line_body_sound line body :
  line_body line = Some body →
  line = body +:+ newline ∨ line = body +:+ carriage_newline.
Proof.
  unfold line_body. destruct (Nat.ltb_spec (String.length line) 2); [done|].
  destruct (String.length line) as [|[|n]] eqn:Hl; [lia|lia|].
  pose proof (string_init line (S n) Hl) as Hline.
  pose proof (substring_length line (S n) ltac:(lia)) as Hb.
  replace (S (S n) - 1)%nat with (S n) by lia. replace (S (S n) - 2)%nat with n by lia.
  unfold char_is. destruct (Ascii.eqb_spec (char_at line (S n)) nl) as [Hnl|]; [|done]. simpl.
  set (b := String.substring 0 (S n) line) in *. rewrite Hnl in Hline.
  destruct (Ascii.eqb_spec (char_at b n) "013") as [Hcr|]; intros [= <-].
  - right. rewrite Hline. pose proof (string_init b n Hb) as E. rewrite Hcr in E.
    rewrite E at 1. by rewrite string_app_assoc.
  - by left.
Qed.

Lemma split_at_none_no_char c s : split_at c s = None → no_char c s = true.
Proof.
  induction s as [|d s IH]; [done|]. simpl. intros Hs.
  change (negb (Ascii.eqb d c) && no_char c s = true).
  destruct (Ascii.eqb d c); [done|]. simpl. apply IH.
  by destruct (split_at c s) as [[??]|].
Qed.

Section strict.
Context `{NumberOps}.

(** A column the import parser accepts as an unsigned integer. *)
Definition integral_ok (fields : list string) (column : nat) : Prop :=
  ∃ text scratch n,
    fields !! column = Some text ∧ nonempty text = true ∧ (String.length text < 64)%nat
    ∧ infiltratr_parse_u64 text 10 scratch = (true, n)
    ∧ (column = 1%nat → n ≠ 0) ∧ (column = 7%nat → n <= uint_max).

Definition double_ok (fields : list string) (column : nat) (minimum maximum value : double) : Prop :=
  ∃ text, fields !! column = Some text ∧ nonempty text = true ∧ (String.length text < 64)%nat
          ∧ infiltratr_parse_double_range text minimum maximum d0 = (true, value).

Lemma recorder_field_some field text :
  recorder_field field 64 = Some text →
  text = field ∧ nonempty field = true ∧ (String.length field < 64)%nat.
Proof.
  unfold recorder_field. destruct (nonempty field) eqn:Hne; [|done]. simpl (negb _). cbv iota.
  destruct (Nat.leb_spec 64 (String.length field)); [done|]. by intros [= ->]; split_and!.
Qed.

Lemma integral_column_some fields value column n :
  integral_column fields value column = Some n → is_Some value ∧ integral_ok fields column.
Proof.
  unfold integral_column. destruct value as [v|]; [|done].
  destruct (fields !! column) as [f|] eqn:Hf; [|done].
  destruct (recorder_field f 64) as [t|] eqn:Ht; [|done].
  apply recorder_field_some in Ht as (-> & Hne & Hl).
  destruct (infiltratr_parse_u64 f 10 v) as [[] m] eqn:Hp; [|done]. simpl.
  intros Hg. split; [done|]. exists f, v, m. split_and!; try done; intros ->; cbn -[Z.eqb Z.ltb uint_max] in Hg.
  - destruct (Z.eqb_spec m 0); done.
  - destruct (Z.ltb_spec uint_max m); done.
Qed.

Lemma integral_columns_some fields columns value n :
  foldl (integral_column fields) value columns = Some n → Forall (integral_ok fields) columns.
Proof.
  revert value. induction columns as [|c cs IH]; intros value; simpl; [done|]. intros Hf.
  constructor; [|by eapply IH].
  destruct (integral_column fields value c) as [m|] eqn:E.
  - by apply integral_column_some in E as [_ ?].
  - exfalso. clear -Hf. induction cs; [done|auto].
Qed.

Lemma double_column_some fields column minimum maximum value :
  double_column fields column minimum maximum = Some value →
  double_ok fields column minimum maximum value.
Proof.
  unfold double_column. destruct (fields !! column) as [f|] eqn:Hf; [|done].
  destruct (recorder_field f 64) as [t|] eqn:Ht; [|done].
  apply recorder_field_some in Ht as (-> & Hne & Hl).
  destruct (infiltratr_parse_double_range f minimum maximum d0) as [[] v] eqn:Hp; [|done].
  intros [= ->]. exists f. by split_and!.
Qed.

(** The import parser accepts nothing but the recorder's schema: a
    complete physical line of exactly eight comma-separated fields, a valid
    timestamp, a non-zero PID, integral counters, and both percentages accepted
    within their documented ranges. *)
Theorem import_accepts_only_schema line cpu memory :
  lsm_process_recorder_parse_metrics (Some line) = Some (cpu, memory) →
  ∃ fields end_of_line civil,
    line = join "," fields +:+ end_of_line
    ∧ (end_of_line = newline ∨ end_of_line = carriage_newline)
    ∧ length fields = 8%nat ∧ forallb no_comma fields = true
    ∧ fields !! 0%nat = Some (print_civil civil) ∧ civil_valid civil
    ∧ Forall (integral_ok fields) [1; 4; 5; 6; 7]%nat
    ∧ double_ok fields 2 d0 DBL_MAX cpu ∧ double_ok fields 3 d0 d100 memory.
Proof.
  unfold lsm_process_recorder_parse_metrics.
  destruct (line_body line) as [body|] eqn:Hbody; [|done].
  destruct (take_fields 7 body) as [[fs last]|] eqn:Hfs; [|done].
  destruct (split_at "," last) as [?|] eqn:Hlast; [done|].
  destruct (recorder_timestamp_valid _) eqn:Hts; [|done]. simpl negb. cbv iota.
  destruct (foldl _ _ _) eqn:Hint; [|done].
  destruct (double_column _ 2 _ _) as [c|] eqn:Hcpu; [|done].
  destruct (double_column _ 3 _ _) as [m|] eqn:Hmem; [|done].
  intros [= -> ->]. apply take_fields_sound in Hfs as (-> & Hlen & Hnc).
  apply accepted_print_civil in Hts as (civil & Hciv & Hts).
  exists (fs ++ [last]). apply line_body_sound in Hbody.
  assert (∃ eol, line = join "," (fs ++ [last]) +:+ eol
                 ∧ (eol = newline ∨ eol = carriage_newline)) as (eol & -> & Heol)
    by (destruct Hbody; eauto).
  exists eol, civil. split_and!; try done.
  - rewrite length_app, Hlen. done.
  - rewrite List.forallb_app, Hnc. simpl. rewrite andb_true_r. by apply split_at_none_no_char.
  - destruct fs; [done|]. simpl in *. by f_equal.
  - by eapply integral_columns_some.
  - by apply double_column_some.
  - by apply double_column_some.
Qed.
End strict.

(** ** Witnesses *)

From S2P Require Import CommonReference.

Definition sample_civil : civil := Civil 2024 2 29 23 59 58 true 9 30 None.
Definition sample_node : RecordNode := {|
  rn_timestamp := 1709263798; rn_pid := 4242;
  rn_cpu_percent := ddiv (double_of_Z 25) (double_of_Z 2); rn_memory_percent := d1;
  rn_rss_bytes := 1048576; rn_read_bytes := 0; rn_write_bytes := uint64_max; rn_threads := 7 |}.

Definition sample_line : string :=
  "2024-02-29T23:59:58-0930,4242,12.500,1.000,1048576,0,18446744073709551615,7" +:+ newline.

Lemma sample_civil_valid : civil_valid sample_civil.
Proof. unfold civil_valid. split_and!; try (vm_compute; done). Qed.

Lemma sample_node_valid : node_valid sample_node.
Proof. split; vm_compute; done. Qed.

Example sample_line_printed :
  record_line (print_civil sample_civil) sample_node = Some sample_line.
Proof. vm_compute. reflexivity. Qed.

Lemma record_round_trip_witness :
  ∃ line, record_line (print_civil sample_civil) sample_node = Some line
    ∧ lsm_process_recorder_parse_metrics (Some line)
      = Some (ddiv (double_of_Z 25) (double_of_Z 2), d1).
Proof.
  refine (record_round_trip sample_civil sample_node "12.500" "1.000" _ _
            sample_civil_valid sample_node_valid _ _ _ _);
    vm_compute; reflexivity.
Defined.

Lemma import_accepts_only_schema_witness :
  ∃ fields end_of_line civil,
    sample_line = join "," fields +:+ end_of_line
    ∧ (end_of_line = newline ∨ end_of_line = carriage_newline)
    ∧ length fields = 8%nat ∧ forallb no_comma fields = true
    ∧ fields !! 0%nat = Some (print_civil civil) ∧ civil_valid civil
    ∧ Forall (integral_ok fields) [1; 4; 5; 6; 7]%nat
    ∧ double_ok fields 2 d0 DBL_MAX (ddiv (double_of_Z 25) (double_of_Z 2))
    ∧ double_ok fields 3 d0 d100 d1.
Proof. apply (import_accepts_only_schema sample_line). vm_compute. reflexivity. Defined.
