(* ===== verification/ProcessRecorder.v ===== *)
(** * ProcessRecorder: the asynchronous process recorder

    Models the concurrent half of [src/src/process_recorder.c]: the linked queue
    of pending records in a heap of nodes, the critical sections of the caller
    and of the detached writer thread, and the interleavings of the two.  A
    dereference of a node that is not in the heap has no result ([None]), so the
    invariant also shows the list manipulation never follows a dangling pointer.
    Whether a write or the final close succeeds is the environment's choice. *)
From S2P Require Import Prelude Double ProcessModel CStrings Common RecorderCsv.
Local Open Scope Z_scope.

Definition EIO : Z := 5.
Definition EAGAIN : Z := 11.
Definition ENOMEM : Z := 12.
Definition EINVAL : Z := 22.
Definition ENOBUFS : Z := 105.

(** src: process_recorder.c:44-44 LSM_PROCESS_RECORDER_MAX_QUEUED *)
Definition LSM_PROCESS_RECORDER_MAX_QUEUED : nat := Z.to_nat 4096.
#[global] Opaque LSM_PROCESS_RECORDER_MAX_QUEUED.

(** Heap cells: a record and its [next] pointer. *)
Abbreviation loc := positive.
Abbreviation heap := (gmap positive (RecordNode * option positive)).

(** src: process_recorder.c:47-58 LsmProcessRecorder *)
Record LsmProcessRecorder := {
  pr_file : bool;                (** [file != NULL] *)
  pr_head : option loc;
  pr_tail : option loc;
  pr_queued : nat;
  pr_references : nat;
  pr_failure : Z;
  pr_stop_requested : bool;
}.
#[export] Instance eta_LsmProcessRecorder : Eta LsmProcessRecorder := λ x,
  Build_LsmProcessRecorder (pr_file x) (pr_head x) (pr_tail x) (pr_queued x)
    (pr_references x) (pr_failure x) (pr_stop_requested x).

(** [while (node) { next = node->next; free(node); node = next; }]; the number
    of cells bounds the iterations. *)
(** src: process_recorder.c free_nodes *)
Fixpoint free_nodes_fuel (fuel : nat) (h : heap) (node : option loc) : option heap :=
  match node, fuel with
  | None, _ => Some h
  | Some l, O => None
  | Some l, S fuel =>
      match h !! l with
      | Some (_, next) => free_nodes_fuel fuel (delete l h) next
      | None => None
      end
  end.
Definition free_nodes (h : heap) (node : option loc) : option heap :=
  free_nodes_fuel (size h) h node.

(** Dropping a reference; the last holder closes the file if it is still open
    and frees what is queued.  The result says what is left of the recorder and
    whether the file was closed here. *)
(** src: process_recorder.c recorder_release *)
Definition recorder_release (h : heap) (r : LsmProcessRecorder)
    : option (heap * option LsmProcessRecorder * bool) :=
  let r' := r <| pr_references := pred (pr_references r) |> in
  if negb (pr_references r =? 1)%nat then Some (h, Some r', false)
  else match free_nodes h (pr_head r) with
       | Some h' => Some (h', None, pr_file r)
       | None => None
       end.

(** src: process_recorder.c:371-381 lsm_process_recorder_append *)
Definition node_of_process (now : Z) (process : LsmProcessInfo) : RecordNode :=
  {| rn_timestamp := now; rn_pid := p_pid process;
     rn_cpu_percent := p_cpu_percent process;
     rn_memory_percent := p_memory_percent process;
     rn_rss_bytes := p_rss_bytes process; rn_read_bytes := p_read_bytes process;
     rn_write_bytes := p_write_bytes process; rn_threads := p_threads process |}.

(** Linking a node behind the tail. *)
(** src: process_recorder.c:397-402 lsm_process_recorder_append *)
Definition queue_push (h : heap) (r : LsmProcessRecorder) (l : loc) (node : RecordNode)
    : option (heap * LsmProcessRecorder) :=
  let h := <[l := (node, None)]> h in
  let linked :=
    match pr_tail r with
    | Some t => match h !! t with
                | Some (last, _) => Some (<[t := (last, Some l)]> h, r)
                | None => None
                end
    | None => Some (h, r <| pr_head := Some l |>)
    end in
  match linked with
  | Some (h, r) => Some (h, r <| pr_tail := Some l |> <| pr_queued := S (pr_queued r) |>)
  | None => None
  end.

(** [alloc] is the cell [calloc] returns, if it does.  Result: accepted, heap,
    recorder, whether the condition is signalled. *)
(** src: process_recorder.c lsm_process_recorder_append *)
Definition lsm_process_recorder_append (h : heap) (r : LsmProcessRecorder)
    (alloc : option loc) (node : RecordNode) : option (bool * heap * LsmProcessRecorder * bool) :=
  match alloc with
  | None => Some (false, h, r, false)
  | Some l =>
      if pr_stop_requested r || negb (pr_failure r =? 0) then Some (false, h, r, false)
      else if (LSM_PROCESS_RECORDER_MAX_QUEUED <=? pr_queued r)%nat
      then Some (false, h, r <| pr_failure := ENOBUFS |> <| pr_stop_requested := true |>, true)
      else match queue_push h r l node with
           | Some (h, r) => Some (true, h, r, true)
           | None => None
           end
  end.

(** src: process_recorder.c lsm_process_recorder_error *)
Definition lsm_process_recorder_error (r : option LsmProcessRecorder) : Z :=
  match r with None => EINVAL | Some r => pr_failure r end.

(** What the writer finds when it takes the lock at the top of its loop. *)
Inductive WriterWake :=
| Wait
| Leave
| Take (l : loc) (r : LsmProcessRecorder).

(** src: process_recorder.c:258-273 recorder_thread_main *)
Definition writer_begin (h : heap) (r : LsmProcessRecorder) : option WriterWake :=
  match pr_head r with
  | None => Some (if pr_stop_requested r then Leave else Wait)
  | Some l =>
      match h !! l with
      | Some (_, next) =>
          let r := r <| pr_head := next |> in
          let r := match next with None => r <| pr_tail := None |> | Some _ => r end in
          let r := if (0 <? pr_queued r)%nat then r <| pr_queued := pred (pr_queued r) |>
                   else r in
          Some (Take l r)
      | None => None
      end
  end.

(** The critical section after a failed write. *)
(** src: process_recorder.c:275-286 recorder_thread_main *)
Definition writer_fail (h : heap) (r : LsmProcessRecorder) (failure : Z)
    : option (heap * LsmProcessRecorder) :=
  match free_nodes h (pr_head r) with
  | Some h =>
      let r := if pr_failure r =? 0 then r <| pr_failure := failure |> else r in
      Some (h, r <| pr_stop_requested := true |> <| pr_head := None |>
                 <| pr_tail := None |> <| pr_queued := 0%nat |>)
  | None => None
  end.

(** [errno ? errno : EIO] *)
Definition errno_or_eio (errno : Z) : Z := if errno =? 0 then EIO else errno.

(** Closing the file; [close_error] is the [errno] of a failed [fclose]. *)
(** src: process_recorder.c:291-299 recorder_thread_main *)
Definition writer_close (r : LsmProcessRecorder) (close_error : option Z) : LsmProcessRecorder :=
  if pr_file r then
    let r := match close_error with
             | Some errno => if pr_failure r =? 0
                             then r <| pr_failure := errno_or_eio errno |> else r
             | None => r
             end in
    r <| pr_file := false |>
  else r.

(** src: process_recorder.c:420-423 lsm_process_recorder_stop *)
Definition stop_locked (r : LsmProcessRecorder) : LsmProcessRecorder :=
  r <| pr_stop_requested := true |>.

(** ** The linked queue *)

(** The cells reached from [start] along the [next] pointers. *)
Fixpoint linked (h : heap) (start : option loc) (cells : list (loc * RecordNode)) : Prop :=
  match cells with
  | [] => start = None
  | (l, node) :: rest =>
      start = Some l ∧ ∃ next, h !! l = Some (node, next) ∧ linked h next rest
  end.

Definition locs (cells : list (loc * RecordNode)) : list loc := fst <$> cells.
Definition tail_of (cells : list (loc * RecordNode)) : option loc := fst <$> last cells.

(** Writing a cell outside the list does not change it. *)
Lemma linked_frame h start cells l v :
  l ∉ locs cells → linked h start cells → linked (<[l := v]> h) start cells.
Proof.
  revert start. induction cells as [|[k n] cells IH]; intros start Hl; [done|].
  simpl in *. apply not_elem_of_cons in Hl as [Hk Hl].
  intros [-> (next & Hh & Hrest)]. split; [done|]. exists next.
  rewrite lookup_insert_ne by done. eauto.
Qed.

Lemma linked_delete h start cells l :
  l ∉ locs cells → linked h start cells → linked (delete l h) start cells.
Proof.
  revert start. induction cells as [|[k n] cells IH]; intros start Hl; [done|].
  simpl in *. apply not_elem_of_cons in Hl as [Hk Hl].
  intros [-> (next & Hh & Hrest)]. split; [done|]. exists next.
  rewrite lookup_delete_ne by done. eauto.
Qed.

Lemma linked_last h start cells t n :
  linked h start (cells ++ [(t, n)]) → h !! t = Some (n, None).
Proof.
  revert start. induction cells as [|[k m] cells IH]; intros start; simpl.
  - by intros [-> (next & Hh & ->)].
  - intros [_ (next & _ & Hrest)]. eauto.
Qed.

(** Redirecting the last cell to a fresh one extends the list. *)
Lemma linked_snoc h start cells t n l node :
  NoDup (locs (cells ++ [(t, n)])) → l ∉ locs (cells ++ [(t, n)]) →
  linked h start (cells ++ [(t, n)]) →
  linked (<[t := (n, Some l)]> (<[l := (node, None)]> h)) start
         (cells ++ [(t, n); (l, node)]).
Proof.
  revert start. induction cells as [|[k m] cells IH]; intros start; simpl.
  - intros _ Hl [-> (next & Hh & ->)]. split; [done|]. eexists.
    rewrite lookup_insert_eq. split; [done|]. split; [done|].
    exists None. rewrite lookup_insert_ne by set_solver. by rewrite lookup_insert_eq.
  - rewrite NoDup_cons. intros [Hk Hnd] Hl [-> (next & Hh & Hrest)]. split; [done|].
    exists next. apply not_elem_of_cons in Hl as [Hlk Hl].
    rewrite !lookup_insert_ne; [|done|].
    + split; [done|]. by apply IH.
    + unfold locs in Hk. rewrite fmap_app in Hk. set_solver.
Qed.

Lemma free_nodes_spec fuel h start cells :
  linked h start cells → NoDup (locs cells) → (length cells ≤ fuel)%nat →
  ∃ h', free_nodes_fuel fuel h start = Some h'
        ∧ ∀ k, h' !! k = if decide (k ∈ locs cells) then None else h !! k.
Proof.
  revert fuel h start. induction cells as [|[l n] cells IH]; intros fuel h start.
  - intros -> _ _. exists h. by destruct fuel.
  - intros [-> (next & Hh & Hrest)] Hnd Hlen. destruct fuel as [|fuel]; simpl in *; [lia|].
    apply NoDup_cons in Hnd as [Hl Hnd]. rewrite Hh.
    destruct (IH fuel (delete l h) next) as (h' & -> & Hspec);
      [by apply linked_delete|done|lia|].
    exists h'. split; [done|]. intros k. rewrite Hspec.
    destruct (decide (k ∈ locs cells)) as [Hk|Hk], (decide (k ∈ l :: locs cells)) as [Hk'|Hk'];
      rewrite elem_of_cons in Hk'; try done; [by destruct Hk'; right| |].
    + destruct Hk' as [->|]; [by rewrite lookup_delete_eq|done].
    + rewrite lookup_delete_ne; [done|]. by intros ->; apply Hk'; left.
Qed.

Lemma linked_dom h start cells : linked h start cells → ∀ l, l ∈ locs cells → is_Some (h !! l).
Proof.
  revert start. induction cells as [|[k n] cells IH]; intros start; simpl; [set_solver|].
  intros [-> (next & Hh & Hrest)] l [->|Hl]%elem_of_cons; [eauto|by eapply IH].
Qed.

(** A list of distinct cells is no longer than the heap. *)
Lemma linked_size h start cells :
  linked h start cells → NoDup (locs cells) → (length cells ≤ size h)%nat.
Proof.
  intros Hl Hnd. unfold locs in *. rewrite <-(length_fmap fst cells).
  rewrite <-(size_list_to_set (C := gset loc)) by done. rewrite <-size_dom.
  apply subseteq_size. intros k Hk%elem_of_list_to_set. apply elem_of_dom.
  by eapply linked_dom.
Qed.

(** The concrete queue of [r] in [h] holds the records of [cells], in order. *)
Record queue_rep (h : heap) (r : LsmProcessRecorder) (cells : list (loc * RecordNode)) : Prop := {
  qr_linked : linked h (pr_head r) cells;
  qr_nodup : NoDup (locs cells);
  qr_tail : pr_tail r = tail_of cells;
  qr_queued : pr_queued r = length cells;
}.

(** The fields of the recorder a queue operation leaves alone. *)
Definition same_control (r r' : LsmProcessRecorder) : Prop :=
  pr_file r' = pr_file r ∧ pr_references r' = pr_references r
  ∧ pr_failure r' = pr_failure r ∧ pr_stop_requested r' = pr_stop_requested r.

Lemma queue_rep_notin h r cells l : queue_rep h r cells → h !! l = None → l ∉ locs cells.
Proof.
  intros Hq Hl Hin. destruct (linked_dom _ _ _ (qr_linked _ _ _ Hq) l Hin). congruence.
Qed.

Lemma queue_push_spec h r cells l node :
  queue_rep h r cells → h !! l = None →
  ∃ h' r', queue_push h r l node = Some (h', r')
    ∧ queue_rep h' r' (cells ++ [(l, node)]) ∧ same_control r r'
    ∧ ∀ k, k ∉ locs (cells ++ [(l, node)]) → h' !! k = h !! k.
Proof.
  intros Hq Hl. pose proof (queue_rep_notin _ _ _ _ Hq Hl) as Hnin.
  destruct Hq as [Hlink Hnd Htail Hcount].
  assert (NoDup (locs (cells ++ [(l, node)]))) as Hnd'.
  { unfold locs. rewrite fmap_app. apply NoDup_app. split_and!; [done|set_solver|apply NoDup_singleton]. }
  unfold queue_push. rewrite Htail. unfold tail_of.
  destruct cells as [|c cells _] using rev_ind.
  - exists (<[l := (node, None)]> h). eexists. split; [done|].
    split_and!; try done.
    + split; simpl; [|done|done|by rewrite Hcount].
      split; [done|]. exists None. by rewrite lookup_insert_eq.
    + intros k Hk. simpl in Hk. rewrite lookup_insert_ne; [done|set_solver].
  - destruct c as [t n]. rewrite last_snoc. simpl.
    assert (l ≠ t) as Hlt.
    { unfold locs in Hnin. rewrite fmap_app in Hnin. set_solver. }
    rewrite lookup_insert_ne, (linked_last _ _ _ _ _ Hlink) by done.
    eexists _, _. split; [done|]. split_and!; try done.
    + split; simpl; [| done| |].
      * rewrite <-app_assoc. by apply linked_snoc.
      * by unfold tail_of; rewrite last_snoc.
      * rewrite Hcount, !length_app. simpl. lia.
    + intros k Hk. unfold locs in Hk. rewrite !fmap_app in Hk.
      rewrite !lookup_insert_ne; [done|set_solver..].
Qed.

Lemma tail_of_cons c cells :
  tail_of (c :: cells) = match cells with [] => Some c.1 | _ => tail_of cells end.
Proof. unfold tail_of. by destruct cells. Qed.

Lemma writer_begin_nil h r :
  queue_rep h r [] → writer_begin h r = Some (if pr_stop_requested r then Leave else Wait).
Proof. intros Hq. unfold writer_begin. by rewrite (qr_linked _ _ _ Hq : pr_head r = None). Qed.

Lemma writer_begin_cons h r l node cells :
  queue_rep h r ((l, node) :: cells) →
  ∃ r' next, writer_begin h r = Some (Take l r') ∧ h !! l = Some (node, next)
    ∧ queue_rep h r' cells ∧ same_control r r'.
Proof.
  intros [[Hhead (next & Hh & Hrest)] Hnd Htail Hcount].
  unfold writer_begin. rewrite Hhead, Hh. apply NoDup_cons in Hnd as [_ Hnd].
  simpl in Hcount.
  assert (next = None ↔ cells = []) as Hnext.
  { destruct cells as [|[k m] cells]; simpl in Hrest; [done|]. by destruct Hrest as [-> _]. }
  eexists _, next. split; [done|]. split; [done|].
  rewrite tail_of_cons in Htail.
  split; [split|]; destruct next as [k|]; simpl; try rewrite !Hcount; simpl;
    rewrite ?Hcount; simpl; try done.
  - destruct cells; [by discriminate (proj2 Hnext eq_refl)|done].
  - by rewrite (proj1 Hnext).
Qed.

Lemma free_queue h r cells :
  queue_rep h r cells →
  ∃ h', free_nodes h (pr_head r) = Some h'
        ∧ ∀ k, h' !! k = if decide (k ∈ locs cells) then None else h !! k.
Proof.
  intros Hq. apply free_nodes_spec; [apply Hq|apply Hq|].
  eapply linked_size; apply Hq.
Qed.

(** ** The system of two threads *)

Inductive WriterPC :=
| WTop                   (** about to take the lock *)
| WBlocked               (** asleep in [pthread_cond_wait] *)
| WWriting (l : loc)     (** owns the unlinked node, lock released *)
| WFailing (errno : Z)   (** the write failed, node freed, lock not taken yet *)
| WClosing               (** left the loop *)
| WReleasing             (** file closed, must drop its reference *)
| WDone.

#[export] Instance eqdec_WriterPC : EqDecision WriterPC.
Proof. solve_decision. Defined.

Inductive OwnerPC :=
| OOwns                  (** the caller holds the recorder *)
| OJoining               (** stop requested, waiting at most 250 ms *)
| OReleasing             (** joined or detached, must drop its reference *)
| OGone.

Record System := {
  sys_mem : option LsmProcessRecorder;
  sys_heap : heap;
  sys_writer : WriterPC;
  sys_owner : OwnerPC;
  (** Ghost state: records accepted by [append], records in the file, records
      dropped by a failed write, and how often the file was closed. *)
  sys_accepted : list RecordNode;
  sys_written : list RecordNode;
  sys_lost : list RecordNode;
  sys_closes : nat;
}.
#[export] Instance eta_System : Eta System := λ x,
  Build_System (sys_mem x) (sys_heap x) (sys_writer x) (sys_owner x) (sys_accepted x)
    (sys_written x) (sys_lost x) (sys_closes x).

Definition recorder_initial : LsmProcessRecorder :=
  {| pr_file := true; pr_head := None; pr_tail := None; pr_queued := 0;
     pr_references := 2; pr_failure := 0; pr_stop_requested := false |}.

Definition sys_initial : System :=
  {| sys_mem := Some recorder_initial; sys_heap := ∅; sys_writer := WTop;
     sys_owner := OOwns; sys_accepted := []; sys_written := []; sys_lost := [];
     sys_closes := 0 |}.

(** Construction: the outcome of each resource acquisition in order; [inr errno]
    is a failure.  The result is the recorder and the value of [*error_code]. *)
(** src: process_recorder.c lsm_process_recorder_create *)
Definition lsm_process_recorder_create (path : option string)
    (alloc_ok mutex_ok cond_ok : bool) (file : () + Z) (header : () + Z) (thread_error : Z)
    : option System * Z :=
  match path with
  | None | Some EmptyString => (None, EINVAL)
  | Some _ =>
      if negb alloc_ok then (None, ENOMEM)
      else if negb mutex_ok then (None, EAGAIN)
      else if negb cond_ok then (None, EAGAIN)
      else match file with
           | inr errno => (None, errno_or_eio errno)
           | inl _ =>
               match header with
               | inr errno => (None, errno_or_eio errno)
               | inl _ => if negb (thread_error =? 0) then (None, thread_error)
                          else (Some sys_initial, 0)
               end
           end
  end.

Definition wake (signalled : bool) (w : WriterPC) : WriterPC :=
  match w with WBlocked => if signalled then WTop else WBlocked | _ => w end.

(** The steps of the writer thread. *)
(** src: process_recorder.c recorder_thread_main *)
Inductive writer_step : System → System → Prop :=
| writer_wait y r :
    sys_mem y = Some r → sys_writer y = WTop → writer_begin (sys_heap y) r = Some Wait →
    writer_step y (y <| sys_writer := WBlocked |>)
| writer_leave y r :
    sys_mem y = Some r → sys_writer y = WTop → writer_begin (sys_heap y) r = Some Leave →
    writer_step y (y <| sys_writer := WClosing |>)
| writer_take y r l r' :
    sys_mem y = Some r → sys_writer y = WTop → writer_begin (sys_heap y) r = Some (Take l r') →
    writer_step y (y <| sys_mem := Some r' |> <| sys_writer := WWriting l |>)
| writer_wrote y l node next :
    sys_writer y = WWriting l → sys_heap y !! l = Some (node, next) →
    writer_step y (y <| sys_heap := delete l (sys_heap y) |> <| sys_writer := WTop |>
                     <| sys_written := sys_written y ++ [node] |>)
| writer_write_failed y l node next errno :
    sys_writer y = WWriting l → sys_heap y !! l = Some (node, next) →
    writer_step y (y <| sys_heap := delete l (sys_heap y) |>
                     <| sys_writer := WFailing (errno_or_eio errno) |>
                     <| sys_lost := [node] |>)
| writer_abandon y r failure h' r' dropped :
    sys_mem y = Some r → sys_writer y = WFailing failure →
    linked (sys_heap y) (pr_head r) dropped →
    writer_fail (sys_heap y) r failure = Some (h', r') →
    writer_step y (y <| sys_mem := Some r' |> <| sys_heap := h' |>
                     <| sys_writer := WClosing |>
                     <| sys_lost := sys_lost y ++ (snd <$> dropped) |>)
| writer_closed y r close_error :
    sys_mem y = Some r → sys_writer y = WClosing →
    writer_step y (y <| sys_mem := Some (writer_close r close_error) |>
                     <| sys_writer := WReleasing |>
                     <| sys_closes := if pr_file r then S (sys_closes y) else sys_closes y |>)
| writer_release y r h' rest closed :
    sys_mem y = Some r → sys_writer y = WReleasing →
    recorder_release (sys_heap y) r = Some (h', rest, closed) →
    writer_step y (y <| sys_mem := rest |> <| sys_heap := h' |> <| sys_writer := WDone |>
                     <| sys_closes := if closed : bool then S (sys_closes y) else sys_closes y |>).

(** Every atomic action of the system. *)
(** src: process_recorder.c:368-438 lsm_process_recorder_stop *)
Inductive step : System → System → Prop :=
| step_writer y z : writer_step y z → step y z
| step_wake y r :
    sys_mem y = Some r → sys_writer y = WBlocked → step y (y <| sys_writer := WTop |>)
| step_append y r alloc now process ok h' r' signalled :
    sys_mem y = Some r → sys_owner y = OOwns →
    (∀ l, alloc = Some l → sys_heap y !! l = None) →
    lsm_process_recorder_append (sys_heap y) r alloc (node_of_process now process)
      = Some (ok, h', r', signalled) →
    step y (y <| sys_mem := Some r' |> <| sys_heap := h' |>
              <| sys_writer := wake signalled (sys_writer y) |>
              <| sys_accepted := if ok : bool then sys_accepted y ++ [node_of_process now process]
                                 else sys_accepted y |>)
| step_stop y r :
    sys_mem y = Some r → sys_owner y = OOwns →
    step y (y <| sys_mem := Some (stop_locked r) |> <| sys_owner := OJoining |>
              <| sys_writer := wake true (sys_writer y) |>)
| step_join_or_detach y :
    sys_owner y = OJoining → step y (y <| sys_owner := OReleasing |>)
| step_release y r h' rest closed :
    sys_mem y = Some r → sys_owner y = OReleasing →
    recorder_release (sys_heap y) r = Some (h', rest, closed) →
    step y (y <| sys_mem := rest |> <| sys_heap := h' |> <| sys_owner := OGone |>
              <| sys_closes := if closed : bool then S (sys_closes y) else sys_closes y |>).

Inductive reachable : System → Prop :=
| reach_initial : reachable sys_initial
| reach_step y z : reachable y → step y z → reachable z.

(** ** Invariant *)

Definition writer_refs (w : WriterPC) : nat := match w with WDone => 0 | _ => 1 end.
Definition owner_refs (o : OwnerPC) : nat := match o with OGone => 0 | _ => 1 end.
Definition owed (y : System) : nat := (writer_refs (sys_writer y) + owner_refs (sys_owner y))%nat.

(** The writer will not take another record. *)
Definition left_loop (w : WriterPC) : bool :=
  match w with WClosing | WReleasing | WDone => true | _ => false end.
Definition file_closed (w : WriterPC) : bool :=
  match w with WReleasing | WDone => true | _ => false end.

(** The record being written. *)
Definition in_flight (y : System) : list RecordNode :=
  match sys_writer y with
  | WWriting l => match sys_heap y !! l with Some (node, _) => [node] | None => [] end
  | _ => []
  end.

Record live_inv (y : System) (r : LsmProcessRecorder) (cells : list (loc * RecordNode)) : Prop := {
  li_queue : queue_rep (sys_heap y) r cells;
  li_heap : ∀ k, is_Some (sys_heap y !! k) ↔ k ∈ locs cells ∨ sys_writer y = WWriting k;
  li_flight : ∀ l, sys_writer y = WWriting l → l ∉ locs cells;
  li_bound : (length cells ≤ LSM_PROCESS_RECORDER_MAX_QUEUED)%nat;
  li_refs : pr_references r = owed y;
  li_order : sys_accepted y = sys_written y ++ in_flight y ++ sys_lost y ++ (snd <$> cells);
  li_stop : sys_owner y ≠ OOwns → pr_stop_requested r = true;
  li_failure : pr_failure r ≠ 0 → pr_stop_requested r = true;
  li_left : left_loop (sys_writer y) = true → pr_stop_requested r = true ∧ cells = [];
  li_blocked : sys_writer y = WBlocked → pr_stop_requested r = false ∧ cells = [];
  li_failing : ∀ e, sys_writer y = WFailing e → e ≠ 0 ∧ sys_lost y ≠ [];
  li_lost : sys_lost y ≠ [] →
            (∃ e, sys_writer y = WFailing e) ∨ (left_loop (sys_writer y) = true ∧ pr_failure r ≠ 0);
  li_file : pr_file r = negb (file_closed (sys_writer y));
  li_closes : sys_closes y = if file_closed (sys_writer y) then 1%nat else 0%nat;
}.

Definition inv_system (y : System) : Prop :=
  match sys_mem y with
  | Some r => (∃ cells, live_inv y r cells) ∧ (0 < owed y)%nat
  | None => owed y = 0%nat ∧ sys_heap y = ∅ ∧ sys_closes y = 1%nat
            ∧ sys_accepted y = sys_written y ++ sys_lost y
  end.

Lemma inv_initial : inv_system sys_initial.
Proof.
  split; [|unfold owed; simpl; lia]. exists [].
  split; simpl; try done; try lia; [|split; [by intros [??]|intros [?|?]; [set_solver|done]]].
  split; simpl; try done. constructor.
Qed.

(** With nothing queued and nothing in flight the heap is empty. *)
Lemma heap_empty y r :
  live_inv y r [] → left_loop (sys_writer y) = true → sys_heap y = ∅.
Proof.
  intros Hinv Hleft. apply map_eq. intros k. rewrite lookup_empty.
  apply eq_None_not_Some. rewrite (li_heap _ _ _ Hinv k).
  intros [Hk|Hk]; [set_solver|]. by rewrite Hk in Hleft.
Qed.

(** Dropping an owed reference once the file is closed. *)
Lemma recorder_release_inv y r z h' rest closed :
  live_inv y r [] → file_closed (sys_writer y) = true →
  recorder_release (sys_heap y) r = Some (h', rest, closed) →
  sys_mem z = rest → sys_heap z = h' → S (owed z) = owed y →
  file_closed (sys_writer z) = true →
  sys_accepted z = sys_accepted y → sys_written z = sys_written y → sys_lost z = sys_lost y →
  sys_closes z = (if closed : bool then S (sys_closes y) else sys_closes y) →
  inv_system z.
Proof.
  intros Hinv Hclosed Hrel Hmem Hheap Howed Hwz Hacc Hwr Hlost Hcl.
  assert (left_loop (sys_writer y) = true) as Hleft by by destruct (sys_writer y).
  assert (left_loop (sys_writer z) = true) as Hleftz by by destruct (sys_writer z).
  pose proof (heap_empty _ _ Hinv Hleft) as Hempty.
  pose proof (li_file _ _ _ Hinv) as Hfile. rewrite Hclosed in Hfile. simpl in Hfile.
  pose proof (li_refs _ _ _ Hinv) as Hrefs.
  destruct (li_left _ _ _ Hinv Hleft) as [Hstop _].
  pose proof (li_order _ _ _ Hinv) as Hord.
  assert (in_flight y = []) as Hfl by (unfold in_flight; by destruct (sys_writer y)).
  assert (in_flight z = []) as Hflz by (unfold in_flight; by destruct (sys_writer z)).
  rewrite Hfl in Hord. simpl in Hord. rewrite app_nil_r in Hord.
  unfold recorder_release in Hrel. unfold inv_system. rewrite Hmem.
  destruct (Nat.eqb_spec (pr_references r) 1) as [E|E]; simpl in Hrel.
  - unfold free_nodes in Hrel.
    rewrite (qr_linked _ _ _ (li_queue _ _ _ Hinv) : pr_head r = None) in Hrel.
    assert (rest = None ∧ h' = sys_heap y ∧ closed = pr_file r) as (-> & -> & ->).
    { destruct (size _) in Hrel; simpl in Hrel; by simplify_eq. }
    rewrite Hheap, Hempty, Hcl, Hfile, (li_closes _ _ _ Hinv), Hclosed, Hacc, Hwr, Hlost.
    split_and!; [lia|done|done|done].
  - injection Hrel as <- <- <-. split; [|lia]. exists [].
    pose proof (li_lost _ _ _ Hinv) as Hl.
    split; rewrite ?Hheap, ?Hflz, ?Hacc, ?Hwr, ?Hlost, ?Hcl; simpl; try done.
    + destruct (li_queue _ _ _ Hinv). by split.
    + intros k. rewrite Hempty, lookup_empty. split; [by intros [??]|].
      intros [Hk|Hk]; [set_solver|]. by rewrite Hk in Hleftz.
    + set_solver.
    + lia.
    + lia.
    + by rewrite app_nil_r.
    + by intros Hb; rewrite Hb in Hleftz.
    + by intros e He; rewrite He in Hleftz.
    + intros Hne. right. split; [done|]. destruct (Hl Hne) as [[e He]|[_ ?]]; [|done].
      by rewrite He in Hleft.
    + by rewrite Hwz.
    + rewrite (li_closes _ _ _ Hinv), Hclosed. by rewrite Hwz.
Qed.

(** Once the queue is known, so is what the writer takes. *)
Lemma begin_cases y r cells :
  live_inv y r cells →
  match cells with
  | [] => writer_begin (sys_heap y) r = Some (if pr_stop_requested r then Leave else Wait)
  | (l, node) :: rest =>
      ∃ r' next, writer_begin (sys_heap y) r = Some (Take l r')
        ∧ sys_heap y !! l = Some (node, next) ∧ queue_rep (sys_heap y) r' rest
        ∧ same_control r r'
  end.
Proof.
  intros Hinv. destruct cells as [|[l node] rest].
  - apply writer_begin_nil, Hinv.
  - apply writer_begin_cons, Hinv.
Qed.

(** Moves of the writer that change neither the heap nor the recorder. *)
Lemma writer_moves y r cells w :
  live_inv y r cells → sys_writer y = WTop →
  w = WBlocked ∧ pr_stop_requested r = false ∧ cells = []
  ∨ w = WClosing ∧ pr_stop_requested r = true ∧ cells = [] →
  live_inv (y <| sys_writer := w |>) r cells.
Proof.
  intros [] Hw Hcases. rewrite Hw in *. unfold owed, in_flight in *. simpl in *.
  rewrite Hw in *. simpl in *.
  destruct Hcases as [(-> & Hs & ->)|(-> & Hs & ->)]; split; simpl; try done; naive_solver.
Qed.

Lemma writer_take_inv y r l node cells r' :
  live_inv y r ((l, node) :: cells) → sys_writer y = WTop →
  queue_rep (sys_heap y) r' cells → same_control r r' →
  live_inv (y <| sys_mem := Some r' |> <| sys_writer := WWriting l |>) r' cells.
Proof.
  intros [] Hw Hq (Hf & Hr & Hfail & Hs).
  destruct (qr_linked _ _ _ li_queue0) as [_ (next & Hh & _)].
  pose proof (qr_nodup _ _ _ li_queue0) as Hnd. apply NoDup_cons in Hnd as [Hnin _].
  unfold owed, in_flight in *. rewrite Hw in *. simpl in *.
  assert (sys_lost y = []) as Hlost.
  { destruct (sys_lost y); [done|]. destruct li_lost0 as [[? [=]]|[[=] _]]. done. }
  split; simpl; try done; rewrite ?Hf, ?Hr, ?Hfail, ?Hs; try done.
  - intros k. rewrite li_heap0, elem_of_cons. simpl. split.
    + intros [[->|?]|[=]]; auto.
    + intros [?|[= ->]]; auto.
  - by intros ? [= <-].
  - lia.
  - unfold in_flight. simpl. rewrite Hh, Hlost. simpl. by rewrite li_order0, Hlost.

Qed.

(** The node in flight is the one cell outside the queue. *)
Lemma flight_cell y r cells l node next :
  live_inv y r cells → sys_writer y = WWriting l → sys_heap y !! l = Some (node, next) →
  in_flight y = [node] ∧ sys_lost y = []
  ∧ queue_rep (delete l (sys_heap y)) r cells
  ∧ (∀ k, is_Some (delete l (sys_heap y) !! k) ↔ k ∈ locs cells)
  ∧ sys_accepted y = sys_written y ++ [node] ++ (snd <$> cells).
Proof.
  intros [] Hw Hh. pose proof (li_flight0 l Hw) as Hnin.
  assert (in_flight y = [node]) as Hfl by (unfold in_flight; by rewrite Hw, Hh).
  assert (sys_lost y = []) as Hlost.
  { destruct (sys_lost y); [done|]. rewrite Hw in li_lost0.
    destruct li_lost0 as [[? [=]]|[[=] _]]. done. }
  split_and!; try done.
  - destruct li_queue0. split; try done. by apply linked_delete.
  - intros k. destruct (decide (k = l)) as [->|Hk].
    + rewrite lookup_delete_eq. split; [by intros [??]|done].
    + rewrite lookup_delete_ne, li_heap0 by done. rewrite Hw. naive_solver.
  - by rewrite li_order0, Hfl, Hlost.
Qed.

Lemma writer_wrote_inv y r cells l node next :
  live_inv y r cells → sys_writer y = WWriting l → sys_heap y !! l = Some (node, next) →
  live_inv (y <| sys_heap := delete l (sys_heap y) |> <| sys_writer := WTop |>
              <| sys_written := sys_written y ++ [node] |>) r cells.
Proof.
  intros Hinv Hw Hh. destruct (flight_cell _ _ _ _ _ _ Hinv Hw Hh) as (Hfl & Hlost & Hq & Hdom & Hacc).
  destruct Hinv. unfold owed in *. rewrite Hw in *.
  split; simpl; try done.
  - intros k. rewrite Hdom. naive_solver.
  - unfold in_flight. simpl. by rewrite Hacc, Hlost, <-app_assoc.
Qed.

Lemma writer_write_failed_inv y r cells l node next errno :
  live_inv y r cells → sys_writer y = WWriting l → sys_heap y !! l = Some (node, next) →
  live_inv (y <| sys_heap := delete l (sys_heap y) |>
              <| sys_writer := WFailing (errno_or_eio errno) |> <| sys_lost := [node] |>) r cells.
Proof.
  intros Hinv Hw Hh. destruct (flight_cell _ _ _ _ _ _ Hinv Hw Hh) as (Hfl & Hlost & Hq & Hdom & Hacc).
  destruct Hinv. unfold owed in *. rewrite Hw in *.
  split; simpl; try done.
  - intros k. rewrite Hdom. naive_solver.
  - intros e [= <-]. split; [|done]. unfold errno_or_eio. by destruct (Z.eqb_spec errno 0).
  - eauto.
Qed.

Lemma linked_functional h start cells cells' :
  linked h start cells → linked h start cells' → cells = cells'.
Proof.
  revert start cells'. induction cells as [|[l n] cells IH]; intros start [|[l' n'] cells']; simpl.
  - done.
  - by intros -> [[=] _].
  - by intros [-> _] [=].
  - intros [-> (next & Hh & Hr)] [[= <-] (next' & Hh' & Hr')].
    rewrite Hh in Hh'. injection Hh' as <- <-. f_equal. by eapply IH.
Qed.

Lemma writer_abandon_inv y r cells failure h' r' dropped :
  live_inv y r cells → sys_writer y = WFailing failure →
  linked (sys_heap y) (pr_head r) dropped →
  writer_fail (sys_heap y) r failure = Some (h', r') →
  live_inv (y <| sys_mem := Some r' |> <| sys_heap := h' |> <| sys_writer := WClosing |>
              <| sys_lost := sys_lost y ++ (snd <$> dropped) |>) r' [].
Proof.
  intros Hinv Hw Hd Hfail. destruct (free_queue _ _ _ (li_queue _ _ _ Hinv)) as (h1 & Hfree & Hlook).
  pose proof (linked_functional _ _ _ _ (qr_linked _ _ _ (li_queue _ _ _ Hinv)) Hd) as <-.
  unfold writer_fail in Hfail. rewrite Hfree in Hfail. injection Hfail as <- <-.
  destruct Hinv. destruct (li_failing0 _ Hw) as [Hfailure _]. unfold owed, in_flight in *. rewrite Hw in *.
  assert (∀ k, h1 !! k = None) as Hnone.
  { intros k. rewrite Hlook. destruct (decide _) as [|Hk]; [done|].
    apply eq_None_not_Some. rewrite li_heap0. by intros [?|[=]]. }
  destruct (Z.eqb_spec (pr_failure r) 0); split; simpl; try done; try lia.
  all: match goal with
       | |- queue_rep _ _ _ => split; simpl; try done; apply NoDup_nil_2
       | |- ∀ _, is_Some _ ↔ _ =>
           intros k; rewrite Hnone; split;
             [by intros [??]|intros [Hk|[=]]; by apply not_elem_of_nil in Hk]
       | |- sys_accepted _ = _ => by rewrite app_nil_r, li_order0
       | |- _ ≠ [] → _ => intros _; by right
       end.
Qed.

Lemma writer_close_inv y r cells close_error :
  live_inv y r cells → sys_writer y = WClosing →
  live_inv (y <| sys_mem := Some (writer_close r close_error) |> <| sys_writer := WReleasing |>
              <| sys_closes := if pr_file r then S (sys_closes y) else sys_closes y |>)
           (writer_close r close_error) cells.
Proof.
  intros Hinv Hw. destruct Hinv. unfold owed, in_flight in *. rewrite Hw in *. simpl in *.
  unfold writer_close. rewrite li_file0, li_closes0. destruct (li_left0 eq_refl) as [Hs ->].
  destruct close_error as [errno|]; [destruct (pr_failure r =? 0) eqn:Ef|];
    (split; simpl; [destruct li_queue0; by split|..]); try done.
  all: try (intros k; rewrite li_heap0; split; by intros [?|[=]]; auto).
  all: intros Hne; right; split; [done|]; destruct (li_lost0 Hne) as [[? [=]]|[_ Hf]];
    bool_hyps; done.
Qed.

(** A wake-up (signalled or spurious) does not disturb the invariant. *)
Lemma wake_inv y r cells s :
  live_inv y r cells → live_inv (y <| sys_writer := wake s (sys_writer y) |>) r cells.
Proof.
  intros Hinv. destruct (sys_writer y) eqn:Hw; simpl.
  2: destruct s.
  all: destruct Hinv; unfold owed, in_flight in *; rewrite Hw in *; split;
    unfold in_flight; simpl; try done.
  - intros k; rewrite li_heap0; split; by intros [?|[=]]; auto.
  - intros Hne. by destruct (li_lost0 Hne) as [[? [=]]|[[=] _]].
Qed.

Lemma spurious_inv y r cells :
  live_inv y r cells → sys_writer y = WBlocked → live_inv (y <| sys_writer := WTop |>) r cells.
Proof. intros Hinv Hw. pose proof (wake_inv _ _ _ true Hinv) as H. by rewrite Hw in H. Qed.

(** [append] either leaves the queue alone or links one node; when it changes
    anything it signals the writer, so the writer is not left asleep. *)
Lemma append_cases y r cells alloc node ok h' r' signalled :
  live_inv y r cells → (∀ l, alloc = Some l → sys_heap y !! l = None) →
  lsm_process_recorder_append (sys_heap y) r alloc node = Some (ok, h', r', signalled) →
  (ok = false ∧ h' = sys_heap y ∧ r' = r ∧ signalled = false)
  ∨ (ok = false ∧ h' = sys_heap y ∧ signalled = true ∧ pr_failure r = 0
     ∧ r' = r <| pr_failure := ENOBUFS |> <| pr_stop_requested := true |>)
  ∨ (ok = true ∧ signalled = true ∧ pr_stop_requested r = false ∧ pr_failure r = 0
     ∧ (length cells < LSM_PROCESS_RECORDER_MAX_QUEUED)%nat
     ∧ ∃ l, alloc = Some l ∧ queue_rep h' r' (cells ++ [(l, node)]) ∧ same_control r r'
            ∧ sys_heap y !! l = None
            ∧ ∀ k, k ∉ locs (cells ++ [(l, node)]) → h' !! k = sys_heap y !! k).
Proof.
  intros Hinv Halloc. unfold lsm_process_recorder_append.
  destruct alloc as [l|]; [|intros [= <- <- <- <-]; auto].
  destruct (pr_stop_requested r) eqn:Hs; simpl; [intros [= <- <- <- <-]; auto|].
  destruct (Z.eqb_spec (pr_failure r) 0) as [Hf|]; simpl; [|intros [= <- <- <- <-]; auto].
  rewrite (qr_queued _ _ _ (li_queue _ _ _ Hinv)).
  destruct (Nat.leb_spec LSM_PROCESS_RECORDER_MAX_QUEUED (length cells)) as [Hfull|Hroom].
  { intros [= <- <- <- <-]. right. left. done. }
  specialize (Halloc l eq_refl).
  destruct (queue_push_spec _ _ _ l node (li_queue _ _ _ Hinv) Halloc)
    as (h1 & r1 & -> & Hq & Hctl & Hrest).
  intros [= <- <- <- <-]. right. right. split_and!; try done. exists l. by split_and!.
Qed.

Lemma append_inv y r cells alloc node ok h' r' signalled :
  live_inv y r cells → sys_owner y = OOwns →
  (∀ l, alloc = Some l → sys_heap y !! l = None) →
  lsm_process_recorder_append (sys_heap y) r alloc node = Some (ok, h', r', signalled) →
  ∃ cells', live_inv (y <| sys_mem := Some r' |> <| sys_heap := h' |>
              <| sys_writer := wake signalled (sys_writer y) |>
              <| sys_accepted := if ok : bool then sys_accepted y ++ [node] else sys_accepted y |>)
            r' cells'.
Proof.
  intros Hinv Hown Halloc Happ.
  pose proof (wake_inv _ _ _ signalled Hinv) as Hwoken.
  destruct (append_cases _ _ _ _ _ _ _ _ _ Hinv Halloc Happ)
    as [(-> & -> & -> & ->)|[(-> & -> & -> & Hf & ->)|
        (-> & -> & Hs & Hf & Hroom & l & -> & Hq & (Hcf & Hcr & Hcfail & Hcs) & Hnew & Hframe)]].
  - exists cells. destruct Hwoken; split; done.
  - exists cells. destruct Hwoken, (li_queue _ _ _ Hinv). split; simpl; try done.
    + intros Hleft. split; [done|]. by apply li_left0.
    + intros Hb. by destruct (sys_writer y).
    + intros Hne. destruct (li_lost0 Hne) as [|[Hleft _]]; [by left|right]. done.
  - exists (cells ++ [(l, node)]).
    assert (left_loop (sys_writer y) = false) as Hleft.
    { destruct (left_loop (sys_writer y)) eqn:E; [|done].
      destruct (li_left _ _ _ Hinv E) as [E' _]. by rewrite Hs in E'. }
    assert (∀ k, sys_writer y = WWriting k → k ∉ locs (cells ++ [(l, node)])) as Hflight.
    { intros k Hk. unfold locs. rewrite fmap_app, elem_of_app. simpl.
      intros [Hin|Hin%list_elem_of_singleton]; [by apply (li_flight _ _ _ Hinv k Hk)|subst k].
      assert (is_Some (sys_heap y !! l)) as [? ?]; [|congruence].
      apply (li_heap _ _ _ Hinv). auto. }
    assert (in_flight (y <| sys_heap := h' |>) = in_flight y) as Hfl.
    { unfold in_flight. simpl. destruct (sys_writer y) eqn:Hw; try done. by rewrite Hframe by auto. }
    assert (∀ k, wake true (sys_writer y) = WWriting k ↔ sys_writer y = WWriting k) as Hw
      by (intros k; by destruct (sys_writer y)).
    destruct Hwoken. split; simpl in *; rewrite ?Hcf, ?Hcr, ?Hcfail, ?Hcs; try done.
    + intros k. destruct (decide (k ∈ locs (cells ++ [(l, node)]))) as [Hin|Hout].
      * split; [auto|]. intros _. eapply linked_dom; [apply Hq|done].
      * rewrite Hframe by done. rewrite Hw, (li_heap _ _ _ Hinv k).
        unfold locs in *. rewrite fmap_app, elem_of_app in *. naive_solver.
    + intros k. rewrite Hw. auto.
    + rewrite length_app. simpl. lia.
    + rewrite fmap_app. simpl. rewrite (li_order _ _ _ Hinv), <-Hfl.
      unfold in_flight at 2. simpl. unfold in_flight. simpl.
      destruct (sys_writer y); simpl; by rewrite <-!app_assoc.
    + intros E. by destruct (sys_writer y).
    + intros E. by destruct (sys_writer y).
Qed.

Lemma stop_inv y r cells :
  live_inv y r cells → sys_owner y = OOwns →
  live_inv (y <| sys_mem := Some (stop_locked r) |> <| sys_owner := OJoining |>
              <| sys_writer := wake true (sys_writer y) |>) (stop_locked r) cells.
Proof.
  intros Hinv Hown. pose proof (wake_inv _ _ _ true Hinv) as Hwoken.
  destruct Hwoken, (li_queue _ _ _ Hinv). unfold owed in *. simpl in *. rewrite Hown in *.
  split; simpl in *; try done.
  - intros Hleft. split; [done|]. by apply li_left0.
  - intros Hb. by destruct (sys_writer y).
Qed.

Lemma join_inv y r cells :
  live_inv y r cells → sys_owner y = OJoining →
  live_inv (y <| sys_owner := OReleasing |>) r cells.
Proof.
  intros [] Hown. unfold owed in *. rewrite Hown in *. split; simpl in *; try done.
  intros _. by apply li_stop0.
Qed.

(** A release by the owner while the writer still runs. *)
Lemma owner_release_early y r cells h' rest closed :
  live_inv y r cells → sys_owner y = OReleasing → sys_writer y ≠ WDone →
  recorder_release (sys_heap y) r = Some (h', rest, closed) →
  ∃ r', h' = sys_heap y ∧ rest = Some r' ∧ closed = false
  ∧ live_inv (y <| sys_mem := Some r' |> <| sys_owner := OGone |>) r' cells.
Proof.
  intros Hinv Hown Hw Hrel.
  assert (pr_references r = 2%nat) as Href.
  { rewrite (li_refs _ _ _ Hinv). unfold owed. rewrite Hown. by destruct (sys_writer y). }
  unfold recorder_release in Hrel. rewrite Href in Hrel. simpl in Hrel.
  injection Hrel as <- <- <-. eexists. split_and!; try done.
  destruct Hinv, li_queue0. split; simpl; try done.
  - unfold owed. simpl. by destruct (sys_writer y).
  - intros _. apply li_stop0. by rewrite Hown.
Qed.

Lemma inv_intro y r cells :
  sys_mem y = Some r → live_inv y r cells → (0 < owed y)%nat → inv_system y.
Proof. intros Hm Hinv Ho. unfold inv_system. rewrite Hm. eauto. Qed.

Lemma writer_step_inv y z : inv_system y → writer_step y z → inv_system z.
Proof.
  intros Hy Hstep. unfold inv_system in Hy.
  destruct Hstep as [y r Hm Hw Hb|y r Hm Hw Hb|y r l r' Hm Hw Hb|y l node next Hw Hh
    |y l node next errno Hw Hh|y r failure h' r' dropped Hm Hw Hd Hf
    |y r close_error Hm Hw|y r h' rest closed Hm Hw Hrel].
  1-3: rewrite Hm in Hy; destruct Hy as [[cells Hinv] Howed];
    pose proof (begin_cases _ _ _ Hinv) as Hc; rewrite Hb in Hc.
  - destruct cells as [|[??] ?]; [|by destruct Hc as (?&?&[=]&_)].
    destruct (pr_stop_requested r) eqn:Hs; [done|]. 
    apply (inv_intro _ r []); [done|apply writer_moves; auto|unfold owed in *; by rewrite Hw in Howed].
  - destruct cells as [|[??] ?]; [|by destruct Hc as (?&?&[=]&_)].
    destruct (pr_stop_requested r) eqn:Hs; [|done]. 
    apply (inv_intro _ r []); [done|apply writer_moves; auto 6|unfold owed in *; by rewrite Hw in Howed].
  - destruct cells as [|[k n] cells]; [by destruct (pr_stop_requested r)|].
    destruct Hc as (r1 & next & [= <- <-] & Hh & Hq & Hctl).
    split; [exists cells; by eapply writer_take_inv|unfold owed in *; by rewrite Hw in Howed].
  - destruct (sys_mem y) as [r|] eqn:Hm; [|destruct Hy as [Ho _]; unfold owed in Ho; by rewrite Hw in Ho].
    destruct Hy as [[cells Hinv] Howed]. 
    apply (inv_intro _ r cells); [done|by eapply writer_wrote_inv|unfold owed in *; by rewrite Hw in Howed].
  - destruct (sys_mem y) as [r|] eqn:Hm; [|destruct Hy as [Ho _]; unfold owed in Ho; by rewrite Hw in Ho].
    destruct Hy as [[cells Hinv] Howed]. 
    apply (inv_intro _ r cells); [done|by eapply writer_write_failed_inv|unfold owed in *; by rewrite Hw in Howed].
  - rewrite Hm in Hy. destruct Hy as [[cells Hinv] Howed].
    split; [exists []; by eapply writer_abandon_inv|unfold owed in *; by rewrite Hw in Howed].
  - rewrite Hm in Hy. destruct Hy as [[cells Hinv] Howed].
    split; [exists cells; by apply writer_close_inv|unfold owed in *; by rewrite Hw in Howed].
  - rewrite Hm in Hy. destruct Hy as [[cells Hinv] Howed].
    destruct (li_left _ _ _ Hinv) as [_ ->]; [by rewrite Hw|].
    eapply (recorder_release_inv y r); try done; rewrite ?Hw; try done. unfold owed. by rewrite Hw.
Qed.

Lemma step_inv y z : inv_system y → step y z → inv_system z.
Proof.
  intros Hy Hstep. destruct Hstep as [y z Hstep|y r Hm Hw
    |y r alloc now process ok h' r' signalled Hm Hown Halloc Happ
    |y r Hm Hown|y Hown|y r h' rest closed Hm Hown Hrel].
  - by eapply writer_step_inv.
  - unfold inv_system in Hy. rewrite Hm in Hy. destruct Hy as [[cells Hinv] Howed].
    apply (inv_intro _ r cells); [done|by apply spurious_inv|unfold owed in *; by rewrite Hw in Howed].
  - unfold inv_system in Hy. rewrite Hm in Hy. destruct Hy as [[cells Hinv] Howed].
    split; [by eapply append_inv|]. unfold owed in *. simpl. rewrite Hown. simpl. lia.
  - unfold inv_system in Hy. rewrite Hm in Hy. destruct Hy as [[cells Hinv] Howed].
    split; [exists cells; by apply stop_inv|]. unfold owed. simpl. lia.
  - unfold inv_system in Hy. destruct (sys_mem y) as [r|] eqn:Hm.
    + destruct Hy as [[cells Hinv] Howed].
      apply (inv_intro _ r cells); [done|by apply join_inv|]. unfold owed. simpl. lia.
    + destruct Hy as [Ho _]. unfold owed in Ho. rewrite Hown in Ho. simpl in Ho. lia.
  - unfold inv_system in Hy. rewrite Hm in Hy. destruct Hy as [[cells Hinv] Howed].
    destruct (decide (sys_writer y = WDone)) as [Hd|Hd].
    + destruct (li_left _ _ _ Hinv) as [_ ->]; [by rewrite Hd|].
      eapply (recorder_release_inv y r); try done; simpl; rewrite ?Hd; try done.
      unfold owed. rewrite Hown. simpl. rewrite Hd. done.
    + destruct (owner_release_early _ _ _ _ _ _ Hinv Hown Hd Hrel) as (r' & -> & -> & -> & Hz).
      split; [exists cells|].
      * destruct Hz. split; done.
      * unfold owed. simpl. by destruct (sys_writer y); simpl; try lia.
Qed.

Lemma recorder_reachable_inv y : reachable y → inv_system y.
Proof. induction 1; [apply inv_initial|by eapply step_inv]. Qed.

(** ** Progress of the writer *)

(** Writer steps left once a stop was requested. *)
Definition pc_measure (w : WriterPC) (queued : nat) : nat :=
  match w with
  | WTop | WBlocked => 4 + 2 * queued
  | WWriting _ => 5 + 2 * queued
  | WFailing _ => 3
  | WClosing => 2
  | WReleasing => 1
  | WDone => 0
  end.

Definition writer_bound (y : System) : nat :=
  match sys_mem y with Some r => pc_measure (sys_writer y) (pr_queued r) | None => 0 end.

Lemma stopped_memory y :
  inv_system y → sys_writer y ≠ WDone → ∃ r cells, sys_mem y = Some r ∧ live_inv y r cells.
Proof.
  unfold inv_system. destruct (sys_mem y) as [r|]; [intros [[cells ?] _]; eauto|].
  intros [Ho _] Hw. unfold owed in Ho. by destruct (sys_writer y).
Qed.

Lemma writer_step_decreases y z :
  inv_system y → sys_owner y ≠ OOwns → writer_step y z →
  (writer_bound z < writer_bound y)%nat ∧ sys_owner z = sys_owner y
  ∧ sys_accepted z = sys_accepted y.
Proof.
  intros Hy Hown Hstep.
  destruct (stopped_memory y Hy) as (r0 & cells & Hm0 & Hinv); [by destruct Hstep; congruence|].
  pose proof (li_stop _ _ _ Hinv Hown) as Hstop.
  destruct Hstep as [y r Hm Hw Hb|y r Hm Hw Hb|y r l r' Hm Hw Hb|y l node next Hw Hh
    |y l node next errno Hw Hh|y r failure h' r' dropped Hm Hw Hd Hf
    |y r close_error Hm Hw|y r h' rest closed Hm Hw Hrel];
    try (rewrite Hm in Hm0; injection Hm0 as <-); (split; [|done]).
  1-3: pose proof (begin_cases _ _ _ Hinv) as Hc; rewrite Hb in Hc.
  - destruct cells as [|[??] ?]; [by rewrite Hstop in Hc|by destruct Hc as (?&?&[=]&_)].
  - unfold writer_bound. simpl. rewrite Hm, Hw. simpl. lia.
  - destruct cells as [|[k n] cells]; [by destruct (pr_stop_requested r)|].
    destruct Hc as (r1 & next & [= <- <-] & Hh & Hq & Hctl).
    unfold writer_bound. simpl. rewrite Hm, Hw, (qr_queued _ _ _ (li_queue _ _ _ Hinv)).
    rewrite (qr_queued _ _ _ Hq). simpl. lia.
  - unfold writer_bound. simpl. rewrite Hm0, Hw. simpl. lia.
  - unfold writer_bound. simpl. rewrite Hm0, Hw. simpl. lia.
  - unfold writer_bound. simpl. rewrite Hm, Hw. simpl. lia.
  - unfold writer_bound. simpl. rewrite Hm, Hw. simpl. lia.
  - unfold writer_bound. simpl. rewrite Hm, Hw. destruct rest; simpl; lia.
Qed.

Lemma release_defined h r cells :
  queue_rep h r cells → is_Some (recorder_release h r).
Proof.
  intros Hq. unfold recorder_release. destruct (negb _); [eauto|].
  destruct (free_queue _ _ _ Hq) as (h' & -> & _). eauto.
Qed.

(** A stopped writer is never stuck, and if nothing was lost it can go on
    without losing anything. *)
Lemma writer_progress y :
  inv_system y → sys_owner y ≠ OOwns → sys_writer y ≠ WDone →
  ∃ z, writer_step y z ∧ (sys_lost y = [] → sys_lost z = []).
Proof.
  intros Hy Hown Hw. destruct (stopped_memory y Hy Hw) as (r & cells & Hm & Hinv).
  pose proof (li_stop _ _ _ Hinv Hown) as Hstop.
  destruct (sys_writer y) as [| |l|e| | |] eqn:Hpc; [| | | | | |done].
  - pose proof (begin_cases _ _ _ Hinv) as Hc. destruct cells as [|[l n] cells].
    + rewrite Hstop in Hc. eexists. split; [by eapply writer_leave|done].
    + destruct Hc as (r' & next & Hb & _). eexists. split; [by eapply writer_take|done].
  - destruct (li_blocked _ _ _ Hinv Hpc). congruence.
  - destruct (proj2 (li_heap _ _ _ Hinv l) (or_intror Hpc)) as [[node next] Hh].
    eexists. split; [by eapply writer_wrote|done].
  - destruct (free_queue _ _ _ (li_queue _ _ _ Hinv)) as (h' & Hf & _).
    eexists. split.
    + eapply writer_abandon; try done; [apply Hinv|]. unfold writer_fail. by rewrite Hf.
    + intros Hlost. by destruct (li_failing _ _ _ Hinv e Hpc).
  - eexists. split; [by apply (writer_closed _ r None)|done].
  - destruct (release_defined _ _ _ (li_queue _ _ _ Hinv)) as [[[h' rest] closed] Hrel].
    eexists. split; [by eapply writer_release|done].
Qed.

Lemma writer_finishes y :
  inv_system y → sys_owner y ≠ OOwns →
  ∃ z, rtc writer_step y z ∧ sys_writer z = WDone ∧ inv_system z
       ∧ sys_accepted z = sys_accepted y ∧ (sys_lost y = [] → sys_lost z = []).
Proof.
  remember (writer_bound y) as n eqn:Hn. revert y Hn.
  induction n as [n IH] using lt_wf_ind. intros y -> Hy Hown.
  destruct (decide (sys_writer y = WDone)) as [Hd|Hd]; [by exists y|].
  destruct (writer_progress y Hy Hown Hd) as (x & Hstep & Hlost).
  destruct (writer_step_decreases y x Hy Hown Hstep) as (Hlt & Hox & Hax).
  destruct (IH _ Hlt x eq_refl) as (z & Hrtc & Hz & Hiz & Haz & Hlz).
  - by eapply writer_step_inv.
  - by rewrite Hox.
  - exists z. split_and!; try done; [by eapply rtc_l|congruence|auto].
Qed.

Lemma writer_steps_bounded n y z :
  inv_system y → sys_owner y ≠ OOwns → nsteps writer_step n y z → (n ≤ writer_bound y)%nat.
Proof.
  intros Hy Hown Hsteps. revert Hy Hown.
  induction Hsteps as [y|n y x z Hstep _ IH]; intros Hy Hown; [lia|].
  destruct (writer_step_decreases y x Hy Hown Hstep) as (Hlt & Hox & _).
  assert (n ≤ writer_bound x)%nat; [|lia].
  apply IH; [by eapply writer_step_inv|by rewrite Hox].
Qed.

(** ** Theorems *)

(** What the file holds once the writer is done and lost nothing. *)
Lemma done_written y :
  inv_system y → sys_writer y = WDone → sys_lost y = [] → sys_written y = sys_accepted y.
Proof.
  unfold inv_system. intros Hy Hw Hl. destruct (sys_mem y) as [r|].
  - destruct Hy as [[cells Hinv] _]. rewrite (li_order _ _ _ Hinv), Hl.
    destruct (li_left _ _ _ Hinv) as [_ ->]; [by rewrite Hw|].
    unfold in_flight. rewrite Hw. simpl. by rewrite app_nil_r.
  - destruct Hy as (_ & _ & _ & ->). by rewrite Hl, app_nil_r.
Qed.

(** (C1) At every moment of every interleaving the file holds a
    prefix of the accepted records, in order and without duplicates; and when
    the writer has finished and the recorder reports no error, the file holds
    every record [append] accepted. *)
Theorem recorder_no_silent_loss y :
  reachable y →
  sys_written y `prefix_of` sys_accepted y
  ∧ (sys_writer y = WDone → lsm_process_recorder_error (sys_mem y) = 0 →
     sys_written y = sys_accepted y).
Proof.
  intros Hy%recorder_reachable_inv. split.
  - unfold inv_system in Hy. destruct (sys_mem y) as [r|].
    + destruct Hy as [[cells Hinv] _]. rewrite (li_order _ _ _ Hinv). by eexists.
    + destruct Hy as (_ & _ & _ & ->). by eexists.
  - intros Hw Herr. apply done_written; try done.
    unfold inv_system in Hy. destruct (sys_mem y) as [r|]; [|done].
    destruct Hy as [[cells Hinv] _]. destruct (sys_lost y) as [|? ?] eqn:Hl; [done|].
    destruct (li_lost _ _ _ Hinv) as [[e He]|[_ Hf]]; [by rewrite Hl|congruence|done].
Qed.

(** (C38) After a stop request the writer finishes: no schedule gives it
    more than [writer_bound] steps, it is never blocked or stuck before it is
    done, and when no write fails every accepted record reaches the file. *)
Theorem recorder_stop_drains y :
  reachable y → sys_owner y ≠ OOwns →
  (∀ n z, nsteps writer_step n y z → (n ≤ writer_bound y)%nat)
  ∧ (sys_writer y ≠ WDone → ∃ z, writer_step y z)
  ∧ ∃ z, rtc writer_step y z ∧ sys_writer z = WDone
         ∧ (sys_lost y = [] → sys_written z = sys_accepted y).
Proof.
  intros Hy%recorder_reachable_inv Hown. split_and!.
  - intros n z. by apply writer_steps_bounded.
  - intros Hw. destruct (writer_progress y Hy Hown Hw) as (z & Hz & _). eauto.
  - destruct (writer_finishes y Hy Hown) as (z & Hr & Hw & Hiz & Ha & Hl).
    exists z. split_and!; try done. intros Hlost. rewrite <-Ha. apply done_written; auto.
Qed.

(** (C36) The recorder is freed exactly when both threads have dropped it;
    by then the file was closed exactly once and no queued node leaked.  Until
    then no operation can follow a dangling pointer. *)
Theorem recorder_memory_safe y :
  reachable y →
  (sys_mem y = None ↔ sys_writer y = WDone ∧ sys_owner y = OGone)
  ∧ (sys_mem y = None → sys_heap y = ∅ ∧ sys_closes y = 1%nat)
  ∧ (∀ r, sys_mem y = Some r →
       (∀ alloc node, (∀ l, alloc = Some l → sys_heap y !! l = None) →
          is_Some (lsm_process_recorder_append (sys_heap y) r alloc node))
       ∧ is_Some (writer_begin (sys_heap y) r)
       ∧ (∀ failure, is_Some (writer_fail (sys_heap y) r failure))
       ∧ is_Some (recorder_release (sys_heap y) r)
       ∧ (∀ l, sys_writer y = WWriting l → is_Some (sys_heap y !! l))).
Proof.
  intros Hy%recorder_reachable_inv. unfold inv_system in Hy. destruct (sys_mem y) as [r|] eqn:Hm.
  - destruct Hy as [[cells Hinv] Ho]. split_and!; [|done|].
    + split; [done|]. intros [Hw Hg]. unfold owed in Ho. rewrite Hw, Hg in Ho. simpl in Ho. lia.
    + intros ? [= <-]. split_and!.
      * intros alloc node Hfresh. unfold lsm_process_recorder_append.
        destruct alloc as [l|]; [|eauto]. destruct (_ || _); [eauto|].
        destruct (_ <=? _)%nat; [eauto|].
        destruct (queue_push_spec _ _ _ l node (li_queue _ _ _ Hinv) (Hfresh l eq_refl))
          as (h1 & r1 & -> & _). eauto.
      * pose proof (begin_cases _ _ _ Hinv) as Hc. destruct cells as [|[l n] cells].
        -- rewrite Hc. eauto.
        -- destruct Hc as (r' & next & -> & _). eauto.
      * intros failure. unfold writer_fail.
        destruct (free_queue _ _ _ (li_queue _ _ _ Hinv)) as (h' & -> & _). eauto.
      * apply (release_defined _ _ cells), Hinv.
      * intros l Hl. apply (li_heap _ _ _ Hinv). auto.
  - destruct Hy as (Ho & Hh & Hc & _). split_and!; try done.
    split; [|done]. intros _. unfold owed in Ho.
    by destruct (sys_writer y), (sys_owner y).
Qed.

(** Backpressure: at most 4096 records are ever queued.  An append
    is accepted exactly when a node can be allocated, nothing failed, no stop was
    requested and there is room; a full queue is reported as [ENOBUFS], stops
    the recording, and wakes the writer to drain what was accepted. *)
Theorem recorder_backpressure y r alloc now process :
  reachable y → sys_mem y = Some r →
  (∀ l, alloc = Some l → sys_heap y !! l = None) →
  (pr_queued r ≤ LSM_PROCESS_RECORDER_MAX_QUEUED)%nat ∧
  ∃ ok h' r' signalled,
    lsm_process_recorder_append (sys_heap y) r alloc (node_of_process now process)
      = Some (ok, h', r', signalled)
    ∧ (ok = true ↔ is_Some alloc ∧ pr_stop_requested r = false ∧ pr_failure r = 0
                   ∧ (pr_queued r < LSM_PROCESS_RECORDER_MAX_QUEUED)%nat)
    ∧ (ok = false → h' = sys_heap y)
    ∧ (is_Some alloc → pr_stop_requested r = false →
       pr_queued r = LSM_PROCESS_RECORDER_MAX_QUEUED →
       lsm_process_recorder_error (Some r') = ENOBUFS ∧ pr_stop_requested r' = true
       ∧ signalled = true).
Proof.
  intros Hy%recorder_reachable_inv Hm Hfresh. unfold inv_system in Hy. rewrite Hm in Hy.
  destruct Hy as [[cells Hinv] _].
  rewrite (qr_queued _ _ _ (li_queue _ _ _ Hinv)). split; [apply Hinv|].
  pose proof (li_failure _ _ _ Hinv) as Hfs.
  unfold lsm_process_recorder_append. destruct alloc as [l|].
  2: { eexists _, _, _, _. split; [done|].
       split; [by split; [done|intros [[? [=]] _]]|]. by split; [done|intros [? [=]]]. }
  destruct (pr_stop_requested r) eqn:Hs; simpl.
  { eexists _, _, _, _. split; [done|].
    split; [by split; [done|intros (_ & [=] & _)]|]. by split. }
  destruct (Z.eqb_spec (pr_failure r) 0) as [Hf|Hf]; simpl.
  2: { specialize (Hfs Hf). congruence. }
  rewrite (qr_queued _ _ _ (li_queue _ _ _ Hinv)).
  destruct (Nat.leb_spec LSM_PROCESS_RECORDER_MAX_QUEUED (length cells)) as [Hfull|Hroom].
  - eexists _, _, _, _. split; [done|].
    split; [split; [done|intros (_ & _ & _ & ?); lia]|]. by split.
  - destruct (queue_push_spec _ _ _ l (node_of_process now process) (li_queue _ _ _ Hinv)
      (Hfresh l eq_refl)) as (h1 & r1 & -> & _).
    eexists _, _, _, _. split; [done|].
    split; [split; [intros _; split_and!; eauto|done]|]. split; [done|]. intros _ _ Heq. lia.
Qed.

(** ** Witnesses *)

Definition sample_process : LsmProcessInfo := process_zero <| p_pid := 42 |> <| p_threads := 3 |>.
Definition sample_record : RecordNode := node_of_process 1700000000 sample_process.

(** One record accepted, then a stop request. *)
Lemma sample_stopping :
  ∃ y r, reachable y ∧ sys_mem y = Some r ∧ sys_owner y = OJoining ∧ sys_writer y = WTop
         ∧ sys_accepted y = [sample_record] ∧ sys_written y = [] ∧ sys_lost y = []
         ∧ pr_queued r = 1%nat ∧ pr_stop_requested r = true.
Proof.
  eexists _, _. split.
  - eapply reach_step; [eapply reach_step; [apply reach_initial|]|].
    + eapply (step_append _ _ (Some 1%positive) 1700000000 sample_process); [done|done|done|].
      vm_compute. reflexivity.
    + eapply step_stop; done.
  - split_and!; reflexivity.
Qed.

(** The same run continued until the writer is done. *)
Lemma sample_done :
  ∃ y, reachable y ∧ sys_writer y = WDone ∧ lsm_process_recorder_error (sys_mem y) = 0
       ∧ sys_accepted y = [sample_record].
Proof.
  eexists. split.
  - eapply reach_step; [eapply reach_step; [eapply reach_step; [eapply reach_step; [eapply reach_step;
      [eapply reach_step; [eapply reach_step; [apply reach_initial|]|]|]|]|]|]|].
    + eapply (step_append _ _ (Some 1%positive) 1700000000 sample_process); [done|done|done|].
      vm_compute. reflexivity.
    + eapply step_stop; done.
    + eapply step_writer, writer_take; [done|done|]. vm_compute. reflexivity.
    + eapply step_writer, writer_wrote; [done|]. vm_compute. reflexivity.
    + eapply step_writer, writer_leave; done.
    + eapply step_writer. by eapply (writer_closed _ _ None).
    + eapply step_writer, writer_release; done.
  - split_and!; reflexivity.
Qed.

Lemma recorder_no_silent_loss_witness :
  ∃ y, reachable y ∧ sys_written y = [sample_record].
Proof.
  destruct sample_done as (y & Hy & Hw & He & Ha). exists y. split; [exact Hy|].
  rewrite <-Ha. exact (proj2 (recorder_no_silent_loss y Hy) Hw He).
Defined.

Lemma recorder_stop_drains_witness :
  ∃ y z, reachable y ∧ sys_written y = [] ∧ rtc writer_step y z
         ∧ sys_writer z = WDone ∧ sys_written z = [sample_record].
Proof.
  destruct sample_stopping as (y & r & Hy & Hm & Ho & Hw & Ha & Hwr & Hl & _).
  assert (Hown : sys_owner y ≠ OOwns) by (rewrite Ho; discriminate).
  destruct (proj2 (proj2 (recorder_stop_drains y Hy Hown))) as (z & Hrtc & Hz & Hall).
  exists y, z. rewrite <-Ha. exact (conj Hy (conj Hwr (conj Hrtc (conj Hz (Hall Hl))))).
Defined.

Lemma recorder_memory_safe_witness :
  ∃ y, reachable y ∧ sys_owner y = OJoining ∧ is_Some (sys_mem y)
       ∧ ¬ (sys_writer y = WDone ∧ sys_owner y = OGone).
Proof.
  destruct sample_stopping as (y & r & Hy & Hm & Ho & _). exists y.
  split; [exact Hy|]. split; [exact Ho|]. split; [exists r; exact Hm|].
  intros Hboth. apply (proj1 (recorder_memory_safe y Hy)) in Hboth. congruence.
Defined.

Lemma recorder_backpressure_witness :
  ∃ y r, reachable y ∧ sys_mem y = Some r
         ∧ lsm_process_recorder_append (sys_heap y) r None sample_record
           = Some (false, sys_heap y, r, false)
         ∧ (pr_queued r ≤ LSM_PROCESS_RECORDER_MAX_QUEUED)%nat.
Proof.
  destruct sample_stopping as (y & r & Hy & Hm & _). exists y, r.
  split; [exact Hy|]. split; [exact Hm|]. split; [reflexivity|].
  refine (proj1 (recorder_backpressure y r None 0 sample_process Hy Hm _)). intros l [=].
Defined.
