(* ===== verification/CpuAccounting.v ===== *)
(** * CpuAccounting: scheduler counters of /proc/stat

    Models [src/src/cpu_accounting.c]: the defensive parser of a /proc/stat
    payload and the application of a parsed sample to the published CPU metrics
    and the retained counter baselines. *)
From S2P Require Import Prelude Double CStrings Common MonitorTypes.
Local Open Scope Z_scope.

(** src: cpu_accounting.h:20-25 LsmCpuCounters *)
Record LsmCpuCounters := { cc_total : Z; cc_idle : Z; cc_user : Z; cc_kernel : Z }.
#[export] Instance eta_LsmCpuCounters : Eta LsmCpuCounters := λ x,
  Build_LsmCpuCounters (cc_total x) (cc_idle x) (cc_user x) (cc_kernel x).

Definition zero_counters : LsmCpuCounters :=
  {| cc_total := 0; cc_idle := 0; cc_user := 0; cc_kernel := 0 |}.

(** src: cpu_accounting.h:28-33 LsmCpuAccountingState *)
Record LsmCpuAccountingState := {
  cs_previous : list LsmCpuCounters;
  cs_previous_interrupt_count : Z;
  cs_previous_context_switch_count : Z;
  cs_scheduler_events_initialized : bool;
}.
#[export] Instance eta_LsmCpuAccountingState : Eta LsmCpuAccountingState := λ x,
  Build_LsmCpuAccountingState (cs_previous x) (cs_previous_interrupt_count x)
    (cs_previous_context_switch_count x) (cs_scheduler_events_initialized x).

(** src: cpu_accounting.h:36-41 LsmCpuAccountingSample *)
Record LsmCpuAccountingSample := {
  ca_cpus : list LsmCpuCounters;
  ca_cpu_count : nat;
  ca_interrupts : Z;
  ca_context_switches : Z;
}.
#[export] Instance eta_LsmCpuAccountingSample : Eta LsmCpuAccountingSample := λ x,
  Build_LsmCpuAccountingSample (ca_cpus x) (ca_cpu_count x) (ca_interrupts x)
    (ca_context_switches x).

(** The cleared sample. *)
Definition sample_zero : LsmCpuAccountingSample :=
  {| ca_cpus := replicate (S LSM_MAX_CPUS) zero_counters; ca_cpu_count := 0;
     ca_interrupts := 0; ca_context_switches := 0 |}.

Section cpu_accounting.
Context `{TextOps, NumberOps, ArithmeticOps}.

(** The token loop of [parse_cpu_row]: at most [n] more fields; a failed token
    may still have written its field.  Returns the number of tokens read. *)
(** src: cpu_accounting.c:32-33 parse_cpu_row *)
Fixpoint read_tokens (n : nat) (cursor : string) (fields : list Z) (count : nat) : list Z * nat :=
  match n with
  | O => (fields, count)
  | S n =>
      let '(ok, cursor, value) :=
        lsm_parse_u64_token cursor 10 (default 0 (fields !! count)) in
      let fields := <[count := value]> fields in
      if ok : bool then read_tokens n cursor fields (S count) else (fields, count)
  end.

Definition field (fields : list Z) (i : nat) : Z := default 0 (fields !! i).

(** src: cpu_accounting.c parse_cpu_row *)
Definition parse_cpu_row (line : string) : option LsmCpuCounters :=
  if negb (lsm_string_starts_with line "cpu") then None
  else
    let cursor := String.substring 3 (String.length line - 3) line in
    let cursor := skip lsm_ascii_is_digit cursor in
    if nonempty cursor && negb (lsm_ascii_is_space (char_at cursor 0)) then None
    else
      let '(fields, count) := read_tokens 8 cursor (replicate 8 0) 0 in
      if (count <? 4)%nat then None
      else Some
        {| cc_total := foldl lsm_u64_add_saturating 0 (take count fields);
           cc_idle := lsm_u64_add_saturating (field fields 3) (field fields 4);
           cc_user := lsm_u64_add_saturating (field fields 0) (field fields 1);
           cc_kernel :=
             lsm_u64_add_saturating (lsm_u64_add_saturating (field fields 2) (field fields 5))
                                    (field fields 6) |}.

(** Result and the outgoing [*value]. *)
(** src: cpu_accounting.c parse_named_counter *)
Definition parse_named_counter (line name : string) (value : Z) : bool * Z :=
  let length := String.length name in
  if negb (lsm_string_starts_with line name)
     || negb (lsm_ascii_is_space (char_at line length)) then (false, value)
  else
    let cursor := String.substring length (String.length line - length) line in
    let '(ok, _, value) := lsm_parse_u64_token cursor 10 value in (ok, value).

(** One line of the payload; the flag is [aggregate_found]. *)
(** src: cpu_accounting.c:65-93 cpu_accounting_parse_mutable *)
Definition parse_line (acc : LsmCpuAccountingSample * bool) (line : string)
    : LsmCpuAccountingSample * bool :=
  let '(sample, aggregate_found) := acc in
  if lsm_string_starts_with line "cpu"
     && (lsm_ascii_is_space (char_at line 3) || lsm_ascii_is_digit (char_at line 3))
  then
    match parse_cpu_row line with
    | None => acc
    | Some counter =>
        if lsm_ascii_is_space (char_at line 3) then
          (sample <| ca_cpus := <[0%nat := counter]> (ca_cpus sample) |>
                  <| ca_cpu_count := if (ca_cpu_count sample =? 0)%nat then 1%nat
                                     else ca_cpu_count sample |>, true)
        else
          let cursor := String.substring 3 (String.length line - 3) line in
          let '(ok, cursor, parsed_index) := lsm_parse_u64_token cursor 10 0 in
          if negb ok || negb (lsm_ascii_is_space (char_at cursor 0))
             || (Z.of_nat LSM_MAX_CPUS <=? parsed_index)
          then acc
          else
            let index := Z.to_nat parsed_index in
            (sample <| ca_cpus := <[(index + 1)%nat := counter]> (ca_cpus sample) |>
                    <| ca_cpu_count := if (ca_cpu_count sample <? index + 2)%nat
                                       then (index + 2)%nat else ca_cpu_count sample |>,
             aggregate_found)
    end
  else if lsm_string_starts_with line "intr" then
    (sample <| ca_interrupts := (parse_named_counter line "intr" (ca_interrupts sample)).2 |>,
     aggregate_found)
  else if lsm_string_starts_with line "ctxt" then
    (sample <| ca_context_switches :=
                 (parse_named_counter line "ctxt" (ca_context_switches sample)).2 |>,
     aggregate_found)
  else acc.

(** src: cpu_accounting.c cpu_accounting_parse_mutable *)
Definition cpu_accounting_parse_mutable (text : string) : LsmCpuAccountingSample * bool :=
  foldl parse_line (sample_zero, false) (strtok_all (is_char nl) text).

(** [alloc_ok] is the outcome of [strdup]; the incoming sample is kept when the
    function returns before clearing it. *)
(** src: cpu_accounting.c lsm_cpu_accounting_parse *)
Definition lsm_cpu_accounting_parse (text : option string) (alloc_ok : bool)
    (sample : LsmCpuAccountingSample) : LsmCpuAccountingSample * bool :=
  match text with
  | None => (sample, false)
  | Some text => if alloc_ok then cpu_accounting_parse_mutable text else (sample, false)
  end.

(** [contents] is the file as read, [None] when the path is empty or it could not
    be read; the bytes may hold a NUL, which rejects them. *)
(** src: cpu_accounting.c lsm_cpu_accounting_read *)
Definition lsm_cpu_accounting_read (contents : option string) (sample : LsmCpuAccountingSample)
    : LsmCpuAccountingSample * bool :=
  match contents with
  | None => (sample, false)
  | Some text =>
      if no_char "000" text then cpu_accounting_parse_mutable text else (sample, false)
  end.

(** src: cpu_accounting.c counter_percent *)
Definition counter_percent (current previous total_delta : Z) : option double :=
  if total_delta =? 0 then None
  else
    let '(ok, delta) := lsm_u64_counter_delta current previous 0 in
    if ok then Some (lsm_percent_u64 delta total_delta) else None.

(** The usage of one interval, when it can be measured. *)
(** src: cpu_accounting.c:155-164 lsm_cpu_accounting_apply *)
Definition interval_usage (initial : bool) (current previous : LsmCpuCounters)
    : option (double * Z) :=
  if initial then None
  else
    let '(total_ok, total_delta) :=
      lsm_u64_counter_delta (cc_total current) (cc_total previous) 0 in
    if negb total_ok then None
    else
      let '(idle_ok, idle_delta) :=
        lsm_u64_counter_delta (cc_idle current) (cc_idle previous) 0 in
      if idle_ok && (0 <? total_delta) && (idle_delta <=? total_delta)
      then Some (lsm_percent_u64 (total_delta - idle_delta) total_delta, total_delta)
      else None.

(** One iteration of the row loop. *)
(** src: cpu_accounting.c:151-180 lsm_cpu_accounting_apply *)
Definition apply_row (sample : LsmCpuAccountingSample) (initial : bool)
    (acc : LsmCpuInfo * LsmCpuAccountingState) (index : nat)
    : LsmCpuInfo * LsmCpuAccountingState :=
  let '(cpu, state) := acc in
  let current := default zero_counters (ca_cpus sample !! index) in
  let previous := default zero_counters (cs_previous state !! index) in
  let cpu :=
    match interval_usage initial current previous with
    | None => cpu
    | Some (usage, total_delta) =>
        if (index =? 0)%nat then
          let cpu := cpu <| cpu_usage_percent := usage |> <| cpu_usage_available := true |> in
          let cpu :=
            match counter_percent (cc_user current) (cc_user previous) total_delta with
            | Some share => cpu <| cpu_user_percent := share |>
            | None => cpu
            end in
          match counter_percent (cc_kernel current) (cc_kernel previous) total_delta with
          | Some share => cpu <| cpu_kernel_percent := share |>
          | None => cpu
          end
        else cpu <| cpu_core_usage := <[(index - 1)%nat := usage]> (cpu_core_usage cpu) |>
    end in
  (cpu, state <| cs_previous := <[index := current]> (cs_previous state) |>).

(** Clearing what a preceding sample published. *)
(** src: cpu_accounting.c:145-150 lsm_cpu_accounting_apply *)
Definition invalidate (cpu : LsmCpuInfo) : LsmCpuInfo :=
  cpu <| cpu_usage_percent := NAN |> <| cpu_user_percent := NAN |>
      <| cpu_kernel_percent := NAN |> <| cpu_usage_available := false |>
      <| cpu_core_usage := replicate LSM_MAX_CPUS NAN |>.

(** The event counters after the row loop. *)
(** src: cpu_accounting.c:182-197 lsm_cpu_accounting_apply *)
Definition apply_events (sample : LsmCpuAccountingSample) (initial : bool)
    (elapsed_seconds : double) (cpu : LsmCpuInfo) (state : LsmCpuAccountingState)
    : LsmCpuInfo * LsmCpuAccountingState :=
  let cpu := cpu <| cpu_interrupt_count := ca_interrupts sample |>
                 <| cpu_context_switch_count := ca_context_switches sample |>
                 <| cpu_interrupts_per_sec_available := false |>
                 <| cpu_context_switches_per_sec_available := false |> in
  let cpu :=
    if negb initial && cs_scheduler_events_initialized state
       && isfinite elapsed_seconds && dgt elapsed_seconds d0
    then
      let '(intr_ok, intr) :=
        lsm_u64_counter_rate (ca_interrupts sample) (cs_previous_interrupt_count state)
          (ldouble_of_Z 1) elapsed_seconds (cpu_interrupts_per_sec cpu) in
      let '(ctxt_ok, ctxt) :=
        lsm_u64_counter_rate (ca_context_switches sample)
          (cs_previous_context_switch_count state) (ldouble_of_Z 1) elapsed_seconds
          (cpu_context_switches_per_sec cpu) in
      cpu <| cpu_interrupts_per_sec_available := intr_ok |> <| cpu_interrupts_per_sec := intr |>
          <| cpu_context_switches_per_sec_available := ctxt_ok |>
          <| cpu_context_switches_per_sec := ctxt |>
    else cpu in
  (cpu, state <| cs_previous_interrupt_count := ca_interrupts sample |>
              <| cs_previous_context_switch_count := ca_context_switches sample |>
              <| cs_scheduler_events_initialized := true |>).

(** src: cpu_accounting.c lsm_cpu_accounting_apply *)
Definition lsm_cpu_accounting_apply (cpu : LsmCpuInfo) (state : LsmCpuAccountingState)
    (sample : LsmCpuAccountingSample) (initial : bool) (elapsed_seconds : double)
    : LsmCpuInfo * LsmCpuAccountingState :=
  if (ca_cpu_count sample =? 0)%nat then (cpu, state)
  else
    let cores := (Z.to_nat (cpu_logical_cores cpu) + 1)%nat in
    let usable := if (ca_cpu_count sample <? cores)%nat then ca_cpu_count sample else cores in
    let rows := seq 0 (Nat.min usable (LSM_MAX_CPUS + 1)) in
    let '(cpu, state) := foldl (apply_row sample initial) (invalidate cpu, state) rows in
    apply_events sample initial elapsed_seconds cpu state.
End cpu_accounting.

(** ** The parser's invariant *)

Record counters_wf (c : LsmCpuCounters) : Prop := {
  cw_total : u64 (cc_total c);
  cw_idle : u64 (cc_idle c);
  cw_user : u64 (cc_user c);
  cw_kernel : u64 (cc_kernel c);
  cw_idle_total : cc_idle c <= cc_total c;
}.

Record sample_wf (s : LsmCpuAccountingSample) : Prop := {
  sw_length : length (ca_cpus s) = S LSM_MAX_CPUS;
  sw_count : (ca_cpu_count s ≤ S LSM_MAX_CPUS)%nat;
  sw_cpus : Forall counters_wf (ca_cpus s);
  sw_interrupts : u64 (ca_interrupts s);
  sw_context : u64 (ca_context_switches s);
}.

#[global] Opaque LSM_MAX_CPUS.

Lemma zero_counters_wf : counters_wf zero_counters.
Proof. by split. Qed.

Lemma sample_zero_wf : sample_wf sample_zero.
Proof.
  split; [apply length_replicate|simpl; lia| |done|done].
  by apply (Forall_replicate _ (S LSM_MAX_CPUS) _), zero_counters_wf.
Qed.

Section parser_facts.
Context `{TextOps, NumberLaws, ArithmeticLaws}.

(** The tokens read so far are [uint64_t]s; the fields behind them are zero. *)
Definition fields_inv (fields : list Z) (count : nat) : Prop :=
  length fields = 8%nat ∧ (count ≤ 8)%nat ∧ Forall u64 fields
  ∧ ∀ i, (count ≤ i < 8)%nat → fields !! i = Some 0.

Lemma read_tokens_inv n cursor fields count fields' count' :
  fields_inv fields count → (n + count)%nat = 8%nat →
  read_tokens n cursor fields count = (fields', count') → fields_inv fields' count'.
Proof.
  revert cursor fields count. induction n as [|n IH]; intros cursor fields count Hinv Hn; simpl.
  { by intros [= <- <-]. }
  destruct Hinv as (Hlen & Hc & Hall & Hzero).
  rewrite (Hzero count) by lia. simpl.
  pose proof (parse_token_u64 cursor 10 0 ltac:(done)) as Hu.
  pose proof (parse_token_failure cursor 10 0) as Hfail.
  destruct (lsm_parse_u64_token cursor 10 0) as [[[] rest] value]; simpl in *.
  - apply IH; [|lia]. split_and!; [by rewrite length_insert|lia|by apply Forall_insert|].
    intros i Hi. rewrite list_lookup_insert_ne by lia. apply Hzero. lia.
  - rewrite Hfail by done. intros [= <- <-].
    rewrite list_insert_id by (apply Hzero; lia). done.
Qed.

Lemma add_saturating_u64 a b : u64 a → u64 b → u64 (lsm_u64_add_saturating a b).
Proof. intros Ha Hb. rewrite add_saturating_spec by done. unfold u64, uint64_max in *. lia. Qed.

Lemma foldl_saturating a l :
  u64 a → Forall u64 l →
  foldl lsm_u64_add_saturating a l = Z.min uint64_max (a + foldr Z.add 0 l).
Proof.
  revert a. induction l as [|x l IH]; intros a Ha Hl; simpl.
  - unfold u64 in Ha. lia.
  - inversion Hl as [|? ? Hx Hl']; subst.
    rewrite IH, add_saturating_spec by (try apply add_saturating_u64; done).
    assert (0 <= foldr Z.add 0 l).
    { clear -Hl'. induction Hl' as [|y l [Hy _] _ IH]; simpl; lia. }
    unfold u64 in *. lia.
Qed.

Lemma parse_cpu_row_wf line c : parse_cpu_row line = Some c → counters_wf c.
Proof.
  unfold parse_cpu_row. destruct (negb _); [done|].
  match goal with |- context [if ?b then None else _] => destruct b; [done|] end.
  match goal with |- context [read_tokens 8 ?cur ?f 0] =>
    destruct (read_tokens 8 cur f 0) as [fields count] eqn:Hr end.
  apply read_tokens_inv in Hr as (Hlen & Hc & Hall & Hzero); [|split_and!|done].
  2: done. 2: lia. 2: by apply Forall_replicate, u64_zero.
  2: { intros i Hi. apply lookup_replicate_2. lia. }
  destruct (Nat.ltb_spec count 4) as [|H4]; [done|]. intros [= <-].
  do 8 (destruct fields as [|? fields]; [done|]). destruct fields; [|done].
  assert (Forall u64 (take count [z; z0; z1; z2; z3; z4; z5; z6])) as Htake by by apply Forall_take.
  decompose_Forall_hyps. unfold field. simpl (default _ _).
  split; simpl; try by repeat apply add_saturating_u64.
  - rewrite foldl_saturating by done.
    assert (0 <= foldr Z.add 0 (take count [z; z0; z1; z2; z3; z4; z5; z6])).
    { clear -Htake. induction Htake as [|y l [Hy _] _ IH]; simpl; lia. }
    unfold u64, uint64_max. lia.
  - rewrite foldl_saturating, add_saturating_spec by done.
    assert (z3 = 0 ∨ (5 ≤ count)%nat) as Hz3.
    { destruct (decide (count = 4%nat)) as [->|]; [left|right; lia].
      specialize (Hzero 4%nat ltac:(lia)). by injection Hzero. }
    unfold u64 in *. clear Htake.
    destruct count as [|[|[|[|count]]]]; [lia..|]. simpl.
    assert (∀ l, Forall (λ z, 0 <= z) l → 0 <= foldr Z.add 0 l) as Hpos.
    { induction 1; simpl; lia. }
    destruct count as [|count]; simpl.
    + destruct Hz3; lia.
    +
      assert (0 <= foldr Z.add 0 (take count [z4; z5; z6])); [|lia].
      apply Hpos, Forall_take. repeat constructor; lia.
Qed.
End parser_facts.

Section parse_theorem.
Context `{TextOps, NumberLaws, ArithmeticLaws}.

Lemma parse_named_u64 line name value : u64 value → u64 (parse_named_counter line name value).2.
Proof.
  intros Hv. unfold parse_named_counter. destruct (_ || _); [done|].
  match goal with |- context [lsm_parse_u64_token ?c ?b ?v] =>
    pose proof (parse_token_u64 c b v Hv) as Hu; destruct (lsm_parse_u64_token c b v) as [[ok rest] r]
  end. done.
Qed.

Definition parse_inv (acc : LsmCpuAccountingSample * bool) : Prop :=
  sample_wf acc.1 ∧ (acc.2 = true → (1 ≤ ca_cpu_count acc.1)%nat).

Lemma parse_line_inv acc line : parse_inv acc → parse_inv (parse_line acc line).
Proof.
  destruct acc as [sample found]. intros [[Hlen Hcount Hcpus Hi Hc] Hf]. simpl in *.
  unfold parse_line. destruct (_ && _).
  - destruct (parse_cpu_row line) as [counter|] eqn:Hrow; [|done].
    apply parse_cpu_row_wf in Hrow. destruct (lsm_ascii_is_space (char_at line 3)).
    + split; simpl; [split; simpl|]; try done.
      * by rewrite length_insert.
      * destruct (_ =? 0)%nat; lia.
      * by apply Forall_insert.
      * intros _. destruct (Nat.eqb_spec (ca_cpu_count sample) 0); lia.
    + match goal with |- context [lsm_parse_u64_token ?c ?b ?v] =>
        pose proof (parse_token_u64 c b v u64_zero) as Hu;
        destruct (lsm_parse_u64_token c b v) as [[ok rest] index] end.
      simpl in Hu. match goal with |- context [if ?b then (sample, found) else _] =>
        destruct b eqn:Hg; [done|] end.
      bool_hyps. assert (Z.to_nat index < LSM_MAX_CPUS)%nat by (destruct Hu; lia).
      split; simpl; [split; simpl|]; try done.
      * by rewrite length_insert.
      * destruct (_ <? _)%nat; lia.
      * by apply Forall_insert.
      * intros Ht. specialize (Hf Ht).
        destruct (Nat.ltb_spec (ca_cpu_count sample) (Z.to_nat index + 2)); lia.
  - destruct (lsm_string_starts_with line "intr"); [split; [split|]; try done; simpl;
      by apply parse_named_u64|].
    destruct (lsm_string_starts_with line "ctxt"); [|done].
    split; [split|]; try done; simpl; by apply parse_named_u64.
Qed.

Lemma parse_payload_inv text : parse_inv (cpu_accounting_parse_mutable text).
Proof.
  unfold cpu_accounting_parse_mutable.
  assert (parse_inv (sample_zero, false)) as Hinv by (split; [apply sample_zero_wf|done]).
  revert Hinv. generalize (sample_zero, false) as acc.
  induction (strtok_all (is_char nl) text) as [|line lines IH]; intros acc Hacc; [done|].
  apply IH. by apply parse_line_inv.
Qed.

(** Whatever the payload, the parser fills at most 513 rows inside
    the fixed arrays, every counter is a [uint64_t] whose idle share does not
    exceed its total (saturation included), and success means the aggregate row
    is present. *)
Theorem cpu_parse_well_formed text :
  sample_wf (cpu_accounting_parse_mutable text).1
  ∧ ((cpu_accounting_parse_mutable text).2 = true →
     (1 ≤ ca_cpu_count (cpu_accounting_parse_mutable text).1)%nat).
Proof. apply parse_payload_inv. Qed.
End parse_theorem.

(** ** Applying a sample *)

Section apply_facts.
Context `{ArithmeticLaws}.

Definition usage_of (u : option (double * Z)) : double :=
  match u with Some (usage, _) => usage | None => NAN end.

(** The measured interval of row [i] against the baselines before the call. *)
Definition row_usage (state : LsmCpuAccountingState) (sample : LsmCpuAccountingSample)
    (initial : bool) (i : nat) : option (double * Z) :=
  interval_usage initial (default zero_counters (ca_cpus sample !! i))
                 (default zero_counters (cs_previous state !! i)).

(** *** The specification

    Nothing here refers to the code: an interval is measured when it is not the
    first, time has passed, and neither the idle time nor the total went back. *)
Definition interval_measured (initial : bool) (current previous : LsmCpuCounters) : bool :=
  negb initial && (cc_total previous <? cc_total current) && (cc_idle previous <=? cc_idle current)
  && (cc_idle current - cc_idle previous <=? cc_total current - cc_total previous).

(** The time that was not idle, as a share of the interval. *)
Definition busy_percent (initial : bool) (current previous : LsmCpuCounters) : double :=
  if interval_measured initial current previous
  then lsm_percent_u64 ((cc_total current - cc_total previous) - (cc_idle current - cc_idle previous))
                       (cc_total current - cc_total previous)
  else NAN.

(** The time one counter gained, as a share of the interval. *)
Definition share_percent (counter : LsmCpuCounters → Z) (initial : bool) (current previous : LsmCpuCounters)
    : double :=
  if interval_measured initial current previous && (counter previous <=? counter current)
  then lsm_percent_u64 (counter current - counter previous) (cc_total current - cc_total previous)
  else NAN.

Lemma counter_delta_cases current previous : u64 current → u64 previous →
  (previous <= current ∧ lsm_u64_counter_delta current previous 0 = (true, current - previous))
  ∨ (current < previous ∧ (lsm_u64_counter_delta current previous 0).1 = false).
Proof.
  intros Hc Hp. pose proof (counter_delta_spec current previous 0 Hc Hp) as Hd.
  destruct (Z.leb_spec previous current); [left|right]; done.
Qed.

Lemma interval_usage_spec initial current previous :
  counters_wf current → counters_wf previous →
  interval_usage initial current previous
  = if interval_measured initial current previous
    then Some (busy_percent initial current previous, cc_total current - cc_total previous) else None.
Proof.
  intros [Hct Hci _ _ _] [Hpt Hpi _ _ _]. unfold busy_percent. unfold interval_usage, interval_measured. destruct initial; [done|].
  cbn [negb andb].
  destruct (counter_delta_cases _ _ Hct Hpt) as [[Ht ->]|[Ht Hf]].
  2:{ destruct (lsm_u64_counter_delta (cc_total current) _ _) as [ok t]. simpl in Hf. subst. cbn [negb].
      by rewrite (proj2 (Z.ltb_ge _ _)) by lia. }
  cbn [negb].
  destruct (counter_delta_cases _ _ Hci Hpi) as [[Hi ->]|[Hi Hf]].
  2:{ destruct (lsm_u64_counter_delta (cc_idle current) _ _) as [ok t]. simpl in Hf. subst. cbn [andb].
      rewrite (proj2 (Z.leb_gt _ _)) by lia. by rewrite andb_false_r. }
  cbn [andb]. rewrite (proj2 (Z.leb_le (cc_idle previous) _)) by done. rewrite andb_true_r.
  assert ((0 <? cc_total current - cc_total previous) = (cc_total previous <? cc_total current)) as ->.
  { destruct (Z.ltb_spec (cc_total previous) (cc_total current)); lia. }
  by destruct (_ && _).
Qed.

Lemma counter_share_spec counter initial current previous :
  u64 (counter current) → u64 (counter previous) →
  interval_measured initial current previous = true →
  default NAN (counter_percent (counter current) (counter previous) (cc_total current - cc_total previous))
  = share_percent counter initial current previous.
Proof.
  intros Hc Hp Hm. unfold share_percent. rewrite Hm. unfold interval_measured in Hm. bool_hyps.
  unfold counter_percent. rewrite (proj2 (Z.eqb_neq _ 0)) by lia. cbn [andb].
  destruct (counter_delta_cases _ _ Hc Hp) as [[Ht ->]|[Ht Hf]].
  - by rewrite (proj2 (Z.leb_le _ _)).
  - destruct (lsm_u64_counter_delta _ _ _) as [ok t]. simpl in Hf. subst. by rewrite (proj2 (Z.leb_gt _ _)).
Qed.

(** What the aggregate row publishes for one of its counters. *)
Definition row_share (counter : LsmCpuCounters → Z) (state : LsmCpuAccountingState)
    (sample : LsmCpuAccountingSample) (initial : bool) : double :=
  match row_usage state sample initial 0 with
  | Some (_, total_delta) =>
      default NAN (counter_percent (counter (default zero_counters (ca_cpus sample !! 0%nat)))
                     (counter (default zero_counters (cs_previous state !! 0%nat))) total_delta)
  | None => NAN
  end.

(** The loop's effect after the first [n] rows, from the invalidated metrics. *)
Record rows_applied (state : LsmCpuAccountingState) (sample : LsmCpuAccountingSample)
    (initial : bool) (n : nat) (cpu' : LsmCpuInfo) (state' : LsmCpuAccountingState) : Prop := {
  ra_previous : cs_previous state' = take n (ca_cpus sample) ++ drop n (cs_previous state);
  ra_cores : length (cpu_core_usage cpu') = LSM_MAX_CPUS;
  ra_core i : (i < LSM_MAX_CPUS)%nat →
    cpu_core_usage cpu' !! i =
      Some (if (S i <? n)%nat then usage_of (row_usage state sample initial (S i)) else NAN);
  ra_usage : cpu_usage_percent cpu' =
    if (0 <? n)%nat then usage_of (row_usage state sample initial 0) else NAN;
  ra_available : cpu_usage_available cpu' =
    (0 <? n)%nat && match row_usage state sample initial 0 with Some _ => true | None => false end;
  ra_user : cpu_user_percent cpu' = if (0 <? n)%nat then row_share cc_user state sample initial else NAN;
  ra_kernel : cpu_kernel_percent cpu' = if (0 <? n)%nat then row_share cc_kernel state sample initial else NAN;
  ra_events : cs_previous_interrupt_count state' = cs_previous_interrupt_count state
    ∧ cs_previous_context_switch_count state' = cs_previous_context_switch_count state
    ∧ cs_scheduler_events_initialized state' = cs_scheduler_events_initialized state;
}.

Lemma rows_applied_step state sample initial n cpu1 state1 cpu2 state2 :
  length (ca_cpus sample) = S LSM_MAX_CPUS → length (cs_previous state) = S LSM_MAX_CPUS →
  (n < S LSM_MAX_CPUS)%nat →
  rows_applied state sample initial n cpu1 state1 →
  apply_row sample initial (cpu1, state1) n = (cpu2, state2) →
  rows_applied state sample initial (S n) cpu2 state2.
Proof.
  intros Hs Hp Hn [Hprev Hcores Hcore Husage Havail Huser Hkernel Hev].
  destruct (lookup_lt_is_Some_2 (ca_cpus sample) n) as [c Hc]; [lia|].
  destruct (lookup_lt_is_Some_2 (cs_previous state) n) as [p Hpn]; [lia|].
  assert (cs_previous state1 !! n = Some p) as Hp1.
  { rewrite Hprev, lookup_app_r; rewrite length_take; [|lia].
    rewrite lookup_drop. rewrite <-Hpn. f_equal. lia. }
  unfold apply_row. rewrite Hc, Hp1. simpl (default _ _).
  assert (row_usage state sample initial n = interval_usage initial c p) as Hrow
    by (unfold row_usage; by rewrite Hc, Hpn).
  intros [= <- <-]. split.
  - simpl. rewrite Hprev. rewrite (drop_S _ p) by done.
    rewrite (take_S_r _ _ c) by done. rewrite <-app_assoc. simpl.
    rewrite insert_app_r_alt by (rewrite length_take; lia).
    rewrite length_take. replace (n - _)%nat with 0%nat by lia. done.
  - destruct (interval_usage initial c p) as [[u d]|]; [|done].
    destruct (Nat.eqb_spec n 0); [|simpl; by rewrite length_insert].
    by destruct (counter_percent _ _ _), (counter_percent _ _ _).
  - intros i Hi. specialize (Hcore i Hi).
    destruct (interval_usage initial c p) as [[u d]|].
    + destruct (Nat.eqb_spec n 0) as [->|Hn0].
      * destruct (counter_percent _ _ _), (counter_percent _ _ _); exact Hcore.
      * simpl. destruct (decide (i = n - 1)%nat) as [->|Hne].
        -- rewrite list_lookup_insert_eq by lia. replace (S (n - 1)) with n by lia.
           destruct (Nat.ltb_spec n (S n)); [|lia]. by rewrite Hrow.
        -- rewrite list_lookup_insert_ne, Hcore by done.
           destruct (Nat.ltb_spec (S i) n), (Nat.ltb_spec (S i) (S n)); done || lia.
    + rewrite Hcore. destruct (Nat.ltb_spec (S i) n), (Nat.ltb_spec (S i) (S n)); try done; try lia.
      replace (S i) with n by lia. by rewrite Hrow.
  - destruct (Nat.eqb_spec n 0) as [->|Hn0]; simpl.
    + rewrite Hrow. destruct (interval_usage initial c p) as [[u d]|]; simpl; [|done].
      by destruct (counter_percent _ _ _), (counter_percent _ _ _).
    + destruct (Nat.ltb_spec 0 n); [|lia]. rewrite <-Husage.
      by destruct (interval_usage initial c p) as [[u d]|].
  - destruct (Nat.eqb_spec n 0) as [->|Hn0]; simpl.
    + rewrite Hrow. destruct (interval_usage initial c p) as [[u d]|]; simpl; [|done].
      by destruct (counter_percent _ _ _), (counter_percent _ _ _).
    + destruct (Nat.ltb_spec 0 n); [|lia]. simpl in Havail. rewrite <-Havail.
      by destruct (interval_usage initial c p) as [[u d]|].
  - destruct (Nat.eqb_spec n 0) as [->|Hn0]; simpl in *.
    + unfold row_share. rewrite Hrow, Hc, Hpn. destruct (interval_usage initial c p) as [[u d]|]; simpl; [|done].
      by destruct (counter_percent _ _ _), (counter_percent _ _ _).
    + destruct (Nat.ltb_spec 0 n); [|lia]. rewrite <-Huser.
      by destruct (interval_usage initial c p) as [[u d]|].
  - destruct (Nat.eqb_spec n 0) as [->|Hn0]; simpl in *.
    + unfold row_share. rewrite Hrow, Hc, Hpn. destruct (interval_usage initial c p) as [[u d]|]; simpl; [|done].
      by destruct (counter_percent (cc_user c) _ _), (counter_percent _ _ _).
    + destruct (Nat.ltb_spec 0 n); [|lia]. rewrite <-Hkernel.
      by destruct (interval_usage initial c p) as [[u d]|].
  - done.
Qed.

Lemma rows_applied_all state sample initial cpu n :
  length (ca_cpus sample) = S LSM_MAX_CPUS → length (cs_previous state) = S LSM_MAX_CPUS →
  (n ≤ S LSM_MAX_CPUS)%nat →
  rows_applied state sample initial n
    (foldl (apply_row sample initial) (invalidate cpu, state) (seq 0 n)).1
    (foldl (apply_row sample initial) (invalidate cpu, state) (seq 0 n)).2.
Proof.
  intros Hs Hp. induction n as [|n IH]; intros Hn.
  - split; simpl; try done.
    intros i Hi. by apply lookup_replicate_2.
  - rewrite seq_S, foldl_app. simpl.
    eapply (rows_applied_step _ _ _ n _ _ _ _ Hs Hp); [lia|apply IH; lia|].
    rewrite <-(surjective_pairing (foldl _ _ _)). apply surjective_pairing.
Qed.

Lemma busy_percent_bounds initial current previous :
  busy_percent initial current previous = NAN ∨ in_percent (busy_percent initial current previous).
Proof.
  unfold busy_percent. destruct (interval_measured _ _ _) eqn:Hm; [right|by left].
  unfold interval_measured in Hm. bool_hyps. apply percent_bounds; lia.
Qed.
End apply_facts.

Section apply_theorems.
Context `{ArithmeticLaws}.

Definition state_wf (state : LsmCpuAccountingState) : Prop :=
  length (cs_previous state) = S LSM_MAX_CPUS ∧ Forall counters_wf (cs_previous state).

(** Rows of the sample the call accounts for. *)
Definition usable_rows (cpu : LsmCpuInfo) (sample : LsmCpuAccountingSample) : nat :=
  Nat.min (Nat.min (ca_cpu_count sample) (Z.to_nat (cpu_logical_cores cpu) + 1))
          (LSM_MAX_CPUS + 1).

Lemma apply_rows cpu state sample initial elapsed :
  sample_wf sample → state_wf state → ca_cpu_count sample ≠ 0%nat →
  let n := usable_rows cpu sample in
  ∃ cpu1 state1, rows_applied state sample initial n cpu1 state1
    ∧ lsm_cpu_accounting_apply cpu state sample initial elapsed
      = apply_events sample initial elapsed cpu1 state1
    ∧ (0 < n)%nat ∧ (n ≤ S LSM_MAX_CPUS)%nat.
Proof.
  intros Hs [Hp _] Hcount n. unfold lsm_cpu_accounting_apply.
  destruct (Nat.eqb_spec (ca_cpu_count sample) 0) as [|_]; [done|].
  replace (if (ca_cpu_count sample <? _)%nat then _ else _)
    with (Nat.min (ca_cpu_count sample) (Z.to_nat (cpu_logical_cores cpu) + 1))
    by (destruct (Nat.ltb_spec (ca_cpu_count sample) (Z.to_nat (cpu_logical_cores cpu) + 1)); lia).
  fold (usable_rows cpu sample). fold n.
  assert (n ≤ S LSM_MAX_CPUS)%nat as Hn by (unfold n, usable_rows; lia).
  pose proof (rows_applied_all state sample initial cpu n (sw_length _ Hs) Hp Hn) as Hrows.
  destruct (foldl _ _ _) as [cpu1 state1]. exists cpu1, state1. split_and!; [exact Hrows|done| |done].
  unfold n, usable_rows. lia.
Qed.

(** The event counters' step publishes the totals, and rates only over a measured
    interval; it leaves the shares alone. *)
Lemma apply_events_keeps sample initial elapsed cpu state :
  let r := apply_events sample initial elapsed cpu state in
  cpu_core_usage r.1 = cpu_core_usage cpu ∧ cpu_usage_percent r.1 = cpu_usage_percent cpu
  ∧ cpu_usage_available r.1 = cpu_usage_available cpu ∧ cpu_user_percent r.1 = cpu_user_percent cpu
  ∧ cpu_kernel_percent r.1 = cpu_kernel_percent cpu ∧ cs_previous r.2 = cs_previous state.
Proof.
  cbv zeta. unfold apply_events. cbv zeta. destruct (negb initial && _ && _ && _); [|done].
  by destruct (lsm_u64_counter_rate _ _ _ _ _), (lsm_u64_counter_rate _ _ _ _ _).
Qed.

Lemma apply_events_totals sample initial elapsed cpu state :
  let r := apply_events sample initial elapsed cpu state in
  (cpu_interrupt_count r.1 = ca_interrupts sample ∧ cpu_context_switch_count r.1 = ca_context_switches sample)
  ∧ cs_previous_interrupt_count r.2 = ca_interrupts sample
  ∧ cs_previous_context_switch_count r.2 = ca_context_switches sample.
Proof.
  cbv zeta. unfold apply_events. cbv zeta. destruct (negb initial && _ && _ && _); [|done].
  by destruct (lsm_u64_counter_rate _ _ _ _ _), (lsm_u64_counter_rate _ _ _ _ _).
Qed.

Lemma apply_events_rates sample initial elapsed cpu state :
  let r := apply_events sample initial elapsed cpu state in
  let measured := negb initial && cs_scheduler_events_initialized state && isfinite elapsed && dgt elapsed d0 in
  (cpu_interrupts_per_sec_available r.1 = true →
     measured = true ∧ cs_previous_interrupt_count state <= ca_interrupts sample
     ∧ lsm_u64_counter_rate (ca_interrupts sample) (cs_previous_interrupt_count state) (ldouble_of_Z 1) elapsed
         (cpu_interrupts_per_sec cpu) = (true, cpu_interrupts_per_sec r.1))
  ∧ (cpu_context_switches_per_sec_available r.1 = true →
     measured = true ∧ cs_previous_context_switch_count state <= ca_context_switches sample
     ∧ lsm_u64_counter_rate (ca_context_switches sample) (cs_previous_context_switch_count state) (ldouble_of_Z 1)
         elapsed (cpu_context_switches_per_sec cpu) = (true, cpu_context_switches_per_sec r.1)).
Proof.
  assert (∀ current previous out, (lsm_u64_counter_rate current previous (ldouble_of_Z 1) elapsed out).1 = true →
    previous <= current) as Hback.
  { intros c p out Ht. destruct (Z.le_gt_cases p c) as [|Hlt]; [done|].
    pose proof (counter_rate_rollback c p (ldouble_of_Z 1) elapsed out ltac:(lia)). congruence. }
  cbv zeta. unfold apply_events. cbv zeta. destruct (negb initial && _ && _ && _); [|done].
  pose proof (Hback (ca_interrupts sample) (cs_previous_interrupt_count state) (cpu_interrupts_per_sec cpu)) as Hi.
  pose proof (Hback (ca_context_switches sample) (cs_previous_context_switch_count state)
    (cpu_context_switches_per_sec cpu)) as Hc.
  match goal with |- context [cpu_interrupts_per_sec ?x] =>
    change (cpu_interrupts_per_sec x) with (cpu_interrupts_per_sec cpu);
    change (cpu_context_switches_per_sec x) with (cpu_context_switches_per_sec cpu) end.
  destruct (lsm_u64_counter_rate (ca_interrupts sample) _ _ _ _) as [ok rate].
  destruct (lsm_u64_counter_rate (ca_context_switches sample) _ _ _ _) as [ok2 rate2].
  cbn in *. split; intros ->; auto.
Qed.

(** The baselines and the event counters themselves. *)
Definition row_at (rows : list LsmCpuCounters) (i : nat) : LsmCpuCounters := default zero_counters (rows !! i).

Lemma row_at_wf rows i : Forall counters_wf rows → counters_wf (row_at rows i).
Proof.
  intros Hl. unfold row_at. destruct (rows !! i) as [c|] eqn:E; [|apply zero_counters_wf].
  by apply (Forall_lookup_1 _ _ _ _ Hl E).
Qed.

Lemma row_usage_spec state sample initial i :
  state_wf state → sample_wf sample →
  usage_of (row_usage state sample initial i)
    = busy_percent initial (row_at (ca_cpus sample) i) (row_at (cs_previous state) i)
  ∧ match row_usage state sample initial i with Some _ => true | None => false end
    = interval_measured initial (row_at (ca_cpus sample) i) (row_at (cs_previous state) i).
Proof.
  intros [_ Hp] Hs. unfold row_usage. fold (row_at (ca_cpus sample) i) (row_at (cs_previous state) i).
  rewrite interval_usage_spec by (apply row_at_wf; (done || apply Hs)).
  unfold busy_percent. by destruct (interval_measured _ _ _).
Qed.

Lemma row_share_spec counter state sample initial :
  (∀ c, counters_wf c → u64 (counter c)) → state_wf state → sample_wf sample →
  row_share counter state sample initial
  = share_percent counter initial (row_at (ca_cpus sample) 0) (row_at (cs_previous state) 0).
Proof.
  intros Hu [_ Hp] Hs. unfold row_share, row_usage.
  fold (row_at (ca_cpus sample) 0) (row_at (cs_previous state) 0).
  assert (counters_wf (row_at (ca_cpus sample) 0)) by apply row_at_wf, Hs.
  assert (counters_wf (row_at (cs_previous state) 0)) by by apply row_at_wf.
  rewrite interval_usage_spec by done.
  destruct (interval_measured _ _ _) eqn:Hm; [apply counter_share_spec; auto|].
  unfold share_percent. by rewrite Hm.
Qed.

End apply_theorems.

(** ** Witnesses *)

From S2P Require Import CommonReference.

Definition sample_stat : string :=
  "cpu  100 0 50 800 50 0 0 0" +:+ String nl
  ("cpu0 60 0 30 400 10 0 0 0" +:+ String nl ("intr 999 1 2" +:+ String nl "ctxt 12345")).

Definition busy_cpu : LsmCpuInfo := zero_LsmCpuInfo <| cpu_logical_cores := 1 |>.
Definition fresh_state : LsmCpuAccountingState :=
  {| cs_previous := replicate (S LSM_MAX_CPUS) zero_counters; cs_previous_interrupt_count := 0;
     cs_previous_context_switch_count := 0; cs_scheduler_events_initialized := true |}.

Lemma fresh_state_wf : state_wf fresh_state.
Proof.
  split; [apply length_replicate|].
  by apply (Forall_replicate _ (S LSM_MAX_CPUS) _), zero_counters_wf.
Qed.

Lemma cpu_parse_well_formed_witness :
  sample_wf (cpu_accounting_parse_mutable sample_stat).1
  ∧ (1 ≤ ca_cpu_count (cpu_accounting_parse_mutable sample_stat).1)%nat.
Proof.
  split; [exact (proj1 (cpu_parse_well_formed sample_stat))|].
  apply (proj2 (cpu_parse_well_formed sample_stat)). vm_compute. reflexivity.
Defined.

Lemma sample_stat_wf : sample_wf (cpu_accounting_parse_mutable sample_stat).1.
Proof. exact (proj1 (parse_payload_inv sample_stat)). Qed.

