(* ===== verification/DiskAccounting.v ===== *)
(** * DiskAccounting: throughput, activity and latency of a physical disk

    Models [src/src/disk_accounting.c]: cumulative kernel counters against the
    retained baselines of the previous sample. *)
From S2P Require Import Prelude Double CStrings Common MonitorTypes.
Local Open Scope Z_scope.

(** src: disk_accounting.h:19-29 LsmDiskAccountingState *)
Record LsmDiskAccountingState := {
  das_previous_read_sectors : Z;
  das_previous_write_sectors : Z;
  das_previous_read_operations : Z;
  das_previous_write_operations : Z;
  das_previous_read_ms : Z;
  das_previous_write_ms : Z;
  das_previous_io_ms : Z;
  das_previous_weighted_io_ms : Z;
  das_initialized : bool;
}.
#[export] Instance eta_LsmDiskAccountingState : Eta LsmDiskAccountingState := λ x,
  Build_LsmDiskAccountingState (das_previous_read_sectors x) (das_previous_write_sectors x)
    (das_previous_read_operations x) (das_previous_write_operations x)
    (das_previous_read_ms x) (das_previous_write_ms x) (das_previous_io_ms x)
    (das_previous_weighted_io_ms x) (das_initialized x).

(** src: disk_accounting.h:32-42 LsmDiskCounters *)
Record LsmDiskCounters := {
  dc_read_operations : Z;
  dc_read_sectors : Z;
  dc_read_ms : Z;
  dc_write_operations : Z;
  dc_write_sectors : Z;
  dc_write_ms : Z;
  dc_in_progress_operations : Z;
  dc_io_ms : Z;
  dc_weighted_io_ms : Z;
}.

Definition d10 : double := double_of_Z 10.
Definition d1000 : double := double_of_Z 1000.

(** Every metric of an interval is withdrawn. *)
(** src: disk_accounting.c:24-31 lsm_disk_accounting_update *)
Definition withdraw_metrics (disk : LsmDiskInfo) : LsmDiskInfo :=
  disk <| disk_read_bytes_per_sec := NAN |> <| disk_write_bytes_per_sec := NAN |>
       <| disk_active_percent := NAN |> <| disk_read_response_ms := NAN |>
       <| disk_write_response_ms := NAN |> <| disk_average_response_ms := NAN |>
       <| disk_queue_length := NAN |>.

Section disk_accounting.
Context `{ArithmeticOps}.

(** [if (lsm_u64_counter_rate(..., &rate)) field = f(rate);] *)
Definition rate_or (current previous : Z) (scale : ldouble) (elapsed : double)
    (f : double → double) (old : double) : double :=
  let '(ok, rate) := lsm_u64_counter_rate current previous scale elapsed d0 in
  if ok then f rate else old.

(** Both deltas, when both counters advanced; the second is not computed when
    the first fails. *)
(** src: disk_accounting.c:74-90 lsm_disk_accounting_update *)
Definition operation_deltas (operations previous_operations time previous_time : Z)
    : option (Z * Z) :=
  let '(ok, delta) := lsm_u64_counter_delta operations previous_operations 0 in
  if negb ok then None
  else let '(ok, elapsed) := lsm_u64_counter_delta time previous_time 0 in
       if ok then Some (delta, elapsed) else None.

(** [operations > 0U ? (double)time / (double)operations : 0.0] *)
Definition mean_response (deltas : Z * Z) : double :=
  if 0 <? deltas.1 then ddiv (double_of_Z deltas.2) (double_of_Z deltas.1) else d0.

(** The body of [if (state->initialized && elapsed_seconds > 0.0)]. *)
(** src: disk_accounting.c:55-112 lsm_disk_accounting_update *)
Definition publish_interval (disk : LsmDiskInfo) (state : LsmDiskAccountingState)
    (c : LsmDiskCounters) (elapsed : double) : LsmDiskInfo :=
  let disk := disk
    <| disk_read_bytes_per_sec :=
         rate_or (dc_read_sectors c) (das_previous_read_sectors state) (ldouble_of_Z 512)
                 elapsed (λ r, r) (disk_read_bytes_per_sec disk) |>
    <| disk_write_bytes_per_sec :=
         rate_or (dc_write_sectors c) (das_previous_write_sectors state) (ldouble_of_Z 512)
                 elapsed (λ r, r) (disk_write_bytes_per_sec disk) |>
    <| disk_active_percent :=
         rate_or (dc_io_ms c) (das_previous_io_ms state) (ldouble_of_Z 1) elapsed
                 (λ r, lsm_clamp_double (ddiv r d10) d0 d100) (disk_active_percent disk) |> in
  let read := operation_deltas (dc_read_operations c) (das_previous_read_operations state)
                               (dc_read_ms c) (das_previous_read_ms state) in
  let write := operation_deltas (dc_write_operations c) (das_previous_write_operations state)
                                (dc_write_ms c) (das_previous_write_ms state) in
  let disk := match read with
              | Some d => disk <| disk_read_response_ms := mean_response d |>
              | None => disk
              end in
  let disk := match write with
              | Some d => disk <| disk_write_response_ms := mean_response d |>
              | None => disk
              end in
  let disk := match read, write with
              | Some r, Some w =>
                  disk <| disk_average_response_ms :=
                            mean_response (lsm_u64_add_saturating r.1 w.1,
                                           lsm_u64_add_saturating r.2 w.2) |>
              | _, _ => disk
              end in
  disk <| disk_queue_length :=
            rate_or (dc_weighted_io_ms c) (das_previous_weighted_io_ms state) (ldouble_of_Z 1)
                    elapsed (λ r, fmax d0 (ddiv r d1000)) (disk_queue_length disk) |>.

(** The baselines the next sample is measured against. *)
(** src: disk_accounting.c:114-122 lsm_disk_accounting_update *)
Definition baseline (c : LsmDiskCounters) : LsmDiskAccountingState :=
  {| das_previous_read_sectors := dc_read_sectors c;
     das_previous_write_sectors := dc_write_sectors c;
     das_previous_read_operations := dc_read_operations c;
     das_previous_write_operations := dc_write_operations c;
     das_previous_read_ms := dc_read_ms c; das_previous_write_ms := dc_write_ms c;
     das_previous_io_ms := dc_io_ms c; das_previous_weighted_io_ms := dc_weighted_io_ms c;
     das_initialized := true |}.

(** src: disk_accounting.c lsm_disk_accounting_update *)
Definition lsm_disk_accounting_update (disk : LsmDiskInfo) (state : LsmDiskAccountingState)
    (counters : option LsmDiskCounters) (elapsed_seconds : double)
    : LsmDiskInfo * LsmDiskAccountingState :=
  match counters with
  | None => (withdraw_metrics disk, state <| das_initialized := false |>)
  | Some c =>
      let disk := disk
        <| disk_read_bytes_total := lsm_u64_multiply_saturating (dc_read_sectors c) 512 |>
        <| disk_write_bytes_total := lsm_u64_multiply_saturating (dc_write_sectors c) 512 |>
        <| disk_in_progress_operations :=
             if uint_max <? dc_in_progress_operations c then uint_max
             else dc_in_progress_operations c |> in
      let disk := withdraw_metrics disk in
      (if das_initialized state && dgt elapsed_seconds d0
       then publish_interval disk state c elapsed_seconds else disk,
       baseline c)
  end.
End disk_accounting.

(** ** Properties *)

Definition withdrawn (d : LsmDiskInfo) : Prop :=
  disk_read_bytes_per_sec d = NAN ∧ disk_write_bytes_per_sec d = NAN
  ∧ disk_active_percent d = NAN ∧ disk_read_response_ms d = NAN
  ∧ disk_write_response_ms d = NAN ∧ disk_average_response_ms d = NAN
  ∧ disk_queue_length d = NAN.

Record counters_u64 (c : LsmDiskCounters) : Prop := {
  cu_read_operations : u64 (dc_read_operations c);
  cu_read_sectors : u64 (dc_read_sectors c);
  cu_read_ms : u64 (dc_read_ms c);
  cu_write_operations : u64 (dc_write_operations c);
  cu_write_sectors : u64 (dc_write_sectors c);
  cu_write_ms : u64 (dc_write_ms c);
  cu_in_progress : u64 (dc_in_progress_operations c);
}.

Section disk_facts.
Context `{ArithmeticLaws}.

Lemma update_unmeasured disk state counters elapsed :
  das_initialized state = false ∨ dgt elapsed d0 = false ∨ counters = None →
  withdrawn (lsm_disk_accounting_update disk state counters elapsed).1.
Proof.
  intros Hc. destruct counters as [c|]; [|done]. simpl.
  destruct (das_initialized state && dgt elapsed d0) eqn:E; [|done].
  bool_hyps. destruct Hc as [?|[?|?]]; congruence.
Qed.

Lemma rate_or_rollback current previous scale elapsed f old :
  current < previous → rate_or current previous scale elapsed f old = old.
Proof.
  intros Hlt. unfold rate_or. pose proof (counter_rate_rollback current previous scale elapsed d0 Hlt).
  destruct (lsm_u64_counter_rate _ _ _ _ _). simpl in *. by subst.
Qed.

Lemma rate_or_cases current previous scale elapsed f old (P : double → Prop) :
  P old → (∀ r, isnan r = false → P (f r)) → P (rate_or current previous scale elapsed f old).
Proof.
  intros Hold Hf. unfold rate_or.
  pose proof (counter_rate_number current previous scale elapsed d0) as Hn.
  destruct (lsm_u64_counter_rate _ _ _ _ _) as [[] r]; [|done]. by apply Hf, Hn.
Qed.

Lemma operation_deltas_spec operations previous_operations time previous_time :
  u64 operations → u64 previous_operations → u64 time → u64 previous_time →
  operation_deltas operations previous_operations time previous_time =
    if (previous_operations <=? operations) && (previous_time <=? time)
    then Some (operations - previous_operations, time - previous_time) else None.
Proof.
  intros Ho Hpo Ht Hpt. unfold operation_deltas.
  pose proof (counter_delta_spec operations previous_operations 0 Ho Hpo) as Hd.
  pose proof (counter_delta_spec time previous_time 0 Ht Hpt) as Hd'.
  destruct (previous_operations <=? operations); simpl.
  - rewrite Hd. simpl. destruct (previous_time <=? time); [by rewrite Hd'|].
    destruct (lsm_u64_counter_delta time previous_time 0). simpl in Hd'. by subst.
  - destruct (lsm_u64_counter_delta operations previous_operations 0). simpl in Hd. by subst.
Qed.

(** A missing sample withdraws every rate and latency, and after
    it no later single sample can publish one: two valid observations are
    needed.  The same holds for the first sample and a non-positive interval. *)
Theorem disk_needs_two_observations disk state elapsed c elapsed' :
  let lost := lsm_disk_accounting_update disk state None elapsed in
  let first := lsm_disk_accounting_update lost.1 lost.2 (Some c) elapsed' in
  withdrawn lost.1 ∧ das_initialized lost.2 = false
  ∧ withdrawn first.1 ∧ first.2 = baseline c
  ∧ (das_initialized state = false ∨ dgt elapsed d0 = false →
     withdrawn (lsm_disk_accounting_update disk state (Some c) elapsed).1).
Proof.
  intros lost first. split_and!; try done.
  intros Hc. apply update_unmeasured. tauto.
Qed.

(** The interval metrics, field by field. *)
Lemma publish_fields disk state c elapsed :
  let d := publish_interval disk state c elapsed in
  let read := operation_deltas (dc_read_operations c) (das_previous_read_operations state)
                               (dc_read_ms c) (das_previous_read_ms state) in
  let write := operation_deltas (dc_write_operations c) (das_previous_write_operations state)
                                (dc_write_ms c) (das_previous_write_ms state) in
  (disk_read_bytes_per_sec d =
     rate_or (dc_read_sectors c) (das_previous_read_sectors state) (ldouble_of_Z 512)
             elapsed (λ r, r) (disk_read_bytes_per_sec disk)
   ∧ disk_write_bytes_per_sec d =
     rate_or (dc_write_sectors c) (das_previous_write_sectors state) (ldouble_of_Z 512)
             elapsed (λ r, r) (disk_write_bytes_per_sec disk)
   ∧ disk_active_percent d =
     rate_or (dc_io_ms c) (das_previous_io_ms state) (ldouble_of_Z 1) elapsed
             (λ r, lsm_clamp_double (ddiv r d10) d0 d100) (disk_active_percent disk)
   ∧ disk_queue_length d =
     rate_or (dc_weighted_io_ms c) (das_previous_weighted_io_ms state) (ldouble_of_Z 1)
             elapsed (λ r, fmax d0 (ddiv r d1000)) (disk_queue_length disk))
  ∧ (disk_read_response_ms d = match read with Some r => mean_response r
                               | None => disk_read_response_ms disk end
     ∧ disk_write_response_ms d = match write with Some w => mean_response w
                                  | None => disk_write_response_ms disk end
     ∧ disk_average_response_ms d =
         match read, write with
         | Some r, Some w => mean_response (lsm_u64_add_saturating r.1 w.1,
                                            lsm_u64_add_saturating r.2 w.2)
         | _, _ => disk_average_response_ms disk
         end)
  ∧ (disk_read_bytes_total d = disk_read_bytes_total disk
     ∧ disk_write_bytes_total d = disk_write_bytes_total disk
     ∧ disk_in_progress_operations d = disk_in_progress_operations disk).
Proof.
  intros d read write. subst d. unfold publish_interval. fold read write.
  destruct read, write; split_and!; done.
Qed.

(** Mean response over a pair of counters that both advanced. *)
Definition response_since (operations previous_operations time previous_time : Z) : double :=
  if (previous_operations <=? operations) && (previous_time <=? time)
  then mean_response (operations - previous_operations, time - previous_time) else NAN.

#[local] Opaque publish_interval.

(** An applied sample becomes the baseline; totals saturate;
    activity is NaN or a percentage and the queue length NaN or non-negative.  A
    rollback of a counter withdraws exactly the metrics computed from it, and
    response times are published from the two deltas when neither rolled back. *)
Theorem disk_rollback_isolated disk state prev c elapsed disk' state' :
  counters_u64 c → counters_u64 prev → state = baseline prev → dgt elapsed d0 = true →
  lsm_disk_accounting_update disk state (Some c) elapsed = (disk', state') →
  state' = baseline c
  ∧ disk_read_bytes_total disk' = Z.min uint64_max (dc_read_sectors c * 512)
  ∧ disk_write_bytes_total disk' = Z.min uint64_max (dc_write_sectors c * 512)
  ∧ disk_in_progress_operations disk' = Z.min uint_max (dc_in_progress_operations c)
  ∧ (disk_active_percent disk' = NAN ∨ in_percent (disk_active_percent disk'))
  ∧ (disk_queue_length disk' = NAN ∨ dle d0 (disk_queue_length disk') = true)
  ∧ (dc_read_sectors c < dc_read_sectors prev → disk_read_bytes_per_sec disk' = NAN)
  ∧ (dc_write_sectors c < dc_write_sectors prev → disk_write_bytes_per_sec disk' = NAN)
  ∧ (dc_io_ms c < dc_io_ms prev → disk_active_percent disk' = NAN)
  ∧ (dc_weighted_io_ms c < dc_weighted_io_ms prev → disk_queue_length disk' = NAN)
  ∧ disk_read_response_ms disk' =
      response_since (dc_read_operations c) (dc_read_operations prev)
                     (dc_read_ms c) (dc_read_ms prev)
  ∧ disk_write_response_ms disk' =
      response_since (dc_write_operations c) (dc_write_operations prev)
                     (dc_write_ms c) (dc_write_ms prev)
  ∧ (dc_read_operations c < dc_read_operations prev ∨ dc_read_ms c < dc_read_ms prev
     ∨ dc_write_operations c < dc_write_operations prev ∨ dc_write_ms c < dc_write_ms prev →
     disk_average_response_ms disk' = NAN).
Proof.
  intros [] [] -> He. simpl. rewrite He. intros [= <- <-].
  match goal with |- context [publish_interval ?d _ _ _] =>
    destruct (publish_fields d (baseline prev) c elapsed)
      as ((Hrb & Hwb & Hact & Hq) & (Hr & Hw & Ha) & (Ht1 & Ht2 & Hip)) end.
  simpl in Hrb, Hwb, Hact, Hq, Hr, Hw, Ha, Ht1, Ht2, Hip.
  rewrite operation_deltas_spec in Hr by done. rewrite operation_deltas_spec in Hw by done.
  rewrite 2!operation_deltas_spec in Ha by done.
  rewrite Hrb, Hwb, Hact, Hq, Hr, Hw, Ha, Ht1, Ht2, Hip.
  split_and!.
  - done.
  - by apply multiply_saturating_spec.
  - by apply multiply_saturating_spec.
  - destruct (Z.ltb_spec uint_max (dc_in_progress_operations c)); lia.
  - apply rate_or_cases; [by left|]. intros r Hn. right. apply clamp_bounds.
    by apply ddiv_not_nan.
  - apply rate_or_cases; [by left|]. intros r Hn. right. apply fmax_0_nonneg.
  - intros Hlt. by apply rate_or_rollback.
  - intros Hlt. by apply rate_or_rollback.
  - intros Hlt. by apply rate_or_rollback.
  - intros Hlt. by apply rate_or_rollback.
  - unfold response_since.
    by destruct (dc_read_operations prev <=? dc_read_operations c),
      (dc_read_ms prev <=? dc_read_ms c).
  - unfold response_since.
    by destruct (dc_write_operations prev <=? dc_write_operations c),
      (dc_write_ms prev <=? dc_write_ms c).
  - intros Hroll.
    destruct Hroll as [Hl|[Hl|[Hl|Hl]]]; apply Z.leb_gt in Hl; rewrite Hl, ?andb_false_r;
      [done|done| |];
      by destruct (dc_read_operations prev <=? dc_read_operations c),
        (dc_read_ms prev <=? dc_read_ms c).
Qed.
End disk_facts.

(** ** Witnesses *)

From S2P Require Import CommonReference.

Definition idle_counters : LsmDiskCounters :=
  {| dc_read_operations := 10; dc_read_sectors := 80; dc_read_ms := 5;
     dc_write_operations := 4; dc_write_sectors := 32; dc_write_ms := 2;
     dc_in_progress_operations := 0; dc_io_ms := 7; dc_weighted_io_ms := 7 |}.
(** The read counter restarted, the write counter advanced. *)
Definition restarted_counters : LsmDiskCounters :=
  {| dc_read_operations := 1; dc_read_sectors := 8; dc_read_ms := 1;
     dc_write_operations := 6; dc_write_sectors := 64; dc_write_ms := 12;
     dc_in_progress_operations := 5000000000; dc_io_ms := 107; dc_weighted_io_ms := 207 |}.

Lemma disk_rollback_isolated_witness :
  ∃ disk' state',
    lsm_disk_accounting_update zero_LsmDiskInfo (baseline idle_counters)
      (Some restarted_counters) d1 = (disk', state')
    ∧ disk_read_bytes_per_sec disk' = NAN
    ∧ disk_write_response_ms disk' = double_of_Z 5
    ∧ disk_in_progress_operations disk' = uint_max.
Proof.
  eexists _, _. split; [reflexivity|].
  assert (Hc : counters_u64 restarted_counters) by (split; vm_compute; split; discriminate).
  assert (Hp : counters_u64 idle_counters) by (split; vm_compute; split; discriminate).
  destruct (disk_rollback_isolated zero_LsmDiskInfo _ idle_counters restarted_counters d1 _ _
    Hc Hp eq_refl eq_refl eq_refl) as (_ & _ & _ & Hip & _ & _ & Hr & _ & _ & _ & _ & Hw & _).
  split; [apply Hr; reflexivity|]. split; [exact Hw|exact Hip].
Defined.
