(* ===== verification/DiskMonitor.v ===== *)
(** * DiskMonitor: physical disks, their partitions and their samples

    Models the disk half of [src/src/monitor_storage_network.c].  A topology refresh
    joins the block devices with the partitions, sorts the disks by name and moves
    the retained baselines along; a sample reads /proc/diskstats line by line,
    finds each named disk by binary search and applies [DiskAccounting].

    The record sets of the system sources, [statvfs] and [strverscmp] are
    arguments; the arrays [mon_disks] and [disks] are the lists of their counted
    elements. *)
From S2P Require Import Prelude Double CStrings Common ProcessModel MonitorTypes HardwareTopology DiskAccounting SortedVector.
From Stdlib Require Sorted.
Local Open Scope Z_scope.

(** src: system_sources.h:25-34 LsmBlockDeviceRecord *)
Record LsmBlockDeviceRecord := {
  bd_name : string;
  bd_instance_identity : string;
  bd_model : string;
  bd_media_type : string;
  bd_connection_type : string;
  bd_size_bytes : Z;
}.

(** src: system_sources.h:46-53 LsmPartitionRecord *)
Record LsmPartitionRecord := {
  pt_device : string;
  pt_mount_point : string;
  pt_filesystem : string;
  pt_parent_disk : string;
  pt_size_bytes : Z;
  pt_mounted : bool;
}.

(** src: monitor_linux_internal.h:31-35 LsmLinuxDiskState *)
Record LsmLinuxDiskState := {
  dks_name : string;
  dks_instance_identity : string;
  dks_accounting : LsmDiskAccountingState;
}.
#[export] Instance eta_LsmLinuxDiskState : Eta LsmLinuxDiskState := λ x,
  Build_LsmLinuxDiskState (dks_name x) (dks_instance_identity x) (dks_accounting x).

(** The part of the monitor and its backend state these functions use.  The
    generation of the topology is counted here as far as disks advance it. *)
Record DiskMonitor := {
  dm_disks : list LsmDiskInfo;
  dm_states : list LsmLinuxDiskState;
  dm_disk_generation : Z;
  dm_topology_generation : Z;
}.
#[export] Instance eta_DiskMonitor : Eta DiskMonitor := λ x,
  Build_DiskMonitor (dm_disks x) (dm_states x) (dm_disk_generation x) (dm_topology_generation x).

Definition zero_accounting : LsmDiskAccountingState :=
  Build_LsmDiskAccountingState 0 0 0 0 0 0 0 0 false.

(** What [statvfs] reports of a mount point. *)
Record FilesystemUsage := { fu_blocks : Z; fu_bfree : Z; fu_frsize : Z; fu_bsize : Z }.

(** ** Look-ups *)

(** src: monitor_storage_network.c compare_disk_names *)
Definition compare_disk_names (a b : LsmDiskInfo) : comparison := strcmp (disk_name a) (disk_name b).

(** src: monitor_storage_network.c find_disk_state *)
Definition find_disk_state (states : list LsmLinuxDiskState) (name : string) : option (nat * LsmLinuxDiskState) :=
  list_find (λ state, strcmp_eq (dks_name state) name) states.

(** src: monitor_storage_network.c disk_instance_matches *)
Definition disk_instance_matches (left right : string) : bool :=
  nonempty left && nonempty right && strcmp_eq left right.

(** src: monitor_storage_network.c find_old_disk *)
Definition find_old_disk (disks : list LsmDiskInfo) (disk : LsmDiskInfo) : option LsmDiskInfo :=
  snd <$> list_find (λ old, strcmp_eq (disk_name old) (disk_name disk)
    && disk_instance_matches (disk_instance_identity old) (disk_instance_identity disk)) disks.

(** src: monitor_storage_network.c find_disk_in_set *)
Definition find_disk_in_set (disks : list LsmDiskInfo) (name : string) : option (nat * LsmDiskInfo) :=
  list_find (λ disk, strcmp_eq (disk_name disk) name) disks.

(** Lower bound of a name; the range halves, so its width is enough fuel. *)
(** src: monitor_storage_network.c:270-279 find_disk *)
Fixpoint find_disk_loop (fuel : nat) (disks : list LsmDiskInfo) (name : string) (low high : nat) : nat :=
  match fuel with
  | O => low
  | S fuel =>
      if (low <? high)%nat then
        let middle := (low + (high - low) / 2)%nat in
        match disks !! middle with
        | Some disk =>
            match strcmp (disk_name disk) name with
            | Lt => find_disk_loop fuel disks name (middle + 1) high
            | _ => find_disk_loop fuel disks name low middle
            end
        | None => low
        end
      else low
  end.

(** src: monitor_storage_network.c find_disk *)
Definition find_disk (disks : list LsmDiskInfo) (name : string) : option nat :=
  let low := find_disk_loop (length disks) disks name 0 (length disks) in
  match disks !! low with
  | Some disk => if strcmp_eq (disk_name disk) name then Some low else None
  | None => None
  end.

Section disks.
Context `{TextOps, ArithmeticOps, Qsort}.
Context (statvfs : string → option FilesystemUsage) (strverscmp : string → string → comparison).

(** ** Partitions *)

(** The usage [statvfs] gives: total, used, rounded percentage. *)
(** src: monitor_storage_network.c:117-135 append_partition *)
Definition partition_usage (usage : FilesystemUsage) : option (Z * Z * Z) :=
  let block_size := if fu_frsize usage =? 0 then fu_bsize usage else fu_frsize usage in
  let '(total_ok, total) := lsm_u64_multiply_checked (fu_blocks usage) block_size 0 in
  if negb total_ok then None else
  let '(free_ok, free_bytes) := lsm_u64_multiply_checked (fu_bfree usage) block_size 0 in
  if negb free_ok then None else
  let used := if free_bytes <=? total then total - free_bytes else 0 in
  Some (total, used,
        if 0 <? total then trunc_Z (dadd (lsm_percent_u64 used total) (ddiv (double_of_Z 1) (double_of_Z 2))) else 0).

(** src: monitor_storage_network.c append_partition *)
Definition append_partition (disk : LsmDiskInfo) (device mount_point filesystem : string) (partition_size : Z)
    (mounted : bool) : LsmDiskInfo :=
  if Z.of_nat LSM_MAX_PARTITIONS <=? disk_partition_count disk then disk else
  let partition :=
    {| part_device := lsm_copy_string LSM_PATH_LEN device;
       part_mount_point := lsm_copy_string LSM_PATH_LEN mount_point;
       part_filesystem := lsm_copy_string 64 (if nonempty filesystem then filesystem else "partition");
       part_total_bytes := partition_size; part_used_bytes := 0; part_used_percent := 0;
       part_usage_known := false |} in
  let partition :=
    match (if mounted && nonempty mount_point then statvfs mount_point ≫= partition_usage else None) with
    | Some (total, used, percent) =>
        partition <| part_total_bytes := total |> <| part_used_bytes := used |> <| part_used_percent := percent |>
                  <| part_usage_known := true |>
    | None => partition
    end in
  disk <| disk_partitions := <[Z.to_nat (disk_partition_count disk) := partition]> (disk_partitions disk) |>
       <| disk_partition_count := disk_partition_count disk + 1 |>.

(** src: monitor_storage_network.c compare_partition_devices *)
Definition compare_partition_devices (a b : LsmPartitionInfo) : comparison :=
  strverscmp (part_device a) (part_device b).

(** src: monitor_storage_network.c:164-168 update_all_disk_partitions *)
Definition clear_partitions (disk : LsmDiskInfo) : LsmDiskInfo :=
  disk <| disk_partition_count := 0 |> <| disk_system_disk := false |>
       <| disk_partitions := replicate LSM_MAX_PARTITIONS zero_LsmPartitionInfo |>.

(** One record, given to its disk. *)
(** src: monitor_storage_network.c:171-177 update_all_disk_partitions *)
Definition give_partition (disk : LsmDiskInfo) (p : LsmPartitionRecord) : LsmDiskInfo :=
  if Z.of_nat LSM_MAX_PARTITIONS <=? disk_partition_count disk then disk else
  let disk := append_partition disk (pt_device p) (pt_mount_point p) (pt_filesystem p) (pt_size_bytes p) (pt_mounted p) in
  if pt_mounted p && strcmp_eq (pt_mount_point p) "/" then disk <| disk_system_disk := true |> else disk.

(** src: monitor_storage_network.c:169-177 update_all_disk_partitions *)
Definition place_partition (disks : list LsmDiskInfo) (p : LsmPartitionRecord) : list LsmDiskInfo :=
  match find_disk_in_set disks (pt_parent_disk p) with
  | Some (index, disk) => <[index := give_partition disk p]> disks
  | None => disks
  end.

Definition sort_partitions (disk : LsmDiskInfo) : LsmDiskInfo :=
  disk <| disk_partitions := sort_items compare_partition_devices (disk_partition_count disk) (disk_partitions disk) |>.

(** [None]: no memory, or the records could not be read. *)
(** src: monitor_storage_network.c update_all_disk_partitions *)
Definition update_all_disk_partitions (disks : list LsmDiskInfo) (partitions : option (list LsmPartitionRecord))
    : option (list LsmDiskInfo) :=
  (λ partitions, sort_partitions <$> fold_left place_partition partitions (clear_partitions <$> disks)) <$> partitions.

(** ** Topology *)

(** src: monitor_storage_network.c reconcile_disk_states *)
Definition reconcile_disk_states (states : list LsmLinuxDiskState) (disks : list LsmDiskInfo) : list LsmLinuxDiskState :=
  (λ disk,
     let next :=
       match find_disk_state states (disk_name disk) with
       | Some (_, old) =>
           if disk_instance_matches (dks_instance_identity old) (disk_instance_identity disk) then old
           else Build_LsmLinuxDiskState "" "" zero_accounting
       | None => Build_LsmLinuxDiskState "" "" zero_accounting
       end in
     next <| dks_name := lsm_copy_string 64 (disk_name disk) |>
          <| dks_instance_identity := lsm_copy_string LSM_IDENTITY_LEN (disk_instance_identity disk) |>)
  <$> take LSM_MAX_DISKS disks.

(** src: monitor_storage_network.c:205-216 refresh_disks *)
Definition discovered_disk (record : LsmBlockDeviceRecord) : LsmDiskInfo :=
  zero_LsmDiskInfo
    <| disk_name := lsm_copy_string 64 (bd_name record) |>
    <| disk_instance_identity := lsm_copy_string LSM_IDENTITY_LEN (bd_instance_identity record) |>
    <| disk_model := lsm_copy_string LSM_NAME_LEN (bd_model record) |>
    <| disk_media_type := lsm_copy_string 16 (bd_media_type record) |>
    <| disk_connection_type := lsm_copy_string 32 (bd_connection_type record) |>
    <| disk_size_bytes := bd_size_bytes record |>.

(** src: monitor_storage_network.c:223-232 refresh_disks *)
Definition keep_metrics (old disk : LsmDiskInfo) : LsmDiskInfo :=
  disk <| disk_read_bytes_per_sec := disk_read_bytes_per_sec old |>
       <| disk_write_bytes_per_sec := disk_write_bytes_per_sec old |>
       <| disk_active_percent := disk_active_percent old |>
       <| disk_average_response_ms := disk_average_response_ms old |>
       <| disk_read_response_ms := disk_read_response_ms old |>
       <| disk_write_response_ms := disk_write_response_ms old |>
       <| disk_queue_length := disk_queue_length old |>
       <| disk_read_bytes_total := disk_read_bytes_total old |>
       <| disk_write_bytes_total := disk_write_bytes_total old |>
       <| disk_in_progress_operations := disk_in_progress_operations old |>.

(** src: monitor_storage_network.c:219-234 refresh_disks *)
Definition retained_disk (disks : list LsmDiskInfo) (disk : LsmDiskInfo) : LsmDiskInfo :=
  match find_old_disk disks disk with Some old => keep_metrics old disk | None => disk end.

(** src: monitor_storage_network.c:242-253 refresh_disks *)
Definition disks_changed (discovered disks : list LsmDiskInfo) : bool :=
  negb (length discovered =? length disks)%nat
  || existsb (λ '(disk, old), negb (strcmp_eq (disk_name disk) (disk_name old))
       || negb (disk_instance_matches (disk_instance_identity disk) (disk_instance_identity old))) (zip discovered disks).

(** src: monitor_storage_network.c refresh_disks *)
Definition refresh_disks (m : DiskMonitor) (allocated : bool) (records : option (list LsmBlockDeviceRecord))
    (partitions : option (list LsmPartitionRecord)) : bool * DiskMonitor :=
  if negb allocated then (false, m) else
  match records with
  | None => (false, m)
  | Some records =>
      let discovered := retained_disk (dm_disks m) <$> (discovered_disk <$> records) in
      match update_all_disk_partitions discovered partitions with
      | None => (false, m)
      | Some discovered =>
          let discovered := qsort compare_disk_names discovered in
          let states := reconcile_disk_states (dm_states m) discovered in
          let changed := disks_changed discovered (dm_disks m) in
          let m := m <| dm_states := states |> <| dm_disks := discovered |> in
          (true, if changed || (dm_disk_generation m =? 0)
                 then m <| dm_disk_generation := wrap 64 (dm_disk_generation m + 1) |>
                        <| dm_topology_generation := wrap 64 (dm_topology_generation m + 1) |>
                 else m)
      end
  end.
End disks.

(** ** /proc/diskstats

    [sscanf] with the format of [update_disks]: two [%u], a [%63s] and eleven
    [%llu].  A number is an optional sign and decimal digits; one that does not
    fit saturates. *)

Definition is_c_space (c : ascii) : bool :=
  existsb (Ascii.eqb c) ["009"; "010"; "011"; "012"; "013"; " "]%char.

Definition scan_u64 (text : string) : option (Z * string) :=
  let text := skip is_c_space text in
  let '(negative, text) :=
    match text with
    | String c rest => if Ascii.eqb c "-" then (true, rest) else if Ascii.eqb c "+" then (false, rest) else (false, text)
    | EmptyString => (false, text)
    end in
  let '(digits, rest) := span (λ c, negb (is_decimal c)) text in
  if negb (nonempty digits) then None else
  let value := digits_value 0 digits in
  Some (if uint64_max <? value then uint64_max else if negative : bool then wrap 64 (- value) else value, rest).

(** [%<width>s] *)
Fixpoint scan_word (width : nat) (text : string) : string * string :=
  match width, text with
  | S width, String c rest =>
      if is_c_space c then (EmptyString, text) else let '(word, rest) := scan_word width rest in (String c word, rest)
  | _, _ => (EmptyString, text)
  end.

Fixpoint scan_numbers (count : nat) (text : string) : option (list Z) :=
  match count with
  | O => Some []
  | S count =>
      match scan_u64 text with
      | Some (value, rest) => cons value <$> scan_numbers count rest
      | None => None
      end
  end.

(** A line with its fourteen fields. *)
(** src: monitor_storage_network.c:305-317 update_disks *)
Definition scan_diskstats_line (line : string) : option (string * LsmDiskCounters) :=
  match scan_u64 (c_string line) with
  | None => None
  | Some (_, rest) =>
      match scan_u64 rest with
      | None => None
      | Some (_, rest) =>
          let '(name, rest) := scan_word 63 (skip is_c_space rest) in
          if negb (nonempty name) then None else
          match scan_numbers 11 rest with
          | Some [reads; _; read_sectors; read_ms; writes; _; write_sectors; write_ms; in_progress; io_ms; weighted_ms] =>
              Some (name,
                {| dc_read_operations := reads; dc_read_sectors := read_sectors; dc_read_ms := read_ms;
                   dc_write_operations := writes; dc_write_sectors := write_sectors; dc_write_ms := write_ms;
                   dc_in_progress_operations := in_progress; dc_io_ms := io_ms; dc_weighted_io_ms := weighted_ms |})
          | _ => None
          end
      end
  end.

(** [sampled] and [snapshots] together: the counters of a disk once a line named
    it. *)
(** src: monitor_storage_network.c:304-318 update_disks *)
Definition sample_line (disks : list LsmDiskInfo) (snapshots : list (option LsmDiskCounters)) (line : string)
    : list (option LsmDiskCounters) :=
  match scan_diskstats_line line with
  | None => snapshots
  | Some (name, counters) =>
      match find_disk disks name with
      | Some index => <[index := Some counters]> snapshots
      | None => snapshots
      end
  end.

(** The stream: its contents, and whether every read and the close succeeded. *)
Record Diskstats := { ds_content : string; ds_read_ok : bool; ds_close_ok : bool }.

Section sampling.
Context `{ArithmeticOps}.

(** src: monitor_storage_network.c:324-332 update_disks *)
Fixpoint apply_samples (elapsed : double) (samples : list (LsmDiskInfo * option LsmDiskCounters))
    (states : list LsmLinuxDiskState) : list LsmDiskInfo * list LsmLinuxDiskState :=
  match samples with
  | [] => ([], states)
  | (disk, counters) :: samples =>
      let '(disk, states) :=
        match find_disk_state states (disk_name disk) with
        | Some (index, state) =>
            let '(disk, accounting) := lsm_disk_accounting_update disk (dks_accounting state) counters elapsed in
            (disk, <[index := state <| dks_accounting := accounting |>]> states)
        | None => (disk, states)
        end in
      let '(disks, states) := apply_samples elapsed samples states in
      (disk :: disks, states)
  end.

(** src: monitor_storage_network.c update_disks *)
Definition update_disks (m : DiskMonitor) (file : option Diskstats) (elapsed : double) : DiskMonitor :=
  let snapshots :=
    match file with
    | None => replicate LSM_MAX_DISKS None
    | Some file =>
        let snapshots := fold_left (sample_line (dm_disks m)) (fgets_all 512 (ds_content file))
                           (replicate LSM_MAX_DISKS None) in
        if ds_read_ok file && ds_close_ok file then snapshots else replicate LSM_MAX_DISKS None
    end in
  let '(disks, states) := apply_samples elapsed (zip (dm_disks m) snapshots) (dm_states m) in
  m <| dm_disks := disks |> <| dm_states := states |>.
End sampling.

(** ** The disks as a map *)

Record Disk := { dk_info : LsmDiskInfo; dk_accounting : LsmDiskAccountingState }.

Definition disk_row (disk : LsmDiskInfo) (state : LsmLinuxDiskState) : string * Disk :=
  (disk_name disk, Build_Disk disk (dks_accounting state)).

Definition disks_of (disks : list LsmDiskInfo) (states : list LsmLinuxDiskState) : gmap string Disk :=
  list_to_map (zip_with disk_row disks states).

Definition disks_map (m : DiskMonitor) : gmap string Disk := disks_of (dm_disks m) (dm_states m).

Section map_model.
Context `{TextOps, ArithmeticOps, Qsort}.
Context (statvfs : string → option FilesystemUsage) (strverscmp : string → string → comparison).

(** A disk of the topology: its own partitions; the metrics and the baselines of
    the same instance when it was known under that name. *)
Definition known_disk (known : gmap string Disk) (disk : LsmDiskInfo) : Disk :=
  match known !! disk_name disk with
  | Some old =>
      if disk_instance_matches (disk_instance_identity (dk_info old)) (disk_instance_identity disk)
      then Build_Disk (keep_metrics (dk_info old) disk) (dk_accounting old)
      else Build_Disk disk zero_accounting
  | None => Build_Disk disk zero_accounting
  end.

Definition with_partitions (partitions : list LsmPartitionRecord) (disk : LsmDiskInfo) : LsmDiskInfo :=
  sort_partitions strverscmp
    (fold_left (give_partition statvfs) (filter (λ p, pt_parent_disk p = disk_name disk) partitions)
       (clear_partitions disk)).

Definition discover_disks (known : gmap string Disk) (records : list LsmBlockDeviceRecord)
    (partitions : list LsmPartitionRecord) : gmap string Disk :=
  list_to_map ((λ r, let disk := known_disk known (discovered_disk r) in
    (bd_name r, Build_Disk (with_partitions partitions (dk_info disk)) (dk_accounting disk))) <$> records).

(** The counters of a disk: those of the last line that names it. *)
Definition named_counters (name line : string) : option LsmDiskCounters :=
  match scan_diskstats_line line with
  | Some (named, counters) => if strcmp_eq named name then Some counters else None
  | None => None
  end.

Definition own_counters (file : option Diskstats) (name : string) : option LsmDiskCounters :=
  match file with
  | Some file =>
      if ds_read_ok file && ds_close_ok file then last (omap (named_counters name) (fgets_all 512 (ds_content file)))
      else None
  | None => None
  end.

Definition sample_disk (counters : option LsmDiskCounters) (elapsed : double) (disk : Disk) : Disk :=
  let '(info, accounting) := lsm_disk_accounting_update (dk_info disk) (dk_accounting disk) counters elapsed in
  Build_Disk info accounting.

Definition sample_disks (known : gmap string Disk) (file : option Diskstats) (elapsed : double) : gmap string Disk :=
  map_imap (λ name disk, Some (sample_disk (own_counters file name) elapsed disk)) known.
End map_model.

(** ** Binary search *)

Definition before_disk (a b : LsmDiskInfo) : Prop := strcmp (disk_name a) (disk_name b) = Lt.

(** Sorted by name, names distinct. *)
Definition sorted_disks (disks : list LsmDiskInfo) : Prop := Sorted.StronglySorted before_disk disks.

Lemma find_disk_loop_spec disks name fuel low high : sorted_disks disks →
  (high <= length disks)%nat → (high - low <= fuel)%nat → (low <= high)%nat →
  (∀ i d, (i < low)%nat → disks !! i = Some d → strcmp (disk_name d) name = Lt) →
  (∀ i d, (high <= i)%nat → disks !! i = Some d → strcmp (disk_name d) name ≠ Lt) →
  let r := find_disk_loop fuel disks name low high in
  (∀ i d, (i < r)%nat → disks !! i = Some d → strcmp (disk_name d) name = Lt) ∧
  (∀ i d, (r <= i)%nat → disks !! i = Some d → strcmp (disk_name d) name ≠ Lt).
Proof.
  intros Hs. revert low high. induction fuel as [|fuel IH]; intros low high Hh Hf Hlh Hlo Hhi; cbn [find_disk_loop].
  { assert (low = high) as -> by lia. auto. }
  destruct (Nat.ltb_spec low high) as [Hlt|Hge].
  2:{ assert (low = high) as -> by lia. auto. }
  set (middle := (low + (high - low) / 2)%nat).
  assert (Hm : (low ≤ middle < high)%nat).
  { unfold middle. pose proof (Nat.div_lt (high - low) 2 ltac:(lia) ltac:(lia)). lia. }
  destruct (lookup_lt_is_Some_2 disks middle ltac:(lia)) as [c Hc]. rewrite Hc.
  assert (Hge' : strcmp (disk_name c) name ≠ Lt → ∀ i d, (middle <= i)%nat → disks !! i = Some d → strcmp (disk_name d) name ≠ Lt).
  { intros Hk i d Hi Hd Hd'. destruct (decide (i = middle)) as [->|Hne]; [congruence|]. apply Hk.
    apply (strcmp_lt_trans _ (disk_name d)); [|done].
    eapply (strongly_sorted_lookup before_disk disks middle i c d Hs); [lia|done|done]. }
  destruct (strcmp (disk_name c) name) eqn:Hk; apply IH; try lia; auto; try (by apply Hge'; congruence).
  intros i d Hi Hd. destruct (decide (i = middle)) as [->|Hne]; [congruence|].
  apply (strcmp_lt_trans _ (disk_name c)); [|done].
  eapply (strongly_sorted_lookup before_disk disks i middle d c Hs); [lia|done|done].
Qed.

(** The search finds what is there. *)
Lemma find_disk_spec disks name i : sorted_disks disks →
  find_disk disks name = Some i ↔ ∃ d, disks !! i = Some d ∧ disk_name d = name.
Proof.
  intros Hs. unfold find_disk.
  destruct (find_disk_loop_spec disks name (length disks) 0 (length disks) Hs) as [Hlo Hhi]; try lia.
  { intros j d Hj Hd. apply lookup_lt_Some in Hd. lia. }
  set (low := find_disk_loop _ _ _ _ _) in *. split.
  - destruct (disks !! low) as [d|] eqn:Hd; [|done]. destruct (strcmp_eq (disk_name d) name) eqn:E; [|done].
    intros [= <-]. exists d. by apply strcmp_eq_true in E.
  - intros (d & Hd & <-). assert (Hi : (low <= i)%nat).
    { destruct (Nat.le_gt_cases low i); [done|]. specialize (Hlo i d ltac:(done) Hd). by rewrite strcmp_refl in Hlo. }
    destruct (decide (low = i)) as [->|Hne]; [by rewrite Hd, (proj2 (strcmp_eq_true _ _) eq_refl)|].
    destruct (lookup_lt_is_Some_2 disks low) as [c Hc]; [apply lookup_lt_Some in Hd; lia|].
    exfalso. apply (Hhi low c ltac:(lia) Hc). eapply (strongly_sorted_lookup before_disk disks low i c d Hs); [lia|done|done].
Qed.

Lemma sorted_disks_distinct disks : sorted_disks disks → NoDup (disk_name <$> disks).
Proof.
  intros Hs. apply NoDup_alt. intros i j name Hi Hj.
  apply list_lookup_fmap_Some in Hi as (d & -> & Hi). apply list_lookup_fmap_Some in Hj as (d' & E & Hj).
  assert (∀ i j d d', disks !! i = Some d → disks !! j = Some d' → disk_name d = disk_name d' → ¬ (i < j)%nat) as Hno.
  { clear -Hs. intros i j d d' Hi Hj E Hlt. pose proof (strongly_sorted_lookup before_disk disks i j d d' Hs Hlt Hi Hj) as Hb.
    unfold before_disk in Hb. by rewrite E, strcmp_refl in Hb. }
  destruct (Nat.lt_trichotomy i j) as [Hlt|[->|Hlt]]; [exfalso|done|exfalso].
  - exact (Hno _ _ _ _ Hi Hj E Hlt).
  - exact (Hno _ _ _ _ Hj Hi (eq_sym E) Hlt).
Qed.

(** ** Partitions reach their own disk *)

Section partitions.
Context `{TextOps, ArithmeticOps, Qsort}.
Context (statvfs : string → option FilesystemUsage) (strverscmp : string → string → comparison).

Lemma give_partition_same disk p :
  disk_name (give_partition statvfs disk p) = disk_name disk ∧
  disk_instance_identity (give_partition statvfs disk p) = disk_instance_identity disk.
Proof.
  unfold give_partition, append_partition. destruct (_ <=? _); [done|]. destruct (_ && strcmp_eq _ _); done.
Qed.

Lemma give_partitions_same ps disk :
  disk_name (fold_left (give_partition statvfs) ps disk) = disk_name disk ∧
  disk_instance_identity (fold_left (give_partition statvfs) ps disk) = disk_instance_identity disk.
Proof.
  revert disk. induction ps as [|p ps IH]; intros disk; [done|]. cbn. destruct (IH (give_partition statvfs disk p)) as [-> ->].
  apply give_partition_same.
Qed.

Lemma place_partition_map disks p : NoDup (disk_name <$> disks) →
  place_partition statvfs disks p =
  (λ disk, if strcmp_eq (disk_name disk) (pt_parent_disk p) then give_partition statvfs disk p else disk) <$> disks.
Proof.
  unfold place_partition, find_disk_in_set. induction disks as [|disk disks IH]; intros Hd; [done|].
  rewrite fmap_cons in Hd. apply NoDup_cons in Hd as [Hnew Hd]. cbn [list_find].
  rewrite fmap_cons. destruct (decide _) as [E%Is_true_true|E%Is_true_false]; cbv beta iota; rewrite E.
  - change (give_partition statvfs disk p :: disks = give_partition statvfs disk p ::
      ((λ disk, if strcmp_eq (disk_name disk) (pt_parent_disk p) then give_partition statvfs disk p else disk) <$> disks)).
    f_equal. transitivity (id <$> disks); [symmetry; apply list_fmap_id|]. apply list_fmap_ext. intros i d Hi. cbv beta.
    rewrite strcmp_eq_ne; [done|]. intros Hn. apply Hnew. apply strcmp_eq_true in E. rewrite E, <- Hn.
    apply list_elem_of_fmap_2. by eapply list_elem_of_lookup_2.
  - rewrite <- IH by done. by destruct (list_find _ disks) as [[i d]|].
Qed.

Lemma place_partitions_map ps disks : NoDup (disk_name <$> disks) →
  fold_left (place_partition statvfs) ps disks =
  (λ disk, fold_left (give_partition statvfs) (filter (λ p, pt_parent_disk p = disk_name disk) ps) disk) <$> disks.
Proof.
  revert disks. induction ps as [|p ps IH]; intros disks Hd; cbn [fold_left].
  { symmetry. apply list_fmap_id. }
  set (give := λ disk, if strcmp_eq (disk_name disk) (pt_parent_disk p) then give_partition statvfs disk p else disk).
  assert (Hname : ∀ d, disk_name (give d) = disk_name d).
  { intros d. unfold give. destruct (strcmp_eq _ _); [apply give_partition_same|done]. }
  rewrite place_partition_map by done. fold give. rewrite IH.
  2:{ rewrite <- list_fmap_compose. erewrite list_fmap_ext; [exact Hd|]. intros i d _. apply Hname. }
  rewrite <- list_fmap_compose. apply list_fmap_ext. intros i d _. unfold compose. rewrite Hname, filter_cons. unfold give.
  destruct (decide (pt_parent_disk p = disk_name d)) as [E|E].
  - by rewrite (proj2 (strcmp_eq_true _ _) (eq_sym E)).
  - rewrite strcmp_eq_ne by done. done.
Qed.

Lemma update_partitions_map disks ps : NoDup (disk_name <$> disks) →
  update_all_disk_partitions statvfs strverscmp disks (Some ps) = Some (with_partitions statvfs strverscmp ps <$> disks).
Proof.
  intros Hd. unfold update_all_disk_partitions. cbn. f_equal.
  rewrite place_partitions_map by (rewrite <- list_fmap_compose; done).
  rewrite <- !list_fmap_compose. done.
Qed.

Lemma with_partitions_same ps disk :
  disk_name (with_partitions statvfs strverscmp ps disk) = disk_name disk ∧
  disk_instance_identity (with_partitions statvfs strverscmp ps disk) = disk_instance_identity disk.
Proof. apply (give_partitions_same _ (clear_partitions disk)). Qed.
End partitions.

(** ** Topology *)

Definition same_disk (disk : LsmDiskInfo) (state : LsmLinuxDiskState) : Prop :=
  dks_name state = disk_name disk ∧ dks_instance_identity state = disk_instance_identity disk.

Record disks_aligned (disks : list LsmDiskInfo) (states : list LsmLinuxDiskState) : Prop := {
  da_same : Forall2 same_disk disks states;
  da_sorted : sorted_disks disks;
  da_capacity : (length disks <= LSM_MAX_DISKS)%nat;
}.

(** The records of the block class: names are those of a directory. *)
Record block_records_ok (records : list LsmBlockDeviceRecord) : Prop := {
  br_capacity : (length records <= LSM_MAX_DISKS)%nat;
  br_fit : Forall (λ r, (String.length (bd_name r) < 64)%nat ∧
                        (String.length (bd_instance_identity r) < LSM_IDENTITY_LEN)%nat) records;
  br_distinct : NoDup (bd_name <$> records);
}.

Lemma find_old_disk_cons old disks disk :
  find_old_disk (old :: disks) disk =
  if strcmp_eq (disk_name old) (disk_name disk)
     && disk_instance_matches (disk_instance_identity old) (disk_instance_identity disk)
  then Some old else find_old_disk disks disk.
Proof.
  unfold find_old_disk. cbn [list_find]. destruct (_ && _); [done|]. cbn. by destruct (list_find _ disks) as [[]|].
Qed.

Lemma find_disk_state_cons state states name :
  snd <$> find_disk_state (state :: states) name =
  if strcmp_eq (dks_name state) name then Some state else snd <$> find_disk_state states name.
Proof.
  unfold find_disk_state. cbn [list_find]. destruct (strcmp_eq _ _); [done|]. cbn. by destruct (list_find _ states) as [[]|].
Qed.

Lemma find_old_disk_absent disks disk : disk_name disk ∉ disk_name <$> disks → find_old_disk disks disk = None.
Proof.
  intros Hn. unfold find_old_disk. destruct (list_find _ disks) as [[i old]|] eqn:E; [|done]. exfalso. apply Hn.
  apply list_find_Some in E as (Hi & Hm & _). apply Is_true_true in Hm. bool_hyps.
  match goal with He : strcmp_eq _ _ = true |- _ => apply strcmp_eq_true in He; rewrite <- He end.
  apply list_elem_of_fmap_2. by eapply list_elem_of_lookup_2.
Qed.

(** Both arrays are searched by name. *)
Lemma disks_lookup disks states disk : Forall2 same_disk disks states → NoDup (disk_name <$> disks) →
  match disks_of disks states !! disk_name disk with
  | Some known =>
      ∃ state, snd <$> find_disk_state states (disk_name disk) = Some state ∧ dks_accounting state = dk_accounting known ∧
        dks_instance_identity state = disk_instance_identity (dk_info known) ∧
        find_old_disk disks disk =
          if disk_instance_matches (disk_instance_identity (dk_info known)) (disk_instance_identity disk)
          then Some (dk_info known) else None
  | None => snd <$> find_disk_state states (disk_name disk) = None ∧ find_old_disk disks disk = None
  end.
Proof.
  intros Hs. induction Hs as [|old state disks states [Hname Hid] Hs IH]; intros Hd; [done|].
  rewrite fmap_cons in Hd. apply NoDup_cons in Hd as [Hnew Hd]. specialize (IH Hd).
  change (disks_of (old :: disks) (state :: states))
    with (<[disk_name old := Build_Disk old (dks_accounting state)]> (disks_of disks states)).
  rewrite find_disk_state_cons, find_old_disk_cons, Hname.
  destruct (decide (disk_name old = disk_name disk)) as [E|E].
  - rewrite <- E, lookup_insert_eq, (proj2 (strcmp_eq_true _ _) eq_refl). exists state. split_and!; [done..|].
    cbn [andb dk_info]. destruct (disk_instance_matches _ _); [done|]. apply find_old_disk_absent. by rewrite <- E.
  - rewrite lookup_insert_ne, strcmp_eq_ne by done. exact IH.
Qed.

Section topology.
Context `{TextLaws, !Qsort, !QsortLaws, ArithmeticOps}.
Context (statvfs : string → option FilesystemUsage) (strverscmp : string → string → comparison).

Lemma compare_disk_names_preorder : preorder_cmp compare_disk_names.
Proof. split; [intros; apply strcmp_antisym|]. intros x y z. apply (cmp_trans _ strcmp_preorder). Qed.

Lemma qsort_disks_sorted disks : NoDup (disk_name <$> disks) → sorted_disks (qsort compare_disk_names disks).
Proof.
  intros Hd. pose proof (qsort_sorted compare_disk_names disks compare_disk_names_preorder) as Hs.
  pose proof (qsort_permutation compare_disk_names disks compare_disk_names_preorder) as Hp. rewrite <- Hp in Hd.
  unfold sorted_disks. clear Hp. induction Hs as [|d l Hs IH Hall]; [constructor|].
  rewrite fmap_cons in Hd. apply NoDup_cons in Hd as [Hnew Hd]. constructor; [by apply IH|].
  rewrite List.Forall_forall in *. intros d' Hin. specialize (Hall d' Hin). unfold before_disk, compare_disk_names in *.
  destruct (strcmp (disk_name d) (disk_name d')) eqn:E; [|done|done]. exfalso. apply Hnew. apply strcmp_eq_iff in E.
  rewrite E. apply list_elem_of_fmap_2. by apply list_elem_of_In.
Qed.

(** The baseline a disk of the new topology starts with. *)
Definition kept_accounting (states : list LsmLinuxDiskState) (disk : LsmDiskInfo) : LsmDiskAccountingState :=
  match snd <$> find_disk_state states (disk_name disk) with
  | Some old =>
      if disk_instance_matches (dks_instance_identity old) (disk_instance_identity disk)
      then dks_accounting old else zero_accounting
  | None => zero_accounting
  end.

Lemma reconcile_disk_states_spec states disks : (length disks <= LSM_MAX_DISKS)%nat →
  Forall (λ d, (String.length (disk_name d) < 64)%nat ∧
               (String.length (disk_instance_identity d) < LSM_IDENTITY_LEN)%nat) disks →
  Forall2 same_disk disks (reconcile_disk_states states disks) ∧
  zip_with disk_row disks (reconcile_disk_states states disks) =
    (λ d, (disk_name d, Build_Disk d (kept_accounting states d))) <$> disks.
Proof.
  intros Hl Hf. unfold reconcile_disk_states. rewrite take_ge by done. clear Hl.
  induction Hf as [|d disks [Hn Hi] Hf [IH1 IH2]]; [by split|]. cbn. rewrite !copy_string_fits by done.
  split; [by constructor|]. f_equal; [|exact IH2]. unfold disk_row, kept_accounting.
  destruct (find_disk_state states (disk_name d)) as [[i old]|]; [|reflexivity]. cbn.
  destruct (disk_instance_matches _ _); reflexivity.
Qed.

Definition fits (r : LsmBlockDeviceRecord) : Prop :=
  (String.length (bd_name r) < 64)%nat ∧ (String.length (bd_instance_identity r) < LSM_IDENTITY_LEN)%nat.

Lemma discovered_names r : fits r →
  disk_name (discovered_disk r) = bd_name r ∧ disk_instance_identity (discovered_disk r) = bd_instance_identity r.
Proof. intros [Hn Hi]. unfold discovered_disk. cbn. by rewrite !copy_string_fits. Qed.

Lemma retained_disk_same disks disk :
  disk_name (retained_disk disks disk) = disk_name disk ∧
  disk_instance_identity (retained_disk disks disk) = disk_instance_identity disk.
Proof. unfold retained_disk. by destruct (find_old_disk disks disk). Qed.

Lemma known_disk_spec disks states disk : Forall2 same_disk disks states → NoDup (disk_name <$> disks) →
  known_disk (disks_of disks states) disk = Build_Disk (retained_disk disks disk) (kept_accounting states disk).
Proof.
  intros Hs Hd. pose proof (disks_lookup disks states disk Hs Hd) as Hl. unfold known_disk, retained_disk, kept_accounting.
  destruct (disks_of disks states !! disk_name disk) as [known|].
  - destruct Hl as (state & -> & Ha & Hi & ->). rewrite Hi. by destruct (disk_instance_matches _ _); rewrite ?Ha.
  - by destruct Hl as [-> ->].
Qed.

Lemma refresh_disks_refines m allocated records partitions :
  disks_aligned (dm_disks m) (dm_states m) → Forall block_records_ok (option_list records) →
  let '(ok, m') := refresh_disks statvfs strverscmp m allocated records partitions in
  disks_aligned (dm_disks m') (dm_states m') ∧
  disks_map m' = match (if allocated then records else None), partitions with
                 | Some records, Some partitions => discover_disks statvfs strverscmp (disks_map m) records partitions
                 | _, _ => disks_map m
                 end ∧
  ok = allocated && bool_decide (is_Some records) && bool_decide (is_Some partitions).
Proof.
  intros [Hs Hsorted Hcap] Hr. unfold refresh_disks. destruct allocated; [|by destruct records]. cbn [negb].
  destruct records as [records|]; [|done]. apply Forall_cons in Hr as [[Hlen Hfit Hdist] _].
  set (found := retained_disk (dm_disks m) <$> (discovered_disk <$> records)).
  assert (Hnames : Forall2 (λ r d, disk_name d = bd_name r ∧ disk_instance_identity d = bd_instance_identity r) records found).
  { unfold found. rewrite <- list_fmap_compose. apply Forall2_fmap_r, Forall_Forall2_diag.
    apply (Forall_impl _ _ _ Hfit). intros r Hf. unfold compose.
    destruct (retained_disk_same (dm_disks m) (discovered_disk r)) as [-> ->]. by apply discovered_names. }
  assert (Hfn : disk_name <$> found = bd_name <$> records).
  { clear -Hnames. induction Hnames as [|r d rs ds [E _] _ IH]; [done|]. by rewrite !fmap_cons, E, IH. }
  destruct partitions as [partitions|].
  2:{ split; [by constructor|]. by split. }
  rewrite update_partitions_map by (rewrite Hfn; done).
  set (fresh := with_partitions statvfs strverscmp partitions <$> found).
  assert (Hfn' : disk_name <$> fresh = bd_name <$> records).
  { rewrite <- Hfn. unfold fresh. rewrite <- list_fmap_compose. apply list_fmap_ext. intros i d _. apply with_partitions_same. }
  pose proof (qsort_permutation compare_disk_names fresh compare_disk_names_preorder) as Hperm.
  set (discovered := qsort compare_disk_names fresh) in *.
  assert (Hff : Forall (λ d, (String.length (disk_name d) < 64)%nat ∧
               (String.length (disk_instance_identity d) < LSM_IDENTITY_LEN)%nat) discovered).
  { rewrite Hperm. unfold fresh. apply Forall_fmap.
    eapply Forall2_Forall_r; [exact Hnames|]. apply (Forall_impl _ _ _ Hfit). intros r Hf d [En Ei]. unfold compose.
    destruct (with_partitions_same statvfs strverscmp partitions d) as [-> ->]. by rewrite En, Ei. }
  assert (Hcap' : (length discovered <= LSM_MAX_DISKS)%nat).
  { rewrite Hperm. unfold fresh, found. by rewrite !length_fmap. }
  destruct (reconcile_disk_states_spec (dm_states m) discovered Hcap' Hff) as [Hsame Hrows].
  assert (Hsort : sorted_disks discovered) by (apply qsort_disks_sorted; rewrite Hfn'; done).
  assert (Hgoal : disks_aligned discovered (reconcile_disk_states (dm_states m) discovered) ∧
    disks_of discovered (reconcile_disk_states (dm_states m) discovered) =
      discover_disks statvfs strverscmp (disks_map m) records partitions).
  { split; [by split|]. unfold disks_of. rewrite Hrows.
    rewrite (list_to_map_proper _ ((λ d, (disk_name d, Build_Disk d (kept_accounting (dm_states m) d))) <$> fresh));
      [|rewrite <- list_fmap_compose; change (NoDup (disk_name <$> discovered)); by rewrite Hperm, Hfn'|by rewrite Hperm].
    unfold discover_disks, fresh, found. f_equal. rewrite <- !list_fmap_compose. apply list_fmap_ext. intros i r Hi.
    unfold compose. pose proof (Forall_lookup_1 _ _ _ _ Hfit Hi) as Hf. destruct (discovered_names r Hf) as [En Ei].
    unfold disks_map. rewrite known_disk_spec by (done || by apply sorted_disks_distinct). cbn [dk_info dk_accounting].
    set (d := discovered_disk r) in *. unfold kept_accounting.
    destruct (with_partitions_same statvfs strverscmp partitions (retained_disk (dm_disks m) d)) as [-> ->].
    destruct (retained_disk_same (dm_disks m) d) as [-> ->]. by rewrite En. }
  destruct Hgoal as [Hg1 Hg2]. by destruct (disks_changed _ _ || _).
Qed.
End topology.

(** ** A sample *)

Section sampling_facts.
Context `{ArithmeticOps}.

Lemma sample_line_lookup disks snapshots line i d : sorted_disks disks → disks !! i = Some d →
  (i < length snapshots)%nat →
  sample_line disks snapshots line !! i =
    match named_counters (disk_name d) line with Some counters => Some (Some counters) | None => snapshots !! i end.
Proof.
  intros Hs Hi Hl. unfold sample_line, named_counters. destruct (scan_diskstats_line line) as [[named counters]|]; [|done].
  destruct (strcmp_eq named (disk_name d)) eqn:E.
  - apply strcmp_eq_true in E. subst named. rewrite (proj2 (find_disk_spec disks (disk_name d) i Hs)) by (by exists d).
    by apply list_lookup_insert_eq.
  - destruct (find_disk disks named) as [j|] eqn:Hj; [|done].
    apply find_disk_spec in Hj as (d' & Hj & Hname); [|done]. rewrite list_lookup_insert_ne; [done|].
    intros ->. assert (d = d') as <- by congruence. rewrite Hname in E. by rewrite (proj2 (strcmp_eq_true _ _) eq_refl) in E.
Qed.

Lemma sample_lines_length disks lines snapshots :
  length (fold_left (sample_line disks) lines snapshots) = length snapshots.
Proof.
  revert snapshots. induction lines as [|line lines IH]; intros snapshots; [done|]. cbn. rewrite IH. unfold sample_line.
  destruct (scan_diskstats_line line) as [[named counters]|]; [|done].
  destruct (find_disk disks named); [apply length_insert|done].
Qed.

(** Each disk ends with the counters of the last line that names it. *)
Lemma sample_lines_lookup disks lines snapshots i d : sorted_disks disks → disks !! i = Some d →
  snapshots !! i = Some None →
  fold_left (sample_line disks) lines snapshots !! i = Some (last (omap (named_counters (disk_name d)) lines)).
Proof.
  intros Hs Hi Hn. induction lines as [|line lines IH] using rev_ind; [done|].
  rewrite fold_left_app. cbn [fold_left]. rewrite (sample_line_lookup disks _ line i d Hs Hi), IH.
  2:{ rewrite sample_lines_length. by eapply lookup_lt_Some. }
  rewrite omap_app. unfold omap at 3. cbn [list_omap]. destruct (named_counters (disk_name d) line); [by rewrite last_snoc|].
  by rewrite app_nil_r.
Qed.

Definition file_snapshots (disks : list LsmDiskInfo) (file : option Diskstats) : list (option LsmDiskCounters) :=
  match file with
  | None => replicate LSM_MAX_DISKS None
  | Some file =>
      let snapshots := fold_left (sample_line disks) (fgets_all 512 (ds_content file)) (replicate LSM_MAX_DISKS None) in
      if ds_read_ok file && ds_close_ok file then snapshots else replicate LSM_MAX_DISKS None
  end.

Lemma file_snapshots_zip disks file : sorted_disks disks → (length disks <= LSM_MAX_DISKS)%nat →
  zip disks (file_snapshots disks file) = (λ d, (d, own_counters file (disk_name d))) <$> disks.
Proof.
  intros Hs Hl. apply list_eq. intros i. rewrite list_lookup_fmap, lookup_zip_with.
  destruct (disks !! i) as [d|] eqn:Hi; [|done]. cbn [mbind option_bind fmap option_fmap option_map].
  assert (Hr : replicate LSM_MAX_DISKS (@None LsmDiskCounters) !! i = Some None).
  { apply lookup_replicate. split; [done|]. apply lookup_lt_Some in Hi. lia. }
  unfold file_snapshots, own_counters. destruct file as [[content read_ok close_ok]|]; cbn [ds_read_ok ds_close_ok ds_content].
  - destruct (read_ok && close_ok); [|by rewrite Hr]. by rewrite (sample_lines_lookup disks _ _ i d Hs Hi Hr).
  - by rewrite Hr.
Qed.

Lemma accounting_same disk state counters elapsed :
  disk_name (lsm_disk_accounting_update disk state counters elapsed).1 = disk_name disk ∧
  disk_instance_identity (lsm_disk_accounting_update disk state counters elapsed).1 = disk_instance_identity disk.
Proof.
  destruct counters as [c|]; [|done]. cbn. destruct (_ && _); [|done]. unfold publish_interval.
  destruct (operation_deltas _ _ _ _), (operation_deltas _ _ _ _); done.
Qed.

Definition sample_disk_row (file : option Diskstats) (elapsed : double) (r : string * Disk) : string * Disk :=
  (r.1, sample_disk (own_counters file r.1) elapsed r.2).

Lemma apply_samples_refines file elapsed disks states rest :
  Forall2 same_disk disks rest → NoDup (disk_name <$> disks) →
  Forall (λ s, dks_name s ∉ disk_name <$> disks) states →
  let '(disks', states') := apply_samples elapsed ((λ d, (d, own_counters file (disk_name d))) <$> disks) (states ++ rest) in
  ∃ rest', states' = states ++ rest' ∧ Forall2 same_disk disks' rest' ∧
    Forall2 (λ d d', disk_name d' = disk_name d) disks disks' ∧
    zip_with disk_row disks' rest' = sample_disk_row file elapsed <$> zip_with disk_row disks rest.
Proof.
  intros Hs. revert states. induction Hs as [|disk state disks rest [Hn Hi] Hs IH]; intros states Hd Hother.
  { exists []. by split_and!. }
  rewrite fmap_cons in Hd. apply NoDup_cons in Hd as [Hnew Hd]. rewrite fmap_cons. cbn [apply_samples].
  assert (Hfind : find_disk_state (states ++ state :: rest) (disk_name disk) = Some (length states, state)).
  { apply list_find_Some. split_and!; [by apply list_lookup_middle|by rewrite Hn, (proj2 (strcmp_eq_true _ _) eq_refl)|].
    intros j s Hj Hlt. rewrite lookup_app_l in Hj by done. apply (Forall_lookup_1 _ _ _ _ Hother) in Hj as Hs1.
    rewrite fmap_cons in Hs1. intros Ht%Is_true_true%strcmp_eq_true. rewrite Ht in Hs1. set_solver. }
  rewrite Hfind. set (counters := own_counters file (disk_name disk)).
  pose proof (accounting_same disk (dks_accounting state) counters elapsed) as [En Ei].
  destruct (lsm_disk_accounting_update disk (dks_accounting state) counters elapsed) as [disk' accounting'] eqn:Hupdate.
  cbn [fst] in En, Ei. rewrite insert_app_r_alt, Nat.sub_diag by done.
  set (state' := state <| dks_accounting := accounting' |>).
  change (<[0%nat := state']> (state :: rest)) with ([state'] ++ rest). rewrite app_assoc.
  specialize (IH (states ++ [state']) Hd).
  destruct (apply_samples _ _ _) as [disks' states'].
  destruct IH as (rest' & -> & Hs' & Hnames & Hrows).
  { apply Forall_app; split.
    - apply (Forall_impl _ _ _ Hother). intros s Hs1. rewrite fmap_cons in Hs1. set_solver.
    - constructor; [|done]. unfold state'. cbn. by rewrite Hn. }
  exists (state' :: rest'). rewrite <- app_assoc. split_and!; [done| |by constructor|].
  - constructor; [|done]. split; cbn; congruence.
  - cbn [zip_with]. rewrite fmap_cons, Hrows. f_equal. unfold disk_row, sample_disk_row, sample_disk. cbn [fst snd dk_info dk_accounting].
    fold counters. rewrite Hupdate, En. done.
Qed.

Lemma sorted_names disks disks' : Forall2 (λ d d', disk_name d' = disk_name d) disks disks' →
  sorted_disks disks → sorted_disks disks'.
Proof.
  intros Hn Hs. unfold sorted_disks in *. revert disks' Hn. induction Hs as [|d l Hs IH Hall]; intros disks' Hn.
  { apply Forall2_nil_inv_l in Hn as ->. constructor. }
  apply Forall2_cons_inv_l in Hn as (d' & l' & E & Hn & ->). constructor; [by apply IH|].
  apply List.Forall_forall. intros x Hx%list_elem_of_In. apply list_elem_of_lookup in Hx as [i Hx].
  destruct (Forall2_lookup_r _ _ _ _ _ Hn Hx) as (y & Hy & Exy). unfold before_disk. rewrite E, Exy.
  rewrite List.Forall_forall in Hall. apply Hall. apply list_elem_of_In. by eapply list_elem_of_lookup_2.
Qed.

Lemma update_disks_refines m file elapsed : disks_aligned (dm_disks m) (dm_states m) →
  let m' := update_disks m file elapsed in
  disks_aligned (dm_disks m') (dm_states m') ∧ disks_map m' = sample_disks (disks_map m) file elapsed.
Proof.
  intros [Hs Hsorted Hcap]. cbn zeta. unfold update_disks. fold (file_snapshots (dm_disks m) file).
  rewrite file_snapshots_zip by done.
  pose proof (apply_samples_refines file elapsed (dm_disks m) [] (dm_states m) Hs (sorted_disks_distinct _ Hsorted)) as Hl.
  cbn [app] in Hl. destruct (apply_samples _ _ _) as [disks' states'].
  destruct Hl as (rest' & -> & Hs' & Hnames & Hrows); [constructor|].
  split.
  - split; [done|by eapply sorted_names|]. change (length disks' <= LSM_MAX_DISKS)%nat. by rewrite <- (Forall2_length _ _ _ Hnames).
  - change (list_to_map (zip_with disk_row disks' rest') = sample_disks (disks_map m) file elapsed).
    rewrite Hrows. unfold sample_disks, disks_map, disks_of. by rewrite <- list_to_map_imap.
Qed.
End sampling_facts.

(** ** The runs *)

(** What one [lsm_storage_update] sees of the disks. *)
Record DiskEvent := {
  de_refresh_topology : bool;
  de_allocated : bool;
  de_records : option (list LsmBlockDeviceRecord);
  de_partitions : option (list LsmPartitionRecord);
  de_statvfs : string → option FilesystemUsage;
  de_diskstats : option Diskstats;
  de_elapsed : double;
}.

Section runs.
Context `{TextOps, Qsort, ArithmeticOps}.
Context (strverscmp : string → string → comparison).

(** The disk half of the start. *)
(** src: monitor_storage_network.c:617-620 lsm_storage_initialise *)
Definition lsm_storage_initialise_disks (m : DiskMonitor) (statvfs : string → option FilesystemUsage) (allocated : bool)
    (records : option (list LsmBlockDeviceRecord)) (partitions : option (list LsmPartitionRecord)) : bool * DiskMonitor :=
  refresh_disks statvfs strverscmp m allocated records partitions.

(** The disk half of an update; the first component says whether it was complete. *)
(** src: monitor_storage_network.c:630-642 lsm_storage_update *)
Definition lsm_storage_update_disks (m : DiskMonitor) (event : DiskEvent) : bool * DiskMonitor :=
  let '(complete, m) :=
    if de_refresh_topology event
    then refresh_disks (de_statvfs event) strverscmp m (de_allocated event) (de_records event) (de_partitions event)
    else (true, m) in
  (complete, update_disks m (de_diskstats event) (de_elapsed event)).

Definition disk_run (m : DiskMonitor) (events : list DiskEvent) : DiskMonitor :=
  fold_left (λ m event, (lsm_storage_update_disks m event).2) events m.

Definition update_disk_map (known : gmap string Disk) (event : DiskEvent) : gmap string Disk :=
  let known :=
    match (if de_refresh_topology event && de_allocated event then de_records event else None), de_partitions event with
    | Some records, Some partitions => discover_disks (de_statvfs event) strverscmp known records partitions
    | _, _ => known
    end in
  sample_disks known (de_diskstats event) (de_elapsed event).
End runs.

Section run_facts.
Context `{TextLaws, !Qsort, !QsortLaws, ArithmeticOps}.
Context (strverscmp : string → string → comparison).

Definition event_blocks_ok (event : DiskEvent) : Prop := Forall block_records_ok (option_list (de_records event)).

Lemma storage_update_disks_refines m event : disks_aligned (dm_disks m) (dm_states m) → event_blocks_ok event →
  let m' := (lsm_storage_update_disks strverscmp m event).2 in
  disks_aligned (dm_disks m') (dm_states m') ∧ disks_map m' = update_disk_map strverscmp (disks_map m) event.
Proof.
  intros Ha Hr. unfold lsm_storage_update_disks, update_disk_map.
  destruct (de_refresh_topology event); cbn [andb]; [|by apply update_disks_refines].
  pose proof (refresh_disks_refines (de_statvfs event) strverscmp m (de_allocated event) (de_records event)
                (de_partitions event) Ha Hr) as Href.
  destruct (refresh_disks _ _ _ _ _ _) as [ok m1]. destruct Href as (Ha1 & <- & _). by apply update_disks_refines.
Qed.

Lemma disk_run_refines m events : disks_aligned (dm_disks m) (dm_states m) → Forall event_blocks_ok events →
  disks_map (disk_run strverscmp m events) = fold_left (update_disk_map strverscmp) events (disks_map m) ∧
  sorted_disks (dm_disks (disk_run strverscmp m events)).
Proof.
  intros Ha He. revert m Ha. induction He as [|event events Hevent He IH]; intros m Ha; [by destruct Ha|].
  change (disk_run strverscmp m (event :: events)) with (disk_run strverscmp (lsm_storage_update_disks strverscmp m event).2 events).
  cbn [fold_left]. destruct (storage_update_disks_refines m event Ha Hevent) as [Ha' <-]. by apply IH.
Qed.

(** (C10) Every disk is measured against its own past and gets its own partitions.
    After the start and over any series of updates - topology refreshes that add,
    remove and replace disks, failed scans, unreadable or unsorted diskstats - the
    two arrays, the binary search for a diskstats name and the join of the
    partitions behave as a map from disk names: a disk keeps its metrics and
    baselines exactly while the same instance has that name, each sample applies
    the counters of the last line that names it or invalidates it, and the
    published array stays sorted by distinct names. *)
Theorem disk_monitor_is_a_map disk_generation topology_generation statvfs records partitions events :
  block_records_ok records → Forall event_blocks_ok events →
  let m := (lsm_storage_initialise_disks strverscmp (Build_DiskMonitor [] [] disk_generation topology_generation)
              statvfs true (Some records) (Some partitions)).2 in
  disks_map (disk_run strverscmp m events)
    = fold_left (update_disk_map strverscmp) events (discover_disks statvfs strverscmp ∅ records partitions) ∧
  sorted_disks (dm_disks (disk_run strverscmp m events)).
Proof.
  intros Hr He m. assert (Hempty : disks_aligned [] []) by (split; [constructor|constructor|cbn; lia]).
  pose proof (refresh_disks_refines statvfs strverscmp (Build_DiskMonitor [] [] disk_generation topology_generation) true
                (Some records) (Some partitions) Hempty ltac:(by apply Forall_singleton)) as Href.
  unfold m, lsm_storage_initialise_disks. destruct (refresh_disks _ _ _ _ _ _) as [ok m1].
  destruct Href as (Ha & Hmap & _). cbn [snd]. destruct (disk_run_refines m1 events Ha He) as [-> Hs].
  by rewrite Hmap.
Qed.
End run_facts.

From S2P Require Import CommonReference.

Definition sample_block (name identity_text : string) : LsmBlockDeviceRecord :=
  Build_LsmBlockDeviceRecord name identity_text "Model" "SSD" "NVMe" 1000000.
Definition sample_partitions : list LsmPartitionRecord :=
  [Build_LsmPartitionRecord "/dev/sdb1" "" "" "sdb" 5000 false;
   Build_LsmPartitionRecord "/dev/sda2" "/" "ext4" "sda" 5000 true;
   Build_LsmPartitionRecord "/dev/sda1" "/boot" "vfat" "sda" 5000 true].
Definition sample_statvfs (mount_point : string) : option FilesystemUsage :=
  if strcmp_eq mount_point "/" then Some (Build_FilesystemUsage 1000 250 4096 512) else None.
(** sda idles, then reads 8 sectors; sdb is replaced in between. *)
Definition sample_disk_event (second : string) (content : string) : DiskEvent :=
  {| de_refresh_topology := true; de_allocated := true;
     de_records := Some [sample_block "sdb" second; sample_block "sda" "diskseq:1"];
     de_partitions := Some sample_partitions; de_statvfs := sample_statvfs;
     de_diskstats := Some (Build_Diskstats content true true); de_elapsed := double_of_Z 1 |}.
Definition sample_disk_events : list DiskEvent :=
  [sample_disk_event "diskseq:2" ("   8 0 sda 10 0 80 5 0 0 0 0 0 5 5" +:+ String nl ("8 16 sdb 1 0 8 1 0 0 0 0 0 1 1" +:+ String nl ""));
   sample_disk_event "diskseq:3" ("   8 0 sda 11 0 88 7 0 0 0 0 0 7 7 9 9" +:+ String nl ("8 16 sdb 2 0 16 1 0 0 0 0 0 1 1" +:+ String nl ""))].

Lemma sample_disk_events_ok :
  block_records_ok [sample_block "sda" "diskseq:1"] ∧ Forall event_blocks_ok sample_disk_events.
Proof.
  split.
  { split; [vm_compute; lia|apply Forall_singleton; split; vm_compute; lia|apply NoDup_singleton]. }
  assert (Hok : ∀ second content, (String.length second < LSM_IDENTITY_LEN)%nat → event_blocks_ok (sample_disk_event second content)).
  { intros second content Hl. constructor; [|constructor]. split.
    - vm_compute. lia.
    - apply Forall_cons; split; [split; [vm_compute; lia|exact Hl]|].
      apply Forall_cons; split; [split; vm_compute; lia|by apply Forall_nil_2].
    - apply (bool_decide_unpack _). by vm_compute. }
  constructor; [|constructor; [|constructor]]; apply Hok; vm_compute; lia.
Qed.

Lemma disk_monitor_is_a_map_witness :
  let m := (lsm_storage_initialise_disks strcmp (Build_DiskMonitor [] [] 0 0) sample_statvfs true
              (Some [sample_block "sda" "diskseq:1"]) (Some [])).2 in
  disks_map (disk_run strcmp m sample_disk_events)
    = fold_left (update_disk_map strcmp) sample_disk_events
        (discover_disks sample_statvfs strcmp ∅ [sample_block "sda" "diskseq:1"] []) ∧
  (λ d, (disk_name d, disk_read_bytes_per_sec d, part_device <$> take 2 (disk_partitions d), disk_system_disk d))
    <$> dm_disks (disk_run strcmp m sample_disk_events)
    = [("sda"%string, double_of_Z 4096, ["/dev/sda1"; "/dev/sda2"]%string, true);
       ("sdb"%string, NAN, ["/dev/sdb1"; ""]%string, false)].
Proof.
  split; [|vm_compute; reflexivity].
  exact (proj1 (disk_monitor_is_a_map strcmp 0 0 sample_statvfs [sample_block "sda" "diskseq:1"] [] sample_disk_events
                  (proj1 sample_disk_events_ok) (proj2 sample_disk_events_ok))).
Defined.
