(* ===== verification/MemoryAccounting.v ===== *)
(** * MemoryAccounting: byte accounting from /proc/meminfo

    Models [src/src/memory_accounting.c].  The file is the text its [fgets] loop
    reads; whether the stream could be opened, read to its end and closed is the
    environment's. *)
From S2P Require Import Prelude Double CStrings Common MonitorTypes.
Local Open Scope Z_scope.

(** The locals of the loop: a value and its [have_] flag are an option. *)
(** src: memory_accounting.c:45-62 lsm_memory_accounting_read *)
Record Meminfo := {
  mi_available : option Z;
  mi_cached : option Z;
  mi_reclaimable : option Z;
  mi_shared : option Z;
  mi_corrupted : option Z;
  mi_committed : option Z;
  mi_commit_limit : option Z;
  mi_nonreclaimable : option Z;
  mi_page_tables : option Z;
}.
#[export] Instance eta_Meminfo : Eta Meminfo := λ x,
  Build_Meminfo (mi_available x) (mi_cached x) (mi_reclaimable x) (mi_shared x)
    (mi_corrupted x) (mi_committed x) (mi_commit_limit x) (mi_nonreclaimable x)
    (mi_page_tables x).

Definition meminfo_none : Meminfo :=
  Build_Meminfo None None None None None None None None None.

Section memory_accounting.
Context `{TextOps, NumberOps, ArithmeticOps}.

(** src: memory_accounting.c parse_quantity *)
Definition parse_quantity (line : string) : option (string * Z) :=
  match split_at ":" line with
  | None => None
  | Some (key, value) =>
      let '(ok, parsed) := infiltratr_parse_binary_quantity_u64 value 0 in
      if ok then Some (lsm_trim key, parsed) else None
  end.

(** The body of the line loop. *)
(** src: memory_accounting.c:65-98 lsm_memory_accounting_read *)
Definition meminfo_line (refresh_details : bool) (m : Meminfo) (line : string) : Meminfo :=
  match parse_quantity line with
  | None => m
  | Some (key, bytes) =>
      if strcmp_eq key "MemAvailable" then m <| mi_available := Some bytes |>
      else if strcmp_eq key "Committed_AS" then m <| mi_committed := Some bytes |>
      else if strcmp_eq key "CommitLimit" then m <| mi_commit_limit := Some bytes |>
      else if refresh_details && strcmp_eq key "Cached" then m <| mi_cached := Some bytes |>
      else if refresh_details && strcmp_eq key "SReclaimable"
      then m <| mi_reclaimable := Some bytes |>
      else if refresh_details && strcmp_eq key "Shmem" then m <| mi_shared := Some bytes |>
      else if refresh_details && strcmp_eq key "SUnreclaim"
      then m <| mi_nonreclaimable := Some bytes |>
      else if refresh_details && strcmp_eq key "PageTables"
      then m <| mi_page_tables := Some bytes |>
      else if refresh_details && strcmp_eq key "HardwareCorrupted"
      then m <| mi_corrupted := Some bytes |>
      else m
  end.

Definition is_some {A} (o : option A) : bool := match o with Some _ => true | None => false end.

(** Publishing what was read. *)
(** src: memory_accounting.c:107-124 lsm_memory_accounting_read *)
Definition publish_meminfo (m : Meminfo) (refresh_details : bool) (memory : LsmMemoryInfo)
    : LsmMemoryInfo :=
  let memory := memory <| mem_available_bytes := default 0 (mi_available m) |> in
  let memory := match mi_committed m with
                | Some b => memory <| mem_committed_bytes := b |> | None => memory end in
  let memory := match mi_commit_limit m with
                | Some b => memory <| mem_commit_limit_bytes := b |> | None => memory end in
  if negb refresh_details then memory
  else
    let combined := lsm_u64_add_saturating (default 0 (mi_cached m))
                                           (default 0 (mi_reclaimable m)) in
    let shared := default 0 (mi_shared m) in
    let memory :=
      if is_some (mi_cached m) || is_some (mi_reclaimable m) || is_some (mi_shared m)
      then memory <| mem_cached_bytes := if shared <=? combined then combined - shared else 0 |>
      else memory in
    memory <| mem_kernel_reclaimable_bytes := default 0 (mi_reclaimable m) |>
           <| mem_kernel_nonreclaimable_bytes := default 0 (mi_nonreclaimable m) |>
           <| mem_page_tables_bytes := default 0 (mi_page_tables m) |>
           <| mem_hardware_corrupted_bytes := default 0 (mi_corrupted m) |>.

(** [file] is the stream's text, when it could be opened. *)
(** src: memory_accounting.c lsm_memory_accounting_read *)
Definition lsm_memory_accounting_read (file : option string) (read_ok close_ok : bool)
    (memory : LsmMemoryInfo) (refresh_details : bool) : LsmMemoryInfo * bool :=
  match file with
  | None => (memory, false)
  | Some text =>
      let m := foldl (meminfo_line refresh_details) meminfo_none (fgets_all 256 text) in
      if negb (read_ok && close_ok) || negb (is_some (mi_available m)) then (memory, false)
      else (publish_meminfo m refresh_details memory, true)
  end.

(** ** Reference: the last quantity of a key *)

Definition last_quantity (key : string) (lines : list string) : option Z :=
  foldl (λ acc line,
    match parse_quantity line with
    | Some (k, bytes) => if strcmp_eq k key then Some bytes else acc
    | None => acc
    end) None lines.

(** The locals after the loop, as declarative look-ups. *)
Definition meminfo_spec (refresh_details : bool) (lines : list string) : Meminfo :=
  let detail key := if refresh_details then last_quantity key lines else None in
  {| mi_available := last_quantity "MemAvailable" lines;
     mi_cached := detail "Cached"; mi_reclaimable := detail "SReclaimable";
     mi_shared := detail "Shmem"; mi_corrupted := detail "HardwareCorrupted";
     mi_committed := last_quantity "Committed_AS" lines;
     mi_commit_limit := last_quantity "CommitLimit" lines;
     mi_nonreclaimable := detail "SUnreclaim"; mi_page_tables := detail "PageTables" |}.

Lemma last_quantity_snoc key lines line :
  last_quantity key (lines ++ [line]) =
    match parse_quantity line with
    | Some (k, bytes) => if strcmp_eq k key then Some bytes else last_quantity key lines
    | None => last_quantity key lines
    end.
Proof. unfold last_quantity. by rewrite foldl_app. Qed.

Lemma meminfo_loop refresh_details lines :
  foldl (meminfo_line refresh_details) meminfo_none lines = meminfo_spec refresh_details lines.
Proof.
  induction lines as [|line lines IH] using rev_ind; [by destruct refresh_details|].
  rewrite foldl_app. simpl. rewrite IH. unfold meminfo_spec. rewrite !last_quantity_snoc.
  unfold meminfo_line. destruct (parse_quantity line) as [[key bytes]|]; [|by destruct refresh_details].
  repeat match goal with
  | |- context [strcmp_eq key ?k] =>
      destruct (decide (key = k)) as [->|Hne];
      [by destruct refresh_details|rewrite (strcmp_eq_ne key k Hne); clear Hne]
  end.
  by destruct refresh_details.
Qed.

Lemma last_quantity_u64 `{!NumberLaws} key lines b :
  last_quantity key lines = Some b → u64 b.
Proof.
  induction lines as [|line lines IH] using rev_ind; [done|]. rewrite last_quantity_snoc.
  unfold parse_quantity. destruct (split_at ":" line) as [[k v]|]; [|done].
  pose proof (parse_quantity_u64 v 0 ltac:(done)) as Hu.
  destruct (infiltratr_parse_binary_quantity_u64 v 0) as [[] parsed]; [|done].
  destruct (strcmp_eq _ _); [|done]. by intros [= <-].
Qed.
End memory_accounting.

(** ** Theorems *)

Section memory_theorems.
Context `{TextOps, NumberLaws, ArithmeticLaws}.

(** The quantity of [key], or zero. *)
Definition quantity_or_0 (key : string) (lines : list string) : Z :=
  default 0 (last_quantity key lines).

Lemma quantity_or_0_u64 key lines : u64 (quantity_or_0 key lines).
Proof.
  unfold quantity_or_0. destruct (last_quantity key lines) eqn:E; [|done].
  by apply last_quantity_u64 in E.
Qed.

(** What is published, field by field. *)
Lemma publish_meminfo_fields m refresh_details memory :
  let r := publish_meminfo m refresh_details memory in
  let combined := lsm_u64_add_saturating (default 0 (mi_cached m)) (default 0 (mi_reclaimable m)) in
  let shared := default 0 (mi_shared m) in
  mem_available_bytes r = default 0 (mi_available m)
  ∧ mem_committed_bytes r = default (mem_committed_bytes memory) (mi_committed m)
  ∧ mem_commit_limit_bytes r = default (mem_commit_limit_bytes memory) (mi_commit_limit m)
  ∧ (if refresh_details then
       mem_cached_bytes r =
         (if is_some (mi_cached m) || is_some (mi_reclaimable m) || is_some (mi_shared m)
          then if shared <=? combined then combined - shared else 0 else mem_cached_bytes memory)
       ∧ mem_kernel_reclaimable_bytes r = default 0 (mi_reclaimable m)
       ∧ mem_kernel_nonreclaimable_bytes r = default 0 (mi_nonreclaimable m)
       ∧ mem_page_tables_bytes r = default 0 (mi_page_tables m)
       ∧ mem_hardware_corrupted_bytes r = default 0 (mi_corrupted m)
     else mem_cached_bytes r = mem_cached_bytes memory
          ∧ mem_kernel_reclaimable_bytes r = mem_kernel_reclaimable_bytes memory).
Proof.
  unfold publish_meminfo. destruct memory, (mi_committed m), (mi_commit_limit m), refresh_details;
    cbn [negb]; try (by split_and!).
  all: destruct (is_some (mi_cached m) || _ || _); by split_and!.
Qed.

(** Reading meminfo is all or nothing: a stream that cannot be
    opened, read or closed, or that has no valid MemAvailable, changes nothing.
    Otherwise every field is the last valid quantity of its key, whatever the
    order of the lines; the cached figure saturates instead of wrapping around,
    and the detail fields change only on a detailed refresh. *)
Theorem memory_read_spec file read_ok close_ok memory refresh_details memory' ok :
  lsm_memory_accounting_read file read_ok close_ok memory refresh_details = (memory', ok) →
  (ok = false → memory' = memory) ∧
  (ok = true ↔ ∃ text, file = Some text ∧ read_ok = true ∧ close_ok = true
               ∧ is_Some (last_quantity "MemAvailable" (fgets_all 256 text))) ∧
  ∀ text, file = Some text → ok = true →
    let lines := fgets_all 256 text in
    let q key := quantity_or_0 key lines in
    mem_available_bytes memory' = q "MemAvailable"
    ∧ mem_committed_bytes memory' =
        default (mem_committed_bytes memory) (last_quantity "Committed_AS" lines)
    ∧ mem_commit_limit_bytes memory' =
        default (mem_commit_limit_bytes memory) (last_quantity "CommitLimit" lines)
    ∧ (if refresh_details then
         mem_cached_bytes memory' =
           (if is_some (last_quantity "Cached" lines) || is_some (last_quantity "SReclaimable" lines)
               || is_some (last_quantity "Shmem" lines)
            then Z.max 0 (Z.min uint64_max (q "Cached" + q "SReclaimable") - q "Shmem")
            else mem_cached_bytes memory)
         ∧ mem_kernel_reclaimable_bytes memory' = q "SReclaimable"
         ∧ mem_kernel_nonreclaimable_bytes memory' = q "SUnreclaim"
         ∧ mem_page_tables_bytes memory' = q "PageTables"
         ∧ mem_hardware_corrupted_bytes memory' = q "HardwareCorrupted"
       else mem_cached_bytes memory' = mem_cached_bytes memory
            ∧ mem_kernel_reclaimable_bytes memory' = mem_kernel_reclaimable_bytes memory).
Proof.
  unfold lsm_memory_accounting_read. destruct file as [text|].
  2: { intros [= <- <-]. split_and!; [done| |done]. split; [done|]. by intros (? & [=] & _). }
  rewrite meminfo_loop.
  destruct (read_ok && close_ok) eqn:Hio; simpl.
  2: { intros [= <- <-]. split_and!; [done| |done]. split; [done|].
       intros (? & _ & -> & -> & _). done. }
  apply andb_true_iff in Hio as [-> ->].
  destruct (last_quantity "MemAvailable" (fgets_all 256 text)) as [available|] eqn:Ha; simpl.
  2: { intros [= <- <-]. split_and!; [done| |done]. split; [done|].
       intros (? & [= <-] & _ & _ & Hs). rewrite Ha in Hs. by destruct Hs. }
  intros [= <- <-]. split; [done|]. split; [split; [|done]; intros _; exists text; by rewrite Ha|].
  intros ? [= <-] _. cbv zeta. set (lines := fgets_all 256 text) in *.
  destruct (publish_meminfo_fields (meminfo_spec refresh_details lines) refresh_details memory)
    as (Hav & Hco & Hli & Hdetails).
  split_and!; [exact Hav|exact Hco|exact Hli|]. clear Hav Hco Hli.
  destruct refresh_details; [|exact Hdetails]. destruct Hdetails as (Hcached & Hrest).
  split; [|exact Hrest]. rewrite Hcached. unfold meminfo_spec; cbn [mi_cached mi_reclaimable mi_shared].
  fold (quantity_or_0 "Cached" lines) (quantity_or_0 "SReclaimable" lines) (quantity_or_0 "Shmem" lines).
  destruct (is_some _ || _ || _); [|done].
  rewrite add_saturating_spec by apply quantity_or_0_u64.
  pose proof (quantity_or_0_u64 "Shmem" lines).
  destruct (Z.leb_spec (quantity_or_0 "Shmem" lines)
    (Z.min uint64_max (quantity_or_0 "Cached" lines + quantity_or_0 "SReclaimable" lines))); lia.
Qed.
End memory_theorems.

(** ** Witness *)

From S2P Require Import CommonReference.

Definition sample_meminfo : string :=
  "MemAvailable:4096" +:+ String nl ("Cached:100" +:+ String nl
  ("Shmem:5000" +:+ String nl ("MemAvailable:8192" +:+ String nl ""))).

Lemma memory_read_spec_witness :
  ∃ memory', lsm_memory_accounting_read (Some sample_meminfo) true true zero_LsmMemoryInfo true
             = (memory', true)
    ∧ mem_available_bytes memory' = quantity_or_0 "MemAvailable" (fgets_all 256 sample_meminfo).
Proof.
  eexists. split; [reflexivity|].
  refine (proj1 (proj2 (proj2 (memory_read_spec (Some sample_meminfo) true true
    zero_LsmMemoryInfo true _ _ eq_refl)) sample_meminfo eq_refl eq_refl)).
Defined.
