(* ===== verification/GpuMetrics.v ===== *)
(** * GpuMetrics: metric selection for the GPU graphs

    Models [src/src/gpu_metrics.c].  An output array is a list of the caller's
    [capacity] cells. *)
From S2P Require Import Prelude Double MonitorTypes.
Local Open Scope Z_scope.

(** src: gpu_metrics.h:25-36 LsmGpuMetric *)
Inductive LsmGpuMetric :=
| LSM_GPU_METRIC_OVERALL
| LSM_GPU_METRIC_RENDER
| LSM_GPU_METRIC_COMPUTE
| LSM_GPU_METRIC_VIDEO
| LSM_GPU_METRIC_VIDEO_ENHANCE
| LSM_GPU_METRIC_COPY
| LSM_GPU_METRIC_MEMORY_BUSY
| LSM_GPU_METRIC_ENCODER
| LSM_GPU_METRIC_DECODER
| LSM_GPU_METRIC_COUNT.
#[export] Instance eqdec_LsmGpuMetric : EqDecision LsmGpuMetric.
Proof. solve_decision. Defined.

(** src: gpu_metrics.c:15-24 detailed_metric_order *)
Definition detailed_metric_order : list LsmGpuMetric :=
  [LSM_GPU_METRIC_RENDER; LSM_GPU_METRIC_COMPUTE; LSM_GPU_METRIC_VIDEO;
   LSM_GPU_METRIC_VIDEO_ENHANCE; LSM_GPU_METRIC_COPY; LSM_GPU_METRIC_ENCODER;
   LSM_GPU_METRIC_DECODER; LSM_GPU_METRIC_MEMORY_BUSY].

(** src: gpu_metrics.c lsm_gpu_metric_name *)
Definition lsm_gpu_metric_name (metric : LsmGpuMetric) : string :=
  match metric with
  | LSM_GPU_METRIC_OVERALL => "Overall"
  | LSM_GPU_METRIC_RENDER => "Render"
  | LSM_GPU_METRIC_COMPUTE => "Compute"
  | LSM_GPU_METRIC_VIDEO => "Video"
  | LSM_GPU_METRIC_VIDEO_ENHANCE => "Video Enhance"
  | LSM_GPU_METRIC_COPY => "Copy"
  | LSM_GPU_METRIC_MEMORY_BUSY => "Memory Busy"
  | LSM_GPU_METRIC_ENCODER => "Video Encode"
  | LSM_GPU_METRIC_DECODER => "Video Decode"
  | LSM_GPU_METRIC_COUNT => "Unknown"
  end.

(** src: gpu_metrics.c lsm_gpu_metric_available *)
Definition lsm_gpu_metric_available (gpu : option LsmGpuInfo) (metric : LsmGpuMetric) : bool :=
  match gpu with
  | None => false
  | Some gpu =>
      match metric with
      | LSM_GPU_METRIC_OVERALL => gpu_utilization_available gpu
      | LSM_GPU_METRIC_RENDER => gpu_render_available gpu
      | LSM_GPU_METRIC_COMPUTE => gpu_compute_available gpu
      | LSM_GPU_METRIC_VIDEO => gpu_video_available gpu
      | LSM_GPU_METRIC_VIDEO_ENHANCE => gpu_video_enhance_available gpu
      | LSM_GPU_METRIC_COPY => gpu_copy_available gpu
      | LSM_GPU_METRIC_MEMORY_BUSY => gpu_memory_busy_available gpu
      | LSM_GPU_METRIC_ENCODER => gpu_encoder_available gpu
      | LSM_GPU_METRIC_DECODER => gpu_decoder_available gpu
      | LSM_GPU_METRIC_COUNT => false
      end
  end.

(** src: gpu_metrics.c raw_metric_value *)
Definition raw_metric_value (gpu : LsmGpuInfo) (metric : LsmGpuMetric) : double :=
  match metric with
  | LSM_GPU_METRIC_OVERALL => gpu_utilization_percent gpu
  | LSM_GPU_METRIC_RENDER => gpu_render_percent gpu
  | LSM_GPU_METRIC_COMPUTE => gpu_compute_percent gpu
  | LSM_GPU_METRIC_VIDEO => gpu_video_percent gpu
  | LSM_GPU_METRIC_VIDEO_ENHANCE => gpu_video_enhance_percent gpu
  | LSM_GPU_METRIC_COPY => gpu_copy_percent gpu
  | LSM_GPU_METRIC_MEMORY_BUSY => gpu_memory_busy_percent gpu
  | LSM_GPU_METRIC_ENCODER => gpu_encoder_percent gpu
  | LSM_GPU_METRIC_DECODER => gpu_decoder_percent gpu
  | LSM_GPU_METRIC_COUNT => d0
  end.

(** src: gpu_metrics.c lsm_gpu_metric_value *)
Definition lsm_gpu_metric_value (gpu : option LsmGpuInfo) (metric : LsmGpuMetric) : double :=
  match gpu with
  | None => d0
  | Some g =>
      if negb (lsm_gpu_metric_available gpu metric) then d0
      else
        let value := raw_metric_value g metric in
        if negb (isfinite value) then d0
        else if dlt value d0 then d0
        else if dgt value d100 then d100
        else value
  end.

(** [if (metrics && count < capacity) metrics[count] = metric; count++] *)
Definition emit (acc : list LsmGpuMetric * nat) (metric : LsmGpuMetric)
    : list LsmGpuMetric * nat :=
  let '(metrics, count) := acc in
  (if (count <? length metrics)%nat then <[count := metric]> metrics else metrics, S count).

(** [metrics] is the caller's array; a null array is the empty one. *)
(** src: gpu_metrics.c lsm_gpu_selectable_metrics *)
Definition lsm_gpu_selectable_metrics (gpu : option LsmGpuInfo) (metrics : list LsmGpuMetric)
    : list LsmGpuMetric * nat :=
  match gpu with
  | None => (metrics, 0%nat)
  | Some _ =>
      let acc := foldl (λ acc metric,
        if negb (lsm_gpu_metric_available gpu metric) then acc else emit acc metric)
        (metrics, 0%nat) detailed_metric_order in
      if lsm_gpu_metric_available gpu LSM_GPU_METRIC_OVERALL
      then emit acc LSM_GPU_METRIC_OVERALL else acc
  end.

(** src: gpu_metrics.c lsm_gpu_has_engine_metrics *)
Definition lsm_gpu_has_engine_metrics (gpu : option LsmGpuInfo) : bool :=
  match gpu with
  | None => false
  | Some _ => existsb (lsm_gpu_metric_available gpu) detailed_metric_order
  end.

(** [while (count < capacity) metrics[count++] = fallback] *)
Fixpoint fill (fuel : nat) (metrics : list LsmGpuMetric) (count : nat) (fallback : LsmGpuMetric)
    : list LsmGpuMetric :=
  match fuel with
  | O => metrics
  | S fuel =>
      if (count <? length metrics)%nat
      then fill fuel (<[count := fallback]> metrics) (S count) fallback
      else metrics
  end.

(** src: gpu_metrics.c lsm_gpu_default_metrics *)
Definition lsm_gpu_default_metrics (gpu : option LsmGpuInfo) (metrics : list LsmGpuMetric)
    : list LsmGpuMetric :=
  let capacity := length metrics in
  if (capacity =? 0)%nat then metrics
  else
    let '(metrics, count) := foldl (λ acc metric,
      let '(metrics, count) := acc in
      if (count <? capacity)%nat && lsm_gpu_metric_available gpu metric
      then (<[count := metric]> metrics, S count) else acc) (metrics, 0%nat)
      detailed_metric_order in
    let '(metrics, count) :=
      if (count <? capacity)%nat && lsm_gpu_metric_available gpu LSM_GPU_METRIC_OVERALL
      then (<[count := LSM_GPU_METRIC_OVERALL]> metrics, S count) else (metrics, count) in
    let fallback := if (0 <? count)%nat then default LSM_GPU_METRIC_OVERALL (metrics !! 0%nat)
                    else LSM_GPU_METRIC_OVERALL in
    fill capacity metrics count fallback.

(** ** Specification *)

(** The available metrics in presentation order, the overall one last. *)
Definition available_metrics (gpu : option LsmGpuInfo) : list LsmGpuMetric :=
  filter (λ m, lsm_gpu_metric_available gpu m = true)
         (detailed_metric_order ++ [LSM_GPU_METRIC_OVERALL]).

(** Overwriting the cells of an array from its start with as much of [xs] as fits. *)
Definition overwrite {A} (array xs : list A) : list A :=
  take (length array) xs ++ drop (length xs) array.

Lemma overwrite_snoc {A} (array xs : list A) (x : A) :
  overwrite array (xs ++ [x]) =
  if (length xs <? length array)%nat then <[length xs := x]> (overwrite array xs)
  else overwrite array xs.
Proof.
  unfold overwrite. rewrite length_app. simpl.
  destruct (Nat.ltb_spec (length xs) (length array)).
  - rewrite !take_ge by (rewrite ?length_app; simpl; lia).
    destruct (drop (length xs) array) as [|y rest] eqn:Hd.
    { apply (f_equal length) in Hd. rewrite length_drop in Hd. simpl in Hd. lia. }
    rewrite insert_app_r_alt, Nat.sub_diag by done. simpl. rewrite <-app_assoc. simpl.
    rewrite Nat.add_comm. simpl. f_equal. f_equal.
    rewrite <-Nat.add_1_r, <-drop_drop, Hd. done.
  - rewrite take_app_le by lia. rewrite !drop_ge by lia. done.
Qed.

Lemma overwrite_nil {A} (array : list A) : overwrite array [] = array.
Proof. unfold overwrite. by destruct array. Qed.

Lemma length_overwrite {A} (array xs : list A) : length (overwrite array xs) = length array.
Proof. unfold overwrite. rewrite length_app, length_take, length_drop. lia. Qed.

Lemma emit_overwrite array xs m :
  emit (overwrite array xs, length xs) m = (overwrite array (xs ++ [m]), length (xs ++ [m])).
Proof.
  unfold emit. rewrite length_overwrite, overwrite_snoc, length_app, Nat.add_1_r. done.
Qed.

Lemma filter_snoc_available gpu ms m :
  filter (λ m, lsm_gpu_metric_available gpu m = true) (ms ++ [m]) =
  filter (λ m, lsm_gpu_metric_available gpu m = true) ms
  ++ (if lsm_gpu_metric_available gpu m then [m] else []).
Proof.
  rewrite filter_app, filter_cons. destruct (lsm_gpu_metric_available gpu m) eqn:E.
  - by rewrite decide_True.
  - by rewrite decide_False.
Qed.

Lemma emit_loop gpu array ms :
  foldl (λ acc metric, if negb (lsm_gpu_metric_available gpu metric) then acc else emit acc metric)
        (array, 0%nat) ms
  = (overwrite array (filter (λ m, lsm_gpu_metric_available gpu m = true) ms),
     length (filter (λ m, lsm_gpu_metric_available gpu m = true) ms)).
Proof.
  induction ms as [|m ms IH] using rev_ind.
  - by rewrite filter_nil, overwrite_nil.
  - rewrite foldl_app, IH, filter_snoc_available. simpl.
    destruct (lsm_gpu_metric_available gpu m); simpl; [apply emit_overwrite|by rewrite app_nil_r].
Qed.

(** The selectable metrics are the available ones in presentation
    order, overall last: the count is exact whatever the capacity, at most
    [capacity] cells are written, and no cell behind the written ones changes. *)
Theorem gpu_selectable_spec gpu array :
  lsm_gpu_selectable_metrics gpu array
  = (overwrite array (available_metrics gpu), length (available_metrics gpu)).
Proof.
  destruct gpu as [g|]; unfold lsm_gpu_selectable_metrics.
  - unfold available_metrics. rewrite emit_loop, filter_snoc_available.
    destruct (lsm_gpu_metric_available (Some g) LSM_GPU_METRIC_OVERALL);
      [apply emit_overwrite|by rewrite app_nil_r].
  - assert (available_metrics None = []) as -> by reflexivity. by rewrite overwrite_nil.
Qed.

(** A graphed value is always a percentage, and it is the retained
    sample whenever that is available and already a percentage. *)
Theorem gpu_value_in_percent gpu metric :
  in_percent (lsm_gpu_metric_value gpu metric)
  ∧ ∀ g, gpu = Some g → lsm_gpu_metric_available gpu metric = true →
         isfinite (raw_metric_value g metric) = true → in_percent (raw_metric_value g metric) →
         lsm_gpu_metric_value gpu metric = raw_metric_value g metric.
Proof.
  unfold lsm_gpu_metric_value. split.
  - destruct gpu as [g|]; [|auto with double].
    destruct (negb _); [auto with double|].
    destruct (isfinite (raw_metric_value g metric)) eqn:Hf; [|auto with double]. simpl.
    destruct (dlt (raw_metric_value g metric) d0) eqn:Hlo; [auto with double|].
    destruct (dlt d100 (raw_metric_value g metric)) eqn:Hhi; [auto with double|].
    apply in_percent_range; [by apply isfinite_not_nan|done|done].
  - intros g -> Ha Hf [Hlo Hhi]. rewrite Ha, Hf. simpl.
    by rewrite (dle_not_dlt _ _ Hlo), (dle_not_dlt _ _ Hhi).
Qed.

(** The loops of the default selection append at the end of what is written. *)
Definition append_bounded (gpu : option LsmGpuInfo) (capacity : nat)
    (acc : list LsmGpuMetric * nat) (metric : LsmGpuMetric) : list LsmGpuMetric * nat :=
  let '(metrics, count) := acc in
  if (count <? capacity)%nat && lsm_gpu_metric_available gpu metric
  then (<[count := metric]> metrics, S count) else acc.

Lemma take_snoc_bounded {A} n (l : list A) x :
  take n (l ++ [x]) = if (length l <? n)%nat then take n l ++ [x] else take n l.
Proof.
  destruct (Nat.ltb_spec (length l) n).
  - rewrite !take_ge by (rewrite ?length_app; simpl; lia). done.
  - by rewrite take_app_le.
Qed.

Lemma append_bounded_overwrite gpu array xs m :
  append_bounded gpu (length array) (overwrite array (take (length array) xs),
                                     length (take (length array) xs)) m
  = let xs' := xs ++ (if lsm_gpu_metric_available gpu m then [m] else []) in
    (overwrite array (take (length array) xs'), length (take (length array) xs')).
Proof.
  unfold append_bounded. destruct (lsm_gpu_metric_available gpu m); simpl.
  2: { by rewrite app_nil_r, andb_false_r. }
  rewrite andb_true_r, take_snoc_bounded, length_take.
  destruct (Nat.ltb_spec (length xs) (length array)) as [Hlt|Hge].
  - replace (Nat.min (length array) (length xs)) with (length xs) by lia.
    destruct (Nat.ltb_spec (length xs) (length array)); [|lia].
    rewrite take_ge by lia. rewrite overwrite_snoc, length_app, Nat.add_1_r.
    destruct (Nat.ltb_spec (length xs) (length array)); [done|lia].
  - destruct (Nat.ltb_spec (Nat.min (length array) (length xs)) (length array)); [lia|].
    by rewrite length_take.
Qed.

Lemma append_loop gpu array ms :
  foldl (append_bounded gpu (length array)) (array, 0%nat) ms
  = let F := take (length array) (filter (λ m, lsm_gpu_metric_available gpu m = true) ms) in
    (overwrite array F, length F).
Proof.
  induction ms as [|m ms IH] using rev_ind.
  - simpl. by rewrite filter_nil, take_nil, overwrite_nil.
  - rewrite foldl_app, IH, filter_snoc_available. cbv zeta. apply append_bounded_overwrite.
Qed.

Lemma fill_spec fuel metrics count fallback :
  (count ≤ length metrics)%nat → (length metrics - count ≤ fuel)%nat →
  fill fuel metrics count fallback
  = take count metrics ++ replicate (length metrics - count) fallback.
Proof.
  revert metrics count. induction fuel as [|fuel IH]; intros metrics count Hc Hf; simpl.
  - replace (length metrics - count)%nat with 0%nat by lia. simpl.
    by rewrite app_nil_r, take_ge by lia.
  - destruct (Nat.ltb_spec count (length metrics)).
    + rewrite IH; rewrite length_insert; try lia.
      replace (length metrics - count)%nat with (S (length metrics - S count)) by lia.
      rewrite (take_S_r _ _ fallback) by (apply list_lookup_insert_eq; lia).
      rewrite take_insert_ge by lia. by rewrite <-app_assoc.
    + replace (length metrics - count)%nat with 0%nat by lia. simpl.
      by rewrite app_nil_r, take_ge by lia.
Qed.

Lemma take_overwrite {A} (array xs : list A) :
  (length xs ≤ length array)%nat → take (length xs) (overwrite array xs) = xs.
Proof. intros H. unfold overwrite. rewrite (take_ge xs) by done. apply take_app_length. Qed.

(** The default selection fills every graph slot: the available
    metrics that fit, in presentation order, then the first of them repeated; the
    overall metric everywhere when the device measures nothing. *)
Theorem gpu_default_spec gpu array :
  lsm_gpu_default_metrics gpu array
  = let shown := take (length array) (available_metrics gpu) in
    shown ++ replicate (length array - length shown)
                       (default LSM_GPU_METRIC_OVERALL (head (available_metrics gpu))).
Proof.
  unfold lsm_gpu_default_metrics. destruct (Nat.eqb_spec (length array) 0) as [E|E].
  { apply nil_length_inv in E as ->. done. }
  change (foldl _ (array, 0%nat) detailed_metric_order)
    with (foldl (append_bounded gpu (length array)) (array, 0%nat) detailed_metric_order).
  rewrite append_loop. cbv beta zeta iota.
  set (F := filter _ detailed_metric_order).
  match goal with |- (let '(_, _) := ?acc in _) = _ =>
    assert (acc = (overwrite array (take (length array) (available_metrics gpu)),
                   length (take (length array) (available_metrics gpu)))) as -> end.
  { pose proof (append_bounded_overwrite gpu array F LSM_GPU_METRIC_OVERALL) as Happ.
    cbv zeta in Happ. unfold available_metrics. rewrite filter_snoc_available. fold F.
    rewrite <-Happ. done. }
  set (shown := take (length array) (available_metrics gpu)).
  assert (length shown ≤ length array)%nat as Hle by (unfold shown; rewrite length_take; lia).
  rewrite fill_spec by (rewrite ?length_overwrite; lia).
  rewrite length_overwrite, take_overwrite by done. do 2 f_equal.
  unfold shown. destruct (available_metrics gpu) as [|m ms]; [by rewrite take_nil|].
  destruct (length array) as [|n] eqn:Hn; [done|]. simpl.
  destruct array; [done|]. unfold overwrite. done.
Qed.

(** ** Witness *)

Definition render_only : LsmGpuInfo :=
  zero_LsmGpuInfo <| gpu_render_available := true |> <| gpu_render_percent := d100 |>.

Lemma gpu_value_in_percent_witness :
  lsm_gpu_metric_value (Some render_only) LSM_GPU_METRIC_RENDER = d100.
Proof.
  exact (proj2 (gpu_value_in_percent (Some render_only) LSM_GPU_METRIC_RENDER)
           render_only eq_refl eq_refl eq_refl in_percent_100).
Defined.
