(* ===== verification/Mountinfo.v ===== *)
(** * Mountinfo: the kernel's mount table

    Models [src/src/mountinfo.c]: field splitting, octal unescaping, validation
    of one record, and the checked visit of a whole stream.  The visitor is a
    function on the consumer's state. *)
From S2P Require Import Prelude Double CStrings Common.
Local Open Scope Z_scope.

(** src: process_model.h:24-24 LSM_PATH_LEN *)
Definition LSM_PATH_LEN : nat := 512.

(** src: mountinfo.h:22-28 LsmMountInfoEntry *)
Record LsmMountInfoEntry := {
  me_major_number : Z;
  me_minor_number : Z;
  me_source : string;
  me_target : string;
  me_filesystem : string;
}.

Section mountinfo.
Context `{TextOps, NumberOps}.

(** The next field, if any, and the advanced cursor. *)
(** src: mountinfo.c next_field *)
Definition next_field (cursor : string) : option string * string :=
  match skip lsm_ascii_is_space cursor with
  | EmptyString => (None, EmptyString)
  | start =>
      let '(field, rest) := span lsm_ascii_is_space start in
      (Some field, match rest with String _ r => r | EmptyString => EmptyString end)
  end.

(** src: mountinfo.c parse_device_number *)
Definition parse_device_number (text : string) : option (Z * Z) :=
  let '(ok, cursor, major_value) := lsm_parse_u64_token text 10 0 in
  if negb ok then None
  else match cursor with
  | String ":" cursor =>
      let '(ok, cursor, minor_value) := lsm_parse_u64_token cursor 10 0 in
      if negb ok || nonempty cursor || (uint_max <? major_value) || (uint_max <? minor_value)
      then None else Some (major_value, minor_value)
  | _ => None
  end.

Definition octal_digit (c : ascii) : option Z :=
  let n := Z.of_nat (Ascii.nat_of_ascii c) in
  if (48 <=? n) && (n <=? 55) then Some (n - 48) else None.

(** The loop with [room = decoded_size - output] bytes left in the buffer. *)
(** src: mountinfo.c decode_mount_field *)
Fixpoint decode_loop (encoded : string) (room : nat) : option string :=
  match encoded with
  | EmptyString => Some EmptyString
  | String "\" (String a (String b (String c rest))) =>
      match octal_digit a, octal_digit b, octal_digit c with
      | Some a, Some b, Some c =>
          let octal := Z.lor (Z.lor (Z.shiftl a 6) (Z.shiftl b 3)) c in
          if (octal =? 0) || (255 <? octal) then None
          else match room with
               | S (S _ as room) =>
                   String (Ascii.ascii_of_nat (Z.to_nat octal)) <$> decode_loop rest room
               | _ => None
               end
      | _, _, _ => None
      end
  | String "\" _ => None
  | String value rest =>
      match room with
      | S (S _ as room) => String value <$> decode_loop rest room
      | _ => None
      end
  end.

(** src: mountinfo.c decode_mount_field *)
Definition decode_mount_field (encoded : string) (decoded_size : nat) : option string :=
  if (decoded_size =? 0)%nat then None else decode_loop encoded decoded_size.

(** [for (field = next_field(&cursor); field; ...) if (strcmp(field, "-") == 0)
    break;] -- the cursor behind the separator.  Each field consumes a
    character, so the length of the line bounds the iterations. *)
(** src: mountinfo.c:120-127 parse_mount_line *)
Fixpoint find_separator (fuel : nat) (cursor : string) : option string :=
  match fuel with
  | O => None
  | S fuel =>
      match next_field cursor with
      | (None, _) => None
      | (Some field, cursor) =>
          if strcmp_eq field "-" then Some cursor else find_separator fuel cursor
      end
  end.

(** src: mountinfo.c parse_mount_line *)
Definition parse_mount_line (line : string) : option LsmMountInfoEntry :=
  let '(mount_id, cursor) := next_field line in
  let '(parent_id, cursor) := next_field cursor in
  let '(device_number, cursor) := next_field cursor in
  let '(root, cursor) := next_field cursor in
  let '(target, cursor) := next_field cursor in
  let '(mount_options, cursor) := next_field cursor in
  match mount_id, parent_id, device_number, root, target, mount_options with
  | Some mount_id, Some parent_id, Some device_number, Some root, Some target, Some _ =>
      if negb (infiltratr_parse_u64 mount_id 10 0).1
         || negb (infiltratr_parse_u64 parent_id 10 (infiltratr_parse_u64 mount_id 10 0).2).1
         || negb (char_is root 0 "/") || negb (char_is target 0 "/") then None
      else match find_separator (S (String.length cursor)) cursor with
      | None => None
      | Some cursor =>
          let '(filesystem, cursor) := next_field cursor in
          let '(source, cursor) := next_field cursor in
          let '(super_options, cursor) := next_field cursor in
          match filesystem, source, super_options, (next_field cursor).1 with
          | Some filesystem, Some source, Some _, None =>
              match parse_device_number device_number with
              | None => None
              | Some (major_number, minor_number) =>
                  match decode_mount_field source LSM_PATH_LEN,
                        decode_mount_field target LSM_PATH_LEN,
                        decode_mount_field filesystem 64 with
                  | Some source, Some target, Some filesystem =>
                      Some {| me_major_number := major_number;
                              me_minor_number := minor_number;
                              me_source := source; me_target := target;
                              me_filesystem := filesystem |}
                  | _, _, _ => None
                  end
              end
          | _, _, _, _ => None
          end
      end
  | _, _, _, _, _, _ => None
  end.

(** The records [getline] delivers: up to and including each newline; the last
    one may be incomplete. *)
Fixpoint getlines_fuel (fuel : nat) (s : string) : list string :=
  match fuel, s with
  | O, _ | _, EmptyString => []
  | S fuel, _ =>
      match split_at nl s with
      | Some (line, rest) => (line +:+ String nl EmptyString) :: getlines_fuel fuel rest
      | None => [s]
      end
  end.
Definition getlines (s : string) : list string := getlines_fuel (String.length s) s.

Section visit.
Context {St : Type} (visitor : LsmMountInfoEntry → St → St * bool).

(** The reading loop: state, records delivered, and whether it ended because a
    record was malformed or the visitor refused one. *)
(** src: mountinfo.c:166-182 lsm_mountinfo_visit_file_checked *)
Fixpoint visit_loop (lines : list string) (st : St) (count : Z) : St * Z * bool * bool :=
  match lines with
  | [] => (st, count, false, false)
  | line :: lines =>
      match (if char_is line (String.length line - 1) nl then parse_mount_line line else None) with
      | None => (st, count, true, false)
      | Some entry =>
          let '(st, continue) := visitor entry st in
          if continue : bool then visit_loop lines st (count + 1)
          else (st, count + 1, false, true)
      end
  end.

(** [text] is the stream, when it could be opened; the two flags are the outcome
    of [ferror] and [fclose].  Result, visitor state and [*out_count]. *)
(** src: mountinfo.c lsm_mountinfo_visit_file_checked *)
Definition lsm_mountinfo_visit_file_checked (text : option string) (read_ok close_ok : bool)
    (st : St) : bool * St * Z :=
  match text with
  | None => (false, st, 0)
  | Some text =>
      let '(st, count, malformed, stopped_early) := visit_loop (getlines text) st 0 in
      (read_ok && close_ok && negb stopped_early && negb malformed, st, count)
  end.
End visit.
End mountinfo.

(** ** Escaping, as the kernel prints a mount field *)

Definition octal3 (c : ascii) (rest : string) : string :=
  let n := Z.of_nat (Ascii.nat_of_ascii c) in
  String "\" (String (digit_char (n / 64)) (String (digit_char (n / 8 mod 8))
    (String (digit_char (n mod 8)) rest))).

Fixpoint escape (esc : ascii → bool) (s : string) : string :=
  match s with
  | EmptyString => EmptyString
  | String c s => if esc c then octal3 c (escape esc s) else String c (escape esc s)
  end.

Definition no_nul (s : string) : bool := string_forallb (λ c, negb (Ascii.eqb c "000")) s.

Lemma decode_plain c rest room :
  c ≠ "\"%char →
  decode_loop (String c rest) room =
    match room with S (S _ as room) => String c <$> decode_loop rest room | _ => None end.
Proof. intros Hc. by destruct c as [[] [] [] [] [] [] [] []]. Qed.

Lemma decode_octal c rest room :
  c ≠ "000"%char →
  decode_loop (octal3 c rest) room =
    match room with S (S _ as room) => String c <$> decode_loop rest room | _ => None end.
Proof. intros Hc. by destruct c as [[] [] [] [] [] [] [] []]. Qed.

Lemma decode_escape esc s room :
  esc "\"%char = true → no_nul s = true → (String.length s < room)%nat →
  decode_loop (escape esc s) room = Some s.
Proof.
  intros Hesc. revert room. induction s as [|c s IH]; intros room Hn Hl; [by destruct room|].
  cbn in Hn. bool_hyps. cbn [escape String.length] in *.
  destruct room as [|[|room]]; [lia|lia|].
  assert (c ≠ "000"%char) by (intros ->; done).
  destruct (esc c) eqn:E; [rewrite decode_octal by done|rewrite decode_plain by congruence];
    rewrite IH by (done || lia); done.
Qed.

Lemma decode_bound n encoded room decoded :
  (String.length encoded ≤ n)%nat → decode_loop encoded room = Some decoded → (0 < room)%nat →
  (String.length decoded < room)%nat.
Proof.
  revert encoded room decoded. induction n as [|n IH]; intros encoded room decoded Hn Hd Hr.
  - destruct encoded; [|simpl in Hn; lia]. assert (decoded = "") as -> by (by destruct room; simplify_eq/=).
    done.
  - destruct encoded as [|c rest]; [assert (decoded = "") as -> by (by destruct room; simplify_eq/=); done|].
    simpl in Hn. destruct (decide (c = "\"%char)) as [->|Hc].
    + destruct rest as [|a [|b [|c rest]]]; try by destruct room.
      simpl in Hd. destruct (octal_digit a), (octal_digit b), (octal_digit c); try done.
      destruct (_ || _); [done|]. destruct room as [|[|room]]; try done.
      apply fmap_Some in Hd as (d & Hd & ->). simpl in Hn.
      apply IH in Hd; [simpl; lia|lia|lia].
    + rewrite decode_plain in Hd by done. destruct room as [|[|room]]; try done.
      apply fmap_Some in Hd as (d & Hd & ->). apply IH in Hd; [simpl; lia|lia|lia].
Qed.

(** Unescaping inverts the kernel's escaping of any NUL-free name
    that fits the buffer, whichever characters the kernel chose to escape
    beside the backslash; and no result ever overflows the buffer. *)
Theorem mount_field_round_trip esc s size :
  (esc "\"%char = true → no_nul s = true → (String.length s < size)%nat →
   decode_mount_field (escape esc s) size = Some s)
  ∧ ∀ encoded decoded, decode_mount_field encoded size = Some decoded →
                       (String.length decoded < size)%nat.
Proof.
  unfold decode_mount_field. split.
  - intros He Hn Hl. destruct (Nat.eqb_spec size 0); [lia|]. by apply decode_escape.
  - intros encoded decoded. destruct (Nat.eqb_spec size 0); [done|]. intros Hd.
    eapply decode_bound; [|done|lia]. done.
Qed.

(** ** Records *)

Section records.
Context `{TextLaws, NumberLaws}.

(** A field [next_field] delivers whole. *)
Definition clean (f : string) : bool :=
  nonempty f && string_forallb (λ c, negb (lsm_ascii_is_space c)) f.

Lemma is_space_char c : In c [" "%char; nl] → lsm_ascii_is_space c = true.
Proof. rewrite is_space_spec. by intros [<-|[<-|[]]]. Qed.

Lemma span_clean f rest :
  string_forallb (λ c, negb (lsm_ascii_is_space c)) f = true →
  (nonempty rest = true → lsm_ascii_is_space (char_at rest 0) = true) →
  span lsm_ascii_is_space (f +:+ rest) = (f, rest).
Proof.
  intros Hf Hr. induction f as [|c f IH]; cbn [string_forallb] in Hf.
  - change (span lsm_ascii_is_space rest = ("", rest)). destruct rest as [|d rest]; [done|].
    specialize (Hr eq_refl). change (lsm_ascii_is_space d = true) in Hr. simpl. by rewrite Hr.
  - apply andb_true_iff in Hf as [Hc%negb_true_iff Hf].
    change (span lsm_ascii_is_space (String c (f +:+ rest)) = (String c f, rest)).
    simpl. by rewrite Hc, IH.
Qed.

Lemma next_field_clean f rest :
  clean f = true → (nonempty rest = true → lsm_ascii_is_space (char_at rest 0) = true) →
  next_field (f +:+ rest)
  = (Some f, match rest with String _ r => r | EmptyString => EmptyString end).
Proof.
  unfold clean. intros [Hne Hf]%andb_true_iff Hr. unfold next_field.
  assert (skip lsm_ascii_is_space (f +:+ rest) = f +:+ rest) as ->.
  { destruct f as [|c f]; [done|]. cbn [string_forallb] in Hf.
    apply andb_true_iff in Hf as [Hc%negb_true_iff _].
    change (skip lsm_ascii_is_space (String c (f +:+ rest)) = String c (f +:+ rest)). simpl. by rewrite Hc. }
  destruct f as [|c f]; [done|].
  pose proof (span_clean (String c f) rest Hf Hr) as Hs.
  change (String c f +:+ rest) with (String c (f +:+ rest)) in *. cbv iota. by rewrite Hs.
Qed.

Lemma next_field_sep f rest :
  clean f = true → next_field (f +:+ String " " rest) = (Some f, rest).
Proof. intros Hf. rewrite next_field_clean; [done|done|]. intros _. apply is_space_char. simpl; auto. Qed.

(** The fields of a record, and its physical line. *)
Definition print_fields (fields : list string) : string := join " " fields +:+ String nl "".

Lemma print_fields_cons f g fields :
  print_fields (f :: g :: fields) = f +:+ String " " (print_fields (g :: fields)).
Proof. unfold print_fields. cbn [join]. by rewrite !string_app_assoc. Qed.

Lemma next_field_last f : clean f = true → next_field (print_fields [f]) = (Some f, EmptyString).
Proof.
  intros Hf. unfold print_fields. cbn [join]. rewrite next_field_clean; [done|done|].
  intros _. apply is_space_char. simpl; auto.
Qed.

Lemma print_fields_length fields : (length fields ≤ S (String.length (print_fields fields)))%nat.
Proof.
  induction fields as [|f [|g fields] IH]; [simpl; lia|simpl; lia|].
  rewrite print_fields_cons, string_length_app. cbn [String.length]. simpl (length _) in *. lia.
Qed.

Lemma find_separator_spec fuel optional tail :
  Forall (λ f, clean f = true ∧ f ≠ "-") optional → tail ≠ [] → (length optional < fuel)%nat →
  find_separator fuel (print_fields (optional ++ "-" :: tail)) = Some (print_fields tail).
Proof.
  intros Hopt Ht. revert fuel. induction Hopt as [|f fields [Hf Hne] _ IH]; intros fuel Hfuel.
  - destruct fuel as [|fuel]; [simpl in Hfuel; lia|]. destruct tail as [|t tail]; [done|].
    cbn [app find_separator]. rewrite print_fields_cons, next_field_sep; [done|].
    unfold clean. cbn. by rewrite is_space_spec.
  - destruct fuel as [|fuel]; [simpl in Hfuel; lia|]. simpl in Hfuel.
    cbn [app find_separator].
    destruct (fields ++ "-" :: tail) as [|g rest] eqn:E; [by destruct fields|].
    rewrite print_fields_cons, next_field_sep by done. rewrite strcmp_eq_ne by done.
    rewrite <-E in *. apply IH. lia.
Qed.
End records.

Section record_round_trip.
Context `{TextLaws, NumberLaws}.

Lemma decimal_clean_char c : is_decimal c = true → lsm_ascii_is_space c = false.
Proof.
  rewrite is_space_spec. unfold is_decimal. cbn [existsb]. intros Hd.
  repeat (apply orb_true_iff in Hd as [->%Ascii.eqb_eq|Hd]; [done|]). done.
Qed.

Lemma decimal_clean s : nonempty s = true → string_forallb is_decimal s = true → clean s = true.
Proof.
  intros Hne Hd. unfold clean. rewrite Hne. eapply forallb_impl; [|exact Hd].
  intros c Hc. by rewrite decimal_clean_char.
Qed.

Lemma print_u64_clean n : u64 n → clean (print_u64 n) = true.
Proof. intros [Hn _]. destruct (print_u64_text n Hn) as (? & ? & _). by apply decimal_clean. Qed.

Lemma escape_clean esc s :
  (∀ c, lsm_ascii_is_space c = true → esc c = true) → nonempty s = true →
  clean (escape esc s) = true.
Proof.
  intros Hesc Hne. unfold clean. apply andb_true_iff. split.
  { destruct s as [|c s]; [done|]. simpl. by destruct (esc c). }
  clear Hne. induction s as [|c s IH]; [done|]. cbn [escape].
  destruct (esc c) eqn:E.
  - unfold octal3. cbn [string_forallb]. rewrite IH.
    pose proof (Ascii.nat_ascii_bounded c).
    pose proof (Z.mod_pos_bound (Z.of_nat (Ascii.nat_of_ascii c) / 8) 8 ltac:(lia)).
    pose proof (Z.mod_pos_bound (Z.of_nat (Ascii.nat_of_ascii c)) 8 ltac:(lia)).
    assert (0 <= Z.of_nat (Ascii.nat_of_ascii c) / 64 < 10).
    { split; [apply Z.div_pos; lia|apply Z.div_lt_upper_bound; lia]. }
    assert (lsm_ascii_is_space "\" = false) as -> by by rewrite is_space_spec.
    by rewrite !decimal_clean_char by (apply digit_char_decimal; lia).
  - cbn [string_forallb]. rewrite IH. destruct (lsm_ascii_is_space c) eqn:Hs; [|done].
    by rewrite Hesc in E.
Qed.

Record entry_valid (e : LsmMountInfoEntry) : Prop := {
  ev_major : 0 <= me_major_number e <= uint_max;
  ev_minor : 0 <= me_minor_number e <= uint_max;
  ev_source : no_nul (me_source e) = true ∧ nonempty (me_source e) = true
              ∧ (String.length (me_source e) < LSM_PATH_LEN)%nat;
  ev_target : no_nul (me_target e) = true ∧ char_at (me_target e) 0 = "/"%char
              ∧ (String.length (me_target e) < LSM_PATH_LEN)%nat;
  ev_filesystem : no_nul (me_filesystem e) = true ∧ nonempty (me_filesystem e) = true
                  ∧ (String.length (me_filesystem e) < 64)%nat;
}.

(** The kernel's line for an entry: identifiers, device, root, target, options,
    optional fields, separator, type, source, super options. *)
Definition mount_fields (esc : ascii → bool) (e : LsmMountInfoEntry)
    (mount_id parent_id : Z) (root options super_options : string) (optional : list string)
    : list string :=
  [print_u64 mount_id; print_u64 parent_id;
   print_u64 (me_major_number e) +:+ ":" +:+ print_u64 (me_minor_number e);
   root; escape esc (me_target e); options]
  ++ optional ++ ["-"; escape esc (me_filesystem e); escape esc (me_source e); super_options].

Lemma device_number_round_trip major minor :
  0 <= major <= uint_max → 0 <= minor <= uint_max →
  parse_device_number (print_u64 major +:+ ":" +:+ print_u64 minor) = Some (major, minor)
  ∧ clean (print_u64 major +:+ ":" +:+ print_u64 minor) = true.
Proof.
  intros Ha Hi. assert (u64 major) as Hua by (unfold u64, uint64_max, uint_max in *; lia).
  assert (u64 minor) as Hui by (unfold u64, uint64_max, uint_max in *; lia). split.
  - unfold parse_device_number. rewrite parse_token_print by done. simpl (negb true).
    cbn [String.append]. cbv iota.
    pose proof (parse_token_print minor "" 0 Hui eq_refl) as Hp. rewrite string_app_nil_r in Hp.
    change (":" +:+ print_u64 minor) with (String ":" (print_u64 minor)). cbv iota. rewrite Hp. simpl.
    destruct (Z.ltb_spec uint_max major), (Z.ltb_spec uint_max minor); done || lia.
  - destruct (print_u64_text major ltac:(lia)) as (Hd & Hne & _).
    destruct (print_u64_text minor ltac:(lia)) as (Hd' & Hne' & _).
    unfold clean. rewrite nonempty_app_l, !forallb_app by done.
    assert (∀ s, string_forallb is_decimal s = true →
                 string_forallb (λ c, negb (lsm_ascii_is_space c)) s = true) as Hs.
    { intros s. apply forallb_impl. intros c Hc. by rewrite decimal_clean_char. }
    rewrite (Hs (print_u64 major)), (Hs (print_u64 minor)) by done. simpl. by rewrite is_space_spec.
Qed.

(** Every mount the kernel prints in its documented format is
    parsed back to exactly its entry: device number, and source, target and type
    after unescaping, with any number of optional fields before the separator. *)
Theorem mount_line_round_trip esc e mount_id parent_id root options super_options optional :
  entry_valid e → u64 mount_id → u64 parent_id →
  esc "\"%char = true → esc "/"%char = false → (∀ c, lsm_ascii_is_space c = true → esc c = true) →
  clean root = true → char_at root 0 = "/"%char → clean options = true →
  clean super_options = true → Forall (λ f, clean f = true ∧ f ≠ "-") optional →
  parse_mount_line (print_fields (mount_fields esc e mount_id parent_id root options
                                               super_options optional)) = Some e.
Proof.
  intros [Hmaj Hmin (Hsn & Hse & Hsl) (Htn & Htc & Htl) (Hfn & Hfe & Hfl)]
    Hmi Hpi Hb Hslash Hsp Hroot Hrc Hopt Hsup Hoptional.
  destruct (device_number_round_trip _ _ Hmaj Hmin) as [Hdev Hdevc].
  assert (∃ t, me_target e = String "/" t) as [t Ht].
  { destruct (me_target e) as [|c t]; [done|]. exists t. change (c = "/"%char) in Htc. by subst. }
  assert (clean (escape esc (me_target e)) = true) as Htclean
    by (apply escape_clean; [done|by rewrite Ht]).
  unfold parse_mount_line, mount_fields. cbn [app].
  set (tail := [escape esc (me_filesystem e); escape esc (me_source e); super_options]).
  assert (∃ g rest, optional ++ "-" :: tail = g :: rest) as (g & rest & Hgr)
    by (destruct optional; simpl; eauto).
  rewrite Hgr. rewrite !print_fields_cons. rewrite <-Hgr.
  rewrite !next_field_sep by (done || by apply print_u64_clean).
  rewrite !parse_u64_print by done. unfold char_is at 1. rewrite Hrc.
  assert (char_is (escape esc (me_target e)) 0 "/" = true) as ->.
  { rewrite Ht. cbn [escape]. by rewrite Hslash. }
  cbn [fst snd negb orb Ascii.eqb Bool.eqb]. cbv iota.
  rewrite find_separator_spec; [|done|done|].
  2: { pose proof (print_fields_length (optional ++ "-" :: tail)) as Hl.
       rewrite length_app in Hl. simpl in Hl. lia. }
  unfold tail. rewrite !print_fields_cons.
  rewrite !next_field_sep by (by apply escape_clean).
  rewrite next_field_last by done. simpl (next_field "").1. cbv iota.
  rewrite Hdev. unfold decode_mount_field. simpl (_ =? 0)%nat. cbv iota.
  rewrite !decode_escape by done. by destruct e.
Qed.
End record_round_trip.

(** ** The visit *)

Section visit_facts.
Context `{TextOps, NumberOps} {St : Type} (visitor : LsmMountInfoEntry → St → St * bool).

(** A complete, valid record. *)
Definition record_of (line : string) : option LsmMountInfoEntry :=
  if char_is line (String.length line - 1) nl then parse_mount_line line else None.

(** Handing entries to a visitor that accepts each of them. *)
Inductive accepts : list LsmMountInfoEntry → St → St → Prop :=
| accepts_nil st : accepts [] st st
| accepts_cons e es st st1 st2 :
    visitor e st = (st1, true) → accepts es st1 st2 → accepts (e :: es) st st2.

Lemma accepts_inv e es st st1 go st2 :
  visitor e st = (st1, go) → accepts (e :: es) st st2 → go = true ∧ accepts es st1 st2.
Proof. intros Hv Hacc. inversion Hacc as [|? ? ? st3 ? Hv' Hrest]; subst.
  rewrite Hv in Hv'. by injection Hv' as -> ->.
Qed.

Lemma visit_loop_complete lines st count st' count' :
  visit_loop visitor lines st count = (st', count', false, false) ↔
  ∃ entries, mapM record_of lines = Some entries ∧ accepts entries st st'
             ∧ count' = count + Z.of_nat (length entries).
Proof.
  revert st count. induction lines as [|line lines IH]; intros st count; simpl.
  - split.
    + intros [= <- <-]. exists []. split_and!; [done|constructor|simpl; lia].
    + intros (entries & [= <-] & Hacc & ->). inversion Hacc; subst. simpl.
      by rewrite Z.add_0_r.
  - fold (record_of line). destruct (record_of line) as [e|]; simpl.
    2: { split; [done|]. by intros (? & [=] & _). }
    destruct (visitor e st) as [st1 go] eqn:Hv.
    destruct go; simpl.
    + rewrite IH. split.
      * intros (entries & -> & Hacc & ->). exists (e :: entries).
        split_and!; [done|by econstructor|simpl; lia].
      * intros (entries & Hm & Hacc & ->). destruct (mapM record_of lines) as [es|]; [|done].
        injection Hm as <-. destruct (accepts_inv _ _ _ _ _ _ Hv Hacc) as [_ Hrest].
        exists es. split_and!; [done|done|simpl; lia].
    + split; [done|]. intros (entries & Hm & Hacc & ->).
      destruct (mapM record_of lines) as [es|]; [|done]. injection Hm as <-.
      by destruct (accepts_inv _ _ _ _ _ _ Hv Hacc).
Qed.

(** The checked visit succeeds exactly when the stream was opened,
    read and closed without error, every record is complete and valid, and the
    visitor accepted each of them in order; the reported count is then the number
    of records.  Any malformed or truncated record makes the whole visit fail. *)
Theorem mount_visit_all_or_fail text read_ok close_ok st st' count :
  lsm_mountinfo_visit_file_checked visitor text read_ok close_ok st = (true, st', count) ↔
  ∃ contents entries, text = Some contents ∧ read_ok = true ∧ close_ok = true
    ∧ mapM record_of (getlines contents) = Some entries
    ∧ accepts entries st st' ∧ count = Z.of_nat (length entries).
Proof.
  unfold lsm_mountinfo_visit_file_checked. destruct text as [contents|].
  2: { split; [done|]. by intros (? & ? & [=] & _). }
  destruct (visit_loop visitor (getlines contents) st 0) as [[[st1 count1] malformed] stopped] eqn:E.
  split.
  - intros [= Hok <- <-]. apply andb_true_iff in Hok as [Hok Hm%negb_true_iff].
    apply andb_true_iff in Hok as [Hok Hs%negb_true_iff]. apply andb_true_iff in Hok as [-> ->].
    rewrite Hm, Hs in E. apply visit_loop_complete in E as (entries & He & Hacc & ->).
    exists contents, entries. by split_and!.
  - intros (? & entries & [= <-] & -> & -> & He & Hacc & ->).
    assert (visit_loop visitor (getlines contents) st 0
            = (st', 0 + Z.of_nat (length entries), false, false)) as E'
      by (apply visit_loop_complete; eauto).
    rewrite E' in E. by injection E as <- <- <- <-.
Qed.
End visit_facts.

(** ** Witnesses *)

From S2P Require Import CommonReference.

Definition sample_entry : LsmMountInfoEntry :=
  {| me_major_number := 259; me_minor_number := 2; me_source := "/dev/nvme0n1p2";
     me_target := "/mnt/my disk"; me_filesystem := "ext4" |}.

(** The characters seq_file escapes for mountinfo. *)
Definition kernel_escapes (c : ascii) : bool :=
  existsb (Ascii.eqb c) ["009"; "010"; "011"; "012"; "013"; " "; "\"; "#"]%char.

Lemma kernel_escapes_space c : lsm_ascii_is_space c = true → kernel_escapes c = true.
Proof.
  change (ref_is_space c = true → kernel_escapes c = true). unfold ref_is_space. cbn [existsb].
  intros H. repeat (apply orb_true_iff in H as [->%Ascii.eqb_eq|H]; [done|]). done.
Qed.

Lemma sample_entry_valid : entry_valid sample_entry.
Proof. split; vm_compute; intuition (discriminate || lia). Qed.

Lemma mount_field_round_trip_witness :
  decode_mount_field (escape kernel_escapes "/mnt/my disk") 512 = Some "/mnt/my disk".
Proof. apply (proj1 (mount_field_round_trip kernel_escapes "/mnt/my disk" 512)); vm_compute; (reflexivity || lia). Defined.

Lemma mount_line_round_trip_witness :
  parse_mount_line
    ("36 1 259:2 / /mnt/my\040disk rw,noatime shared:1 - ext4 /dev/nvme0n1p2 rw" +:+ String nl "")
  = Some sample_entry.
Proof.
  refine (mount_line_round_trip kernel_escapes sample_entry 36 1 "/" "rw,noatime" "rw" ["shared:1"]
            sample_entry_valid _ _ eq_refl eq_refl _ eq_refl eq_refl eq_refl eq_refl _).
  - split; vm_compute; discriminate.
  - split; vm_compute; discriminate.
  - intros c. apply kernel_escapes_space.
  - constructor; [split; [reflexivity|discriminate]|constructor].
Defined.

Lemma mount_visit_all_or_fail_witness :
  ∃ st, lsm_mountinfo_visit_file_checked (λ e n, ((n + me_major_number e)%Z, true))
    (Some ("36 1 259:2 / /mnt/my\040disk rw,noatime - ext4 /dev/nvme0n1p2 rw" +:+ String nl ""))
    true true 0 = (true, st, 1) ∧ st = 259.
Proof.
  eexists. split; [|reflexivity].
  apply mount_visit_all_or_fail. eexists _, [sample_entry].
  split; [reflexivity|]. split; [reflexivity|]. split; [reflexivity|].
  split; [vm_compute; reflexivity|]. split; [|reflexivity].
  eapply accepts_cons; [reflexivity|]. apply accepts_nil.
Defined.
