(* ===== verification/FilesystemInventory.v ===== *)
(** * FilesystemInventory: mounted filesystems and their capacity

    Models [src/src/filesystem_inventory.c]: the visitor of the checked mountinfo
    visit ([Mountinfo]), the capacity of each mount point and the sorted result.
    [statvfs] and the growth of the array are arguments. *)
From S2P Require Import Prelude Double Rounding CStrings Common Mountinfo.
From Stdlib Require Sorted.
Local Open Scope Z_scope.

(** src: filesystem_inventory.h:27-38 LsmFilesystemInfo *)
Record LsmFilesystemInfo := {
  fsi_source : string;
  fsi_target : string;
  fsi_filesystem : string;
  fsi_total_bytes : Z;
  fsi_free_bytes : Z;
  fsi_used_bytes : Z;
  fsi_available_bytes : Z;
  fsi_used_percent : Z;
  fsi_capacity_available : bool;
  fsi_normally_visible : bool;
}.
#[export] Instance eta_LsmFilesystemInfo : Eta LsmFilesystemInfo := λ x,
  Build_LsmFilesystemInfo (fsi_source x) (fsi_target x) (fsi_filesystem x) (fsi_total_bytes x) (fsi_free_bytes x)
    (fsi_used_bytes x) (fsi_available_bytes x) (fsi_used_percent x) (fsi_capacity_available x) (fsi_normally_visible x).

(** The fields of [struct statvfs] read. *)
Record StatVfs := { f_blocks : Z; f_bfree : Z; f_bavail : Z; f_frsize : Z; f_bsize : Z }.

(** src: filesystem_inventory.c filesystem_type_is_desktop_storage *)
Definition filesystem_type_is_desktop_storage (type : string) : bool :=
  existsb (strcmp_eq type)
    ["ext2"; "ext3"; "ext4"; "xfs"; "btrfs"; "f2fs"; "jfs"; "reiserfs";
     "vfat"; "msdos"; "exfat"; "ntfs"; "ntfs3"; "fuseblk"; "fuse";
     "zfs"; "bcachefs"; "udf"; "iso9660"; "nfs"; "nfs4"; "cifs"; "smb3";
     "sshfs"; "9p"]%string.

(** src: filesystem_inventory.c compare_filesystems *)
Definition compare_filesystems (left right : LsmFilesystemInfo) : comparison :=
  match strcmp (fsi_target left) (fsi_target right) with
  | Eq => strcmp (fsi_source left) (fsi_source right)
  | order => order
  end.

Section inventory.
Context `{TextOps, ArithmeticOps, NumberOps, Qsort}.
Context (statvfs : string → option StatVfs) (reserve : nat → bool).

(** src: filesystem_inventory.c filesystem_default_visible *)
Definition filesystem_default_visible (entry : LsmMountInfoEntry) : bool :=
  if strcmp_eq (me_target entry) "/" then true
  else if lsm_string_starts_with (me_source entry) "/dev/" then true
  else filesystem_type_is_desktop_storage (me_filesystem entry).

(** src: filesystem_inventory.c collect_capacity *)
Definition collect_capacity (item : LsmFilesystemInfo) : LsmFilesystemInfo :=
  match statvfs (fsi_target item) with
  | None => item
  | Some information =>
      let block_size := if f_frsize information =? 0 then f_bsize information else f_frsize information in
      let '(total_ok, total) := lsm_u64_multiply_checked (f_blocks information) block_size 0 in
      if negb total_ok then item else
      let '(free_ok, free_all) := lsm_u64_multiply_checked (f_bfree information) block_size 0 in
      if negb free_ok then item else
      let '(available_ok, available) := lsm_u64_multiply_checked (f_bavail information) block_size 0 in
      if negb available_ok then item else
      let free_bytes := if free_all <? total then free_all else total in
      let used_bytes := if free_bytes <=? total then total - free_bytes else 0 in
      let item := item <| fsi_capacity_available := true |> <| fsi_total_bytes := total |>
        <| fsi_free_bytes := free_bytes |> <| fsi_available_bytes := if available <? total then available else total |>
        <| fsi_used_bytes := used_bytes |> in
      if negb (total =? 0) then item <| fsi_used_percent := trunc_Z (lsm_percent_u64 used_bytes total) |> else item
  end.

(** The record of a mount. *)
(** src: filesystem_inventory.c:111-117 append_mount *)
Definition item_of_mount (entry : LsmMountInfoEntry) : LsmFilesystemInfo :=
  collect_capacity
    {| fsi_source := lsm_copy_string LSM_PATH_LEN (me_source entry);
       fsi_target := lsm_copy_string LSM_PATH_LEN (me_target entry);
       fsi_filesystem := lsm_copy_string 64 (me_filesystem entry);
       fsi_total_bytes := 0; fsi_free_bytes := 0; fsi_used_bytes := 0; fsi_available_bytes := 0; fsi_used_percent := 0;
       fsi_capacity_available := false; fsi_normally_visible := filesystem_default_visible entry |}.

Record FilesystemCollector := { fc_items : list LsmFilesystemInfo; fc_allocation_failed : bool }.

(** src: filesystem_inventory.c append_mount *)
Definition append_mount (entry : LsmMountInfoEntry) (collector : FilesystemCollector) : FilesystemCollector * bool :=
  if negb (reserve (length (fc_items collector) + 1))
  then (Build_FilesystemCollector (fc_items collector) true, false)
  else (Build_FilesystemCollector (fc_items collector ++ [item_of_mount entry]) (fc_allocation_failed collector), true).

(** [content] is the file, when its path fits and it could be opened; the flags
    are the outcome of [ferror] and [fclose]. *)
(** src: filesystem_inventory.c lsm_filesystem_inventory_collect *)
Definition lsm_filesystem_inventory_collect (content : option string) (read_ok close_ok : bool)
    : option (list LsmFilesystemInfo) :=
  let '(ok, collector, _) :=
    lsm_mountinfo_visit_file_checked append_mount content read_ok close_ok (Build_FilesystemCollector [] false) in
  if negb ok || fc_allocation_failed collector then None
  else if (length (fc_items collector) =? 0)%nat then Some []
  else Some (qsort compare_filesystems (fc_items collector)).
End inventory.

(** ** Properties *)

(** An item's figures fit together. *)
Definition consistent (item : LsmFilesystemInfo) : Prop :=
  0 <= fsi_used_percent item <= 100 ∧
  fsi_used_bytes item + fsi_free_bytes item = fsi_total_bytes item ∧
  0 <= fsi_used_bytes item ∧ 0 <= fsi_free_bytes item ∧ 0 <= fsi_available_bytes item <= fsi_total_bytes item ∧
  u64 (fsi_total_bytes item) ∧
  (fsi_capacity_available item = false → fsi_total_bytes item = 0 ∧ fsi_used_percent item = 0).

Lemma compare_filesystems_preorder : preorder_cmp compare_filesystems.
Proof.
  unfold compare_filesystems. split.
  - intros x y. rewrite (strcmp_antisym (fsi_target x) (fsi_target y)).
    destruct (strcmp (fsi_target x) (fsi_target y)); [|done..]. cbn. apply strcmp_antisym.
  - intros x y z Hxy Hyz.
    destruct (strcmp (fsi_target x) (fsi_target y)) eqn:Exy; [| |done];
      destruct (strcmp (fsi_target y) (fsi_target z)) eqn:Eyz; try done.
    + apply strcmp_eq_iff in Exy, Eyz. rewrite Exy, Eyz, strcmp_refl. by apply (cmp_trans _ strcmp_preorder _ (fsi_source y)).
    + apply strcmp_eq_iff in Exy. by rewrite Exy, Eyz.
    + apply strcmp_eq_iff in Eyz. by rewrite <- Eyz, Exy.
    + by rewrite (strcmp_lt_trans _ (fsi_target y)).
Qed.

(** What [statvfs] may report: C's unsigned fields. *)
Definition statvfs_ok (statvfs : string → option StatVfs) : Prop :=
  ∀ target information, statvfs target = Some information →
    u64 (f_blocks information) ∧ u64 (f_bfree information) ∧ u64 (f_bavail information) ∧
    u64 (f_frsize information) ∧ u64 (f_bsize information).

Section inventory_facts.
Context `{TextOps, ArithmeticLaws, NumberOps, !Qsort, !QsortLaws}.
Context (statvfs : string → option StatVfs) (reserve : nat → bool).

(** A product that was accepted is the product. *)
Lemma checked_product a b : u64 a → u64 b →
  let '(ok, product) := lsm_u64_multiply_checked a b 0 in ok = true → product = a * b ∧ u64 product.
Proof.
  intros Ha Hb. pose proof (multiply_checked_spec a b 0 Ha Hb) as Hm. destruct (Z.leb_spec (a * b) uint64_max).
  - rewrite Hm. intros _. split; [done|]. unfold u64, uint64_max in *.
    pose proof (Z.mul_nonneg_nonneg a b ltac:(lia) ltac:(lia)). lia.
  - destruct (lsm_u64_multiply_checked a b 0) as [ok product]. cbn in Hm. by subst.
Qed.

Lemma item_consistent entry : statvfs_ok statvfs → consistent (item_of_mount statvfs entry).
Proof.
  intros Hv. unfold item_of_mount, collect_capacity. set (bare := Build_LsmFilesystemInfo _ _ _ _ _ _ _ _ _ _).
  assert (Hbare : consistent bare) by (split_and!; cbn; unfold u64, uint64_max; lia).
  destruct (statvfs (fsi_target bare)) as [information|] eqn:Hs; [|done].
  destruct (Hv _ _ Hs) as (Hb & Hf & Ha & Hfr & Hbs).
  set (block_size := if f_frsize information =? 0 then f_bsize information else f_frsize information).
  assert (Hsize : u64 block_size) by (unfold block_size; by destruct (f_frsize information =? 0)).
  cbv zeta. fold block_size.
  pose proof (checked_product _ _ Hb Hsize) as Htotal. pose proof (checked_product _ _ Hf Hsize) as Hfree.
  pose proof (checked_product _ _ Ha Hsize) as Havail.
  destruct (lsm_u64_multiply_checked (f_blocks information) block_size 0) as [[] total]; [|done].
  destruct (lsm_u64_multiply_checked (f_bfree information) block_size 0) as [[] free_all]; [|done].
  destruct (lsm_u64_multiply_checked (f_bavail information) block_size 0) as [[] available]; [|done]. cbn [negb].
  destruct (Htotal eq_refl) as [_ Ht]. destruct (Hfree eq_refl) as [_ Hfa]. destruct (Havail eq_refl) as [_ Hav].
  clear Htotal Hfree Havail. unfold u64 in Ht, Hfa, Hav.
  set (free_bytes := if free_all <? total then free_all else total).
  assert (Hfb : 0 <= free_bytes <= total) by (unfold free_bytes; destruct (Z.ltb_spec free_all total); lia).
  set (avail := if available <? total then available else total).
  assert (Hab : 0 <= avail <= total) by (unfold avail; destruct (Z.ltb_spec available total); lia).
  rewrite (proj2 (Z.leb_le free_bytes total)) by lia.
  destruct (Z.eqb_spec total 0) as [Hz|Hz]; cbn [negb].
  - split_and!; cbn; unfold u64; try lia; done.
  - assert (Hp : 0 <= trunc_Z (lsm_percent_u64 (total - free_bytes) total) <= 100).
    { apply trunc_percent; [apply percent_bounds; lia|]. intros s m e. apply percent_double. }
    split_and!; cbn -[trunc_Z]; unfold u64; try lia; done.
Qed.

Lemma accepts_items entries collector collector' :
  accepts (append_mount statvfs reserve) entries collector collector' →
  fc_items collector' = fc_items collector ++ (item_of_mount statvfs <$> entries) ∧
  fc_allocation_failed collector' = fc_allocation_failed collector.
Proof.
  induction 1 as [|entry entries c c1 c2 Hv _ [IH1 IH2]]; [by rewrite app_nil_r|].
  unfold append_mount in Hv. destruct (negb (reserve _)); [done|]. injection Hv as <-. cbn in IH1, IH2.
  rewrite IH1, IH2, <- app_assoc. done.
Qed.

Lemma items_accepted entries items : (∀ n, reserve n = true) →
  accepts (append_mount statvfs reserve) entries (Build_FilesystemCollector items false)
    (Build_FilesystemCollector (items ++ (item_of_mount statvfs <$> entries)) false).
Proof.
  intros Hr. revert items. induction entries as [|entry entries IH]; intros items.
  { cbn. rewrite app_nil_r. constructor. }
  econstructor; [unfold append_mount; rewrite Hr; reflexivity|]. cbn [fc_items fc_allocation_failed].
  specialize (IH (items ++ [item_of_mount statvfs entry])). by rewrite <- app_assoc in IH.
Qed.

Definition file_order (left right : LsmFilesystemInfo) : Prop := compare_filesystems left right ≠ Gt.

(** (C31) The filesystem inventory is complete, ordered and consistent.  It is
    given exactly when the mount table was opened, read and closed without error
    and every line of it is a record - with memory for them - and then it has one
    item per mount, sorted by mount point and source; in each item used and free
    space add up to the total, what is available does not exceed it, the
    percentage is within 0..100, and figures that would overflow are withheld. *)
Theorem filesystem_inventory_complete content read_ok close_ok :
  statvfs_ok statvfs → (∀ n, reserve n = true) →
  match lsm_filesystem_inventory_collect statvfs reserve content read_ok close_ok with
  | Some items =>
      ∃ text entries, content = Some text ∧ read_ok = true ∧ close_ok = true ∧
        mapM record_of (getlines text) = Some entries ∧
        items ≡ₚ item_of_mount statvfs <$> entries ∧
        Sorted.StronglySorted file_order items ∧ Forall consistent items
  | None => content = None ∨ read_ok = false ∨ close_ok = false ∨
      ∃ text, content = Some text ∧ mapM record_of (getlines text) = None
  end.
Proof.
  intros Hv Hr. unfold lsm_filesystem_inventory_collect.
  pose proof (mount_visit_all_or_fail (append_mount statvfs reserve) content read_ok close_ok
                (Build_FilesystemCollector [] false)) as Hvisit.
  destruct (lsm_mountinfo_visit_file_checked _ _ _ _ _) as [[ok collector] count]. destruct ok; cbn [negb orb].
  - destruct (proj1 (Hvisit _ _) eq_refl) as (text & entries & -> & -> & -> & Hm & Hacc & _).
    apply accepts_items in Hacc as [Hitems Hfailed]. cbn in Hitems, Hfailed. rewrite Hfailed.
    assert (Hcons : Forall consistent (fc_items collector)).
    { rewrite Hitems. apply Forall_fmap, Forall_true. intros entry. by apply item_consistent. }
    destruct (Nat.eqb_spec (length (fc_items collector)) 0) as [Hz|_].
    + apply nil_length_inv in Hz. exists text, entries. split_and!; try done; [by rewrite <- Hitems, Hz|constructor].
    + exists text, entries. pose proof (qsort_permutation compare_filesystems (fc_items collector) compare_filesystems_preorder) as Hp.
      split_and!; try done; [by rewrite Hp, Hitems|apply qsort_sorted, compare_filesystems_preorder|by rewrite Hp].
  - destruct content as [text|]; [|by left]. destruct read_ok; [|by right; left]. destruct close_ok; [|by right; right; left].
    right; right; right. exists text. split; [done|]. destruct (mapM record_of (getlines text)) as [entries|] eqn:Hm; [|done].
    assert (Habs : (false, collector, count) = (true, Build_FilesystemCollector (item_of_mount statvfs <$> entries) false,
                                               Z.of_nat (length entries))); [|done].
    apply Hvisit. exists text, entries. split_and!; try done. apply (items_accepted entries [] Hr).
Qed.
End inventory_facts.

From S2P Require Import CommonReference.

Definition sample_mounts : string :=
  "36 35 8:2 / /home rw shared:1 - ext4 /dev/sda2 rw" +:+ String nl
  ("28 0 8:1 / / rw shared:2 - ext4 /dev/sda1 rw" +:+ String nl "").
Definition sample_capacity (target : string) : option StatVfs :=
  if strcmp_eq target "/" then Some (Build_StatVfs 1000 250 200 4096 512) else None.

Lemma sample_capacity_ok : statvfs_ok sample_capacity.
Proof.
  intros target information. unfold sample_capacity. destruct (strcmp_eq target "/"); [|done]. intros [= <-].
  cbn. unfold u64, uint64_max. lia.
Qed.

Lemma filesystem_inventory_complete_witness :
  ∃ items, lsm_filesystem_inventory_collect sample_capacity (λ _, true) (Some sample_mounts) true true = Some items ∧
    Forall consistent items ∧ (λ item, (fsi_target item, fsi_used_percent item)) <$> items = [("/"%string, 75); ("/home"%string, 0)].
Proof.
  pose proof (filesystem_inventory_complete sample_capacity (λ _, true) (Some sample_mounts) true true
                sample_capacity_ok (λ _, eq_refl)) as Hc.
  destruct (lsm_filesystem_inventory_collect sample_capacity (λ _, true) (Some sample_mounts) true true) as [items|] eqn:E.
  - destruct Hc as (text & entries & _ & _ & _ & _ & _ & _ & Hcons). exists items. split; [done|]. split; [done|].
    revert E. vm_compute. by intros [= <-].
  - by vm_compute in E.
Defined.
