(* ===== verification/Pressure.v ===== *)
(** * Pressure: Linux pressure-stall information

    Models [src/src/pressure.c]: a strict parser of a /proc/pressure payload. *)
From S2P Require Import Prelude Double CStrings Common MonitorTypes.
Local Open Scope Z_scope.

(** Value and [have_] flag of each token are one option. *)
(** src: pressure.c:17-26 PressureLine *)
Record PressureLine := {
  pl_avg10 : option double;
  pl_avg60 : option double;
  pl_avg300 : option double;
  pl_total_us : option Z;
}.
#[export] Instance eta_PressureLine : Eta PressureLine := λ x,
  Build_PressureLine (pl_avg10 x) (pl_avg60 x) (pl_avg300 x) (pl_total_us x).

Definition no_tokens : PressureLine := Build_PressureLine None None None None.

Definition is_blank (c : ascii) : bool := Ascii.eqb c " " || Ascii.eqb c tab.

Definition equals_sign : ascii := "="%char.

Section pressure.
Context `{TextOps, NumberOps}.

(** An average, unless it was already seen. *)
Definition average (seen : option double) (value : string) : option double :=
  match seen with
  | Some _ => None
  | None =>
      let '(ok, number) := infiltratr_parse_double_range value d0 d100 d0 in
      if ok then Some number else None
  end.

(** One token of the loop; [None] is [return false]. *)
(** src: pressure.c:38-74 parse_pressure_line *)
Definition pressure_token (p : PressureLine) (token : string) : option PressureLine :=
  match split_at equals_sign token with
  | None => None
  | Some (name, value) =>
      if negb (nonempty name) || negb (nonempty value)
         || (match strchr value equals_sign with Some _ => true | None => false end)
      then None
      else if strcmp_eq name "avg10" then
        (λ x, p <| pl_avg10 := Some x |>) <$> average (pl_avg10 p) value
      else if strcmp_eq name "avg60" then
        (λ x, p <| pl_avg60 := Some x |>) <$> average (pl_avg60 p) value
      else if strcmp_eq name "avg300" then
        (λ x, p <| pl_avg300 := Some x |>) <$> average (pl_avg300 p) value
      else if strcmp_eq name "total" then
        match pl_total_us p with
        | Some _ => None
        | None =>
            let '(ok, total) := infiltratr_parse_u64 value 10 0 in
            if ok then Some (p <| pl_total_us := Some total |>) else None
        end
      else Some p
  end.

Fixpoint pressure_tokens (p : PressureLine) (tokens : list string) : option PressureLine :=
  match tokens with
  | [] => Some p
  | token :: tokens =>
      match pressure_token p token with
      | Some p => pressure_tokens p tokens
      | None => None
      end
  end.

(** The four values of a complete line. *)
(** src: pressure.c parse_pressure_line *)
Definition parse_pressure_line (line kind : string) : option (double * double * double * Z) :=
  match strtok_all is_blank line with
  | first :: tokens =>
      if negb (strcmp_eq first kind) then None
      else match pressure_tokens no_tokens tokens with
           | Some p =>
               match pl_avg10 p, pl_avg60 p, pl_avg300 p, pl_total_us p with
               | Some a, Some b, Some c, Some t => Some (a, b, c, t)
               | _, _, _, _ => None
               end
           | None => None
           end
  | [] => None
  end.

Definition names_kind (line kind : string) : bool :=
  lsm_string_starts_with line (kind +:+ " ")
  || lsm_string_starts_with line (kind +:+ String tab EmptyString)
  || strcmp_eq line kind.

(** One line of the payload on [(result, have_some, have_full)]. *)
(** src: pressure.c:99-130 lsm_pressure_parse *)
Definition pressure_line (acc : LsmPressureInfo * bool * bool) (line : string)
    : option (LsmPressureInfo * bool * bool) :=
  let '(result, have_some, have_full) := acc in
  let line := lsm_trim line in
  if negb (nonempty line) then Some acc
  else if names_kind line "some" then
    if have_some : bool then None
    else match parse_pressure_line line "some" with
         | Some (a, b, c, t) =>
             Some (result <| psi_some_avg10 := a |> <| psi_some_avg60 := b |>
                          <| psi_some_avg300 := c |> <| psi_some_total_us := t |>,
                   true, have_full)
         | None => None
         end
  else if names_kind line "full" then
    if have_full : bool then None
    else match parse_pressure_line line "full" with
         | Some (a, b, c, t) =>
             Some (result <| psi_full_avg10 := a |> <| psi_full_avg60 := b |>
                          <| psi_full_avg300 := c |> <| psi_full_total_us := t |>,
                   have_some, true)
         | None => None
         end
  else Some acc.

Fixpoint pressure_lines (acc : LsmPressureInfo * bool * bool) (lines : list string)
    : option (LsmPressureInfo * bool * bool) :=
  match lines with
  | [] => Some acc
  | line :: lines =>
      match pressure_line acc line with
      | Some acc => pressure_lines acc lines
      | None => None
      end
  end.

(** The outgoing [*pressure] and the result; it is cleared on every failure. *)
(** src: pressure.c lsm_pressure_parse *)
Definition lsm_pressure_parse (text : option string) (alloc_ok : bool) : LsmPressureInfo * bool :=
  match text with
  | None | Some EmptyString => (zero_LsmPressureInfo, false)
  | Some text =>
      if negb (Ascii.eqb (last_char text) nl) then (zero_LsmPressureInfo, false)
      else if negb alloc_ok then (zero_LsmPressureInfo, false)
      else match pressure_lines (zero_LsmPressureInfo, false, false)
                                (strtok_all (is_char nl) text) with
           | Some (result, true, have_full) =>
               (result <| psi_available := true |> <| psi_full_available := have_full |>, true)
           | _ => (zero_LsmPressureInfo, false)
           end
  end.

(** [contents] is what the file reader returned, NUL bytes included. *)
(** src: pressure.c lsm_pressure_read *)
Definition lsm_pressure_read (path contents : option string) (alloc_ok : bool)
    : LsmPressureInfo * bool :=
  match path with
  | None | Some EmptyString => (zero_LsmPressureInfo, false)
  | Some _ =>
      match contents with
      | None => (zero_LsmPressureInfo, false)
      | Some text =>
          if negb (no_char "000" text) then (zero_LsmPressureInfo, false)
          else lsm_pressure_parse (Some text) alloc_ok
      end
  end.
End pressure.

(** ** Properties *)

Section pressure_facts.
Context `{TextLaws, NumberLaws}.

Lemma average_bounds seen value x : average seen value = Some x → in_percent x ∧ seen = None.
Proof.
  unfold average. destruct seen; [done|].
  pose proof (parse_double_bounds value d0 d100 d0) as Hb.
  destruct (infiltratr_parse_double_range value d0 d100 d0) as [[] v]; [|done].
  intros [= <-]. split; [by apply Hb|done].
Qed.

Definition option_percent (o : option double) : Prop := ∀ x, o = Some x → in_percent x.

Definition line_bounded (p : PressureLine) : Prop :=
  option_percent (pl_avg10 p) ∧ option_percent (pl_avg60 p) ∧ option_percent (pl_avg300 p).

Lemma pressure_token_bounded p token p' :
  line_bounded p → pressure_token p token = Some p' → line_bounded p'.
Proof.
  intros (H10 & H60 & H300). unfold pressure_token.
  destruct (split_at _ _) as [[name value]|]; [|done]. destruct (_ || _); [done|].
  destruct (strcmp_eq name "avg10").
  { intros (x & Hx & ->)%fmap_Some. apply average_bounds in Hx as [Hx _].
    by split_and!; [intros ? [= <-]|..]. }
  destruct (strcmp_eq name "avg60").
  { intros (x & Hx & ->)%fmap_Some. apply average_bounds in Hx as [Hx _].
    by split_and!; [|intros ? [= <-]|]. }
  destruct (strcmp_eq name "avg300").
  { intros (x & Hx & ->)%fmap_Some. apply average_bounds in Hx as [Hx _].
    by split_and!; [| |intros ? [= <-]]. }
  destruct (strcmp_eq name "total"); [|by intros [= <-]].
  destruct (pl_total_us p); [done|].
  destruct (infiltratr_parse_u64 value 10 0) as [[] t]; [|done]. by intros [= <-].
Qed.

Lemma pressure_tokens_bounded p tokens p' :
  line_bounded p → pressure_tokens p tokens = Some p' → line_bounded p'.
Proof.
  revert p. induction tokens as [|t tokens IH]; intros p Hp; simpl; [by intros [= <-]|].
  destruct (pressure_token p t) as [q|] eqn:E; [|done]. apply IH.
  by eapply pressure_token_bounded.
Qed.

Lemma parse_pressure_line_bounded line kind a b c t :
  parse_pressure_line line kind = Some (a, b, c, t) → in_percent a ∧ in_percent b ∧ in_percent c.
Proof.
  unfold parse_pressure_line. destruct (strtok_all is_blank line) as [|first tokens]; [done|].
  destruct (negb _); [done|].
  destruct (pressure_tokens no_tokens tokens) as [p|] eqn:Hp; [|done].
  apply pressure_tokens_bounded in Hp as (H10 & H60 & H300); [|by split_and!].
  destruct (pl_avg10 p), (pl_avg60 p), (pl_avg300 p), (pl_total_us p); try done.
  intros [= <- <- <- <-]. split_and!; auto.
Qed.

Definition psi_bounded (r : LsmPressureInfo) : Prop :=
  in_percent (psi_some_avg10 r) ∧ in_percent (psi_some_avg60 r) ∧ in_percent (psi_some_avg300 r)
  ∧ in_percent (psi_full_avg10 r) ∧ in_percent (psi_full_avg60 r)
  ∧ in_percent (psi_full_avg300 r).

(** What holds of the accumulator: averages in range, and a kind that was not
    seen still has its zero values. *)
Definition psi_inv (acc : LsmPressureInfo * bool * bool) : Prop :=
  psi_bounded acc.1.1 ∧
  (acc.2 = false → psi_full_avg10 acc.1.1 = d0 ∧ psi_full_avg60 acc.1.1 = d0
                   ∧ psi_full_avg300 acc.1.1 = d0 ∧ psi_full_total_us acc.1.1 = 0).

Lemma pressure_line_inv acc line acc' :
  psi_inv acc → pressure_line acc line = Some acc' → psi_inv acc'.
Proof.
  destruct acc as [[r hs] hf]. intros [Hb Hz]. unfold pressure_line.
  destruct (negb _); [by intros [= <-]|]. destruct (names_kind _ "some").
  - destruct hs; [done|].
    destruct (parse_pressure_line _ "some") as [[[[a b] c] t]|] eqn:Hp; [|done].
    intros [= <-]. apply parse_pressure_line_bounded in Hp.
    split; [unfold psi_bounded in *; simpl in *; tauto|done].
  - destruct (names_kind _ "full"); [|by intros [= <-]]. destruct hf; [done|].
    destruct (parse_pressure_line _ "full") as [[[[a b] c] t]|] eqn:Hp; [|done].
    intros [= <-]. apply parse_pressure_line_bounded in Hp.
    split; [unfold psi_bounded in *; simpl in *; tauto|done].
Qed.

Lemma pressure_lines_inv acc lines acc' :
  psi_inv acc → pressure_lines acc lines = Some acc' → psi_inv acc'.
Proof.
  revert acc. induction lines as [|l lines IH]; intros acc Hacc; simpl; [by intros [= <-]|].
  destruct (pressure_line acc l) as [a|] eqn:E; [|done]. apply IH. by eapply pressure_line_inv.
Qed.

(** A failed parse publishes nothing (every field zero and
    unavailable, a torn or empty payload included); a successful one publishes
    averages within 0 and 100, and zeroes for a "full" line the kernel omits. *)
Theorem pressure_publishes text alloc_ok r ok :
  lsm_pressure_parse text alloc_ok = (r, ok) →
  (ok = false → r = zero_LsmPressureInfo)
  ∧ (ok = true → psi_available r = true ∧ psi_bounded r
       ∧ (psi_full_available r = false → psi_full_avg10 r = d0 ∧ psi_full_total_us r = 0)
       ∧ ∃ t, text = Some t ∧ last_char t = nl).
Proof.
  unfold lsm_pressure_parse.
  destruct text as [[|c text]|]; try (intros [= <- <-]; split; done).
  destruct (Ascii.eqb_spec (last_char (String c text)) nl) as [Hlast|];
    [|intros [= <- <-]; split; done]. simpl (negb true). cbv iota.
  destruct alloc_ok; simpl (negb _); cbv iota; [|intros [= <- <-]; split; done].
  destruct (pressure_lines _ _) as [[[r' hs] hf]|] eqn:Hl; [|intros [= <- <-]; split; done].
  destruct hs; [|intros [= <- <-]; split; done]. intros [= <- <-]. split; [done|]. intros _.
  apply pressure_lines_inv in Hl as [Hb Hz].
  - split; [done|]. split; [exact Hb|]. split; [|eauto].
    intros Hf. destruct (Hz Hf) as (? & _ & _ & ?). done.
  - split; simpl; [|done]. repeat split.
Qed.
End pressure_facts.

(** ** Round trip *)

Section pressure_round_trip.
Context `{TextLaws, NumberLaws}.

(** A line as the kernel prints it, from the texts of its averages. *)
Definition psi_tokens (kind a b c : string) (total : Z) : list string :=
  [kind; "avg10=" +:+ a; "avg60=" +:+ b; "avg300=" +:+ c; "total=" +:+ print_u64 total].
Definition psi_line (kind a b c : string) (total : Z) : string :=
  join " " (psi_tokens kind a b c total).
Definition psi_text (lines : list string) : string :=
  foldr (λ s acc, s +:+ String nl acc) EmptyString lines.

(** The text of an average: the characters of a fixed-point number. *)
Definition average_text (s : string) (v : double) : Prop :=
  nonempty s = true ∧ string_forallb fixed_char s = true
  ∧ infiltratr_parse_double_range s d0 d100 d0 = (true, v).

Lemma fixed_char_not (c d : ascii) : fixed_char c = true → fixed_char d = false → Ascii.eqb c d = false.
Proof. intros Hc Hd. destruct (Ascii.eqb_spec c d); [congruence|done]. Qed.

Lemma decimal_fixed_char c : is_decimal c = true → fixed_char c = true.
Proof.
  unfold is_decimal. cbn [existsb]. intros Hd.
  repeat (apply orb_true_iff in Hd as [->%Ascii.eqb_eq|Hd]; [done|]). done.
Qed.

Lemma strchr_none p s c :
  string_forallb p s = true → p c = false → strchr s c = None.
Proof.
  intros Hs Hc. induction s as [|d s IH]; [done|]. cbn [string_forallb] in Hs. bool_hyps. simpl.
  destruct (Ascii.eqb_spec d c) as [->|]; [congruence|auto].
Qed.

(** A token of a known name with a number behind the sign. *)
Lemma token_split name value :
  no_char equals_sign name = true → nonempty name = true → nonempty value = true →
  string_forallb fixed_char value = true →
  split_at equals_sign (name +:+ String equals_sign value) = Some (name, value)
  ∧ negb (nonempty name) || negb (nonempty value)
    || (match strchr value equals_sign with Some _ => true | None => false end) = false.
Proof.
  intros Hn Hne Hv Hf. split; [by apply split_at_app|].
  by rewrite Hne, Hv, (strchr_none fixed_char).
Qed.

Lemma parse_psi_line kind a b c total x y z :
  token_clean is_blank kind = true →
  average_text a x → average_text b y → average_text c z → u64 total →
  parse_pressure_line (psi_line kind a b c total) kind = Some (x, y, z, total).
Proof.
  intros Hk (Ha & Haf & Hap) (Hb & Hbf & Hbp) (Hc & Hcf & Hcp) Ht.
  destruct (print_u64_text total ltac:(apply Ht)) as (Hd & Hne & _).
  assert (string_forallb fixed_char (print_u64 total) = true) as Htf
    by (eapply forallb_impl; [apply decimal_fixed_char|done]).
  assert (∀ name v, token_clean is_blank name = true → string_forallb fixed_char v = true →
          token_clean is_blank (name +:+ v) = true) as Hclean.
  { intros name v [Hn Hnc]%andb_true_iff Hv. unfold token_clean.
    rewrite nonempty_app_l, forallb_app, Hnc by done. eapply forallb_impl; [|exact Hv].
    intros d Hdd. unfold is_blank. by rewrite !(fixed_char_not d). }
  unfold parse_pressure_line, psi_line.
  rewrite (strtok_all_join is_blank " ").
  - unfold psi_tokens. rewrite (proj2 (strcmp_eq_true kind kind)) by done. simpl (negb true). cbv iota.
    change ("avg10=" +:+ a) with ("avg10" +:+ String equals_sign a).
    change ("avg60=" +:+ b) with ("avg60" +:+ String equals_sign b).
    change ("avg300=" +:+ c) with ("avg300" +:+ String equals_sign c).
    change ("total=" +:+ print_u64 total) with ("total" +:+ String equals_sign (print_u64 total)).
    cbn [pressure_tokens]. unfold pressure_token.
    rewrite !(fun n v H1 H2 H3 H4 => proj1 (token_split n v H1 H2 H3 H4)) by done.
    rewrite !(fun n v H1 H2 H3 H4 => proj2 (token_split n v H1 H2 H3 H4)) by done.
    unfold average. simpl. rewrite Hap, Hbp, Hcp. simpl. by rewrite parse_u64_print.
  - done.
  - unfold psi_tokens. repeat constructor; try done; by apply Hclean.
Qed.

Lemma space_not_fixed c : lsm_ascii_is_space c = true → fixed_char c = false.
Proof.
  rewrite is_space_spec. cbn [existsb]. intros Hs.
  repeat (apply orb_true_iff in Hs as [->%Ascii.eqb_eq|Hs]; [done|]). done.
Qed.

(** The printed line survives the line splitter and the trimming unchanged. *)
Lemma psi_line_trim kind a b c total :
  u64 total → nonempty kind = true → lsm_ascii_is_space (char_at kind 0) = false →
  lsm_trim (psi_line kind a b c total) = psi_line kind a b c total
  ∧ nonempty (psi_line kind a b c total) = true.
Proof.
  intros Ht Hk Hs. split; [|by destruct kind].
  destruct (print_u64_text total ltac:(apply Ht)) as (Hd & Hne & _).
  apply trim_id; [by destruct kind|].
  assert (∃ prefix, psi_line kind a b c total = prefix +:+ print_u64 total) as [p ->].
  { unfold psi_line, psi_tokens. cbn [join]. eexists (kind +:+ " " +:+ ("avg10=" +:+ a) +:+ " "
      +:+ ("avg60=" +:+ b) +:+ " " +:+ ("avg300=" +:+ c) +:+ " " +:+ "total=").
    by rewrite !string_app_assoc. }
  rewrite last_char_app by done. pose proof (last_char_forallb _ _ Hne Hd) as Hl.
  set (l := last_char (print_u64 total)) in *.
  destruct (lsm_ascii_is_space l) eqn:E; [|reflexivity]. apply space_not_fixed in E.
  apply decimal_fixed_char in Hl. congruence.
Qed.

Lemma psi_line_clean kind a b c total :
  u64 total → token_clean (is_char nl) kind = true →
  string_forallb fixed_char a = true → string_forallb fixed_char b = true →
  string_forallb fixed_char c = true →
  token_clean (is_char nl) (psi_line kind a b c total) = true.
Proof.
  intros Ht [Hk Hkc]%andb_true_iff Ha Hb Hc.
  destruct (print_u64_text total ltac:(apply Ht)) as (Hd & _ & _).
  assert (∀ s, string_forallb fixed_char s = true →
               string_forallb (λ c, negb (is_char nl c)) s = true) as Hf.
  { intros s. apply forallb_impl. intros d Hdd. unfold is_char. by rewrite (fixed_char_not d). }
  unfold token_clean, psi_line, psi_tokens. cbn [join].
  rewrite nonempty_app_l, !forallb_app, Hkc, (Hf a), (Hf b), (Hf c), (Hf (print_u64 total)) by
    (done || by eapply forallb_impl; [apply decimal_fixed_char|]).
  done.
Qed.

Lemma psi_text_last lines : lines ≠ [] → last_char (psi_text lines) = nl.
Proof.
  induction lines as [|l lines IH]; [done|]. intros _. unfold psi_text in *. cbn [foldr].
  rewrite last_char_app by done. destruct lines as [|l' lines]; [done|].
  change (String nl ?s) with (String nl EmptyString +:+ s).
  rewrite last_char_app; [by apply IH|]. cbn [foldr]. by destruct l'.
Qed.

(** Once the text is split, the parser is the fold over its lines. *)
Lemma parse_lines lines :
  lines ≠ [] → Forall (λ s, token_clean (is_char nl) s = true) lines →
  lsm_pressure_parse (Some (psi_text lines)) true =
    match pressure_lines (zero_LsmPressureInfo, false, false) lines with
    | Some (result, true, have_full) =>
        (result <| psi_available := true |> <| psi_full_available := have_full |>, true)
    | _ => (zero_LsmPressureInfo, false)
    end.
Proof.
  intros Hne Hcl. pose proof (psi_text_last lines Hne) as Hlast.
  pose proof (strtok_all_lines (is_char nl) nl lines eq_refl Hcl) as Htok.
  fold (psi_text lines) in Htok.
  unfold lsm_pressure_parse. destruct (psi_text lines) as [|ch text].
  { destruct lines; [done|]. by rewrite <-Htok in Hne. }
  by rewrite Hlast, Htok.
Qed.

(** The two lines the kernel prints are parsed back to exactly
    their averages and totals, with the "full" line optional (it is absent for
    the processor on older kernels). *)
Theorem pressure_round_trip a b c total x y z a' b' c' total' x' y' z' :
  average_text a x → average_text b y → average_text c z → u64 total →
  average_text a' x' → average_text b' y' → average_text c' z' → u64 total' →
  lsm_pressure_parse (Some (psi_text [psi_line "some" a b c total])) true
  = (Build_LsmPressureInfo true x y z total false d0 d0 d0 0, true)
  ∧ lsm_pressure_parse (Some (psi_text [psi_line "some" a b c total;
                                        psi_line "full" a' b' c' total'])) true
    = (Build_LsmPressureInfo true x y z total true x' y' z' total', true).
Proof.
  intros Ha Hb Hc Ht Ha' Hb' Hc' Ht'.
  destruct (psi_line_trim "some" a b c total Ht eq_refl) as [Htr1 Hne1]; [by rewrite is_space_spec|].
  destruct (psi_line_trim "full" a' b' c' total' Ht' eq_refl) as [Htr2 Hne2]; [by rewrite is_space_spec|].
  pose proof (psi_line_clean "some" a b c total Ht eq_refl (proj1 (proj2 Ha)) (proj1 (proj2 Hb))
    (proj1 (proj2 Hc))) as Hcl1.
  pose proof (psi_line_clean "full" a' b' c' total' Ht' eq_refl (proj1 (proj2 Ha'))
    (proj1 (proj2 Hb')) (proj1 (proj2 Hc'))) as Hcl2.
  assert (∀ l, pressure_line (l, false, false) (psi_line "some" a b c total)
    = Some (l <| psi_some_avg10 := x |> <| psi_some_avg60 := y |> <| psi_some_avg300 := z |>
              <| psi_some_total_us := total |>, true, false)) as Hsome.
  { intros l. unfold pressure_line. rewrite Htr1, Hne1. simpl (negb true). cbv iota.
    unfold names_kind. rewrite !starts_with_spec. change (String.prefix ("some" +:+ " ") _) with true.
    simpl (true || _ || _). cbv iota. by rewrite (parse_psi_line _ _ _ _ _ x y z). }
  assert (∀ l, pressure_line (l, true, false) (psi_line "full" a' b' c' total')
    = Some (l <| psi_full_avg10 := x' |> <| psi_full_avg60 := y' |> <| psi_full_avg300 := z' |>
              <| psi_full_total_us := total' |>, true, true)) as Hfull.
  { intros l. unfold pressure_line. rewrite Htr2, Hne2. simpl (negb true). cbv iota.
    unfold names_kind. rewrite !starts_with_spec. change (String.prefix ("full" +:+ " ") _) with true.
    change (String.prefix ("some" +:+ " ") _) with false.
    change (String.prefix ("some" +:+ String tab "") _) with false.
    rewrite (strcmp_eq_ne _ "some") by done.
    simpl (true || _ || _). cbv iota. simpl (false || _ || _). cbv iota.
    by rewrite (parse_psi_line _ _ _ _ _ x' y' z'). }
  set (l1 := psi_line "some" a b c total) in *. set (l2 := psi_line "full" a' b' c' total') in *.
  rewrite !parse_lines by (done || by repeat constructor). cbn [pressure_lines].
  rewrite !Hsome, Hfull. done.
Qed.
End pressure_round_trip.

(** ** Witnesses *)

From S2P Require Import CommonReference.

Lemma average_text_2 : average_text "2.00" (ddiv (double_of_Z 200) (double_of_Z 100)).
Proof. split_and!; vm_compute; reflexivity. Qed.

Definition sample_psi : string :=
  "some avg10=2.00 avg60=2.00 avg300=0.0 total=77" +:+ String nl "".

Lemma pressure_publishes_witness :
  ∃ r, lsm_pressure_parse (Some sample_psi) true = (r, true) ∧ psi_bounded r.
Proof.
  destruct (lsm_pressure_parse (Some sample_psi) true) as [r ok] eqn:E.
  assert (Hok : ok = true) by (change ok with (r, ok).2; rewrite <-E; vm_compute; reflexivity).
  exists r. split; [by rewrite Hok|].
  exact (proj1 (proj2 (proj2 (pressure_publishes _ _ _ _ E) Hok))).
Defined.

Lemma pressure_round_trip_witness :
  lsm_pressure_parse (Some (psi_text [psi_line "some" "2.00" "2.00" "2.00" 77])) true
  = (Build_LsmPressureInfo true (double_of_Z 2) (double_of_Z 2) (double_of_Z 2) 77
       false d0 d0 d0 0, true).
Proof.
  assert (Hu : u64 77) by (split; vm_compute; discriminate).
  exact (proj1 (pressure_round_trip _ _ _ _ _ _ _ _ _ _ _ _ _ _
    average_text_2 average_text_2 average_text_2 Hu
    average_text_2 average_text_2 average_text_2 Hu)).
Defined.
