(* ===== verification/SmbiosMemory.v ===== *)
(** * SmbiosMemory: memory modules from a raw DMI table

    Models [src/src/smbios_memory.c].  The table is a list of bytes; every read
    is bounds-checked and has no result ([None]) outside it, so the theorem that
    the walk has a result is the absence of out-of-bounds reads, together with
    its termination. *)
From S2P Require Import Prelude Double CStrings Common Bytes.
Local Open Scope Z_scope.

Fixpoint bytes_string (bytes : table) : string :=
  match bytes with
  | [] => EmptyString
  | b :: bytes => String (Ascii.ascii_of_byte b) (bytes_string bytes)
  end.

(** src: smbios_memory.h:22-32 LsmSmbiosMemoryModule *)
Record LsmSmbiosMemoryModule := {
  sm_locator : string;
  sm_bank_locator : string;
  sm_manufacturer : string;
  sm_part_number : string;
  sm_serial_number : string;
  sm_memory_type : string;
  sm_form_factor : string;
  sm_size_bytes : Z;
  sm_speed_mhz : Z;
}.

(** The module array is the list of its [module_count] used cells. *)
(** src: smbios_memory.h:35-42 LsmSmbiosMemoryInfo *)
Record LsmSmbiosMemoryInfo := {
  si_speed_mhz : Z;
  si_slots_used : Z;
  si_slots_total : Z;
  si_form_factor : string;
  si_modules : list LsmSmbiosMemoryModule;
}.
#[export] Instance eta_LsmSmbiosMemoryInfo : Eta LsmSmbiosMemoryInfo := λ x,
  Build_LsmSmbiosMemoryInfo (si_speed_mhz x) (si_slots_used x) (si_slots_total x)
    (si_form_factor x) (si_modules x).

Definition LSM_SMBIOS_MAX_MODULES : nat := 32.
Definition SMBIOS_TYPE_MEMORY_DEVICE : Z := 17.
Definition SMBIOS_TYPE_END : Z := 127.
Definition LSM_DMI_MAX_BYTES : Z := 16 * 1024 * 1024.

Definition form_factor_names : list string :=
  [""; "Other"; "Unknown"; "SIMM"; "SIP"; "Chip"; "DIP"; "ZIP"; "Proprietary Card"; "DIMM";
   "TSOP"; "Row of Chips"; "RIMM"; "SODIMM"; "SRIMM"; "FB-DIMM"; "Die"].

(** src: smbios_memory.c form_factor_name *)
Definition form_factor_name (value : Z) : string :=
  default "Unknown" (form_factor_names !! Z.to_nat value).

(** src: smbios_memory.c memory_type_name *)
Definition memory_type_name (value : Z) : string :=
  if value =? 18 then "DDR" else if value =? 19 then "DDR2" else if value =? 24 then "DDR3"
  else if value =? 26 then "DDR4" else if value =? 27 then "LPDDR"
  else if value =? 28 then "LPDDR2" else if value =? 29 then "LPDDR3"
  else if value =? 30 then "LPDDR4" else if value =? 32 then "HBM"
  else if value =? 33 then "HBM2" else if value =? 34 then "DDR5"
  else if value =? 35 then "LPDDR5" else if value =? 36 then "HBM3" else "N/A".

Section smbios.
Context `{TextOps, ByteOps}.

(** [record] is the structure at [off] of the table. *)
(** src: smbios_memory.c memory_size_bytes *)
Definition memory_size_bytes (t : table) (off length : nat) : option Z :=
  if (length <=? 13)%nat then Some 0
  else
    encoded ← load16 t (off + 12);
    if (encoded =? 0) || (encoded =? uint16_max) then Some 0
    else if encoded =? 32767 then
      if (length <? 32)%nat then Some 0
      else v ← load32 t (off + 28); Some (v * 1024 * 1024)
    else if negb (Z.land encoded 32768 =? 0) then Some (Z.land encoded 32767 * 1024)
    else Some (encoded * 1024 * 1024).

(** [while (cursor < strings_end && table[cursor] != 0U) cursor++;] *)
Fixpoint string_end (fuel : nat) (t : table) (cursor strings_end : nat) : option nat :=
  if (cursor <? strings_end)%nat then
    match fuel with
    | O => None
    | S fuel =>
        b ← byte_at t cursor;
        if b =? 0 then Some cursor else string_end fuel t (S cursor) strings_end
    end
  else Some cursor.

(** The trailing blanks dropped from a string of [length] bytes at [start]. *)
Fixpoint trim_length (t : table) (start length : nat) : option nat :=
  match length with
  | O => Some O
  | S shorter =>
      b ← byte_at t (start + shorter);
      if (b =? 32) || (b =? 9) then trim_length t start shorter else Some length
  end.

(** The longest valid UTF-8 prefix of at most [length] bytes. *)
Fixpoint utf8_prefix (t : table) (start length : nat) : option nat :=
  match length with
  | O => Some O
  | S shorter =>
      bytes ← bytes_at t start length;
      if infiltratr_utf8_validate bytes then Some length else utf8_prefix t start shorter
  end.

(** The copy of the string once it is delimited. *)
(** src: smbios_memory.c:110-128 copy_smbios_string *)
Definition copy_delimited (t : table) (start stop destination_size : nat) : option string :=
  length ← trim_length t start (stop - start);
  bytes ← bytes_at t start length;
  if negb (infiltratr_utf8_validate bytes) then Some "N/A"
  else
    length ← (if (destination_size <=? length)%nat
              then utf8_prefix t start (destination_size - 1) else Some length);
    bytes ← bytes_at t start length;
    let destination := bytes_string bytes in
    Some (if nonempty destination && negb (char_is destination 0 "000")
          then destination else "N/A").

(** The search loop over the string set. *)
(** src: smbios_memory.c copy_smbios_string *)
Fixpoint copy_loop (fuel : nat) (t : table) (cursor strings_end : nat) (current string_index : Z)
    (destination_size : nat) : option string :=
  if (cursor <? strings_end)%nat then
    match fuel with
    | O => None
    | S fuel =>
        stop ← string_end (strings_end - cursor) t cursor strings_end;
        if current =? string_index then copy_delimited t cursor stop destination_size
        else if (strings_end <=? stop)%nat then Some "N/A"
        else copy_loop fuel t (S stop) strings_end (current + 1) string_index destination_size
    end
  else Some "N/A".

(** src: smbios_memory.c copy_smbios_string *)
Definition copy_smbios_string (t : table) (strings_start strings_end : nat) (string_index : Z)
    (destination_size : nat) : option string :=
  if (string_index =? 0) || (strings_end <=? strings_start)%nat
     || (length t <? strings_end)%nat
  then Some "N/A"
  else copy_loop (strings_end - strings_start) t strings_start strings_end 1 string_index
                 destination_size.

(** src: smbios_memory.c populated_memory_device *)
Definition populated_memory_device (t : table) (off length : nat) : option bool :=
  if (length <=? 13)%nat then Some false
  else
    size ← load16 t (off + 12);
    if (size =? 0) || (size =? uint16_max) then Some false
    else if negb (size =? 32767) then Some true
    else if (32 <=? length)%nat
         then v ← load32 t (off + 28); Some (negb (v =? 0))
         else Some false.

(** src: smbios_memory.c memory_speed *)
Definition memory_speed (t : table) (off length : nat) : option Z :=
  rated ← (if (23 <=? length)%nat then load16 t (off + 21) else Some 0);
  configured ← (if (34 <=? length)%nat then load16 t (off + 32) else Some 0);
  rated ← (if (rated =? uint16_max) && (88 <=? length)%nat
           then load32 t (off + 84) else Some rated);
  configured ← (if (configured =? uint16_max) && (92 <=? length)%nat
                then load32 t (off + 88) else Some configured);
  let configured := if configured =? uint16_max then 0 else configured in
  let rated := if rated =? uint16_max then 0 else rated in
  Some (if negb (configured =? 0) then configured else rated).

(** [while (next + 1U < table_size && (table[next] != 0U || table[next + 1U] != 0U))
    next++;] *)
(** src: smbios_memory.c:241-244 lsm_smbios_memory_read *)
Fixpoint find_terminator (fuel : nat) (t : table) (next : nat) : option nat :=
  if (next + 1 <? length t)%nat then
    match fuel with
    | O => None
    | S fuel =>
        a ← byte_at t next;
        b ← (if negb (a =? 0) then Some 1 else byte_at t (next + 1));
        if negb (a =? 0) || negb (b =? 0) then find_terminator fuel t (S next) else Some next
    end
  else Some next.

(** [length > i ? record[i] : 0U] *)
Definition field_or_0 (t : table) (off length i : nat) : option Z :=
  if (i <? length)%nat then byte_at t (off + i) else Some 0.

(** One module record. *)
(** src: smbios_memory.c:263-290 lsm_smbios_memory_read *)
Definition read_module (t : table) (off length strings_start next : nat) (speed : Z)
    : option LsmSmbiosMemoryModule :=
  size_bytes ← memory_size_bytes t off length;
  form_factor ← (if (14 <? length)%nat then form_factor_name <$> byte_at t (off + 14)
                 else Some "N/A");
  memory_type ← (if (18 <? length)%nat then memory_type_name <$> byte_at t (off + 18)
                 else Some "N/A");
  i ← field_or_0 t off length 16;
  locator ← copy_smbios_string t strings_start next i 64;
  i ← field_or_0 t off length 17;
  bank_locator ← copy_smbios_string t strings_start next i 64;
  i ← field_or_0 t off length 23;
  manufacturer ← copy_smbios_string t strings_start next i 64;
  i ← field_or_0 t off length 24;
  serial_number ← copy_smbios_string t strings_start next i 64;
  i ← field_or_0 t off length 26;
  part_number ← copy_smbios_string t strings_start next i 96;
  Some {| sm_locator := locator; sm_bank_locator := bank_locator;
          sm_manufacturer := manufacturer; sm_part_number := part_number;
          sm_serial_number := serial_number;
          sm_memory_type := lsm_copy_string 32 memory_type;
          sm_form_factor := lsm_copy_string 32 form_factor;
          sm_size_bytes := size_bytes; sm_speed_mhz := speed |}.

(** A Type-17 structure; the flag is [modules_complete]. *)
(** src: smbios_memory.c:247-296 lsm_smbios_memory_read *)
Definition memory_device (t : table) (off length strings_start next : nat)
    (acc : LsmSmbiosMemoryInfo * bool) : option (LsmSmbiosMemoryInfo * bool) :=
  let '(info, complete) := acc in
  let info := info <| si_slots_total := si_slots_total info + 1 |> in
  populated ← populated_memory_device t off length;
  if negb populated then Some (info, complete)
  else
    let info := info <| si_slots_used := si_slots_used info + 1 |> in
    speed ← memory_speed t off length;
    let info :=
      if (0 <? speed) && ((si_speed_mhz info =? 0) || (speed <? si_speed_mhz info))
      then info <| si_speed_mhz := speed |> else info in
    info ← (if strcmp_eq (si_form_factor info) "N/A" && (14 <? length)%nat then
              value ← byte_at t (off + 14);
              let name := form_factor_name value in
              Some (if negb (strcmp_eq name "Unknown") && nonempty name
                    then info <| si_form_factor := lsm_copy_string 64 name |> else info)
            else Some info);
    if (List.length (si_modules info) <? LSM_SMBIOS_MAX_MODULES)%nat then
      m ← read_module t off length strings_start next speed;
      Some (info <| si_modules := si_modules info ++ [m] |>, complete)
    else Some (info, false).

(** The structure walk. *)
(** src: smbios_memory.c:233-300 lsm_smbios_memory_read *)
Fixpoint walk (fuel : nat) (t : table) (offset : nat) (acc : LsmSmbiosMemoryInfo * bool)
    : option (LsmSmbiosMemoryInfo * bool) :=
  if (offset + 4 <=? length t)%nat then
    match fuel with
    | O => None
    | S fuel =>
        type ← byte_at t offset;
        len ← byte_at t (offset + 1);
        let len := Z.to_nat len in
        if (len <? 4)%nat || (length t <? offset + len)%nat then Some acc
        else
          let strings_start := (offset + len)%nat in
          next ← find_terminator (length t) t strings_start;
          if (length t <=? next + 1)%nat then Some acc
          else
            acc ← (if type =? SMBIOS_TYPE_MEMORY_DEVICE
                   then memory_device t offset len strings_start next acc else Some acc);
            if type =? SMBIOS_TYPE_END then Some acc
            else walk fuel t (next + 2) acc
    end
  else Some acc.

Definition info_initial : LsmSmbiosMemoryInfo :=
  {| si_speed_mhz := 0; si_slots_used := 0; si_slots_total := 0; si_form_factor := "N/A";
     si_modules := [] |}.

(** [bytes] is what [read_table] delivers: [None] when a file operation failed
    or the size is invalid.  Result: outgoing [*info] and success. *)
(** src: smbios_memory.c lsm_smbios_memory_read *)
Definition lsm_smbios_memory_read (bytes : option table) : option (LsmSmbiosMemoryInfo * bool) :=
  match bytes with
  | None => Some (info_initial, false)
  | Some t =>
      result ← walk (length t) t 0 (info_initial, true);
      let '(info, complete) := result in
      if negb complete then Some (info_initial, false)
      else Some (info, negb (si_slots_total info =? 0))
  end.

(** The size check of [read_table]; [contents] are the bytes of the file. *)
(** src: smbios_memory.c read_table *)
Definition read_table (open_ok stat_ok : bool) (contents : table) (alloc_ok read_ok close_ok : bool)
    : option table :=
  if negb open_ok then None
  else if negb stat_ok then None
  else if (Z.of_nat (length contents) <=? 0) || (LSM_DMI_MAX_BYTES <? Z.of_nat (length contents))
  then None
  else if negb alloc_ok then None
  else if negb read_ok then None
  else if negb close_ok then None
  else Some contents.
End smbios.

(** ** No read is out of bounds *)

#[local] Arguments Nat.leb : simpl never.
#[local] Arguments Nat.ltb : simpl never.
#[local] Arguments Z.eqb : simpl never.

Section smbios_facts.
Context `{TextLaws, ByteOps}.
Implicit Types t : table.

Lemma memory_size_some t off len :
  (off + len ≤ length t)%nat → is_Some (memory_size_bytes t off len).
Proof.
  intros Hb. unfold memory_size_bytes. destruct (Nat.leb_spec len 13); [eauto|].
  do_load. destruct (_ || _); [eauto|]. destruct (_ =? 32767); [|destruct (negb _); eauto].
  destruct (Nat.ltb_spec len 32); [eauto|]. do_load. eauto.
Qed.

Lemma populated_some t off len :
  (off + len ≤ length t)%nat → is_Some (populated_memory_device t off len).
Proof.
  intros Hb. unfold populated_memory_device. destruct (Nat.leb_spec len 13); [eauto|].
  do_load. destruct (_ || _); [eauto|]. destruct (negb _); [eauto|].
  destruct (Nat.leb_spec 32 len); [|eauto]. do_load. eauto.
Qed.

Lemma memory_speed_some t off len :
  (off + len ≤ length t)%nat → is_Some (memory_speed t off len).
Proof.
  intros Hb. unfold memory_speed.
  assert (∀ (n i : nat) d, (i + 2 ≤ n)%nat →
    is_Some (if (n <=? len)%nat then load16 t (off + i) else Some d)) as H16.
  { intros n i d Hn. destruct (Nat.leb_spec n len); [apply load16_some; lia|eauto]. }
  assert (∀ b (n i : nat) d, (i + 4 ≤ n)%nat →
    is_Some (if b && (n <=? len)%nat then load32 t (off + i) else Some d)) as H32.
  { intros b n i d Hn. destruct b; [|eauto]. simpl.
    destruct (Nat.leb_spec n len); [apply load32_some; lia|eauto]. }
  destruct (H16 23%nat 21%nat 0) as [a ->]; [lia|]. simpl.
  destruct (H16 34%nat 32%nat 0) as [b ->]; [lia|]. simpl.
  destruct (H32 (a =? uint16_max) 88%nat 84%nat a) as [c ->]; [lia|]. simpl.
  destruct (H32 (b =? uint16_max) 92%nat 88%nat b) as [d ->]; [lia|]. simpl. eauto.
Qed.

Lemma field_or_0_some t off len i :
  (off + len ≤ length t)%nat → is_Some (field_or_0 t off len i).
Proof.
  intros Hb. unfold field_or_0. destruct (Nat.ltb_spec i len); [|eauto]. do_load. eauto.
Qed.

Lemma string_end_spec fuel t cursor stop :
  (cursor ≤ stop)%nat → (stop ≤ length t)%nat → (stop - cursor ≤ fuel)%nat →
  ∃ e, string_end fuel t cursor stop = Some e ∧ (cursor ≤ e ≤ stop)%nat.
Proof.
  revert cursor. induction fuel as [|fuel IH]; intros cursor Hc Hs Hf; simpl;
    destruct (Nat.ltb_spec cursor stop); try (eexists; split; [done|lia]); [lia|].
  do_load. destruct (_ =? 0); [eexists; split; [done|lia]|].
  destruct (IH (S cursor)) as (e & -> & ?); [lia..|]. eexists; split; [done|lia].
Qed.

Lemma trim_length_spec t start len :
  (start + len ≤ length t)%nat → ∃ l, trim_length t start len = Some l ∧ (l ≤ len)%nat.
Proof.
  induction len as [|len IH]; intros Hb; simpl; [eauto|]. do_load.
  destruct (_ || _); [|eauto]. destruct IH as (l & -> & ?); [lia|]. eauto.
Qed.

Lemma utf8_prefix_spec t start len :
  (start + len ≤ length t)%nat → ∃ l, utf8_prefix t start len = Some l ∧ (l ≤ len)%nat.
Proof.
  induction len as [|len IH]; intros Hb; simpl; [eauto|].
  destruct (bytes_at_some t start (S len)) as (bytes & -> & _); [lia|]. simpl.
  destruct (infiltratr_utf8_validate bytes); [eauto|].
  destruct IH as (l & -> & ?); [lia|]. eauto.
Qed.

Lemma bytes_string_length bytes : String.length (bytes_string bytes) = length bytes.
Proof. induction bytes; simpl; congruence. Qed.

Lemma copy_delimited_spec t start stop size :
  (start ≤ stop)%nat → (stop ≤ length t)%nat → (3 < size)%nat →
  ∃ s, copy_delimited t start stop size = Some s ∧ (String.length s < size)%nat.
Proof.
  intros Hs He Hsize. unfold copy_delimited.
  destruct (trim_length_spec t start (stop - start)) as (l & -> & Hl); [lia|]. simpl.
  destruct (bytes_at_some t start l) as (bytes & -> & _); [lia|]. simpl.
  destruct (negb _); [by exists "N/A"|].
  assert (∃ l', (if (size <=? l)%nat then utf8_prefix t start (size - 1) else Some l) = Some l'
                ∧ (l' ≤ l)%nat ∧ (l' < size)%nat) as (l' & -> & Hl' & Hlt).
  { destruct (Nat.leb_spec size l); [|eauto].
    destruct (utf8_prefix_spec t start (size - 1)) as (l' & -> & ?); [lia|].
    exists l'. split; [done|lia]. }
  simpl. destruct (bytes_at_some t start l') as (bytes' & -> & Hlen); [lia|]. simpl.
  eexists. split; [done|]. destruct (_ && _); [by rewrite bytes_string_length, Hlen|done].
Qed.

Lemma copy_loop_spec fuel t cursor stop current index size :
  (stop ≤ length t)%nat → (stop - cursor ≤ fuel)%nat → (3 < size)%nat →
  ∃ s, copy_loop fuel t cursor stop current index size = Some s ∧ (String.length s < size)%nat.
Proof.
  intros Hs Hf Hsize. revert cursor current Hf.
  induction fuel as [|fuel IH]; intros cursor current Hf; simpl;
    destruct (Nat.ltb_spec cursor stop); try (by exists "N/A"); [lia|].
  destruct (string_end_spec (stop - cursor) t cursor stop) as (e & -> & ?); [lia..|]. simpl.
  destruct (current =? index); [apply copy_delimited_spec; lia|].
  destruct (Nat.leb_spec stop e); [by exists "N/A"|]. apply IH. lia.
Qed.

Lemma copy_smbios_string_spec t start stop index size :
  (3 < size)%nat →
  ∃ s, copy_smbios_string t start stop index size = Some s ∧ (String.length s < size)%nat.
Proof.
  intros Hsize. unfold copy_smbios_string.
  destruct (Nat.ltb_spec (length t) stop); [rewrite orb_true_r; by exists "N/A"|].
  destruct (_ || _); [by exists "N/A"|]. by apply copy_loop_spec.
Qed.

Lemma find_terminator_spec fuel t next :
  (length t - next ≤ fuel)%nat →
  ∃ n, find_terminator fuel t next = Some n ∧ (next ≤ n)%nat.
Proof.
  revert next. induction fuel as [|fuel IH]; intros next Hf; simpl;
    destruct (Nat.ltb_spec (next + 1) (length t)); try (eexists; split; [done|lia]); [lia|].
  destruct (byte_at_some t next) as (a & -> & _); [lia|]. simpl.
  destruct (byte_at_some t (next + 1)) as (b' & -> & _); [lia|].
  assert (∃ b, (if negb (a =? 0) then Some 1 else Some b') = Some b)
    as [b ->] by (destruct (negb _); eauto). simpl.
  destruct (_ || _); [|eexists; split; [done|lia]].
  destruct (IH (S next)) as (n & -> & ?); [lia|]. eexists; split; [done|lia].
Qed.

(** Every text of a module fits its array. *)
Record module_fits (m : LsmSmbiosMemoryModule) : Prop := {
  mf_locator : (String.length (sm_locator m) < 64)%nat;
  mf_bank_locator : (String.length (sm_bank_locator m) < 64)%nat;
  mf_manufacturer : (String.length (sm_manufacturer m) < 64)%nat;
  mf_serial_number : (String.length (sm_serial_number m) < 64)%nat;
  mf_part_number : (String.length (sm_part_number m) < 96)%nat;
  mf_memory_type : (String.length (sm_memory_type m) < 32)%nat;
  mf_form_factor : (String.length (sm_form_factor m) < 32)%nat;
}.

Lemma read_module_spec t off len start next speed :
  (off + len ≤ length t)%nat →
  ∃ m, read_module t off len start next speed = Some m ∧ module_fits m ∧ sm_speed_mhz m = speed.
Proof.
  intros Hb. unfold read_module.
  destruct (memory_size_some t off len Hb) as [size ->]. simpl.
  assert (∀ (f : Z → string) (i : nat), ∃ s,
    (if (i <? len)%nat then f <$> byte_at t (off + i) else Some "N/A") = Some s) as Hname.
  { intros f i. destruct (Nat.ltb_spec i len); [do_load|]; eauto. }
  destruct (Hname form_factor_name 14%nat) as [ff ->]. simpl.
  destruct (Hname memory_type_name 18%nat) as [mt ->]. simpl.
  destruct (field_or_0_some t off len 16 Hb) as [i1 ->]. simpl.
  destruct (copy_smbios_string_spec t start next i1 64) as (s1 & -> & ?); [lia|]. simpl.
  destruct (field_or_0_some t off len 17 Hb) as [i2 ->]. simpl.
  destruct (copy_smbios_string_spec t start next i2 64) as (s2 & -> & ?); [lia|]. simpl.
  destruct (field_or_0_some t off len 23 Hb) as [i3 ->]. simpl.
  destruct (copy_smbios_string_spec t start next i3 64) as (s3 & -> & ?); [lia|]. simpl.
  destruct (field_or_0_some t off len 24 Hb) as [i4 ->]. simpl.
  destruct (copy_smbios_string_spec t start next i4 64) as (s4 & -> & ?); [lia|]. simpl.
  destruct (field_or_0_some t off len 26 Hb) as [i5 ->]. simpl.
  destruct (copy_smbios_string_spec t start next i5 96) as (s5 & -> & ?); [lia|]. simpl.
  eexists. split; [done|]. split; [|done].
  split; simpl; try done; apply copy_string_bound; lia.
Qed.

(** The published speed: the lowest positive one of the modules, if any. *)
Definition lowest_speed (speed : Z) (modules : list LsmSmbiosMemoryModule) : Prop :=
  (speed = 0 ∧ Forall (λ m, sm_speed_mhz m <= 0) modules)
  ∨ (0 < speed ∧ (∃ m, m ∈ modules ∧ sm_speed_mhz m = speed)
     ∧ Forall (λ m, 0 < sm_speed_mhz m → speed <= sm_speed_mhz m) modules).

Record info_inv (acc : LsmSmbiosMemoryInfo * bool) : Prop := {
  ii_used : 0 <= si_slots_used acc.1 <= si_slots_total acc.1;
  ii_capacity : (length (si_modules acc.1) ≤ LSM_SMBIOS_MAX_MODULES)%nat;
  ii_complete : acc.2 = true → Z.of_nat (length (si_modules acc.1)) = si_slots_used acc.1;
  ii_fits : Forall module_fits (si_modules acc.1);
  ii_form_factor : (String.length (si_form_factor acc.1) < 64)%nat;
  ii_speed : acc.2 = true → lowest_speed (si_speed_mhz acc.1) (si_modules acc.1);
}.

Lemma info_initial_inv : info_inv (info_initial, true).
Proof. split; simpl; try done; try lia. intros _. left. done. Qed.

(** The running minimum over one more module. *)
Definition next_speed (old speed : Z) : Z :=
  if (0 <? speed) && ((old =? 0) || (speed <? old)) then speed else old.

Lemma lowest_speed_snoc old modules m :
  lowest_speed old modules →
  lowest_speed (next_speed old (sm_speed_mhz m)) (modules ++ [m]).
Proof.
  unfold lowest_speed, next_speed. intros Hold.
  destruct (Z.ltb_spec 0 (sm_speed_mhz m)) as [Hp|Hp]; simpl.
  - destruct Hold as [[-> Hall]|(Hpos & (m0 & Hin & Hm0) & Hall)]; simpl.
    + right. split; [done|]. split; [exists m; split; [set_solver|done]|].
      apply Forall_app. split; [|by constructor].
      eapply Forall_impl; [exact Hall|]. simpl. lia.
    + destruct (Z.eqb_spec old 0); [lia|]. simpl.
      destruct (Z.ltb_spec (sm_speed_mhz m) old); right.
      * split; [done|]. split; [exists m; split; [set_solver|done]|].
        apply Forall_app. split; [|by constructor].
        eapply Forall_impl; [exact Hall|]. simpl. intros x Hx Hx0. specialize (Hx Hx0). lia.
      * split; [done|]. split; [exists m0; split; [set_solver|done]|].
        apply Forall_app. split; [done|by constructor].
  - destruct Hold as [[-> Hall]|(Hpos & (m0 & Hin & Hm0) & Hall)].
    + left. split; [done|]. apply Forall_app. split; [done|]. by constructor.
    + right. split; [done|]. split; [exists m0; split; [set_solver|done]|].
      apply Forall_app. split; [done|]. constructor; [lia|done].
Qed.

(** What a record changes besides the module list. *)
Lemma form_factor_step t off len info :
  (off + len ≤ length t)%nat → (String.length (si_form_factor info) < 64)%nat →
  ∃ ff, (if strcmp_eq (si_form_factor info) "N/A" && (14 <? len)%nat then
           value ← byte_at t (off + 14);
           let name := form_factor_name value in
           Some (if negb (strcmp_eq name "Unknown") && nonempty name
                 then info <| si_form_factor := lsm_copy_string 64 name |> else info)
         else Some info) = Some (info <| si_form_factor := ff |>)
        ∧ (String.length ff < 64)%nat.
Proof.
  intros Hb Hff.
  destruct (strcmp_eq _ _); simpl; [|exists (si_form_factor info); by destruct info].
  destruct (Nat.ltb_spec 14 len); [|exists (si_form_factor info); by destruct info].
  do_load. destruct (_ && _); [|exists (si_form_factor info); by destruct info].
  eexists. split; [done|]. apply copy_string_bound. lia.
Qed.

Lemma memory_device_spec t off len start next acc :
  (off + len ≤ length t)%nat → info_inv acc →
  ∃ acc', memory_device t off len start next acc = Some acc' ∧ info_inv acc'
          ∧ si_slots_total acc'.1 = si_slots_total acc.1 + 1.
Proof.
  intros Hb. destruct acc as [info complete]. intros [Hused Hcap Hcomp Hfits Hff Hspeed].
  cbn [fst snd] in *. unfold memory_device.
  destruct (populated_some t off len Hb) as [[] ->]; cbn [mbind option_bind negb].
  2: { eexists. split; [done|]. split; [|done]. split; simpl; try done; try lia. }
  destruct (memory_speed_some t off len Hb) as [speed ->]. cbn [mbind option_bind].
  match goal with |- context [if (0 <? speed) && ?c then ?a else ?b] =>
    set (info1 := if (0 <? speed) && c then a else b) end.
  assert (info1 = info <| si_slots_total := si_slots_total info + 1 |>
                       <| si_slots_used := si_slots_used info + 1 |>
                       <| si_speed_mhz := next_speed (si_speed_mhz info) speed |>) as Hinfo1.
  { unfold info1, next_speed. destruct info. cbn. by destruct (_ && _). }
  clearbody info1.
  destruct (form_factor_step t off len info1 Hb) as (ff & Hffeq & Hfflen); [by rewrite Hinfo1|].
  cbn [mbind option_bind] in Hffeq. rewrite Hffeq. cbn [mbind option_bind]. subst info1. simpl.
  destruct (Nat.ltb_spec (length (si_modules info)) LSM_SMBIOS_MAX_MODULES).
  - destruct (read_module_spec t off len start next speed Hb) as (m & -> & Hm & Hms). simpl.
    eexists. split; [done|]. split; [|done]. split; simpl.
    + lia.
    + rewrite length_app. simpl. lia.
    + intros Ht. rewrite length_app. simpl. specialize (Hcomp Ht). lia.
    + apply Forall_app. split; [done|by constructor].
    + done.
    + intros Ht. rewrite <-Hms. by apply lowest_speed_snoc, Hspeed.
  - eexists. split; [done|]. split; [|done]. split; simpl; try done; lia.
Qed.

Lemma walk_spec fuel t offset acc :
  (length t - offset ≤ fuel)%nat → info_inv acc →
  ∃ acc', walk fuel t offset acc = Some acc' ∧ info_inv acc'.
Proof.
  revert offset acc. induction fuel as [|fuel IH]; intros offset acc Hf Hinv; simpl;
    destruct (Nat.leb_spec (offset + 4) (length t)); try (by eexists); [lia|].
  destruct (byte_at_some t offset) as (type & -> & _); [lia|]. simpl.
  destruct (byte_at_some t (offset + 1)) as (len & -> & ?); [lia|]. simpl.
  destruct (Nat.ltb_spec (Z.to_nat len) 4); [by eexists|].
  destruct (Nat.ltb_spec (length t) (offset + Z.to_nat len)); [by eexists|]. simpl.
  destruct (find_terminator_spec (length t) t (offset + Z.to_nat len)) as (next & -> & ?); [lia|].
  simpl. destruct (Nat.leb_spec (length t) (next + 1)); [by eexists|].
  assert (∃ acc1, (if type =? SMBIOS_TYPE_MEMORY_DEVICE
    then memory_device t offset (Z.to_nat len) (offset + Z.to_nat len) next acc else Some acc)
    = Some acc1 ∧ info_inv acc1) as (acc1 & -> & Hacc1).
  { destruct (type =? _); [|by eexists].
    destruct (memory_device_spec t offset (Z.to_nat len) (offset + Z.to_nat len) next acc)
      as (acc1 & ? & ? & _); [lia|done|]. by exists acc1. }
  simpl. destruct (type =? SMBIOS_TYPE_END); [by eexists|]. apply IH; [lia|done].
Qed.

(** (C11) Whatever bytes the firmware table holds, the walk terminates and
    no read leaves the table.  A reported result is consistent: at most 32
    modules, exactly one per used slot, used slots among the total, every text
    within its array, and the speed the lowest positive one of the modules; a
    failure publishes the cleared structure. *)
Theorem smbios_read_safe bytes :
  ∃ info ok, lsm_smbios_memory_read bytes = Some (info, ok)
    ∧ (ok = false → info = info_initial ∨ si_slots_total info = 0)
    ∧ (ok = true →
         si_slots_total info ≠ 0 ∧ 0 <= si_slots_used info <= si_slots_total info
         ∧ Z.of_nat (length (si_modules info)) = si_slots_used info
         ∧ (length (si_modules info) ≤ LSM_SMBIOS_MAX_MODULES)%nat
         ∧ Forall module_fits (si_modules info)
         ∧ (String.length (si_form_factor info) < 64)%nat
         ∧ lowest_speed (si_speed_mhz info) (si_modules info)).
Proof.
  unfold lsm_smbios_memory_read. destruct bytes as [t|].
  2: { eexists _, _. split; [done|]. split; [by left|done]. }
  destruct (walk_spec (length t) t 0 (info_initial, true)) as ([info complete] & -> & Hinv);
    [lia|apply info_initial_inv|]. simpl.
  destruct complete; simpl.
  2: { eexists _, _. split; [done|]. split; [by left|done]. }
  eexists _, _. split; [done|]. destruct Hinv as [Hused Hcap Hcomp Hfits Hff Hspeed]. simpl in *.
  split.
  - intros Hz%negb_false_iff%Z.eqb_eq. by right.
  - intros Hz%negb_true_iff%Z.eqb_neq. split_and!; try done; [lia|lia|by apply Hcomp|by apply Hspeed].
Qed.
End smbios_facts.

(** ** Witness *)

From S2P Require Import CommonReference.

Definition byte_of (z : Z) : Byte.byte := default Byte.x00 (Byte.of_N (Z.to_N z)).

(** One populated 8 GiB DIMM at 3200 MT/s, locator "A1", manufacturer "X". *)
Definition sample_table : list Byte.byte := byte_of <$>
  [17; 27; 0; 0; 0; 0; 0; 0; 0; 0; 0; 0; 0; 32; 9; 0; 1; 0; 26; 0; 0; 128; 12; 2; 0; 0; 0;
   65; 49; 0; 88; 0; 0; 127; 4; 0; 0; 0; 0].

Example sample_table_parsed :
  lsm_smbios_memory_read (Some sample_table)
  = Some ({| si_speed_mhz := 3200; si_slots_used := 1; si_slots_total := 1;
             si_form_factor := "DIMM";
             si_modules := [{| sm_locator := "A1"; sm_bank_locator := "N/A";
                               sm_manufacturer := "X"; sm_part_number := "N/A";
                               sm_serial_number := "N/A"; sm_memory_type := "DDR4";
                               sm_form_factor := "DIMM"; sm_size_bytes := 8589934592;
                               sm_speed_mhz := 3200 |}] |}, true).
Proof. vm_compute. reflexivity. Qed.

Lemma smbios_read_safe_witness :
  ∃ info, lsm_smbios_memory_read (Some sample_table) = Some (info, true)
    ∧ Z.of_nat (length (si_modules info)) = si_slots_used info
    ∧ lowest_speed (si_speed_mhz info) (si_modules info).
Proof.
  destruct (smbios_read_safe (Some sample_table)) as (info & ok & Hread & _ & Hok).
  assert (Htrue : ok = true).
  { pose proof sample_table_parsed as E. rewrite Hread in E. congruence. }
  exists info. rewrite <-Htrue. destruct (Hok Htrue) as (_ & _ & Hm & _ & _ & _ & Hs).
  exact (conj Hread (conj Hm Hs)).
Defined.
