(* ===== verification/BluetoothTraffic.v ===== *)
(** * BluetoothTraffic: per-device Bluetooth byte accounting

    Models [src/src/bluetooth_traffic.c].  Monitor datagrams are decoded with
    bounds-checked reads; the static [capture_state] is an explicit record and
    every critical section a function on it; the control thread (start, stop),
    the packet reader and the collector interleave in the relation [step], with
    the set of open descriptors and the process capabilities as the world. *)
From S2P Require Import Prelude Double CStrings Common Bytes MonitorTypes.
Local Open Scope Z_scope.

(** src: bluetooth_traffic.h:21-25 LsmBluetoothTrafficStartResult *)
Inductive LsmBluetoothTrafficStartResult :=
| LSM_BLUETOOTH_TRAFFIC_SECURITY_FAILURE
| LSM_BLUETOOTH_TRAFFIC_UNAVAILABLE
| LSM_BLUETOOTH_TRAFFIC_STARTED.

(** src: bluetooth_traffic.h:28-33 LsmBluetoothMonitorPacket *)
Record LsmBluetoothMonitorPacket := {
  bp_controller_index : Z;
  bp_handle : Z;
  bp_payload_bytes : Z;
  bp_receive : bool;
}.

(** src: bluetooth_traffic.h:36-40 LsmBluetoothTrafficCounters *)
Record LsmBluetoothTrafficCounters := {
  tc_rx_bytes : Z;
  tc_tx_bytes : Z;
  tc_link_count : Z;
}.
#[export] Instance eta_LsmBluetoothTrafficCounters : Eta LsmBluetoothTrafficCounters := λ x,
  Build_LsmBluetoothTrafficCounters (tc_rx_bytes x) (tc_tx_bytes x) (tc_link_count x).

(** src: bluetooth_traffic.h:43-47 LsmBluetoothTrafficState *)
Record LsmBluetoothTrafficState := {
  ts_previous_rx : Z;
  ts_previous_tx : Z;
  ts_initialized : bool;
}.
#[export] Instance eta_LsmBluetoothTrafficState : Eta LsmBluetoothTrafficState := λ x,
  Build_LsmBluetoothTrafficState (ts_previous_rx x) (ts_previous_tx x) (ts_initialized x).

(** src: bluetooth_traffic.c:49-57 LsmBluetoothLinkCounter *)
Record LsmBluetoothLinkCounter := {
  lc_controller_index : Z;
  lc_handle : Z;
  lc_address : string;
  lc_rx_bytes : Z;
  lc_tx_bytes : Z;
  lc_active : bool;
  lc_used : bool;
}.
#[export] Instance eta_LsmBluetoothLinkCounter : Eta LsmBluetoothLinkCounter := λ x,
  Build_LsmBluetoothLinkCounter (lc_controller_index x) (lc_handle x) (lc_address x)
    (lc_rx_bytes x) (lc_tx_bytes x) (lc_active x) (lc_used x).

(** The mutex and the thread handle are the granularity of [step] and its
    reader state. *)
(** src: bluetooth_traffic.c:59-67 LsmBluetoothCaptureState *)
Record LsmBluetoothCaptureState := {
  cap_monitor_fd : Z;
  cap_thread_started : bool;
  cap_stop_requested : bool;
  cap_capture_available : bool;
  cap_links : list LsmBluetoothLinkCounter;
}.
#[export] Instance eta_LsmBluetoothCaptureState : Eta LsmBluetoothCaptureState := λ x,
  Build_LsmBluetoothCaptureState (cap_monitor_fd x) (cap_thread_started x)
    (cap_stop_requested x) (cap_capture_available x) (cap_links x).

Definition LSM_HCI_MON_HEADER_SIZE : nat := 6.
Definition LSM_HCI_MON_ACL_TX : Z := 4.
Definition LSM_HCI_MON_ACL_RX : Z := 5.
Definition LSM_HCI_MON_SCO_TX : Z := 6.
Definition LSM_HCI_MON_SCO_RX : Z := 7.
Definition LSM_HCI_MON_ISO_TX : Z := 18.
Definition LSM_HCI_MON_ISO_RX : Z := 19.
Definition LSM_HCI_HANDLE_MASK : Z := 4095.
Definition LSM_HCI_ISO_LENGTH_MASK : Z := 16383.
Definition LSM_HCI_LINK_SLOTS : nat := 128.

Definition link_zero : LsmBluetoothLinkCounter :=
  {| lc_controller_index := 0; lc_handle := 0; lc_address := ""; lc_rx_bytes := 0;
     lc_tx_bytes := 0; lc_active := false; lc_used := false |}.
Definition links_zero : list LsmBluetoothLinkCounter := replicate LSM_HCI_LINK_SLOTS link_zero.

(** The static initialiser. *)
(** src: bluetooth_traffic.c:69-72 capture_state *)
Definition capture_initial : LsmBluetoothCaptureState :=
  {| cap_monitor_fd := -1; cap_thread_started := false; cap_stop_requested := false;
     cap_capture_available := false; cap_links := links_zero |}.

(** [LsmBluetoothAddress] of linux_hci_abi.h: its six bytes. *)
Abbreviation LsmBluetoothAddress := (list Z).

(** The fields of a kernel connection record the program reads. *)
(** src: linux_hci_abi.h:45-52 LsmHciConnectionInfo *)
Record LsmHciConnectionInfo := {
  hci_handle : Z;
  hci_address : LsmBluetoothAddress;
}.
#[export] Instance eta_LsmHciConnectionInfo : Eta LsmHciConnectionInfo := λ x,
  Build_LsmHciConnectionInfo (hci_handle x) (hci_address x).

Definition hex_char (d : Z) : ascii :=
  Ascii.ascii_of_nat (Z.to_nat (if d <? 10 then 48 + d else 55 + d)).
(** [%02X] of a byte *)
Definition hex2 (b : Z) : string :=
  String (hex_char (b / 16)) (String (hex_char (b mod 16)) EmptyString).

(** Into [char remote[32]], which is large enough. *)
(** src: bluetooth_traffic.c address_string *)
Definition address_string (address : LsmBluetoothAddress) : string :=
  let byte i := hex2 (nth i address 0) in
  join ":" [byte 5%nat; byte 4%nat; byte 3%nat; byte 2%nat; byte 1%nat; byte 0%nat].

Section bluetooth.
Context `{ArithmeticOps, TextOps, NumberOps, ByteOps}.

(** src: bluetooth_traffic.c controller_index *)
Definition controller_index (controller : string) : option Z :=
  if negb (lsm_string_starts_with controller "hci") || char_is controller 3 "000" then None
  else let '(ok, value) :=
         lsm_parse_u64_range (String.substring 3 (String.length controller - 3) controller)
                             10 0 uint16_max 0 in
       if ok then Some value else None.

(** The outer result is [None] on an out-of-bounds read; the inner one is the
    decoded packet or the code's [false]. *)
(** src: bluetooth_traffic.c lsm_bluetooth_traffic_parse_monitor *)
Definition lsm_bluetooth_traffic_parse_monitor (bytes : table)
    : option (option LsmBluetoothMonitorPacket) :=
  if (length bytes <? LSM_HCI_MON_HEADER_SIZE)%nat then Some None
  else
    opcode ← load16 bytes 0;
    index ← load16 bytes 2;
    payload_length ← load16 bytes 4;
    if Z.of_nat (length bytes - LSM_HCI_MON_HEADER_SIZE) <? payload_length then Some None
    else
      let payload := LSM_HCI_MON_HEADER_SIZE in
      header ←
        (if (opcode =? LSM_HCI_MON_ACL_TX) || (opcode =? LSM_HCI_MON_ACL_RX) then
           if payload_length <? 4 then Some None
           else n ← load16 bytes (payload + 2);
                Some (Some (4, n, opcode =? LSM_HCI_MON_ACL_RX))
         else if (opcode =? LSM_HCI_MON_SCO_TX) || (opcode =? LSM_HCI_MON_SCO_RX) then
           if payload_length <? 3 then Some None
           else n ← byte_at bytes (payload + 2);
                Some (Some (3, n, opcode =? LSM_HCI_MON_SCO_RX))
         else if (opcode =? LSM_HCI_MON_ISO_TX) || (opcode =? LSM_HCI_MON_ISO_RX) then
           if payload_length <? 4 then Some None
           else n ← load16 bytes (payload + 2);
                Some (Some (4, Z.land n LSM_HCI_ISO_LENGTH_MASK, opcode =? LSM_HCI_MON_ISO_RX))
         else Some None);
      match header with
      | None => Some None
      | Some (header_size, data_length, receive) =>
          if payload_length - header_size <? data_length then Some None
          else
            handle ← load16 bytes payload;
            Some (Some {| bp_controller_index := index;
                          bp_handle := Z.land handle LSM_HCI_HANDLE_MASK;
                          bp_payload_bytes := data_length; bp_receive := receive |})
      end.

(** ** The link table *)

Definition link_matches (controller handle : Z) (slot : LsmBluetoothLinkCounter) : bool :=
  lc_used slot && (lc_controller_index slot =? controller) && (lc_handle slot =? handle).

(** The first loop: the slot it returns, or the first free one it saw. *)
(** src: bluetooth_traffic.c:154-161 link_for_handle_locked *)
Fixpoint scan_links (links : list LsmBluetoothLinkCounter) (controller handle : Z)
    (index : nat) (free_slot : option nat) : option nat * option nat :=
  match links with
  | [] => (None, free_slot)
  | slot :: links =>
      if link_matches controller handle slot then (Some index, free_slot)
      else scan_links links controller handle (S index)
             (if negb (lc_used slot) && negb (bool_decide (is_Some free_slot))
              then Some index else free_slot)
  end.

(** src: bluetooth_traffic.c:162-169 link_for_handle_locked *)
Fixpoint first_inactive (links : list LsmBluetoothLinkCounter) (index : nat) : option nat :=
  match links with
  | [] => None
  | slot :: links => if negb (lc_active slot) then Some index else first_inactive links (S index)
  end.

Definition fresh_link (controller handle : Z) : LsmBluetoothLinkCounter :=
  link_zero <| lc_used := true |> <| lc_controller_index := controller |>
            <| lc_handle := handle |>.

(** The slot for a handle, and the table it is a slot of. *)
(** src: bluetooth_traffic.c link_for_handle_locked *)
Definition link_for_handle_locked (links : list LsmBluetoothLinkCounter) (controller handle : Z)
    : option (nat * list LsmBluetoothLinkCounter) :=
  match scan_links links controller handle 0 None with
  | (Some slot, _) => Some (slot, links)
  | (None, free_slot) =>
      match (match free_slot with Some slot => Some slot | None => first_inactive links 0 end) with
      | None => None
      | Some slot => Some (slot, <[slot := fresh_link controller handle]> links)
      end
  end.

(** src: bluetooth_traffic.c:184-191 account_packet *)
Definition add_bytes (packet : LsmBluetoothMonitorPacket) (slot : LsmBluetoothLinkCounter)
    : LsmBluetoothLinkCounter :=
  if bp_receive packet
  then slot <| lc_rx_bytes := lsm_u64_add_saturating (lc_rx_bytes slot) (bp_payload_bytes packet) |>
  else slot <| lc_tx_bytes := lsm_u64_add_saturating (lc_tx_bytes slot) (bp_payload_bytes packet) |>.

(** src: bluetooth_traffic.c account_packet *)
Definition account_packet (links : list LsmBluetoothLinkCounter)
    (packet : LsmBluetoothMonitorPacket) : list LsmBluetoothLinkCounter :=
  if bp_payload_bytes packet =? 0 then links
  else match link_for_handle_locked links (bp_controller_index packet) (bp_handle packet) with
       | None => links
       | Some (slot, links) => alter (add_bytes packet) slot links
       end.

(** src: bluetooth_traffic.c:352-357 lsm_bluetooth_traffic_refresh_connections *)
Definition deactivate (index : Z) (slot : LsmBluetoothLinkCounter) : LsmBluetoothLinkCounter :=
  if lc_used slot && (lc_controller_index slot =? index)
  then slot <| lc_active := false |> else slot.

(** src: bluetooth_traffic.c:365-373 lsm_bluetooth_traffic_refresh_connections *)
Definition bind_link (remote : string) (slot : LsmBluetoothLinkCounter) : LsmBluetoothLinkCounter :=
  let slot := if nonempty (lc_address slot) && negb (lsm_ascii_equal_ci (lc_address slot) remote)
              then slot <| lc_rx_bytes := 0 |> <| lc_tx_bytes := 0 |> else slot in
  slot <| lc_address := lsm_copy_string 32 remote |> <| lc_active := true |>.

(** The body of the connection loop. *)
(** src: bluetooth_traffic.c:359-374 lsm_bluetooth_traffic_refresh_connections *)
Definition bind_connection (index : Z) (links : list LsmBluetoothLinkCounter)
    (info : LsmHciConnectionInfo) : list LsmBluetoothLinkCounter :=
  match link_for_handle_locked links index (hci_handle info) with
  | None => links
  | Some (slot, links) => alter (bind_link (address_string (hci_address info))) slot links
  end.

(** [list] is what the connection ioctl delivers, [None] when the socket, the
    allocation or the ioctl failed.  The socket is local: it is closed on
    every path. *)
(** src: bluetooth_traffic.c lsm_bluetooth_traffic_refresh_connections *)
Definition lsm_bluetooth_traffic_refresh_connections (cap : LsmBluetoothCaptureState)
    (controller : string) (list : option (list LsmHciConnectionInfo))
    : LsmBluetoothCaptureState * bool :=
  match controller_index controller, list with
  | Some index, Some connections =>
      (cap <| cap_links :=
         foldl (bind_connection index) (deactivate index <$> cap_links cap) connections |>, true)
  | _, _ => (cap, false)
  end.

(** src: bluetooth_traffic.c:392-406 lsm_bluetooth_traffic_read_device *)
Definition read_slot (index : Z) (address : string) (counters : LsmBluetoothTrafficCounters)
    (slot : LsmBluetoothLinkCounter) : LsmBluetoothTrafficCounters :=
  if negb (lc_used slot) || negb (lc_controller_index slot =? index)
     || negb (nonempty (lc_address slot)) || negb (lsm_ascii_equal_ci (lc_address slot) address)
  then counters
  else
    let counters := counters
      <| tc_rx_bytes := lsm_u64_add_saturating (tc_rx_bytes counters) (lc_rx_bytes slot) |>
      <| tc_tx_bytes := lsm_u64_add_saturating (tc_tx_bytes counters) (lc_tx_bytes slot) |> in
    if lc_active slot && (tc_link_count counters <? uint_max)
    then counters <| tc_link_count := tc_link_count counters + 1 |> else counters.

Definition counters_zero : LsmBluetoothTrafficCounters :=
  {| tc_rx_bytes := 0; tc_tx_bytes := 0; tc_link_count := 0 |}.

(** [counters] are the incoming contents of the output parameter. *)
(** src: bluetooth_traffic.c lsm_bluetooth_traffic_read_device *)
Definition lsm_bluetooth_traffic_read_device (cap : LsmBluetoothCaptureState)
    (controller address : string) (counters : LsmBluetoothTrafficCounters)
    : LsmBluetoothTrafficCounters * bool :=
  if negb (nonempty address) then (counters, false)
  else match controller_index controller with
       | None => (counters_zero, false)
       | Some index =>
           let available := cap_capture_available cap in
           let counters :=
             if available then foldl (read_slot index address) counters_zero (cap_links cap)
             else counters_zero in
           (counters, available && (0 <? tc_link_count counters))
       end.

Definition apply_rate (current previous : Z) (elapsed : double) : double :=
  (lsm_u64_counter_rate current previous (ldouble_of_Z 1) elapsed d0).2.

(** src: bluetooth_traffic.c lsm_bluetooth_traffic_apply_device *)
Definition lsm_bluetooth_traffic_apply_device (device : LsmBluetoothDeviceInfo)
    (state : LsmBluetoothTrafficState) (counters : LsmBluetoothTrafficCounters)
    (elapsed : double) : LsmBluetoothDeviceInfo * LsmBluetoothTrafficState :=
  let device := device
    <| btd_traffic_available := true |> <| btd_link_count := tc_link_count counters |>
    <| btd_rx_bytes_total := tc_rx_bytes counters |>
    <| btd_tx_bytes_total := tc_tx_bytes counters |>
    <| btd_rx_bytes_per_sec := d0 |> <| btd_tx_bytes_per_sec := d0 |> in
  let device :=
    if ts_initialized state then
      device
        <| btd_rx_bytes_per_sec := apply_rate (tc_rx_bytes counters) (ts_previous_rx state) elapsed |>
        <| btd_tx_bytes_per_sec := apply_rate (tc_tx_bytes counters) (ts_previous_tx state) elapsed |>
    else device in
  (device, {| ts_previous_rx := tc_rx_bytes counters; ts_previous_tx := tc_tx_bytes counters;
              ts_initialized := true |}).

(** src: bluetooth_traffic.c lsm_bluetooth_traffic_mark_device_unavailable *)
Definition lsm_bluetooth_traffic_mark_device_unavailable (device : LsmBluetoothDeviceInfo)
    (state : LsmBluetoothTrafficState) : LsmBluetoothDeviceInfo * LsmBluetoothTrafficState :=
  (device <| btd_traffic_available := false |> <| btd_link_count := 0 |>
          <| btd_rx_bytes_per_sec := d0 |> <| btd_tx_bytes_per_sec := d0 |>,
   state <| ts_initialized := false |>).

(** ** Start, stop and the reader *)

(** [None]: the reader already runs and start returns STARTED. *)
(** src: bluetooth_traffic.c:230-238 lsm_bluetooth_traffic_start *)
Definition start_begin (cap : LsmBluetoothCaptureState) : option LsmBluetoothCaptureState :=
  if cap_thread_started cap then None
  else Some (cap <| cap_stop_requested := false |> <| cap_capture_available := false |>
                 <| cap_links := links_zero |>).

(** [created] is [pthread_create]'s success. *)
(** src: bluetooth_traffic.c:271-285 lsm_bluetooth_traffic_start *)
Definition start_publish (cap : LsmBluetoothCaptureState) (descriptor : Z) (created : bool)
    : LsmBluetoothCaptureState * LsmBluetoothTrafficStartResult :=
  let cap := cap <| cap_monitor_fd := descriptor |> <| cap_capture_available := true |> in
  if negb created then
    (cap <| cap_monitor_fd := -1 |> <| cap_capture_available := false |>,
     LSM_BLUETOOTH_TRAFFIC_UNAVAILABLE)
  else (cap <| cap_thread_started := true |>, LSM_BLUETOOTH_TRAFFIC_STARTED).

(** The descriptor of the first critical section, and whether a thread is to be
    joined. *)
(** src: bluetooth_traffic.c:290-302 lsm_bluetooth_traffic_stop *)
Definition stop_begin (cap : LsmBluetoothCaptureState) : LsmBluetoothCaptureState * Z * bool :=
  let descriptor := cap_monitor_fd cap in
  if negb (cap_thread_started cap)
  then (cap <| cap_monitor_fd := -1 |> <| cap_capture_available := false |>, descriptor, false)
  else (cap <| cap_stop_requested := true |>, descriptor, true).

(** src: bluetooth_traffic.c:316-322 lsm_bluetooth_traffic_stop *)
Definition stop_finish (cap : LsmBluetoothCaptureState) : LsmBluetoothCaptureState :=
  cap <| cap_thread_started := false |> <| cap_monitor_fd := -1 |>
      <| cap_capture_available := false |> <| cap_stop_requested := false |>
      <| cap_links := links_zero |>.

Inductive ReaderState :=
| NoReader                        (** not created, or joined *)
| ReaderTop                       (** before the critical section of the loop *)
| ReaderRecv (descriptor : Z)     (** in [recv], the mutex released *)
| ReaderFailed                    (** a fatal [recv] error *)
| ReaderPacket (packet : LsmBluetoothMonitorPacket)
| ReaderExited.

(** The reader's critical section. *)
(** src: bluetooth_traffic.c:203-207 monitor_reader *)
Definition reader_top (cap : LsmBluetoothCaptureState) : ReaderState :=
  if cap_stop_requested cap || (cap_monitor_fd cap <? 0) then ReaderExited
  else ReaderRecv (cap_monitor_fd cap).

Inductive Received :=
| RecvRetry                       (** EINTR, EAGAIN, EWOULDBLOCK, or nothing *)
| RecvError
| RecvData (bytes : table).

(** What the reader does with the result of [recv]; [None] is an out-of-bounds
    read of the receive buffer. *)
(** src: bluetooth_traffic.c:209-224 monitor_reader *)
Definition reader_received (r : Received) : option ReaderState :=
  match r with
  | RecvRetry => Some ReaderTop
  | RecvError => Some ReaderFailed
  | RecvData bytes =>
      packet ← lsm_bluetooth_traffic_parse_monitor bytes;
      Some (match packet with Some packet => ReaderPacket packet | None => ReaderTop end)
  end.

(** The control thread: where it is inside start or stop. *)
Inductive ControlState :=
| Idle
| StartSocket
| StartDrop (descriptor : Z) (bound : bool)
| StartPublish (descriptor : Z)
| StopJoin (descriptor : Z)
| StopFinish.

Record System := {
  sys_cap : LsmBluetoothCaptureState;
  sys_control : ControlState;
  sys_reader : ReaderState;
  (** a stop timed out: the reader was detached *)
  sys_detached : bool;
  (** descriptors this module opened and has not closed *)
  sys_open : gset Z;
  (** the process still holds its file capabilities *)
  sys_capabilities : bool;
}.
#[export] Instance eta_System : Eta System := λ x,
  Build_System (sys_cap x) (sys_control x) (sys_reader x) (sys_detached x) (sys_open x)
    (sys_capabilities x).

Definition system_initial : System :=
  {| sys_cap := capture_initial; sys_control := Idle; sys_reader := NoReader;
     sys_detached := false; sys_open := ∅; sys_capabilities := true |}.

Definition close_fd (descriptor : Z) (open : gset Z) : gset Z :=
  if 0 <=? descriptor then open ∖ {[descriptor]} else open.

(** After a stop whose join timed out the program is exiting: the control
    thread makes no further call. *)
(** src: bluetooth_traffic.c:202-323 lsm_bluetooth_traffic_start *)
Inductive step : System → System → Prop :=
| step_start s cap :
    sys_control s = Idle → sys_detached s = false → start_begin (sys_cap s) = Some cap →
    step s (s <| sys_cap := cap |> <| sys_control := StartSocket |>)
| step_start_again s :
    sys_control s = Idle → sys_detached s = false → start_begin (sys_cap s) = None → step s s
| step_socket s descriptor bound :
    sys_control s = StartSocket → 0 <= descriptor → descriptor ∉ sys_open s →
    step s (s <| sys_open := {[descriptor]} ∪ sys_open s |>
              <| sys_control := StartDrop descriptor bound |>)
| step_socket_failed s :
    sys_control s = StartSocket → step s (s <| sys_control := StartDrop (-1) false |>)
| step_drop_failed s descriptor bound :
    sys_control s = StartDrop descriptor bound →
    step s (s <| sys_open := close_fd descriptor (sys_open s) |> <| sys_control := Idle |>)
| step_drop s descriptor :
    sys_control s = StartDrop descriptor true →
    step s (s <| sys_capabilities := false |> <| sys_control := StartPublish descriptor |>)
| step_drop_unbound s descriptor :
    sys_control s = StartDrop descriptor false →
    step s (s <| sys_capabilities := false |>
              <| sys_open := close_fd descriptor (sys_open s) |> <| sys_control := Idle |>)
| step_publish s descriptor :
    sys_control s = StartPublish descriptor →
    step s (s <| sys_cap := (start_publish (sys_cap s) descriptor true).1 |>
              <| sys_reader := ReaderTop |> <| sys_control := Idle |>)
| step_publish_failed s descriptor :
    sys_control s = StartPublish descriptor →
    step s (s <| sys_cap := (start_publish (sys_cap s) descriptor false).1 |>
              <| sys_open := close_fd descriptor (sys_open s) |> <| sys_control := Idle |>)
| step_stop s cap descriptor :
    sys_control s = Idle → sys_detached s = false →
    stop_begin (sys_cap s) = (cap, descriptor, true) →
    step s (s <| sys_cap := cap |> <| sys_control := StopJoin descriptor |>)
| step_stop_idle s cap descriptor :
    sys_control s = Idle → sys_detached s = false →
    stop_begin (sys_cap s) = (cap, descriptor, false) →
    step s (s <| sys_cap := cap |> <| sys_open := close_fd descriptor (sys_open s) |>)
| step_joined s descriptor :
    sys_control s = StopJoin descriptor → sys_reader s = ReaderExited →
    step s (s <| sys_reader := NoReader |> <| sys_open := close_fd descriptor (sys_open s) |>
              <| sys_control := StopFinish |>)
| step_join_timeout s descriptor :
    sys_control s = StopJoin descriptor →
    step s (s <| sys_detached := true |> <| sys_control := Idle |>)
| step_stopped s :
    sys_control s = StopFinish →
    step s (s <| sys_cap := stop_finish (sys_cap s) |> <| sys_control := Idle |>)
| step_reader_top s :
    sys_reader s = ReaderTop → step s (s <| sys_reader := reader_top (sys_cap s) |>)
| step_reader_recv s descriptor received reader :
    sys_reader s = ReaderRecv descriptor → reader_received received = Some reader →
    step s (s <| sys_reader := reader |>)
| step_reader_failed s :
    sys_reader s = ReaderFailed →
    step s (s <| sys_cap := sys_cap s <| cap_capture_available := false |> |>
              <| sys_reader := ReaderExited |>)
| step_reader_account s packet :
    sys_reader s = ReaderPacket packet →
    step s (s <| sys_cap := sys_cap s
                   <| cap_links := account_packet (cap_links (sys_cap s)) packet |> |>
              <| sys_reader := ReaderTop |>)
| step_refresh s controller list cap ok :
    lsm_bluetooth_traffic_refresh_connections (sys_cap s) controller list = (cap, ok) →
    step s (s <| sys_cap := cap |>).

Definition reachable : System → Prop := rtc step system_initial.
End bluetooth.

(** ** Decoding *)

#[local] Arguments Nat.ltb : simpl never.
#[local] Arguments Nat.leb : simpl never.
#[local] Arguments Z.eqb : simpl never.
#[local] Arguments Z.ltb : simpl never.

Definition u16 (b0 b1 : Byte.byte) : Z := byte_val b0 + 256 * byte_val b1.

(** The data datagrams of the kernel monitor channel: six header bytes, a
    payload of the announced length and possibly trailing bytes; the payload is
    a connection handle with flags, a data length and at least that much data. *)
Inductive monitor_frame : table → LsmBluetoothMonitorPacket → Prop :=
| frame_acl o0 o1 i0 i1 l0 l1 h0 h1 n0 n1 data trailing :
    u16 o0 o1 = LSM_HCI_MON_ACL_TX ∨ u16 o0 o1 = LSM_HCI_MON_ACL_RX →
    u16 l0 l1 = 4 + Z.of_nat (length data) → u16 n0 n1 <= Z.of_nat (length data) →
    monitor_frame ([o0; o1; i0; i1; l0; l1] ++ [h0; h1; n0; n1] ++ data ++ trailing)
      {| bp_controller_index := u16 i0 i1; bp_handle := Z.land (u16 h0 h1) 4095;
         bp_payload_bytes := u16 n0 n1;
         bp_receive := u16 o0 o1 =? LSM_HCI_MON_ACL_RX |}
| frame_sco o0 o1 i0 i1 l0 l1 h0 h1 n0 data trailing :
    u16 o0 o1 = LSM_HCI_MON_SCO_TX ∨ u16 o0 o1 = LSM_HCI_MON_SCO_RX →
    u16 l0 l1 = 3 + Z.of_nat (length data) → byte_val n0 <= Z.of_nat (length data) →
    monitor_frame ([o0; o1; i0; i1; l0; l1] ++ [h0; h1; n0] ++ data ++ trailing)
      {| bp_controller_index := u16 i0 i1; bp_handle := Z.land (u16 h0 h1) 4095;
         bp_payload_bytes := byte_val n0;
         bp_receive := u16 o0 o1 =? LSM_HCI_MON_SCO_RX |}
| frame_iso o0 o1 i0 i1 l0 l1 h0 h1 n0 n1 data trailing :
    u16 o0 o1 = LSM_HCI_MON_ISO_TX ∨ u16 o0 o1 = LSM_HCI_MON_ISO_RX →
    u16 l0 l1 = 4 + Z.of_nat (length data) →
    Z.land (u16 n0 n1) 16383 <= Z.of_nat (length data) →
    monitor_frame ([o0; o1; i0; i1; l0; l1] ++ [h0; h1; n0; n1] ++ data ++ trailing)
      {| bp_controller_index := u16 i0 i1; bp_handle := Z.land (u16 h0 h1) 4095;
         bp_payload_bytes := Z.land (u16 n0 n1) 16383;
         bp_receive := u16 o0 o1 =? LSM_HCI_MON_ISO_RX |}.

Section parse_facts.
Context `{ByteLaws}.

Lemma u16_range b0 b1 : 0 <= u16 b0 b1 < 65536.
Proof. unfold u16. pose proof (byte_val_range b0). pose proof (byte_val_range b1). lia. Qed.

Lemma load16_here pre b0 b1 rest n :
  length pre = n → load16 (pre ++ b0 :: b1 :: rest) n = Some (u16 b0 b1).
Proof.
  intros <-. unfold load16. rewrite drop_app_length, load_le16_spec.
  destruct (Nat.leb_spec (length pre + 2) (length (pre ++ b0 :: b1 :: rest))); [done|].
  rewrite length_app in *. simpl in *. lia.
Qed.

Lemma byte_at_here pre b rest n :
  length pre = n → byte_at (pre ++ b :: rest) n = Some (byte_val b).
Proof. intros <-. unfold byte_at. by rewrite list_lookup_middle. Qed.

(** The header decoded from a datagram that is long enough. *)
Lemma parse_header o0 o1 i0 i1 l0 l1 rest :
  lsm_bluetooth_traffic_parse_monitor ([o0; o1; i0; i1; l0; l1] ++ rest) =
  let t := [o0; o1; i0; i1; l0; l1] ++ rest in
  if Z.of_nat (length rest) <? u16 l0 l1 then Some None
  else
      header ←
        (if (u16 o0 o1 =? LSM_HCI_MON_ACL_TX) || (u16 o0 o1 =? LSM_HCI_MON_ACL_RX) then
           if u16 l0 l1 <? 4 then Some None
           else n ← load16 t 8;
                Some (Some (4, n, u16 o0 o1 =? LSM_HCI_MON_ACL_RX))
         else if (u16 o0 o1 =? LSM_HCI_MON_SCO_TX) || (u16 o0 o1 =? LSM_HCI_MON_SCO_RX) then
           if u16 l0 l1 <? 3 then Some None
           else n ← byte_at t 8;
                Some (Some (3, n, u16 o0 o1 =? LSM_HCI_MON_SCO_RX))
         else if (u16 o0 o1 =? LSM_HCI_MON_ISO_TX) || (u16 o0 o1 =? LSM_HCI_MON_ISO_RX) then
           if u16 l0 l1 <? 4 then Some None
           else n ← load16 t 8;
                Some (Some (4, Z.land n LSM_HCI_ISO_LENGTH_MASK, u16 o0 o1 =? LSM_HCI_MON_ISO_RX))
         else Some None);
      match header with
      | None => Some None
      | Some (header_size, data_length, receive) =>
          if u16 l0 l1 - header_size <? data_length then Some None
          else
            handle ← load16 t 6;
            Some (Some {| bp_controller_index := u16 i0 i1;
                          bp_handle := Z.land handle LSM_HCI_HANDLE_MASK;
                          bp_payload_bytes := data_length; bp_receive := receive |})
      end.
Proof.
  unfold lsm_bluetooth_traffic_parse_monitor. set (t := _ ++ rest).
  assert (length t = 6 + length rest)%nat as Hl by (unfold t; by rewrite length_app).
  rewrite Hl. destruct (Nat.ltb_spec (6 + length rest) LSM_HCI_MON_HEADER_SIZE) as [Hlt|_];
    [unfold LSM_HCI_MON_HEADER_SIZE in Hlt; lia|].
  assert (load16 t 0 = Some (u16 o0 o1)) as ->
    by exact (load16_here [] o0 o1 ([i0; i1; l0; l1] ++ rest) 0 eq_refl).
  assert (load16 t 2 = Some (u16 i0 i1)) as ->
    by exact (load16_here [o0; o1] i0 i1 ([l0; l1] ++ rest) 2 eq_refl).
  assert (load16 t 4 = Some (u16 l0 l1)) as ->
    by exact (load16_here [o0; o1; i0; i1] l0 l1 rest 4 eq_refl).
  cbn [mbind option_bind].
  replace (6 + length rest - LSM_HCI_MON_HEADER_SIZE)%nat with (length rest)
    by (unfold LSM_HCI_MON_HEADER_SIZE; lia).
  reflexivity.
Qed.

(** A long enough list starts with a given number of elements. *)
Lemma four_prefix (t : table) : (4 ≤ length t)%nat → ∃ a b c d r, t = a :: b :: c :: d :: r.
Proof. destruct t as [|? [|? [|? [|? ?]]]]; simpl; try lia. intros _. eauto 10. Qed.
Lemma three_prefix (t : table) : (3 ≤ length t)%nat → ∃ a b c r, t = a :: b :: c :: r.
Proof. destruct t as [|? [|? [|? ?]]]; simpl; try lia. intros _. eauto 10. Qed.
Lemma six_prefix (t : table) :
  (6 ≤ length t)%nat → ∃ a b c d e f r, t = [a; b; c; d; e; f] ++ r.
Proof.
  destruct t as [|? [|? [|? [|? [|? [|? ?]]]]]]; simpl; try lia. intros _.
  do 7 eexists. reflexivity.
Qed.

Lemma split_data (data : table) (n hdr : Z) :
  0 <= hdr → n <= hdr + Z.of_nat (length data) → hdr <= n →
  ∃ d r, data = d ++ r ∧ n = hdr + Z.of_nat (length d).
Proof.
  intros. exists (take (Z.to_nat (n - hdr)) data), (drop (Z.to_nat (n - hdr)) data).
  rewrite take_drop, length_take_le by lia. split; [done|lia].
Qed.

(** What a frame says of the bytes after the header. *)
Lemma frame_inv o0 o1 i0 i1 l0 l1 rest p :
  monitor_frame ([o0; o1; i0; i1; l0; l1] ++ rest) p →
  u16 l0 l1 <= Z.of_nat (length rest)
  ∧ ((u16 o0 o1 = LSM_HCI_MON_ACL_TX ∨ u16 o0 o1 = LSM_HCI_MON_ACL_RX) ∧ 4 <= u16 l0 l1
       ∧ (∃ h0 h1 n0 n1 r, rest = h0 :: h1 :: n0 :: n1 :: r ∧ u16 n0 n1 <= u16 l0 l1 - 4
            ∧ p = {| bp_controller_index := u16 i0 i1; bp_handle := Z.land (u16 h0 h1) 4095;
                     bp_payload_bytes := u16 n0 n1;
                     bp_receive := u16 o0 o1 =? LSM_HCI_MON_ACL_RX |})
     ∨ (u16 o0 o1 = LSM_HCI_MON_SCO_TX ∨ u16 o0 o1 = LSM_HCI_MON_SCO_RX) ∧ 3 <= u16 l0 l1
       ∧ (∃ h0 h1 n0 r, rest = h0 :: h1 :: n0 :: r ∧ byte_val n0 <= u16 l0 l1 - 3
            ∧ p = {| bp_controller_index := u16 i0 i1; bp_handle := Z.land (u16 h0 h1) 4095;
                     bp_payload_bytes := byte_val n0;
                     bp_receive := u16 o0 o1 =? LSM_HCI_MON_SCO_RX |})
     ∨ (u16 o0 o1 = LSM_HCI_MON_ISO_TX ∨ u16 o0 o1 = LSM_HCI_MON_ISO_RX) ∧ 4 <= u16 l0 l1
       ∧ (∃ h0 h1 n0 n1 r, rest = h0 :: h1 :: n0 :: n1 :: r
            ∧ Z.land (u16 n0 n1) 16383 <= u16 l0 l1 - 4
            ∧ p = {| bp_controller_index := u16 i0 i1; bp_handle := Z.land (u16 h0 h1) 4095;
                     bp_payload_bytes := Z.land (u16 n0 n1) 16383;
                     bp_receive := u16 o0 o1 =? LSM_HCI_MON_ISO_RX |})).
Proof.
  inversion 1 as [????????????? Hop Hl Hn E|???????????? Hop Hl Hn E|????????????? Hop Hl Hn E];
    simpl in E; simplify_eq/=; rewrite length_app; (split; [lia|]).
  - left. split_and!; [done|lia|]. do 5 eexists. split_and!; [done|lia|done].
  - right; left. split_and!; [done|lia|]. do 4 eexists. split_and!; [done|lia|done].
  - right; right. split_and!; [done|lia|]. do 5 eexists. split_and!; [done|lia|done].
Qed.

Lemma decode_tail o0 o1 i0 i1 l0 l1 h0 h1 rest (header_size n : Z) (receive : bool) :
  (if u16 l0 l1 - header_size <? n then Some None
   else handle ← load16 ([o0; o1; i0; i1; l0; l1] ++ h0 :: h1 :: rest) 6;
        Some (Some {| bp_controller_index := u16 i0 i1;
                      bp_handle := Z.land handle LSM_HCI_HANDLE_MASK;
                      bp_payload_bytes := n; bp_receive := receive |}))
  = Some (if u16 l0 l1 - header_size <? n then None
          else Some {| bp_controller_index := u16 i0 i1; bp_handle := Z.land (u16 h0 h1) 4095;
                       bp_payload_bytes := n; bp_receive := receive |}).
Proof. rewrite load16_here by done. by destruct (_ <? _). Qed.

(** A frame of another class, or too short, is not the one at hand. *)
Ltac refute_frame H :=
  apply frame_inv in H as [? [(Hop & ? & H)|[(Hop & ? & H)|(Hop & ? & H)]]];
  try (unfold LSM_HCI_MON_ACL_TX, LSM_HCI_MON_ACL_RX, LSM_HCI_MON_SCO_TX,
         LSM_HCI_MON_SCO_RX, LSM_HCI_MON_ISO_TX, LSM_HCI_MON_ISO_RX in *; lia).

(** The length field of a payload. *)
Lemma load_length o0 o1 i0 i1 l0 l1 h0 h1 n0 n1 r :
  load16 ([o0; o1; i0; i1; l0; l1] ++ h0 :: h1 :: n0 :: n1 :: r) 8 = Some (u16 n0 n1).
Proof. exact (load16_here [o0; o1; i0; i1; l0; l1; h0; h1] n0 n1 r 8 eq_refl). Qed.

Lemma byte_length o0 o1 i0 i1 l0 l1 h0 h1 n0 r :
  byte_at ([o0; o1; i0; i1; l0; l1] ++ h0 :: h1 :: n0 :: r) 8 = Some (byte_val n0).
Proof. exact (byte_at_here [o0; o1; i0; i1; l0; l1; h0; h1] n0 r 8 eq_refl). Qed.

(** Compare the decoded length [n] of the payload with the frames. *)
Ltac compare_frame l0 l1 r header_size n frame Hs :=
  rewrite decode_tail; eexists; split; [done|]; split; intros p;
  [ let Hn := fresh in
    destruct (Z.ltb_spec (u16 l0 l1 - header_size) n) as [|Hn]; [done|]; intros [= <-];
    simpl in Hs;
    destruct (split_data r (u16 l0 l1) header_size) as (d & tr & -> & Hd); [lia..|];
    eapply (frame d tr); [done|lia|lia]
  | intros Hf; refute_frame Hf; decompose [ex and] Hf; simplify_eq;
    match goal with |- context [?a <? ?b] => by destruct (Z.ltb_spec a b); [lia|] end ].

Lemma orb_eqb_true x a b : (x =? a) || (x =? b) = true → x = a ∨ x = b.
Proof. intros [?%Z.eqb_eq|?%Z.eqb_eq]%orb_true_iff; auto. Qed.

(** Decoding after the header: a result for every payload, sound and complete
    for the frames. *)
Lemma parse_rest o0 o1 i0 i1 l0 l1 rest :
  ∃ r, lsm_bluetooth_traffic_parse_monitor ([o0; o1; i0; i1; l0; l1] ++ rest) = Some r
    ∧ (∀ p, r = Some p → monitor_frame ([o0; o1; i0; i1; l0; l1] ++ rest) p)
    ∧ (∀ p, monitor_frame ([o0; o1; i0; i1; l0; l1] ++ rest) p → r = Some p).
Proof.
  rewrite parse_header. cbv zeta.
  pose proof (u16_range l0 l1) as Hl.
  destruct (Z.ltb_spec (Z.of_nat (length rest)) (u16 l0 l1)) as [Hs|Hs].
  { exists None. split_and!; [done|done|]. intros p [? _]%frame_inv. lia. }
  destruct ((u16 o0 o1 =? LSM_HCI_MON_ACL_TX) || (u16 o0 o1 =? LSM_HCI_MON_ACL_RX)) eqn:Eacl.
  { apply orb_eqb_true in Eacl. destruct (Z.ltb_spec (u16 l0 l1) 4) as [Hh|Hh].
    { exists None. split_and!; [done|done|]. intros p Hf. refute_frame Hf. }
    destruct (four_prefix rest) as (h0 & h1 & n0 & n1 & r & ->); [lia|].
    rewrite load_length. cbn [mbind option_bind].
    compare_frame l0 l1 r 4 (u16 n0 n1) (frame_acl o0 o1 i0 i1 l0 l1 h0 h1 n0 n1) Hs. }
  destruct ((u16 o0 o1 =? LSM_HCI_MON_SCO_TX) || (u16 o0 o1 =? LSM_HCI_MON_SCO_RX)) eqn:Esco.
  { apply orb_eqb_true in Esco. destruct (Z.ltb_spec (u16 l0 l1) 3) as [Hh|Hh].
    { exists None. split_and!; [done|done|]. intros p Hf. refute_frame Hf. }
    destruct (three_prefix rest) as (h0 & h1 & n0 & r & ->); [lia|].
    rewrite byte_length. cbn [mbind option_bind].
    compare_frame l0 l1 r 3 (byte_val n0) (frame_sco o0 o1 i0 i1 l0 l1 h0 h1 n0) Hs. }
  destruct ((u16 o0 o1 =? LSM_HCI_MON_ISO_TX) || (u16 o0 o1 =? LSM_HCI_MON_ISO_RX)) eqn:Eiso.
  { apply orb_eqb_true in Eiso. destruct (Z.ltb_spec (u16 l0 l1) 4) as [Hh|Hh].
    { exists None. split_and!; [done|done|]. intros p Hf. refute_frame Hf. }
    destruct (four_prefix rest) as (h0 & h1 & n0 & n1 & r & ->); [lia|].
    rewrite load_length. cbn [mbind option_bind].
    change LSM_HCI_ISO_LENGTH_MASK with 16383. compare_frame l0 l1 r 4 (Z.land (u16 n0 n1) 16383) (frame_iso o0 o1 i0 i1 l0 l1 h0 h1 n0 n1) Hs. }
  exists None. split_and!; [done|done|]. bool_hyps. intros p Hf.
  apply frame_inv in Hf as [_ [([]&_)|[([]&_)|([]&_)]]]; congruence.
Qed.

Lemma parse_frames t :
  ∃ r, lsm_bluetooth_traffic_parse_monitor t = Some r
    ∧ (∀ p, r = Some p → monitor_frame t p) ∧ (∀ p, monitor_frame t p → r = Some p).
Proof.
  destruct (decide (6 ≤ length t)%nat) as [H6|H6].
  - destruct (six_prefix t H6) as (o0 & o1 & i0 & i1 & l0 & l1 & rest & ->). apply parse_rest.
  - exists None. split_and!; [|done|].
    + unfold lsm_bluetooth_traffic_parse_monitor, LSM_HCI_MON_HEADER_SIZE.
      by destruct (Nat.ltb_spec (length t) 6); [|lia].
    + intros p. inversion 1; subst; simpl in H6; lia.
Qed.

Lemma frame_payload t p :
  monitor_frame t p →
  0 <= bp_payload_bytes p <= Z.of_nat (length t) ∧ bp_payload_bytes p <= uint16_max.
Proof.
  assert (Hb : ∀ a b, 0 <= u16 a b < 65536) by apply u16_range. unfold uint16_max.
  destruct 1 as [????????? n1|?????????? data|]; simpl; rewrite !length_app.
  - pose proof (Hb n0 n1). lia.
  - pose proof (byte_val_range n0). lia.
  - pose proof (Hb n0 n1). pose proof (Hb l0 l1).
    assert (0 <= Z.land (u16 n0 n1) 16383) by (apply Z.land_nonneg; lia). lia.
Qed.

(** The monitor decoder never reads outside the datagram it
    received, and it accepts exactly the well-formed ACL, SCO and ISO data
    frames, with the controller, handle, direction and data length they carry;
    the data length never exceeds the datagram. *)
Theorem monitor_parse_spec t :
  ∃ r, lsm_bluetooth_traffic_parse_monitor t = Some r
    ∧ ∀ p, r = Some p ↔ monitor_frame t p ∧ bp_payload_bytes p <= Z.of_nat (length t).
Proof.
  destruct (parse_frames t) as (r & Hr & Hs & Hc). exists r. split; [done|]. intros p. split.
  - intros Hp%Hs. split; [done|]. by apply frame_payload.
  - intros [Hf _]. by apply Hc.
Qed.
End parse_facts.

(** ** The link table *)

(** The abstract table: the link of a controller and handle. *)
Definition find_link (links : list LsmBluetoothLinkCounter) (controller handle : Z)
    : option LsmBluetoothLinkCounter := List.find (link_matches controller handle) links.

(** No controller and handle has two slots. *)
Definition links_unique (links : list LsmBluetoothLinkCounter) : Prop :=
  ∀ i j a b controller handle, links !! i = Some a → links !! j = Some b →
    link_matches controller handle a = true → link_matches controller handle b = true → i = j.

Definition link_u64 (l : LsmBluetoothLinkCounter) : Prop := u64 (lc_rx_bytes l) ∧ u64 (lc_tx_bytes l).

Record links_ok (links : list LsmBluetoothLinkCounter) : Prop := {
  ok_length : length links = LSM_HCI_LINK_SLOTS;
  ok_unique : links_unique links;
  ok_u64 : Forall link_u64 links;
}.

Lemma link_matches_iff c h l :
  link_matches c h l = true ↔ lc_used l = true ∧ lc_controller_index l = c ∧ lc_handle l = h.
Proof. unfold link_matches. rewrite !andb_true_iff, !Z.eqb_eq. tauto. Qed.

Lemma find_link_none links c h :
  find_link links c h = None ↔ ∀ i l, links !! i = Some l → link_matches c h l = false.
Proof.
  unfold find_link. split.
  - intros Hf i l Hl. apply (List.find_none _ _ Hf), list_elem_of_In. by eapply list_elem_of_lookup_2.
  - intros Hall. destruct (List.find _ _) as [l|] eqn:E; [|done].
    apply List.find_some in E as [Hin Hm]. apply list_elem_of_In, list_elem_of_lookup in Hin as [i Hi].
    by rewrite (Hall i l Hi) in Hm.
Qed.

Lemma find_link_some links c h l :
  find_link links c h = Some l → ∃ i, links !! i = Some l ∧ link_matches c h l = true.
Proof.
  intros [Hin Hm]%List.find_some. apply list_elem_of_In, list_elem_of_lookup in Hin as [i Hi]. eauto.
Qed.

Lemma find_link_iff links c h l :
  links_unique links →
  find_link links c h = Some l ↔ ∃ i, links !! i = Some l ∧ link_matches c h l = true.
Proof.
  intros Hu. split; [apply find_link_some|]. intros (i & Hi & Hm).
  destruct (find_link links c h) as [l'|] eqn:E.
  - apply find_link_some in E as (j & Hj & Hm').
    assert (i = j) as -> by eauto. congruence.
  - rewrite find_link_none in E. by rewrite (E i l Hi) in Hm.
Qed.

(** Overwriting one slot. *)
Lemma insert_unique links i c h x :
  links_unique links → link_matches c h x = true →
  (∀ j l, links !! j = Some l → link_matches c h l = true → j = i) →
  links_unique (<[i := x]> links).
Proof.
  intros Hu Hx Ho j k a b c' h' Ha Hb Hma Hmb. apply link_matches_iff in Hx as Hx'.
  destruct (decide (j = i)) as [->|Hj], (decide (k = i)) as [->|Hk]; [done| | |].
  - rewrite list_lookup_insert_ne in Hb by done.
    apply list_lookup_insert_Some in Ha as [(_ & -> & _)|[[] _]]; [|done].
    symmetry. apply (Ho k b Hb). apply link_matches_iff in Hma, Hmb. apply link_matches_iff.
    intuition congruence.
  - rewrite list_lookup_insert_ne in Ha by done.
    apply list_lookup_insert_Some in Hb as [(_ & -> & _)|[[] _]]; [|done].
    apply (Ho j a Ha). apply link_matches_iff in Hma, Hmb. apply link_matches_iff.
    intuition congruence.
  - rewrite list_lookup_insert_ne in Ha, Hb by done. by apply (Hu j k a b c' h').
Qed.

Lemma find_link_insert links i old x c h :
  links_unique links → links_unique (<[i := x]> links) → links !! i = Some old →
  find_link (<[i := x]> links) c h =
  if link_matches c h x then Some x
  else if link_matches c h old then None else find_link links c h.
Proof.
  intros Hu Hu' Hi. assert (<[i := x]> links !! i = Some x) as Hx
    by (apply list_lookup_insert_eq; by eapply lookup_lt_Some).
  destruct (link_matches c h x) eqn:Ex; [apply find_link_iff; eauto|].
  destruct (link_matches c h old) eqn:Eo.
  - apply find_link_none. intros j l Hl. destruct (decide (i = j)) as [<-|Hne]; [congruence|].
    rewrite list_lookup_insert_ne in Hl by done.
    destruct (link_matches c h l) eqn:El; [|done]. destruct Hne. eauto.
  - apply option_eq. intros l. rewrite !find_link_iff by done. split; intros (j & Hj & Hm).
    + destruct (decide (i = j)) as [<-|Hne]; [congruence|].
      rewrite list_lookup_insert_ne in Hj by done. eauto.
    + destruct (decide (i = j)) as [<-|Hne]; [congruence|].
      exists j. by rewrite list_lookup_insert_ne.
Qed.

(** The first loop. *)
Lemma scan_links_spec links c h k free :
  match scan_links links c h k free with
  | (Some i, _) => ∃ j l, i = (k + j)%nat ∧ links !! j = Some l ∧ link_matches c h l = true
  | (None, free') =>
      find_link links c h = None
      ∧ match free with
        | Some _ => free' = free
        | None => match free' with
                  | Some i => ∃ j l, i = (k + j)%nat ∧ links !! j = Some l ∧ lc_used l = false
                  | None => Forall (λ l, lc_used l = true) links
                  end
        end
  end.
Proof.
  revert k free. induction links as [|slot links IH]; intros k free; simpl.
  { split; [done|]. by destruct free. }
  destruct (link_matches c h slot) eqn:E.
  { exists 0%nat, slot. split_and!; [lia|done|done]. }
  set (free1 := if negb (lc_used slot) && negb (bool_decide (is_Some free)) then Some k else free).
  specialize (IH (S k) free1).
  destruct (scan_links links c h (S k) free1) as [[i|] free'].
  { destruct IH as (j & l & -> & Hl & Hm). exists (S j), l. split_and!; [lia|done|done]. }
  destruct IH as [Hn Hf]. split; [exact Hn|].
  subst free1. destruct free as [f|]; simpl in *; [by rewrite andb_false_r in Hf|].
  rewrite andb_true_r in Hf. destruct (lc_used slot) eqn:Eu; simpl in Hf.
  - destruct free' as [i|]; [|by constructor].
    destruct Hf as (j & l & -> & Hl & Hm). exists (S j), l. split_and!; [lia|done|done].
  - subst free'. exists 0%nat, slot. split_and!; [lia|done|done].
Qed.

Lemma first_inactive_spec links k :
  match first_inactive links k with
  | Some i => ∃ j l, i = (k + j)%nat ∧ links !! j = Some l ∧ lc_active l = false
  | None => Forall (λ l, lc_active l = true) links
  end.
Proof.
  revert k. induction links as [|slot links IH]; intros k; simpl; [done|].
  destruct (lc_active slot) eqn:E; simpl.
  - specialize (IH (S k)). destruct (first_inactive links (S k)) as [i|]; [|by constructor].
    destruct IH as (j & l & -> & Hl & Hm). exists (S j), l. split_and!; [lia|done|done].
  - exists 0%nat, slot. split_and!; [lia|done|done].
Qed.

(** Both writers of the table locate the slot of a handle and change it. *)
Definition link_update (f : LsmBluetoothLinkCounter → LsmBluetoothLinkCounter)
    (links : list LsmBluetoothLinkCounter) (controller handle : Z)
    : list LsmBluetoothLinkCounter :=
  match link_for_handle_locked links controller handle with
  | None => links
  | Some (slot, links) => alter f slot links
  end.

Lemma list_alter_found {A} (f : A → A) (l : list A) i x :
  l !! i = Some x → alter f i l = <[i := f x]> l.
Proof. revert i. induction l as [|y l IH]; intros [|i] Hi; simplify_eq/=; [done|]. f_equal. auto. Qed.

Lemma link_update_spec f links c h :
  links_unique links →
  (link_update f links c h = links ∧ find_link links c h = None
     ∧ Forall (λ l, lc_used l = true ∧ lc_active l = true) links)
  ∨ ∃ i old, links !! i = Some old
      ∧ link_update f links c h = <[i := f (default (fresh_link c h) (find_link links c h))]> links
      ∧ (find_link links c h = Some old ∧ link_matches c h old = true
         ∨ find_link links c h = None
           ∧ (lc_used old = false
              ∨ Forall (λ l, lc_used l = true) links ∧ lc_active old = false)).
Proof.
  intros Hu. unfold link_update, link_for_handle_locked.
  pose proof (scan_links_spec links c h 0 None) as Hscan.
  destruct (scan_links links c h 0 None) as [[i|] free].
  { destruct Hscan as (j & l & -> & Hl & Hm). right. exists j, l. simpl.
    assert (find_link links c h = Some l) as Hf by (apply find_link_iff; eauto).
    rewrite Hf. simpl. split_and!; [done|by apply list_alter_found|by left]. }
  destruct Hscan as [Hnone Hfree]. rewrite Hnone.
  assert (Hins : ∀ j old, links !! j = Some old →
    alter f j (<[j := fresh_link c h]> links) = <[j := f (fresh_link c h)]> links).
  { intros j old Hj. rewrite (list_alter_found _ _ _ (fresh_link c h)).
    - apply list_insert_insert_eq.
    - apply list_lookup_insert_eq. by eapply lookup_lt_Some. }
  destruct free as [i|].
  { destruct Hfree as (j & l & -> & Hl & Hm). right. exists j, l. simpl.
    split_and!; [done|by eapply Hins|]. right. auto. }
  pose proof (first_inactive_spec links 0) as Hin.
  destruct (first_inactive links 0) as [i|].
  - destruct Hin as (j & l & -> & Hl & Hm). right. exists j, l. simpl.
    split_and!; [done|by eapply Hins|]. right. auto.
  - left. split_and!; [done|done|]. apply Forall_and. done.
Qed.

Definition same_key (f : LsmBluetoothLinkCounter → LsmBluetoothLinkCounter) : Prop :=
  ∀ l, lc_used (f l) = lc_used l ∧ lc_controller_index (f l) = lc_controller_index l
       ∧ lc_handle (f l) = lc_handle l.

Lemma same_key_matches f c h l : same_key f → link_matches c h (f l) = link_matches c h l.
Proof. intros Hf. unfold link_matches. by destruct (Hf l) as (-> & -> & ->). Qed.

Lemma fresh_matches c h : link_matches c h (fresh_link c h) = true.
Proof. by apply link_matches_iff. Qed.

Lemma link_matches_key c h c' h' l :
  link_matches c h l = true → link_matches c' h' l = bool_decide (c = c' ∧ h = h').
Proof.
  intros (Hu & <- & <-)%link_matches_iff. unfold link_matches. rewrite Hu.
  destruct (Z.eqb_spec (lc_controller_index l) c'), (Z.eqb_spec (lc_handle l) h');
    simpl; symmetry; rewrite ?bool_decide_eq_true, ?bool_decide_eq_false; tauto.
Qed.

Lemma unused_matches c h l : lc_used l = false → link_matches c h l = false.
Proof. intros Hu. unfold link_matches. by rewrite Hu. Qed.

(** Updating the link of a key: what the table holds afterwards. *)
Lemma link_update_find f links c h :
  same_key f → links_unique links →
  links_unique (link_update f links c h)
  ∧ (link_update f links c h = links ∧ find_link links c h = None
       ∧ Forall (λ l, lc_used l = true ∧ lc_active l = true) links
     ∨ find_link (link_update f links c h) c h
       = Some (f (default (fresh_link c h) (find_link links c h))))
  ∧ ∀ c' h', ¬ (c = c' ∧ h = h') →
      find_link (link_update f links c h) c' h' = find_link links c' h'
      ∨ (∃ old, find_link links c' h' = Some old ∧ lc_active old = false)
        ∧ Forall (λ l, lc_used l = true) links ∧ find_link links c h = None
        ∧ find_link (link_update f links c h) c' h' = None.
Proof.
  intros Hf Hu. destruct (link_update_spec f links c h Hu) as [(Hsame & Hn & Hall)|Hrep].
  { rewrite Hsame. split; [done|]. split; [by left|]. intros. by left. }
  destruct Hrep as (i & old & Hi & -> & Hold).
  set (x := default (fresh_link c h) (find_link links c h)).
  assert (link_matches c h (f x) = true) as Hx.
  { rewrite same_key_matches by done. subst x. destruct Hold as [[-> Hm]|[-> _]]; [done|].
    apply fresh_matches. }
  assert (Hu' : links_unique (<[i:=f x]> links)).
  { apply (insert_unique _ _ c h); [done..|]. intros j l Hl Hm.
    destruct Hold as [[_ Hmo]|[Hn _]]; [by eapply Hu|].
    rewrite find_link_none in Hn. by rewrite (Hn j l Hl) in Hm. }
  split_and!; [done| |].
  - right. erewrite find_link_insert by done. by rewrite Hx.
  - intros c' h' Hne. erewrite find_link_insert by done.
    rewrite (link_matches_key c h) by done. rewrite bool_decide_eq_false_2 by done.
    destruct (link_matches c' h' old) eqn:Eo; [|by left].
    destruct Hold as [[_ Hm]|[Hn [Huse|[Hall Ha]]]].
    + rewrite (link_matches_key c h) in Eo by done. by apply bool_decide_eq_true in Eo.
    + by rewrite unused_matches in Eo.
    + right. split_and!; [|done..]. exists old. split; [|done]. apply find_link_iff; eauto.
Qed.

Lemma link_update_length f links c h :
  links_unique links → length (link_update f links c h) = length links.
Proof.
  intros Hu. destruct (link_update_spec f links c h Hu) as [(-> & _)|(i & old & _ & -> & _)];
    [done|apply length_insert].
Qed.

Lemma link_update_u64 f links c h :
  (∀ l, link_u64 l → link_u64 (f l)) → links_unique links → Forall link_u64 links →
  Forall link_u64 (link_update f links c h).
Proof.
  intros Hf Hu Hall. destruct (link_update_spec f links c h Hu) as [(-> & _)|(i & old & Hi & -> & _)];
    [done|]. apply Forall_insert; [done|]. apply Hf.
  destruct (find_link links c h) as [l|] eqn:E; simpl.
  - apply find_link_some in E as (j & Hj & _). eapply Forall_lookup_1 in Hall; eauto.
  - split; unfold u64, uint64_max; simpl; lia.
Qed.

Section table_facts.
Context `{ArithmeticLaws}.

Lemma add_bytes_same_key p : same_key (add_bytes p).
Proof. intros l. unfold add_bytes. by destruct (bp_receive p). Qed.

Lemma u64_min a : 0 <= a → u64 (Z.min uint64_max a).
Proof. unfold u64, uint64_max. lia. Qed.

(** What accounting one packet does to its link. *)
Lemma add_bytes_spec p l :
  u64 (bp_payload_bytes p) → link_u64 l →
  lc_rx_bytes (add_bytes p l)
    = Z.min uint64_max (lc_rx_bytes l + (if bp_receive p then bp_payload_bytes p else 0))
  ∧ lc_tx_bytes (add_bytes p l)
    = Z.min uint64_max (lc_tx_bytes l + (if bp_receive p then 0 else bp_payload_bytes p))
  ∧ lc_address (add_bytes p l) = lc_address l ∧ lc_active (add_bytes p l) = lc_active l.
Proof.
  intros Hp [Hr Ht]. unfold add_bytes, u64 in *.
  destruct (bp_receive p); cbn; rewrite add_saturating_spec by done; split_and!;
    (reflexivity || lia).
Qed.

Lemma add_bytes_u64 p l : u64 (bp_payload_bytes p) → link_u64 l → link_u64 (add_bytes p l).
Proof.
  intros Hp Hl. destruct (add_bytes_spec p l Hp Hl) as (Hr & Ht & _).
  destruct Hl. split; rewrite ?Hr, ?Ht; apply u64_min; unfold u64 in *; destruct (bp_receive p); lia.
Qed.

Lemma account_packet_ok links p :
  links_ok links → u64 (bp_payload_bytes p) → links_ok (account_packet links p).
Proof.
  intros [Hlen Hu H64] Hp. unfold account_packet.
  destruct (bp_payload_bytes p =? 0); [done|].
  change (links_ok (link_update (add_bytes p) links (bp_controller_index p) (bp_handle p))).
  split.
  - by rewrite link_update_length.
  - apply link_update_find; [apply add_bytes_same_key|done].
  - apply link_update_u64; [|done..]. intros l. by apply add_bytes_u64.
Qed.

(** (C34) Accounting a packet is an insertion into a bounded map from
    controller and handle to counters.  The table stays well formed; the bytes
    are added, saturating at 2^64-1, to exactly the link of the packet and to
    exactly its direction, starting from zero for a new handle; every other
    link is untouched, except that in a table with no unused slot a new handle
    may take the slot of one that is not active.  The packet is dropped only
    when all 128 slots belong to active links. *)
Theorem account_packet_spec links p :
  links_ok links → u64 (bp_payload_bytes p) → bp_payload_bytes p ≠ 0 →
  links_ok (account_packet links p)
  ∧ (account_packet links p = links
       ∧ find_link links (bp_controller_index p) (bp_handle p) = None
       ∧ Forall (λ l, lc_used l = true ∧ lc_active l = true) links
     ∨ ∃ l', find_link (account_packet links p) (bp_controller_index p) (bp_handle p) = Some l'
         ∧ let l := default (fresh_link (bp_controller_index p) (bp_handle p))
                      (find_link links (bp_controller_index p) (bp_handle p)) in
           lc_rx_bytes l'
             = Z.min uint64_max (lc_rx_bytes l + (if bp_receive p then bp_payload_bytes p else 0))
           ∧ lc_tx_bytes l'
             = Z.min uint64_max (lc_tx_bytes l + (if bp_receive p then 0 else bp_payload_bytes p))
           ∧ lc_address l' = lc_address l ∧ lc_active l' = lc_active l)
  ∧ ∀ c h, ¬ (bp_controller_index p = c ∧ bp_handle p = h) →
      find_link (account_packet links p) c h = find_link links c h
      ∨ (∃ old, find_link links c h = Some old ∧ lc_active old = false)
        ∧ Forall (λ l, lc_used l = true) links
        ∧ find_link links (bp_controller_index p) (bp_handle p) = None
        ∧ find_link (account_packet links p) c h = None.
Proof.
  intros Hok Hp Hne. split; [by apply account_packet_ok|].
  assert (account_packet links p
    = link_update (add_bytes p) links (bp_controller_index p) (bp_handle p)) as ->.
  { unfold account_packet. by destruct (Z.eqb_spec (bp_payload_bytes p) 0). }
  destruct (link_update_find (add_bytes p) links (bp_controller_index p) (bp_handle p)
    (add_bytes_same_key p) (ok_unique _ Hok)) as (_ & Hkey & Hother).
  split; [|exact Hother]. destruct Hkey as [Hkey|Hkey]; [by left|right].
  eexists. split; [exact Hkey|]. apply add_bytes_spec; [done|].
  destruct (find_link links _ _) as [l|] eqn:E; simpl.
  - apply find_link_some in E as (j & Hj & _).
    by apply (Forall_lookup_1 _ _ _ _ (ok_u64 _ Hok) Hj).
  - split; unfold u64, uint64_max; simpl; lia.
Qed.
End table_facts.

(** ** Refreshing the connections *)

Definition unused (links : list LsmBluetoothLinkCounter) : nat :=
  length (List.filter (λ l, negb (lc_used l)) links).

Definition new_handles (links : list LsmBluetoothLinkCounter) (index : Z)
    (connections : list LsmHciConnectionInfo) : nat :=
  length (List.filter (λ info, bool_decide (find_link links index (hci_handle info) = None))
                      connections).

Lemma unused_insert links i old x :
  links !! i = Some old → lc_used x = true →
  (unused (<[i := x]> links) + (if lc_used old then 0 else 1) = unused links)%nat.
Proof.
  intros Hi Hx. revert i Hi. unfold unused.
  induction links as [|l links IH]; intros [|i] Hi; simplify_eq/=.
  - rewrite Hx. simpl. destruct (lc_used old); simpl; lia.
  - specialize (IH i Hi). destruct (lc_used l); simpl in *; lia.
Qed.

Lemma unused_pos links : (0 < unused links)%nat → ¬ Forall (λ l, lc_used l = true) links.
Proof.
  unfold unused. induction links as [|l links IH]; simpl; [lia|].
  intros Hpos [Hl Hall]%Forall_cons. rewrite Hl in Hpos. simpl in Hpos. by apply IH.
Qed.

Lemma find_link_map f links c h :
  same_key f → find_link (f <$> links) c h = f <$> find_link links c h.
Proof.
  intros Hf. unfold find_link. induction links as [|l links IH]; simpl; [done|].
  rewrite same_key_matches by done. by destruct (link_matches c h l).
Qed.

Lemma map_unique f links : same_key f → links_unique links → links_unique (f <$> links).
Proof.
  intros Hf Hu i j a b c h Ha Hb Hma Hmb.
  rewrite list_lookup_fmap in Ha, Hb.
  apply fmap_Some in Ha as (a0 & Ha & ->). apply fmap_Some in Hb as (b0 & Hb & ->).
  rewrite same_key_matches in Hma, Hmb by done. eauto.
Qed.

Lemma deactivate_same_key index : same_key (deactivate index).
Proof. intros l. unfold deactivate. by destruct (_ && _). Qed.

(** Where there is room, an update neither evicts nor drops. *)
Lemma link_update_room f links c h :
  same_key f → links_unique links →
  (find_link links c h = None → 0 < unused links)%nat →
  find_link (link_update f links c h) c h = Some (f (default (fresh_link c h) (find_link links c h)))
  ∧ (∀ c' h', ¬ (c = c' ∧ h = h') →
       find_link (link_update f links c h) c' h' = find_link links c' h')
  ∧ (unused links ≤ unused (link_update f links c h)
       + (if bool_decide (find_link links c h = None) then 1 else 0))%nat.
Proof.
  intros Hf Hu Hroom.
  assert (Hnot : find_link links c h = None → ¬ Forall (λ l, lc_used l = true) links)
    by (intros Hn; by apply unused_pos, Hroom).
  destruct (link_update_find f links c h Hf Hu) as (_ & Hkey & Hother). split_and!.
  - destruct Hkey as [(_ & Hn & Hall)|Hkey]; [|done]. destruct (Hnot Hn).
    eapply Forall_impl; [exact Hall|]. by intros l [? _].
  - intros c' h' Hne. destruct (Hother c' h' Hne) as [|(_ & Hall & Hn & _)]; [done|].
    by destruct (Hnot Hn).
  - destruct (link_update_spec f links c h Hu) as [(-> & _)|(i & old & Hi & -> & Hold)]; [lia|].
    assert (Hx : lc_used (f (default (fresh_link c h) (find_link links c h))) = true).
    { destruct (Hf (default (fresh_link c h) (find_link links c h))) as (-> & _).
      destruct Hold as [[-> (? & _)%link_matches_iff]|[-> _]]; done. }
    pose proof (unused_insert links i old _ Hi Hx) as Hc.
    destruct Hold as [[_ (Huse & _)%link_matches_iff]|[Hn _]].
    + rewrite Huse in Hc. lia.
    + rewrite bool_decide_eq_true_2 by done. destruct (lc_used old); lia.
Qed.

Section refresh_facts.
Context `{TextOps, NumberOps}.

Lemma bind_link_same_key remote : same_key (bind_link remote).
Proof. intros l. unfold bind_link. by destruct (_ && _). Qed.

Lemma bind_link_u64 remote l : link_u64 l → link_u64 (bind_link remote l).
Proof.
  unfold bind_link. destruct (_ && _); [|done]. intros _.
  split; unfold u64, uint64_max; simpl; lia.
Qed.

Lemma bind_connection_update index links info :
  bind_connection index links info
  = link_update (bind_link (address_string (hci_address info))) links index (hci_handle info).
Proof. reflexivity. Qed.

Lemma new_handles_ext links links' index connections :
  (∀ info, info ∈ connections →
     find_link links' index (hci_handle info) = find_link links index (hci_handle info)) →
  new_handles links' index connections = new_handles links index connections.
Proof.
  unfold new_handles. induction connections as [|info l IH]; intros Hext; [done|].
  simpl. rewrite Hext by apply list_elem_of_here.
  assert (length (List.filter (λ info, bool_decide (find_link links' index (hci_handle info) = None)) l)
    = length (List.filter (λ info, bool_decide (find_link links index (hci_handle info) = None)) l)) as IH'.
  { apply IH. intros. apply Hext. by apply list_elem_of_further. }
  destruct (bool_decide _); simpl; by rewrite ?IH'.
Qed.

Lemma bind_connections_spec index connections links :
  links_unique links → NoDup (hci_handle <$> connections) →
  (new_handles links index connections ≤ unused links)%nat →
  let links' := foldl (bind_connection index) links connections in
  (∀ info, info ∈ connections →
     find_link links' index (hci_handle info)
     = Some (bind_link (address_string (hci_address info))
               (default (fresh_link index (hci_handle info))
                  (find_link links index (hci_handle info)))))
  ∧ ∀ c h, ¬ (c = index ∧ h ∈ hci_handle <$> connections) →
      find_link links' c h = find_link links c h.
Proof.
  revert links. induction connections as [|info l IH]; intros links Hu Hnd Hroom; simpl.
  { split; [|done]. intros ? Hin. by apply not_elem_of_nil in Hin. }
  cbn [fmap list_fmap] in Hnd. apply NoDup_cons in Hnd as [Hnin Hnd].
  assert (Hnew : new_handles links index (info :: l)
    = ((if bool_decide (find_link links index (hci_handle info) = None) then 1 else 0)
       + new_handles links index l)%nat).
  { unfold new_handles. simpl. by destruct (bool_decide _). }
  rewrite Hnew in Hroom. rewrite bind_connection_update.
  set (f := bind_link (address_string (hci_address info))).
  destruct (link_update_room f links index (hci_handle info)) as (Hkey & Hother & Hcount);
    [apply bind_link_same_key|done| |].
  { intros Hn. rewrite bool_decide_eq_true_2 in Hroom by done. lia. }
  assert (Hl : ∀ info', info' ∈ l → hci_handle info ≠ hci_handle info').
  { intros info' Hin E. apply Hnin. rewrite E. by apply list_elem_of_fmap_2. }
  destruct (IH (link_update f links index (hci_handle info))) as [Hin Hout].
  - apply link_update_find; [apply bind_link_same_key|done].
  - done.
  - rewrite (new_handles_ext links); [lia|]. intros info' Hi. apply Hother.
    intros [_ E]. by apply (Hl info' Hi).
  - split.
    + intros info' [->|Hi]%elem_of_cons.
      * rewrite Hout; [exact Hkey|]. intros [_ ?]. by apply Hnin.
      * rewrite Hin by done. rewrite Hother; [done|]. intros [_ E]. by apply (Hl info' Hi).
    + intros c h Hne. rewrite Hout, Hother; [done| |].
      * intros [<- <-]. apply Hne. split; [done|]. apply list_elem_of_here.
      * intros [-> Hh]. apply Hne. split; [done|]. by apply list_elem_of_further.
Qed.

Lemma bind_connections_ok index connections links :
  links_ok links → links_ok (foldl (bind_connection index) links connections).
Proof.
  revert links. induction connections as [|info l IH]; intros links [Hlen Hu H64]; simpl; [by split|].
  apply IH. rewrite bind_connection_update. split.
  - by rewrite link_update_length.
  - apply link_update_find; [apply bind_link_same_key|done].
  - apply link_update_u64; [apply bind_link_u64|done..].
Qed.

Lemma deactivate_ok index links : links_ok links → links_ok (deactivate index <$> links).
Proof.
  intros [Hlen Hu H64]. split.
  - by rewrite length_fmap.
  - apply map_unique; [apply deactivate_same_key|done].
  - apply Forall_fmap. eapply Forall_impl; [exact H64|]. intros l Hl.
    unfold compose, deactivate. by destruct (_ && _).
Qed.

Lemma refresh_ok cap controller list cap' ok :
  lsm_bluetooth_traffic_refresh_connections cap controller list = (cap', ok) →
  links_ok (cap_links cap) → links_ok (cap_links cap').
Proof.
  unfold lsm_bluetooth_traffic_refresh_connections. intros E Hok.
  destruct (controller_index controller), list; simplify_eq/=; try done.
  by apply bind_connections_ok, deactivate_ok.
Qed.

Lemma deactivate_unused index links : unused (deactivate index <$> links) = unused links.
Proof.
  unfold unused. induction links as [|l links IH]; [done|].
  rewrite fmap_cons. cbn [List.filter].
  destruct (deactivate_same_key index l) as (-> & _ & _).
  destruct (lc_used l); cbn [negb length]; by rewrite IH.
Qed.

(** What a refresh makes of the link of a current connection. *)
Definition rebound (index : Z) (info : LsmHciConnectionInfo)
    (before : option LsmBluetoothLinkCounter) (after : LsmBluetoothLinkCounter) : Prop :=
  let remote := address_string (hci_address info) in
  lc_active after = true ∧ lc_address after = lsm_copy_string 32 remote
  ∧ match before with
    | None => lc_rx_bytes after = 0 ∧ lc_tx_bytes after = 0
    | Some l =>
        if nonempty (lc_address l) && negb (lsm_ascii_equal_ci (lc_address l) remote)
        then lc_rx_bytes after = 0 ∧ lc_tx_bytes after = 0
        else lc_rx_bytes after = lc_rx_bytes l ∧ lc_tx_bytes after = lc_tx_bytes l
    end.

Lemma bind_link_rebound index info before :
  rebound index info (deactivate index <$> before)
    (bind_link (address_string (hci_address info))
       (default (fresh_link index (hci_handle info)) (deactivate index <$> before))) .
Proof.
  destruct before as [l|]; [|done]. cbn [fmap option_fmap option_map default].
  unfold rebound, bind_link. by destruct (nonempty _ && negb _).
Qed.

Lemma rebound_deactivate index info before after :
  rebound index info (deactivate index <$> before) after → rebound index info before after.
Proof.
  destruct before as [l|]; [|done]. cbn [fmap option_fmap option_map]. unfold rebound, deactivate.
  by destruct (lc_used l && _).
Qed.

(** A refresh with room for the new handles binds every reported
    handle to its address and marks it active, keeps the counters of a handle
    that still belongs to the same address, starts from zero when the handle is
    new or was reused for another address, marks the controller's other links
    inactive and leaves every other controller's links alone. *)
Theorem refresh_binds_handles cap controller index connections :
  links_ok (cap_links cap) → controller_index controller = Some index →
  NoDup (hci_handle <$> connections) →
  (new_handles (cap_links cap) index connections ≤ unused (cap_links cap))%nat →
  ∃ cap', lsm_bluetooth_traffic_refresh_connections cap controller (Some connections) = (cap', true)
    ∧ links_ok (cap_links cap')
    ∧ (∀ info, info ∈ connections → ∃ after,
         find_link (cap_links cap') index (hci_handle info) = Some after
         ∧ rebound index info (find_link (cap_links cap) index (hci_handle info)) after)
    ∧ (∀ h, h ∉ hci_handle <$> connections →
         find_link (cap_links cap') index h
         = (λ l, l <| lc_active := false |>) <$> find_link (cap_links cap) index h)
    ∧ ∀ c h, c ≠ index → find_link (cap_links cap') c h = find_link (cap_links cap) c h.
Proof.
  intros Hok Hindex Hnd Hroom.
  pose proof (deactivate_same_key index) as Hsk.
  destruct (bind_connections_spec index connections (deactivate index <$> cap_links cap))
    as [Hin Hout]; [apply map_unique; [done|apply Hok]|done| |].
  { rewrite deactivate_unused. unfold new_handles in *. erewrite filter_ext; [exact Hroom|].
    intros info. apply bool_decide_ext. rewrite find_link_map by done. apply fmap_None. }
  unfold lsm_bluetooth_traffic_refresh_connections. rewrite Hindex.
  eexists. split; [done|]. simpl. split_and!.
  - by apply bind_connections_ok, deactivate_ok.
  - intros info Hi. eexists. split; [by apply Hin|]. rewrite find_link_map by done.
    apply rebound_deactivate, bind_link_rebound.
  - intros h Hh. rewrite Hout by tauto. rewrite find_link_map by done.
    destruct (find_link (cap_links cap) index h) as [l|] eqn:E; [|done]. simpl.
    apply find_link_some in E as (i & _ & (Hu & Hc & _)%link_matches_iff).
    unfold deactivate.
    replace (lc_used l && (lc_controller_index l =? index)) with true; [done|].
    by rewrite Hu, Hc, Z.eqb_refl.
  - intros c h Hc. rewrite Hout by tauto. rewrite find_link_map by done.
    destruct (find_link (cap_links cap) c h) as [l|] eqn:E; [|done]. simpl.
    apply find_link_some in E as (i & _ & (Hu & <- & _)%link_matches_iff).
    unfold deactivate. destruct (Z.eqb_spec (lc_controller_index l) index); [done|].
    by rewrite andb_false_r.
Qed.
End refresh_facts.

(** ** Reading a device *)

Definition attributed `{TextOps} (index : Z) (address : string) (l : LsmBluetoothLinkCounter) : bool :=
  lc_used l && (lc_controller_index l =? index) && nonempty (lc_address l)
  && lsm_ascii_equal_ci (lc_address l) address.

Definition total (field : LsmBluetoothLinkCounter → Z) (links : list LsmBluetoothLinkCounter) : Z :=
  foldr (λ l sum, field l + sum) 0 links.
#[local] Arguments total : simpl never.

Section read_facts.
Context `{ArithmeticLaws, TextOps, NumberOps}.

Lemma total_nonneg field links :
  Forall (λ l, 0 <= field l) links → 0 <= total field links.
Proof. induction 1; [done|]. unfold total in *. simpl in *. lia. Qed.

Lemma total_cons field l links : total field (l :: links) = field l + total field links.
Proof. reflexivity. Qed.

Lemma read_slots_total index address links counters :
  Forall link_u64 links → u64 (tc_rx_bytes counters) → u64 (tc_tx_bytes counters) →
  0 <= tc_link_count counters → tc_link_count counters + Z.of_nat (length links) <= uint_max →
  let mine := List.filter (attributed index address) links in
  foldl (read_slot index address) counters links
  = {| tc_rx_bytes := Z.min uint64_max (tc_rx_bytes counters + total lc_rx_bytes mine);
       tc_tx_bytes := Z.min uint64_max (tc_tx_bytes counters + total lc_tx_bytes mine);
       tc_link_count := tc_link_count counters
                        + Z.of_nat (length (List.filter lc_active mine)) |}.
Proof.
  revert counters. induction links as [|l links IH]; intros counters Hall Hrx Htx Hc0 Hc; simpl.
  { destruct counters as [rx tx n]. unfold u64, total in *. simpl in *. f_equal; lia. }
  apply Forall_cons in Hall as [[Hlr Hlt] Hall]. simpl in Hc.
  assert (Hskip : read_slot index address counters l
    = if attributed index address l
      then counters
        <| tc_rx_bytes := Z.min uint64_max (tc_rx_bytes counters + lc_rx_bytes l) |>
        <| tc_tx_bytes := Z.min uint64_max (tc_tx_bytes counters + lc_tx_bytes l) |>
        <| tc_link_count := tc_link_count counters + (if lc_active l then 1 else 0) |>
      else counters).
  { unfold read_slot, attributed. rewrite <-!negb_andb.
    destruct (lc_used l && _ && _ && _); [|done]. cbn [negb].
    destruct counters as [rx tx n]. cbn in Hc, Hrx, Htx |- *.
    rewrite !add_saturating_spec by done.
    destruct (Z.ltb_spec n uint_max); [|lia].
    destruct (lc_active l); cbn; [done|]. f_equal. lia. }
  rewrite Hskip. destruct (attributed index address l).
  - assert (0 <= total lc_rx_bytes (List.filter (attributed index address) links)
            ∧ 0 <= total lc_tx_bytes (List.filter (attributed index address) links)) as [Hr Ht].
    { split; apply total_nonneg, Forall_forall; intros x Hin%list_elem_of_In%List.filter_In;
        destruct Hin as [Hin%list_elem_of_In _];
        destruct (proj1 (Forall_forall _ _) Hall x Hin) as [[] []]; lia. }
    unfold u64 in *. rewrite IH; cbn; unfold u64; try (done || lia);
      [|destruct (lc_active l); lia..].
    rewrite !total_cons. f_equal; [lia..|]. destruct (lc_active l); cbn [length]; lia.
  - apply IH; try done. lia.
Qed.

Lemma filter_pos {A} (p : A → bool) l :
  (0 <? Z.of_nat (length (List.filter p l))) = existsb p l.
Proof.
  induction l as [|x l IH]; [done|]. cbn [List.filter existsb]. destruct (p x); [|done].
  cbn [length orb]. apply Z.ltb_lt. lia.
Qed.

(** While the capture is available, the counters of a device are the
    sums, saturating at 2^64-1, of the links of its controller bound to its
    address, and it is reported as connected exactly when one of them is
    active. *)
Theorem read_device_totals cap controller address index counters :
  links_ok (cap_links cap) → nonempty address = true →
  controller_index controller = Some index → cap_capture_available cap = true →
  let mine := List.filter (attributed index address) (cap_links cap) in
  lsm_bluetooth_traffic_read_device cap controller address counters
  = ({| tc_rx_bytes := Z.min uint64_max (total lc_rx_bytes mine);
        tc_tx_bytes := Z.min uint64_max (total lc_tx_bytes mine);
        tc_link_count := Z.of_nat (length (List.filter lc_active mine)) |},
     existsb lc_active mine).
Proof.
  intros [Hlen _ H64] Ha Hi Hav mine. unfold lsm_bluetooth_traffic_read_device.
  rewrite Ha, Hi, Hav. cbn [negb andb].
  rewrite read_slots_total; [|done|unfold u64, uint64_max; simpl; lia..|].
  2: { rewrite Hlen. done. }
  cbn [tc_link_count tc_rx_bytes tc_tx_bytes counters_zero]. rewrite !Z.add_0_l. f_equal.
  fold mine. apply filter_pos.
Qed.
End read_facts.

(** ** Lifecycle *)

Section lifecycle.
Context `{ArithmeticLaws, TextLaws, NumberOps, ByteLaws}.

Definition stopped (s : System) : Prop :=
  cap_thread_started (sys_cap s) = false ∧ cap_monitor_fd (sys_cap s) = -1
  ∧ sys_reader s = NoReader ∧ sys_detached s = false.

Definition running (s : System) (d : Z) : Prop :=
  cap_thread_started (sys_cap s) = true ∧ 0 <= d ∧ cap_monitor_fd (sys_cap s) = d
  ∧ sys_open s = {[d]} ∧ sys_reader s ≠ NoReader ∧ sys_capabilities s = false.

(** What holds of descriptors, threads and capabilities at each point of the
    control thread. *)
Definition phase_inv (s : System) : Prop :=
  match sys_control s with
  | Idle => stopped s ∧ sys_open s = ∅ ∨ ∃ d, running s d
  | StartSocket => stopped s ∧ sys_open s = ∅
  | StartDrop d bound =>
      stopped s ∧ sys_open s = (if 0 <=? d then {[d]} else ∅) ∧ (bound = true → 0 <= d)
  | StartPublish d => stopped s ∧ 0 <= d ∧ sys_open s = {[d]} ∧ sys_capabilities s = false
  | StopJoin d => running s d ∧ sys_detached s = false
  | StopFinish =>
      sys_reader s = NoReader ∧ sys_open s = ∅ ∧ sys_detached s = false
      ∧ sys_capabilities s = false
  end.

Record system_inv (s : System) : Prop := {
  inv_links : links_ok (cap_links (sys_cap s));
  inv_phase : phase_inv s;
  (** the descriptor the reader blocks on is the published one *)
  inv_recv d : sys_reader s = ReaderRecv d → d = cap_monitor_fd (sys_cap s);
  inv_packet p : sys_reader s = ReaderPacket p → u64 (bp_payload_bytes p);
}.

Lemma links_zero_ok : links_ok links_zero.
Proof.
  split.
  - apply length_replicate.
  - intros i j a b c h Ha _ Hm _. apply lookup_replicate in Ha as [-> _]. done.
  - apply Forall_replicate. split; unfold u64, uint64_max; simpl; lia.
Qed.

Lemma close_open d : close_fd d (if 0 <=? d then {[d]} else ∅) = ∅.
Proof. unfold close_fd. destruct (0 <=? d); [apply difference_diag_L|done]. Qed.

Lemma close_singleton d : 0 <= d → close_fd d {[d]} = ∅.
Proof. intros Hd. pose proof (close_open d) as E. by destruct (Z.leb_spec 0 d); [|lia]. Qed.

Lemma phase_reader_change s reader :
  phase_inv s → sys_reader s ≠ NoReader → reader ≠ NoReader →
  phase_inv (s <| sys_reader := reader |>).
Proof.
  intros Hp Hr Hr'. unfold phase_inv, stopped, running in *. cbn.
  destruct (sys_control s); [|tauto..].
  destruct Hp as [Hp|(d & Hd)]; [tauto|]. right. exists d. tauto.
Qed.

Lemma phase_cap_change s cap :
  phase_inv s → cap_thread_started cap = cap_thread_started (sys_cap s) →
  cap_monitor_fd cap = cap_monitor_fd (sys_cap s) →
  phase_inv (s <| sys_cap := cap |>).
Proof.
  intros Hp E1 E2. unfold phase_inv, stopped, running in *. cbn. by rewrite E1, E2.
Qed.

Lemma received_packet r p :
  reader_received r = Some (ReaderPacket p) → u64 (bp_payload_bytes p).
Proof.
  destruct r as [| |bytes]; simpl; try done.
  destruct (parse_frames bytes) as (q & -> & Hs & _). simpl.
  destruct q as [q|]; intros; simplify_eq.
  pose proof (frame_payload _ _ (Hs p eq_refl)). unfold u64, uint64_max, uint16_max in *. lia.
Qed.

Lemma received_running r reader d :
  reader_received r = Some reader → reader ≠ NoReader ∧ reader ≠ ReaderRecv d.
Proof.
  destruct r as [| |bytes]; simpl; intros E; simplify_eq; [done..|].
  destruct (lsm_bluetooth_traffic_parse_monitor bytes) as [[p|]|]; by simplify_eq/=.
Qed.

Lemma refresh_fields cap controller list cap' ok :
  lsm_bluetooth_traffic_refresh_connections cap controller list = (cap', ok) →
  cap_thread_started cap' = cap_thread_started cap ∧ cap_monitor_fd cap' = cap_monitor_fd cap.
Proof.
  unfold lsm_bluetooth_traffic_refresh_connections.
  destruct (controller_index controller), list; intros; by simplify_eq/=.
Qed.

Lemma system_inv_initial : system_inv system_initial.
Proof. split; [apply links_zero_ok|by left|done..]. Qed.

(** The reader and the collector preserve the invariant. *)
Lemma reader_inv s s' :
  system_inv s →
  (sys_reader s = ReaderTop ∧ s' = s <| sys_reader := reader_top (sys_cap s) |>)
  ∨ (∃ d r reader, sys_reader s = ReaderRecv d ∧ reader_received r = Some reader
       ∧ s' = s <| sys_reader := reader |>)
  ∨ (sys_reader s = ReaderFailed
       ∧ s' = s <| sys_cap := sys_cap s <| cap_capture_available := false |> |>
                <| sys_reader := ReaderExited |>)
  ∨ (∃ p, sys_reader s = ReaderPacket p
       ∧ s' = s <| sys_cap := sys_cap s
                   <| cap_links := account_packet (cap_links (sys_cap s)) p |> |>
                <| sys_reader := ReaderTop |>) →
  system_inv s'.
Proof.
  intros [Hl Hp Hr Hk].
  intros [[E ->]|[(d & r & reader & E & Er & ->)|[[E ->]|(p & E & ->)]]].
  - unfold reader_top. split; cbn; try done.
    + apply phase_reader_change; [done|congruence|by destruct (_ || _)].
    + intros d. destruct (_ || _); congruence.
    + intros p. by destruct (_ || _).
  - pose proof (received_running r reader) as Hrun. split; cbn; try done.
    + apply phase_reader_change; [done|congruence|by destruct (Hrun 0 Er)].
    + intros e ->. by destruct (Hrun e Er).
    + intros p ->. by eapply received_packet.
  - split; cbn; try done.
    apply phase_reader_change; [by apply phase_cap_change|cbn; congruence|done].
  - split; cbn; try done.
    + apply account_packet_ok; [done|]. by apply Hk.
    + apply phase_reader_change; [by apply phase_cap_change|cbn; congruence|done].
Qed.

(** Steps of a control thread that has no reader. *)
Lemma stopped_inv s :
  links_ok (cap_links (sys_cap s)) → phase_inv s → sys_reader s = NoReader → system_inv s.
Proof. intros Hl Hp Hn. split; [done|done|intros; congruence..]. Qed.

Lemma bluetooth_step_inv s s' : step s s' → system_inv s → system_inv s'.
Proof.
  intros Hstep Hi. pose proof Hi as [Hl Hp Hr Hk].
  destruct Hstep as
    [s cap E Ed Eb|s E Ed Eb|s d b E Hd Hn|s E|s d b E|s d E|s d E|s d E|s d E
    |s cap d E Ed Eb|s cap d E Ed Eb|s d E Ex|s d E|s E|s E|s d r reader E Er|s E|s p E
    |s c l cap ok Er];
    try (unfold phase_inv in Hp; rewrite E in Hp).
  all: try (apply (reader_inv s); [done|eauto 10]; fail).
  - unfold start_begin in Eb. destruct (cap_thread_started (sys_cap s)) eqn:Et; simplify_eq/=.
    destruct Hp as [[Hst Ho]|(d & Hd)]; [|destruct Hd; congruence].
    apply stopped_inv; [apply links_zero_ok|unfold phase_inv, stopped in *; cbn; tauto|apply Hst].
  - done.
  - destruct Hp as [Hst Ho]. apply stopped_inv; [done| |apply Hst].
    unfold phase_inv. cbn. rewrite Ho, union_empty_r_L. by destruct (Z.leb_spec 0 d); [|lia].
  - destruct Hp as [Hst Ho]. apply stopped_inv; [done| |apply Hst]. unfold phase_inv. cbn. by rewrite Ho.
  - destruct Hp as (Hst & Ho & _). apply stopped_inv; [done| |apply Hst].
    unfold phase_inv. cbn. left. by rewrite Ho, close_open.
  - destruct Hp as (Hst & Ho & Hb). apply stopped_inv; [done| |apply Hst].
    specialize (Hb eq_refl). unfold phase_inv. cbn. rewrite Ho.
    by destruct (Z.leb_spec 0 d); [|lia].
  - destruct Hp as (Hst & Ho & _). apply stopped_inv; [done| |apply Hst].
    unfold phase_inv. cbn. left. by rewrite Ho, close_open.
  - destruct Hp as (Hst & Hd & Ho & Hc). split; cbn; try done.
    right. exists d. unfold running. cbn. split_and!; (done || tauto).
  - destruct Hp as (Hst & Hd & Ho & Hc). apply stopped_inv; [done| |apply Hst].
    unfold phase_inv. cbn. left. rewrite Ho, close_singleton by done. split; [|done].
    destruct Hst as (? & _ & ? & ?). done.
  - unfold stop_begin in Eb. destruct (cap_thread_started (sys_cap s)) eqn:Et; simplify_eq/=.
    destruct Hp as [[[Hst _] _]|(d & Hd)]; [congruence|]. split; cbn; try done.
    unfold running in *. cbn. destruct Hd as (? & ? & -> & ?). tauto.
  - unfold stop_begin in Eb. destruct (cap_thread_started (sys_cap s)) eqn:Et; simplify_eq/=.
    destruct Hp as [[Hst Ho]|(d & Hd)]; [|destruct Hd; congruence].
    apply stopped_inv; [done| |apply Hst]. unfold phase_inv. cbn. rewrite E. left.
    destruct Hst as (? & -> & ?). rewrite Ho. done.
  - destruct Hp as [(Ht & Hd & Hm & Ho & Hn & Hc) Hdet]. apply stopped_inv; [done| |done].
    unfold phase_inv. cbn. rewrite Ho, close_singleton by done. done.
  - destruct Hp as [Hrun Hdet]. split; cbn; try done. right. by exists d.
  - destruct Hp as (Hn & Ho & Hd & Hc). apply stopped_inv; [apply links_zero_ok| |done].
    unfold phase_inv. cbn. left. done.
  - destruct (refresh_fields _ _ _ _ _ Er) as [E1 E2]. split; cbn; try done.
    + by eapply refresh_ok.
    + by apply phase_cap_change.
    + intros d E. rewrite E2. by apply Hr.
Qed.

Lemma phase_open s d :
  phase_inv s → sys_reader s ≠ NoReader → d = cap_monitor_fd (sys_cap s) → d ∈ sys_open s.
Proof.
  unfold phase_inv, stopped, running. intros Hp Hn ->.
  destruct (sys_control s); [destruct Hp as [|(e & Hp)]|..]; try tauto;
    decompose [and] Hp; simplify_eq; set_solver.
Qed.

Lemma phase_capabilities s :
  phase_inv s → sys_capabilities s = true →
  sys_reader s = NoReader ∧ cap_monitor_fd (sys_cap s) = -1.
Proof.
  unfold phase_inv, stopped, running. intros Hp Hc.
  destruct (sys_control s); [destruct Hp as [|(e & Hp)]|..]; try tauto;
    decompose [and] Hp; congruence.
Qed.

(** The descriptors the module answers for: the one start holds between opening its
    socket and publishing it, and then the published one for as long as a reader is
    recorded. *)
Definition held (s : System) : gset Z :=
  match sys_control s with
  | StartSocket | StopFinish => ∅
  | StartDrop descriptor _ => if 0 <=? descriptor then {[descriptor]} else ∅
  | StartPublish descriptor => {[descriptor]}
  | Idle | StopJoin _ => if cap_thread_started (sys_cap s) then {[cap_monitor_fd (sys_cap s)]} else ∅
  end.

Lemma phase_held s : phase_inv s → sys_open s = held s.
Proof.
  unfold phase_inv, stopped, running, held. intros Hp.
  destruct (sys_control s); [destruct Hp as [Hp|(d & Hp)]|..]; decompose [and] Hp; repeat case_match; congruence.
Qed.

(** While capabilities are held, the descriptor start has just opened is the only
    one there can be, and nothing reads from it. *)
Lemma phase_privileged s d : phase_inv s → sys_capabilities s = true → d ∈ sys_open s →
  ∃ bound, sys_control s = StartDrop d bound ∧ sys_open s = {[d]}.
Proof.
  assert (Hnone : d ∈ sys_open s → sys_open s ≠ ∅) by (intros Hd E; rewrite E in Hd; by apply not_elem_of_empty in Hd).
  unfold phase_inv, stopped, running. intros Hp Hc Hd.
  destruct (sys_control s) as [| |e bound|e|e|].
  - destruct Hp as [(_ & Ho)|(e & Hp)]; [by destruct (Hnone Hd)|decompose [and] Hp; congruence].
  - destruct Hp as [_ Ho]. by destruct (Hnone Hd).
  - destruct Hp as (_ & Ho & _). exists bound. destruct (0 <=? e); [|by destruct (Hnone Hd)].
    rewrite Ho in Hd. apply elem_of_singleton in Hd as ->. done.
  - decompose [and] Hp; congruence.
  - decompose [and] Hp; congruence.
  - decompose [and] Hp; congruence.
Qed.

(** A stop that timed out leaves the reader what it may still be using. *)
Lemma phase_detached s : phase_inv s → sys_detached s = true →
  sys_control s = Idle ∧ cap_thread_started (sys_cap s) = true ∧ sys_open s = {[cap_monitor_fd (sys_cap s)]}.
Proof.
  unfold phase_inv, stopped, running. intros Hp Hd.
  destruct (sys_control s); [destruct Hp as [Hp|(e & Hp)]|..]; decompose [and] Hp; try congruence.
  split_and!; congruence.
Qed.

(** (C12) In every interleaving of start, stop, the packet reader and the
    collector: the reader only receives on a descriptor that is open, so none is
    closed under it.  Exactly the descriptors the module answers for are open:
    the one a start has opened and not yet published or closed, and the published
    one from then until its reader was joined.  While the process holds its
    capabilities there is no reader and no descriptor is published; one can be
    open only inside a start, between its socket and the drop, and nothing else
    knows it.  A control thread that returned with no capture recorded left no
    descriptor and no thread; a stop whose join timed out is the exception, and
    leaves the descriptor open and recorded for the reader it detached.  The link
    table is well formed. *)
Theorem bluetooth_lifecycle_safe s :
  reachable s →
  (∀ d, sys_reader s = ReaderRecv d → d ∈ sys_open s)
  ∧ sys_open s = held s
  ∧ (sys_capabilities s = true →
       sys_reader s = NoReader ∧ cap_monitor_fd (sys_cap s) = -1
       ∧ ∀ d, d ∈ sys_open s → ∃ bound, sys_control s = StartDrop d bound ∧ sys_open s = {[d]})
  ∧ (sys_control s = Idle → cap_thread_started (sys_cap s) = false →
       sys_open s = ∅ ∧ sys_reader s = NoReader)
  ∧ (sys_detached s = true →
       sys_control s = Idle ∧ cap_thread_started (sys_cap s) = true
       ∧ sys_open s = {[cap_monitor_fd (sys_cap s)]})
  ∧ links_ok (cap_links (sys_cap s)).
Proof.
  intros Hreach. assert (system_inv s) as [Hl Hp Hr _].
  { revert Hreach. unfold reachable. generalize system_inv_initial.
    intros Hinit Hrtc. induction Hrtc as [|s1 s2 s3 Hs _ IH]; [done|]. by apply IH, (bluetooth_step_inv s1). }
  split_and!; [|by apply phase_held| | |by apply phase_detached|done].
  - intros d Hd. specialize (Hr d Hd). apply (phase_open s); [done|congruence|done].
  - intros Hc. destruct (phase_capabilities s Hp Hc) as [Hn Hf]. split_and!; [done|done|].
    intros d. by apply phase_privileged.
  - intros Hidle Hst. unfold phase_inv in Hp. rewrite Hidle in Hp.
    destruct Hp as [[(_ & _ & Hn & _) Ho]|(d & Ht & _)]; [done|congruence].
Qed.
End lifecycle.

(** ** Witnesses and a counterexample *)

From S2P Require Import CommonReference.

Definition bytes_of (l : list Z) : table := (λ z, default Byte.x00 (Byte.of_N (Z.to_N z))) <$> l.

(** Controller 1 receives 5 ACL bytes on handle 11 with flags 2. *)
Definition sample_frame : table := bytes_of [5; 0; 1; 0; 9; 0; 11; 32; 5; 0; 1; 2; 3; 4; 5].

Lemma monitor_parse_spec_witness :
  ∃ r, lsm_bluetooth_traffic_parse_monitor sample_frame = Some r
    ∧ (r = Some {| bp_controller_index := 1; bp_handle := 11; bp_payload_bytes := 5;
                   bp_receive := true |}
       → monitor_frame sample_frame {| bp_controller_index := 1; bp_handle := 11;
                                       bp_payload_bytes := 5; bp_receive := true |}).
Proof.
  destruct (monitor_parse_spec sample_frame) as (r & Hr & Hiff). exists r.
  split; [exact Hr|]. intros Hp. exact (proj1 (proj1 (Hiff _) Hp)).
Defined.

Example sample_frame_decoded :
  lsm_bluetooth_traffic_parse_monitor sample_frame
  = Some (Some {| bp_controller_index := 1; bp_handle := 11; bp_payload_bytes := 5;
                  bp_receive := true |}).
Proof. reflexivity. Qed.

Definition sample_packet : LsmBluetoothMonitorPacket :=
  {| bp_controller_index := 0; bp_handle := 1; bp_payload_bytes := 5; bp_receive := true |}.

Lemma account_packet_spec_witness : links_ok (account_packet links_zero sample_packet).
Proof.
  destruct (account_packet_spec links_zero sample_packet) as [Hok _].
  - apply links_zero_ok.
  - unfold u64, uint64_max. simpl. lia.
  - discriminate.
  - exact Hok.
Defined.

Definition sample_cap : LsmBluetoothCaptureState :=
  capture_initial <| cap_capture_available := true |>.
Definition sample_connection : LsmHciConnectionInfo :=
  {| hci_handle := 1; hci_address := [6; 5; 4; 3; 2; 171] |}.

Lemma refresh_binds_handles_witness :
  ∃ cap', lsm_bluetooth_traffic_refresh_connections sample_cap "hci0" (Some [sample_connection])
          = (cap', true) ∧ links_ok (cap_links cap').
Proof.
  destruct (refresh_binds_handles sample_cap "hci0" 0 [sample_connection])
    as (cap' & E & Hok & _).
  - apply links_zero_ok.
  - reflexivity.
  - apply NoDup_singleton.
  - vm_compute. lia.
  - exists cap'. exact (conj E Hok).
Defined.

Definition sample_link : LsmBluetoothLinkCounter :=
  {| lc_controller_index := 0; lc_handle := 1; lc_address := "AB:02:03:04:05:06";
     lc_rx_bytes := 1000; lc_tx_bytes := 7; lc_active := true; lc_used := true |}.
Definition sample_linked : LsmBluetoothCaptureState :=
  sample_cap <| cap_links := <[0%nat := sample_link]> links_zero |>.

Lemma sample_linked_ok : links_ok (cap_links sample_linked).
Proof.
  split.
  - reflexivity.
  - apply (insert_unique _ _ 0 1); [apply links_zero_ok|done|].
    intros j l Hl. apply lookup_replicate in Hl as [-> _]. done.
  - apply Forall_insert; [apply links_zero_ok|]. split; unfold u64, uint64_max; simpl; lia.
Qed.

Lemma read_device_totals_witness :
  lsm_bluetooth_traffic_read_device sample_linked "hci0" "ab:02:03:04:05:06" counters_zero
  = ({| tc_rx_bytes := 1000; tc_tx_bytes := 7; tc_link_count := 1 |}, true).
Proof.
  rewrite (read_device_totals sample_linked "hci0" "ab:02:03:04:05:06" 0 counters_zero).
  - reflexivity.
  - apply sample_linked_ok.
  - reflexivity.
  - reflexivity.
  - reflexivity.
Defined.

Definition sample_running : System :=
  {| sys_cap := (start_publish capture_initial 7 true).1; sys_control := Idle;
     sys_reader := ReaderRecv 7; sys_detached := false; sys_open := {[7]} ∪ ∅;
     sys_capabilities := false |}.

Lemma sample_running_reachable : reachable sample_running.
Proof.
  unfold reachable. eapply rtc_l; [by eapply step_start|].
  eapply rtc_l; [apply (step_socket _ 7 true); [done|lia|apply not_elem_of_empty]|].
  eapply rtc_l; [by apply (step_drop _ 7)|].
  eapply rtc_l; [by apply (step_publish _ 7)|].
  eapply rtc_l; [by eapply step_reader_top|]. apply rtc_refl.
Qed.

Lemma bluetooth_lifecycle_safe_witness : 7 ∈ sys_open sample_running.
Proof.
  destruct (bluetooth_lifecycle_safe sample_running) as [Hrecv _].
  - apply sample_running_reachable.
  - exact (Hrecv 7 eq_refl).
Defined.

(** A full table: the live link of handle 1 and 127 stale links of handles the
    controller no longer uses. *)
Definition stale_links : list LsmBluetoothLinkCounter :=
  (λ h, sample_link <| lc_handle := Z.of_nat h |> <| lc_active := false |>) <$> seq 2 127.
Definition full_cap : LsmBluetoothCaptureState :=
  sample_cap <| cap_links := sample_link :: stale_links |>.

(** Without room a refresh can lose a live link although 127 stale slots could
    be reused: every link of the controller is marked inactive before the
    handles are looked up, so the new handle 200 evicts the link of handle 1,
    which the kernel still reports, with the bytes it had counted. *)
Theorem refresh_evicts_live_link :
  let after := lsm_bluetooth_traffic_refresh_connections full_cap "hci0"
    (Some [sample_connection <| hci_handle := 200 |>; sample_connection]) in
  (λ l, (lc_rx_bytes l, lc_active l)) <$> find_link (cap_links full_cap) 0 1 = Some (1000, true)
  ∧ (λ l, (lc_rx_bytes l, lc_active l)) <$> find_link (cap_links after.1) 0 1 = Some (0, true)
  ∧ after.2 = true.
Proof. vm_compute. done. Qed.
