(* ===== verification/OverviewHistory.v ===== *)
(** * OverviewHistory: completed snapshots retained for the Overview page

    Models [src/src/overview_history.c]: a ring of 120 derived samples with
    explicit gap markers, the derivation of a sample from a monitor snapshot,
    the resolution of retained device identities against the current topology
    and the selection of the busiest processes.  The specification of the ring
    is an unbounded log of which the ring shows the last 120 entries. *)
From S2P Require Import Prelude Double CStrings Common ProcessModel MonitorTypes.
From Stdlib Require Import Sorting.Sorted.
Local Open Scope Z_scope.

Definition LSM_OVERVIEW_HISTORY_CAPACITY : nat := 120.
Definition LSM_OVERVIEW_TOP_PROCESS_COUNT : nat := 5.

(** src: overview_history.h:45-49 LsmOverviewTemperatureSource *)
Inductive LsmOverviewTemperatureSource :=
| LSM_OVERVIEW_TEMPERATURE_NONE
| LSM_OVERVIEW_TEMPERATURE_CPU
| LSM_OVERVIEW_TEMPERATURE_GPU.

(** src: overview_history.h:52-103 LsmOverviewSample *)
Record LsmOverviewSample := {
  ov_gap : bool;
  ov_generation : Z;
  ov_monotonic_seconds : double;
  ov_cpu_available : bool;
  ov_cpu_percent : double;
  ov_cpu_breakdown_available : bool;
  ov_cpu_user_percent : double;
  ov_cpu_kernel_percent : double;
  ov_memory_available : bool;
  ov_memory_percent : double;
  ov_memory_breakdown_available : bool;
  ov_memory_available_percent : double;
  ov_disk_available : bool;
  ov_disk_percent : double;
  ov_disk_read_bytes_per_sec : double;
  ov_disk_write_bytes_per_sec : double;
  ov_disk_index : Z;
  ov_disk_identity : string;
  ov_disk_name : string;
  ov_network_available : bool;
  ov_network_bytes_per_sec : double;
  ov_network_receive_bytes_per_sec : double;
  ov_network_send_bytes_per_sec : double;
  ov_network_index : Z;
  ov_network_identity : string;
  ov_network_name : string;
  ov_gpu_available : bool;
  ov_gpu_percent : double;
  ov_gpu_index : Z;
  ov_gpu_identity : string;
  ov_gpu_name : string;
  ov_temperature_available : bool;
  ov_temperature_c : double;
  ov_temperature_source : LsmOverviewTemperatureSource;
  ov_temperature_gpu_index : Z;
  ov_temperature_identity : string;
  ov_temperature_name : string;
  ov_cpu_pressure_available : bool;
  ov_cpu_pressure_percent : double;
  ov_memory_pressure_available : bool;
  ov_memory_pressure_percent : double;
  ov_io_pressure_available : bool;
  ov_io_pressure_percent : double;
}.
#[export] Instance eta_LsmOverviewSample : Eta LsmOverviewSample := λ x,
  Build_LsmOverviewSample (ov_gap x)
    (ov_generation x)
    (ov_monotonic_seconds x)
    (ov_cpu_available x)
    (ov_cpu_percent x)
    (ov_cpu_breakdown_available x)
    (ov_cpu_user_percent x)
    (ov_cpu_kernel_percent x)
    (ov_memory_available x)
    (ov_memory_percent x)
    (ov_memory_breakdown_available x)
    (ov_memory_available_percent x)
    (ov_disk_available x)
    (ov_disk_percent x)
    (ov_disk_read_bytes_per_sec x)
    (ov_disk_write_bytes_per_sec x)
    (ov_disk_index x)
    (ov_disk_identity x)
    (ov_disk_name x)
    (ov_network_available x)
    (ov_network_bytes_per_sec x)
    (ov_network_receive_bytes_per_sec x)
    (ov_network_send_bytes_per_sec x)
    (ov_network_index x)
    (ov_network_identity x)
    (ov_network_name x)
    (ov_gpu_available x)
    (ov_gpu_percent x)
    (ov_gpu_index x)
    (ov_gpu_identity x)
    (ov_gpu_name x)
    (ov_temperature_available x)
    (ov_temperature_c x)
    (ov_temperature_source x)
    (ov_temperature_gpu_index x)
    (ov_temperature_identity x)
    (ov_temperature_name x)
    (ov_cpu_pressure_available x)
    (ov_cpu_pressure_percent x)
    (ov_memory_pressure_available x)
    (ov_memory_pressure_percent x)
    (ov_io_pressure_available x)
    (ov_io_pressure_percent x).


Definition zero_LsmOverviewSample : LsmOverviewSample :=
  Build_LsmOverviewSample false 0 d0 false d0 false d0 d0 false d0 false d0 false d0 d0 d0 0 "" ""
    false d0 d0 d0 0 "" "" false d0 0 "" "" false d0 LSM_OVERVIEW_TEMPERATURE_NONE 0 "" ""
    false d0 false d0 false d0.

(** src: overview_history.c:19-26 LsmOverviewHistory *)
Record LsmOverviewHistory := {
  oh_samples : list LsmOverviewSample;
  oh_count : nat;
  oh_next : nat;
  oh_last_generation : Z;
  oh_last_timestamp : double;
  oh_have_last : bool;
}.
#[export] Instance eta_LsmOverviewHistory : Eta LsmOverviewHistory := λ x,
  Build_LsmOverviewHistory (oh_samples x) (oh_count x) (oh_next x) (oh_last_generation x)
    (oh_last_timestamp x) (oh_have_last x).

Definition d2 : double := double_of_Z 2.
Definition dm1 : double := double_of_Z (-1).

(** src: overview_history.c bounded_percent *)
Definition bounded_percent (value : double) : double :=
  if negb (isfinite value) then d0
  else if dlt value d0 then d0
  else if dgt value d100 then d100 else value.

Section derive.
Context `{TextOps}.

(** src: overview_history.c copy_identity *)
Definition copy_identity (size : nat) (primary fallback : string) : string :=
  let source := if nonempty primary then primary
                else if nonempty fallback then fallback else "" in
  lsm_copy_string size source.

(** The loop state: activity, read and write totals and the activity count. *)
(** src: overview_history.c:73-85 derive_disk *)
Definition disk_totals (acc : double * double * double * Z) (disk : LsmDiskInfo)
    : double * double * double * Z :=
  let '(activity_total, read_total, write_total, activity_count) := acc in
  let '(activity_total, activity_count) :=
    if isfinite (disk_active_percent disk) && dge (disk_active_percent disk) d0
    then (dadd activity_total (bounded_percent (disk_active_percent disk)), activity_count + 1)
    else (activity_total, activity_count) in
  let read_total :=
    if isfinite (disk_read_bytes_per_sec disk) && dge (disk_read_bytes_per_sec disk) d0
    then dadd read_total (disk_read_bytes_per_sec disk) else read_total in
  let write_total :=
    if isfinite (disk_write_bytes_per_sec disk) && dge (disk_write_bytes_per_sec disk) d0
    then dadd write_total (disk_write_bytes_per_sec disk) else write_total in
  (activity_total, read_total, write_total, activity_count).

(** The used cells of a fixed array with a count. *)
Definition used {A} (cells : list A) (count : Z) : list A := take (Z.to_nat count) cells.

(** src: overview_history.c derive_disk *)
Definition derive_disk (monitor : LsmMonitor) (sample : LsmOverviewSample) : LsmOverviewSample :=
  if mon_disk_count monitor =? 0 then sample
  else
    let '(activity_total, read_total, write_total, activity_count) :=
      foldl disk_totals (d0, d0, d0, 0) (used (mon_disks monitor) (mon_disk_count monitor)) in
    if activity_count =? 0 then sample
    else sample
      <| ov_disk_available := true |>
      <| ov_disk_percent := bounded_percent (ddiv activity_total (double_of_Z activity_count)) |>
      <| ov_disk_read_bytes_per_sec := read_total |>
      <| ov_disk_write_bytes_per_sec := write_total |>
      <| ov_disk_index := size_max |> <| ov_disk_identity := "" |> <| ov_disk_name := "" |>.

(** The selection loop of the network and GPU cards: [rate] is [None] where the
    loop continues; the first of the largest rates wins. *)
(** src: overview_history.c:110-123 derive_network *)
Fixpoint busiest_loop {A} (rate : A → option double) (cells : list A) (index : nat)
    (busiest : option nat) (busiest_rate : double) : option nat * double :=
  match cells with
  | [] => (busiest, busiest_rate)
  | cell :: cells =>
      match rate cell with
      | None => busiest_loop rate cells (S index) busiest busiest_rate
      | Some r =>
          if negb (bool_decide (is_Some busiest)) || dgt r busiest_rate
          then busiest_loop rate cells (S index) (Some index) r
          else busiest_loop rate cells (S index) busiest busiest_rate
      end
  end.

(** src: overview_history.c:114-118 derive_network *)
Definition net_rate (net : LsmNetInfo) : option double :=
  if negb (isfinite (net_rx_bytes_per_sec net)) || negb (isfinite (net_tx_bytes_per_sec net))
     || dlt (net_rx_bytes_per_sec net) d0 || dlt (net_tx_bytes_per_sec net) d0
  then None
  else Some (dadd (net_rx_bytes_per_sec net) (net_tx_bytes_per_sec net)).

Definition net_label (net : LsmNetInfo) : string :=
  if nonempty (net_product net) then net_product net else net_name net.

(** src: overview_history.c derive_network *)
Definition derive_network (monitor : LsmMonitor) (sample : LsmOverviewSample) : LsmOverviewSample :=
  if mon_net_count monitor =? 0 then sample
  else
    let nets := used (mon_nets monitor) (mon_net_count monitor) in
    match (busiest_loop net_rate nets 0 None dm1).1 with
    | None => sample
    | Some busiest =>
        let net := nth busiest nets zero_LsmNetInfo in
        sample
          <| ov_network_available := true |>
          <| ov_network_receive_bytes_per_sec := net_rx_bytes_per_sec net |>
          <| ov_network_send_bytes_per_sec := net_tx_bytes_per_sec net |>
          <| ov_network_bytes_per_sec := dadd (net_rx_bytes_per_sec net) (net_tx_bytes_per_sec net) |>
          <| ov_network_index := Z.of_nat busiest |>
          <| ov_network_identity := copy_identity LSM_IDENTITY_LEN (net_mac net) (net_name net) |>
          <| ov_network_name := lsm_copy_string LSM_NAME_LEN (net_label net) |>
    end.

(** src: overview_history.c:150-153 derive_gpu *)
Definition gpu_rate (gpu : LsmGpuInfo) : option double :=
  if negb (gpu_utilization_available gpu) || negb (isfinite (gpu_utilization_percent gpu))
  then None else Some (bounded_percent (gpu_utilization_percent gpu)).

Definition gpu_label (gpu : LsmGpuInfo) : string :=
  if nonempty (gpu_name gpu) then gpu_name gpu else gpu_display_identifier gpu.

(** src: overview_history.c derive_gpu *)
Definition derive_gpu (monitor : LsmMonitor) (sample : LsmOverviewSample) : LsmOverviewSample :=
  if mon_gpu_count monitor =? 0 then sample
  else
    let gpus := used (mon_gpus monitor) (mon_gpu_count monitor) in
    match busiest_loop gpu_rate gpus 0 None dm1 with
    | (None, _) => sample
    | (Some busiest, busiest_usage) =>
        let gpu := nth busiest gpus zero_LsmGpuInfo in
        sample
          <| ov_gpu_available := true |> <| ov_gpu_percent := busiest_usage |>
          <| ov_gpu_index := Z.of_nat busiest |>
          <| ov_gpu_identity :=
               copy_identity LSM_IDENTITY_LEN (gpu_platform_identity gpu) (gpu_display_identifier gpu) |>
          <| ov_gpu_name := lsm_copy_string LSM_NAME_LEN (gpu_label gpu) |>
    end.

(** src: overview_history.c:188-206 derive_temperature *)
Fixpoint gpu_temperature_loop (gpus : list LsmGpuInfo) (index : nat) (sample : LsmOverviewSample)
    : LsmOverviewSample :=
  match gpus with
  | [] => sample
  | gpu :: gpus =>
      gpu_temperature_loop gpus (S index)
        (if negb (gpu_temperature_available gpu) || negb (isfinite (gpu_temperature_c gpu))
         then sample
         else if negb (ov_temperature_available sample)
                 || dgt (gpu_temperature_c gpu) (ov_temperature_c sample)
         then sample
           <| ov_temperature_available := true |>
           <| ov_temperature_c := gpu_temperature_c gpu |>
           <| ov_temperature_source := LSM_OVERVIEW_TEMPERATURE_GPU |>
           <| ov_temperature_gpu_index := Z.of_nat index |>
           <| ov_temperature_identity :=
                copy_identity LSM_IDENTITY_LEN (gpu_platform_identity gpu)
                              (gpu_display_identifier gpu) |>
           <| ov_temperature_name := lsm_copy_string LSM_NAME_LEN (gpu_label gpu) |>
         else sample)
  end.

(** src: overview_history.c derive_temperature *)
Definition derive_temperature (monitor : LsmMonitor) (sample : LsmOverviewSample)
    : LsmOverviewSample :=
  let cpu := mon_cpu monitor in
  let sample :=
    if cpu_temperature_available cpu && isfinite (cpu_temperature_c cpu)
    then sample
      <| ov_temperature_available := true |>
      <| ov_temperature_c := cpu_temperature_c cpu |>
      <| ov_temperature_source := LSM_OVERVIEW_TEMPERATURE_CPU |>
      <| ov_temperature_name :=
           lsm_copy_string LSM_NAME_LEN (if nonempty (cpu_model cpu) then cpu_model cpu else "CPU") |>
    else sample in
  gpu_temperature_loop (used (mon_gpus monitor) (mon_gpu_count monitor)) 0 sample.

(** src: overview_history.c:217-242 derive_sample *)
Definition derive_usage (monitor : LsmMonitor) (sample : LsmOverviewSample) : LsmOverviewSample :=
  let cpu := mon_cpu monitor in
  let memory := mon_memory monitor in
  let sample :=
    if cpu_usage_available cpu && isfinite (cpu_usage_percent cpu)
    then sample <| ov_cpu_available := true |>
                <| ov_cpu_percent := bounded_percent (cpu_usage_percent cpu) |>
    else sample in
  let sample :=
    if cpu_usage_available cpu && isfinite (cpu_user_percent cpu)
       && isfinite (cpu_kernel_percent cpu)
    then sample <| ov_cpu_breakdown_available := true |>
                <| ov_cpu_user_percent := bounded_percent (cpu_user_percent cpu) |>
                <| ov_cpu_kernel_percent := bounded_percent (cpu_kernel_percent cpu) |>
    else sample in
  if (0 <? mem_total_bytes memory) && isfinite (mem_usage_percent memory)
  then
    let sample := sample <| ov_memory_available := true |>
                         <| ov_memory_percent := bounded_percent (mem_usage_percent memory) |> in
    if mem_available_bytes memory <=? mem_total_bytes memory
    then sample <| ov_memory_breakdown_available := true |>
                <| ov_memory_available_percent := bounded_percent
                     (ddiv (dmul d100 (double_of_Z (mem_available_bytes memory)))
                           (double_of_Z (mem_total_bytes memory))) |>
    else sample
  else sample.

(** [available && isfinite(some_avg10)] of one pressure file. *)
(** src: overview_history.c:249-266 derive_sample *)
Definition derive_pressure (monitor : LsmMonitor) (sample : LsmOverviewSample)
    : LsmOverviewSample :=
  let valid p := psi_available p && isfinite (psi_some_avg10 p) in
  let sample :=
    if valid (mon_cpu_pressure monitor)
    then sample <| ov_cpu_pressure_available := true |>
                <| ov_cpu_pressure_percent :=
                     bounded_percent (psi_some_avg10 (mon_cpu_pressure monitor)) |>
    else sample in
  let sample :=
    if valid (mon_memory_pressure monitor)
    then sample <| ov_memory_pressure_available := true |>
                <| ov_memory_pressure_percent :=
                     bounded_percent (psi_some_avg10 (mon_memory_pressure monitor)) |>
    else sample in
  if valid (mon_io_pressure monitor)
  then sample <| ov_io_pressure_available := true |>
              <| ov_io_pressure_percent :=
                   bounded_percent (psi_some_avg10 (mon_io_pressure monitor)) |>
  else sample.

(** src: overview_history.c derive_sample *)
Definition derive_sample (monitor : LsmMonitor) : LsmOverviewSample :=
  let sample := zero_LsmOverviewSample
    <| ov_generation := mon_sample_generation monitor |>
    <| ov_monotonic_seconds := mon_sample_monotonic_seconds monitor |> in
  let sample := derive_usage monitor sample in
  let sample := derive_disk monitor sample in
  let sample := derive_network monitor sample in
  let sample := derive_gpu monitor sample in
  let sample := derive_temperature monitor sample in
  derive_pressure monitor sample.

(** ** The ring *)

(** src: overview_history.c history_push *)
Definition history_push (history : LsmOverviewHistory) (sample : LsmOverviewSample)
    : LsmOverviewHistory :=
  let history := history <| oh_samples := <[oh_next history := sample]> (oh_samples history) |> in
  let history := history
    <| oh_next := ((oh_next history + 1) mod LSM_OVERVIEW_HISTORY_CAPACITY)%nat |> in
  if (oh_count history <? LSM_OVERVIEW_HISTORY_CAPACITY)%nat
  then history <| oh_count := S (oh_count history) |> else history.

(** src: overview_history.c history_slot *)
Definition history_slot (history : LsmOverviewHistory) (index : nat) : nat :=
  let oldest := ((oh_next history + LSM_OVERVIEW_HISTORY_CAPACITY - oh_count history)
                   mod LSM_OVERVIEW_HISTORY_CAPACITY)%nat in
  ((oldest + index) mod LSM_OVERVIEW_HISTORY_CAPACITY)%nat.

(** Also what [lsm_overview_history_create] allocates. *)
(** src: overview_history.c lsm_overview_history_reset *)
Definition lsm_overview_history_reset : LsmOverviewHistory :=
  {| oh_samples := replicate LSM_OVERVIEW_HISTORY_CAPACITY zero_LsmOverviewSample;
     oh_count := 0; oh_next := 0; oh_last_generation := 0; oh_last_timestamp := d0;
     oh_have_last := false |}.

(** src: overview_history.c:303-309 lsm_overview_history_record *)
Definition gap_sample (history : LsmOverviewHistory) (monitor : LsmMonitor) : LsmOverviewSample :=
  zero_LsmOverviewSample <| ov_gap := true |>
    <| ov_monotonic_seconds :=
         dadd (oh_last_timestamp history)
              (ddiv (dsub (mon_sample_monotonic_seconds monitor) (oh_last_timestamp history)) d2) |>.

(** src: overview_history.c:299-301 lsm_overview_history_record *)
Definition next_generation (last : Z) : Z := if last =? uint64_max then 1 else last + 1.

(** src: overview_history.c lsm_overview_history_record *)
Definition lsm_overview_history_record (history : LsmOverviewHistory) (monitor : LsmMonitor)
    : LsmOverviewHistory * bool :=
  let generation := mon_sample_generation monitor in
  let seconds := mon_sample_monotonic_seconds monitor in
  if (generation =? 0) || negb (isfinite seconds) || dle seconds d0 then (history, false)
  else if oh_have_last history && (generation =? oh_last_generation history) then (history, false)
  else if oh_have_last history && dle seconds (oh_last_timestamp history) then (history, false)
  else
    let history :=
      if oh_have_last history
         && negb (generation =? next_generation (oh_last_generation history))
      then history_push history (gap_sample history monitor) else history in
    let history := history_push history (derive_sample monitor) in
    (history <| oh_last_generation := generation |> <| oh_last_timestamp := seconds |>
             <| oh_have_last := true |>, true).

(** src: overview_history.c lsm_overview_history_count *)
Definition lsm_overview_history_count (history : LsmOverviewHistory) : nat := oh_count history.

(** src: overview_history.c lsm_overview_history_get *)
Definition lsm_overview_history_get (history : LsmOverviewHistory) (index : nat)
    : option LsmOverviewSample :=
  if (oh_count history <=? index)%nat then None
  else oh_samples history !! history_slot history index.

(** src: overview_history.c lsm_overview_history_latest *)
Definition lsm_overview_history_latest (history : LsmOverviewHistory) : option LsmOverviewSample :=
  if (oh_count history =? 0)%nat then None
  else lsm_overview_history_get history (oh_count history - 1).

(** ** Resolving a retained device *)

(** src: overview_history.c identity_matches *)
Definition identity_matches (saved_identity saved_name current_identity current_name : string)
    : bool :=
  if nonempty saved_identity && nonempty current_identity
  then strcmp_eq saved_identity current_identity
  else nonempty saved_name && nonempty current_name && strcmp_eq saved_name current_name.

(** The first index of the loop that matches; [None] is [SIZE_MAX]. *)
Fixpoint first_index {A} (p : A → bool) (cells : list A) (index : nat) : option nat :=
  match cells with
  | [] => None
  | cell :: cells => if p cell then Some index else first_index p cells (S index)
  end.

(** src: overview_history.c lsm_overview_resolve_disk *)
Definition lsm_overview_resolve_disk (monitor : LsmMonitor) (sample : LsmOverviewSample)
    : option nat :=
  if negb (ov_disk_available sample) then None
  else first_index
    (λ disk, identity_matches (ov_disk_identity sample) (ov_disk_name sample)
               (disk_instance_identity disk)
               (if nonempty (disk_model disk) then disk_model disk else disk_name disk))
    (used (mon_disks monitor) (mon_disk_count monitor)) 0.

(** src: overview_history.c:381-382 lsm_overview_resolve_network *)
Definition net_identity (net : LsmNetInfo) : string :=
  if nonempty (net_mac net) then net_mac net else net_name net.

(** src: overview_history.c lsm_overview_resolve_network *)
Definition lsm_overview_resolve_network (monitor : LsmMonitor) (sample : LsmOverviewSample)
    : option nat :=
  if negb (ov_network_available sample) then None
  else first_index
    (λ net, identity_matches (ov_network_identity sample) (ov_network_name sample)
              (net_identity net) (net_label net))
    (used (mon_nets monitor) (mon_net_count monitor)) 0.

(** src: overview_history.c:400-404 lsm_overview_resolve_gpu *)
Definition gpu_identity (gpu : LsmGpuInfo) : string :=
  if nonempty (gpu_platform_identity gpu)
  then gpu_platform_identity gpu else gpu_display_identifier gpu.

(** src: overview_history.c lsm_overview_resolve_gpu *)
Definition lsm_overview_resolve_gpu (monitor : LsmMonitor) (sample : LsmOverviewSample)
    : option nat :=
  if mon_gpu_count monitor =? 0 then None
  else if negb (ov_gpu_available sample) then Some 0%nat
  else first_index
    (λ gpu, identity_matches (ov_gpu_identity sample) (ov_gpu_name sample)
              (gpu_identity gpu) (gpu_label gpu))
    (used (mon_gpus monitor) (mon_gpu_count monitor)) 0.
End derive.

(** ** The busiest processes *)

(** src: overview_history.c process_precedes *)
Definition process_precedes (left right : LsmProcessInfo) : bool :=
  if dgt (p_cpu_percent left) (p_cpu_percent right) then true
  else if dlt (p_cpu_percent left) (p_cpu_percent right) then false
  else p_pid left <? p_pid right.

Section top.
Variable processes : list LsmProcessInfo.

Definition process_at (i : nat) : LsmProcessInfo := nth i processes process_zero.

(** [while (position < selected && !process_precedes(...)) position++]; an
    unset slot of the array is [None]. *)
(** src: overview_history.c:436-441 lsm_overview_top_cpu_processes *)
Fixpoint find_position (fuel : nat) (indices : list (option nat)) (selected index position : nat)
    : nat :=
  match fuel with
  | O => position
  | S fuel =>
      if (position <? selected)%nat
         && negb (process_precedes (process_at index)
                    (process_at (default 0%nat (default None (indices !! position)))))
      then find_position fuel indices selected index (S position)
      else position
  end.

(** [for (move = limit; move > position; move--) indices[move] = indices[move - 1]] *)
(** src: overview_history.c:448-449 lsm_overview_top_cpu_processes *)
Fixpoint shift_up (move position : nat) (indices : list (option nat)) : list (option nat) :=
  match move with
  | O => indices
  | S previous =>
      if (position <? move)%nat
      then shift_up previous position (<[move := default None (indices !! previous)]> indices)
      else indices
  end.

(** One iteration of the loop. *)
(** src: overview_history.c:432-452 lsm_overview_top_cpu_processes *)
Definition top_step (state : list (option nat) * nat) (index : nat)
    : list (option nat) * nat :=
  let '(indices, selected) := state in
  let cpu := p_cpu_percent (process_at index) in
  if negb (isfinite cpu) || dlt cpu d0 then (indices, selected)
  else
    let position := find_position selected indices selected index 0 in
    if (LSM_OVERVIEW_TOP_PROCESS_COUNT <=? position)%nat then (indices, selected)
    else
      let limit := if (selected <? LSM_OVERVIEW_TOP_PROCESS_COUNT)%nat
                   then selected else (LSM_OVERVIEW_TOP_PROCESS_COUNT - 1)%nat in
      let indices := <[position := Some index]> (shift_up limit position indices) in
      (indices, if (selected <? LSM_OVERVIEW_TOP_PROCESS_COUNT)%nat then S selected else selected).

(** src: overview_history.c lsm_overview_top_cpu_processes *)
Definition lsm_overview_top_cpu_processes : list (option nat) * nat :=
  foldl top_step (replicate LSM_OVERVIEW_TOP_PROCESS_COUNT None, O)
        (seq 0 (length processes)).
End top.

(** ** The ring is the end of a log *)

#[local] Arguments Nat.leb : simpl never.
#[local] Arguments Nat.ltb : simpl never.
#[local] Arguments Nat.modulo : simpl never.

Definition oh_oldest (h : LsmOverviewHistory) : nat :=
  ((oh_next h + LSM_OVERVIEW_HISTORY_CAPACITY - oh_count h) mod LSM_OVERVIEW_HISTORY_CAPACITY)%nat.

Definition oh_window (h : LsmOverviewHistory) : list LsmOverviewSample :=
  ring_window (oh_samples h) (oh_oldest h) (oh_count h).

(** The retained end of a log. *)
Definition retained {A} (log : list A) : list A :=
  drop (length log - LSM_OVERVIEW_HISTORY_CAPACITY) log.

Record oh_wf (h : LsmOverviewHistory) : Prop := {
  oh_wf_samples : length (oh_samples h) = LSM_OVERVIEW_HISTORY_CAPACITY;
  oh_wf_count : (oh_count h ≤ LSM_OVERVIEW_HISTORY_CAPACITY)%nat;
  oh_wf_next : (oh_next h < LSM_OVERVIEW_HISTORY_CAPACITY)%nat;
}.

Lemma tail_drop {A} (l : list A) n : tail (drop n l) = drop (S n) l.
Proof. revert n. induction l as [|x l IH]; intros [|n]; simpl; [done..|by rewrite drop_0|apply IH]. Qed.

Lemma retained_snoc {A} (log : list A) x :
  retained (log ++ [x])
  = (if (length (retained log) <? LSM_OVERVIEW_HISTORY_CAPACITY)%nat
     then retained log else tail (retained log)) ++ [x].
Proof.
  unfold retained. rewrite length_app, length_drop. simpl.
  destruct (Nat.ltb_spec (length log - (length log - LSM_OVERVIEW_HISTORY_CAPACITY))
                         LSM_OVERVIEW_HISTORY_CAPACITY) as [Hl|Hl].
  - replace (length log + 1 - LSM_OVERVIEW_HISTORY_CAPACITY)%nat with 0%nat by lia.
    replace (length log - LSM_OVERVIEW_HISTORY_CAPACITY)%nat with 0%nat by lia. done.
  - replace (length log + 1 - LSM_OVERVIEW_HISTORY_CAPACITY)%nat
      with (S (length log - LSM_OVERVIEW_HISTORY_CAPACITY)) by lia.
    rewrite drop_app_le by (unfold LSM_OVERVIEW_HISTORY_CAPACITY in *; lia). f_equal.
    symmetry. apply tail_drop.
Qed.

Lemma oldest_next h :
  oh_wf h → ((oh_oldest h + oh_count h) mod LSM_OVERVIEW_HISTORY_CAPACITY)%nat = oh_next h.
Proof.
  intros [_ Hc Hn]. unfold oh_oldest. rewrite Nat.Div0.add_mod_idemp_l.
  replace (oh_next h + LSM_OVERVIEW_HISTORY_CAPACITY - oh_count h + oh_count h)%nat
    with (oh_next h + 1 * LSM_OVERVIEW_HISTORY_CAPACITY)%nat by lia.
  rewrite Nat.Div0.mod_add. by apply Nat.mod_small.
Qed.

Lemma push_wf h x : oh_wf h → oh_wf (history_push h x).
Proof.
  intros [Hl Hc Hn].
  pose proof (Nat.mod_upper_bound (oh_next h + 1) LSM_OVERVIEW_HISTORY_CAPACITY ltac:(done)).
  unfold history_push. cbn. destruct (Nat.ltb_spec (oh_count h) LSM_OVERVIEW_HISTORY_CAPACITY);
    split; cbn; rewrite ?length_insert; lia || done.
Qed.

(** A push on the ring is a push on the log. *)
Lemma push_log h x log :
  oh_wf h → oh_window h = retained log → oh_window (history_push h x) = retained (log ++ [x]).
Proof.
  intros Hwf Hw. pose proof (oldest_next h Hwf) as Hon. destruct Hwf as [Hl Hc Hn].
  assert (Hlen : length (retained log) = oh_count h).
  { rewrite <-Hw. apply ring_window_length. lia. }
  rewrite retained_snoc, Hlen, <-Hw.
  unfold history_push. cbn.
  destruct (Nat.ltb_spec (oh_count h) LSM_OVERVIEW_HISTORY_CAPACITY) as [Hlt|Hge].
  - unfold oh_window at 1. unfold oh_oldest at 1. cbn.
    replace (((oh_next h + 1) mod LSM_OVERVIEW_HISTORY_CAPACITY
              + LSM_OVERVIEW_HISTORY_CAPACITY - S (oh_count h))
             mod LSM_OVERVIEW_HISTORY_CAPACITY)%nat with (oh_oldest h).
    2: { unfold oh_oldest.
         replace ((oh_next h + 1) mod LSM_OVERVIEW_HISTORY_CAPACITY
                   + LSM_OVERVIEW_HISTORY_CAPACITY - S (oh_count h))%nat
           with ((oh_next h + 1) mod LSM_OVERVIEW_HISTORY_CAPACITY
                   + (LSM_OVERVIEW_HISTORY_CAPACITY - S (oh_count h)))%nat by lia.
         rewrite Nat.Div0.add_mod_idemp_l. f_equal. lia. }
    rewrite <-Hon, <-Hl. apply ring_window_snoc. lia.
  - assert (Hfull : oh_count h = LSM_OVERVIEW_HISTORY_CAPACITY) by lia.
    assert (Hold : oh_oldest h = oh_next h).
    { rewrite <-Hon, Hfull.
      replace (oh_oldest h + LSM_OVERVIEW_HISTORY_CAPACITY)%nat
        with (oh_oldest h + 1 * LSM_OVERVIEW_HISTORY_CAPACITY)%nat by lia.
      rewrite Nat.Div0.mod_add. symmetry. apply Nat.mod_small. unfold oh_oldest.
      by apply Nat.mod_upper_bound. }
    unfold oh_window. unfold oh_oldest at 1. cbn. rewrite Hfull, Hold.
    rewrite Nat.add_sub. rewrite Nat.Div0.mod_mod, <-Hl. apply ring_window_step. lia.
Qed.

Section log.
Context `{TextOps}.

(** What the specification keeps: everything, with the same gap markers. *)
Definition accepts (log : list LsmOverviewSample) (m : LsmMonitor) : bool :=
  negb (mon_sample_generation m =? 0) && isfinite (mon_sample_monotonic_seconds m)
  && dlt d0 (mon_sample_monotonic_seconds m)
  && match last log with
     | None => true
     | Some s => negb (mon_sample_generation m =? ov_generation s)
                 && dlt (ov_monotonic_seconds s) (mon_sample_monotonic_seconds m)
     end.

Definition gap_between (log : list LsmOverviewSample) (m : LsmMonitor) : list LsmOverviewSample :=
  match last log with
  | None => []
  | Some s =>
      if mon_sample_generation m =? next_generation (ov_generation s) then []
      else [zero_LsmOverviewSample <| ov_gap := true |>
              <| ov_monotonic_seconds :=
                   dadd (ov_monotonic_seconds s)
                     (ddiv (dsub (mon_sample_monotonic_seconds m) (ov_monotonic_seconds s)) d2) |>]
  end.

Definition log_record (log : list LsmOverviewSample) (m : LsmMonitor) : list LsmOverviewSample :=
  if accepts log m then log ++ gap_between log m ++ [derive_sample m] else log.

(** Skipped generations are explicit: neighbours that are both samples have
    consecutive generations and increasing times, and no two gaps meet. *)
Definition linked (a b : LsmOverviewSample) : Prop :=
  if ov_gap a then ov_gap b = false
  else if ov_gap b then True
  else ov_generation b = next_generation (ov_generation a)
       ∧ dlt (ov_monotonic_seconds a) (ov_monotonic_seconds b) = true.

Definition log_linked (log : list LsmOverviewSample) : Prop :=
  ∀ i a b, log !! i = Some a → log !! S i = Some b → linked a b.

Definition later (a b : LsmOverviewSample) : Prop :=
  dlt (ov_monotonic_seconds a) (ov_monotonic_seconds b) = true.

Record log_ok (log : list LsmOverviewSample) : Prop := {
  log_ok_linked : log_linked log;
  (** the times of all samples, across gaps, increase *)
  log_ok_sorted : StronglySorted later (List.filter (λ s, negb (ov_gap s)) log);
  log_ok_last s : last log = Some s →
    ov_gap s = false ∧ ov_generation s ≠ 0 ∧ isfinite (ov_monotonic_seconds s) = true;
}.

(** The derivation does not touch the header of the sample. *)
Definition header (s : LsmOverviewSample) : bool * Z * double :=
  (ov_gap s, ov_generation s, ov_monotonic_seconds s).

Lemma gpu_temperature_header gpus i s : header (gpu_temperature_loop gpus i s) = header s.
Proof.
  revert i s. induction gpus as [|gpu gpus IH]; intros i s; [done|]. cbn [gpu_temperature_loop].
  rewrite IH. destruct (_ || _); [done|]. by destruct (_ || _).
Qed.

Lemma derive_usage_header m s : header (derive_usage m s) = header s.
Proof. unfold derive_usage. cbv zeta. by repeat case_match. Qed.

Lemma derive_disk_header m s : header (derive_disk m s) = header s.
Proof. unfold derive_disk. by repeat case_match. Qed.

Lemma derive_network_header m s : header (derive_network m s) = header s.
Proof. unfold derive_network. by repeat case_match. Qed.

Lemma derive_gpu_header m s : header (derive_gpu m s) = header s.
Proof. unfold derive_gpu. by repeat case_match. Qed.

Lemma derive_temperature_header m s : header (derive_temperature m s) = header s.
Proof. unfold derive_temperature. rewrite gpu_temperature_header. by destruct (_ && _). Qed.

Lemma derive_pressure_header m s : header (derive_pressure m s) = header s.
Proof. unfold derive_pressure. cbv zeta. by repeat case_match. Qed.

Lemma derive_sample_header m :
  header (derive_sample m) = (false, mon_sample_generation m, mon_sample_monotonic_seconds m).
Proof.
  unfold derive_sample. cbv zeta.
  by rewrite derive_pressure_header, derive_temperature_header, derive_gpu_header,
    derive_network_header, derive_disk_header, derive_usage_header.
Qed.
End log.

Section log_facts.
Context `{TextOps}.

Lemma dlt_negb_dle x y : isnan x = false → isnan y = false → dlt y x = negb (dle x y).
Proof.
  intros Hx Hy. pose proof (dle_false_iff x y Hx Hy).
  destruct (dle x y), (dlt y x); intuition done.
Qed.

Lemma log_linked_snoc log x :
  log_linked log → (∀ a, last log = Some a → linked a x) → log_linked (log ++ [x]).
Proof.
  intros Hl Hx i a b Ha Hb. destruct (decide (S i < length log)%nat) as [Hi|Hi].
  - rewrite lookup_app_l in Ha, Hb by lia. by apply (Hl i).
  - assert (S i = length log) as Hlen.
    { apply lookup_lt_Some in Hb. rewrite length_app in Hb. simpl in Hb. lia. }
    rewrite lookup_app_l in Ha by lia.
    rewrite lookup_app_r, Hlen, Nat.sub_diag in Hb by lia. simplify_eq/=.
    apply Hx. rewrite last_lookup. by replace (pred (length log)) with i by lia.
Qed.

Lemma sorted_snoc l x :
  StronglySorted later l → (∀ a, last l = Some a → later a x) → StronglySorted later (l ++ [x]).
Proof.
  induction 1 as [|a l Hs IH Hall]; intros Hx; simpl; [repeat constructor|].
  assert (Hlast : ∀ b, last l = Some b → later b x).
  { intros b Hb. apply Hx. by rewrite last_cons, Hb. }
  constructor; [by apply IH|]. apply Forall_app. split; [done|]. constructor; [|done].
  destruct (last l) as [b|] eqn:E.
  - apply dlt_trans with (ov_monotonic_seconds b); [|by apply Hlast].
    apply last_Some in E as [l' ->]. apply Forall_app in Hall as [_ Hb].
    by apply Forall_inv in Hb.
  - apply last_None in E as ->. by apply Hx.
Qed.

Lemma last_filter {A} (p : A → bool) l s :
  last l = Some s → p s = true → last (List.filter p l) = Some s.
Proof.
  intros Hl Hp. apply last_Some in Hl as [l' ->]. rewrite List.filter_app. simpl. rewrite Hp.
  apply last_snoc.
Qed.

Lemma derived_fields m :
  ov_gap (derive_sample m) = false ∧ ov_generation (derive_sample m) = mon_sample_generation m
  ∧ ov_monotonic_seconds (derive_sample m) = mon_sample_monotonic_seconds m.
Proof. pose proof (derive_sample_header m) as E. unfold header in E. by simplify_eq. Qed.

Lemma log_ok_record log m : log_ok log → log_ok (log_record log m).
Proof.
  intros Hok. unfold log_record. destruct (accepts log m) eqn:Ea; [|done].
  destruct Hok as [Hlink Hsort Hlast]. destruct (derived_fields m) as (Dg & Dn & Dt).
  unfold accepts in Ea. apply andb_true_iff in Ea as [Ea Hnew].
  apply andb_true_iff in Ea as [Ea Hpos]. apply andb_true_iff in Ea as [Hgen Hfin].
  apply negb_true_iff, Z.eqb_neq in Hgen.
  set (x := derive_sample m) in *.
  assert (Hend : ∀ l s, last (l ++ [x]) = Some s →
    ov_gap s = false ∧ ov_generation s ≠ 0 ∧ isfinite (ov_monotonic_seconds s) = true).
  { intros l s. rewrite last_snoc. intros [= <-]. by rewrite Dg, Dn, Dt. }
  assert (Hsorted : StronglySorted later (List.filter (λ s, negb (ov_gap s)) log ++ [x])).
  { apply sorted_snoc; [done|]. intros a Ha. unfold later. rewrite Dt.
    destruct (last log) as [s|] eqn:E.
    - destruct (Hlast s eq_refl) as (Hg & _). apply andb_true_iff in Hnew as [_ Hnew].
      rewrite (last_filter _ log s) in Ha by (done || by rewrite Hg). by simplify_eq.
    - apply last_None in E as ->. done. }
  unfold gap_between. destruct (last log) as [s|] eqn:E.
  - destruct (Hlast s eq_refl) as (Hg & _). apply andb_true_iff in Hnew as [_ Hnew].
    destruct (Z.eqb_spec (mon_sample_generation m) (next_generation (ov_generation s))) as [En|En].
    + split; [|by rewrite List.filter_app; simpl; rewrite Dg|apply Hend].
      apply log_linked_snoc; [done|]. intros a Ha. simplify_eq. unfold linked. by rewrite Hg, Dg, Dn, Dt.
    + rewrite app_assoc. split; [| |apply Hend].
      * apply log_linked_snoc; [apply log_linked_snoc; [done|]|].
        -- intros a Ha. simplify_eq. unfold linked. by rewrite Hg.
        -- intros a. rewrite last_snoc. intros [= <-]. done.
      * rewrite !List.filter_app. simpl. rewrite Dg, app_nil_r. done.
  - rewrite app_nil_l. split; [|by rewrite List.filter_app; simpl; rewrite Dg|apply Hend].
    apply log_linked_snoc; [done|]. intros a Ha. congruence.
Qed.

(** The ring and the log it is the end of. *)
Record represents (h : LsmOverviewHistory) (log : list LsmOverviewSample) : Prop := {
  rep_wf : oh_wf h;
  rep_window : oh_window h = retained log;
  rep_have : oh_have_last h = bool_decide (log ≠ []);
  rep_last s : last log = Some s →
    oh_last_generation h = ov_generation s ∧ oh_last_timestamp h = ov_monotonic_seconds s;
}.

Lemma represents_reset : represents lsm_overview_history_reset [].
Proof. split; [split; simpl; unfold LSM_OVERVIEW_HISTORY_CAPACITY; lia|done..]. Qed.

Lemma represents_push h log x :
  oh_wf h ∧ oh_window h = retained log →
  oh_wf (history_push h x) ∧ oh_window (history_push h x) = retained (log ++ [x]).
Proof. intros [Hwf Hw]. split; [by apply push_wf|by apply push_log]. Qed.

Lemma push_last_fields h x :
  oh_have_last (history_push h x) = oh_have_last h
  ∧ oh_last_generation (history_push h x) = oh_last_generation h
  ∧ oh_last_timestamp (history_push h x) = oh_last_timestamp h.
Proof. unfold history_push. by destruct (_ <? _)%nat. Qed.

(** The code's guard is the specification's. *)
Lemma record_accepts h log m :
  represents h log → log_ok log →
  (lsm_overview_history_record h m).2 = accepts log m
  ∧ (accepts log m = false → (lsm_overview_history_record h m).1 = h).
Proof.
  intros [_ _ Hhave Hrep] Hok. unfold lsm_overview_history_record, accepts.
  destruct (Z.eqb_spec (mon_sample_generation m) 0) as [|Hg]; [done|].
  destruct (isfinite (mon_sample_monotonic_seconds m)) eqn:Hf; [|done].
  cbn [negb orb andb].
  rewrite (dlt_negb_dle _ d0) by (done || by apply isfinite_not_nan).
  destruct (dle (mon_sample_monotonic_seconds m) d0); [done|]. cbn [negb andb].
  rewrite Hhave. destruct (last log) as [s|] eqn:E.
  - rewrite bool_decide_eq_true_2 by (intros ->; done). cbn [andb].
    destruct (Hrep s eq_refl) as [-> ->]. destruct (log_ok_last _ Hok s E) as (_ & _ & Hfs).
    rewrite dlt_negb_dle by (by apply isfinite_not_nan).
    destruct (mon_sample_generation m =? ov_generation s); [done|].
    by destruct (dle (mon_sample_monotonic_seconds m) (ov_monotonic_seconds s)).
  - apply last_None in E as ->. done.
Qed.

Lemma record_represents h log m :
  represents h log → log_ok log →
  represents (lsm_overview_history_record h m).1 (log_record log m).
Proof.
  intros Hrep Hok. destruct (record_accepts h log m Hrep Hok) as [Hacc Hno].
  unfold log_record. destruct (accepts log m) eqn:Ea; [|by rewrite Hno].
  destruct Hrep as [Hwf Hw Hhave Hlast]. destruct (derived_fields m) as (_ & Dn & Dt).
  unfold lsm_overview_history_record in *.
  destruct (_ || _ || _); [done|]. destruct (_ && (_ =? _)); [done|].
  destruct (_ && dle _ _); [done|]. clear Hacc Hno. cbn [fst].
  match goal with |- represents (?h1 <| oh_last_generation := _ |> <| oh_last_timestamp := _ |>
                                    <| oh_have_last := _ |>) _ =>
    assert (Hpush : oh_wf h1 ∧ oh_window h1 = retained (log ++ gap_between log m ++ [derive_sample m]))
  end.
  { unfold gap_between. rewrite Hhave. destruct (last log) as [s|] eqn:E.
    - rewrite bool_decide_eq_true_2 by (intros ->; done). cbn [andb].
      destruct (Hlast s eq_refl) as [Eg Et]. unfold gap_sample. rewrite Eg, Et.
      destruct (mon_sample_generation m =? _); cbn [negb]; [by apply represents_push|].
      rewrite app_assoc. by apply represents_push, represents_push.
    - apply last_None in E as ->. cbn [bool_decide andb]. by apply represents_push. }
  destruct Hpush as [Hwf' Hw']. split.
  - by destruct Hwf'.
  - exact Hw'.
  - cbn. symmetry. apply bool_decide_eq_true. intros E. apply app_nil in E as [_ E].
    by apply app_nil in E as [_ E].
  - intros s. rewrite app_assoc, last_snoc. intros [= <-]. cbn. by rewrite Dn, Dt.
Qed.

Lemma record_all ms h log :
  represents h log → log_ok log →
  represents (foldl (λ h m, (lsm_overview_history_record h m).1) h ms) (foldl log_record log ms)
  ∧ log_ok (foldl log_record log ms).
Proof.
  revert h log. induction ms as [|m ms IH]; intros h log Hr Hok; [done|]. simpl.
  apply IH; [by apply record_represents|by apply log_ok_record].
Qed.

Lemma get_window h log i :
  represents h log → lsm_overview_history_get h i = retained log !! i.
Proof.
  intros [Hwf Hw _ _]. pose proof Hwf as [Hl Hc Hn]. rewrite <-Hw.
  unfold lsm_overview_history_get. destruct (Nat.leb_spec (oh_count h) i) as [Hi|Hi].
  - symmetry. apply lookup_ge_None_2. unfold oh_window. rewrite ring_window_length; lia.
  - unfold oh_window. rewrite ring_window_lookup by lia. by rewrite Hl.
Qed.

Lemma count_window h log :
  represents h log → lsm_overview_history_count h = length (retained log).
Proof.
  intros [[Hl Hc Hn] Hw _ _]. rewrite <-Hw. unfold oh_window.
  rewrite ring_window_length by lia. done.
Qed.

Lemma last_retained {A} (log : list A) : last (retained log) = last log.
Proof.
  unfold retained. destruct log as [|x log]; [done|].
  rewrite !last_lookup, lookup_drop, length_drop. f_equal.
  unfold LSM_OVERVIEW_HISTORY_CAPACITY. simpl. lia.
Qed.

(** (C18) Refinement: recording any sequence of snapshots keeps exactly
    the last 120 entries of a log that gets one entry per accepted snapshot,
    preceded by one gap marker when generations were skipped.  Reads, count and
    latest are those of that list.  In the log neighbouring samples without a
    gap between them have consecutive generations, no two gap markers meet, the
    times of the samples strictly increase and the newest entry is a sample. *)
Theorem overview_history_is_log ms :
  let h := foldl (λ h m, (lsm_overview_history_record h m).1) lsm_overview_history_reset ms in
  let log := foldl log_record [] ms in
  (∀ i, lsm_overview_history_get h i = retained log !! i)
  ∧ lsm_overview_history_count h = Nat.min LSM_OVERVIEW_HISTORY_CAPACITY (length log)
  ∧ lsm_overview_history_latest h = last log
  ∧ (∀ m, (lsm_overview_history_record h m).2 = accepts log m)
  ∧ log_ok log.
Proof.
  intros h log.
  destruct (record_all ms lsm_overview_history_reset [] represents_reset) as [Hrep Hok].
  { split; [intros i a b Ha; done|constructor|done]. }
  fold h log in Hrep. fold log in Hok.
  pose proof (count_window h log Hrep) as Hcount.
  assert (Hlen : length (retained log) = Nat.min LSM_OVERVIEW_HISTORY_CAPACITY (length log))
    by (unfold retained; rewrite length_drop; lia).
  split_and!.
  - intros i. by apply get_window.
  - by rewrite Hcount.
  - unfold lsm_overview_history_latest. rewrite (get_window h log) by done.
    rewrite <-last_retained, last_lookup. unfold lsm_overview_history_count in Hcount.
    rewrite Hcount. rewrite Nat.sub_1_r.
    destruct (Nat.eqb_spec (length (retained log)) 0) as [E|]; [|done].
    destruct (retained log); done.
  - intros m. by apply record_accepts.
  - done.
Qed.
End log_facts.

(** ** The selection is the head of a sort *)

Definition eligible (p : LsmProcessInfo) : bool :=
  isfinite (p_cpu_percent p) && negb (dlt (p_cpu_percent p) d0).

Lemma precedes_key a b :
  eligible a = true → eligible b = true →
  process_precedes a b = true ↔
  let x := dkey (p_cpu_percent a) in let y := dkey (p_cpu_percent b) in
  key_lt y x ∨ y.1.1 = x.1.1 ∧ y.1.2 = x.1.2 ∧ y.2 = x.2 ∧ p_pid a < p_pid b.
Proof.
  unfold eligible, process_precedes. intros [Ha _]%andb_true_iff [Hb _]%andb_true_iff.
  apply isfinite_not_nan in Ha, Hb. unfold dlt, SFltb. rewrite !SFcompare_key by done.
  destruct (dkey (p_cpu_percent a)) as [[a1 a2] a3], (dkey (p_cpu_percent b)) as [[b1 b2] b3].
  destruct (key_compare_spec (b1, b2, b3) (a1, a2, a3)) as [E|E|E],
    (key_compare_spec (a1, a2, a3) (b1, b2, b3)) as [E'|E'|E']; unfold key_lt in *; simpl in *;
    simplify_eq; rewrite ?Z.ltb_lt; try lia;
    split; intros; try done; try lia; try (intuition (simplify_eq; lia)); auto.
Qed.

Lemma precedes_asym a b :
  eligible a = true → eligible b = true →
  process_precedes a b = true → process_precedes b a = false.
Proof.
  intros Ha Hb Hab. apply not_true_iff_false. intros Hba.
  apply precedes_key in Hab, Hba; try done.
  unfold key_lt in *. lia.
Qed.

(** Something ahead of [x] is ahead of everything [x] is not behind. *)
Lemma precedes_before a x y :
  eligible a = true → eligible x = true → eligible y = true →
  process_precedes a x = true → process_precedes y x = false → process_precedes y a = false.
Proof.
  intros Ha Hx Hy Hax Hyx. apply not_true_iff_false. intros Hya.
  apply not_true_iff_false in Hyx. apply Hyx. apply precedes_key; try done.
  apply precedes_key in Hax, Hya; try done.
  unfold key_lt in *. lia.
Qed.

Section top_facts.
Context (processes : list LsmProcessInfo).
Abbreviation at_ := (process_at processes).

Definition eligible_indices : list nat :=
  List.filter (λ i, eligible (at_ i)) (seq 0 (length processes)).

(** The reference: insertion sort by precedence, first come first among equals. *)
Fixpoint insert_busy (k : nat) (l : list nat) : list nat :=
  match l with
  | [] => [k]
  | x :: l' => if process_precedes (at_ k) (at_ x) then k :: l else x :: insert_busy k l'
  end.
Definition sort_busy : list nat := foldl (λ l k, insert_busy k l) [] eligible_indices.

(** [i] may be shown before [j]. *)
Definition ahead (i j : nat) : Prop := process_precedes (at_ j) (at_ i) = false.

Lemma insert_busy_perm k l : Permutation (insert_busy k l) (k :: l).
Proof.
  induction l as [|x l IH]; simpl; [done|].
  destruct (process_precedes (at_ k) (at_ x)); [done|]. rewrite IH. apply Permutation_swap.
Qed.

Lemma insert_busy_sorted k l :
  eligible (at_ k) = true → Forall (λ i, eligible (at_ i) = true) l →
  StronglySorted ahead l → StronglySorted ahead (insert_busy k l).
Proof.
  intros Hk Hl. induction 1 as [|x l Hs IH Hall]; simpl; [repeat constructor|].
  apply Forall_cons in Hl as [Hx Hl].
  destruct (process_precedes (at_ k) (at_ x)) eqn:E.
  - constructor; [by constructor|]. constructor; [by apply precedes_asym|].
    rewrite !Forall_forall in *. intros y Hy.
    eapply (precedes_before (at_ k) (at_ x)); eauto. apply (Hall y Hy).
  - constructor; [by apply IH|]. rewrite insert_busy_perm. by constructor.
Qed.

Lemma insert_busy_take n k l :
  take n (insert_busy k (take n l)) = take n (insert_busy k l).
Proof.
  revert n. induction l as [|x l IH]; intros [|n]; simpl; try done.
  destruct (process_precedes (at_ k) (at_ x)); simpl; [|by rewrite IH].
  f_equal. destruct n as [|n]; [done|]. simpl. by rewrite take_take, Nat.min_l by lia.
Qed.

(** The array holds the selected indices followed by unset slots. *)
Definition slots (l : list nat) : list (option nat) :=
  (Some <$> l) ++ replicate (LSM_OVERVIEW_TOP_PROCESS_COUNT - length l) None.

Lemma slots_get l j :
  (length l ≤ LSM_OVERVIEW_TOP_PROCESS_COUNT)%nat →
  slots l !! j = if (j <? LSM_OVERVIEW_TOP_PROCESS_COUNT)%nat then Some (l !! j) else None.
Proof.
  intros Hl. unfold slots. destruct (decide (j < length l)%nat) as [Hj|Hj].
  - rewrite lookup_app_l by (rewrite length_fmap; lia). rewrite list_lookup_fmap.
    destruct (lookup_lt_is_Some_2 l j Hj) as [x ->].
    by destruct (Nat.ltb_spec j LSM_OVERVIEW_TOP_PROCESS_COUNT); [|lia].
  - rewrite lookup_app_r, length_fmap by (rewrite length_fmap; lia).
    rewrite (lookup_ge_None_2 l j) by lia.
    destruct (Nat.ltb_spec j LSM_OVERVIEW_TOP_PROCESS_COUNT).
    + apply lookup_replicate. split; [done|lia].
    + apply lookup_replicate_None. lia.
Qed.

Lemma slots_length l :
  (length l ≤ LSM_OVERVIEW_TOP_PROCESS_COUNT)%nat →
  length (slots l) = LSM_OVERVIEW_TOP_PROCESS_COUNT.
Proof. intros Hl. unfold slots. rewrite length_app, length_fmap, length_replicate. lia. Qed.

Lemma slots_lookup l j i : l !! j = Some i → slots l !! j = Some (Some i).
Proof.
  intros Hj. unfold slots.
  rewrite lookup_app_l by (rewrite length_fmap; by eapply lookup_lt_Some).
  by rewrite list_lookup_fmap, Hj.
Qed.

(** Where an insertion happens. *)
Fixpoint busy_position (k : nat) (l : list nat) : nat :=
  match l with
  | [] => 0
  | x :: l => if process_precedes (at_ k) (at_ x) then 0 else S (busy_position k l)
  end.

Lemma insert_busy_at k l :
  insert_busy k l = take (busy_position k l) l ++ k :: drop (busy_position k l) l.
Proof.
  induction l as [|x l IH]; simpl; [done|].
  destruct (process_precedes (at_ k) (at_ x)); [done|]. simpl. by rewrite IH.
Qed.

Lemma busy_position_le k l : (busy_position k l ≤ length l)%nat.
Proof. induction l; simpl; [done|]. case_match; lia. Qed.

Lemma find_position_spec k pre l fuel :
  (length l ≤ fuel)%nat →
  find_position processes fuel (slots (pre ++ l)) (length (pre ++ l)) k (length pre)
  = (length pre + busy_position k l)%nat.
Proof.
  revert pre l. induction fuel as [|fuel IH]; intros pre l Hf.
  - destruct l; simpl in *; lia.
  - cbn [find_position]. destruct l as [|x l].
    + rewrite app_nil_r, Nat.ltb_irrefl. simpl. lia.
    + rewrite length_app. destruct (Nat.ltb_spec (length pre) (length pre + length (x :: l)));
        [|simpl in *; lia].
      rewrite (slots_lookup _ _ x) by (by rewrite list_lookup_middle).
      cbn [andb default from_option id busy_position].
      destruct (process_precedes (at_ k) (at_ x)); cbn [negb]; [lia|].
      replace (S (length pre)) with (length (pre ++ [x])) by (rewrite length_app; simpl; lia).
      rewrite <-length_app.
      replace (pre ++ x :: l) with ((pre ++ [x]) ++ l) by (by rewrite <-app_assoc).
      rewrite IH by (simpl in *; lia). rewrite length_app. simpl. lia.
Qed.

Lemma shift_up_lookup move position indices j :
  (move < length indices)%nat →
  shift_up move position indices !! j =
  if (position <? j)%nat && (j <=? move)%nat then Some (default None (indices !! (j - 1)%nat))
  else indices !! j.
Proof.
  revert indices. induction move as [|move IH]; intros indices Hl; cbn [shift_up].
  - destruct (Nat.ltb_spec position j), (Nat.leb_spec j 0); simpl; (done || lia).
  - destruct (Nat.ltb_spec position (S move)) as [Hp|Hp].
    + rewrite IH by (rewrite length_insert; lia).
      destruct (Nat.ltb_spec position j), (Nat.leb_spec j move), (Nat.leb_spec j (S move)); simpl;
        try lia; try done.
      * rewrite list_lookup_insert_ne by lia. done.
      * replace j with (S move) by lia. rewrite list_lookup_insert_eq by lia.
        do 3 f_equal. lia.
      * rewrite list_lookup_insert_ne by lia. done.
      * rewrite list_lookup_insert_ne by lia. done.
    + destruct (Nat.ltb_spec position j), (Nat.leb_spec j (S move)); simpl; (done || lia).
Qed.

Lemma shift_up_length move position indices :
  length (shift_up move position indices) = length indices.
Proof.
  revert indices. induction move as [|move IH]; intros indices; cbn [shift_up]; [done|].
  destruct (position <? S move)%nat; [by rewrite IH, length_insert|done].
Qed.

(** Shifting and storing is an insertion that drops the sixth. *)
Lemma store_slots k l position :
  (length l ≤ LSM_OVERVIEW_TOP_PROCESS_COUNT)%nat →
  (position < LSM_OVERVIEW_TOP_PROCESS_COUNT)%nat → (position ≤ length l)%nat →
  <[position := Some k]>
    (shift_up (if (length l <? LSM_OVERVIEW_TOP_PROCESS_COUNT)%nat then length l
               else (LSM_OVERVIEW_TOP_PROCESS_COUNT - 1)%nat) position (slots l))
  = slots (take LSM_OVERVIEW_TOP_PROCESS_COUNT (take position l ++ k :: drop position l)).
Proof.
  intros Hl Hp Hpl. set (limit := if (_ <? _)%nat then _ else _).
  assert (Hlimit : (limit < LSM_OVERVIEW_TOP_PROCESS_COUNT)%nat
                   ∧ (limit = length l ∨ limit = LSM_OVERVIEW_TOP_PROCESS_COUNT - 1)%nat).
  { subst limit. destruct (Nat.ltb_spec (length l) LSM_OVERVIEW_TOP_PROCESS_COUNT); [lia|].
    unfold LSM_OVERVIEW_TOP_PROCESS_COUNT. lia. }
  apply list_eq. intros j. rewrite slots_get by (rewrite length_take; lia).
  assert (Hlen : length (shift_up limit position (slots l)) = LSM_OVERVIEW_TOP_PROCESS_COUNT)
    by (rewrite shift_up_length; by apply slots_length).
  destruct (Nat.ltb_spec j LSM_OVERVIEW_TOP_PROCESS_COUNT) as [Hj|Hj].
  2: { apply lookup_ge_None_2. rewrite length_insert. lia. }
  rewrite lookup_take_lt by lia.
  assert (Htl : length (take position l) = position) by (rewrite length_take; lia).
  destruct (decide (j = position)) as [->|Hne].
  - rewrite list_lookup_insert_eq by lia. f_equal. symmetry. by apply list_lookup_middle.
  - rewrite list_lookup_insert_ne by lia.
    rewrite shift_up_lookup by (rewrite slots_length by done; lia).
    rewrite !slots_get by done.
    destruct (Nat.ltb_spec position j) as [Hpj|Hpj].
    + rewrite lookup_app_r, Htl by lia.
      rewrite lookup_cons_ne_0 by lia. rewrite lookup_drop.
      replace (position + pred (j - position))%nat with (j - 1)%nat by lia.
      destruct (Nat.leb_spec j limit); cbn [andb].
      * by destruct (Nat.ltb_spec (j - 1) LSM_OVERVIEW_TOP_PROCESS_COUNT); [|lia].
      * destruct (Nat.ltb_spec j LSM_OVERVIEW_TOP_PROCESS_COUNT); [|lia].
        rewrite !lookup_ge_None_2 by lia. done.
    + cbn [andb]. rewrite lookup_app_l, lookup_take_lt by lia.
      by destruct (Nat.ltb_spec j LSM_OVERVIEW_TOP_PROCESS_COUNT); [|lia].
Qed.

Lemma top_step_slots l k :
  (length l ≤ LSM_OVERVIEW_TOP_PROCESS_COUNT)%nat →
  top_step processes (slots l, length l) k =
  let l' := if eligible (at_ k)
            then take LSM_OVERVIEW_TOP_PROCESS_COUNT (insert_busy k l) else l in
  (slots l', length l').
Proof.
  intros Hl. unfold top_step, eligible.
  destruct (isfinite (p_cpu_percent (at_ k))), (dlt (p_cpu_percent (at_ k)) d0);
    cbn [negb orb andb]; try done.
  pose proof (find_position_spec k [] l (length l) ltac:(lia)) as Hpos. simpl in Hpos.
  rewrite Hpos. pose proof (busy_position_le k l) as Hle. rewrite insert_busy_at.
  destruct (Nat.leb_spec LSM_OVERVIEW_TOP_PROCESS_COUNT (busy_position k l)) as [Hge|Hlt].
  - assert (busy_position k l = length l) as -> by lia.
    rewrite (take_ge l), (drop_ge l) by lia.
    replace LSM_OVERVIEW_TOP_PROCESS_COUNT with (length l) by lia.
    by rewrite take_app_length.
  - rewrite store_slots by done. cbv zeta. f_equal. rewrite length_take, length_app. cbn [length].
    rewrite length_take, length_drop.
    destruct (Nat.ltb_spec (length l) LSM_OVERVIEW_TOP_PROCESS_COUNT); unfold LSM_OVERVIEW_TOP_PROCESS_COUNT in *; lia.
Qed.

Lemma top_loop ks l :
  foldl (top_step processes) (slots (take LSM_OVERVIEW_TOP_PROCESS_COUNT l),
                              length (take LSM_OVERVIEW_TOP_PROCESS_COUNT l)) ks
  = let l' := foldl (λ l k, insert_busy k l) l
                (List.filter (λ i, eligible (at_ i)) ks) in
    (slots (take LSM_OVERVIEW_TOP_PROCESS_COUNT l'),
     length (take LSM_OVERVIEW_TOP_PROCESS_COUNT l')).
Proof.
  revert l. induction ks as [|k ks IH]; intros l; [done|]. cbn [foldl List.filter].
  rewrite top_step_slots by (rewrite length_take; lia). cbv zeta.
  destruct (eligible (at_ k)); [|apply IH].
  rewrite insert_busy_take. cbn [foldl]. apply IH.
Qed.

Lemma sort_busy_from l ks :
  Forall (λ i, eligible (at_ i) = true) (l ++ ks) → StronglySorted ahead l →
  Permutation (foldl (λ l k, insert_busy k l) l ks) (l ++ ks)
  ∧ StronglySorted ahead (foldl (λ l k, insert_busy k l) l ks).
Proof.
  revert l. induction ks as [|k ks IH]; intros l Hall Hs; cbn [foldl].
  { by rewrite app_nil_r. }
  apply Forall_app in Hall as [Hl Hk]. apply Forall_cons in Hk as [Hk Hks].
  destruct (IH (insert_busy k l)) as [Hp Hsort].
  - apply Forall_app. split; [|done]. rewrite insert_busy_perm. by constructor.
  - by apply insert_busy_sorted.
  - split; [|done]. rewrite Hp, insert_busy_perm. simpl. apply Permutation_middle.
Qed.

(** The busiest-process selection is the head of a sort: the array is
    the first five of the eligible processes (finite, not negative CPU) ordered
    by decreasing CPU and then by PID, followed by unset slots; no process is
    listed twice, and none that was left out precedes one that is listed. *)
Theorem top_processes_sorted :
  let top := take LSM_OVERVIEW_TOP_PROCESS_COUNT sort_busy in
  lsm_overview_top_cpu_processes processes = (slots top, length top)
  ∧ Permutation sort_busy eligible_indices ∧ StronglySorted ahead sort_busy ∧ NoDup sort_busy.
Proof.
  assert (Hel : Forall (λ i, eligible (at_ i) = true) eligible_indices).
  { apply Forall_forall. intros i Hi%list_elem_of_In%List.filter_In. by destruct Hi. }
  destruct (sort_busy_from [] eligible_indices Hel) as [Hp Hs]; [constructor|].
  fold sort_busy in Hp, Hs. split_and!; [|done|done|].
  - exact (top_loop (seq 0 (length processes)) []).
  - rewrite Hp. apply NoDup_ListNoDup, List.NoDup_filter, List.seq_NoDup.
Qed.
End top_facts.

(** ** Retained identities *)

Section resolve_facts.
Context `{TextLaws}.

Lemma busiest_loop_spec {A} (rate : A → option double) cells index best br :
  match busiest_loop rate cells index best br with
  | (None, _) => best = None ∧ ∀ c, c ∈ cells → rate c = None
  | (Some i, r) =>
      ((best = Some i ∧ r = br)
       ∨ ∃ c, cells !! (i - index)%nat = Some c ∧ (index ≤ i)%nat ∧ rate c = Some r)
      ∧ (∀ c r', c ∈ cells → rate c = Some r' → dgt r' r = false)
      ∧ (is_Some best → br = r ∨ dgt r br = true)
  end.
Proof.
  revert index best br. induction cells as [|c cells IH]; intros index best br;
    cbn [busiest_loop].
  { destruct best as [i|]; [|by split; [|intros c []%elem_of_nil]].
    split_and!; [by left|intros c r' []%elem_of_nil|by left]. }
  destruct (rate c) as [rc|] eqn:Erc.
  2: { specialize (IH (S index) best br).
       destruct (busiest_loop rate cells (S index) best br) as [[i|] r].
       - destruct IH as (Hfrom & Hmax & Hbest). split_and!; [|intros d r' [->|Hd]%elem_of_cons Hr;
           [congruence|by eapply Hmax]|done].
         destruct Hfrom as [?|(d & Hd & Hle & Hr)]; [by left|right].
         exists d. replace (i - index)%nat with (S (i - S index)) by lia. split_and!; [done|lia|done].
       - destruct IH as [-> Hall]. split; [done|].
         intros d [->|Hd]%elem_of_cons; [done|by apply Hall]. }
  destruct (negb (bool_decide (is_Some best)) || dgt rc br) eqn:Enew.
  - specialize (IH (S index) (Some index) rc).
    destruct (busiest_loop rate cells (S index) (Some index) rc) as [[i|] r];
      [|by destruct IH as [[=] _]].
    destruct IH as (Hfrom & Hmax & Hbest). destruct (Hbest ltac:(done)) as [->|Hgt].
    + split_and!.
      * right. destruct Hfrom as [[[= <-] _]|(d & Hd & Hle & Hr)].
        -- exists c. rewrite Nat.sub_diag. auto.
        -- exists d. replace (i - index)%nat with (S (i - S index)) by lia. split_and!; [done|lia|done].
      * intros d r' [->|Hd]%elem_of_cons Hr; [|by eapply Hmax]. simplify_eq. apply dlt_irrefl.
      * intros Hb. rewrite bool_decide_eq_true_2 in Enew by done. by right.
    + split_and!.
      * right. destruct Hfrom as [[_ ->]|(d & Hd & Hle & Hr)]; [by rewrite dlt_irrefl in Hgt|].
        exists d. replace (i - index)%nat with (S (i - S index)) by lia. split_and!; [done|lia|done].
      * intros d r' [->|Hd]%elem_of_cons Hr; [|by eapply Hmax]. simplify_eq. by apply dlt_asym.
      * intros Hb. rewrite bool_decide_eq_true_2 in Enew by done. right.
        simpl in Enew. by eapply dlt_trans.
  - apply orb_false_iff in Enew as [Hb Hle]. apply negb_false_iff, bool_decide_eq_true in Hb.
    specialize (IH (S index) best br).
    destruct (busiest_loop rate cells (S index) best br) as [[i|] r];
      [|destruct IH as [-> _]; by destruct Hb].
    destruct IH as (Hfrom & Hmax & Hbest). split_and!; [| |done].
    + destruct Hfrom as [?|(d & Hd & Hl & Hr)]; [by left|right].
      exists d. replace (i - index)%nat with (S (i - S index)) by lia. split_and!; [done|lia|done].
    + intros d r' [->|Hd]%elem_of_cons Hr; [|by eapply Hmax]. simplify_eq.
      destruct (Hbest Hb) as [<-|Hgt]; [done|].
      apply not_true_iff_false. intros Hr'. pose proof (dlt_trans _ _ _ Hgt Hr'). congruence.
Qed.

(** The network and GPU cards of a sample. *)
Definition network_card (s : LsmOverviewSample) :=
  (ov_network_available s, ov_network_index s, ov_network_identity s, ov_network_name s).
Definition gpu_card (s : LsmOverviewSample) :=
  (ov_gpu_available s, ov_gpu_index s, ov_gpu_identity s, ov_gpu_name s).

Lemma gpu_temperature_cards gpus i s :
  network_card (gpu_temperature_loop gpus i s) = network_card s
  ∧ gpu_card (gpu_temperature_loop gpus i s) = gpu_card s.
Proof.
  revert i s. induction gpus as [|gpu gpus IH]; intros i s; [done|]. cbn [gpu_temperature_loop].
  destruct (IH (S i) (if negb (gpu_temperature_available gpu) || negb (isfinite (gpu_temperature_c gpu))
         then s
         else if negb (ov_temperature_available s)
                 || dgt (gpu_temperature_c gpu) (ov_temperature_c s)
         then s
           <| ov_temperature_available := true |>
           <| ov_temperature_c := gpu_temperature_c gpu |>
           <| ov_temperature_source := LSM_OVERVIEW_TEMPERATURE_GPU |>
           <| ov_temperature_gpu_index := Z.of_nat i |>
           <| ov_temperature_identity :=
                copy_identity LSM_IDENTITY_LEN (gpu_platform_identity gpu)
                              (gpu_display_identifier gpu) |>
           <| ov_temperature_name := lsm_copy_string LSM_NAME_LEN (gpu_label gpu) |>
         else s)) as [-> ->].
  destruct (_ || _); [done|]. by destruct (_ || _).
Qed.

Lemma temperature_cards m s :
  network_card (derive_temperature m s) = network_card s
  ∧ gpu_card (derive_temperature m s) = gpu_card s.
Proof.
  unfold derive_temperature. cbv zeta. split.
  - rewrite (proj1 (gpu_temperature_cards _ _ _)). by destruct (_ && _).
  - rewrite (proj2 (gpu_temperature_cards _ _ _)). by destruct (_ && _).
Qed.

Lemma pressure_cards m s :
  network_card (derive_pressure m s) = network_card s ∧ gpu_card (derive_pressure m s) = gpu_card s.
Proof. unfold derive_pressure. cbv zeta. split; by repeat case_match. Qed.

Lemma usage_cards m s :
  network_card (derive_usage m s) = network_card s ∧ gpu_card (derive_usage m s) = gpu_card s.
Proof. unfold derive_usage. cbv zeta. split; by repeat case_match. Qed.

Lemma disk_cards m s :
  network_card (derive_disk m s) = network_card s ∧ gpu_card (derive_disk m s) = gpu_card s.
Proof. unfold derive_disk. split; by repeat case_match. Qed.

Lemma gpu_network_card m s : network_card (derive_gpu m s) = network_card s.
Proof. unfold derive_gpu. by repeat case_match. Qed.

Lemma network_gpu_card m s : gpu_card (derive_network m s) = gpu_card s.
Proof. unfold derive_network. by repeat case_match. Qed.

(** The selected element of a list: the first of the largest rates. *)
Definition busiest {A} (rate : A → option double) (cells : list A) (i : nat) (c : A) : Prop :=
  cells !! i = Some c ∧ ∃ r, rate c = Some r
    ∧ ∀ d r', d ∈ cells → rate d = Some r' → dgt r' r = false.

Lemma copy_identity_choice (size : nat) (primary fallback : string) :
  (String.length (if nonempty primary then primary else fallback) < size)%nat →
  copy_identity size primary fallback = if nonempty primary then primary else fallback.
Proof.
  unfold copy_identity. intros Hl. destruct (nonempty primary); [by apply copy_string_fits|].
  destruct fallback as [|c s]; [apply copy_string_fits; simpl in *; lia|by apply copy_string_fits].
Qed.

Lemma first_index_ext {A} (p q : A → bool) cells i :
  (∀ c, c ∈ cells → p c = q c) → first_index p cells i = first_index q cells i.
Proof.
  revert i. induction cells as [|c cells IH]; intros i Hpq; [done|]. simpl.
  rewrite Hpq by apply list_elem_of_here. destruct (q c); [done|].
  apply IH. intros d Hd. apply Hpq. by apply list_elem_of_further.
Qed.

Lemma busiest_of_loop {A} (rate : A → option double) (cells : list A) i r (d : A) :
  busiest_loop rate cells 0 None dm1 = (Some i, r) →
  busiest rate cells i (nth i cells d) ∧ rate (nth i cells d) = Some r.
Proof.
  intros E. pose proof (busiest_loop_spec rate cells 0 None dm1) as Hs. rewrite E in Hs.
  destruct Hs as ([[[=] _]|(c & Hc & _ & Hr)] & Hmax & _). rewrite Nat.sub_0_r in Hc.
  rewrite (nth_lookup_Some cells i d c Hc). split; [|done]. split; [done|]. eauto.
Qed.

Lemma network_card_spec m :
  ov_network_available (derive_sample m) = true →
  (∀ net, net ∈ used (mon_nets m) (mon_net_count m) →
     (String.length (net_identity net) < LSM_IDENTITY_LEN)%nat) →
  ∃ i net, busiest net_rate (used (mon_nets m) (mon_net_count m)) i net
    ∧ ov_network_index (derive_sample m) = Z.of_nat i
    ∧ ov_network_identity (derive_sample m) = net_identity net.
Proof.
  intros Hav Hfit.
  assert (Hcard : network_card (derive_sample m)
    = network_card (derive_network m (derive_disk m (derive_usage m
        (zero_LsmOverviewSample <| ov_generation := mon_sample_generation m |>
           <| ov_monotonic_seconds := mon_sample_monotonic_seconds m |>))))).
  { unfold derive_sample. cbv zeta. rewrite (proj1 (pressure_cards _ _)).
    rewrite (proj1 (temperature_cards _ _)). apply gpu_network_card. }
  set (s0 := derive_disk m _) in Hcard.
  assert (Hs0 : ov_network_available s0 = false).
  { assert (network_card s0 = network_card zero_LsmOverviewSample) as E
      by (unfold s0; rewrite (proj1 (disk_cards _ _)), (proj1 (usage_cards _ _)); done).
    unfold network_card in E. by simplify_eq. }
  unfold network_card in Hcard. injection Hcard as E1 E2 E3 _.
  rewrite E1 in Hav. rewrite E2, E3. clear E1 E2 E3. clearbody s0. revert Hav.
  unfold derive_network. destruct (_ =? 0); [by rewrite Hs0|]. cbv zeta.
  destruct (busiest_loop net_rate _ 0 None dm1) as [[i|] r] eqn:E; cbn [fst]; [|by rewrite Hs0].
  intros _. destruct (busiest_of_loop _ _ _ _ zero_LsmNetInfo E) as [Hb _].
  eexists i, _. split; [exact Hb|]. split; [done|]. cbn.
  apply copy_identity_choice, Hfit. destruct Hb as [Hi _]. by eapply list_elem_of_lookup_2.
Qed.

Lemma gpu_card_spec m :
  ov_gpu_available (derive_sample m) = true →
  (∀ gpu, gpu ∈ used (mon_gpus m) (mon_gpu_count m) →
     (String.length (gpu_identity gpu) < LSM_IDENTITY_LEN)%nat) →
  ∃ i gpu, busiest gpu_rate (used (mon_gpus m) (mon_gpu_count m)) i gpu
    ∧ ov_gpu_index (derive_sample m) = Z.of_nat i
    ∧ ov_gpu_identity (derive_sample m) = gpu_identity gpu.
Proof.
  intros Hav Hfit.
  assert (Hcard : ∃ s0, gpu_card (derive_sample m) = gpu_card (derive_gpu m s0)
                        ∧ ov_gpu_available s0 = false).
  { eexists. split.
    - unfold derive_sample. cbv zeta. rewrite (proj2 (pressure_cards _ _)).
      by rewrite (proj2 (temperature_cards _ _)).
    - match goal with |- ov_gpu_available ?s = false =>
        assert (gpu_card s = gpu_card zero_LsmOverviewSample) as E end.
      { rewrite network_gpu_card, (proj2 (disk_cards _ _)), (proj2 (usage_cards _ _)). done. }
      unfold gpu_card in E. by simplify_eq. }
  destruct Hcard as (s0 & Hcard & Hs0).
  unfold gpu_card in Hcard. injection Hcard as E1 E2 E3 _.
  rewrite E1 in Hav. rewrite E2, E3. clear E1 E2 E3. revert Hav.
  unfold derive_gpu. destruct (_ =? 0); [by rewrite Hs0|]. cbv zeta.
  destruct (busiest_loop gpu_rate _ 0 None dm1) as [[i|] r] eqn:E; [|by rewrite Hs0].
  intros _. destruct (busiest_of_loop _ _ _ _ zero_LsmGpuInfo E) as [Hb _].
  eexists i, _. split; [exact Hb|]. split; [done|]. cbn.
  apply copy_identity_choice, Hfit. destruct Hb as [Hi _]. by eapply list_elem_of_lookup_2.
Qed.

Lemma identity_matches_identity saved name current label :
  nonempty saved = true → nonempty current = true →
  identity_matches saved name current label = strcmp_eq saved current.
Proof. intros Hs Hc. unfold identity_matches. by rewrite Hs, Hc. Qed.

(** Every used device of a snapshot has an identity that fits its field. *)
Definition identified {A} (identity : A → string) (cells : list A) : Prop :=
  ∀ c, c ∈ cells → nonempty (identity c) = true
                   ∧ (String.length (identity c) < LSM_IDENTITY_LEN)%nat.

(** Hotplug and reordering cannot redirect navigation: the network
    card of a sample names the first of the adapters with the largest rate, and
    against any later topology it resolves to the first adapter with that same
    identity, and to none when the adapter is gone; likewise the GPU card. *)
Theorem overview_identity_stable m m' :
  identified net_identity (used (mon_nets m) (mon_net_count m)) →
  identified net_identity (used (mon_nets m') (mon_net_count m')) →
  identified gpu_identity (used (mon_gpus m) (mon_gpu_count m)) →
  identified gpu_identity (used (mon_gpus m') (mon_gpu_count m')) →
  (ov_network_available (derive_sample m) = true →
   ∃ i net, busiest net_rate (used (mon_nets m) (mon_net_count m)) i net
     ∧ ov_network_index (derive_sample m) = Z.of_nat i
     ∧ lsm_overview_resolve_network m' (derive_sample m)
       = first_index (λ n, strcmp_eq (net_identity net) (net_identity n))
           (used (mon_nets m') (mon_net_count m')) 0)
  ∧ (ov_gpu_available (derive_sample m) = true → mon_gpu_count m' ≠ 0 →
     ∃ i gpu, busiest gpu_rate (used (mon_gpus m) (mon_gpu_count m)) i gpu
       ∧ ov_gpu_index (derive_sample m) = Z.of_nat i
       ∧ lsm_overview_resolve_gpu m' (derive_sample m)
         = first_index (λ g, strcmp_eq (gpu_identity gpu) (gpu_identity g))
             (used (mon_gpus m') (mon_gpu_count m')) 0).
Proof.
  intros Hn Hn' Hg Hg'. split.
  - intros Hav. destruct (network_card_spec m Hav) as (i & net & Hb & Hi & Hid);
      [intros net Hin; by apply Hn|].
    exists i, net. split_and!; [done|done|]. unfold lsm_overview_resolve_network.
    rewrite Hav, Hid. cbn [negb]. apply first_index_ext. intros n Hin.
    apply identity_matches_identity; [|by apply Hn'].
    apply Hn. destruct Hb as [Hl _]. by eapply list_elem_of_lookup_2.
  - intros Hav Hc. destruct (gpu_card_spec m Hav) as (i & gpu & Hb & Hi & Hid);
      [intros gpu Hin; by apply Hg|].
    exists i, gpu. split_and!; [done|done|]. unfold lsm_overview_resolve_gpu.
    destruct (Z.eqb_spec (mon_gpu_count m') 0); [done|].
    rewrite Hav, Hid. cbn [negb]. apply first_index_ext. intros g Hin.
    apply identity_matches_identity; [|by apply Hg'].
    apply Hg. destruct Hb as [Hl _]. by eapply list_elem_of_lookup_2.
Qed.

(** The reserved disk identity is never filled, so a disk never resolves. *)
Definition disk_card (s : LsmOverviewSample) := (ov_disk_identity s, ov_disk_name s).

Lemma gpu_temperature_disk gpus i s : disk_card (gpu_temperature_loop gpus i s) = disk_card s.
Proof.
  revert i s. induction gpus as [|gpu gpus IH]; intros i s; [done|]. cbn [gpu_temperature_loop].
  rewrite IH. destruct (_ || _); [done|]. by destruct (_ || _).
Qed.

Lemma sample_disk_card m : disk_card (derive_sample m) = ("", "").
Proof.
  unfold derive_sample. cbv zeta. unfold derive_pressure. cbv zeta.
  set (s := derive_temperature m _).
  assert (Hs : disk_card s = ("", "")).
  { unfold s, derive_temperature. cbv zeta. rewrite gpu_temperature_disk.
    unfold derive_gpu, derive_network, derive_disk, derive_usage. cbv zeta.
    repeat case_match; done. }
  by repeat case_match.
Qed.

Lemma overview_disk_never_resolves m m' :
  lsm_overview_resolve_disk m' (derive_sample m) = None.
Proof.
  unfold lsm_overview_resolve_disk. destruct (negb _); [done|].
  pose proof (sample_disk_card m) as E. unfold disk_card in E. injection E as -> ->.
  generalize (used (mon_disks m') (mon_disk_count m')) 0%nat.
  intros disks. induction disks as [|d disks IH]; intros k; [done|]. apply IH.
Qed.
End resolve_facts.

(** ** Witness *)

From S2P Require Import CommonReference.

Definition net_sample (name : string) (rate : Z) : LsmNetInfo :=
  zero_LsmNetInfo <| net_name := name |> <| net_rx_bytes_per_sec := double_of_Z rate |>.
Definition monitor_sample (nets : list LsmNetInfo) : LsmMonitor :=
  zero_LsmMonitor <| mon_nets := nets |> <| mon_net_count := Z.of_nat (length nets) |>
    <| mon_sample_generation := 1 |> <| mon_sample_monotonic_seconds := d1 |>.
Definition before_hotplug : LsmMonitor :=
  monitor_sample [net_sample "eth0" 10; net_sample "wlan0" 900].
Definition after_hotplug : LsmMonitor :=
  monitor_sample [net_sample "wlan0" 0; net_sample "usb0" 5; net_sample "eth0" 10].

Lemma identified_forall {A} (identity : A → string) (cells : list A) :
  forallb (λ c, nonempty (identity c) && (String.length (identity c) <? LSM_IDENTITY_LEN)%nat) cells
  = true → identified identity cells.
Proof.
  intros Hall c Hc%list_elem_of_In. rewrite forallb_forall in Hall. specialize (Hall c Hc).
  apply andb_true_iff in Hall as [Hn Hl%Nat.ltb_lt]. done.
Qed.

Lemma overview_identity_stable_witness :
  ov_network_index (derive_sample before_hotplug) = 1
  ∧ lsm_overview_resolve_network after_hotplug (derive_sample before_hotplug) = Some 0%nat.
Proof.
  destruct (overview_identity_stable before_hotplug after_hotplug) as [Hnet _];
    [apply identified_forall; vm_compute; reflexivity..|].
  destruct (Hnet ltac:(vm_compute; reflexivity)) as (i & net & [Hi Hmax] & Hidx & Hres).
  assert (E : ov_network_index (derive_sample before_hotplug) = 1) by (vm_compute; reflexivity).
  split; [exact E|]. rewrite Hidx in E.
  assert (i = 1%nat) as -> by lia. simplify_eq/=. rewrite Hres. vm_compute. reflexivity.
Defined.

Example gap_is_explicit :
  let m g t := monitor_sample [] <| mon_sample_generation := g |>
                 <| mon_sample_monotonic_seconds := double_of_Z t |> in
  let h := foldl (λ h m, (lsm_overview_history_record h m).1) lsm_overview_history_reset
             [m 1 1; m 2 2; m 2 3; m 5 6] in
  (λ s, (ov_gap s, ov_generation s)) <$> omap (lsm_overview_history_get h) (seq 0 5)
  = [(false, 1); (false, 2); (true, 0); (false, 5)].
Proof. vm_compute. reflexivity. Qed.
