(* ===== verification/History.v ===== *)
(** * History: persistent per-application accounting

    Models the accounting of [src/src/history.c]: the retained table of
    application totals, the per-process baselines, the ingestion of a process
    snapshot, the bounded retention with its two eviction paths, and the merge
    of the history loaded from disk.  GLib hash tables are finite maps; the
    unspecified order in which GLib iterates one is a parameter. *)
From S2P Require Import Prelude Double CStrings Common ProcessModel.
From stdpp Require Import sorting.
Local Open Scope Z_scope.

(** ** GLib hash-table iteration

    [g_hash_table_iter_next] visits every entry once, in no specified order. *)
Class HashOrder := {
  hash_iterate {A : Type} : gmap string A → list (string * A);
}.
Class HashOrderLaws `{HashOrder} : Prop := {
  hash_iterate_perm {A} (m : gmap string A) : Permutation (hash_iterate m) (map_to_list m);
}.

(** ** Data *)

(** src: history.c:42-56 LsmHistoryEntry *)
Record LsmHistoryEntry := {
  he_key : string;
  he_name : string;
  he_user : string;
  he_identity : string;
  he_cpu_seconds : double;
  he_active_seconds : double;
  he_read_bytes : Z;
  he_write_bytes : Z;
  he_peak_rss_bytes : Z;
  he_current_rss_bytes : Z;
  he_live_generation : Z;
  he_first_seen : Z;
  he_last_seen : Z;
}.
#[export] Instance eta_LsmHistoryEntry : Eta LsmHistoryEntry := λ x,
  Build_LsmHistoryEntry (he_key x) (he_name x) (he_user x) (he_identity x) (he_cpu_seconds x)
    (he_active_seconds x) (he_read_bytes x) (he_write_bytes x) (he_peak_rss_bytes x)
    (he_current_rss_bytes x) (he_live_generation x) (he_first_seen x) (he_last_seen x).

(** A process identifier and its instance: equality of the pair is
    [history_process_key_equal]. *)
(** src: history.c:61-64 LsmHistoryProcessKey *)
Definition process_key (p : LsmProcessInfo) : Z * Z := (p_pid p, p_instance_id p).

(** src: history.c:66-71 LsmHistorySample *)
Record LsmHistorySample := {
  hs_cpu_time_nanoseconds : Z;
  hs_read_bytes : Z;
  hs_write_bytes : Z;
  hs_generation : Z;
}.

Definition LSM_HISTORY_MAX_ENTRIES : nat := 4096.

Abbreviation HistoryTable := (gmap string LsmHistoryEntry).
Abbreviation SampleTable := (gmap (Z * Z) LsmHistorySample).

(** The accounting fields of [LsmHistoryState]; both tables exist once
    [history_model_initialise] has run. *)
(** src: app_internal.h:497-514 LsmHistoryState *)
Record LsmHistoryState := {
  h_app_history : HistoryTable;
  h_app_history_samples : SampleTable;
  h_last_sample : double;
  h_generation : Z;
  h_entry_count : Z;
  h_mutation_generation : Z;
  h_dirty : bool;
  h_load_pending : bool;
  h_save_pending : bool;
  h_save_again : bool;
  h_save_error_reported : bool;
}.
#[export] Instance eta_LsmHistoryState : Eta LsmHistoryState := λ x,
  Build_LsmHistoryState (h_app_history x) (h_app_history_samples x) (h_last_sample x)
    (h_generation x) (h_entry_count x) (h_mutation_generation x) (h_dirty x) (h_load_pending x)
    (h_save_pending x) (h_save_again x) (h_save_error_reported x).

(** The zero-initialised state with its two empty tables. *)
Definition history_initial : LsmHistoryState :=
  {| h_app_history := ∅; h_app_history_samples := ∅; h_last_sample := d0; h_generation := 0;
     h_entry_count := 0; h_mutation_generation := 0; h_dirty := false; h_load_pending := false;
     h_save_pending := false; h_save_again := false; h_save_error_reported := false |}.

(** ** Retention *)

(** src: history.c history_entry_recency_compare *)
Definition history_entry_recency_compare (left right : LsmHistoryEntry) : comparison :=
  if negb (he_last_seen left =? he_last_seen right)
  then (if he_last_seen left <? he_last_seen right then Lt else Gt)
  else if negb (he_first_seen left =? he_first_seen right)
  then (if he_first_seen left <? he_first_seen right then Lt else Gt)
  else strcmp (he_key left) (he_key right).

(** The entry is skipped by the eviction loops. *)
(** src: history.c:156-158 history_oldest_key *)
Definition protected_by (generation : Z) (entry : LsmHistoryEntry) : bool :=
  negb (generation =? 0) && (he_live_generation entry =? generation).

Definition comparison_lt (c : comparison) : bool := match c with Lt => true | _ => false end.

(** src: history.c:159-163 history_oldest_key *)
Definition older (protected_generation : Z) (oldest : option (string * LsmHistoryEntry))
    (row : string * LsmHistoryEntry) : option (string * LsmHistoryEntry) :=
  if protected_by protected_generation row.2 then oldest
  else match oldest with
       | None => Some row
       | Some o => if comparison_lt (history_entry_recency_compare row.2 o.2)
                   then Some row else oldest
       end.

(** The order [qsort] is called with. *)
(** src: history.c history_entry_pointer_recency_compare *)
Definition not_newer (a b : LsmHistoryEntry) : Prop := history_entry_recency_compare a b ≠ Gt.
#[export] Instance not_newer_dec a b : Decision (not_newer a b).
Proof. unfold not_newer. solve_decision. Defined.

Section retention.
Context `{HashOrder}.

(** src: history.c history_oldest_key *)
Definition history_oldest_key (h : LsmHistoryState) (protected_generation : Z) : option string :=
  if h_entry_count h =? 0 then None
  else fst <$> foldl (older protected_generation) None (hash_iterate (h_app_history h)).

(** [None] is the code's FALSE. *)
(** src: history.c history_remove_oldest *)
Definition history_remove_oldest (h : LsmHistoryState) (protected_generation : Z)
    : option LsmHistoryState :=
  match history_oldest_key h protected_generation with
  | None => None
  | Some oldest_key =>
      match h_app_history h !! oldest_key with
      | None => None
      | Some _ =>
          let h := h <| h_app_history := delete oldest_key (h_app_history h) |> in
          Some (if 0 <? h_entry_count h
                then h <| h_entry_count := h_entry_count h - 1 |> else h)
      end
  end.

(** The candidates of the batch path, as the table walk collects them. *)
(** src: history.c:209-221 history_trim_to_limit *)
Definition eviction_candidates (h : LsmHistoryState) (protected_generation : Z)
    : list LsmHistoryEntry :=
  List.filter (λ entry, negb (protected_by protected_generation entry))
              (snd <$> hash_iterate (h_app_history h)).

(** One removal of the batch path, with the count of removed keys. *)
(** src: history.c:228-233 history_trim_to_limit *)
Definition remove_candidate (acc : HistoryTable * Z) (candidate : LsmHistoryEntry)
    : HistoryTable * Z :=
  let '(table, removed) := acc in
  match table !! he_key candidate with
  | None => (table, removed)
  | Some _ => (delete (he_key candidate) table, removed + 1)
  end.

(** [while (count > MAX) if (!history_remove_oldest(...)) break;].  Every
    iteration removes an entry, so the count is enough fuel. *)
(** src: history.c:243-248 history_trim_to_limit *)
Fixpoint trim_loop (fuel : nat) (h : LsmHistoryState) (protected_generation : Z) (changed : bool)
    : LsmHistoryState * bool :=
  if Z.of_nat LSM_HISTORY_MAX_ENTRIES <? h_entry_count h then
    match fuel with
    | O => (h, changed)
    | S fuel =>
        match history_remove_oldest h protected_generation with
        | None => (h, changed)
        | Some h => trim_loop fuel h protected_generation true
        end
    end
  else (h, changed).

(** [allocated] is the success of [g_try_new]. *)
(** src: history.c history_trim_to_limit *)
Definition history_trim_to_limit (h : LsmHistoryState) (protected_generation : Z)
    (allocated : bool) : LsmHistoryState * bool :=
  if h_entry_count h <=? Z.of_nat LSM_HISTORY_MAX_ENTRIES then (h, false)
  else if allocated then
    let excess := Z.to_nat (h_entry_count h - Z.of_nat LSM_HISTORY_MAX_ENTRIES) in
    let candidates := merge_sort not_newer (eviction_candidates h protected_generation) in
    let remove_count := Nat.min excess (length candidates) in
    let '(table, removed) :=
      foldl remove_candidate (h_app_history h, 0) (take remove_count candidates) in
    let h := h <| h_app_history := table |> in
    (h <| h_entry_count := if h_entry_count h <? removed then 0 else h_entry_count h - removed |>,
     0 <? removed)
  else trim_loop (Z.to_nat (h_entry_count h)) h protected_generation false.
End retention.

(** ** Ingestion *)

(** src: history.c history_mark_dirty *)
Definition history_mark_dirty (h : LsmHistoryState) : LsmHistoryState :=
  (if h_mutation_generation h <? uint_max
   then h <| h_mutation_generation := h_mutation_generation h + 1 |> else h)
    <| h_dirty := true |>.

(** 0.05 and 10^9 as the compiler rounds them *)
Definition d0_05 : double := S754_finite false 7205759403792794 (-57).
Definition d1e9 : double := double_of_Z 1000000000.
Definition d60 : double := double_of_Z 60.

Definition is_blank (c : ascii) : bool := Ascii.eqb c " " || Ascii.eqb c tab.

Section ingest.
Context `{ArithmeticOps, TextOps, HashOrder}.

(** The key and the identity of the application of a process. *)
(** src: history.c history_identity *)
Definition history_identity (process : LsmProcessInfo) : string * string :=
  let executable :=
    if nonempty (p_executable process) then lsm_copy_string LSM_PATH_LEN (p_executable process)
    else if nonempty (p_command process) && negb (char_is (p_command process) 0 "[")
    then String.substring 0 (LSM_PATH_LEN - 1) (span is_blank (p_command process)).1
    else EmptyString in
  let executable :=
    if nonempty executable then executable else lsm_copy_string LSM_PATH_LEN (p_name process) in
  (String.substring 0 (LSM_PATH_LEN + 64 - 1)
     (p_account_identity process +:+ "|" +:+ executable),
   lsm_copy_string LSM_PATH_LEN executable).

(** A new entry; [created] is what [time(NULL)] returns. *)
(** src: history.c:910-915 history_entry_get *)
Definition history_entry_new (process : LsmProcessInfo) (key app_identity : string) (created : Z)
    : LsmHistoryEntry :=
  {| he_key := key; he_name := p_name process; he_user := p_user process;
     he_identity := app_identity; he_cpu_seconds := d0; he_active_seconds := d0;
     he_read_bytes := 0; he_write_bytes := 0; he_peak_rss_bytes := 0; he_current_rss_bytes := 0;
     he_live_generation := 0; he_first_seen := created; he_last_seen := created |}.

(** [if (now >= then) delta = now - then;] from 0 *)
Definition counter_advance (now before : Z) : Z := if before <=? now then now - before else 0.

(** The deltas of a process against its sample: CPU time, reads, writes. *)
(** src: history.c:974-982 lsm_app_history_ingest *)
Definition sample_deltas (process : LsmProcessInfo) (sample : option LsmHistorySample)
    : Z * Z * Z :=
  match sample with
  | Some s =>
      (counter_advance (p_cpu_time_nanoseconds process) (hs_cpu_time_nanoseconds s),
       counter_advance (p_read_bytes process) (hs_read_bytes s),
       counter_advance (p_write_bytes process) (hs_write_bytes s))
  | None => (0, 0, 0)
  end.

(** The entry of the application once the process is accounted. *)
(** src: history.c:958-966 lsm_app_history_ingest *)
Definition account_presence (generation : Z) (elapsed : double) (process : LsmProcessInfo)
    (entry : LsmHistoryEntry) : LsmHistoryEntry :=
  let entry :=
    if negb (he_live_generation entry =? generation)
    then entry <| he_live_generation := generation |> <| he_current_rss_bytes := 0 |>
               <| he_active_seconds := dadd (he_active_seconds entry) elapsed |>
    else entry in
  let entry := entry
    <| he_current_rss_bytes := lsm_u64_add_saturating (he_current_rss_bytes entry)
                                                      (p_rss_bytes process) |> in
  if he_peak_rss_bytes entry <? he_current_rss_bytes entry
  then entry <| he_peak_rss_bytes := he_current_rss_bytes entry |> else entry.

(** src: history.c:1001-1008 lsm_app_history_ingest *)
Definition account_deltas (now_epoch : Z) (process : LsmProcessInfo) (deltas : Z * Z * Z)
    (entry : LsmHistoryEntry) : LsmHistoryEntry :=
  let '(cpu_delta, read_delta, write_delta) := deltas in
  let entry := entry
    <| he_cpu_seconds := dadd (he_cpu_seconds entry) (ddiv (double_of_Z cpu_delta) d1e9) |>
    <| he_read_bytes := lsm_u64_add_saturating (he_read_bytes entry) read_delta |>
    <| he_write_bytes := lsm_u64_add_saturating (he_write_bytes entry) write_delta |> in
  if negb (cpu_delta =? 0) || negb (read_delta =? 0) || negb (write_delta =? 0)
     || dgt (p_cpu_percent process) d0_05
  then entry <| he_last_seen := now_epoch |> else entry.

(** src: history.c:996-999 lsm_app_history_ingest *)
Definition sample_of_process (generation : Z) (process : LsmProcessInfo) : LsmHistorySample :=
  {| hs_cpu_time_nanoseconds := p_cpu_time_nanoseconds process;
     hs_read_bytes := p_read_bytes process; hs_write_bytes := p_write_bytes process;
     hs_generation := generation |}.

(** One iteration of the snapshot loop; [created] is what [time(NULL)] returns
    when the row creates an entry.  The table holds a pointer to the entry, so
    what the iteration leaves in it is written back under its key. *)
(** src: history.c:949-1009 lsm_app_history_ingest *)
Definition ingest_row (generation now_epoch : Z) (elapsed : double)
    (acc : HistoryTable * SampleTable * Z) (row : LsmProcessInfo * Z)
    : HistoryTable * SampleTable * Z :=
  let '(table, samples, count) := acc in
  let '(process, created) := row in
  let '(app_key, app_identity) := history_identity process in
  let '(entry, count) :=
    match table !! app_key with
    | Some entry => (entry, count)
    | None => (history_entry_new process app_key app_identity created, wrap 32 (count + 1))
    end in
  let entry := account_presence generation elapsed process entry in
  let deltas := sample_deltas process (samples !! process_key process) in
  let entry := account_deltas now_epoch process deltas entry in
  (<[app_key := entry]> table,
   <[process_key process := sample_of_process generation process]> samples, count).

(** src: history.c remove_stale_sample *)
Definition remove_stale_sample (current : Z) (sample : LsmHistorySample) : bool :=
  wrap 32 (hs_generation sample + 2) <? current.

(** src: history.c:939-940 lsm_app_history_ingest *)
Definition sample_interval (h : LsmHistoryState) (now_mono : double) : double :=
  let elapsed := if dgt (h_last_sample h) d0 then dsub now_mono (h_last_sample h) else d0 in
  if dlt elapsed d0 || dgt elapsed d60 then d0 else elapsed.

(** A snapshot while the application is not shutting down; the refresh of the
    visible page that follows is presentation. *)
(** src: history.c lsm_app_history_ingest *)
Definition lsm_app_history_ingest (h : LsmHistoryState) (rows : list (LsmProcessInfo * Z))
    (now_mono : double) (now_epoch : Z) (allocated : bool) : LsmHistoryState :=
  let generation := wrap 32 (h_generation h + 1) in
  let elapsed := sample_interval h now_mono in
  let '(table, samples, count) :=
    foldl (ingest_row generation now_epoch elapsed)
          (h_app_history h, h_app_history_samples h, h_entry_count h) rows in
  let samples := filter (λ kv, remove_stale_sample generation kv.2 = false) samples in
  let h := h <| h_generation := generation |> <| h_last_sample := now_mono |>
             <| h_app_history := table |> <| h_app_history_samples := samples |>
             <| h_entry_count := count |> in
  let h := (history_trim_to_limit h generation allocated).1 in
  if negb (Nat.eqb (length rows) 0) then history_mark_dirty h else h.

(** ** Merging the history loaded from disk *)

Definition seconds_limit : double := double_of_Z uint64_max.

(** src: history.c:578-594 history_merge_loaded *)
Definition merge_entry (current loaded : LsmHistoryEntry) : LsmHistoryEntry :=
  let current := current
    <| he_cpu_seconds := fmin seconds_limit (dadd (he_cpu_seconds current) (he_cpu_seconds loaded)) |>
    <| he_active_seconds :=
         fmin seconds_limit (dadd (he_active_seconds current) (he_active_seconds loaded)) |>
    <| he_read_bytes := lsm_u64_add_saturating (he_read_bytes current) (he_read_bytes loaded) |>
    <| he_write_bytes := lsm_u64_add_saturating (he_write_bytes current) (he_write_bytes loaded) |> in
  let current :=
    if he_peak_rss_bytes current <? he_peak_rss_bytes loaded
    then current <| he_peak_rss_bytes := he_peak_rss_bytes loaded |> else current in
  let current :=
    if (0 <? he_first_seen loaded)
       && ((he_first_seen current <=? 0) || (he_first_seen loaded <? he_first_seen current))
    then current <| he_first_seen := he_first_seen loaded |> else current in
  if he_last_seen current <? he_last_seen loaded
  then current <| he_last_seen := he_last_seen loaded |> else current.

(** One loaded entry: moved into the table, or added to the current one. *)
(** src: history.c:567-595 history_merge_loaded *)
Definition merge_row (acc : HistoryTable * Z) (row : string * LsmHistoryEntry)
    : HistoryTable * Z :=
  let '(table, count) := acc in
  let '(key, loaded) := row in
  match table !! he_key loaded with
  | None => (<[key := loaded]> table, wrap 32 (count + 1))
  | Some current => (<[he_key loaded := merge_entry current loaded]> table, count)
  end.

(** [loaded] are the entries and the truncation flag of a successful load. *)
(** src: history.c history_merge_loaded *)
Definition history_merge_loaded (h : LsmHistoryState) (loaded : option (HistoryTable * bool))
    (allocated : bool) : LsmHistoryState :=
  match loaded with
  | None => h
  | Some (entries, truncated) =>
      let '(table, count) :=
        foldl merge_row (h_app_history h, h_entry_count h) (hash_iterate entries) in
      let h := h <| h_app_history := table |> <| h_entry_count := count |> in
      let '(h, trimmed) := history_trim_to_limit h (h_generation h) allocated in
      if truncated || trimmed then history_mark_dirty h else h
  end.

(** What the confirmed reset does to the model before saving. *)
(** src: history.c:1120-1123 history_reset *)
Definition history_reset (h : LsmHistoryState) : LsmHistoryState :=
  history_mark_dirty (h <| h_app_history := ∅ |> <| h_app_history_samples := ∅ |>
                        <| h_entry_count := 0 |>).
End ingest.

(** ** The eviction order *)

#[local] Arguments history_identity {_} _ : simpl never.
#[local] Arguments account_deltas : simpl never.
#[local] Arguments account_presence : simpl never.
#[local] Arguments Z.eqb : simpl never.
#[local] Arguments Z.ltb : simpl never.
#[local] Arguments Z.leb : simpl never.

Lemma recency_antisym a b :
  history_entry_recency_compare b a = CompOpp (history_entry_recency_compare a b).
Proof.
  unfold history_entry_recency_compare.
  rewrite (Z.eqb_sym (he_last_seen b)), (Z.eqb_sym (he_first_seen b)).
  destruct (Z.eqb_spec (he_last_seen a) (he_last_seen b)) as [El|El]; simpl.
  - destruct (Z.eqb_spec (he_first_seen a) (he_first_seen b)) as [Ef|Ef]; simpl.
    + apply strcmp_antisym.
    + destruct (Z.ltb_spec (he_first_seen a) (he_first_seen b)),
        (Z.ltb_spec (he_first_seen b) (he_first_seen a)); done || lia.
  - destruct (Z.ltb_spec (he_last_seen a) (he_last_seen b)),
      (Z.ltb_spec (he_last_seen b) (he_last_seen a)); done || lia.
Qed.

Lemma recency_eq a b : history_entry_recency_compare a b = Eq → he_key a = he_key b.
Proof.
  unfold history_entry_recency_compare.
  destruct (_ =? _); simpl; [|by destruct (_ <? _)].
  destruct (_ =? _); simpl; [|by destruct (_ <? _)]. apply strcmp_eq_iff.
Qed.

Lemma recency_lt_trans a b c :
  history_entry_recency_compare a b = Lt → history_entry_recency_compare b c = Lt →
  history_entry_recency_compare a c = Lt.
Proof.
  unfold history_entry_recency_compare.
  destruct (Z.eqb_spec (he_last_seen a) (he_last_seen b)),
    (Z.eqb_spec (he_last_seen b) (he_last_seen c)),
    (Z.eqb_spec (he_last_seen a) (he_last_seen c)); simpl; try (by (intros; lia));
    try (destruct (Z.ltb_spec (he_last_seen a) (he_last_seen b));
      destruct (Z.ltb_spec (he_last_seen b) (he_last_seen c));
      destruct (Z.ltb_spec (he_last_seen a) (he_last_seen c)); intros; done || lia).
  destruct (Z.eqb_spec (he_first_seen a) (he_first_seen b)),
    (Z.eqb_spec (he_first_seen b) (he_first_seen c)),
    (Z.eqb_spec (he_first_seen a) (he_first_seen c)); simpl; try (by (intros; lia));
    try (destruct (Z.ltb_spec (he_first_seen a) (he_first_seen b));
      destruct (Z.ltb_spec (he_first_seen b) (he_first_seen c));
      destruct (Z.ltb_spec (he_first_seen a) (he_first_seen c)); intros; done || lia).
  apply strcmp_lt_trans.
Qed.

Lemma recency_refl a : history_entry_recency_compare a a = Eq.
Proof. unfold history_entry_recency_compare. rewrite !Z.eqb_refl. apply strcmp_refl. Qed.

Lemma recency_eq_cong a b c :
  history_entry_recency_compare a b = Eq →
  history_entry_recency_compare a c = history_entry_recency_compare b c
  ∧ history_entry_recency_compare c a = history_entry_recency_compare c b.
Proof.
  intros E. assert (he_last_seen a = he_last_seen b ∧ he_first_seen a = he_first_seen b
                    ∧ he_key a = he_key b) as (E1 & E2 & E3).
  { unfold history_entry_recency_compare in E.
    destruct (Z.eqb_spec (he_last_seen a) (he_last_seen b)) as [El|]; simpl in E;
      [|by destruct (_ <? _)].
    destruct (Z.eqb_spec (he_first_seen a) (he_first_seen b)) as [Ef|]; simpl in E;
      [|by destruct (_ <? _)]. by apply strcmp_eq_iff in E. }
  unfold history_entry_recency_compare. by rewrite E1, E2, E3.
Qed.

#[export] Instance not_newer_trans : Transitive not_newer.
Proof.
  intros a b c. unfold not_newer. intros Hab Hbc.
  destruct (history_entry_recency_compare a b) eqn:E; [|clear Hab|done].
  - by rewrite (proj1 (recency_eq_cong a b c E)).
  - destruct (history_entry_recency_compare b c) eqn:E'; [| |done].
    + by rewrite <-(proj2 (recency_eq_cong b c a E')), E.
    + by rewrite (recency_lt_trans a b c).
Qed.

#[export] Instance not_newer_total : Total not_newer.
Proof.
  intros a b. unfold not_newer. rewrite (recency_antisym a b).
  destruct (history_entry_recency_compare a b); simpl; auto.
Qed.

(** ** The retained table *)

(** The state of the retained history the code maintains. *)
Definition table_keyed (m : HistoryTable) : Prop := ∀ k e, m !! k = Some e → he_key e = k.

Record history_wf (h : LsmHistoryState) : Prop := {
  wf_keyed : table_keyed (h_app_history h);
  wf_count : h_entry_count h = Z.of_nat (size (h_app_history h));
}.

Lemma table_keyed_delete m k : table_keyed m → table_keyed (delete k m).
Proof. intros Hm k' e [_ He]%lookup_delete_Some. by apply Hm. Qed.

Lemma table_keyed_insert m k e : table_keyed m → he_key e = k → table_keyed (<[k := e]> m).
Proof. intros Hm He k' e' [[<- <-]|[_ Hl]]%lookup_insert_Some; [done|by apply Hm]. Qed.

Lemma not_newer_same a b : not_newer a b → not_newer b a → he_key a = he_key b.
Proof.
  unfold not_newer. rewrite (recency_antisym a b). intros Hab Hba. apply recency_eq.
  by destruct (history_entry_recency_compare a b).
Qed.

Section candidates.
Context `{HashOrderLaws}.
Implicit Types m : HistoryTable.

Definition unprotected (p : Z) (e : LsmHistoryEntry) : bool := negb (protected_by p e).

(** The unprotected entries of a table, oldest first. *)
Definition by_age (m : HistoryTable) (p : Z) : list LsmHistoryEntry :=
  merge_sort not_newer (List.filter (unprotected p) (snd <$> hash_iterate m)).

Lemma filter_permutation {A} (f : A → bool) (l l' : list A) :
  Permutation l l' → Permutation (List.filter f l) (List.filter f l').
Proof.
  induction 1; simpl; [done| | |by etrans]; repeat case_match; auto. apply Permutation_swap.
Qed.

Lemma iterate_values m : Permutation (snd <$> hash_iterate m) (snd <$> map_to_list m).
Proof. by rewrite hash_iterate_perm. Qed.

Lemma by_age_perm m p :
  Permutation (by_age m p) (List.filter (unprotected p) (snd <$> map_to_list m)).
Proof.
  unfold by_age. rewrite merge_sort_Permutation. apply filter_permutation, iterate_values.
Qed.

Lemma by_age_sorted m p : StronglySorted not_newer (by_age m p).
Proof. apply StronglySorted_merge_sort; apply _. Qed.

Lemma elem_of_values m e : e ∈ snd <$> map_to_list m ↔ ∃ k, m !! k = Some e.
Proof.
  rewrite list_elem_of_fmap. split.
  - intros ([k e'] & -> & Hin). exists k. by apply elem_of_map_to_list.
  - intros [k Hk]. exists (k, e). split; [done|]. by apply elem_of_map_to_list.
Qed.

Lemma elem_of_by_age m p e :
  e ∈ by_age m p ↔ (∃ k, m !! k = Some e) ∧ unprotected p e = true.
Proof.
  rewrite by_age_perm, list_elem_of_In, List.filter_In, <-list_elem_of_In, elem_of_values. done.
Qed.

Lemma by_age_keys m p e e' :
  table_keyed m → e ∈ by_age m p → e' ∈ by_age m p → he_key e = he_key e' → e = e'.
Proof.
  intros Hm [[k Hk] _]%elem_of_by_age [[k' Hk'] _]%elem_of_by_age E.
  rewrite (Hm _ _ Hk), (Hm _ _ Hk') in E. congruence.
Qed.

(** Sorting is canonical on a table: any sorted permutation is [by_age]. *)
Lemma by_age_unique m p l :
  table_keyed m → StronglySorted not_newer l →
  Permutation l (List.filter (unprotected p) (snd <$> map_to_list m)) → l = by_age m p.
Proof.
  intros Hm Hs Hp. assert (Hpl : Permutation l (by_age m p)) by (by rewrite by_age_perm).
  apply (StronglySorted_unique_strong not_newer); [|done|apply by_age_sorted|done].
  intros a b Ha Hb Hab Hba. rewrite Hpl in Ha. eapply by_age_keys; eauto.
  by apply not_newer_same.
Qed.

Lemma by_age_delete m p e rest :
  table_keyed m → by_age m p = e :: rest → by_age (delete (he_key e) m) p = rest.
Proof.
  intros Hm E. assert (Hin : e ∈ by_age m p) by (rewrite E; by left).
  apply elem_of_by_age in Hin as [[k Hk] Hun]. rewrite (Hm _ _ Hk).
  pose proof (by_age_sorted m p) as Hs. pose proof (by_age_perm m p) as Hp. rewrite E in Hs, Hp.
  symmetry. apply by_age_unique; [by apply table_keyed_delete|by apply StronglySorted_inv in Hs as [? _]|].
  assert (Hml : Permutation (map_to_list m) ((k, e) :: map_to_list (delete k m)))
    by (symmetry; by apply map_to_list_delete).
  assert (Hf : Permutation (List.filter (unprotected p) (snd <$> map_to_list m))
    (e :: List.filter (unprotected p) (snd <$> map_to_list (delete k m)))).
  { etrans; [apply filter_permutation; rewrite Hml; reflexivity|]. simpl. by rewrite Hun. }
  rewrite Hf in Hp. by apply Permutation_cons_inv in Hp.
Qed.

(** The scan for the oldest key finds the head of that list. *)
Lemma older_fold p rows acc :
  (∀ row, acc = Some row → unprotected p row.2 = true) →
  match foldl (older p) acc rows with
  | None => acc = None ∧ ∀ row, row ∈ rows → unprotected p row.2 = false
  | Some r =>
      (acc = Some r ∨ r ∈ rows) ∧ unprotected p r.2 = true
      ∧ (∀ row, (acc = Some row ∨ row ∈ rows) → unprotected p row.2 = true →
           not_newer r.2 row.2)
  end.
Proof.
  revert acc. induction rows as [|row rows IH]; intros acc Hacc; cbn [foldl].
  { destruct acc as [r|]; [|by split; [|intros ? []%elem_of_nil]].
    split_and!; [by left|by apply Hacc|].
    intros row [[= ->]|[]%elem_of_nil] _. unfold not_newer. by rewrite recency_refl. }
  unfold unprotected in *.
  assert (Hstep : ∀ r, older p acc row = Some r → negb (protected_by p r.2) = true).
  { intros r. unfold older. destruct (protected_by p row.2) eqn:Ep; [apply Hacc|].
    destruct acc as [o|]; [|intros [= <-]; by rewrite Ep].
    destruct (comparison_lt _); [intros [= <-]; by rewrite Ep|apply Hacc]. }
  specialize (IH _ Hstep). destruct (foldl (older p) (older p acc row) rows) as [r|] eqn:E.
  - destruct IH as (Hfrom & Hr & Hmin).
    assert (Hle : ∀ x, (acc = Some x ∨ x = row) → negb (protected_by p x.2) = true →
      ∃ y, older p acc row = Some y ∧ not_newer y.2 x.2).
    { intros x Hx Hun. unfold older. destruct (protected_by p row.2) eqn:Ep.
      - destruct Hx as [->| ->]; [|by rewrite Ep in Hun]. exists x. split; [done|].
        unfold not_newer. by rewrite recency_refl.
      - destruct acc as [o|].
        + destruct (history_entry_recency_compare row.2 o.2) eqn:Ec; cbn [comparison_lt];
            [exists o|exists row|exists o]; (split; [done|]);
            destruct Hx as [[= <-]| ->]; unfold not_newer; rewrite ?recency_refl; try done;
            rewrite ?(recency_antisym row.2 o.2), ?Ec; done.
        + destruct Hx as [?| ->]; [done|]. exists row. split; [done|].
          unfold not_newer. by rewrite recency_refl. }
    split_and!; [|done|].
    + destruct Hfrom as [Ho|Hin]; [|by right; right]. unfold older in Ho.
      destruct (protected_by p row.2); [by left|].
      destruct acc as [o|]; [destruct (comparison_lt _); simplify_eq; [right; left|by left]|].
      simplify_eq. right. left.
    + intros x Hx Hun. destruct Hx as [Hx|[Hx|Hx]%elem_of_cons].
      * destruct (Hle x (or_introl Hx) Hun) as (y & Hy & Hyx).
        etrans; [|exact Hyx]. apply Hmin; [by left|by apply Hstep].
      * destruct (Hle x (or_intror Hx) Hun) as (y & Hy & Hyx).
        etrans; [|exact Hyx]. apply Hmin; [by left|by apply Hstep].
      * apply Hmin; [by right|done].
  - destruct IH as [Hnone Hall]. unfold older in Hnone.
    destruct (protected_by p row.2) eqn:Ep; [|destruct acc; [destruct (comparison_lt _)|]; done].
    split; [done|]. intros x [->|Hx]%elem_of_cons; [by rewrite Ep|by apply Hall].
Qed.
End candidates.

Section eviction.
Context `{HashOrderLaws}.
Implicit Types m : HistoryTable.

Lemma NoDup_fmap_filter {A B} (f : A → B) (p : A → bool) l :
  NoDup (f <$> l) → NoDup (f <$> List.filter p l).
Proof.
  induction l as [|x l IH]; [done|]. rewrite fmap_cons. intros [Hx Hl]%NoDup_cons. simpl.
  destruct (p x); [|by apply IH]. rewrite fmap_cons. apply NoDup_cons. split; [|by apply IH].
  intros Hin. apply list_elem_of_fmap in Hin as (y & Hxy & Hy).
  apply list_elem_of_In, List.filter_In in Hy as [Hy _].
  apply Hx, list_elem_of_fmap. exists y. split; [done|]. by apply list_elem_of_In.
Qed.

Lemma values_keys m : table_keyed m → he_key <$> (snd <$> map_to_list m) = fst <$> map_to_list m.
Proof.
  intros Hm. rewrite <-list_fmap_compose. apply list_fmap_ext.
  intros i [k e] Hi. simpl. apply Hm, elem_of_map_to_list. by eapply list_elem_of_lookup_2.
Qed.

Lemma by_age_NoDup m p : table_keyed m → NoDup (he_key <$> by_age m p).
Proof.
  intros Hm. rewrite by_age_perm. apply NoDup_fmap_filter.
  rewrite values_keys by done. apply NoDup_fst_map_to_list.
Qed.

Lemma by_age_lookup m p e :
  table_keyed m → e ∈ by_age m p → m !! he_key e = Some e.
Proof. intros Hm [[k Hk] _]%elem_of_by_age. by rewrite (Hm _ _ Hk). Qed.

(** The scan finds the head of the age order. *)
Lemma oldest_key_head h p :
  history_wf h → history_oldest_key h p = head (he_key <$> by_age (h_app_history h) p).
Proof.
  intros [Hk Hc]. unfold history_oldest_key. set (m := h_app_history h) in *.
  destruct (Z.eqb_spec (h_entry_count h) 0) as [E|E].
  - rewrite Hc in E. assert (m = ∅) as -> by (apply map_size_empty_iff; lia).
    pose proof (by_age_perm (∅ : HistoryTable) p) as Hp. rewrite map_to_list_empty in Hp.
    simpl in Hp. apply Permutation_nil_r in Hp. by rewrite Hp.
  - pose proof (older_fold p (hash_iterate m) None ltac:(done)) as Hs.
    destruct (foldl (older p) None (hash_iterate m)) as [[k e]|].
    + destruct Hs as (Hfrom & Hun & Hmin). destruct Hfrom as [[=]|Hin].
      rewrite hash_iterate_perm in Hin. apply elem_of_map_to_list in Hin. simpl in *.
      assert (He : e ∈ by_age m p) by (apply elem_of_by_age; eauto).
      destruct (by_age m p) as [|x l] eqn:Eb; [by apply elem_of_nil in He|].
      pose proof (by_age_sorted m p) as Hs. rewrite Eb in Hs.
      apply StronglySorted_inv in Hs as [_ Hall]. simpl. f_equal. rewrite <-(Hk _ _ Hin).
      apply elem_of_cons in He as [->|He]; [done|].
      assert (Hx : x ∈ by_age m p) by (rewrite Eb; by left).
      apply elem_of_by_age in Hx as [[kx Hkx] Hux].
      apply not_newer_same; [|by eapply Forall_forall in Hall].
      apply (Hmin (kx, x)); [|done]. right. rewrite hash_iterate_perm. by apply elem_of_map_to_list.
    + destruct Hs as [_ Hall]. destruct (by_age m p) as [|x l] eqn:Eb; [done|].
      assert (Hx : x ∈ by_age m p) by (rewrite Eb; by left).
      apply elem_of_by_age in Hx as [[kx Hkx] Hux].
      specialize (Hall (kx, x)). simpl in Hall. rewrite Hall in Hux; [done|].
      rewrite hash_iterate_perm. by apply elem_of_map_to_list.
Qed.

(** Evicting the [n] oldest. *)
Definition delete_entries (m : HistoryTable) (l : list LsmHistoryEntry) : HistoryTable :=
  foldl (λ m e, delete (he_key e) m) m l.
Definition evict (m : HistoryTable) (p : Z) (n : nat) : HistoryTable :=
  delete_entries m (take n (by_age m p)).

Lemma remove_oldest_spec h p :
  history_wf h →
  match by_age (h_app_history h) p with
  | [] => history_remove_oldest h p = None
  | e :: rest =>
      ∃ h', history_remove_oldest h p = Some h' ∧ history_wf h'
        ∧ h' = h <| h_app_history := delete (he_key e) (h_app_history h) |>
                 <| h_entry_count := h_entry_count h - 1 |>
        ∧ by_age (h_app_history h') p = rest
  end.
Proof.
  intros Hwf. unfold history_remove_oldest. rewrite oldest_key_head by done.
  destruct (by_age (h_app_history h) p) as [|e rest] eqn:Eb; [done|]. simpl.
  destruct Hwf as [Hk Hc].
  assert (He : h_app_history h !! he_key e = Some e).
  { apply (by_age_lookup _ p); [done|]. rewrite Eb. by left. }
  rewrite He. assert (Hpos : 0 < h_entry_count h).
  { rewrite Hc. apply (inj_lt 0). destruct (decide (size (h_app_history h) = 0%nat)) as [E|]; [|lia].
    apply map_size_empty_inv in E. by rewrite E, lookup_empty in He. }
  destruct (Z.ltb_spec 0 (h_entry_count h)); [|lia]. eexists. split; [done|]. split_and!.
  - split; cbn; [by apply table_keyed_delete|].
    rewrite map_size_delete_Some by eauto. cbn in Hc. lia.
  - done.
  - cbn. by apply by_age_delete.
Qed.

Lemma evict_step m p e rest n :
  table_keyed m → by_age m p = e :: rest → evict m p (S n) = evict (delete (he_key e) m) p n.
Proof.
  intros Hm E. unfold evict. rewrite E, (by_age_delete m p e rest) by done. done.
Qed.

(** How many entries a trim evicts. *)
Definition evicted (h : LsmHistoryState) (p : Z) : nat :=
  Nat.min (Z.to_nat (h_entry_count h - Z.of_nat LSM_HISTORY_MAX_ENTRIES))
          (length (by_age (h_app_history h) p)).

Definition trimmed (h : LsmHistoryState) (p : Z) : LsmHistoryState :=
  h <| h_app_history := evict (h_app_history h) p (evicted h p) |>
    <| h_entry_count := h_entry_count h - Z.of_nat (evicted h p) |>.

Lemma trimmed_0 h p : evicted h p = 0%nat → trimmed h p = h.
Proof.
  intros E. unfold trimmed. rewrite E. destruct h. unfold evict. cbn. f_equal. lia.
Qed.

(** The path taken when the allocation fails. *)
Lemma trim_loop_spec fuel h p changed :
  history_wf h → (Z.to_nat (h_entry_count h) ≤ fuel)%nat →
  trim_loop fuel h p changed = (trimmed h p, changed || (0 <? evicted h p)%nat).
Proof.
  revert h changed. induction fuel as [|fuel IH]; intros h changed Hwf Hf; cbn [trim_loop];
    destruct (Z.ltb_spec (Z.of_nat LSM_HISTORY_MAX_ENTRIES) (h_entry_count h)) as [Hgt|Hle].
  - lia.
  - assert (E : evicted h p = 0%nat) by (unfold evicted; lia).
    by rewrite trimmed_0, E, orb_false_r by done.
  - pose proof (remove_oldest_spec h p Hwf) as Hr.
    destruct (by_age (h_app_history h) p) as [|e rest] eqn:Eb.
    + rewrite Hr. assert (E : evicted h p = 0%nat) by (unfold evicted; rewrite Eb; simpl; lia).
      by rewrite trimmed_0, E, orb_false_r by done.
    + destruct Hr as (h' & -> & Hwf' & Eh & Eb').
      assert (Ec : h_entry_count h' = h_entry_count h - 1) by (by rewrite Eh).
      assert (Et : h_app_history h' = delete (he_key e) (h_app_history h)) by (by rewrite Eh).
      rewrite IH by (done || lia).
      assert (Ev : evicted h p = S (evicted h' p)).
      { unfold evicted. rewrite Eb, Eb', Ec. simpl. lia. }
      rewrite Ev. rewrite orb_true_r. f_equal. unfold trimmed.
      rewrite Ev, (evict_step _ _ _ _ _ (wf_keyed _ Hwf) Eb), Et, Ec, Eh.
      unfold set_field. cbn. f_equal. lia.
  - assert (E : evicted h p = 0%nat) by (unfold evicted; lia).
    by rewrite trimmed_0, E, orb_false_r by done.
Qed.

(** The batch path. *)
Lemma remove_candidates_spec l m removed :
  table_keyed m → NoDup (he_key <$> l) → (∀ e, e ∈ l → m !! he_key e = Some e) →
  foldl remove_candidate (m, removed) l = (delete_entries m l, removed + Z.of_nat (length l)).
Proof.
  revert m removed. induction l as [|e l IH]; intros m removed Hm Hnd Hin; simpl.
  { f_equal. lia. }
  rewrite fmap_cons in Hnd. apply NoDup_cons in Hnd as [He Hnd].
  rewrite (Hin e) by apply list_elem_of_here. rewrite IH; [f_equal; lia|by apply table_keyed_delete|done|].
  intros e' He'. rewrite lookup_delete_ne; [by apply Hin, list_elem_of_further|].
  intros E. apply He. rewrite E. by apply list_elem_of_fmap_2.
Qed.

Lemma trim_spec h p allocated :
  history_wf h →
  history_trim_to_limit h p allocated = (trimmed h p, (0 <? evicted h p)%nat).
Proof.
  intros Hwf. unfold history_trim_to_limit.
  destruct (Z.leb_spec (h_entry_count h) (Z.of_nat LSM_HISTORY_MAX_ENTRIES)) as [Hle|Hgt].
  { assert (E : evicted h p = 0%nat) by (unfold evicted; lia). by rewrite trimmed_0, E. }
  destruct allocated; [|rewrite trim_loop_spec by done; done].
  unfold eviction_candidates. change (List.filter _ (snd <$> _)) with
    (List.filter (unprotected p) (snd <$> hash_iterate (h_app_history h))).
  fold (by_age (h_app_history h) p). fold (evicted h p).
  pose proof (by_age_NoDup (h_app_history h) p (wf_keyed _ Hwf)) as Hnd.
  assert (Hlen : length (take (evicted h p) (by_age (h_app_history h) p)) = evicted h p)
    by (rewrite length_take; unfold evicted; lia).
  rewrite remove_candidates_spec; [|apply Hwf| |].
  - rewrite Hlen, Z.add_0_l. cbn. destruct (Z.ltb_spec (h_entry_count h) (Z.of_nat (evicted h p))) as [Hlt|_].
    { unfold evicted in Hlt. lia. }
    apply pair_equal_spec. split; [done|]. by destruct (evicted h p).
  - eapply sublist_NoDup; [exact Hnd|]. apply fmap_sublist, sublist_take.
  - intros e He. apply (by_age_lookup _ p); [apply Hwf|].
    eapply elem_of_take in He as (i & Hi & _). by eapply list_elem_of_lookup_2.
Qed.
End eviction.

Section trim_facts.
Context `{HashOrderLaws}.
Implicit Types m : HistoryTable.

Lemma delete_entries_lookup l m k :
  delete_entries m l !! k = if bool_decide (k ∈ he_key <$> l) then None else m !! k.
Proof.
  revert m. induction l as [|e l IH]; intros m; [done|]. cbn [delete_entries foldl].
  change (foldl _ (delete (he_key e) m) l) with (delete_entries (delete (he_key e) m) l).
  rewrite IH, fmap_cons. destruct (decide (k = he_key e)) as [->|Hne].
  - rewrite lookup_delete_eq, (bool_decide_eq_true_2 (_ ∈ _ :: _)) by (by left). by case_bool_decide.
  - rewrite lookup_delete_ne by done.
    destruct (decide (k ∈ he_key <$> l)).
    + rewrite !bool_decide_eq_true_2 by (done || by right). done.
    + rewrite !bool_decide_eq_false_2; [done| |done]. intros [|]%elem_of_cons; done.
Qed.

Lemma delete_entries_size l m :
  NoDup (he_key <$> l) → (∀ e, e ∈ l → m !! he_key e = Some e) →
  size m = (size (delete_entries m l) + length l)%nat.
Proof.
  revert m. induction l as [|e l IH]; intros m Hnd Hin; [simpl; lia|].
  rewrite fmap_cons in Hnd. apply NoDup_cons in Hnd as [He Hnd].
  pose proof (Hin e ltac:(by left)) as Hm.
  specialize (IH (delete (he_key e) m) Hnd). rewrite map_size_delete_Some in IH by eauto.
  assert (0 < size m)%nat.
  { destruct (decide (size m = 0%nat)) as [E|]; [|lia].
    apply map_size_empty_inv in E as ->. by rewrite lookup_empty in Hm. }
  simpl. change (foldl _ (delete (he_key e) m) l) with (delete_entries (delete (he_key e) m) l).
  rewrite <-plus_n_Sm, <-IH; [lia|].
  intros e' He'. rewrite lookup_delete_ne; [by apply Hin; right|].
  intros E. apply He. rewrite E. by apply list_elem_of_fmap_2.
Qed.

Definition live_entries (m : HistoryTable) (p : Z) : nat :=
  length (List.filter (protected_by p) (snd <$> map_to_list m)).

Lemma filter_split {A} (f : A → bool) (l : list A) :
  length l = (length (List.filter f l) + length (List.filter (λ x, negb (f x)) l))%nat.
Proof. induction l as [|x l IH]; [done|]. simpl. destruct (f x); simpl; lia. Qed.

Lemma by_age_length m p : size m = (live_entries m p + length (by_age m p))%nat.
Proof.
  rewrite (Permutation_length (by_age_perm m p)).
  rewrite <-length_map_to_list, <-(length_fmap snd). apply filter_split.
Qed.

Lemma taken_spec m p n :
  table_keyed m →
  NoDup (he_key <$> take n (by_age m p)) ∧ ∀ e, e ∈ take n (by_age m p) → m !! he_key e = Some e.
Proof.
  intros Hm. split.
  - eapply sublist_NoDup; [by apply (by_age_NoDup m p)|]. apply fmap_sublist, sublist_take.
  - intros e (i & Hi & _)%elem_of_take. apply (by_age_lookup _ p); [done|].
    by eapply list_elem_of_lookup_2.
Qed.

Lemma evict_lookup m p n k :
  evict m p n !! k = if bool_decide (k ∈ he_key <$> take n (by_age m p)) then None else m !! k.
Proof. apply delete_entries_lookup. Qed.

Lemma evicted_le h p : (evicted h p ≤ length (by_age (h_app_history h) p))%nat.
Proof. unfold evicted. lia. Qed.

Lemma evict_size h p :
  history_wf h →
  size (h_app_history h) = (size (h_app_history (trimmed h p)) + evicted h p)%nat.
Proof.
  intros Hwf. destruct (taken_spec (h_app_history h) p (evicted h p) (wf_keyed _ Hwf)) as [Hnd Hin].
  pose proof (delete_entries_size _ _ Hnd Hin) as Hs. rewrite length_take in Hs.
  pose proof (evicted_le h p). cbn. fold (evict (h_app_history h) p (evicted h p)) in Hs.
  rewrite Hs. unfold evict. lia.
Qed.

Lemma trimmed_wf h p : history_wf h → history_wf (trimmed h p).
Proof.
  intros Hwf. pose proof (evict_size h p Hwf) as Hs. split.
  - intros k e. cbn. rewrite evict_lookup. case_bool_decide; [done|]. apply Hwf.
  - change (h_entry_count (trimmed h p)) with (h_entry_count h - Z.of_nat (evicted h p)).
    rewrite (wf_count _ Hwf). lia.
Qed.

Lemma trimmed_bound h p :
  history_wf h →
  (size (h_app_history (trimmed h p))
   ≤ Nat.max LSM_HISTORY_MAX_ENTRIES (live_entries (h_app_history h) p))%nat.
Proof.
  intros Hwf. pose proof (evict_size h p Hwf) as Hs.
  pose proof (by_age_length (h_app_history h) p) as Hl. pose proof (wf_count _ Hwf) as Hc.
  unfold evicted in *. lia.
Qed.

Lemma sorted_take_drop (l : list LsmHistoryEntry) n a b :
  StronglySorted not_newer l → a ∈ take n l → b ∈ drop n l → not_newer a b.
Proof.
  intros Hs. revert n. induction Hs as [|x l Hs IH Hall]; intros n Ha Hb.
  - rewrite take_nil in Ha. by apply elem_of_nil in Ha.
  - destruct n as [|n]; [by apply elem_of_nil in Ha|]. simpl in *.
    apply elem_of_cons in Ha as [->|Ha]; [|by eapply IH].
    eapply Forall_forall in Hall; [exact Hall|].
    rewrite <-(take_drop n l). apply elem_of_app. by right.
Qed.

Lemma trimmed_recency h p k e k' e' :
  history_wf h →
  h_app_history h !! k = Some e → h_app_history (trimmed h p) !! k = None →
  h_app_history (trimmed h p) !! k' = Some e' → protected_by p e' = false →
  history_entry_recency_compare e e' = Lt.
Proof.
  intros Hwf Hk Hk0 Hk' Hun. cbn in Hk0, Hk'.
  rewrite evict_lookup in Hk'. case_bool_decide as Hnin; [done|].
  rewrite evict_lookup in Hk0. case_bool_decide as Hin; [|congruence]. clear Hk0.
  pose proof (wf_keyed _ Hwf) as Hkey. set (m := h_app_history h) in *.
  apply list_elem_of_fmap in Hin as (x & -> & Hx).
  assert (x = e) as ->.
  { destruct (taken_spec m p (evicted h p) Hkey) as [_ Ht]. specialize (Ht x Hx). congruence. }
  assert (He' : e' ∈ by_age m p).
  { apply elem_of_by_age. split; [eauto|]. unfold unprotected. by rewrite Hun. }
  assert (Hd : e' ∈ drop (evicted h p) (by_age m p)).
  { rewrite <-(take_drop (evicted h p) (by_age m p)) in He'.
    apply elem_of_app in He' as [He'|He']; [|done]. destruct Hnin.
    rewrite <-(Hkey _ _ Hk'). by apply list_elem_of_fmap_2. }
  pose proof (sorted_take_drop _ _ _ _ (by_age_sorted m p) Hx Hd) as Hle.
  unfold not_newer in Hle. destruct (history_entry_recency_compare e e') eqn:E; [|done|done].
  destruct Hnin. apply recency_eq in E. rewrite <-(Hkey _ _ Hk'), <-E.
  by apply list_elem_of_fmap_2.
Qed.

(** An eviction leaves every protected entry, and the rest as it was. *)
Lemma trimmed_lookup h p k e :
  history_wf h → h_app_history h !! k = Some e →
  h_app_history (trimmed h p) !! k = Some e
  ∨ h_app_history (trimmed h p) !! k = None ∧ protected_by p e = false
    ∧ (LSM_HISTORY_MAX_ENTRIES ≤ size (h_app_history (trimmed h p)))%nat.
Proof.
  intros Hwf Hk. pose proof (evict_size h p Hwf) as Hs. pose proof (wf_count _ Hwf) as Hc.
  cbn in *. rewrite evict_lookup. case_bool_decide as Hin; [|by left].
  right. pose proof Hin as Hpos.
  apply list_elem_of_fmap in Hin as (x & Ek & (i & Hi & Hlt)%elem_of_take).
  apply list_elem_of_lookup_2 in Hi.
  pose proof (by_age_lookup _ p x (wf_keyed _ Hwf) Hi) as Hx.
  rewrite <-Ek, Hk in Hx. injection Hx as ->.
  apply elem_of_by_age in Hi as [_ Hu]. unfold unprotected in Hu.
  split_and!; [done|by apply negb_true_iff|]. unfold evicted in *. lia.
Qed.

Lemma trimmed_none h p k : h_app_history h !! k = None → h_app_history (trimmed h p) !! k = None.
Proof. intros Hk. cbn. rewrite evict_lookup. by case_bool_decide. Qed.

Lemma trimmed_changed h p :
  history_wf h → (0 <? evicted h p)%nat = true ↔ h_app_history (trimmed h p) ≠ h_app_history h.
Proof.
  intros Hwf. pose proof (evict_size h p Hwf) as Hs.
  destruct (Nat.ltb_spec 0 (evicted h p)) as [Hpos|Hz]; split; try done.
  - intros _ E. rewrite E in Hs. lia.
  - intros Hne. destruct Hne. assert (evicted h p = 0%nat) as E by lia. by rewrite trimmed_0.
Qed.
End trim_facts.

Lemma trimmed_order (o1 o2 : HashOrder) (L1 : @HashOrderLaws o1) (L2 : @HashOrderLaws o2) h p :
  history_wf h → @trimmed o1 h p = @trimmed o2 h p ∧ @evicted o1 h p = @evicted o2 h p.
Proof.
  intros Hwf. assert (E : @by_age o1 (h_app_history h) p = @by_age o2 (h_app_history h) p).
  { apply (@by_age_unique o2 L2); [apply Hwf|apply (@by_age_sorted o1)|apply (@by_age_perm o1 L1)]. }
  unfold trimmed, evict, evicted. by rewrite E.
Qed.

(** (C33) The retention bound.  Whatever order GLib iterates its table in
    and whether or not the batch array could be allocated, trimming gives the
    same table: at most 4096 entries, or the entries of the current snapshot
    when those alone are more; no entry changes, none of the current snapshot
    is evicted, every evicted entry is older than every kept one that is not of
    the current snapshot, and the result says whether anything was evicted. *)
Theorem history_trim_bounded (o1 o2 : HashOrder) (L1 : @HashOrderLaws o1)
    (L2 : @HashOrderLaws o2) h p allocated1 allocated2 :
  history_wf h →
  @history_trim_to_limit o1 h p allocated1 = @history_trim_to_limit o2 h p allocated2
  ∧ ∃ h' changed, @history_trim_to_limit o1 h p allocated1 = (h', changed)
    ∧ history_wf h'
    ∧ (size (h_app_history h') ≤ Nat.max LSM_HISTORY_MAX_ENTRIES (live_entries (h_app_history h) p))%nat
    ∧ h_app_history h' ⊆ h_app_history h
    ∧ (∀ k e, h_app_history h !! k = Some e → protected_by p e = true →
         h_app_history h' !! k = Some e)
    ∧ (∀ k e k' e', h_app_history h !! k = Some e → h_app_history h' !! k = None →
         h_app_history h' !! k' = Some e' → protected_by p e' = false →
         history_entry_recency_compare e e' = Lt)
    ∧ (changed = true ↔ h_app_history h' ≠ h_app_history h).
Proof.
  intros Hwf. destruct (trimmed_order o1 o2 L1 L2 h p Hwf) as [E1 E2].
  rewrite !trim_spec by done. split; [by rewrite E1, E2|].
  eexists _, _. split; [done|]. split_and!.
  - by apply trimmed_wf.
  - by apply trimmed_bound.
  - apply map_subseteq_spec. intros k e. cbn. rewrite evict_lookup. by case_bool_decide.
  - intros k e Hk Hp. destruct (trimmed_lookup h p k e Hwf Hk) as [|(_ & E & _)]; congruence.
  - intros k e k' e'. by apply trimmed_recency.
  - by apply trimmed_changed.
Qed.

(** ** What a snapshot adds *)

Section ingest_facts.
Context `{ArithmeticLaws, TextOps}.

Definition app_key (row : LsmProcessInfo * Z) : string := (history_identity row.1).1.
Definition row_key (row : LsmProcessInfo * Z) : Z * Z := process_key row.1.

(** The deltas of a row against the samples before the snapshot. *)
Definition row_deltas (samples : SampleTable) (row : LsmProcessInfo * Z) : Z * Z * Z :=
  sample_deltas row.1 (samples !! row_key row).

Section rows.
Variables (generation now_epoch : Z) (elapsed : double) (samples : SampleTable).

(** One row on the entry of its application. *)
Definition row_entry (entry : option LsmHistoryEntry) (row : LsmProcessInfo * Z)
    : option LsmHistoryEntry :=
  let entry := match entry with
               | Some entry => entry
               | None => history_entry_new row.1 (app_key row) (history_identity row.1).2 row.2
               end in
  Some (account_deltas now_epoch row.1 (row_deltas samples row)
          (account_presence generation elapsed row.1 entry)).

Definition of_app (k : string) (rows : list (LsmProcessInfo * Z)) : list (LsmProcessInfo * Z) :=
  List.filter (λ row, bool_decide (app_key row = k)) rows.

Lemma ingest_row_eq table samples0 count row :
  ∃ table' count', ingest_row generation now_epoch elapsed (table, samples0, count) row
    = (table', <[row_key row := sample_of_process generation row.1]> samples0, count')
    ∧ (samples0 !! row_key row = samples !! row_key row →
         table' = match row_entry (table !! app_key row) row with
                  | Some e => <[app_key row := e]> table
                  | None => table
                  end)
    ∧ count' = (if bool_decide (is_Some (table !! app_key row)) then count
                else wrap 32 (count + 1)).
Proof.
  unfold ingest_row, row_entry, row_deltas, app_key, row_key.
  destruct row as [p created]. cbn [fst snd]. destruct (history_identity p) as [k i].
  cbn [fst snd]. destruct (table !! k) as [e|]; (do 2 eexists; split_and!; [reflexivity|by intros ->|done]).
Qed.

Lemma ingest_rows rows table samples0 count :
  NoDup (row_key <$> rows) → (∀ row, row ∈ rows → samples0 !! row_key row = samples !! row_key row) →
  ∃ table' samples' count',
    foldl (ingest_row generation now_epoch elapsed) (table, samples0, count) rows
    = (table', samples', count')
    ∧ (∀ k, table' !! k = foldl row_entry (table !! k) (of_app k rows))
    ∧ (∀ row, row ∈ rows → samples' !! row_key row = Some (sample_of_process generation row.1))
    ∧ (∀ pk, pk ∉ row_key <$> rows → samples' !! pk = samples0 !! pk).
Proof.
  revert table samples0 count. induction rows as [|row rows IH]; intros table samples0 count Hnd Hag.
  { exists table, samples0, count. split_and!; [done..| |done]. intros row []%elem_of_nil. }
  rewrite fmap_cons in Hnd. apply NoDup_cons in Hnd as [Hrow Hnd]. cbn [foldl].
  destruct (ingest_row_eq table samples0 count row) as (t1 & c1 & -> & Ht & _).
  specialize (Ht (Hag row ltac:(by left))).
  destruct (IH t1 (<[row_key row:=sample_of_process generation row.1]> samples0) c1 Hnd)
    as (t' & s' & c' & E & Htab & Hsam & Hold).
  { intros r Hr. rewrite lookup_insert_ne; [by apply Hag; right|].
    intros Ek. apply Hrow, list_elem_of_fmap. by exists r. }
  exists t', s', c'. split_and!; [done| | |].
  - intros k. rewrite Htab. subst t1. cbn [row_entry of_app List.filter].
    destruct (decide (app_key row = k)) as [<-|Hne].
    + rewrite bool_decide_eq_true_2 by done. cbn [foldl]. f_equal. by rewrite lookup_insert_eq.
    + rewrite bool_decide_eq_false_2 by done. f_equal. by rewrite lookup_insert_ne.
  - intros r [->|Hr]%elem_of_cons; [|by apply Hsam].
    rewrite Hold by done. by rewrite lookup_insert_eq.
  - intros pk Hpk. rewrite Hold; [|intros Hin; apply Hpk; by right].
    rewrite lookup_insert_ne; [done|]. intros <-. apply Hpk. by left.
Qed.

(** Sums over the rows of one application. *)
Definition sum_of (f : LsmProcessInfo * Z → Z) (rows : list (LsmProcessInfo * Z)) : Z :=
  foldr (λ row sum, f row + sum) 0 rows.

Definition entry_u64 (e : LsmHistoryEntry) : Prop :=
  u64 (he_read_bytes e) ∧ u64 (he_write_bytes e) ∧ u64 (he_peak_rss_bytes e)
  ∧ u64 (he_current_rss_bytes e).

Definition process_u64 (p : LsmProcessInfo) : Prop :=
  u64 (p_rss_bytes p) ∧ u64 (p_read_bytes p) ∧ u64 (p_write_bytes p)
  ∧ u64 (p_cpu_time_nanoseconds p).

Definition sample_u64 (s : LsmHistorySample) : Prop :=
  u64 (hs_cpu_time_nanoseconds s) ∧ u64 (hs_read_bytes s) ∧ u64 (hs_write_bytes s).

Lemma counter_advance_u64 a b : u64 a → u64 b → u64 (counter_advance a b).
Proof.
  unfold counter_advance, u64, uint64_max. destruct (Z.leb_spec b a); lia.
Qed.

Lemma row_deltas_u64 row :
  process_u64 row.1 → (∀ s, samples !! row_key row = Some s → sample_u64 s) →
  u64 (row_deltas samples row).1.1 ∧ u64 (row_deltas samples row).1.2 ∧ u64 (row_deltas samples row).2.
Proof.
  intros (_ & Hr & Hw & Hc) Hs. unfold row_deltas, sample_deltas.
  destruct (samples !! row_key row) as [s|].
  - destruct (Hs s eq_refl) as (Hsc & Hsr & Hsw). simpl.
    split_and!; by apply counter_advance_u64.
  - simpl. unfold u64, uint64_max. lia.
Qed.

(** The totals of an entry after some rows of its application, starting from
    [e0] as the first row of the snapshot finds it. *)
Record accounted (e0 e : LsmHistoryEntry) (rows : list (LsmProcessInfo * Z)) : Prop := {
  acc_read : he_read_bytes e
    = Z.min uint64_max (he_read_bytes e0 + sum_of (λ r, (row_deltas samples r).1.2) rows);
  acc_write : he_write_bytes e
    = Z.min uint64_max (he_write_bytes e0 + sum_of (λ r, (row_deltas samples r).2) rows);
  acc_rss : he_current_rss_bytes e = Z.min uint64_max (sum_of (λ r, p_rss_bytes r.1) rows);
  acc_peak : he_peak_rss_bytes e = Z.max (he_peak_rss_bytes e0) (he_current_rss_bytes e);
  (** active time advances once per application, not per process *)
  acc_active : he_active_seconds e = dadd (he_active_seconds e0) elapsed;
  acc_cpu : he_cpu_seconds e
    = foldl (λ t r, dadd t (ddiv (double_of_Z (row_deltas samples r).1.1) d1e9))
            (he_cpu_seconds e0) rows;
  acc_live : he_live_generation e = generation;
  acc_names : he_key e = he_key e0 ∧ he_name e = he_name e0 ∧ he_user e = he_user e0
              ∧ he_identity e = he_identity e0 ∧ he_first_seen e = he_first_seen e0;
  acc_last : he_last_seen e = he_last_seen e0 ∨ he_last_seen e = now_epoch;
}.

Lemma sum_of_snoc f rows row : sum_of f (rows ++ [row]) = sum_of f rows + f row.
Proof.
  unfold sum_of. rewrite foldr_app. cbn [foldr]. induction rows as [|r rows IH]; cbn [foldr]; lia.
Qed.

Lemma sum_of_nonneg f rows : (∀ row, row ∈ rows → 0 <= f row) → 0 <= sum_of f rows.
Proof.
  intros Hf. induction rows as [|r rows IH]; [done|].
  change (sum_of f (r :: rows)) with (f r + sum_of f rows).
  assert (0 <= f r) by (apply Hf; by left).
  assert (0 <= sum_of f rows) by (apply IH; intros; apply Hf; by right). lia.
Qed.

(** The fields a row's deltas change. *)
Lemma account_deltas_fields now p d e :
  u64 d.1.2 → u64 d.2 → u64 (he_read_bytes e) → u64 (he_write_bytes e) →
  let e' := account_deltas now p d e in
  he_read_bytes e' = Z.min uint64_max (he_read_bytes e + d.1.2)
  ∧ he_write_bytes e' = Z.min uint64_max (he_write_bytes e + d.2)
  ∧ he_cpu_seconds e' = dadd (he_cpu_seconds e) (ddiv (double_of_Z d.1.1) d1e9)
  ∧ (he_last_seen e' = he_last_seen e ∨ he_last_seen e' = now)
  ∧ he_current_rss_bytes e' = he_current_rss_bytes e ∧ he_peak_rss_bytes e' = he_peak_rss_bytes e
  ∧ he_active_seconds e' = he_active_seconds e ∧ he_live_generation e' = he_live_generation e
  ∧ he_key e' = he_key e ∧ he_name e' = he_name e ∧ he_user e' = he_user e
  ∧ he_identity e' = he_identity e ∧ he_first_seen e' = he_first_seen e.
Proof.
  destruct d as [[c r] w]. simpl. intros Hr Hw Her Hew. unfold account_deltas.
  rewrite !add_saturating_spec by done. destruct (_ || _); cbn; split_and!; auto.
Qed.

Lemma account_presence_fields p e :
  u64 (p_rss_bytes p) → u64 (he_current_rss_bytes e) →
  let e' := account_presence generation elapsed p e in
  let rss := if he_live_generation e =? generation then he_current_rss_bytes e else 0 in
  he_current_rss_bytes e' = Z.min uint64_max (rss + p_rss_bytes p)
  ∧ he_peak_rss_bytes e' = Z.max (he_peak_rss_bytes e) (he_current_rss_bytes e')
  ∧ he_active_seconds e' = (if he_live_generation e =? generation then he_active_seconds e
                            else dadd (he_active_seconds e) elapsed)
  ∧ he_live_generation e' = generation
  ∧ he_read_bytes e' = he_read_bytes e ∧ he_write_bytes e' = he_write_bytes e
  ∧ he_cpu_seconds e' = he_cpu_seconds e ∧ he_last_seen e' = he_last_seen e
  ∧ he_key e' = he_key e ∧ he_name e' = he_name e ∧ he_user e' = he_user e
  ∧ he_identity e' = he_identity e ∧ he_first_seen e' = he_first_seen e.
Proof.
  intros Hp He. unfold account_presence.
  destruct (Z.eqb_spec (he_live_generation e) generation) as [El|El]; cbn [negb].
  - rewrite add_saturating_spec by done. cbn -[Z.min Z.max Z.add uint64_max].
    destruct (Z.ltb_spec (he_peak_rss_bytes e)
                (Z.min uint64_max (he_current_rss_bytes e + p_rss_bytes p))); cbn -[Z.min Z.max Z.add uint64_max];
      split_and!; (done || lia).
  - cbn -[Z.min Z.max Z.add uint64_max]. rewrite add_saturating_spec by (done || unfold u64, uint64_max; lia). cbn -[Z.min Z.max Z.add uint64_max].
    destruct (Z.ltb_spec (he_peak_rss_bytes e) (Z.min uint64_max (0 + p_rss_bytes p))); cbn -[Z.min Z.max Z.add uint64_max];
      split_and!; (done || lia).
Qed.

(** The entry the first row of the application finds. *)
Definition entry_before (entry : option LsmHistoryEntry) (row : LsmProcessInfo * Z)
    : LsmHistoryEntry :=
  default (history_entry_new row.1 (app_key row) (history_identity row.1).2 row.2) entry.

Lemma row_accounted_first entry row :
  entry_u64 (entry_before entry row) → he_live_generation (entry_before entry row) ≠ generation →
  process_u64 row.1 → (∀ s, samples !! row_key row = Some s → sample_u64 s) →
  ∃ e, row_entry entry row = Some e ∧ accounted (entry_before entry row) e [row].
Proof.
  intros (Hr & Hw & Hp & Hc) Hl Hu Hs. destruct (row_deltas_u64 row Hu Hs) as (Hd1 & Hd2 & Hd3).
  destruct Hu as (Hu & _). unfold row_entry.
  change (match entry with Some e => e | None => _ end) with (entry_before entry row).
  eexists; split; [done|]. set (e0 := entry_before entry row) in *.
  destruct (account_presence_fields row.1 e0 Hu Hc)
    as (P1 & P2 & P3 & P4 & P5 & P6 & P7 & P8 & P9 & P10 & P11 & P12 & P13).
  set (e1 := account_presence generation elapsed row.1 e0) in *.
  destruct (account_deltas_fields now_epoch row.1 (row_deltas samples row) e1)
    as (D1 & D2 & D3 & D4 & D5 & D6 & D7 & D8 & D9 & D10 & D11 & D12 & D13); [done..| | |].
  { by rewrite P5. } { by rewrite P6. }
  rewrite (proj2 (Z.eqb_neq _ _) Hl) in P1, P3.
  split; unfold sum_of; cbn [foldl foldr].
  - rewrite D1, P5. f_equal. lia.
  - rewrite D2, P6. f_equal. lia.
  - rewrite D5, P1. f_equal. lia.
  - by rewrite D6, D5.
  - congruence.
  - by rewrite D3, P7.
  - congruence.
  - split_and!; congruence.
  - rewrite <-P8. exact D4.
Qed.

Lemma row_accounted_next e0 e rows row :
  accounted e0 e rows → entry_u64 e0 →
  (∀ r, r ∈ rows ++ [row] → process_u64 r.1 ∧ (∀ s, samples !! row_key r = Some s → sample_u64 s)) →
  ∃ e', row_entry (Some e) row = Some e' ∧ accounted e0 e' (rows ++ [row]).
Proof.
  intros Ha (Hr & Hw & Hp & Hc) Hu.
  assert (Hd : ∀ r, r ∈ rows ++ [row] → u64 (row_deltas samples r).1.2 ∧ u64 (row_deltas samples r).2
                    ∧ u64 (p_rss_bytes r.1)).
  { intros r Hin. destruct (Hu r Hin) as [Hpr Hsm].
    destruct (row_deltas_u64 r Hpr Hsm) as (? & ? & ?). by destruct Hpr. }
  assert (Hn : ∀ f, (∀ r, r ∈ rows ++ [row] → 0 <= f r) → 0 <= sum_of f rows).
  { intros f Hf. apply sum_of_nonneg. intros r Hin. apply Hf, elem_of_app. by left. }
  pose proof (Hn (λ r, (row_deltas samples r).1.2) (λ r Hin, proj1 (proj1 (Hd r Hin)))) as N1.
  pose proof (Hn (λ r, (row_deltas samples r).2) (λ r Hin, proj1 (proj1 (proj2 (Hd r Hin))))) as N2.
  pose proof (Hn (λ r, p_rss_bytes r.1) (λ r Hin, proj1 (proj2 (proj2 (Hd r Hin))))) as N3.
  destruct (Hd row) as (Hd1 & Hd2 & Hd3); [apply elem_of_app; right; by left|].
  destruct Ha as [A1 A2 A3 A4 A5 A6 A7 (A8 & A9 & A10 & A11 & A12) A13].
  assert (Hue : u64 (he_read_bytes e) ∧ u64 (he_write_bytes e) ∧ u64 (he_current_rss_bytes e)).
  { unfold u64, uint64_max in *. lia. }
  destruct Hue as (U1 & U2 & U3). unfold row_entry.
  eexists; split; [done|].
  destruct (account_presence_fields row.1 e Hd3 U3)
    as (P1 & P2 & P3 & P4 & P5 & P6 & P7 & P8 & P9 & P10 & P11 & P12 & P13).
  set (e1 := account_presence generation elapsed row.1 e) in *.
  destruct (account_deltas_fields now_epoch row.1 (row_deltas samples row) e1)
    as (D1 & D2 & D3 & D4 & D5 & D6 & D7 & D8 & D9 & D10 & D11 & D12 & D13); [done..| | |].
  { by rewrite P5. } { by rewrite P6. }
  rewrite A7, Z.eqb_refl in P1, P3. unfold u64 in Hp, Hd1, Hd2, Hd3.
  split; rewrite ?sum_of_snoc, ?foldl_app; cbn [foldl].
  - rewrite D1, P5, A1. lia.
  - rewrite D2, P6, A2. lia.
  - rewrite D5, P1, A3. lia.
  - rewrite D6, D5, P2, A4, <-Z.max_assoc. f_equal. apply Z.max_r. rewrite P1.
    clear -U3 Hd3. unfold u64 in *. lia.
  - congruence.
  - by rewrite D3, P7, A6.
  - congruence.
  - split_and!; congruence.
  - rewrite P8 in D4. destruct D4 as [->| ->]; auto.
Qed.

Lemma rows_accounted entry row rows :
  let e0 := entry_before entry row in
  entry_u64 e0 → he_live_generation e0 ≠ generation →
  (∀ r, r ∈ row :: rows → process_u64 r.1 ∧ (∀ s, samples !! row_key r = Some s → sample_u64 s)) →
  ∃ e, foldl row_entry entry (row :: rows) = Some e ∧ accounted e0 e (row :: rows).
Proof.
  intros e0 He Hl. induction rows as [|x rows IH] using rev_ind; intros Hu.
  - destruct (Hu row ltac:(by left)). by apply row_accounted_first.
  - destruct IH as (e & Ef & Ha).
    { intros r Hr. apply Hu. rewrite app_comm_cons. apply elem_of_app. by left. }
    rewrite app_comm_cons, foldl_app, Ef. cbn [foldl]. by apply row_accounted_next.
Qed.
End rows.
End ingest_facts.

(** ** The accounting theorem *)

(** A state and a snapshot as the monitor produces them: counters within
    their widths, generations that have not wrapped, one row per process. *)
Record ingestible `{TextOps} (h : LsmHistoryState) (rows : list (LsmProcessInfo * Z)) : Prop := {
  ing_wf : history_wf h;
  ing_generation : 0 <= h_generation h ∧ h_generation h + 3 <= uint_max;
  ing_size : Z.of_nat (size (h_app_history h) + length rows) <= uint_max;
  ing_entries : ∀ k e, h_app_history h !! k = Some e →
    entry_u64 e ∧ he_live_generation e <= h_generation h;
  ing_samples : ∀ pk s, h_app_history_samples h !! pk = Some s → sample_u64 s;
  ing_rows : ∀ row, row ∈ rows → process_u64 row.1;
  ing_distinct : NoDup (row_key <$> rows);
}.

Section ingest_table.
Context `{ArithmeticLaws, TextOps}.
Variables (generation now_epoch : Z) (elapsed : double).

Lemma row_entry_key samples entry row e :
  row_entry generation now_epoch elapsed samples entry row = Some e →
  he_key e = match entry with Some e0 => he_key e0 | None => app_key row end.
Proof.
  unfold row_entry. intros [= <-]. destruct (row_deltas samples row) as [[c r] w].
  unfold account_deltas, account_presence.
  destruct entry; repeat case_match; done.
Qed.

(** The table stays keyed and counted through a snapshot. *)
Lemma ingest_rows_wf rows table samples count :
  table_keyed table → count = Z.of_nat (size table) →
  Z.of_nat (size table + length rows) <= uint_max →
  let '(table', _, count') := foldl (ingest_row generation now_epoch elapsed)
                                    (table, samples, count) rows in
  table_keyed table' ∧ count' = Z.of_nat (size table').
Proof.
  revert table samples count. induction rows as [|row rows IH]; intros table samples count Hk -> Hs; [done|].
  cbn [foldl]. cbn [length] in Hs.
  destruct (ingest_row_eq generation now_epoch elapsed samples table samples
              (Z.of_nat (size table)) row) as (t1 & c1 & -> & Ht & Hc).
  specialize (Ht eq_refl).
  destruct (row_entry _ _ _ _ _ _) as [e|] eqn:Ee; [|done].
  pose proof (row_entry_key _ _ _ _ Ee) as Hkey. subst t1 c1.
  destruct (table !! app_key row) as [e0|] eqn:El.
  - rewrite bool_decide_eq_true_2 by eauto.
    assert (Esz : size (<[app_key row:=e]> table) = size table) by (apply map_size_insert_Some; eauto).
    apply IH; rewrite ?Esz; [|done|lia].
    apply table_keyed_insert; [done|]. rewrite Hkey. by apply Hk.
  - rewrite bool_decide_eq_false_2 by (intros [? ?]; done).
    assert (Esz : size (<[app_key row:=e]> table) = S (size table)) by by apply map_size_insert_None.
    apply IH; rewrite ?Esz; [by apply table_keyed_insert| |lia].
    unfold wrap. rewrite Z.mod_small; unfold uint_max in *; lia.
Qed.

Lemma live_entries_le_rows m (rows : list (LsmProcessInfo * Z)) :
  table_keyed m →
  (∀ k e, m !! k = Some e → protected_by generation e = true → k ∈ app_key <$> rows) →
  (live_entries m generation ≤ length rows)%nat.
Proof.
  intros Hk Hin. unfold live_entries.
  rewrite <-(length_fmap app_key rows), <-(length_fmap he_key).
  apply submseteq_length, NoDup_submseteq.
  - apply NoDup_fmap_filter. rewrite values_keys by done. apply NoDup_fst_map_to_list.
  - intros k (e & -> & He)%list_elem_of_fmap.
    apply list_elem_of_In, List.filter_In in He as [He Hp].
    apply list_elem_of_In, elem_of_values in He as (k & He). rewrite (Hk _ _ He). by eapply Hin.
Qed.

Lemma of_app_nil k rows : of_app k rows = [] ↔ k ∉ app_key <$> rows.
Proof.
  unfold of_app. induction rows as [|row rows IH]; [split; [intros _ []%elem_of_nil|done]|].
  rewrite fmap_cons, not_elem_of_cons, <-IH. cbn [List.filter].
  case_bool_decide as E; split; [done|by intros [? _]|by intros ->|by intros [_ ?]].
Qed.

Lemma elem_of_of_app k rows row : row ∈ of_app k rows → row ∈ rows ∧ app_key row = k.
Proof.
  intros Hin. apply list_elem_of_In, List.filter_In in Hin as [Hin Hk].
  by apply bool_decide_eq_true in Hk; apply list_elem_of_In in Hin.
Qed.
End ingest_table.

(** The table before the trim. *)
Lemma ingest_untrimmed `{ArithmeticLaws, TextOps} h rows now_epoch elapsed :
  ingestible h rows →
  let g := h_generation h + 1 in
  ∃ table samples,
    foldl (ingest_row g now_epoch elapsed)
          (h_app_history h, h_app_history_samples h, h_entry_count h) rows
    = (table, samples, Z.of_nat (size table))
    ∧ table_keyed table
    ∧ (∀ k row rest, of_app k rows = row :: rest → ∃ e, table !! k = Some e
         ∧ accounted g now_epoch elapsed (h_app_history_samples h)
             (entry_before (h_app_history h !! k) row) e (row :: rest))
    ∧ (∀ k, of_app k rows = [] → table !! k = h_app_history h !! k)
    ∧ (∀ row, row ∈ rows → samples !! row_key row = Some (sample_of_process g row.1))
    ∧ (∀ pk, pk ∉ row_key <$> rows → samples !! pk = h_app_history_samples h !! pk).
Proof.
  intros [[Hk Hc] Hg Hs He Hsam Hr Hd] g.
  destruct (ingest_rows g now_epoch elapsed (h_app_history_samples h) rows (h_app_history h)
              (h_app_history_samples h) (h_entry_count h) Hd ltac:(done))
    as (table & samples & count & E & Ht & Hin & Hout).
  pose proof (ingest_rows_wf g now_epoch elapsed rows _ (h_app_history_samples h) _ Hk Hc Hs) as Hwf.
  rewrite E in Hwf. destruct Hwf as [Hk' ->].
  exists table, samples. split_and!; [done|done| | |done|done].
  - intros k row rest Ek. rewrite Ht, Ek.
    assert (Hbefore : entry_u64 (entry_before (h_app_history h !! k) row)
      ∧ he_live_generation (entry_before (h_app_history h !! k) row) ≠ g).
    { destruct (h_app_history h !! k) as [e0|] eqn:E0.
      - destruct (He _ _ E0). split; [done|]. cbn. lia.
      - cbn. unfold entry_u64, u64, uint64_max. cbn. lia. }
    destruct Hbefore. apply rows_accounted; [done..|].
    intros r Hin'. rewrite <-Ek in Hin'. apply elem_of_of_app in Hin' as [Hin' _].
    split; [by apply Hr|intros s; apply Hsam].
  - intros k Ek. by rewrite Ht, Ek.
Qed.

(** (C7) Accounting a snapshot.  Every application of the snapshot ends up
    with the totals of the one before plus the saturating sums, over its
    processes, of what each read, wrote and computed since its own previous
    sample (nothing for an instance not seen before or a counter that went
    back), with the summed resident memory and its peak, and with the elapsed
    time added once however many processes it has; the others are unchanged, or
    evicted from a full table; every process gets a new baseline and the
    baselines of processes gone for more than two snapshots are dropped; the
    table stays consistent and bounded, and a non-empty snapshot marks it dirty. *)
Theorem history_ingest_accounts `{ArithmeticLaws, TextOps, HashOrderLaws} h rows now_mono now_epoch
    allocated :
  ingestible h rows →
  let g := h_generation h + 1 in
  let elapsed := sample_interval h now_mono in
  let h' := lsm_app_history_ingest h rows now_mono now_epoch allocated in
  history_wf h' ∧ h_generation h' = g ∧ h_last_sample h' = now_mono
  ∧ h_dirty h' = (negb (length rows =? 0)%nat || h_dirty h)
  ∧ (size (h_app_history h') ≤ Nat.max LSM_HISTORY_MAX_ENTRIES (length rows))%nat
  ∧ (∀ k row rest, of_app k rows = row :: rest → ∃ e, h_app_history h' !! k = Some e
       ∧ accounted g now_epoch elapsed (h_app_history_samples h)
           (entry_before (h_app_history h !! k) row) e (row :: rest))
  ∧ (∀ k, of_app k rows = [] →
       h_app_history h' !! k = h_app_history h !! k
       ∨ h_app_history h' !! k = None
         ∧ (LSM_HISTORY_MAX_ENTRIES ≤ size (h_app_history h'))%nat)
  ∧ (∀ row, row ∈ rows →
       h_app_history_samples h' !! row_key row = Some (sample_of_process g row.1))
  ∧ (∀ pk, pk ∉ row_key <$> rows →
       h_app_history_samples h' !! pk
       = s ← h_app_history_samples h !! pk;
         if remove_stale_sample g s then None else Some s).
Proof.
  intros Hi g elapsed h'. pose proof (ing_generation _ _ Hi) as Hg.
  destruct (ingest_untrimmed h rows now_epoch elapsed Hi) as (table & samples & E & Hk & Hin & Hout & Hsi & Hso).
  fold g in E, Hin, Hsi.
  set (h1 := h <| h_generation := g |> <| h_last_sample := now_mono |> <| h_app_history := table |>
       <| h_app_history_samples := filter (λ kv, remove_stale_sample g kv.2 = false) samples |>
       <| h_entry_count := Z.of_nat (size table) |>).
  assert (Hwf : history_wf h1) by by split.
  assert (Eh : h' = if negb (length rows =? 0)%nat then history_mark_dirty (trimmed h1 g)
                    else trimmed h1 g).
  { unfold h', lsm_app_history_ingest.
    replace (wrap 32 (h_generation h + 1)) with g by (unfold wrap; rewrite Z.mod_small; unfold uint_max in *; lia).
    fold elapsed. rewrite E. fold h1. by rewrite trim_spec. }
  assert (Et : h_app_history h' = h_app_history (trimmed h1 g)
    ∧ h_app_history_samples h' = h_app_history_samples h1 ∧ h_generation h' = g
    ∧ h_last_sample h' = now_mono ∧ h_entry_count h' = h_entry_count (trimmed h1 g)
    ∧ h_dirty h' = (negb (length rows =? 0)%nat || h_dirty h)).
  { rewrite Eh. destruct (negb _); [|done]. unfold history_mark_dirty. by case_match. }
  destruct Et as (Et & Es & E1 & E2 & Ec & E3). rewrite Et, Es, E1, E2, E3. cbn [h_app_history_samples h1].
  pose proof (trimmed_wf h1 g Hwf) as [Hwk Hwc].
  assert (Hlive : ∀ k e, table !! k = Some e → protected_by g e = true → k ∈ app_key <$> rows).
  { intros k e Hke Hp. destruct (decide (k ∈ app_key <$> rows)) as [|Hn]; [done|].
    apply of_app_nil, Hout in Hn. rewrite Hn in Hke. apply (ing_entries _ _ Hi) in Hke as [_ Hle].
    unfold protected_by in Hp. apply andb_prop in Hp as [_ Hp]. lia. }
  split_and!; try done.
  - split; [by rewrite Et|by rewrite Ec, Et].
  - etrans; [by apply trimmed_bound|]. apply Nat.max_le_compat_l.
    by apply live_entries_le_rows.
  - intros k row rest Er. destruct (Hin k row rest Er) as (e & He & Ha). exists e. split; [|done].
    destruct (trimmed_lookup h1 g k e Hwf He) as [|(_ & Hp & _)]; [done|].
    unfold protected_by in Hp. rewrite (acc_live _ _ _ _ _ _ _ Ha) in Hp.
    rewrite Z.eqb_refl, andb_true_r in Hp. lia.
  - intros k Ek. rewrite <-(Hout k Ek). destruct (table !! k) as [e|] eqn:Hke.
    + destruct (trimmed_lookup h1 g k e Hwf Hke) as [|(? & _ & ?)]; auto.
    + left. by rewrite (trimmed_none h1 g k Hke).
  - intros row Hr. apply map_lookup_filter_Some. split; [by apply Hsi|].
    cbn. unfold remove_stale_sample, wrap. cbn [hs_generation sample_of_process].
    rewrite Z.mod_small; unfold uint_max in *; lia.
  - intros pk Hpk. rewrite <-(Hso _ Hpk).
    change (h_app_history_samples h1) with (filter (λ kv, remove_stale_sample g kv.2 = false) samples).
    rewrite map_lookup_filter. destruct (samples !! pk) as [s|]; [|done]. cbn.
    by destruct (remove_stale_sample g s).
Qed.


(** ** Merging *)

Section merge_facts.
Context `{ArithmeticLaws, HashOrderLaws}.

(** The merged table, without an iteration order. *)
Definition merged (current loaded : HistoryTable) : HistoryTable :=
  union_with (λ c l, Some (merge_entry c l)) current loaded.

Lemma merge_entry_key c l : he_key (merge_entry c l) = he_key c.
Proof. unfold merge_entry. by repeat case_match. Qed.

Lemma merged_keyed c l : table_keyed c → table_keyed l → table_keyed (merged c l).
Proof.
  intros Hc Hl k e. unfold merged. rewrite lookup_union_with.
  destruct (c !! k) as [ec|] eqn:Ec, (l !! k) as [el|] eqn:El; simpl; intros [= <-];
    rewrite ?merge_entry_key; eauto.
Qed.

Lemma merge_rows l table count :
  NoDup (fst <$> l) → (∀ k e, (k, e) ∈ l → he_key e = k) → table_keyed table →
  count = Z.of_nat (size table) → Z.of_nat (size table + length l) <= uint_max →
  foldl merge_row (table, count) l
  = (merged table (list_to_map l), Z.of_nat (size (merged table (list_to_map l)))).
Proof.
  revert table count. induction l as [|[k e] l IH]; intros table count Hnd Hk Ht -> Hs.
  { assert (E : merged table ∅ = table); [|by cbn; rewrite E].
    apply map_eq. intros i. unfold merged. rewrite lookup_union_with, lookup_empty.
    by destruct (table !! i). }
  rewrite fmap_cons in Hnd. apply NoDup_cons in Hnd as [Hn Hnd]. cbn in Hn.
  assert (Ek : he_key e = k) by (apply Hk; by left).
  assert (El : list_to_map (M:=HistoryTable) l !! k = None) by by apply not_elem_of_list_to_map_1.
  cbn [length] in Hs. cbn [foldl list_to_map foldr fst snd]. cbn [merge_row]. rewrite Ek.
  set (t1 := match table !! k with None => e | Some c => merge_entry c e end).
  assert (Em : merged table (<[k := e]> (list_to_map l)) = merged (<[k := t1]> table) (list_to_map l)).
  { apply map_eq. intros i. unfold merged. rewrite !lookup_union_with.
    destruct (decide (i = k)) as [->|Hne].
    - rewrite !lookup_insert_eq, El. unfold t1. by destruct (table !! k).
    - by rewrite !lookup_insert_ne. }
  rewrite Em.
  assert (Ht1 : table_keyed (<[k := t1]> table)).
  { apply table_keyed_insert; [done|]. unfold t1. destruct (table !! k) as [c|] eqn:Ec; [|done].
    rewrite merge_entry_key. by apply Ht. }
  unfold t1 in *. destruct (table !! k) as [c|] eqn:Ec.
  - apply IH; try done; [by intros; apply Hk; right| |];
      (rewrite map_size_insert_Some by eauto); [done|lia].
  - apply IH; try done; [by intros; apply Hk; right| |]; rewrite map_size_insert_None by done; [|lia].
    unfold wrap. rewrite Z.mod_small; unfold uint_max in *; lia.
Qed.

Lemma merge_untrimmed h loaded :
  history_wf h → table_keyed loaded →
  Z.of_nat (size (h_app_history h) + size loaded) <= uint_max →
  foldl merge_row (h_app_history h, h_entry_count h) (hash_iterate loaded)
  = (merged (h_app_history h) loaded, Z.of_nat (size (merged (h_app_history h) loaded))).
Proof.
  intros [Hk Hc] Hl Hs. pose proof (hash_iterate_perm loaded) as Hp.
  assert (Hnd : NoDup (fst <$> hash_iterate loaded)) by (rewrite Hp; apply NoDup_fst_map_to_list).
  rewrite (merge_rows _ _ _ Hnd); try done.
  - assert (E : list_to_map (hash_iterate loaded) = loaded).
    { rewrite (list_to_map_proper _ _ Hnd Hp). apply list_to_map_to_list. }
    by rewrite E.
  - intros k e Hin. rewrite Hp in Hin. apply elem_of_map_to_list in Hin. by apply Hl.
  - by rewrite Hp, length_map_to_list.
Qed.
End merge_facts.

(** *** What two records of one application add up to *)

Definition capped_seconds (a b : double) : double :=
  if dlt (dadd a b) seconds_limit then dadd a b else seconds_limit.

(** The earlier of two times of day, where 0 and less mean "never". *)
Definition earlier_seen (a b : Z) : Z :=
  if 0 <? b then if 0 <? a then Z.min a b else b else a.

(** Totals are added up to their limits, the peak and the last observation are the
    larger, the first observation the earlier; who the application is and what it
    holds now is as this session knows it. *)
Definition sum_entry (current loaded : LsmHistoryEntry) : LsmHistoryEntry :=
  {| he_key := he_key current; he_name := he_name current; he_user := he_user current;
     he_identity := he_identity current;
     he_cpu_seconds := capped_seconds (he_cpu_seconds current) (he_cpu_seconds loaded);
     he_active_seconds := capped_seconds (he_active_seconds current) (he_active_seconds loaded);
     he_read_bytes := Z.min uint64_max (he_read_bytes current + he_read_bytes loaded);
     he_write_bytes := Z.min uint64_max (he_write_bytes current + he_write_bytes loaded);
     he_peak_rss_bytes := Z.max (he_peak_rss_bytes current) (he_peak_rss_bytes loaded);
     he_current_rss_bytes := he_current_rss_bytes current;
     he_live_generation := he_live_generation current;
     he_first_seen := earlier_seen (he_first_seen current) (he_first_seen loaded);
     he_last_seen := Z.max (he_last_seen current) (he_last_seen loaded) |}.

Definition entries_u64 (table : HistoryTable) : Prop := ∀ k e, table !! k = Some e → entry_u64 e.

Lemma capped_seconds_spec a b : fmin seconds_limit (dadd a b) = capped_seconds a b.
Proof.
  unfold fmin, capped_seconds. change (isnan seconds_limit) with false. cbv iota.
  destruct (dadd a b) as [| | |] eqn:E; done.
Qed.

Lemma merge_entry_sum `{ArithmeticLaws} current loaded :
  entry_u64 current → entry_u64 loaded → merge_entry current loaded = sum_entry current loaded.
Proof.
  intros Hc Hl. unfold entry_u64 in *. destruct_and?.
  unfold merge_entry. rewrite !capped_seconds_spec, !add_saturating_spec by done.
  unfold sum_entry, earlier_seen. cbn [he_peak_rss_bytes he_first_seen he_last_seen].
  destruct current, loaded. cbn in *.
  repeat match goal with
  | |- context [?a <? ?b] => destruct (Z.ltb_spec a b)
  | |- context [?a <=? ?b] => destruct (Z.leb_spec a b)
  end; cbn in *; f_equal; lia.
Qed.

Lemma merged_sum `{ArithmeticLaws} current loaded : entries_u64 current → entries_u64 loaded →
  merged current loaded = union_with (λ c l, Some (sum_entry c l)) current loaded.
Proof.
  intros Hc Hl. apply map_eq. intros k. unfold merged. rewrite !lookup_union_with.
  destruct (current !! k) as [c|] eqn:Ec, (loaded !! k) as [l|] eqn:El; try done. cbn.
  f_equal. apply merge_entry_sum; eauto.
Qed.

(** (C39) Merging the loaded history.  Whatever order GLib iterates the loaded
    table in, the result is the key-wise union of the two tables, with totals
    added (saturating), the larger peak, the earlier first and the later last
    observation where both have the application, trimmed to the retention
    bound; applications seen by the latest snapshot survive; the history is
    marked for saving when the file held too much or anything was evicted; a
    failed load changes nothing. *)
Theorem history_merge_is_union `{ArithmeticLaws} (o1 o2 : HashOrder) (L1 : @HashOrderLaws o1)
    (L2 : @HashOrderLaws o2) h loaded truncated allocated1 allocated2 :
  history_wf h → table_keyed loaded →
  entries_u64 (h_app_history h) → entries_u64 loaded →
  Z.of_nat (size (h_app_history h) + size loaded) <= uint_max →
  let union := union_with (λ c l, Some (sum_entry c l)) (h_app_history h) loaded in
  let h' := @history_merge_loaded _ o1 h (Some (loaded, truncated)) allocated1 in
  h' = @history_merge_loaded _ o2 h (Some (loaded, truncated)) allocated2
  ∧ history_wf h'
  ∧ h_app_history h' ⊆ union
  ∧ (size (h_app_history h')
     ≤ Nat.max LSM_HISTORY_MAX_ENTRIES (live_entries union (h_generation h)))%nat
  ∧ (∀ k e, union !! k = Some e → protected_by (h_generation h) e = true →
       h_app_history h' !! k = Some e)
  ∧ ((size union ≤ LSM_HISTORY_MAX_ENTRIES)%nat → h_app_history h' = union)
  ∧ (h_dirty h' = true ↔ truncated = true ∨ h_app_history h' ≠ union ∨ h_dirty h = true)
  ∧ history_merge_loaded h None allocated1 = h.
Proof.
  intros Hwf Hl Hcu Hlu Hs union h'. pose proof (merged_sum _ _ Hcu Hlu) as Esum. fold union in Esum.
  assert (Hwf1 : history_wf (h <| h_app_history := union |>
                               <| h_entry_count := Z.of_nat (size union) |>)).
  { split; [|done]. cbn. rewrite <-Esum. apply merged_keyed; [apply Hwf|done]. }
  set (h1 := h <| h_app_history := union |> <| h_entry_count := Z.of_nat (size union) |>) in Hwf1.
  assert (Eh : ∀ o (L : @HashOrderLaws o) a,
    @history_merge_loaded _ o h (Some (loaded, truncated)) a
    = if truncated || (0 <? @evicted o h1 (h_generation h))%nat
      then history_mark_dirty (@trimmed o h1 (h_generation h)) else @trimmed o h1 (h_generation h)).
  { intros o L a. unfold history_merge_loaded. rewrite merge_untrimmed by done.
    rewrite Esum. fold h1.
    by rewrite trim_spec. }
  destruct (trimmed_order o1 o2 L1 L2 h1 (h_generation h) Hwf1) as [E1 E2].
  split; [unfold h'; by rewrite !Eh, E1, E2|].
  pose proof (@trimmed_changed o1 L1 h1 (h_generation h) Hwf1) as Hch.
  pose proof (@trimmed_wf o1 L1 h1 (h_generation h) Hwf1) as [Hk Hc].
  assert (Et : h_app_history h' = h_app_history (@trimmed o1 h1 (h_generation h))
    ∧ h_entry_count h' = h_entry_count (@trimmed o1 h1 (h_generation h))
    ∧ h_dirty h' = (truncated || (0 <? @evicted o1 h1 (h_generation h))%nat || h_dirty h)).
  { unfold h'. rewrite Eh by done. destruct (truncated || (0 <? @evicted o1 h1 (h_generation h))%nat); [|done].
    unfold history_mark_dirty. by case_match. }
  destruct Et as (Et & Ec & Ed). split; [split; [by rewrite Et|by rewrite Ec, Et]|].
  rewrite Et, Ed. split_and!.
  - apply map_subseteq_spec. intros k e. cbn. rewrite evict_lookup. by case_bool_decide.
  - by apply (@trimmed_bound o1).
  - intros k e Hke Hp.
    destruct (@trimmed_lookup o1 L1 h1 (h_generation h) k e Hwf1 Hke) as [|(_ & E & _)]; congruence.
  - intros Hle. rewrite (@trimmed_0 o1); [done|]. unfold evicted. rewrite (wf_count _ Hwf1). cbn. lia.
  - rewrite !orb_true_iff, Hch. tauto.
  - done.
Qed.

(** ** Witnesses *)

From S2P Require Import CommonReference.

#[export] Instance sorted_hash_order : HashOrder := {| hash_iterate _ m := map_to_list m |}.
#[export] Instance sorted_hash_order_laws : HashOrderLaws.
Proof. by split. Qed.

Definition browser (pid rss read : Z) : LsmProcessInfo :=
  process_zero <| p_pid := pid |> <| p_instance_id := 1 |> <| p_account_identity := "u" |>
    <| p_executable := "/b" |> <| p_rss_bytes := rss |> <| p_read_bytes := read |>.
Definition browser_entry (read live seen : Z) : LsmHistoryEntry :=
  history_entry_new (browser 7 0 0) "u|/b" "/b" seen
    <| he_read_bytes := read |> <| he_live_generation := live |>.
(** One application known from two snapshots, with the sample of process 7. *)
Definition running : LsmHistoryState :=
  history_initial <| h_app_history := {["u|/b" := browser_entry 100 2 5]} |>
    <| h_app_history_samples := {[(7, 1) := sample_of_process 2 (browser 7 10 40)]} |>
    <| h_last_sample := d1 |> <| h_generation := 2 |> <| h_entry_count := 1 |>.

Lemma running_entry k e :
  h_app_history running !! k = Some e → k = "u|/b" ∧ e = browser_entry 100 2 5.
Proof.
  change (h_app_history running) with ({["u|/b" := browser_entry 100 2 5]} : HistoryTable).
  by intros [<- <-]%lookup_singleton_Some.
Qed.

Lemma running_wf : history_wf running.
Proof. split; [|done]. intros k e He. apply running_entry in He as [-> ->]. done. Qed.

(** Process 7 read 50 more bytes, process 8 is new. *)
Definition snapshot : list (LsmProcessInfo * Z) := [(browser 7 30 90, 9); (browser 8 20 500, 9)].

Lemma running_ingestible : ingestible running snapshot.
Proof.
  split; [apply running_wf|by split; vm_compute|by vm_compute| | | |].
  - intros k e [-> ->]%running_entry. by repeat split; vm_compute.
  - change (h_app_history_samples running)
      with ({[(7, 1) := sample_of_process 2 (browser 7 10 40)]} : SampleTable).
    intros pk s [<- <-]%lookup_singleton_Some. by repeat split; vm_compute.
  - intros row [->|[->|[]%elem_of_nil]%elem_of_cons]%elem_of_cons; by repeat split; vm_compute.
  - change (row_key <$> snapshot) with [(7, 1); (8, 1)].
    apply (bool_decide_unpack _). vm_compute. done.
Qed.

Lemma history_ingest_accounts_witness :
  ∃ e, h_app_history (lsm_app_history_ingest running snapshot (double_of_Z 3) 60 true) !! "u|/b" = Some e
    ∧ he_read_bytes e = 150 ∧ he_current_rss_bytes e = 50
    ∧ he_active_seconds e = dsub (double_of_Z 3) d1.
Proof.
  destruct (history_ingest_accounts running snapshot (double_of_Z 3) 60 true running_ingestible)
    as (_ & _ & _ & _ & _ & Happ & _).
  destruct (Happ "u|/b" (browser 7 30 90, 9) [(browser 8 20 500, 9)] ltac:(vm_compute; reflexivity))
    as (e & He & [Hr _ Hc _ Ha _ _ _ _]).
  exists e. split; [exact He|]. rewrite Hr, Hc, Ha. split; vm_compute; auto.
Defined.

Lemma history_trim_bounded_witness :
  (size (h_app_history (history_trim_to_limit running 2 false).1) ≤ 4096)%nat.
Proof.
  destruct (history_trim_bounded _ _ sorted_hash_order_laws sorted_hash_order_laws running 2 false true
              running_wf) as (_ & h' & changed & E & _ & Hs & _).
  rewrite E. etrans; [exact Hs|]. vm_compute. lia.
Defined.

(** The same application was observed by an earlier session. *)
Lemma history_merge_is_union_witness :
  ∃ e, h_app_history (history_merge_loaded running
         (Some ({["u|/b" := browser_entry 1000 0 2]}, false)) true) !! "u|/b" = Some e
    ∧ he_read_bytes e = 1100 ∧ he_first_seen e = 2 ∧ he_last_seen e = 5.
Proof.
  destruct (history_merge_is_union _ _ sorted_hash_order_laws sorted_hash_order_laws running
              {["u|/b" := browser_entry 1000 0 2]} false true true running_wf)
    as (_ & _ & _ & _ & Hlive & _).
  { intros k e [<- <-]%lookup_singleton_Some. done. }
  { intros k e [-> ->]%running_entry. by repeat split; vm_compute. }
  { intros k e [<- <-]%lookup_singleton_Some. by repeat split; vm_compute. }
  { vm_compute. done. }
  eexists. split; [apply Hlive; vm_compute; reflexivity|]. vm_compute. done.
Defined.
