(* ===== verification/HistoryPersistence.v ===== *)
(** * HistoryPersistence: the saved form of the application history

    Models [src/src/history_persistence.c] and the load and save side of
    [src/src/history.c]: the immutable save request and its tab-separated text,
    the record parser and the bounded streaming loader, and the save state
    machine of the main loop, its worker task and the coordinator that orders
    their generations. *)
From S2P Require Import Prelude Double CStrings Common ProcessModel History.
From stdpp Require Import sorting.
Local Open Scope Z_scope.

(** ** Save requests *)

(** src: history_persistence.h:27-39 LsmHistoryPersistenceRecord *)
Record LsmHistoryPersistenceRecord := {
  pr_key : string;
  pr_name : string;
  pr_user : string;
  pr_identity : string;
  pr_cpu_seconds : double;
  pr_active_seconds : double;
  pr_read_bytes : Z;
  pr_write_bytes : Z;
  pr_peak_rss_bytes : Z;
  pr_first_seen : Z;
  pr_last_seen : Z;
}.
#[export] Instance eta_LsmHistoryPersistenceRecord : Eta LsmHistoryPersistenceRecord := λ x,
  Build_LsmHistoryPersistenceRecord (pr_key x) (pr_name x) (pr_user x) (pr_identity x)
    (pr_cpu_seconds x) (pr_active_seconds x) (pr_read_bytes x) (pr_write_bytes x)
    (pr_peak_rss_bytes x) (pr_first_seen x) (pr_last_seen x).

(** src: history_persistence.c:45-53 LsmHistorySaveRequest *)
Record LsmHistorySaveRequest := {
  sr_config_dir : string;
  sr_path : string;
  sr_entries : list LsmHistoryPersistenceRecord;
  sr_generation : Z;
}.

(** src: history.c:340-352 history_save_request_create *)
Definition record_of_entry (entry : LsmHistoryEntry) : LsmHistoryPersistenceRecord :=
  {| pr_key := he_key entry; pr_name := he_name entry; pr_user := he_user entry;
     pr_identity := he_identity entry; pr_cpu_seconds := he_cpu_seconds entry;
     pr_active_seconds := he_active_seconds entry; pr_read_bytes := he_read_bytes entry;
     pr_write_bytes := he_write_bytes entry; pr_peak_rss_bytes := he_peak_rss_bytes entry;
     pr_first_seen := he_first_seen entry; pr_last_seen := he_last_seen entry |}.

Definition carriage : ascii := "013"%char.

Fixpoint string_map (f : ascii → ascii) (s : string) : string :=
  match s with
  | EmptyString => EmptyString
  | String c s' => String (f c) (string_map f s')
  end.

Definition is_separator (c : ascii) : bool :=
  Ascii.eqb c tab || Ascii.eqb c carriage || Ascii.eqb c nl.

(** src: history_persistence.c copy_record_string *)
Definition copy_record_string (source : string) : string :=
  string_map (λ c, if is_separator c then " "%char else c) source.

(** src: history_persistence.c:184-201 lsm_history_persistence_request_create *)
Definition copy_record (r : LsmHistoryPersistenceRecord) : LsmHistoryPersistenceRecord :=
  r <| pr_key := copy_record_string (pr_key r) |> <| pr_name := copy_record_string (pr_name r) |>
    <| pr_user := copy_record_string (pr_user r) |>
    <| pr_identity := copy_record_string (pr_identity r) |>.

(** [allocated] is the success of the allocations. *)
(** src: history_persistence.c lsm_history_persistence_request_create *)
Definition lsm_history_persistence_request_create (config_dir path : string)
    (records : list LsmHistoryPersistenceRecord) (generation : Z) (allocated : bool)
    : option LsmHistorySaveRequest :=
  if negb allocated || (LSM_PATH_LEN <=? String.length config_dir)%nat
     || (LSM_PATH_LEN <=? String.length path)%nat then None
  else Some {| sr_config_dir := config_dir; sr_path := path;
               sr_entries := copy_record <$> records; sr_generation := generation |}.

Definition header : string := "# System-Monitor App History v1" +:+ String nl EmptyString.

Definition tabs : string := String tab EmptyString.

Section text.
Context `{NumberOps}.

(** The fields of a line; [None] when a number cannot be formatted. *)
(** src: history_persistence.c:242-260 lsm_history_persistence_request_write *)
Definition record_fields (r : LsmHistoryPersistenceRecord) : option (list string) :=
  match infiltratr_format_fixed_ascii (pr_cpu_seconds r) 6 64,
        infiltratr_format_fixed_ascii (pr_active_seconds r) 6 64 with
  | Some cpu_seconds, Some active_seconds =>
      Some [pr_key r; pr_name r; pr_user r; pr_identity r; cpu_seconds; active_seconds;
            print_u64 (pr_read_bytes r); print_u64 (pr_write_bytes r);
            print_u64 (pr_peak_rss_bytes r); print_i64 (pr_first_seen r);
            print_i64 (pr_last_seen r)]
  | _, _ => None
  end.

(** The output buffer from the given text on; [None] is the ERANGE return. *)
(** src: history_persistence.c:239-261 lsm_history_persistence_request_write *)
Fixpoint append_records (output : string) (entries : list LsmHistoryPersistenceRecord)
    : option string :=
  match entries with
  | [] => Some output
  | r :: entries =>
      match record_fields r with
      | Some fields => append_records (output +:+ CStrings.join tabs fields +:+ String nl EmptyString) entries
      | None => None
      end
  end.

Definition file_text (entries : list LsmHistoryPersistenceRecord) : option string :=
  append_records header entries.

(** ** Loading *)

(** The entry of the eleven fields of a row. *)
(** src: history.c:378-409 history_load_record *)
Definition entry_of_fields (fields : list string) : option LsmHistoryEntry :=
  match fields with
  | [key; name; user; identity; cpu; active; reads; writes; peak; first; last] =>
      let '(cpu_ok, cpu_seconds) := infiltratr_parse_double_range cpu d0 seconds_limit d0 in
      let '(active_ok, active_seconds) := infiltratr_parse_double_range active d0 seconds_limit d0 in
      let '(read_ok, read_bytes) := infiltratr_parse_u64 reads 10 0 in
      let '(write_ok, write_bytes) := infiltratr_parse_u64 writes 10 0 in
      let '(peak_ok, peak_rss_bytes) := infiltratr_parse_u64 peak 10 0 in
      let '(first_ok, first_seen) := infiltratr_parse_i64 first 10 0 in
      let '(last_ok, last_seen) := infiltratr_parse_i64 last 10 0 in
      if cpu_ok && active_ok && read_ok && write_ok && peak_ok && first_ok && last_ok then
        Some {| he_key := key; he_name := name; he_user := user; he_identity := identity;
                he_cpu_seconds := cpu_seconds; he_active_seconds := active_seconds;
                he_read_bytes := read_bytes; he_write_bytes := write_bytes;
                he_peak_rss_bytes := peak_rss_bytes; he_current_rss_bytes := 0;
                he_live_generation := 0; he_first_seen := first_seen; he_last_seen := last_seen |}
      else None
  | _ => None
  end.

Section load.
Context `{HashOrder}.

Definition comparison_le (c : comparison) : bool := match c with Gt => false | _ => true end.

(** [g_hash_table_replace] and the count. *)
(** src: history.c:434-436 history_load_record *)
Definition store_entry (loader : LsmHistoryState) (entry : LsmHistoryEntry) : LsmHistoryState :=
  let existed := bool_decide (is_Some (h_app_history loader !! he_key entry)) in
  let loader := loader <| h_app_history := <[he_key entry := entry]> (h_app_history loader) |> in
  if existed then loader else loader <| h_entry_count := wrap 32 (h_entry_count loader + 1) |>.

(** A parsed entry enters the bounded table, or is dropped; the boolean is the
    request to rewrite the file. *)
(** src: history.c:411-438 history_load_record *)
Definition admit_entry (loader : LsmHistoryState) (entry : LsmHistoryEntry)
    : LsmHistoryState * bool :=
  let existed := bool_decide (is_Some (h_app_history loader !! he_key entry)) in
  if negb existed && (Z.of_nat LSM_HISTORY_MAX_ENTRIES <=? h_entry_count loader) then
    match history_oldest_key loader 0 with
    | None => (loader, true)
    | Some oldest_key =>
        match h_app_history loader !! oldest_key with
        | None => (loader, true)
        | Some oldest =>
            if comparison_le (history_entry_recency_compare entry oldest) then (loader, true)
            else match history_remove_oldest loader 0 with
                 | None => (loader, true)
                 | Some loader => (store_entry loader entry, true)
                 end
        end
    end
  else (store_entry loader entry, false).

(** src: history.c history_load_record *)
Definition history_load_record (loader : LsmHistoryState) (line : string)
    : LsmHistoryState * bool :=
  if negb (nonempty line) || char_is line 0 "#" then (loader, false)
  else
    let fields := g_strsplit tab line 11 in
    if (length fields <? 11)%nat then (loader, true)
    else match entry_of_fields fields with
         | None => (loader, true)
         | Some entry => admit_entry loader entry
         end.

Definition LSM_HISTORY_MAX_LINE_BYTES : nat := Z.to_nat 16384.

(** What the program sees of a buffer: the text before its first NUL. *)
Definition c_string (buffer : string) : string := (span (is_char "000") buffer).1.

(** The trailing newlines and carriage returns are cut off. *)
(** src: history.c:490-493 history_load_path *)
Fixpoint strip_line_end (line : string) : string :=
  match line with
  | EmptyString => EmptyString
  | String c rest =>
      match strip_line_end rest with
      | EmptyString => if Ascii.eqb c nl || Ascii.eqb c carriage then EmptyString
                       else String c EmptyString
      | stripped => String c stripped
      end
  end.

(** [while ((value = fgetc(file)) != '\n' && value != EOF) {}] *)
(** src: history.c:486-486 history_load_path *)
Definition skip_line (stream : string) : string :=
  match split_at nl stream with
  | Some (_, rest) => rest
  | None => EmptyString
  end.

(** The line loop over what is left of the stream.  [feof] is set when a call
    of [fgets] ran into the end of the file before its buffer was full.  Every
    iteration consumes a character, so the length of the stream is enough
    fuel. *)
(** src: history.c:480-495 history_load_path *)
Fixpoint load_lines (fuel : nat) (loader : LsmHistoryState) (truncated : bool) (stream : string)
    : LsmHistoryState * bool :=
  match fuel, stream with
  | O, _ | _, EmptyString => (loader, truncated)
  | S fuel, _ =>
      let '(buffer, rest) := fgets (LSM_HISTORY_MAX_LINE_BYTES - 1) stream in
      let line := c_string buffer in
      let complete := nonempty line && Ascii.eqb (last_char line) nl in
      let at_end := negb (nonempty rest)
                    && (String.length buffer <? LSM_HISTORY_MAX_LINE_BYTES - 1)%nat
                    && negb (Ascii.eqb (last_char buffer) nl) in
      if negb complete && negb at_end then load_lines fuel loader true (skip_line rest)
      else
        let '(loader, stale) := history_load_record loader (strip_line_end line) in
        load_lines fuel loader (truncated || stale) rest
  end.

(** The result of loading a file whose stream has no read error: the entries,
    their count and whether the file must be rewritten. *)
(** src: history.c:456-510 history_load_path *)
Definition history_load_path (stream : string) : HistoryTable * Z * bool :=
  let '(loader, truncated) := load_lines (String.length stream) history_initial false stream in
  (h_app_history loader, h_entry_count loader, truncated).
End load.
End text.

(** ** Streaming retention *)

(** [t] holds the [n] most recent entries of [m]. *)
Record newest (n : nat) (m t : HistoryTable) : Prop := {
  newest_subset : t ⊆ m;
  newest_size : size t = Nat.min n (size m);
  newest_recent : ∀ k e k' e', m !! k = Some e → t !! k = None → t !! k' = Some e' →
    history_entry_recency_compare e e' = Lt;
}.

Section retention_facts.
Context `{HashOrderLaws}.

Lemma newest_all n m t : newest n m t → (size m ≤ n)%nat → t = m.
Proof.
  intros [Hsub Hsz _] Hle. apply map_subseteq_size_eq; [done|lia].
Qed.

Lemma newest_refl n m : (size m ≤ n)%nat → newest n m m.
Proof. intros Hle. split; [done|lia|]. intros k e k' e' Hk Hn. congruence. Qed.

(** The entry the loader compares a row with. *)
Lemma oldest_entry h :
  history_wf h → h_app_history h ≠ ∅ →
  ∃ o h', history_oldest_key h 0 = Some (he_key o) ∧ h_app_history h !! he_key o = Some o
    ∧ history_remove_oldest h 0 = Some h' ∧ history_wf h'
    ∧ h_app_history h' = delete (he_key o) (h_app_history h)
    ∧ ∀ k e, h_app_history h !! k = Some e → k ≠ he_key o →
        history_entry_recency_compare o e = Lt.
Proof.
  intros Hwf Hne. pose proof (remove_oldest_spec h 0 Hwf) as Hr.
  pose proof (by_age_sorted (h_app_history h) 0) as Hs.
  pose proof (oldest_key_head h 0 Hwf) as Hh.
  destruct (by_age (h_app_history h) 0) as [|o rest] eqn:Eb.
  { destruct Hne. apply map_empty. intros k. apply eq_None_not_Some. intros [e He].
    assert (Hin : e ∈ by_age (h_app_history h) 0) by (apply elem_of_by_age; eauto).
    rewrite Eb in Hin. by apply elem_of_nil in Hin. }
  destruct Hr as (h' & Er & Hwf' & Eh & _). exists o, h'. split_and!; [done| |done|done|by rewrite Eh|].
  - apply (by_age_lookup _ 0); [apply Hwf|]. rewrite Eb. by left.
  - intros k e He Hk. assert (Hin : e ∈ by_age (h_app_history h) 0) by (apply elem_of_by_age; eauto).
    pose proof (wf_keyed _ Hwf _ _ He) as Hek.
    rewrite Eb in Hin. apply elem_of_cons in Hin as [->|Hin]; [done|].
    apply StronglySorted_inv in Hs as [_ Hall]. rewrite Forall_forall in Hall.
    specialize (Hall e Hin). unfold not_newer in Hall.
    destruct (history_entry_recency_compare o e) eqn:E; [|done|done].
    apply recency_eq in E. congruence.
Qed.

Lemma store_fresh h e :
  history_wf h → h_app_history h !! he_key e = None →
  Z.of_nat (size (h_app_history h)) < uint_max →
  history_wf (store_entry h e)
  ∧ h_app_history (store_entry h e) = <[he_key e := e]> (h_app_history h).
Proof.
  intros [Hk Hc] Hn Hs. unfold store_entry. rewrite Hn.
  rewrite bool_decide_eq_false_2 by by intros [? ?]. split; [|done]. split.
  - by apply table_keyed_insert.
  - cbn. rewrite map_size_insert_None, Hc by done. unfold wrap, uint_max in *.
    rewrite Z.mod_small; lia.
Qed.

Lemma recency_gt_lt a b : history_entry_recency_compare a b = Gt → history_entry_recency_compare b a = Lt.
Proof. intros E. by rewrite (recency_antisym a b), E. Qed.

(** One more row keeps the most recent ones. *)
Lemma admit_newest m h e :
  history_wf h → newest LSM_HISTORY_MAX_ENTRIES m (h_app_history h) → m !! he_key e = None →
  let '(h', stale) := admit_entry h e in
  history_wf h' ∧ newest LSM_HISTORY_MAX_ENTRIES (<[he_key e := e]> m) (h_app_history h')
  ∧ stale = (LSM_HISTORY_MAX_ENTRIES <=? size m)%nat.
Proof.
  intros Hwf Hnew Hm. pose proof Hnew as [Hsub Hsz Hrec]. pose proof (wf_count _ Hwf) as Hc.
  pose proof (map_size_insert_None (he_key e) e m Hm) as Hms.
  assert (Hn : h_app_history h !! he_key e = None) by by eapply lookup_weaken_None.
  assert (Hbound : Z.of_nat (size (h_app_history h)) < uint_max).
  { unfold LSM_HISTORY_MAX_ENTRIES, uint_max in *. lia. }
  destruct (store_fresh h e Hwf Hn Hbound) as [Hwf1 E1].
  unfold admit_entry. rewrite Hn, bool_decide_eq_false_2 by by intros [? ?]. cbn [negb andb].
  destruct (Z.leb_spec (Z.of_nat LSM_HISTORY_MAX_ENTRIES) (h_entry_count h)) as [Hfull|Hroom].
  2:{ assert (size m < LSM_HISTORY_MAX_ENTRIES)%nat by lia.
      split_and!; [done| |by symmetry; apply Nat.leb_gt].
      rewrite E1, (newest_all _ _ _ Hnew) by lia. apply newest_refl. lia. }
  assert (Hle : (LSM_HISTORY_MAX_ENTRIES ≤ size m)%nat) by lia.
  rewrite (proj2 (Nat.leb_le _ _) Hle).
  destruct (oldest_entry h Hwf) as (o & h' & -> & Ho & Er & Hwf' & E' & Hold).
  { intros E. rewrite E, map_size_empty in Hc. unfold LSM_HISTORY_MAX_ENTRIES in *. lia. }
  rewrite Ho. pose proof (lookup_weaken _ _ _ _ Ho Hsub) as Hmo.
  assert (Hoe : he_key o ≠ he_key e) by congruence.
  destruct (history_entry_recency_compare e o) eqn:Ec; cbn [comparison_le].
  - apply recency_eq in Ec. congruence.
  - split_and!; [done| |done]. split; [by apply insert_subseteq_r| lia |].
    intros k x k' x' [[<- <-]|[Hk Hx]]%lookup_insert_Some Hnx Hx'; [|by eapply Hrec].
    destruct (decide (k' = he_key o)) as [->|Hk']; [by simplify_eq|].
    eapply recency_lt_trans; [exact Ec|by eapply Hold].
  - rewrite Er. pose proof (map_size_delete_Some (he_key o) (h_app_history h) (mk_is_Some _ _ Ho)) as Hds.
    assert (Hn' : h_app_history h' !! he_key e = None) by by rewrite E', lookup_delete_ne.
    assert (Hb' : Z.of_nat (size (h_app_history h')) < uint_max) by (rewrite E', Hds; lia).
    destruct (store_fresh h' e Hwf' Hn' Hb') as [Hwf2 E2]. split_and!; [done| |done].
    rewrite E2, E'. split.
    + apply insert_mono. etrans; [apply delete_subseteq|done].
    + rewrite map_size_insert_None, Hds by by rewrite lookup_delete_ne.
      assert (0 < LSM_HISTORY_MAX_ENTRIES)%nat by (unfold LSM_HISTORY_MAX_ENTRIES; lia). lia.
    + intros k x k' x' Hx Hnx Hx'. apply lookup_insert_None in Hnx as [Hnx Hke].
      rewrite lookup_insert_ne in Hx by done.
      assert (Hox : history_entry_recency_compare x o = Lt ∨ x = o).
      { apply lookup_delete_None in Hnx as [<-|Hnx]; [right; congruence|]. left. by eapply Hrec. }
      assert (Hox' : history_entry_recency_compare o x' = Lt).
      { apply lookup_insert_Some in Hx' as [[_ <-]|[_ [Hk' Hx']%lookup_delete_Some]].
        - by apply recency_gt_lt.
        - by eapply Hold. }
      destruct Hox as [Hox| ->]; [|done]. by eapply recency_lt_trans.
Qed.
End retention_facts.

(** ** Lines *)

(** A character of a saved field, and of a saved line. *)
Definition field_char (c : ascii) : bool := negb (is_separator c) && negb (Ascii.eqb c "000").
Definition line_char (c : ascii) : bool :=
  negb (Ascii.eqb c nl) && negb (Ascii.eqb c carriage) && negb (Ascii.eqb c "000").

Lemma field_line_char c : field_char c = true → line_char c = true.
Proof.
  unfold field_char, line_char, is_separator. intros H. bool_hyps.
  by repeat match goal with E : Ascii.eqb _ _ = false |- _ => rewrite E; clear E end.
Qed.

Lemma field_no_tab s : string_forallb field_char s = true → no_char tab s = true.
Proof.
  apply forallb_impl. intros c H. unfold field_char, is_separator in H. bool_hyps.
  by apply negb_true_iff.
Qed.

Lemma decimal_field_char c : is_decimal c = true → field_char c = true.
Proof.
  unfold is_decimal. cbn [existsb]. rewrite !orb_true_iff.
  intros H. repeat destruct H as [H|H]; try done; by apply Ascii.eqb_eq in H as ->.
Qed.

Lemma fixed_field_char c : fixed_char c = true → field_char c = true.
Proof.
  unfold fixed_char. cbn [existsb]. rewrite !orb_true_iff.
  intros H. repeat destruct H as [H|H]; try done; by apply Ascii.eqb_eq in H as ->.
Qed.

Lemma string_map_forallb f p s :
  string_forallb p (string_map f s) = string_forallb (λ c, p (f c)) s.
Proof. induction s as [|c s IH]; [done|]. simpl. by rewrite IH. Qed.

Lemma string_map_length f s : String.length (string_map f s) = String.length s.
Proof. induction s as [|c s IH]; [done|]. simpl. by rewrite IH. Qed.

(** The copy holds no separator. *)
Lemma copied_field s : no_char "000" s = true → string_forallb field_char (copy_record_string s) = true.
Proof.
  unfold copy_record_string. rewrite string_map_forallb. apply forallb_impl.
  intros c Hc. unfold field_char. destruct (is_separator c) eqn:E; [done|]. by rewrite E.
Qed.

Lemma g_strsplit_join fields :
  fields ≠ [] → Forall (λ f, string_forallb field_char f = true) fields →
  g_strsplit tab (CStrings.join tabs fields) (length fields) = fields.
Proof.
  induction fields as [|x fields IH]; [done|]. intros _ [Hx Hf]%Forall_cons.
  destruct fields as [|y fields]; [done|].
  change (CStrings.join tabs (x :: y :: fields))
    with (x +:+ String tab (CStrings.join tabs (y :: fields))).
  cbn [g_strsplit length]. rewrite split_at_app by by apply field_no_tab.
  f_equal. by apply IH.
Qed.

Lemma join_line_char fields :
  Forall (λ f, string_forallb field_char f = true) fields →
  string_forallb line_char (CStrings.join tabs fields) = true.
Proof.
  induction fields as [|x fields IH]; [done|]. intros [Hx Hf]%Forall_cons.
  destruct fields as [|y fields]; [by eapply forallb_impl; [apply field_line_char|]|].
  change (CStrings.join tabs (x :: y :: fields))
    with (x +:+ String tab (CStrings.join tabs (y :: fields))).
  rewrite CStrings.forallb_app. apply andb_true_iff. split.
  - eapply forallb_impl; [apply field_line_char|done].
  - exact (IH Hf).
Qed.

(** *** The line loop on complete lines *)

Lemma fgets_line n line rest :
  no_char nl line = true → (String.length line < n)%nat →
  fgets n (line +:+ String nl rest) = (line +:+ String nl EmptyString, rest).
Proof.
  revert n. induction line as [|c line IH]; intros [|n] Hc Hl; cbn in Hl; try lia; [done|].
  cbn in Hc. bool_hyps.
  change (String c line +:+ String nl rest) with (String c (line +:+ String nl rest)). cbn [fgets].
  by rewrite H, IH by (done || lia).
Qed.

Lemma nonempty_snoc s c : nonempty (s +:+ String c EmptyString) = true.
Proof. by destruct s. Qed.

Lemma strip_line line :
  string_forallb line_char line = true → strip_line_end (line +:+ String nl EmptyString) = line.
Proof.
  induction line as [|c line IH]; [done|]. intros H. cbn [string_forallb] in H. bool_hyps.
  change (String c line +:+ String nl EmptyString) with (String c (line +:+ String nl EmptyString)).
  cbn [strip_line_end]. rewrite IH by done. unfold line_char in *. bool_hyps.
  destruct line; [|done].
  by repeat match goal with E : Ascii.eqb _ _ = false |- _ => rewrite E; clear E end.
Qed.

Lemma c_string_clean s : no_char "000" s = true → c_string s = s.
Proof.
  unfold c_string. induction s as [|c s IH]; [done|]. cbn. unfold is_char. intros H. bool_hyps.
  rewrite H. destruct (span _ s) as [l r] eqn:E. cbn in *. by rewrite IH.
Qed.

Lemma line_char_no c line :
  (c = nl ∨ c = "000"%char) → string_forallb line_char line = true → no_char c line = true.
Proof.
  intros Hc. apply forallb_impl. intros d H. unfold line_char in H. bool_hyps.
  destruct Hc as [-> | ->]; by apply negb_true_iff.
Qed.

(** ** Records *)

Section records.
Context `{NumberLaws, HashOrderLaws}.

(** A copied record the text represents: fields of bounded length that are not
    taken for a comment, counters and times within their widths. *)
Record savable (r : LsmHistoryPersistenceRecord) : Prop := {
  sv_fields : Forall (λ f, string_forallb field_char f = true)
                     [pr_key r; pr_name r; pr_user r; pr_identity r];
  sv_not_comment : char_is (pr_key r) 0 "#" = false;
  sv_length : (String.length (pr_key r) + String.length (pr_name r) + String.length (pr_user r)
               + String.length (pr_identity r) <= Z.to_nat 16000)%nat;
  sv_counters : u64 (pr_read_bytes r) ∧ u64 (pr_write_bytes r) ∧ u64 (pr_peak_rss_bytes r);
  sv_times : - 2 ^ 63 <= pr_first_seen r < 2 ^ 63 ∧ - 2 ^ 63 <= pr_last_seen r < 2 ^ 63;
}.

(** A formatted number of seconds reads back as [seconds]. *)
Definition seconds_reload (value seconds : double) : Prop :=
  ∃ text, infiltratr_format_fixed_ascii value 6 64 = Some text
    ∧ infiltratr_parse_double_range text d0 seconds_limit d0 = (true, seconds).

(** The entry a record is loaded as. *)
Record reloads (r : LsmHistoryPersistenceRecord) (e : LsmHistoryEntry) : Prop := {
  rl_texts : he_key e = pr_key r ∧ he_name e = pr_name r ∧ he_user e = pr_user r
             ∧ he_identity e = pr_identity r;
  rl_cpu : seconds_reload (pr_cpu_seconds r) (he_cpu_seconds e);
  rl_active : seconds_reload (pr_active_seconds r) (he_active_seconds e);
  rl_counters : he_read_bytes e = pr_read_bytes r ∧ he_write_bytes e = pr_write_bytes r
                ∧ he_peak_rss_bytes e = pr_peak_rss_bytes r;
  rl_times : he_first_seen e = pr_first_seen r ∧ he_last_seen e = pr_last_seen r;
  rl_live : he_current_rss_bytes e = 0 ∧ he_live_generation e = 0;
}.

Lemma print_i64_text n :
  string_forallb field_char (print_i64 n) = true ∧ (String.length (print_i64 n) ≤ 21)%nat.
Proof.
  unfold print_i64. destruct (Z.ltb_spec n 0).
  - destruct (print_u64_text (- n)) as (Ht & _ & Hl); [lia|]. cbn [String.length string_forallb].
    split; [|lia]. apply andb_true_iff. split; [done|].
    by eapply forallb_impl; [apply decimal_field_char|].
  - destruct (print_u64_text n) as (Ht & _ & Hl); [lia|]. split; [|lia].
    by eapply forallb_impl; [apply decimal_field_char|].
Qed.

Lemma print_u64_chars n :
  u64 n → string_forallb field_char (print_u64 n) = true ∧ (String.length (print_u64 n) ≤ 20)%nat.
Proof.
  intros Hn. destruct (print_u64_text n) as (Ht & _ & Hl); [apply Hn|]. split; [|lia].
  by eapply forallb_impl; [apply decimal_field_char|].
Qed.

Lemma seconds_text value seconds :
  seconds_reload value seconds →
  ∃ text, infiltratr_format_fixed_ascii value 6 64 = Some text
    ∧ infiltratr_parse_double_range text d0 seconds_limit d0 = (true, seconds)
    ∧ string_forallb field_char text = true ∧ (String.length text < 64)%nat.
Proof.
  intros (text & Ef & Ep). destruct (format_fixed_text _ _ _ _ Ef) as (Hc & _ & Hl).
  exists text. split_and!; [done|done| |done].
  by eapply forallb_impl; [apply fixed_field_char|].
Qed.

(** A saved row is the row of its entry. *)
Lemma record_line r e :
  savable r → reloads r e →
  ∃ fields, record_fields r = Some fields ∧ length fields = 11%nat
    ∧ Forall (λ f, string_forallb field_char f = true) fields
    ∧ (String.length (CStrings.join tabs fields) < LSM_HISTORY_MAX_LINE_BYTES - 1)%nat
    ∧ head fields = Some (pr_key r) ∧ entry_of_fields fields = Some e.
Proof.
  intros [Hf _ Hl (U1 & U2 & U3) (T1 & T2)] [(R1 & R2 & R3 & R4) Hcpu Hact (R5 & R6 & R7) (R8 & R9) (R10 & R11)].
  destruct (seconds_text _ _ Hcpu) as (cpu & Ec & Pc & Cc & Lc).
  destruct (seconds_text _ _ Hact) as (act & Ea & Pa & Ca & La).
  destruct (print_u64_chars _ U1) as [C1 L1]. destruct (print_u64_chars _ U2) as [C2 L2].
  destruct (print_u64_chars _ U3) as [C3 L3].
  destruct (print_i64_text (pr_first_seen r)) as [C4 L4].
  destruct (print_i64_text (pr_last_seen r)) as [C5 L5].
  unfold record_fields. rewrite Ec, Ea. eexists. split; [done|]. split_and!; [done| | |done|].
  - apply (Forall_app_2 _ [_; _; _; _]); [exact Hf|]. rewrite !Forall_cons, Forall_nil. auto 10.
  - unfold LSM_HISTORY_MAX_LINE_BYTES, tabs. cbn [CStrings.join].
    rewrite !string_length_app. change (String.length (String tab EmptyString)) with 1%nat. lia.
  - cbn [entry_of_fields]. rewrite Pc, Pa, !parse_u64_print, !parse_i64_print by done. cbn.
    destruct e. cbn in *. congruence.
Qed.

Lemma load_saved_line loader r e fields :
  savable r → reloads r e → record_fields r = Some fields →
  history_load_record loader (CStrings.join tabs fields) = admit_entry loader e.
Proof.
  intros Hs Hr Hf. destruct (record_line r e Hs Hr) as (fields' & Ef & Hlen & Hc & _ & Hh & Ee).
  rewrite Ef in Hf. injection Hf as ->. unfold history_load_record.
  assert (Esp : g_strsplit tab (CStrings.join tabs fields) 11 = fields).
  { rewrite <-Hlen. apply g_strsplit_join; [by intros ->|done]. }
  cbv zeta. rewrite Esp, Hlen, Ee.
  assert (Hn : nonempty (CStrings.join tabs fields) = true
               ∧ char_is (CStrings.join tabs fields) 0 "#" = false).
  { destruct fields as [|k [|n fields]]; try done. injection Hh as ->.
    pose proof (sv_not_comment _ Hs) as Hk. by destruct (pr_key r). }
  destruct Hn as [-> ->]. done.
Qed.

(** The loop over a stream of such lines. *)
Definition admit_all (acc : LsmHistoryState * bool) (entries : list LsmHistoryEntry)
    : LsmHistoryState * bool :=
  foldl (λ acc e, let '(loader, stale) := admit_entry acc.1 e in (loader, acc.2 || stale)) acc entries.

Definition line_ok (line : string) : Prop :=
  string_forallb line_char line = true ∧ (String.length line < LSM_HISTORY_MAX_LINE_BYTES - 1)%nat.

Lemma load_one_line fuel loader truncated line rest :
  line_ok line →
  load_lines (S fuel) loader truncated (line +:+ String nl rest)
  = let '(loader, stale) := history_load_record loader line in
    load_lines fuel loader (truncated || stale) rest.
Proof.
  intros [Hc Hl]. cbn [load_lines].
  destruct (line +:+ String nl rest) as [|c s] eqn:E; [by destruct line|]. rewrite <-E.
  rewrite fgets_line by (done || by eapply line_char_no; [left|]).
  rewrite c_string_clean, strip_line; [|done|].
  2:{ unfold no_char. rewrite CStrings.forallb_app. apply andb_true_iff. split; [|done].
      by eapply line_char_no; [right|]. }
  rewrite nonempty_snoc, last_char_app by done. done.
Qed.

Lemma append_records_app output rs :
  append_records output rs = (λ t, output +:+ t) <$> append_records EmptyString rs.
Proof.
  revert output. induction rs as [|r rs IH]; intros output; cbn [append_records].
  { cbn. by rewrite string_app_nil_r. }
  destruct (record_fields r) as [fields|]; [|done].
  rewrite (IH (output +:+ _)), (IH (EmptyString +:+ _)).
  destruct (append_records _ rs) as [t|]; [|done]. cbn. by rewrite !string_app_assoc.
Qed.

Lemma load_saved_lines rs es :
  Forall2 (λ r e, savable r ∧ reloads r e) rs es →
  ∃ text, append_records EmptyString rs = Some text
    ∧ ∀ fuel loader truncated, (String.length text ≤ fuel)%nat →
        load_lines fuel loader truncated text = admit_all (loader, truncated) es.
Proof.
  induction 1 as [|r e rs es [Hs Hr] _ (text & Et & IH)].
  { exists EmptyString. split; [done|]. intros [|fuel] loader truncated _; done. }
  destruct (record_line r e Hs Hr) as (fields & Ef & _ & Hc & Hl & _ & _).
  cbn [append_records]. rewrite Ef, append_records_app, Et.
  exists (CStrings.join tabs fields +:+ String nl text). split; [cbn [fmap option_fmap option_map]; by rewrite !string_app_assoc|].
  intros fuel loader truncated Hfuel. rewrite string_length_app in Hfuel. cbn in Hfuel.
  destruct fuel as [|fuel]; [lia|].
  rewrite load_one_line by (split; [by apply join_line_char|done]).
  rewrite (load_saved_line _ _ e) by done. cbn [admit_all foldl fst snd].
  destruct (admit_entry loader e) as [loader' stale]. rewrite IH by lia. done.
Qed.

Definition entry_table (es : list LsmHistoryEntry) : HistoryTable :=
  list_to_map ((λ e, (he_key e, e)) <$> es).

Lemma entry_keys (es : list LsmHistoryEntry) : fst <$> ((λ e, (he_key e, e)) <$> es) = he_key <$> es.
Proof. by rewrite <-list_fmap_compose. Qed.

Lemma admit_all_newest es :
  NoDup (he_key <$> es) →
  let '(loader, stale) := admit_all (history_initial, false) es in
  history_wf loader ∧ size (entry_table es) = length es
  ∧ newest LSM_HISTORY_MAX_ENTRIES (entry_table es) (h_app_history loader)
  ∧ stale = (LSM_HISTORY_MAX_ENTRIES <? length es)%nat.
Proof.
  induction es as [|e es IH] using rev_ind; intros Hnd.
  { cbn. split_and!; [split; [|done]|done| |done].
    - intros k e He. by apply (lookup_empty_Some (M:=gmap string) k e) in He.
    - apply newest_refl. change (size (∅ : HistoryTable) ≤ LSM_HISTORY_MAX_ENTRIES)%nat.
      rewrite map_size_empty. lia. }
  rewrite fmap_app in Hnd. apply NoDup_app in Hnd as (Hnd & Hfresh & _).
  specialize (IH Hnd). unfold admit_all in *. rewrite foldl_app. cbn [foldl].
  destruct (foldl _ _ es) as [loader stale]. destruct IH as (Hwf & Hsz & Hnew & ->). cbn [fst snd].
  assert (Hk : he_key e ∉ fst <$> ((λ e, (he_key e, e)) <$> es)).
  { rewrite entry_keys. intros Hin. apply (Hfresh _ Hin). by left. }
  assert (Etab : entry_table (es ++ [e]) = <[he_key e := e]> (entry_table es)).
  { unfold entry_table. rewrite fmap_app. by apply list_to_map_snoc. }
  assert (Hm : entry_table es !! he_key e = None) by by apply not_elem_of_list_to_map_1.
  pose proof (admit_newest _ _ e Hwf Hnew Hm) as Hadm.
  destruct (admit_entry loader e) as [loader' stale']. destruct Hadm as (Hwf' & Hnew' & ->).
  rewrite Etab, map_size_insert_None, Hsz, length_app by done. cbn [length].
  split_and!; [done|lia|done|].
  destruct (Nat.ltb_spec LSM_HISTORY_MAX_ENTRIES (length es)),
    (Nat.leb_spec LSM_HISTORY_MAX_ENTRIES (length es)),
    (Nat.ltb_spec LSM_HISTORY_MAX_ENTRIES (length es + 1)); simpl; lia || done.
Qed.

(** A record of the table that the copy makes savable. *)
Record saves (r : LsmHistoryPersistenceRecord) (e : LsmHistoryEntry) : Prop := {
  ss_c_strings : Forall (λ f, no_char "000" f = true) [pr_key r; pr_name r; pr_user r; pr_identity r];
  ss_not_comment : char_is (pr_key r) 0 "#" = false;
  ss_length : (String.length (pr_key r) + String.length (pr_name r) + String.length (pr_user r)
               + String.length (pr_identity r) <= Z.to_nat 16000)%nat;
  ss_counters : u64 (pr_read_bytes r) ∧ u64 (pr_write_bytes r) ∧ u64 (pr_peak_rss_bytes r);
  ss_times : - 2 ^ 63 <= pr_first_seen r < 2 ^ 63 ∧ - 2 ^ 63 <= pr_last_seen r < 2 ^ 63;
  ss_reloads : reloads (copy_record r) e;
}.

Lemma saves_savable r e : saves r e → savable (copy_record r) ∧ reloads (copy_record r) e.
Proof.
  intros [Hc Hn Hl Hu Ht Hr]. split; [|done]. rewrite !Forall_cons in Hc.
  destruct Hc as (C1 & C2 & C3 & C4 & _). unfold copy_record. split; cbn.
  - rewrite !Forall_cons, Forall_nil. split_and!; try done; by apply copied_field.
  - destruct (pr_key r) as [|c key]; [done|]. unfold char_is, char_at in *. cbn in *.
    by destruct (is_separator c).
  - unfold copy_record_string. by rewrite !string_map_length.
  - done.
  - done.
Qed.

Lemma entry_table_size (es : list LsmHistoryEntry) :
  NoDup (he_key <$> es) → size (entry_table es) = length es.
Proof.
  intros Hnd. pose proof (admit_all_newest es Hnd) as Hadm.
  destruct (admit_all _ es). by destruct Hadm as (_ & ? & _).
Qed.

(** The text of the saved records, read back. *)
Lemma saved_text_loads records es :
  Forall2 saves records es → NoDup (he_key <$> es) →
  ∃ text table, file_text (copy_record <$> records) = Some text
    ∧ history_load_path text
      = (table, Z.of_nat (size table), (LSM_HISTORY_MAX_ENTRIES <? length records)%nat)
    ∧ newest LSM_HISTORY_MAX_ENTRIES (entry_table es) table
    ∧ ((length records ≤ LSM_HISTORY_MAX_ENTRIES)%nat → table = entry_table es).
Proof.
  intros Hsv Hnd.
  assert (Hall : Forall2 (λ r e, savable r ∧ reloads r e) (copy_record <$> records) es).
  { apply Forall2_fmap_l. eapply Forall2_impl; [exact Hsv|]. apply saves_savable. }
  destruct (load_saved_lines _ _ Hall) as (text & Et & Hload).
  unfold file_text. rewrite append_records_app, Et. cbn [fmap option_fmap option_map].
  exists (header +:+ text).
  pose proof (admit_all_newest es Hnd) as Hadm.
  destruct (admit_all (history_initial, false) es) as [loader stale] eqn:Ea.
  destruct Hadm as (Hwf & Hsz & Hnew & ->).
  exists (h_app_history loader). split_and!; [done| |done|].
  - unfold history_load_path, header. rewrite !string_app_assoc.
    change (String nl EmptyString +:+ text) with (String nl text).
    set (title := "# System-Monitor App History v1").
    rewrite string_length_app. change (String.length (String nl text)) with (S (String.length text)).
    rewrite Nat.add_succ_r, load_one_line by (split; [done|by apply Nat.ltb_lt]).
    change (history_load_record history_initial title) with (history_initial, false). cbn [orb].
    rewrite Hload, Ea by lia. by rewrite (wf_count _ Hwf), (Forall2_length _ _ _ Hsv).
  - intros Hle. apply (newest_all _ _ _ Hnew). by rewrite Hsz, <-(Forall2_length _ _ _ Hsv).
Qed.
End records.

(** (C23) The saved history reads back.  The text of a request parses, line by
    line and through the loader's fixed buffer, to exactly the entries its
    records stand for (separators in their strings turned into spaces, seconds
    as formatted), and the loader keeps the 4096 most recent of them, all of
    them when there are no more, and asks for a rewrite exactly when it dropped
    one. *)
Theorem history_file_round_trip `{NumberLaws, HashOrderLaws} config_dir path records es generation
    request :
  lsm_history_persistence_request_create config_dir path records generation true = Some request →
  Forall2 saves records es → NoDup (he_key <$> es) →
  ∃ text table, file_text (sr_entries request) = Some text
    ∧ history_load_path text
      = (table, Z.of_nat (size table), (LSM_HISTORY_MAX_ENTRIES <? length records)%nat)
    ∧ newest LSM_HISTORY_MAX_ENTRIES (entry_table es) table
    ∧ ((length records ≤ LSM_HISTORY_MAX_ENTRIES)%nat → table = entry_table es).
Proof.
  intros Hreq Hsv Hnd. unfold lsm_history_persistence_request_create in Hreq.
  destruct (_ || _); [done|]. injection Hreq as <-. by apply saved_text_loads.
Qed.

(** ** The save state machine *)

Module Save.

(** The coordinator's fields are atomics and a mutex; [co_mutex] names the
    holder, [co_freed] is set by the release that drops the last reference. *)
Inductive Thread := TaskThread | MainThread.
#[export] Instance Thread_eq_dec : EqDecision Thread.
Proof. solve_decision. Defined.

(** src: history_persistence.c:24-29 LsmHistorySaveCoordinator *)
Record LsmHistorySaveCoordinator := {
  co_write_mutex : option Thread;
  co_references : Z;
  co_latest_scheduled_generation : Z;
  co_latest_written_generation : Z;
  co_freed : bool;
}.
#[export] Instance eta_LsmHistorySaveCoordinator : Eta LsmHistorySaveCoordinator := λ x,
  Build_LsmHistorySaveCoordinator (co_write_mutex x) (co_references x)
    (co_latest_scheduled_generation x) (co_latest_written_generation x) (co_freed x).

(** src: history_persistence.c lsm_history_persistence_coordinator_create *)
Definition lsm_history_persistence_coordinator_create : LsmHistorySaveCoordinator :=
  {| co_write_mutex := None; co_references := 1; co_latest_scheduled_generation := 0;
     co_latest_written_generation := 0; co_freed := false |}.

(** src: history_persistence.c lsm_history_persistence_coordinator_retain *)
Definition coordinator_retain (c : LsmHistorySaveCoordinator) : LsmHistorySaveCoordinator :=
  c <| co_references := wrap 32 (co_references c + 1) |>.

(** src: history_persistence.c lsm_history_persistence_coordinator_release *)
Definition coordinator_release (c : LsmHistorySaveCoordinator) : LsmHistorySaveCoordinator :=
  let before := co_references c in
  let c := c <| co_references := wrap 32 (before - 1) |> in
  if negb (before =? 1) then c else c <| co_freed := true |>.

(** src: history_persistence.c lsm_history_persistence_note_scheduled *)
Definition lsm_history_persistence_note_scheduled (generation : Z) (c : LsmHistorySaveCoordinator)
    : LsmHistorySaveCoordinator :=
  c <| co_latest_scheduled_generation := generation |>.

(** *** One write, between two accesses to the shared state *)

Inductive WritePhase :=
| FirstScheduled
| FirstWritten
| Encode
| Lock (text : string)
| AgainScheduled (text : string)
| AgainWritten (text : string)
| Publish (text : string)
| Unlock (failure : Z) (written : bool)
| Returned (failure : Z) (written : bool).

Record Writer := { w_request : LsmHistorySaveRequest; w_phase : WritePhase }.
#[export] Instance eta_Writer : Eta Writer := λ x, Build_Writer (w_request x) (w_phase x).

Definition w_generation (w : Writer) : Z := sr_generation (w_request w).

(** What the file system answers: the failures of [lsm_mkdir_parents] and of the
    atomic replacement, and whether a failed replacement took effect anyway. *)
Record WriteEnv := { env_mkdir : Z; env_write : Z; env_replaced : bool }.

Definition ERANGE : Z := 34.
Definition ENOMEM : Z := 12.

(** The file, with the generation of the snapshot in it (for the statements). *)
Record Disk := { disk_text : option string; disk_generation : Z }.

Section machine.
Context `{ArithmeticOps, TextOps, NumberOps, HashOrder}.

(** [None] when the thread waits for the mutex or has returned. *)
(** src: history_persistence.c lsm_history_persistence_request_write *)
Definition writer_step (me : Thread) (env : WriteEnv) (c : LsmHistorySaveCoordinator) (disk : Disk)
    (w : Writer) : option (LsmHistorySaveCoordinator * Disk * Writer) :=
  let generation := w_generation w in
  let goto phase := w <| w_phase := phase |> in
  match w_phase w with
  | FirstScheduled =>
      Some (c, disk, goto (if generation <? co_latest_scheduled_generation c
                           then Returned 0 false else FirstWritten))
  | FirstWritten =>
      Some (c, disk, goto (if generation <=? co_latest_written_generation c
                           then Returned 0 false else Encode))
  | Encode =>
      Some (c, disk, goto (if negb (env_mkdir env =? 0) then Returned (env_mkdir env) false
                           else match file_text (sr_entries (w_request w)) with
                                | None => Returned ERANGE false
                                | Some text => Lock text
                                end))
  | Lock text =>
      match co_write_mutex c with
      | None => Some (c <| co_write_mutex := Some me |>, disk, goto (AgainScheduled text))
      | Some _ => None
      end
  | AgainScheduled text =>
      Some (c, disk, goto (if generation <? co_latest_scheduled_generation c
                           then Unlock 0 false else AgainWritten text))
  | AgainWritten text =>
      Some (c, disk, goto (if generation <=? co_latest_written_generation c
                           then Unlock 0 false else Publish text))
  | Publish text =>
      let replaced := {| disk_text := Some text; disk_generation := generation |} in
      if env_write env =? 0
      then Some (c <| co_latest_written_generation := generation |>, replaced,
                 goto (Unlock 0 true))
      else Some (c, if env_replaced env then replaced else disk, goto (Unlock (env_write env) false))
  | Unlock failure written =>
      Some (c <| co_write_mutex := None |>, disk, goto (Returned failure written))
  | Returned _ _ => None
  end.

(** *** The main loop *)

Inductive AppPhase := Running | Destroying | Destroyed.

(** [m_task] is the save task in flight, until its completion ran; [m_sync] the
    write the main thread itself is in.  Once the application is destroyed
    [m_history] keeps the last accounting, for the statements. *)
Record MachineState := {
  m_history : LsmHistoryState;
  m_coordinator : LsmHistorySaveCoordinator;
  m_disk : Disk;
  m_task : option Writer;
  m_sync : option Writer;
  m_app : AppPhase;
  m_shutting_down : bool;
}.
#[export] Instance eta_MachineState : Eta MachineState := λ x,
  Build_MachineState (m_history x) (m_coordinator x) (m_disk x) (m_task x) (m_sync x) (m_app x)
    (m_shutting_down x).

(** Where the file lies; fixed while the program runs. *)
Variables (config_dir history_path : string).

(** The records of the table. *)
(** src: history.c:326-353 history_save_request_create *)
Definition table_records (h : LsmHistoryState) : list LsmHistoryPersistenceRecord :=
  record_of_entry <$> take (Z.to_nat (h_entry_count h)) (snd <$> hash_iterate (h_app_history h)).

(** src: history.c history_save_request_create *)
Definition history_save_request_create (h : LsmHistoryState) (allocated : bool)
    : option LsmHistorySaveRequest :=
  lsm_history_persistence_request_create config_dir history_path (table_records h)
    (h_mutation_generation h) allocated.

(** The request of a save retains the coordinator and notes its generation. *)
(** src: history.c:782-785 lsm_history_save *)
Definition schedule (request : LsmHistorySaveRequest) (c : LsmHistorySaveCoordinator)
    : LsmHistorySaveCoordinator :=
  lsm_history_persistence_note_scheduled (sr_generation request) (coordinator_retain c).

(** src: history.c history_report_save_failure *)
Definition history_report_save_failure (h : LsmHistoryState) (failure : Z) : LsmHistoryState :=
  if (failure =? 0) || h_save_error_reported h then h else h <| h_save_error_reported := true |>.

(** The asynchronous path: there is a window and a coordinator. *)
(** src: history.c lsm_history_save *)
Definition lsm_history_save (m : MachineState) (allocated : bool) : MachineState :=
  let h := m_history m in
  if negb (h_dirty h) then m
  else if h_load_pending h then m <| m_history := h <| h_save_again := true |> |>
  else if h_save_pending h then m <| m_history := h <| h_save_again := true |> |>
  else match history_save_request_create h allocated with
       | None => m <| m_history := history_report_save_failure h ENOMEM |>
       | Some request =>
           m <| m_coordinator := schedule request (m_coordinator m) |>
             <| m_history := h <| h_save_pending := true |> |>
             <| m_task := Some {| w_request := request; w_phase := FirstScheduled |} |>
       end.

(** A save requested while another was pending. *)
(** src: history.c:716-720 history_save_complete *)
Definition save_again (m : MachineState) (allocated : bool) : MachineState :=
  let h := m_history m in
  if h_save_again h && negb (m_shutting_down m)
  then lsm_history_save (m <| m_history := h <| h_save_again := false |> |>) allocated
  else m.

(** [written] and [failure] are what the worker returned for [generation]; the
    request is released with the task. *)
(** src: history.c history_save_complete *)
Definition history_save_complete (m : MachineState) (generation failure : Z) (written : bool)
    (allocated : bool) : MachineState :=
  let m := m <| m_task := None |> <| m_coordinator := coordinator_release (m_coordinator m) |> in
  let h := m_history m <| h_save_pending := false |> in
  let h :=
    if failure =? 0 then
      let h := h <| h_save_error_reported := false |> in
      if written && (generation =? h_mutation_generation h) then h <| h_dirty := false |> else h
    else history_report_save_failure h failure in
  save_again (m <| m_history := h |>) allocated.

(** src: history.c history_load_complete *)
Definition history_load_complete (m : MachineState) (loaded : option (HistoryTable * bool))
    (array_allocated allocated : bool) : MachineState :=
  let h := m_history m <| h_load_pending := false |> in
  let h := history_merge_loaded h loaded array_allocated in
  save_again (m <| m_history := h |>) allocated.

(** src: history.c history_reset *)
Definition reset_and_save (m : MachineState) (allocated : bool) : MachineState :=
  lsm_history_save (m <| m_history := history_reset (m_history m) |>) allocated.

(** The shutdown up to the synchronous write it may need. *)
(** src: history.c:1181-1208 lsm_history_destroy *)
Definition lsm_history_destroy (m : MachineState) (allocated : bool) : MachineState :=
  let h := m_history m in
  let m := m <| m_app := Destroying |> in
  if h_dirty h && negb (h_load_pending h) then
    match history_save_request_create h allocated with
    | None => m
    | Some request =>
        m <| m_coordinator := schedule request (m_coordinator m) |>
          <| m_sync := Some {| w_request := request; w_phase := FirstScheduled |} |>
    end
  else m.

(** The return of the synchronous write. *)
(** src: history.c:735-748 history_save_checked_sync *)
Definition sync_complete (m : MachineState) (generation failure : Z) (written : bool)
    : MachineState :=
  let persisted :=
    (failure =? 0)
    && (written || (generation <=? co_latest_written_generation (m_coordinator m))) in
  let m := m <| m_sync := None |> <| m_coordinator := coordinator_release (m_coordinator m) |> in
  if persisted
  then m <| m_history := m_history m <| h_dirty := false |> <| h_save_error_reported := false |> |>
  else m.

(** The main thread is in its loop. *)
Definition idle (m : MachineState) : Prop := m_app m = Running ∧ m_sync m = None.

(** Every interleaving of the main loop, the worker and the file system.  A
    snapshot of a running system is not empty, and the 32-bit mutation
    generation has not saturated. *)
Inductive step : MachineState → MachineState → Prop :=
| step_ingest m rows now_mono now_epoch allocated :
    idle m → m_shutting_down m = false → rows ≠ [] →
    h_mutation_generation (m_history m) < uint_max →
    step m (m <| m_history := lsm_app_history_ingest (m_history m) rows now_mono now_epoch allocated |>)
| step_reset m allocated :
    idle m → h_mutation_generation (m_history m) < uint_max → step m (reset_and_save m allocated)
| step_timer m allocated :
    idle m → step m (lsm_history_save m allocated)
| step_loaded m loaded array_allocated allocated :
    idle m → h_load_pending (m_history m) = true →
    h_mutation_generation (m_history m) < uint_max →
    step m (history_load_complete m loaded array_allocated allocated)
| step_saved m w failure written allocated :
    idle m → m_task m = Some w → w_phase w = Returned failure written →
    step m (history_save_complete m (w_generation w) failure written allocated)
| step_orphaned m w failure written :
    m_app m = Destroyed → m_task m = Some w → w_phase w = Returned failure written →
    step m (m <| m_task := None |> <| m_coordinator := coordinator_release (m_coordinator m) |>)
| step_shut_down m :
    idle m → step m (m <| m_shutting_down := true |>)
| step_destroy m allocated :
    idle m → step m (lsm_history_destroy m allocated)
| step_synced m w failure written :
    m_app m = Destroying → m_sync m = Some w → w_phase w = Returned failure written →
    step m (sync_complete m (w_generation w) failure written)
| step_destroyed m :
    m_app m = Destroying → m_sync m = None →
    step m (m <| m_app := Destroyed |> <| m_coordinator := coordinator_release (m_coordinator m) |>)
| step_task m env w c disk w' :
    m_task m = Some w →
    writer_step TaskThread env (m_coordinator m) (m_disk m) w = Some (c, disk, w') →
    step m (m <| m_coordinator := c |> <| m_disk := disk |> <| m_task := Some w' |>)
| step_main m env w c disk w' :
    m_sync m = Some w →
    writer_step MainThread env (m_coordinator m) (m_disk m) w = Some (c, disk, w') →
    step m (m <| m_coordinator := c |> <| m_disk := disk |> <| m_sync := Some w' |>).

(** The program starts with an empty history while the saved one loads. *)
Definition machine_initial (text : option string) : MachineState :=
  {| m_history := history_initial <| h_load_pending := true |>;
     m_coordinator := lsm_history_persistence_coordinator_create;
     m_disk := {| disk_text := text; disk_generation := 0 |};
     m_task := None; m_sync := None; m_app := Running; m_shutting_down := false |}.

Definition reachable (m : MachineState) : Prop :=
  ∃ text, rtc step (machine_initial text) m.
End machine.
End Save.

#[export] Instance AppPhase_eq_dec : EqDecision Save.AppPhase.
Proof. solve_decision. Defined.

Module SaveFacts.
Import Save.

Section invariant.
Context `{ArithmeticOps, TextOps, NumberOps, HashOrder}.
Variables (config_dir history_path : string).
Abbreviation step := (step config_dir history_path).
Abbreviation reachable := (reachable config_dir history_path).

(** What a save of the present table writes. *)
Definition snapshot (h : LsmHistoryState) : list LsmHistoryPersistenceRecord :=
  copy_record <$> table_records h.

Definition critical (phase : WritePhase) : bool :=
  match phase with
  | AgainScheduled _ | AgainWritten _ | Publish _ | Unlock _ _ => true
  | _ => false
  end.
Definition phase_text (phase : WritePhase) : option string :=
  match phase with
  | Lock text | AgainScheduled text | AgainWritten text | Publish text => Some text
  | _ => None
  end.
(** The write holds the mutex and is the newest scheduled one of its time. *)
Definition checked (phase : WritePhase) : bool :=
  match phase with AgainWritten _ | Publish _ => true | _ => false end.
Definition reports_written (phase : WritePhase) : bool :=
  match phase with Unlock _ written | Returned _ written => written | _ => false end.

Record writer_ok (h : LsmHistoryState) (c : LsmHistorySaveCoordinator) (disk : Disk) (t : Thread)
    (w : Writer) : Prop := {
  wo_generation : 0 < w_generation w <= co_latest_scheduled_generation c;
  wo_snapshot : w_generation w = h_mutation_generation h → sr_entries (w_request w) = snapshot h;
  wo_mutex : critical (w_phase w) = true ↔ co_write_mutex c = Some t;
  wo_text : ∀ text, phase_text (w_phase w) = Some text →
              file_text (sr_entries (w_request w)) = Some text;
  wo_checked : checked (w_phase w) = true → disk_generation disk <= w_generation w;
  wo_publish : ∀ text, w_phase w = Publish text →
                 co_latest_written_generation c < w_generation w;
  wo_written : reports_written (w_phase w) = true →
                 w_generation w <= co_latest_written_generation c;
}.

Definition holders (m : MachineState) : Z :=
  (if m_app m is Destroyed then 0 else 1) + (if m_task m is Some _ then 1 else 0)
  + (if m_sync m is Some _ then 1 else 0).

Definition writer_of (m : MachineState) (t : Thread) : option Writer :=
  match t with TaskThread => m_task m | MainThread => m_sync m end.

Record inv (m : MachineState) : Prop := {
  i_generations :
    0 <= co_latest_written_generation (m_coordinator m)
    ∧ co_latest_written_generation (m_coordinator m) <= disk_generation (m_disk m)
    ∧ disk_generation (m_disk m) <= co_latest_scheduled_generation (m_coordinator m)
    ∧ co_latest_scheduled_generation (m_coordinator m) <= h_mutation_generation (m_history m);
  i_writers : ∀ t w, writer_of m t = Some w →
    writer_ok (m_history m) (m_coordinator m) (m_disk m) t w;
  i_mutex : ∀ t, co_write_mutex (m_coordinator m) = Some t → is_Some (writer_of m t);
  i_disk : 0 < disk_generation (m_disk m) → disk_generation (m_disk m) = h_mutation_generation (m_history m) →
    is_Some (disk_text (m_disk m)) ∧ disk_text (m_disk m) = file_text (snapshot (m_history m));
  i_clean : h_dirty (m_history m) = false →
    h_mutation_generation (m_history m) = 0
    ∨ co_latest_written_generation (m_coordinator m) = h_mutation_generation (m_history m);
  i_dirty : h_dirty (m_history m) = true → 0 < h_mutation_generation (m_history m);
  i_loading : h_load_pending (m_history m) = true →
    m_task m = None ∧ m_sync m = None ∧ co_latest_scheduled_generation (m_coordinator m) = 0;
  i_pending : m_app m = Running → h_save_pending (m_history m) = false → m_task m = None;
  i_sync : m_app m ≠ Destroying → m_sync m = None;
  i_current : ∀ w, m_sync m = Some w → w_generation w = h_mutation_generation (m_history m);
  i_references : co_references (m_coordinator m) = holders m;
  i_freed : co_freed (m_coordinator m) = bool_decide (holders m = 0);
}.

Lemma save_inv_initial text : inv (machine_initial text).
Proof.
  split; cbn; try done; try lia. by intros [] w.
Qed.

(** *** A write *)

(** The state after a write made a step. *)
Definition after_write (m : MachineState) (t : Thread) (c : LsmHistorySaveCoordinator) (disk : Disk)
    (w : Writer) : MachineState :=
  let m := m <| m_coordinator := c |> <| m_disk := disk |> in
  match t with TaskThread => m <| m_task := Some w |> | MainThread => m <| m_sync := Some w |> end.

Lemma writer_of_after m t c disk w t' :
  writer_of (after_write m t c disk w) t' = if decide (t' = t) then Some w else writer_of m t'.
Proof. by destruct t, t'. Qed.

(** The facts a step of one write leaves to the other. *)
Lemma writer_step_frame me env c disk w c' disk' w' :
  writer_step me env c disk w = Some (c', disk', w') →
  w_request w' = w_request w
  ∧ co_latest_scheduled_generation c' = co_latest_scheduled_generation c
  ∧ co_references c' = co_references c ∧ co_freed c' = co_freed c
  ∧ (c' = c ∧ disk' = disk
     ∨ co_write_mutex c = None ∧ co_write_mutex c' = Some me ∧ disk' = disk
       ∧ co_latest_written_generation c' = co_latest_written_generation c
     ∨ critical (w_phase w) = true).
Proof.
  unfold writer_step. intros E.
  destruct (w_phase w); repeat case_match; simplify_eq/=; split_and!; auto 10.
Qed.

Lemma checked_critical phase : checked phase = true → critical phase = true.
Proof. by destruct phase. Qed.

(** A write leaves the other thread's write alone. *)
Lemma writer_ok_other h c disk c' disk' t w :
  writer_ok h c disk t w →
  co_latest_scheduled_generation c' = co_latest_scheduled_generation c →
  co_latest_written_generation c <= co_latest_written_generation c' →
  (co_write_mutex c' = Some t ↔ co_write_mutex c = Some t) →
  (disk' = disk ∧ co_latest_written_generation c' = co_latest_written_generation c)
  ∨ critical (w_phase w) = false →
  writer_ok h c' disk' t w.
Proof.
  intros [Hg Hs Hm Ht Hc Hp Hw] Esch Hle Hmx Hcase. split; [by rewrite Esch|done|by rewrite Hmx|done| | |].
  - intros Hch. destruct Hcase as [[-> _]|Hn]; [by apply Hc|].
    apply checked_critical in Hch. congruence.
  - intros text Hph. destruct Hcase as [[_ ->]|Hn]; [by eapply Hp|].
    rewrite Hph in Hn. done.
  - intros Hr. specialize (Hw Hr). lia.
Qed.

(** A step of a write, as seen by the shared state and by the write itself. *)
Lemma writer_step_ok h me env c disk w c' disk' w' :
  writer_ok h c disk me w →
  co_latest_written_generation c <= disk_generation disk <= co_latest_scheduled_generation c →
  writer_step me env c disk w = Some (c', disk', w') →
  writer_ok h c' disk' me w'
  ∧ co_latest_scheduled_generation c' = co_latest_scheduled_generation c
  ∧ co_references c' = co_references c ∧ co_freed c' = co_freed c
  ∧ co_latest_written_generation c <= co_latest_written_generation c'
     <= disk_generation disk'
  ∧ disk_generation disk <= disk_generation disk' <= co_latest_scheduled_generation c
  ∧ (disk' = disk ∧ co_latest_written_generation c' = co_latest_written_generation c
     ∨ co_write_mutex c = Some me
       ∧ (disk' = disk ∨ disk_generation disk' = w_generation w
            ∧ ∃ text, disk_text disk' = Some text
              ∧ file_text (sr_entries (w_request w)) = Some text))
  ∧ (co_write_mutex c' = co_write_mutex c
     ∨ co_write_mutex c = None ∧ co_write_mutex c' = Some me
     ∨ co_write_mutex c = Some me ∧ co_write_mutex c' = None).
Proof.
  intros [Hg Hs Hm Ht Hc Hp Hw] Hord E. unfold writer_step in E. unfold w_generation in *.
  destruct (w_phase w) as [| | |text|text|text|text|f b|f b]; cbn in Hm, Ht, Hc, Hp, Hw.
  - destruct (Z.ltb_spec (sr_generation (w_request w)) (co_latest_scheduled_generation c));
      injection E as <- <- <-; split_and!; try (split; unfold w_generation; cbn); naive_solver lia.
  - destruct (Z.leb_spec (sr_generation (w_request w)) (co_latest_written_generation c));
      injection E as <- <- <-; split_and!; try (split; unfold w_generation; cbn); naive_solver lia.
  - destruct (env_mkdir env =? 0); cbn [negb] in E;
      [destruct (file_text (sr_entries (w_request w))) eqn:Ef|];
      injection E as <- <- <-; split_and!; try (split; unfold w_generation; cbn); naive_solver lia.
  - destruct (co_write_mutex c) eqn:Em; [done|].
    injection E as <- <- <-; split_and!; try (split; unfold w_generation; cbn); naive_solver lia.
  - destruct (Z.ltb_spec (sr_generation (w_request w)) (co_latest_scheduled_generation c));
      injection E as <- <- <-; split_and!; try (split; unfold w_generation; cbn); naive_solver lia.
  - destruct (Z.leb_spec (sr_generation (w_request w)) (co_latest_written_generation c));
      injection E as <- <- <-; split_and!; try (split; unfold w_generation; cbn); naive_solver lia.
  - specialize (Hp text eq_refl). destruct (env_write env =? 0); [|destruct (env_replaced env)];
      injection E as <- <- <-; split_and!; try (split; unfold w_generation; cbn); naive_solver lia.
  - injection E as <- <- <-; split_and!; try (split; unfold w_generation; cbn); naive_solver lia.
  - done.
Qed.

Lemma holders_after m t c disk w w0 :
  writer_of m t = Some w0 → holders (after_write m t c disk w) = holders m.
Proof. unfold holders. destruct t; cbn; by intros ->. Qed.

Lemma inv_write m t w env c disk w' :
  inv m → writer_of m t = Some w →
  writer_step t env (m_coordinator m) (m_disk m) w = Some (c, disk, w') →
  inv (after_write m t c disk w')
  ∧ disk_generation (m_disk m) <= disk_generation disk.
Proof.
  intros [(G1 & G2 & G3 & G4) Hw Hmx Hd Hc Hdi Hl Hp Hsy Hcur Hr Hf] Ew E.
  destruct (writer_step_ok _ _ _ _ _ _ _ _ _ (Hw t w Ew) (conj G2 G3) E)
    as (Hok & Esch & Eref & Efr & [W1 W2] & [D1 D2] & Hdisk & Hmutex).
  pose proof (holders_after m t c disk w' w Ew) as Eh.
  assert (Hm : m_history (after_write m t c disk w') = m_history m
    ∧ m_coordinator (after_write m t c disk w') = c ∧ m_disk (after_write m t c disk w') = disk
    ∧ m_app (after_write m t c disk w') = m_app m) by by destruct t.
  destruct Hm as (Em & Ec & Ed & Ea).
  split; [|done]. split; rewrite ?Em, ?Ec, ?Ed, ?Ea, ?Eh, ?Esch, ?Eref, ?Efr; try done.
  - lia.
  - intros t' x. rewrite writer_of_after. destruct (decide (t' = t)) as [->|Hne]; [by intros [= <-]|].
    intros Ex. pose proof (Hw t' x Ex) as Hox. eapply writer_ok_other; [exact Hox|done|done| |].
    + destruct Hmutex as [->|[[-> ->]|[-> ->]]]; naive_solver.
    + destruct Hdisk as [?|[Hme _]]; [by left|right].
      apply not_true_is_false. intros Hcr. apply (wo_mutex _ _ _ _ _ Hox) in Hcr. congruence.
  - intros t' Ht'. rewrite writer_of_after. destruct (decide (t' = t)) as [->|Hne]; [eauto|].
    apply Hmx. destruct Hmutex as [E'|[[_ E']|[_ E']]]; congruence.
  - intros Hpos Heq. destruct Hdisk as [[-> _]|[_ [-> |(Eg & text & Et & Ef)]]]; [auto|auto|].
    rewrite Et. split; [eauto|].
    rewrite <-(wo_snapshot _ _ _ _ _ (Hw t w Ew)) by congruence. done.
  - intros Hdirty. destruct (Hc Hdirty); [by left|right]. lia.
  - intros Hload. destruct (Hl Hload) as (E1 & E2 & _). destruct t; cbn in Ew; congruence.
  - intros Hrun Hsp. pose proof (Hp Hrun Hsp) as Et. destruct t; cbn in Ew |- *; congruence.
  - intros Happ. pose proof (Hsy Happ) as Es. destruct t; cbn in Ew |- *; congruence.
  - intros x. destruct (writer_step_frame _ _ _ _ _ _ _ _ E) as (Ereq & _).
    destruct t; cbn; [apply Hcur|]. intros [= <-]. unfold w_generation. rewrite Ereq. by apply Hcur.
Qed.

(** *** The main loop *)

(** A mutation of the accounting: a new generation, marked for saving. *)
Definition mutated (h h' : LsmHistoryState) : Prop :=
  h_mutation_generation h' = h_mutation_generation h + 1 ∧ h_dirty h' = true.

(** The same table under the same generation; only flags differ. *)
Definition reflagged (h h' : LsmHistoryState) : Prop :=
  h_app_history h' = h_app_history h ∧ h_entry_count h' = h_entry_count h
  ∧ h_mutation_generation h' = h_mutation_generation h.

Lemma snapshot_reflagged h h' : reflagged h h' → snapshot h' = snapshot h.
Proof. intros (E1 & E2 & _). unfold snapshot, table_records. by rewrite E1, E2. Qed.

Lemma writer_ok_newer h h' c disk t w :
  writer_ok h c disk t w → co_latest_scheduled_generation c <= h_mutation_generation h →
  h_mutation_generation h' = h_mutation_generation h + 1 → writer_ok h' c disk t w.
Proof. intros [Hg Hs Hm Ht Hc Hp Hw] Hle Eg. split; try done. intros. lia. Qed.

Lemma writer_ok_reflagged h h' c disk t w :
  writer_ok h c disk t w → reflagged h h' → writer_ok h' c disk t w.
Proof.
  intros [Hg Hs Hm Ht Hc Hp Hw] Hre. split; try done.
  rewrite (snapshot_reflagged _ _ Hre). by destruct Hre as (_ & _ & ->).
Qed.

Lemma inv_mutated m h' :
  inv m → m_sync m = None → mutated (m_history m) h' →
  (h_load_pending h' = true → h_load_pending (m_history m) = true) →
  h_save_pending h' = h_save_pending (m_history m) →
  inv (m <| m_history := h' |>).
Proof.
  intros [(G1 & G2 & G3 & G4) Hw Hmx Hd Hc Hdi Hl Hp Hsy Hcur Hr Hf] Hnosync [Eg Ed] Hload Hsp.
  split; cbn; rewrite ?Eg, ?Ed, ?Hsp; try done; try lia.
  - intros t w Ew. eapply writer_ok_newer; [by apply Hw|lia|done].
  - auto.
  - congruence.
Qed.

(** A change of flags; a cleared dirty flag needs the write it reports. *)
Lemma inv_reflagged m h' :
  inv m → reflagged (m_history m) h' →
  (h_load_pending h' = true → h_load_pending (m_history m) = true) →
  (h_save_pending h' = false → h_save_pending (m_history m) = false ∨ m_task m = None) →
  (h_dirty h' = true → h_dirty (m_history m) = true) →
  (h_dirty h' = false → h_dirty (m_history m) = false
     ∨ co_latest_written_generation (m_coordinator m) = h_mutation_generation (m_history m)) →
  inv (m <| m_history := h' |>).
Proof.
  intros [(G1 & G2 & G3 & G4) Hw Hmx Hd Hc Hdi Hl Hp Hsy Hcur Hr Hf] Hre Hload Hsp Hdt Hdf.
  pose proof Hre as (_ & _ & Eg).
  split; cbn; rewrite ?Eg, ?(snapshot_reflagged _ _ Hre); try done; try lia; auto.
  - intros t w Ew. eapply writer_ok_reflagged; [by apply Hw|done].
  - intros Hdirty. destruct (Hdf Hdirty); auto.
  - intros Hrun Hf'. destruct (Hsp Hf'); auto.
Qed.

(** *** Requests and references *)

Lemma request_spec h allocated r :
  history_save_request_create config_dir history_path h allocated = Some r →
  sr_generation r = h_mutation_generation h ∧ sr_entries r = snapshot h.
Proof.
  unfold history_save_request_create, lsm_history_persistence_request_create.
  destruct (_ || _); [done|]. by intros [= <-].
Qed.

Lemma holders_range m : 0 <= holders m <= 3.
Proof. unfold holders. repeat case_match; lia. Qed.

Lemma inv_schedule m t r allocated :
  inv m → h_dirty (m_history m) = true → h_load_pending (m_history m) = false →
  writer_of m t = None → m_app m ≠ Destroyed →
  (t = TaskThread → h_save_pending (m_history m) = true) →
  (t = MainThread → m_app m = Destroying) →
  history_save_request_create config_dir history_path (m_history m) allocated = Some r →
  inv (after_write m t (schedule r (m_coordinator m)) (m_disk m)
         {| w_request := r; w_phase := FirstScheduled |}).
Proof.
  intros [(G1 & G2 & G3 & G4) Hw Hmx Hd Hc Hdi Hl Hp Hsy Hcur Hr Hf] Hdirty Hload Hnone Happ Htask Hmain Ereq.
  apply request_spec in Ereq as [Eg Ee]. specialize (Hdi Hdirty).
  set (w := {| w_request := r; w_phase := FirstScheduled |}).
  assert (Hh : holders (after_write m t (schedule r (m_coordinator m)) (m_disk m) w) = holders m + 1
               ∧ 1 <= holders m).
  { unfold holders. destruct t; cbn in *; rewrite Hnone; destruct (m_app m); done || (repeat case_match; lia). }
  destruct Hh as [Hh Hpos]. pose proof (holders_range m).
  assert (Hm : m_history (after_write m t (schedule r (m_coordinator m)) (m_disk m) w) = m_history m
    ∧ m_coordinator (after_write m t (schedule r (m_coordinator m)) (m_disk m) w) = schedule r (m_coordinator m)
    ∧ m_disk (after_write m t (schedule r (m_coordinator m)) (m_disk m) w) = m_disk m
    ∧ m_app (after_write m t (schedule r (m_coordinator m)) (m_disk m) w) = m_app m) by by destruct t.
  destruct Hm as (Em & Ec & Ed & Ea).
  split; rewrite ?Em, ?Ec, ?Ed, ?Ea, ?Hh; cbn; rewrite ?Eg; try done; try lia.
  - intros t' x. rewrite writer_of_after. destruct (decide (t' = t)) as [->|Hne].
    + intros [= <-]. split; cbn; rewrite ?Eg; try done; try (unfold w_generation; cbn; lia).
      split; [done|]. intros Ht. destruct (Hmx t Ht) as [y Ey]. congruence.
    + intros Ex. destruct (Hw t' x Ex). split; cbn; rewrite ?Eg; try done. lia.
  - intros t' Ht'. rewrite writer_of_after. destruct (decide (t' = t)); eauto.
  - intros E. congruence.
  - intros Hrun Hsp. destruct t; cbn in *; [|by apply Hp]. rewrite Htask in Hsp by done. done.
  - intros E. destruct t; cbn in *; [by apply Hsy|]. by rewrite Hmain in E by done.
  - intros x. destruct t; cbn; [apply Hcur|]. by intros [= <-].
  - rewrite Hr. unfold wrap. rewrite Z.mod_small; lia.
  - rewrite Hf, !bool_decide_eq_false_2 by lia. done.
Qed.

(** The release of a request whose write has returned. *)
Definition drop_writer (m : MachineState) (t : Thread) : MachineState :=
  let m := match t with
           | TaskThread => m <| m_task := None |>
           | MainThread => m <| m_sync := None |>
           end in
  m <| m_coordinator := coordinator_release (m_coordinator m) |>.

(** Dropping a reference. *)
Lemma release_spec c n :
  co_references c = n + 1 → 0 <= n <= 3 → co_freed c = false →
  coordinator_release c = {| co_write_mutex := co_write_mutex c; co_references := n;
    co_latest_scheduled_generation := co_latest_scheduled_generation c;
    co_latest_written_generation := co_latest_written_generation c;
    co_freed := bool_decide (n = 0) |}.
Proof.
  intros Er Hn Hf. unfold coordinator_release. rewrite Er.
  assert (E : wrap 32 (n + 1 - 1) = n) by (unfold wrap; rewrite Z.mod_small; lia).
  destruct (Z.eqb_spec (n + 1) 1); cbn [negb]; unfold set_field; cbn; rewrite E; destruct c; cbn in *; subst.
  - by rewrite bool_decide_eq_true_2 by lia.
  - by rewrite bool_decide_eq_false_2 by lia.
Qed.

Lemma inv_drop m t w failure written :
  inv m → writer_of m t = Some w → w_phase w = Returned failure written →
  inv (drop_writer m t).
Proof.
  intros [Hg Hw Hmx Hd Hc Hdi Hl Hp Hsy Hcur Hr Hf] Ew Eph.
  assert (Hh : holders m = holders (drop_writer m t) + 1).
  { unfold holders. destruct t; cbn in *; rewrite Ew; cbn; lia. }
  pose proof (holders_range (drop_writer m t)) as Hrange. pose proof (holders_range m).
  rewrite Hh in Hf, Hr. rewrite bool_decide_eq_false_2 in Hf by lia.
  assert (Hm : m_history (drop_writer m t) = m_history m
    ∧ m_coordinator (drop_writer m t) = coordinator_release (m_coordinator m)
    ∧ m_disk (drop_writer m t) = m_disk m ∧ m_app (drop_writer m t) = m_app m) by by destruct t.
  destruct Hm as (Em & Ec & Ed & Ea).
  rewrite (release_spec _ _ Hr Hrange Hf) in Ec.
  assert (Hwr : ∀ t' x, writer_of (drop_writer m t) t' = Some x → t' ≠ t ∧ writer_of m t' = Some x).
  { intros [] x; destruct t; cbn; done || (by intros E; split). }
  split; rewrite ?Em, ?Ec, ?Ed, ?Ea; cbn; try done.
  - intros t' x [_ Ex]%Hwr. by destruct (Hw t' x Ex); split.
  - intros t' Ht'. destruct (Hmx t' Ht') as [x Ex]. exists x. destruct (decide (t' = t)) as [->|Hne].
    + exfalso. apply (wo_mutex _ _ _ _ _ (Hw t x Ex)) in Ht'. rewrite Ew in Ex. injection Ex as <-.
      by rewrite Eph in Ht'.
    + by destruct t, t'.
  - intros Hload. destruct (Hl Hload) as (E1 & E2 & ?). destruct t; cbn; auto.
  - intros Hrun Hsp. pose proof (Hp Hrun Hsp). by destruct t.
  - intros E. pose proof (Hsy E). by destruct t.
  - intros x Ex. apply Hcur. by destruct t.
Qed.

(** *** The operations of the main loop *)

Lemma inv_save m allocated :
  inv m → m_app m = Running → inv (lsm_history_save config_dir history_path m allocated).
Proof.
  intros Hi Hrun. unfold lsm_history_save.
  destruct (h_dirty (m_history m)) eqn:Ed; cbn [negb]; [|done].
  destruct (h_load_pending (m_history m)) eqn:El.
  { apply inv_reflagged; cbn; rewrite ?Ed, ?El; auto; done. }
  destruct (h_save_pending (m_history m)) eqn:Es.
  { apply inv_reflagged; cbn; rewrite ?Ed, ?El, ?Es; auto; done. }
  destruct (history_save_request_create _ _ _ _) as [r|] eqn:Er.
  - assert (Hi' : inv (m <| m_history := m_history m <| h_save_pending := true |> |>)).
    { apply inv_reflagged; cbn; rewrite ?Ed, ?El; auto; done. }
    apply (inv_schedule _ TaskThread r allocated Hi'); cbn; try done.
    + by apply (i_pending _ Hi).
    + by rewrite Hrun.
  - unfold history_report_save_failure. destruct (_ || _).
    + by destruct m.
    + apply inv_reflagged; cbn; auto; done.
Qed.

Lemma inv_save_again m allocated :
  inv m → m_app m = Running → inv (save_again config_dir history_path m allocated).
Proof.
  intros Hi Hrun. unfold save_again. destruct (_ && _); [|done].
  apply inv_save; [|done]. apply inv_reflagged; cbn; auto; done.
Qed.

Lemma inv_save_complete m w failure written allocated :
  inv m → m_app m = Running → m_task m = Some w → w_phase w = Returned failure written →
  inv (history_save_complete config_dir history_path m (w_generation w) failure written allocated).
Proof.
  intros Hi Hrun Ew Eph. unfold history_save_complete.
  pose proof (inv_drop m TaskThread w _ _ Hi Ew Eph) as Hi1.
  change (m <| m_task := None |> <| m_coordinator := coordinator_release (m_coordinator m) |>)
    with (drop_writer m TaskThread).
  apply inv_save_again; [|done].
  pose proof (wo_written _ _ _ _ _ (i_writers _ Hi TaskThread w Ew)) as Hwr.
  rewrite Eph in Hwr. cbn [reports_written] in Hwr.
  pose proof (i_generations _ Hi) as (_ & G2 & G3 & G4).
  assert (Hlw : co_latest_written_generation (m_coordinator (drop_writer m TaskThread))
                = co_latest_written_generation (m_coordinator m)).
  { cbn. unfold coordinator_release. by case_match. }
  apply inv_reflagged; [done| | | | |]; rewrite ?Hlw;
    change (m_history (drop_writer m TaskThread)) with (m_history m); cbv zeta.
  - destruct (failure =? 0); [destruct (_ && _)|unfold history_report_save_failure; destruct (_ || _)]; done.
  - destruct (failure =? 0); [destruct (_ && _)|unfold history_report_save_failure; destruct (_ || _)]; done.
  - by right.
  - destruct (failure =? 0); [destruct (_ && _)|unfold history_report_save_failure; destruct (_ || _)]; done.
  - destruct (failure =? 0); [|unfold history_report_save_failure; destruct (_ || _); by left].
    destruct (written && _) eqn:Eb; [|by left]. right. cbn in Eb. bool_hyps.
    specialize (Hwr ltac:(done)). lia.
Qed.

Lemma inv_sync_complete m w failure written :
  inv m → m_sync m = Some w → w_phase w = Returned failure written →
  inv (sync_complete m (w_generation w) failure written).
Proof.
  intros Hi Ew Eph. unfold sync_complete.
  pose proof (inv_drop m MainThread w _ _ Hi Ew Eph) as Hi1.
  change (m <| m_sync := None |> <| m_coordinator := coordinator_release (m_coordinator m) |>)
    with (drop_writer m MainThread).
  pose proof (i_generations _ Hi) as (_ & G2 & G3 & G4). pose proof (i_current _ Hi w Ew) as Ecur.
  pose proof (wo_written _ _ _ _ _ (i_writers _ Hi MainThread w Ew)) as Hwr.
  rewrite Eph in Hwr. cbn [reports_written] in Hwr.
  assert (Hlw : co_latest_written_generation (m_coordinator (drop_writer m MainThread))
                = co_latest_written_generation (m_coordinator m)).
  { cbn. unfold coordinator_release. by case_match. }
  destruct (_ && _) eqn:Eb; [|done]. apply andb_prop in Eb as [_ Eb].
  apply inv_reflagged; cbn; auto; try done.
  intros _. right. change (co_latest_written_generation (coordinator_release (m_coordinator m)))
    with (co_latest_written_generation (m_coordinator (drop_writer m MainThread))). rewrite Hlw.
  apply orb_prop in Eb as [Eb|Eb]; [specialize (Hwr Eb)|]; lia.
Qed.

(** *** The accounting operations *)

(** The trim changes the table and its count, nothing else. *)
Lemma remove_oldest_frame h p h' :
  history_remove_oldest h p = Some h' →
  ∃ table count, h' = h <| h_app_history := table |> <| h_entry_count := count |>.
Proof.
  unfold history_remove_oldest. repeat case_match; intros [= <-]; do 2 eexists; [done|].
  unfold set_field. cbn. by destruct h.
Qed.

Lemma trim_loop_frame fuel h p changed :
  ∃ table count, (trim_loop fuel h p changed).1 = h <| h_app_history := table |> <| h_entry_count := count |>.
Proof.
  assert (Hsame : ∀ h : LsmHistoryState, ∃ table count,
    h = h <| h_app_history := table |> <| h_entry_count := count |>).
  { intros []. by do 2 eexists. }
  revert h changed. induction fuel as [|fuel IH]; intros h changed; cbn [trim_loop];
    (destruct (_ <? _); [|apply Hsame]); [apply Hsame|].
  destruct (history_remove_oldest h p) as [h1|] eqn:E; [|apply Hsame].
  destruct (remove_oldest_frame _ _ _ E) as (t1 & c1 & ->).
  destruct (IH (h <| h_app_history := t1 |> <| h_entry_count := c1 |>) true) as (t & c & ->).
  by exists t, c.
Qed.

Lemma trim_frame h p allocated :
  ∃ table count, (history_trim_to_limit h p allocated).1
                 = h <| h_app_history := table |> <| h_entry_count := count |>.
Proof.
  unfold history_trim_to_limit. destruct (_ <=? _); [destruct h; by do 2 eexists|].
  destruct allocated; [|apply trim_loop_frame].
  destruct (foldl _ _ _) as [table removed]. by do 2 eexists.
Qed.

Lemma mark_dirty_mutated h :
  h_mutation_generation h < uint_max →
  mutated h (history_mark_dirty h)
  ∧ h_load_pending (history_mark_dirty h) = h_load_pending h
  ∧ h_save_pending (history_mark_dirty h) = h_save_pending h.
Proof.
  intros Hlt. unfold history_mark_dirty. rewrite (proj2 (Z.ltb_lt _ _) Hlt). done.
Qed.

Lemma ingest_mutated h rows now_mono now_epoch allocated :
  rows ≠ [] → h_mutation_generation h < uint_max →
  let h' := lsm_app_history_ingest h rows now_mono now_epoch allocated in
  mutated h h' ∧ h_load_pending h' = h_load_pending h ∧ h_save_pending h' = h_save_pending h.
Proof.
  intros Hrows Hlt h'. subst h'. unfold lsm_app_history_ingest.
  destruct (foldl _ _ rows) as [[table samples] count].
  destruct rows as [|row rows]; [done|]. cbn [length Nat.eqb negb].
  match goal with |- context [history_trim_to_limit ?x ?g ?a] =>
    destruct (trim_frame x g a) as (t & c & ->) end.
  match goal with |- context [history_mark_dirty ?x] => apply (mark_dirty_mutated x Hlt) end.
Qed.

Lemma reset_mutated h :
  h_mutation_generation h < uint_max →
  mutated h (history_reset h) ∧ h_load_pending (history_reset h) = h_load_pending h
  ∧ h_save_pending (history_reset h) = h_save_pending h.
Proof.
  intros Hlt. unfold history_reset.
  match goal with |- context [history_mark_dirty ?x] => apply (mark_dirty_mutated x Hlt) end.
Qed.

(** The merge marks a change, or only unites the tables. *)
Lemma merge_frame h loaded allocated :
  h_mutation_generation h < uint_max →
  let h' := history_merge_loaded h loaded allocated in
  (mutated h h' ∨ h_mutation_generation h' = h_mutation_generation h ∧ h_dirty h' = h_dirty h)
  ∧ h_load_pending h' = h_load_pending h ∧ h_save_pending h' = h_save_pending h.
Proof.
  intros Hlt. unfold history_merge_loaded. destruct loaded as [[entries truncated]|]; [|by cbn; auto].
  destruct (foldl _ _ _) as [table count].
  destruct (history_trim_to_limit _ _ _) as [h1 trimmed] eqn:E.
  match type of E with history_trim_to_limit ?x ?g ?a = _ =>
    destruct (trim_frame x g a) as (t & c & Et) end.
  rewrite E in Et. cbn [fst] in Et. subst h1. cbv zeta.
  destruct (_ || _); [|by cbn; auto].
  match goal with |- context [history_mark_dirty ?x] =>
    destruct (mark_dirty_mutated x) as ([? ?] & ? & ?); [done|] end.
  by split; [left|].
Qed.

(** While the file loads there is no write, so the merge may change the table
    under its generation. *)
Lemma inv_loaded m h' :
  inv m → h_load_pending (m_history m) = true → m_sync m = None →
  (mutated (m_history m) h' ∨ h_mutation_generation h' = h_mutation_generation (m_history m)
     ∧ h_dirty h' = h_dirty (m_history m)) →
  h_load_pending h' = false → h_save_pending h' = h_save_pending (m_history m) →
  inv (m <| m_history := h' |>).
Proof.
  intros Hi Hload Hns [Hm|[Eg Ed]] El Es.
  { apply inv_mutated; try done; congruence. }
  destruct Hi as [(G1 & G2 & G3 & G4) Hw Hmx Hd Hc Hdi Hl Hp Hsy Hcur Hr Hf].
  destruct (Hl Hload) as (Et & _ & Esch).
  split; cbn; rewrite ?Eg, ?Ed, ?El, ?Es; try done; try lia.
  intros [] w; cbn; congruence.
Qed.

Lemma inv_destroying m :
  inv m → m_app m = Running → inv (m <| m_app := Destroying |>).
Proof.
  intros [Hg Hw Hmx Hd Hc Hdi Hl Hp Hsy Hcur Hr Hf] Hrun.
  assert (Hh : holders (m <| m_app := Destroying |>) = holders m).
  { unfold holders. cbn. by rewrite Hrun. }
  split; try done; by rewrite Hh.
Qed.

Lemma inv_destroy m allocated :
  inv m → m_app m = Running → m_sync m = None →
  inv (lsm_history_destroy config_dir history_path m allocated).
Proof.
  intros Hi Hrun Hns. pose proof (inv_destroying m Hi Hrun) as Hi'. unfold lsm_history_destroy.
  destruct (_ && _) eqn:Eb; [|done]. bool_hyps.
  destruct (history_save_request_create _ _ _ _) as [r|] eqn:Er; [|done].
  by apply (inv_schedule _ MainThread r allocated Hi').
Qed.

Lemma inv_destroyed m :
  inv m → m_app m = Destroying → m_sync m = None →
  inv (m <| m_app := Destroyed |> <| m_coordinator := coordinator_release (m_coordinator m) |>).
Proof.
  intros [Hg Hw Hmx Hd Hc Hdi Hl Hp Hsy Hcur Hr Hf] Happ Hns.
  set (m' := m <| m_app := Destroyed |> <| m_coordinator := coordinator_release (m_coordinator m) |>).
  assert (Hh : holders m = holders m' + 1).
  { unfold holders. cbn. rewrite Happ. lia. }
  pose proof (holders_range m'). pose proof (holders_range m).
  rewrite Hh in Hf, Hr. rewrite bool_decide_eq_false_2 in Hf by lia.
  assert (Ec : m_coordinator m' = coordinator_release (m_coordinator m)) by done.
  rewrite (release_spec _ _ Hr ltac:(lia) Hf) in Ec.
  change (m_history m) with (m_history m') in *. change (m_disk m) with (m_disk m') in *.
  split; rewrite ?Ec; try done.
  intros t w Ew. by destruct (Hw t w ltac:(by destruct t)); split.
Qed.

(** *** Every step *)

Lemma inv_step m m' : inv m → step m m' → inv m'.
Proof.
  intros Hi Hs. destruct Hs as
    [m rows mono epoch a [Hrun Hns] _ Hrows Hlt|m a [Hrun Hns] Hlt|m a [Hrun _]
    |m loaded aa a [Hrun Hns] Hload Hlt|m w f b a [Hrun _] Ew Eph|m w f b Happ Ew Eph|m [Hrun Hns]
    |m a [Hrun Hns]|m w f b Happ Ew Eph|m Happ Hns|m env w c disk w' Ew E|m env w c disk w' Ew E].
  - destruct (ingest_mutated (m_history m) rows mono epoch a Hrows Hlt) as (Hm & El & Es).
    apply inv_mutated; try done. by rewrite El.
  - apply inv_save; [|done].
    destruct (reset_mutated (m_history m) Hlt) as (Hm & El & Es).
    apply inv_mutated; try done. by rewrite El.
  - by apply inv_save.
  - apply inv_save_again; [|done].
    set (h := m_history m <| h_load_pending := false |>).
    destruct (merge_frame h loaded aa) as (Hm & El & Es); [exact Hlt|].
    apply inv_loaded; [done|done|done|exact Hm|exact El|exact Es].
  - by apply inv_save_complete.
  - change (inv (drop_writer m TaskThread)). by eapply inv_drop.
  - destruct Hi. by split.
  - apply inv_destroy; done.
  - by apply inv_sync_complete.
  - by apply inv_destroyed.
  - change (inv (after_write m TaskThread c disk w')). by eapply inv_write.
  - change (inv (after_write m MainThread c disk w')). by eapply inv_write.
Qed.

Lemma inv_reachable m : reachable m → inv m.
Proof.
  intros [text Hr]. pose proof (save_inv_initial text) as Hi.
  induction Hr as [|m1 m2 m3 Hs _ IH]; [done|]. apply IH. by eapply inv_step.
Qed.

Lemma save_disk m allocated :
  m_disk (lsm_history_save config_dir history_path m allocated) = m_disk m.
Proof. unfold lsm_history_save. by repeat case_match. Qed.

Lemma save_again_disk m allocated :
  m_disk (save_again config_dir history_path m allocated) = m_disk m.
Proof. unfold save_again. destruct (_ && _); [by rewrite save_disk|done]. Qed.

Lemma step_disk m m' : inv m → step m m' → disk_generation (m_disk m) <= disk_generation (m_disk m').
Proof.
  intros Hi Hs. destruct Hs; try done.
  - unfold reset_and_save. rewrite save_disk. done.
  - rewrite save_disk. done.
  - unfold history_load_complete. rewrite save_again_disk. done.
  - unfold history_save_complete. rewrite save_again_disk. done.
  - unfold lsm_history_destroy. by repeat case_match.
  - unfold sync_complete. by destruct (_ && _).
  - by eapply (inv_write m TaskThread).
  - by eapply (inv_write m MainThread).
Qed.
End invariant.

(** (C3) A clean history is on disk.  In every interleaving of snapshots,
    timers, resets, the load, worker tasks, failed writes and the shutdown, once
    the history was modified and its dirty flag is clear, the file holds exactly
    the text of the present table, and reading it gives back its entries. *)
Theorem clean_history_is_durable `{ArithmeticOps, TextOps, NumberLaws, HashOrderLaws}
    config_dir history_path m :
  reachable config_dir history_path m →
  h_dirty (m_history m) = false → 0 < h_mutation_generation (m_history m) →
  ∃ text, disk_text (m_disk m) = Some text
    ∧ file_text (copy_record <$> table_records (m_history m)) = Some text
    ∧ ∀ es, Forall2 saves (table_records (m_history m)) es → NoDup (he_key <$> es) →
        (length es ≤ LSM_HISTORY_MAX_ENTRIES)%nat →
        history_load_path text = (entry_table es, Z.of_nat (length es), false).
Proof.
  intros Hr Hclean Hpos. pose proof (inv_reachable _ _ m Hr) as Hi.
  pose proof (i_generations _ Hi) as (_ & G2 & G3 & G4).
  destruct (i_clean _ Hi Hclean) as [|Ew]; [lia|].
  destruct (i_disk _ Hi) as [[text Et] Ef]; [lia|lia|].
  unfold snapshot in Ef. exists text. split_and!; [done|by rewrite <-Ef|].
  intros es Hsv Hnd Hle. destruct (saved_text_loads _ _ Hsv Hnd) as (text' & table & E & El & _ & Ea).
  rewrite E, Et in Ef. injection Ef as ->.
  rewrite (Forall2_length _ _ _ Hsv) in El, Ea. rewrite El, (Ea Hle).
  rewrite entry_table_size by done. by rewrite (proj2 (Nat.ltb_ge _ _) Hle).
Qed.

(** (C37) Ordering and ownership.  No step replaces a newer snapshot by an
    older one; at most one of the worker and the main thread is between the lock
    and the unlock; the coordinator stays allocated while the application, a
    task or a synchronous write refers to it, and is freed when none does. *)
Theorem saves_are_ordered `{ArithmeticOps, TextOps, NumberOps, HashOrder} config_dir history_path m m' :
  reachable config_dir history_path m → step config_dir history_path m m' →
  disk_generation (m_disk m) <= disk_generation (m_disk m')
  ∧ (∀ w w', m_task m' = Some w → m_sync m' = Some w' →
       critical (w_phase w) && critical (w_phase w') = false)
  ∧ co_freed (m_coordinator m')
    = bool_decide (m_app m' = Destroyed ∧ m_task m' = None ∧ m_sync m' = None).
Proof.
  intros Hr Hs. pose proof (inv_reachable _ _ m Hr) as Hi. pose proof (inv_step _ _ m m' Hi Hs) as Hi'.
  split_and!; [by eapply step_disk| |].
  - intros w w' Et Es. destruct (critical (w_phase w)) eqn:Ew, (critical (w_phase w')) eqn:Ew'; try done.
    apply (wo_mutex _ _ _ _ _ (i_writers _ Hi' TaskThread w Et)) in Ew.
    apply (wo_mutex _ _ _ _ _ (i_writers _ Hi' MainThread w' Es)) in Ew'. congruence.
  - rewrite (i_freed _ Hi'). apply bool_decide_ext. unfold holders.
    destruct (m_app m'), (m_task m'), (m_sync m'); cbn; naive_solver lia.
Qed.
End SaveFacts.

(** ** Witnesses *)

From S2P Require Import CommonReference.

Module Runs.
Import Save.

Abbreviation run_step := (step "/config" "/config/app-history.tsv").
Abbreviation save_now m := (lsm_history_save "/config" "/config/app-history.tsv" m true).

Definition working_env : WriteEnv := {| env_mkdir := 0; env_write := 0; env_replaced := true |}.

(** Let the worker run on, and let its completion run. *)
Definition run_task (m : MachineState) : MachineState :=
  match m_task m with
  | Some w =>
      match writer_step TaskThread working_env (m_coordinator m) (m_disk m) w with
      | Some (c, disk, w') => m <| m_coordinator := c |> <| m_disk := disk |> <| m_task := Some w' |>
      | None => m
      end
  | None => m
  end.
Definition run_completion (m : MachineState) : MachineState :=
  match m_task m with
  | Some w =>
      match w_phase w with
      | Returned failure written =>
          history_save_complete "/config" "/config/app-history.tsv" m (w_generation w) failure written true
      | _ => m
      end
  | None => m
  end.

Lemma run_task_steps n m : rtc run_step m (Nat.iter n run_task m).
Proof.
  induction n as [|n IH]; [done|]. etrans; [exact IH|].
  change (Nat.iter (S n) run_task m) with (run_task (Nat.iter n run_task m)).
  generalize (Nat.iter n run_task m). intros m1. unfold run_task.
  destruct (m_task m1) as [w|] eqn:Ew; [|done].
  destruct (writer_step _ _ _ _ _) as [[[c d] w']|] eqn:E; [|done].
  apply rtc_once. by eapply step_task.
Qed.

Lemma run_completion_steps m : idle m → rtc run_step m (run_completion m).
Proof.
  intros Hi. unfold run_completion. destruct (m_task m) as [w|] eqn:Ew; [|done].
  destruct (w_phase w) eqn:Ep; try done. apply rtc_once. by apply step_saved.
Qed.

(** The saved history is absent, a snapshot is accounted, the timer fires. *)
Definition loaded_state : MachineState :=
  history_load_complete "/config" "/config/app-history.tsv" (machine_initial None) None true true.
Definition dirty_state : MachineState :=
  loaded_state <| m_history :=
    lsm_app_history_ingest (m_history loaded_state) [(browser 7 30 90, 9)] (double_of_Z 3) 60 true |>.
Definition saving_state : MachineState := save_now dirty_state.
Definition written_state : MachineState := Nat.iter 8 run_task saving_state.
Definition saved_state : MachineState := run_completion written_state.

Lemma dirty_reachable : reachable "/config" "/config/app-history.tsv" dirty_state.
Proof.
  exists None. apply (rtc_r _ loaded_state).
  - apply rtc_once, step_loaded; by vm_compute.
  - apply step_ingest; try done; by vm_compute.
Qed.

Lemma saving_reachable : reachable "/config" "/config/app-history.tsv" saving_state.
Proof.
  destruct dirty_reachable as [text Hr]. exists text. eapply rtc_r; [exact Hr|].
  by apply step_timer; vm_compute.
Qed.

Lemma saved_reachable : reachable "/config" "/config/app-history.tsv" saved_state.
Proof.
  destruct saving_reachable as [text Hr]. exists text.
  etrans; [exact Hr|]. etrans; [apply (run_task_steps 8)|].
  apply run_completion_steps. by vm_compute.
Qed.

Definition saved_line : string := CStrings.join tabs
  ["u|/b"; ""; ""; "/b"; "0.000000"; "0.000000"; "0"; "0"; "30"; "9"; "9"].

Lemma clean_history_is_durable_witness :
  disk_text (m_disk saved_state) = Some (header +:+ saved_line +:+ String nl EmptyString)
  ∧ file_text (copy_record <$> table_records (m_history saved_state)) = disk_text (m_disk saved_state).
Proof.
  destruct (SaveFacts.clean_history_is_durable _ _ saved_state saved_reachable)
    as (text & Et & Ef & _); [by vm_compute..|].
  rewrite Et, Ef. split; [|done]. rewrite <-Et. vm_compute. reflexivity.
Defined.

Lemma saves_are_ordered_witness :
  disk_generation (m_disk dirty_state) <= disk_generation (m_disk saving_state)
  ∧ co_freed (m_coordinator saving_state) = false.
Proof.
  destruct (SaveFacts.saves_are_ordered _ _ dirty_state saving_state dirty_reachable)
    as (Hle & _ & Hf); [by apply step_timer; vm_compute|].
  split; [exact Hle|]. rewrite Hf. vm_compute. reflexivity.
Defined.

(** *** A file *)

Definition saved_record (key : string) (reads : Z) : LsmHistoryPersistenceRecord :=
  record_of_entry (browser_entry reads 3 5) <| pr_key := key |> <| pr_name := "a" +:+ tabs +:+ "b" |>
    <| pr_cpu_seconds := d1 |>.
Definition reloaded_entry (key : string) (reads : Z) : LsmHistoryEntry :=
  browser_entry reads 0 5 <| he_key := key |> <| he_name := "a b" |> <| he_cpu_seconds := d1 |>.

Lemma saved_record_saves key reads :
  u64 reads → string_forallb field_char key = true → no_char "000" key = true →
  copy_record_string key = key → char_is key 0 "#" = false → (String.length key ≤ 100)%nat →
  saves (saved_record key reads) (reloaded_entry key reads).
Proof.
  intros Hu Hf H0 Hc Hn Hl. split.
  - rewrite !Forall_cons, Forall_nil. split_and!; [exact H0|done..].
  - exact Hn.
  - change (String.length key + 3 + 0 + 2 ≤ Z.to_nat 16000)%nat. lia.
  - split; [exact Hu|by vm_compute].
  - by vm_compute.
  - split; try done.
    + exists "1.000000". by split; vm_compute.
    + exists "0.000000". by split; vm_compute.
Qed.

Definition saved_request : LsmHistorySaveRequest :=
  {| sr_config_dir := "/config"; sr_path := "/config/app-history.tsv";
     sr_entries := copy_record <$> [saved_record "u|/b" 7; saved_record "v|/c" 9];
     sr_generation := 4 |}.

Lemma history_file_round_trip_witness :
  ∃ text table, file_text (sr_entries saved_request) = Some text
    ∧ history_load_path text = (table, 2, false)
    ∧ table !! "v|/c" = Some (reloaded_entry "v|/c" 9).
Proof.
  destruct (history_file_round_trip "/config" "/config/app-history.tsv"
              [saved_record "u|/b" 7; saved_record "v|/c" 9]
              [reloaded_entry "u|/b" 7; reloaded_entry "v|/c" 9] 4 saved_request)
    as (text & table & Et & El & _ & Eall).
  - reflexivity.
  - do 2 (apply Forall2_cons; split; [apply saved_record_saves; first [by vm_compute|cbn; lia]|]). by apply Forall2_nil.
  - change (NoDup ["u|/b"; "v|/c"]). apply (bool_decide_unpack _). vm_compute. done.
  - specialize (Eall ltac:(apply Nat.leb_le; vm_compute; reflexivity)). subst table.
    exists text, (entry_table [reloaded_entry "u|/b" 7; reloaded_entry "v|/c" 9]).
    split; [exact Et|]. split; [rewrite El; vm_compute; reflexivity|]. vm_compute. reflexivity.
Defined.

(** A reset confirmed while the saved history still loads is undone: the merge
    brings the old totals back and the next save writes them again. *)
Lemma reset_during_load_is_undone entry :
  he_key entry = "u|/b" →
  let m := reset_and_save "/config" "/config/app-history.tsv" (machine_initial None) true in
  h_app_history (m_history (history_load_complete "/config" "/config/app-history.tsv" m
    (Some ({["u|/b" := entry]}, false)) true true)) !! "u|/b" = Some entry.
Proof.
  intros Hk m. unfold history_load_complete, save_again, lsm_history_save.
  set (h0 := m_history m <| h_load_pending := false |>).
  assert (Et : h_app_history h0 = ∅ ∧ h_entry_count h0 = 0) by by vm_compute.
  destruct Et as [Et Ec]. set (h := history_merge_loaded _ _ _).
  assert (Eh : h_app_history h !! "u|/b" = Some entry).
  { unfold h, history_merge_loaded. cbn [hash_iterate sorted_hash_order].
    rewrite map_to_list_singleton, Et, Ec. cbn [foldl merge_row]. rewrite Hk, lookup_empty.
    unfold history_trim_to_limit. cbn -[h0 insert lookup].
    apply lookup_insert_eq. }
  repeat case_match; exact Eh.
Qed.
End Runs.
